(* ===== verification/_CoqProject ===== *)
-Q . S2P
Prelude.v
CLib.v
Minmea.v
MinmeaSpec.v
MinmeaRmc.v
Float32.v
FloatSpec.v
Gps.v
GpsSpec.v
GpsCoord.v
GpsMembers.v
Rc522.v
Rc522Spec.v
Rc522Card.v
Rc522Sim.v
Font.v
LcdTables.v
Lcd.v
LcdSpec.v
LcdText.v
Event.v
WaitQueue.v
AtClient.v
AtSocket.v
AtSocketSpec.v
AtEventSpec.v
AtReceive.v
AtParser.v
AtParserSpec.v
Netdev.v
NetdevSpec.v
AtDevice.v
AtDeviceSpec.v
AtDeviceAnswers.v
AtDeviceInit.v
AtDeviceLife.v
AtLayer.v
AtLayerSpec.v
AtStream.v
AtNames.v
AtNamesSpec.v
ClientServer.v
ClientSpec.v
Serial.v
SerialSpec.v
Sem.v
Mutex.v
MutexSpec.v
Poll.v
PollSpec.v
Heap.v
HeapBlocks.v
HeapSpec.v
HeapProgram.v
Sal.v
SalSpec.v
SalAt.v
SalClient.v
NetdevList.v
NetdevApi.v
WorkQueue.v
WorkQueueSpec.v
SerialDma.v
SerialDmaSpec.v
SerialFile.v
SerialFileSpec.v
AtInit.v
AtInitSpec.v
AtPort.v
AtPortSpec.v
GpsPort.v
GpsPortSpec.v
GpsLines.v
BoardTasks.v
