(* ===== verification/Prelude.v ===== *)
(** * The software of the car locator

    A Rocq library about the firmware in src/software/Car_Locator: a board with a GPS
    receiver, an RFID card reader, a display and an A9G cellular modem, under RT-Thread.
    The program's own code is the directory applications/; of the operating system the
    library models what the modem runs on: the event object of the kernel, its network
    interfaces, the serial ports, the AT client, its heap and locks, and the two socket
    layers above the modem.

    ** The program

    - gps.c: a thread collects the receiver's lines from a serial port ([data_read]) and
      hands each to [GPS_Analysis], whose handlers fill the global [gps_data] and print
      time, position and speed on the display.
    - minmea.c: a general parser of the same sentences.
    - rc522.c: the driver of the card reader, register accesses over SPI below, card
      commands above.
    - lcd.c, font.h: the display driver, two memory-mapped registers below, shapes and
      text above.
    - at_socket_a9g.c: the socket operations of the modem.  They run in the caller's
      thread and send AT commands; the URC functions run in the parser thread of the AT
      client (at_client.c) when a line of their table arrives; the two meet in an event
      of the kernel (ipc.c).
    - at_device_a9g.c: the modem as a network device (netdev.c): a thread switches it on
      and registers it with the cellular network, another follows the registration.
    - client_server.c: one cloud connection; it calls the socket layer (at_socket.c), which
      calls at_socket_a9g.c.
    - key.c, led.c, main.c: the key, the lights and the blinking loop.  at_sample_a9g.c
      registers the modem.

    ** Effects and faults (this file, CLib.v)

    A C function with effects is a computation [io W A] from a world to a result and a
    world, or to a [fault]: everything the C abstract machine leaves undefined
    (out-of-bounds access, null pointer, signed overflow, division by zero, an
    indeterminate value) and what stops the board (a failed assertion, a wait that never
    ends) is a fault of its own, so "no fault" is a statement about safety and
    termination together.  Unsigned integers are [Z] with the wrap written out ([u8],
    [u16], [u32]), signed arithmetic faults when it leaves its range.  A C string is the
    list of its bytes without the terminator (CLib.v).  [wp] and the [io_step] tactic
    are the program logic of the development, [io_may_fault] bounds the faults a function can
    have.

    ** Files

    - Minmea.v, MinmeaSpec.v, MinmeaRmc.v: minmea.c and the inline functions of minmea.h.
      The accepted sentences ([minmea_check_spec]), error detection, memory safety of the
      eight parsers, exactness of the number conversion, rounding, and that an RMC
      sentence, its fields present or empty, is parsed to what its text denotes.
    - Float32.v, Gps.v, GpsSpec.v: gps.c with single precision as the FPU computes it.
      Safety of all handlers on every line that does not end in a point and holds its GSV
      messages ([gps_analysis_memory_safe]), the value of a field, the line reader, and the
      inputs on which the GSV handler faults.
    - Rc522.v, Rc522Spec.v, Rc522Card.v, Rc522Sim.v: rc522.c over the interface [SpiBus].
      [Mfrc522] is the interface of the upper half, a register file; [SpiLaws] is what
      the hardware owes for it.  Every command is shown to do exactly the register
      accesses of its specification; Rc522Sim.v runs them on a simulated chip.
    - Font.v, LcdTables.v, Lcd.v, LcdSpec.v, LcdText.v: lcd.c, its start-up tables and
      fonts, over the sequence of accesses to the panel ([LcdPanel]).  The pixels lines,
      circles, rectangles and characters write.
    - Event.v: [rt_event_send] and [rt_event_recv] of ipc.c; no wake-up is lost.
    - AtClient.v: the AT client the modem driver calls, over the interface [Modem]
      (allocator, serial device, the other threads while a caller waits).
    - AtSocket.v, AtSocketSpec.v, AtEventSpec.v, AtReceive.v: at_socket_a9g.c.  What each
      operation sends, returns and restores, which event ends a wait, what reaches the
      application.
    - AtParser.v, AtParserSpec.v: the parser thread of the AT client, its lines, the
      separation of responses from URC lines, and the path of received data from the
      serial line to the application.  [Stream] is the interface of the serial line.
    - Netdev.v, NetdevSpec.v: the layer of network interfaces of the kernel (netdev.c,
      netdev_ipaddr.c): the status of an interface, its callbacks, and IPv4 addresses as
      text ([netdev_address_text]).
    - AtDevice.v: at_device_a9g.c, the initialisation thread with its retries, the link
      thread, power, sleep and the operations of the interface.  AtDeviceSpec.v: the session
      of commands of an attempt.  AtDeviceAnswers.v: which answers the session can read
      ([Answers]); with them it has no fault.  AtDeviceInit.v: the thread as a whole
      ([a9g_init_thread_outcome]).  AtDeviceLife.v: that switching on, going down and coming
      up again compose ([modem_lifecycle]), and the texts that do not fit their variables.
    - AtLayer.v, AtLayerSpec.v, AtStream.v: the socket layer (at_socket.c) over the links
      of its list of sockets.  [socket_numbers] is the invariant of the numbers handed to
      the application, [socket_stream] the refinement of a byte stream by the packets the
      modem delivers.
    - AtNames.v, AtNamesSpec.v: the rest of at_socket.c, host names, time limits and binding.
      Which address a name or a text stands for ([at_getaddrinfo_address],
      [at_gethostbyname_address]) and what a number stands for after [at_bind]
      ([at_bind_renumbers]).  [NameOps] is its interface to the modem.
    - Sal.v, SalSpec.v, SalAt.v: the socket abstraction layer (sal_socket.c, af_inet_at.c)
      between application and protocol family, over the class [SalWorld].  Its table owns
      the sockets it hands out ([sal_descriptors], under [SalLaws]), but not against a
      second thread ([sal_socket_race]); over the AT sockets, which implement the class with
      [at_sal_laws], a stored number does not survive a close ([sal_renumbered]), and the
      internet check closes a socket of the application ([internet_check_outcome]).
      SalClient.v: that socket is the cloud client's ([client_disconnected]).
    - WorkQueue.v, WorkQueueSpec.v: the work queue on whose thread that check runs
      (workqueue.c), with its thread, timers and callers interleaved step by step, a
      submission and the resumption behind it being two: each work is called once and in
      order, and the one fault is a thread that is resumed for nothing ([work_queue_order]);
      the submissions of [work_queue_lost] are not called.
    - NetdevList.v, NetdevApi.v: the links behind the list of Netdev.v
      ([netdev_list_refines]), what unregistering leaves of them
      ([netdev_unregister_outcome]), and the requests of applications and the shell, with
      what they come to for the modem ([modem_requests]).
    - ClientServer.v, ClientSpec.v: client_server.c, the cloud connection of the shell
      command [a9g], on top of the socket layer; it has at most one complete socket
      ([client_socket]).
    - Serial.v, SerialSpec.v, GpsPort.v, GpsPortSpec.v: the serial port (serial.c, device.c)
      and how gps.c opens and reads it.  The receive buffer refines a queue that keeps the
      last 1023 characters; interrupt and thread interleave step by step, and no wake-up
      is lost ([gps_receiver_live]).
    - GpsLines.v: from the interrupt to the display.  Lines that arrive at the port in any
      pieces are analysed once each, in order, and the analysis of a line does not depend
      on what earlier lines left in the buffer ([gps_lines_processed]).
    - FloatSpec.v, GpsCoord.v, GpsMembers.v: what a sentence leaves in [gps_data] and on the
      display ([gps_sentence_members]).  FloatSpec.v bounds the rounding error of each
      single-precision operation, GpsCoord.v that of a coordinate and of its text.
    - Sem.v: the semaphore of ipc.c.  SerialDma.v, SerialDmaSpec.v: the serial port in DMA
      mode (serial.c, drv_usart.c), a ring the hardware fills and two interrupts announce.
    - Mutex.v, MutexSpec.v: the mutex of ipc.c, with the priorities of the threads.  It
      refines a recursive lock with a queue and keeps the promises of priority inheritance,
      but for one in the queues of the AT client ([mutex_refines_lock]).
    - Heap.v, HeapBlocks.v, HeapSpec.v, HeapProgram.v: the allocator of mem.c over a memory
      of headers and bytes.  The headers link a list of blocks ([run]), of which each
      operation changes a piece; for a program the heap is a map of disjoint blocks that
      keep their bytes ([heap_refines]), and a request fails only for want of room
      ([rt_malloc_complete]).  Its searches have as much fuel as the heap has bytes, which is
      more than it has blocks.  The components above take the allocator as a parameter, which
      may fail at any call.
    - WaitQueue.v: the wait queues of the drivers (waitqueue.c).  SerialFile.v,
      SerialFileSpec.v: the serial port as a file, through which the shell reads the console;
      the reader sleeps only on an empty buffer and takes what has come within a bound on
      its steps ([console_reader_live]).
    - Poll.v, PollSpec.v: [poll] (poll.c) with the file table of dfs.c and its mutex, section
      by section.  Its invariant ([poll_ok]) gives that no event is slept over as long as
      there is memory for its nodes ([poll_no_lost_event]); two other behaviours of its wake-ups are theorems of their
      own: one for an event taken meanwhile makes it spin ([poll_spins]), and one that finds
      it at the mutex lets it through ([poll_breaks_lock]).
    - AtInit.v, AtInitSpec.v: [at_client_init] and [at_client_get] (at_client.c) over a map of
      the kernel's objects: what is allocated, freed and left behind on every branch
      ([at_client_init_outcome], [a9g_client_outcome]).
    - AtPort.v, AtPortSpec.v: [at_client_getchar] of the parser thread between the DMA and
      its interrupts; nothing is lost while the buffer has room ([at_getchar_stream]), but a
      notice can be, and the thread then sleeps on a character ([at_getchar_lost_notice]).
    - BoardTasks.v: key.c, led.c and main.c.

    ** Interfaces

    [SpiBus], [LcdPanel], [Modem] and [Board] are classes of operations of code or hardware
    that is not part of the program; theorems are proved for every instance (under the
    named laws where there are any: [SpiLaws], [Stream], [Clock]) and applied to simulated
    instances in the witnesses.  [Mfrc522] and [SocketOps] are both sides of an interface
    of the program: the lower half of the card driver implements the first, the modem
    driver the second ([a9g_socket_ops]), with [DriverLaws] as what it promises
    ([a9g_driver_laws]), and at_socket.c implements [SalWorld] for sal_socket.c; the code
    above is verified against the class.  [Arrivals] is what the parser thread delivers
    while a caller of the socket layer waits.  The member
    [at_client_init] of [Board] stands for [a9g_client] of AtInit.v, which may fault.

    ** Fuel

    A loop whose end is not structural takes fuel; the theorems about it state that the
    fuel the caller passes is enough ([minmea_scan]: the length of the format;
    [PcdComMF522]: its own counter; [LCD_DrawLine]: the distance; [LCD_Draw_Circle]: the
    radius; [a9g_socket_send]: the size; [readline_loop]: the length of the line;
    the walks over the list of sockets: the number of sockets of the device), or that no
    fuel is ([LCD_Fill] with the last row 65535).  [patience] bounds the polls of a pin of
    the modem that the model follows; waiting longer is a fault, so the theorems about
    the device cover the boards whose pin answers within it, for every bound.

    ** Not modelled

    The registration record of at_sample_a9g.c; [uart_putchar] and [uart_putstring] of
    gps.c, which nobody calls.  Of serial.c, the
    transfers that the driver of the board refuses (writing by interrupt or DMA) and the terminal
    controls, which are not configured (the AT commands are written through the interface
    [Modem]).  Of dfs.c, all but the file table and its lock.  Of at_socket.c, the wake-up
    of poll waiters; of sal_socket.c, TLS, which is not configured; of netdev.c, what the shell prints, and IPv6.  The
    floating-point helpers of minmea.h ([minmea_tofloat], [minmea_tocoord],
    [minmea_gettime]), which keep no state.  at_decive_a9g.c and a9g_gps_drv.c are not
    built.  The vendored kernel, drivers, HAL and packages beyond the files named above.

    Threads interleave where a caller waits (for an event, a semaphore, a line of the
    modem or a character) and between whole calls, not between two accesses of one call.  The
    serial port, [poll] and the work queue are finer: every call between a thread and its
    interrupts is a step.  The interrupt of a completed DMA transfer, which has the highest priority of the board, is
    taken as the DMA passes the end of the buffer. *)

From stdpp Require Export base tactics option list gmap strings.
From Stdlib Require Export ZArith Lia.

#[global] Open Scope Z_scope.
#[global] Set Default Goal Selector "1".

(** * Faults and fallible computations *)

(** What the C abstract machine does not define (or what stops the board):
    every partial operation of the models ends in one of these instead of an
    arbitrary value. *)
Inductive fault : Type :=
  | OutOfBounds
  | NullDeref
  | SignedOverflow
  | DivByZero
  | BadConversion
  | Uninitialised
  | AssertFailed
  | BadVarArg
  | Blocked.

Inductive res (A : Type) : Type :=
  | Ret (a : A)
  | Fault (f : fault).
Arguments Ret {A} _.
Arguments Fault {A} _.

#[global] Instance res_ret : MRet res := @Ret.
#[global] Instance res_bind : MBind res := λ A B k m,
  match m with Ret a => k a | Fault f => Fault f end.

(** A state-passing computation over a world [W] that may fault. *)
Definition io (W A : Type) : Type := W → res (A * W).

#[global] Instance io_ret {W} : MRet (io W) := λ A a w, Ret (a, w).
#[global] Instance io_bind {W} : MBind (io W) := λ A B k m w,
  match m w with Ret (a, w') => k a w' | Fault f => Fault f end.

Definition lift {W A} (r : res A) : io W A := λ w,
  match r with Ret a => Ret (a, w) | Fault f => Fault f end.
Definition io_fault {W A} (f : fault) : io W A := λ _, Fault f.
Definition gets {W A} (f : W → A) : io W A := λ w, Ret (f w, w).
Definition modify {W} (f : W → W) : io W unit := λ w, Ret (tt, f w).

(** [for (i = lo; i < lo + n; i++) body], for bodies without [break]. *)
Fixpoint for_ {W} (n : nat) (lo : Z) (body : Z → io W unit) : io W unit :=
  match n with
  | O => mret tt
  | S n => body lo ;; for_ n (lo + 1) body
  end.

(** A list of statements run in order. *)
Fixpoint seq_ {W} (ms : list (io W unit)) : io W unit :=
  match ms with
  | [] => mret tt
  | m :: ms => m ;; seq_ ms
  end.

(** * Record update

    C assigns single members; a model does it with [r <| member := v |>].  A
    record type gives its eta expansion once, as an instance of [Eta]. *)
Class Eta (R : Type) : Type := eta : R → R.

Class FieldUpdate {R E : Type} (get : R → E) : Type :=
  field_update : (E → E) → R → R.

Ltac field_update_by_eta R get :=
  let e := constr:(_ : Eta R) in
  let body := eval hnf in e in
  match eval pattern get in body with
  | ?rebuild _ => exact (λ f : _ → _, rebuild (λ r : R, f (get r)))
  end.

#[global] Hint Extern 0 (@FieldUpdate ?R _ ?get) =>
  field_update_by_eta R get : typeclass_instances.

Notation "r <| get := v |>" := (field_update (get := get) (λ _, v) r)
  (at level 1, left associativity, get constr at level 99, v constr at level 99).

(** * Machine integers *)

Definition u8 (z : Z) : Z := z mod 256.
Definition u16 (z : Z) : Z := z mod 65536.
Definition u32 (z : Z) : Z := z mod 4294967296.
Definition INT32_MAX : Z := 2147483647.
Definition INT32_MIN : Z := -2147483648.
(** Conversion to a signed 32-bit type (two's complement). *)
Definition i32 (z : Z) : Z := (z + 2147483648) mod 4294967296 - 2147483648.
Definition in_i32 (z : Z) : bool := (INT32_MIN <=? z) && (z <=? INT32_MAX).
(** The value of a signed 32-bit arithmetic expression: overflow is undefined. *)
Definition chk32 (z : Z) : res Z :=
  if in_i32 z then Ret z else Fault SignedOverflow.

(** [a / b] and [a % b] on [int]: truncated, undefined for 0 and INT_MIN / -1. *)
Definition quot32 (a b : Z) : res Z :=
  if b =? 0 then Fault DivByZero else chk32 (Z.quot a b).
Definition rem32 (a b : Z) : res Z :=
  if b =? 0 then Fault DivByZero else (_ ← chk32 (Z.quot a b); Ret (Z.rem a b)).

(** * A weakest-precondition calculus for [io]

    [wp m Q w]: from [w], [m] returns (no fault), and its value and final
    world satisfy [Q]. *)
Definition wp {W A} (m : io W A) (Q : A → W → Prop) (w : W) : Prop :=
  match m w with Ret (a, w') => Q a w' | Fault _ => False end.

(** ** Bytes and strings *)

Definition byte_of_ascii (a : Ascii.ascii) : Z := Z.of_N (Ascii.N_of_ascii a).

Fixpoint bytes (s : string) : list Z :=
  match s with
  | EmptyString => []
  | String a s => byte_of_ascii a :: bytes s
  end.

Definition is_byte (z : Z) : Prop := 0 <= z < 256.

(** * Automation *)

Create HintDb ints.
Create Rewrite HintDb ints_rw.
Create HintDb wpdb.
Create HintDb safe.

(** Linear arithmetic with [/] and [mod] by constants. *)
Ltac dlia := Z.div_mod_to_equations; lia.

(** Turn the boolean tests of the code into propositions. *)
Ltac bool_prop :=
  repeat match goal with
  | H : _ && _ = true |- _ => apply andb_true_iff in H; destruct H
  | H : _ && _ = false |- _ => apply andb_false_iff in H
  | H : _ || _ = true |- _ => apply orb_true_iff in H
  | H : _ || _ = false |- _ => apply orb_false_iff in H; destruct H
  | H : negb _ = true |- _ => apply negb_true_iff in H
  | H : negb _ = false |- _ => apply negb_false_iff in H
  | H : (_ =? _) = true |- _ => apply Z.eqb_eq in H
  | H : (_ =? _) = false |- _ => apply Z.eqb_neq in H
  | H : (_ <=? _) = true |- _ => apply Z.leb_le in H
  | H : (_ <=? _) = false |- _ => apply Z.leb_gt in H
  | H : (_ <? _) = true |- _ => apply Z.ltb_lt in H
  | H : (_ <? _) = false |- _ => apply Z.ltb_ge in H
  end.

(** Case analysis on the next [if] of the goal, with the test as a fact. *)
Ltac case_if :=
  match goal with
  | |- context [if ?b then _ else _] =>
      let E := fresh "E" in destruct b eqn:E; bool_prop
  end.

(** Decide a closed-form boolean test of the goal by linear arithmetic. *)
Ltac decide_if b v :=
  let E := fresh "E" in
  assert (b = v) as E;
  [ first [ reflexivity
          | apply Z.eqb_eq; lia | apply Z.eqb_neq; lia
          | apply Z.leb_le; lia | apply Z.leb_gt; lia
          | apply Z.ltb_lt; lia | apply Z.ltb_ge; lia
          | lia ]
  | rewrite E; clear E ].

(** * Lemmas *)

Lemma u8_byte z : is_byte (u8 z).
Proof. unfold is_byte, u8. dlia. Qed.

Lemma u8_small z : is_byte z → u8 z = z.
Proof. unfold is_byte, u8. dlia. Qed.

Lemma u16_small z : 0 <= z < 65536 → u16 z = z.
Proof. unfold u16. dlia. Qed.

Lemma u32_small z : 0 <= z < 4294967296 → u32 z = z.
Proof. unfold u32. dlia. Qed.

Lemma i32_small z : INT32_MIN <= z <= INT32_MAX → i32 z = z.
Proof. unfold i32, INT32_MIN, INT32_MAX. dlia. Qed.

Lemma i32_bounds z : INT32_MIN <= i32 z <= INT32_MAX.
Proof. unfold i32, INT32_MIN, INT32_MAX. dlia. Qed.

Lemma in_i32_spec z : in_i32 z = true ↔ INT32_MIN <= z <= INT32_MAX.
Proof. unfold in_i32. rewrite andb_true_iff, !Z.leb_le. lia. Qed.

Lemma chk32_ok z : INT32_MIN <= z <= INT32_MAX → chk32 z = Ret z.
Proof. intros H. unfold chk32. apply in_i32_spec in H. by rewrite H. Qed.

Lemma chk32_inv z r : chk32 z = Ret r → r = z ∧ INT32_MIN <= z <= INT32_MAX.
Proof.
  unfold chk32. case_if; [|done].
  intros [= <-]. by apply in_i32_spec in E.
Qed.

#[export] Hint Resolve u8_byte : ints.
#[export] Hint Rewrite u8_small u16_small u32_small i32_small chk32_ok
  using (unfold is_byte, INT32_MIN, INT32_MAX; lia) : ints_rw.

(** Monad laws, used to reassociate straight-line code. *)
Lemma res_bind_ret {A B} (a : A) (k : A → res B) : mbind k (Ret a) = k a.
Proof. done. Qed.

Lemma res_bind_inv {A B} (m : res A) (k : A → res B) b :
  mbind k m = Ret b → ∃ a, m = Ret a ∧ k a = Ret b.
Proof. destruct m as [a|f]; [eauto | done]. Qed.

Lemma io_bind_assoc {W A B C} (m : io W A) (k : A → io W B) (h : B → io W C) w :
  mbind h (mbind k m) w = mbind (λ a, mbind h (k a)) m w.
Proof. unfold mbind, io_bind. by destruct (m w) as [[a w']|]. Qed.

Lemma wp_ret {W A} (a : A) (Q : A → W → Prop) w : Q a w → wp (mret a) Q w.
Proof. done. Qed.

Lemma wp_bind {W A B} (m : io W A) (k : A → io W B) Q w :
  wp m (λ a w', wp (k a) Q w') w → wp (mbind k m) Q w.
Proof. unfold wp, mbind, io_bind. by destruct (m w) as [[a w']|]. Qed.

Lemma wp_mono {W A} (m : io W A) (P Q : A → W → Prop) w :
  wp m P w → (∀ a w', P a w' → Q a w') → wp m Q w.
Proof. unfold wp. destruct (m w) as [[a w']|]; eauto. Qed.

Lemma wp_conj {W A} (m : io W A) (P Q : A → W → Prop) w :
  wp m P w → wp m Q w → wp m (λ a w', P a w' ∧ Q a w') w.
Proof. unfold wp. destruct (m w) as [[a w']|]; eauto. Qed.

Lemma wp_modify {W} (f : W → W) Q w : Q tt (f w) → wp (modify f) Q w.
Proof. done. Qed.

Lemma wp_gets {W A} (f : W → A) Q w : Q (f w) w → wp (gets f) Q w.
Proof. done. Qed.

Lemma wp_lift {W A} (r : res A) (Q : A → W → Prop) a w :
  r = Ret a → Q a w → wp (lift r) Q w.
Proof. intros -> ?. done. Qed.

Lemma wp_run {W A} (m : io W A) Q w :
  wp m Q w ↔ ∃ a w', m w = Ret (a, w') ∧ Q a w'.
Proof.
  unfold wp. destruct (m w) as [[a w']|f]; split.
  - eauto.
  - by intros (? & ? & [= <- <-] & ?).
  - done.
  - by intros (? & ? & ? & ?).
Qed.

(** The invariant rule of [for_]. *)
Lemma wp_for {W} (I : Z → W → Prop) n lo body (w : W) :
  I lo w →
  (∀ i w, lo <= i < lo + Z.of_nat n → I i w → wp (body i) (λ _, I (i + 1)) w) →
  wp (for_ n lo body) (λ _, I (lo + Z.of_nat n)) w.
Proof.
  revert lo w. induction n as [|n IH]; intros lo w HI Hb; cbn [for_].
  - apply wp_ret. by replace (lo + Z.of_nat 0) with lo by lia.
  - apply wp_bind. eapply wp_mono; [apply Hb; [lia|done]|].
    intros [] w' HI'. cbn. eapply wp_mono.
    { apply (IH (lo + 1) w'); [done|]. intros. apply Hb; [lia|done]. }
    cbn. intros _ w''. by replace (lo + 1 + Z.of_nat n) with (lo + Z.of_nat (S n)) by lia.
Qed.

(** Run the rules for the operations that have a direct rule. *)
Ltac wp_step :=
  first [ apply wp_bind | apply wp_ret | apply wp_modify | apply wp_gets ].

(** ** Which faults a computation can end in

    [may_fault P Q r]: [r] is a value with [Q], or a fault with [P].  [io_may_fault]
    is the same for a step that keeps the invariant [I] of the world. *)
Definition may_fault {A} (P : fault → Prop) (Q : A → Prop) (r : res A) : Prop :=
  match r with Ret a => Q a | Fault f => P f end.
Definition io_may_fault {W A} (P : fault → Prop) (I : W → Prop) (Q : A → Prop)
    (m : io W A) : Prop :=
  ∀ w, I w → may_fault P (λ '(a, w'), Q a ∧ I w') (m w).

Section may_fault.
Context {W : Type} (P : fault → Prop) (I : W → Prop).

Lemma may_fault_mono {A} (Q Q' : A → Prop) r :
  may_fault P Q r → (∀ a, Q a → Q' a) → may_fault P Q' r.
Proof. destruct r; cbn; eauto. Qed.

Lemma may_fault_bind {A B} (Q : A → Prop) (Q' : B → Prop) (m : res A) (k : A → res B) :
  may_fault P Q m → (∀ a, Q a → may_fault P Q' (k a)) → may_fault P Q' (mbind k m).
Proof. destruct m; cbn; eauto. Qed.

Lemma io_mf_ret {A} (Q : A → Prop) a : Q a → io_may_fault P I Q (mret a).
Proof. intros ? w ?. by cbn. Qed.

Lemma io_mf_bind {A B} (Q : A → Prop) (Q' : B → Prop) (m : io W A) (k : A → io W B) :
  io_may_fault P I Q m → (∀ a, Q a → io_may_fault P I Q' (k a)) →
  io_may_fault P I Q' (mbind k m).
Proof.
  intros Hm Hk w Hw. specialize (Hm w Hw). unfold mbind, io_bind.
  destruct (m w) as [[a w']|f]; [|done]. destruct Hm. by apply Hk.
Qed.

Lemma io_mf_lift {A} (Q : A → Prop) (r : res A) :
  may_fault P Q r → io_may_fault P I Q (lift r).
Proof. intros Hr w Hw. unfold lift. by destruct r. Qed.

Lemma io_mf_modify (f : W → W) :
  (∀ w, I w → I (f w)) → io_may_fault P I (λ _, True) (modify f).
Proof. intros Hf w Hw. split; auto. Qed.

Lemma io_mf_gets {A} (f : W → A) : io_may_fault P I (λ _, True) (gets f).
Proof. by intros w Hw. Qed.

Lemma io_mf_mono {A} (Q Q' : A → Prop) (m : io W A) :
  io_may_fault P I Q m → (∀ a, Q a → Q' a) → io_may_fault P I Q' m.
Proof.
  intros Hm HQ w Hw. eapply may_fault_mono; [by apply Hm|]. intros [a w'] []. auto.
Qed.
End may_fault.

(** ** Lists *)

Lemma lookup_nth (l : list Z) i : (i < length l)%nat → l !! i = Some (nth i l 0).
Proof. intros H. destruct (nth_lookup_or_length l i 0); [done|lia]. Qed.

Lemma Forall_nth_Z (P : Z → Prop) (l : list Z) i :
  Forall P l → (i < length l)%nat → P (nth i l 0).
Proof. intros H Hi. rewrite List.Forall_forall in H. apply H, nth_In, Hi. Qed.

Lemma Forall_is_byte_u8 (l : list Z) : Forall is_byte (u8 <$> l).
Proof. apply Forall_fmap, Forall_true. intros. apply u8_byte. Qed.

Lemma byte_of_ascii_range a : is_byte (byte_of_ascii a).
Proof.
  unfold byte_of_ascii, is_byte. destruct a as [[] [] [] [] [] [] [] []]; vm_compute;
  by split.
Qed.

Lemma bytes_range s : Forall is_byte (bytes s).
Proof. induction s; constructor; eauto using byte_of_ascii_range. Qed.
