(* ===== verification/CLib.v ===== *)
(** The C library functions the program calls: <ctype.h>, <string.h>, <stdlib.h>.

    A C string is the list of its bytes without the terminating NUL; a pointer
    into it is the suffix it points at.  [*p] is [peek p] (0 at the
    terminator); reading further than the terminator is a fault. *)

From S2P Require Import Prelude.

Abbreviation cstr := (list Z) (only parsing).

Definition NUL : Z := 0.
Definition LF : Z := 10.
Definition CR : Z := 13.

(** <ctype.h>, in the "C" locale. *)
Definition isdigit (c : Z) : bool := (48 <=? c) && (c <=? 57).
Definition isprint (c : Z) : bool := (32 <=? c) && (c <=? 126).
Definition isspace (c : Z) : bool := (c =? 32) || ((9 <=? c) && (c <=? 13)).

(** A string stored in memory holds no NUL of its own. *)
Definition wf_cstr (s : cstr) : Prop := Forall (λ c, 0 < c < 256) s.

Definition peek (p : cstr) : Z := match p with [] => NUL | c :: _ => c end.

(** [p[i]]: the terminator can be read, nothing after it can. *)
Definition char_at (p : cstr) (i : nat) : res Z :=
  if (i <? length p)%nat then Ret (nth i p 0)
  else if (i =? length p)%nat then Ret NUL
  else Fault OutOfBounds.

(** [strcmp(a, b) == 0]. *)
Definition str_eq (a b : cstr) : bool := bool_decide (a = b).

Fixpoint is_prefix (pre s : cstr) : bool :=
  match pre, s with
  | [], _ => true
  | c :: pre, d :: s => (c =? d) && is_prefix pre s
  | _ :: _, [] => false
  end.

(** [strstr(s, pat)]: the first suffix of [s] that starts with [pat]. *)
Fixpoint strstr (s pat : cstr) : option cstr :=
  if is_prefix pat s then Some s
  else match s with [] => None | _ :: s => strstr s pat end.

Fixpoint skip_while (f : Z → bool) (p : cstr) : cstr :=
  match p with
  | [] => []
  | c :: p' => if f c then skip_while f p' else p
  end.

Fixpoint take_while (f : Z → bool) (p : cstr) : cstr :=
  match p with
  | [] => []
  | c :: p' => if f c then c :: take_while f p' else []
  end.

(** The number a list of decimal digit characters denotes. *)
Definition dec_acc (acc : Z) (ds : list Z) : Z :=
  foldl (λ a c, a * 10 + (c - 48)) acc ds.
Definition dec (ds : list Z) : Z := dec_acc 0 ds.

Definition clamp_long (z : Z) : Z := Z.max INT32_MIN (Z.min INT32_MAX z).

(** [strtol(p, &endptr, 10)] with a 32-bit [long]: (value, endptr). *)
Definition strtol (p : cstr) : Z * cstr :=
  let q := skip_while isspace p in
  let '(neg, q) :=
    match q with
    | c :: q' => if c =? 45 then (true, q') else if c =? 43 then (false, q') else (false, q)
    | [] => (false, q)
    end in
  match take_while isdigit q with
  | [] => (0, p)
  | ds => (clamp_long (if neg then - dec ds else dec ds), skip_while isdigit q)
  end.

(** The decimal digits of [z >= 0], most significant first ([fuel] digits at most). *)
Fixpoint digits_acc (fuel : nat) (z : Z) (acc : list Z) : list Z :=
  match fuel with
  | O => acc
  | S fuel =>
      let acc := (48 + z mod 10) :: acc in
      if z <? 10 then acc else digits_acc fuel (z / 10) acc
  end.

(** [printf("%d", z)] for a 32-bit [int]: ten digits are enough. *)
Definition print_d (z : Z) : cstr :=
  if z <? 0 then 45 :: digits_acc 11 (- z) [] else digits_acc 11 z [].

(** [printf("%<w>d", z)]: padded with blanks on the left. *)
Definition print_wd (w : nat) (z : Z) : cstr :=
  let s := print_d z in replicate (w - length s) 32 ++ s.

(** [printf("%x", z)] of an unsigned number of at most [fuel] hexadecimal digits. *)
Definition hex_digit_char (d : Z) : Z := if 9 <? d then d + 87 else d + 48.
Fixpoint hex_acc (fuel : nat) (z : Z) (acc : list Z) : list Z :=
  match fuel with
  | O => acc
  | S fuel =>
      let acc := hex_digit_char (z mod 16) :: acc in
      if z <? 16 then acc else hex_acc fuel (z / 16) acc
  end.
Definition print_hex (z : Z) : cstr := hex_acc 8 z [].

(** * Lemmas *)

Lemma take_skip_while f p : take_while f p ++ skip_while f p = p.
Proof. induction p as [|c p IH]; cbn; [done|]. destruct (f c); cbn; by f_equal. Qed.

Lemma take_while_Forall f p : Forall (λ c, f c = true) (take_while f p).
Proof. induction p as [|c p IH]; cbn; [done|]. destruct (f c) eqn:?; by constructor. Qed.

Lemma skip_while_stop f p c p' : skip_while f p = c :: p' → f c = false.
Proof.
  induction p as [|d p IH]; cbn; [done|].
  destruct (f d) eqn:E; [done|]. by intros [= <- <-].
Qed.

(** Scanning a word [w] of accepted characters that a rejected one follows. *)
Definition stops (f : Z → bool) (p : cstr) : bool :=
  match p with [] => true | c :: _ => negb (f c) end.

Lemma skip_while_app f w p :
  Forall (λ c, f c = true) w → stops f p = true → skip_while f (w ++ p) = p.
Proof.
  intros Hw Hp. induction Hw as [|c w Hc _ IH]; cbn.
  - destruct p as [|c p]; [done|]. cbn in *. by destruct (f c).
  - by rewrite Hc.
Qed.

Lemma take_while_app f w p :
  Forall (λ c, f c = true) w → stops f p = true → take_while f (w ++ p) = w.
Proof.
  intros Hw Hp. induction Hw as [|c w Hc _ IH]; cbn.
  - destruct p as [|c p]; [done|]. cbn in *. by destruct (f c).
  - rewrite Hc. by f_equal.
Qed.

Lemma char_at_lt p i : (i < length p)%nat → char_at p i = Ret (nth i p 0).
Proof. intros H. unfold char_at. by apply Nat.ltb_lt in H as ->. Qed.

Lemma char_at_end p : char_at p (length p) = Ret NUL.
Proof. unfold char_at. by rewrite Nat.ltb_irrefl, Nat.eqb_refl. Qed.

Lemma is_prefix_app pre s : is_prefix pre (pre ++ s) = true.
Proof. induction pre; cbn; [done|]. by rewrite Z.eqb_refl. Qed.

Lemma is_prefix_spec pre s : is_prefix pre s = true ↔ ∃ t, s = pre ++ t.
Proof.
  split.
  - revert s. induction pre as [|c pre IH]; intros [|d s]; cbn; try done; eauto.
    intros H. bool_prop. subst. apply IH in H0 as [t ->]. by exists t.
  - intros [t ->]. apply is_prefix_app.
Qed.

Lemma strstr_Some s pat t :
  strstr s pat = Some t → ∃ u v, s = u ++ pat ++ v ∧ t = pat ++ v.
Proof.
  induction s as [|c s IH]; cbn; case_if.
  - intros [= <-]. apply is_prefix_spec in E as [v ->]. by exists [], v.
  - done.
  - intros [= <-]. apply is_prefix_spec in E as [v ->]. by exists [], v.
  - intros H. destruct (IH H) as (u & v & -> & ->). by exists (c :: u), v.
Qed.

Lemma strstr_found u pat v : strstr (u ++ pat ++ v) pat ≠ None.
Proof.
  induction u as [|c u IH]; cbn.
  - destruct (pat ++ v) eqn:E; cbn; rewrite <- ?E, is_prefix_app; done.
  - by case_if.
Qed.

Lemma dec_acc_app a l1 l2 : dec_acc a (l1 ++ l2) = dec_acc (dec_acc a l1) l2.
Proof. apply foldl_app. Qed.

Lemma dec_acc_shift a ds :
  dec_acc a ds = a * 10 ^ Z.of_nat (length ds) + dec ds.
Proof.
  unfold dec. revert a. induction ds as [|c ds IH]; intros a; cbn [length].
  - cbn. lia.
  - change (dec_acc a (c :: ds)) with (dec_acc (a * 10 + (c - 48)) ds).
    change (dec_acc 0 (c :: ds)) with (dec_acc (0 * 10 + (c - 48)) ds).
    rewrite (IH (a * 10 + _)), (IH (0 * 10 + _)).
    rewrite Nat2Z.inj_succ, Z.pow_succ_r by lia. lia.
Qed.

Lemma dec_app l1 l2 : dec (l1 ++ l2) = dec l1 * 10 ^ Z.of_nat (length l2) + dec l2.
Proof. unfold dec at 1. rewrite dec_acc_app. apply dec_acc_shift. Qed.

Lemma dec_acc_le a ds : 0 <= a → Forall (λ c, isdigit c = true) ds → a <= dec_acc a ds.
Proof.
  intros Ha H. revert a Ha. induction H as [|c ds Hc _ IH]; intros a Ha; cbn; [lia|].
  unfold isdigit in Hc. bool_prop. specialize (IH (a * 10 + (c - 48))).
  unfold dec_acc in *. lia.
Qed.

Lemma dec_bounds ds :
  Forall (λ c, isdigit c = true) ds → 0 <= dec ds < 10 ^ Z.of_nat (length ds).
Proof.
  intros H. induction ds as [|c ds IH] using rev_ind; [by cbn|].
  apply Forall_app in H as [H Hc]. inversion_clear Hc as [|? ? Hc' _].
  specialize (IH H). rewrite dec_app, length_app. cbn [length].
  unfold isdigit in Hc'. bool_prop. cbn. rewrite Nat2Z.inj_add, Z.pow_add_r by lia.
  change (Z.of_nat 1) with 1. rewrite Z.pow_1_r. lia.
Qed.

(** ** Printed numbers *)

Lemma digits_acc_spec fuel : ∀ z acc,
  0 <= z < 10 ^ Z.of_nat fuel → (0 < fuel)%nat →
  ∃ ds, digits_acc fuel z acc = ds ++ acc ∧ ds ≠ [] ∧ (length ds <= fuel)%nat ∧
    Forall (λ c, isdigit c = true) ds ∧ dec ds = z.
Proof.
  induction fuel as [|fuel IH]; intros z acc Hz Hf; [lia|].
  assert (isdigit (48 + z mod 10) = true) as Hd.
  { unfold isdigit. apply andb_true_iff. rewrite !Z.leb_le. dlia. }
  cbn [digits_acc]. destruct (z <? 10) eqn:E; bool_prop.
  - exists [48 + z mod 10]. split_and!; [done|done|cbn; lia|by constructor|].
    cbn. rewrite Z.mod_small; lia.
  - rewrite Nat2Z.inj_succ, Z.pow_succ_r in Hz by lia.
    assert (0 < fuel)%nat as Hf'. { destruct fuel; [cbn in Hz; lia|lia]. }
    destruct (IH (z / 10) ((48 + z mod 10) :: acc)) as (ds & -> & Hn & Hl & Hds & Hv);
      [split; [dlia|apply Z.div_lt_upper_bound; lia]|done|].
    exists (ds ++ [48 + z mod 10]). split_and!.
    + by rewrite <- app_assoc.
    + by destruct ds.
    + rewrite length_app. cbn. lia.
    + apply Forall_app. split; [done|by constructor].
    + rewrite dec_app, Hv. cbn. dlia.
Qed.

Lemma length_digits_acc fuel : ∀ z acc, (length (digits_acc fuel z acc) <= fuel + length acc)%nat.
Proof.
  induction fuel as [|fuel IH]; intros z acc; cbn [digits_acc]; [done|].
  destruct (z <? 10); [cbn; lia|]. specialize (IH (z / 10) ((48 + z mod 10) :: acc)). cbn [length] in IH. lia.
Qed.

Lemma length_print_d z : (length (print_d z) <= 12)%nat.
Proof.
  unfold print_d. pose proof (length_digits_acc 11 (- z) []). pose proof (length_digits_acc 11 z []).
  destruct (z <? 0); cbn [length] in *; lia.
Qed.

(** An [int] is printed as an optional sign and digits that denote its magnitude. *)
Lemma print_d_spec z :
  INT32_MIN <= z <= INT32_MAX →
  ∃ ds, print_d z = (if z <? 0 then [45] else []) ++ ds ∧ ds ≠ [] ∧
    Forall (λ c, isdigit c = true) ds ∧ dec ds = Z.abs z ∧ (length (print_d z) <= 12)%nat.
Proof.
  unfold INT32_MIN, INT32_MAX. intros Hz. unfold print_d. destruct (z <? 0) eqn:E; bool_prop.
  - destruct (digits_acc_spec 11 (- z) []) as (ds & -> & ? & ? & ? & ?); [cbn; lia|lia|].
    rewrite app_nil_r. exists ds. split_and!; try done; [lia|cbn; lia].
  - destruct (digits_acc_spec 11 z []) as (ds & -> & ? & ? & ? & ?); [cbn; lia|lia|].
    rewrite app_nil_r. exists ds. split_and!; try done; [lia|cbn; lia].
Qed.
