(* ===== verification/Minmea.v ===== *)
(** NMEA sentence parser: applications/minmea.c and the inline functions of
    applications/minmea.h.

    A sentence is a C string (CLib); the C varargs of [minmea_scan] are the list
    of values it stores, in order ([value]), and each [minmea_parse_*] stores
    them through its own list of destinations.  Running out of [int] range is the
    fault [SignedOverflow], a stored value that does not fit its destination is
    [BadVarArg]. *)

From S2P Require Import Prelude CLib.

(** * Data *)

Definition MINMEA_MAX_LENGTH : Z := 80.

Inductive minmea_sentence_id_t : Type :=
  | MINMEA_INVALID
  | MINMEA_UNKNOWN
  | MINMEA_SENTENCE_RMC
  | MINMEA_SENTENCE_GGA
  | MINMEA_SENTENCE_GSA
  | MINMEA_SENTENCE_GLL
  | MINMEA_SENTENCE_GST
  | MINMEA_SENTENCE_GSV
  | MINMEA_SENTENCE_VTG
  | MINMEA_SENTENCE_ZDA.

Record minmea_float : Type := MkFloat { f_value : Z; f_scale : Z }.
Record minmea_date : Type := MkDate { day : Z; month : Z; year : Z }.
Record minmea_time : Type := MkTime {
  hours : Z; minutes : Z; seconds : Z; microseconds : Z }.

#[export] Instance eta_float : Eta minmea_float := λ f,
  MkFloat (f_value f) (f_scale f).
#[export] Instance eta_date : Eta minmea_date := λ d, MkDate (day d) (month d) (year d).

Record minmea_sentence_rmc : Type := Mk_rmc {
  rmc_time : minmea_time; rmc_valid : bool; rmc_latitude : minmea_float; rmc_longitude :
  minmea_float; rmc_speed : minmea_float; rmc_course : minmea_float; rmc_date :
  minmea_date; rmc_variation : minmea_float
}.
#[export] Instance eta_rmc : Eta minmea_sentence_rmc := λ f,
  Mk_rmc (rmc_time f) (rmc_valid f) (rmc_latitude f) (rmc_longitude f) (rmc_speed f)
    (rmc_course f) (rmc_date f) (rmc_variation f).

Record minmea_sentence_gga : Type := Mk_gga {
  gga_time : minmea_time; gga_latitude : minmea_float; gga_longitude : minmea_float;
  gga_fix_quality : Z; gga_satellites_tracked : Z; gga_hdop : minmea_float; gga_altitude
  : minmea_float; gga_altitude_units : Z; gga_height : minmea_float; gga_height_units :
  Z; gga_dgps_age : Z
}.
#[export] Instance eta_gga : Eta minmea_sentence_gga := λ f,
  Mk_gga (gga_time f) (gga_latitude f) (gga_longitude f) (gga_fix_quality f)
    (gga_satellites_tracked f) (gga_hdop f) (gga_altitude f) (gga_altitude_units f)
    (gga_height f) (gga_height_units f) (gga_dgps_age f).

Record minmea_sentence_gll : Type := Mk_gll {
  gll_latitude : minmea_float; gll_longitude : minmea_float; gll_time : minmea_time;
  gll_status : Z; gll_mode : Z
}.
#[export] Instance eta_gll : Eta minmea_sentence_gll := λ f,
  Mk_gll (gll_latitude f) (gll_longitude f) (gll_time f) (gll_status f) (gll_mode f).

Record minmea_sentence_gst : Type := Mk_gst {
  gst_time : minmea_time; gst_rms_deviation : minmea_float; gst_semi_major_deviation :
  minmea_float; gst_semi_minor_deviation : minmea_float; gst_semi_major_orientation :
  minmea_float; gst_latitude_error_deviation : minmea_float;
  gst_longitude_error_deviation : minmea_float; gst_altitude_error_deviation :
  minmea_float
}.
#[export] Instance eta_gst : Eta minmea_sentence_gst := λ f,
  Mk_gst (gst_time f) (gst_rms_deviation f) (gst_semi_major_deviation f)
    (gst_semi_minor_deviation f) (gst_semi_major_orientation f)
    (gst_latitude_error_deviation f) (gst_longitude_error_deviation f)
    (gst_altitude_error_deviation f).

Record minmea_sentence_gsa : Type := Mk_gsa {
  gsa_mode : Z; gsa_fix_type : Z; gsa_sats : list Z; gsa_pdop : minmea_float; gsa_hdop :
  minmea_float; gsa_vdop : minmea_float
}.
#[export] Instance eta_gsa : Eta minmea_sentence_gsa := λ f,
  Mk_gsa (gsa_mode f) (gsa_fix_type f) (gsa_sats f) (gsa_pdop f) (gsa_hdop f) (gsa_vdop
    f).

Record minmea_sat_info : Type := Mk_sat {
  sat_nr : Z; sat_elevation : Z; sat_azimuth : Z; sat_snr : Z
}.
#[export] Instance eta_sat : Eta minmea_sat_info := λ f,
  Mk_sat (sat_nr f) (sat_elevation f) (sat_azimuth f) (sat_snr f).

Record minmea_sentence_gsv : Type := Mk_gsv {
  gsv_total_msgs : Z; gsv_msg_nr : Z; gsv_total_sats : Z; gsv_sats : list
  minmea_sat_info
}.
#[export] Instance eta_gsv : Eta minmea_sentence_gsv := λ f,
  Mk_gsv (gsv_total_msgs f) (gsv_msg_nr f) (gsv_total_sats f) (gsv_sats f).

Record minmea_sentence_vtg : Type := Mk_vtg {
  vtg_true_track_degrees : minmea_float; vtg_magnetic_track_degrees : minmea_float;
  vtg_speed_knots : minmea_float; vtg_speed_kph : minmea_float; vtg_faa_mode : Z
}.
#[export] Instance eta_vtg : Eta minmea_sentence_vtg := λ f,
  Mk_vtg (vtg_true_track_degrees f) (vtg_magnetic_track_degrees f) (vtg_speed_knots f)
    (vtg_speed_kph f) (vtg_faa_mode f).

Record minmea_sentence_zda : Type := Mk_zda {
  zda_time : minmea_time; zda_date : minmea_date; zda_hour_offset : Z; zda_minute_offset
  : Z
}.
#[export] Instance eta_zda : Eta minmea_sentence_zda := λ f,
  Mk_zda (zda_time f) (zda_date f) (zda_hour_offset f) (zda_minute_offset f).

(** What one conversion of [minmea_scan] stores through a pointer argument. *)
Inductive value : Type :=
  | VChar (c : Z)
  | VInt (i : Z)
  | VFloat (f : minmea_float)
  | VStr (s : cstr)
  | VDate (d : minmea_date)
  | VTime (t : minmea_time).

(** * Checksums *)

Definition hex2int (c : Z) : Z :=
  if (48 <=? c) && (c <=? 57) then c - 48
  else if (65 <=? c) && (c <=? 70) then c - 65 + 10
  else if (97 <=? c) && (c <=? 102) then c - 97 + 10
  else -1.

(** [while ( *s && *s != '*' ) checksum ^= *s++]. *)
Fixpoint checksum_loop (checksum : Z) (s : cstr) : Z :=
  match s with
  | [] => checksum
  | c :: s => if c =? 42 then checksum else checksum_loop (u8 (Z.lxor checksum c)) s
  end.

Definition minmea_checksum (sentence : cstr) : Z :=
  checksum_loop 0
    (match sentence with c :: s => if c =? 36 then s else sentence | [] => [] end).

(** The same loop in [minmea_check], which also stops at unprintable bytes:
    (checksum, where it stopped). *)
Fixpoint check_loop (checksum : Z) (s : cstr) : Z * cstr :=
  match s with
  | [] => (checksum, [])
  | c :: s' =>
      if negb (c =? 42) && isprint c then check_loop (u8 (Z.lxor checksum c)) s'
      else (checksum, s)
  end.

(** [*sentence == 0 || !strcmp(sentence, "\n") || !strcmp(sentence, "\r\n")]. *)
Definition at_newline (s : cstr) : bool :=
  match s with [] => true | _ => str_eq s [LF] || str_eq s [CR; LF] end.

Definition minmea_check (sentence : cstr) (strict : bool) : bool :=
  if MINMEA_MAX_LENGTH + 3 <? Z.of_nat (length sentence) then false
  else match sentence with
  | [] => false
  | c :: s =>
      if negb (c =? 36) then false
      else
        let '(checksum, s) := check_loop 0 s in
        match s with
        | c :: s =>
            if c =? 42 then
              let upper := hex2int (peek s) in
              if upper =? -1 then false
              else
                let s := tail s in
                let lower := hex2int (peek s) in
                if lower =? -1 then false
                else
                  let s := tail s in
                  let expected := Z.lor (Z.shiftl upper 4) lower in
                  if negb (checksum =? expected) then false else at_newline s
            else if strict then false else at_newline (c :: s)
        | [] => if strict then false else true
        end
  end.

(** * The field scanner *)

Definition minmea_isfield (c : Z) : bool :=
  isprint c && negb (c =? 44) && negb (c =? 42).

(** [next_field()]: (field, sentence). *)
Definition next_field (sentence : cstr) : option cstr * cstr :=
  match skip_while minmea_isfield sentence with
  | c :: rest => if c =? 44 then (Some rest, rest) else (None, c :: rest)
  | [] => (None, [])
  end.

(** [field && minmea_isfield( *field )]. *)
Definition field_nonempty (field : option cstr) : bool :=
  match field with Some p => minmea_isfield (peek p) | None => false end.

(** The body of one [case] of the [switch]: what it stores, or [goto parse_error]. *)
Inductive item : Type :=
  | Parsed (out : list value)
  | ParseError.

Definition scan_c (field : option cstr) : item :=
  Parsed [VChar (match field with
                 | Some p => if minmea_isfield (peek p) then peek p else 0
                 | None => 0 end)].

Definition scan_d (field : option cstr) : item :=
  match field with
  | Some p =>
      let c := peek p in
      if minmea_isfield c then
        if (c =? 78) || (c =? 69) then Parsed [VInt 1]
        else if (c =? 83) || (c =? 87) then Parsed [VInt (-1)]
        else ParseError
      else Parsed [VInt 0]
  | None => Parsed [VInt 0]
  end.

(** The digit loop of case 'f'; [None] is [goto parse_error]. *)
Fixpoint scan_f_loop (p : cstr) (sign value scale : Z) : res (option (Z * Z * Z)) :=
  match p with
  | [] => Ret (Some (sign, value, scale))
  | c :: p =>
      if negb (minmea_isfield c) then Ret (Some (sign, value, scale))
      else if (c =? 43) && (sign =? 0) && (value =? -1) then scan_f_loop p 1 value scale
      else if (c =? 45) && (sign =? 0) && (value =? -1) then scan_f_loop p (-1) value scale
      else if isdigit c then
        let digit := c - 48 in
        let value := if value =? -1 then 0 else value in
        if Z.quot (INT32_MAX - digit) 10 <? value then
          (if negb (scale =? 0) then Ret (Some (sign, value, scale)) else Ret None)
        else
          value ← chk32 (10 * value + digit);
          scale ← (if negb (scale =? 0) then chk32 (scale * 10) else Ret scale);
          scan_f_loop p sign value scale
      else if (c =? 46) && (scale =? 0) then scan_f_loop p sign value 1
      else if c =? 32 then
        if negb (sign =? 0) || negb (value =? -1) || negb (scale =? 0) then Ret None
        else scan_f_loop p sign value scale
      else Ret None
  end.

Definition scan_f (field : option cstr) : res item :=
  r ← (match field with
       | Some p => scan_f_loop p 0 (-1) 0
       | None => Ret (Some (0, -1, 0)) end);
  match r with
  | None => Ret ParseError
  | Some (sign, value, scale) =>
      if (negb (sign =? 0) || negb (scale =? 0)) && (value =? -1) then Ret ParseError
      else
        let '(value, scale) :=
          if value =? -1 then (0, 0) else (value, if scale =? 0 then 1 else scale) in
        value ← (if negb (sign =? 0) then chk32 (value * sign) else Ret value);
        Ret (Parsed [VFloat (MkFloat value scale)])
  end.

Definition scan_i (field : option cstr) : item :=
  match field with
  | Some p =>
      let '(value, endptr) := strtol p in
      if minmea_isfield (peek endptr) then ParseError else Parsed [VInt value]
  | None => Parsed [VInt 0]
  end.

Definition scan_s (field : option cstr) : item :=
  Parsed [VStr (match field with Some p => take_while minmea_isfield p | None => [] end)].

(** [for (f = 0; f < n; f++) if (!test(p[i + f])) goto parse_error]. *)
Fixpoint all_chars (test : Z → bool) (p : cstr) (i n : nat) : res bool :=
  match n with
  | O => Ret true
  | S n =>
      c ← char_at p i;
      if test c then all_chars test p (S i) n else Ret false
  end.

(** [memcpy(buf, p + i, n)] from a string: a byte behind the terminator faults. *)
Fixpoint memcpy_from (p : cstr) (i n : nat) : res cstr :=
  match n with
  | O => Ret []
  | S n =>
      c ← char_at p i;
      buf ← memcpy_from p (S i) n;
      Ret (c :: buf)
  end.

Definition scan_t (field : option cstr) : res item :=
  match field with
  | None => Ret ParseError
  | Some p =>
      if negb (peek p =? 36) then Ret ParseError
      else
        ok ← all_chars minmea_isfield p 1 5;
        if ok : bool then buf ← memcpy_from p 1 5; Ret (Parsed [VStr buf]) else Ret ParseError
  end.

(** [strtol] of the two-character array [{p[i], p[i+1], 0}]. *)
Definition two_digits (p : cstr) (i : nat) : res Z :=
  a ← char_at p i;
  b ← char_at p (S i);
  Ret (fst (strtol [a; b])).

Definition scan_D (field : option cstr) : res item :=
  match field with
  | Some p =>
      if minmea_isfield (peek p) then
        ok ← all_chars isdigit p 0 6;
        if ok : bool then
          d ← two_digits p 0; m ← two_digits p 2; y ← two_digits p 4;
          Ret (Parsed [VDate (MkDate d m y)])
        else Ret ParseError
      else Ret (Parsed [VDate (MkDate (-1) (-1) (-1))])
  | None => Ret (Parsed [VDate (MkDate (-1) (-1) (-1))])
  end.

(** The fraction of a second: [while (isdigit( *field ) && scale > 1)]. *)
Fixpoint scan_usec (p : cstr) (value scale : Z) : Z * Z :=
  match p with
  | c :: p =>
      if isdigit c && (1 <? scale) then
        scan_usec p (u32 (value * 10 + (c - 48))) (scale / 10)
      else (value, scale)
  | [] => (value, scale)
  end.

Definition scan_T (field : option cstr) : res item :=
  match field with
  | Some p =>
      if minmea_isfield (peek p) then
        ok ← all_chars isdigit p 0 6;
        if ok : bool then
          h ← two_digits p 0; i ← two_digits p 2; s ← two_digits p 4;
          let p := drop 6 p in
          let u :=
            if peek p =? 46 then
              let '(value, scale) := scan_usec (tail p) 0 1000000 in
              i32 (u32 (value * scale))
            else 0 in
          Ret (Parsed [VTime (MkTime h i s u)])
        else Ret ParseError
      else Ret (Parsed [VTime (MkTime (-1) (-1) (-1) (-1))])
  | None => Ret (Parsed [VTime (MkTime (-1) (-1) (-1) (-1))])
  end.

(** [switch (type)]. *)
Definition scan_item (type : Z) (field : option cstr) : res item :=
  if type =? 99 then Ret (scan_c field)
  else if type =? 100 then Ret (scan_d field)
  else if type =? 102 then scan_f field
  else if type =? 105 then Ret (scan_i field)
  else if type =? 115 then Ret (scan_s field)
  else if type =? 116 then scan_t field
  else if type =? 68 then scan_D field
  else if type =? 84 then scan_T field
  else if type =? 95 then Ret (Parsed [])
  else Ret ParseError.

(** The [while ( *format )] loop: (result, values stored so far). *)
Fixpoint scan_loop (format : cstr) (field : option cstr) (sentence : cstr)
    (optional : bool) (out : list value) : res (bool * list value) :=
  match format with
  | [] => Ret (true, out)
  | type :: format =>
      if type =? 59 then scan_loop format field sentence true out
      else if negb (bool_decide (is_Some field)) && negb optional then Ret (false, out)
      else
        r ← scan_item type field;
        match r with
        | ParseError => Ret (false, out)
        | Parsed o =>
            let '(field, sentence) := next_field sentence in
            scan_loop format field sentence optional (out ++ o)
        end
  end.

Definition minmea_scan (sentence : cstr) (format : string) : res (bool * list value) :=
  scan_loop (bytes format) (Some sentence) sentence false [].

(** * Sentence identification *)

Definition minmea_talker_id (talker : cstr) (sentence : cstr) : res (bool * cstr) :=
  '(ok, out) ← minmea_scan sentence "t";
  match ok, out with
  | true, [VStr type] => Ret (true, take 2 type)
  | true, _ => Fault BadVarArg
  | false, _ => Ret (false, talker)
  end.

Definition sentence_id_of_type (type : cstr) : minmea_sentence_id_t :=
  if str_eq (drop 2 type) (bytes "RMC") then MINMEA_SENTENCE_RMC
  else if str_eq (drop 2 type) (bytes "GGA") then MINMEA_SENTENCE_GGA
  else if str_eq (drop 2 type) (bytes "GSA") then MINMEA_SENTENCE_GSA
  else if str_eq (drop 2 type) (bytes "GLL") then MINMEA_SENTENCE_GLL
  else if str_eq (drop 2 type) (bytes "GST") then MINMEA_SENTENCE_GST
  else if str_eq (drop 2 type) (bytes "GSV") then MINMEA_SENTENCE_GSV
  else if str_eq (drop 2 type) (bytes "VTG") then MINMEA_SENTENCE_VTG
  else if str_eq (drop 2 type) (bytes "ZDA") then MINMEA_SENTENCE_ZDA
  else MINMEA_UNKNOWN.

Definition minmea_sentence_id (sentence : cstr) (strict : bool) : res minmea_sentence_id_t :=
  if negb (minmea_check sentence strict) then Ret MINMEA_INVALID
  else
    '(ok, out) ← minmea_scan sentence "t";
    match ok, out with
    | true, [VStr type] => Ret (sentence_id_of_type type)
    | true, _ => Fault BadVarArg
    | false, _ => Ret MINMEA_INVALID
    end.

(** * The sentence parsers *)

(** The frame and the local variables the [minmea_parse_*] functions scan into;
    each function uses the ones it declares.  The scan stores every one of them
    before it is read. *)
Record locals (F : Type) : Type := MkLocals {
  frame : F; type_ : cstr; validity : Z;
  latitude_direction : Z; longitude_direction : Z; variation_direction : Z;
  c_true : Z; c_magnetic : Z; c_knots : Z; c_kph : Z; c_faa_mode : Z
}.
Arguments MkLocals {F}.
Arguments frame {F}. Arguments type_ {F}. Arguments validity {F}.
Arguments latitude_direction {F}. Arguments longitude_direction {F}.
Arguments variation_direction {F}. Arguments c_true {F}. Arguments c_magnetic {F}.
Arguments c_knots {F}. Arguments c_kph {F}. Arguments c_faa_mode {F}.

#[export] Instance eta_locals F : Eta (locals F) := λ l,
  MkLocals (frame l) (type_ l) (validity l) (latitude_direction l)
    (longitude_direction l) (variation_direction l) (c_true l) (c_magnetic l)
    (c_knots l) (c_kph l) (c_faa_mode l).

Definition init_locals {F} (f : F) : locals F := MkLocals f [] 0 0 0 0 0 0 0 0 0.

(** A pointer argument of [minmea_scan]: how a value is stored through it. *)
Definition dest (F : Type) : Type := value → locals F → res (locals F).

Definition to_char {F} (put : Z → locals F → locals F) : dest F := λ v l,
  match v with VChar c => Ret (put c l) | _ => Fault BadVarArg end.
Definition to_int {F} (put : Z → locals F → locals F) : dest F := λ v l,
  match v with VInt i => Ret (put i l) | _ => Fault BadVarArg end.
Definition to_float {F} (put : minmea_float → locals F → locals F) : dest F := λ v l,
  match v with VFloat f => Ret (put f l) | _ => Fault BadVarArg end.
Definition to_str {F} (put : cstr → locals F → locals F) : dest F := λ v l,
  match v with VStr s => Ret (put s l) | _ => Fault BadVarArg end.
Definition to_date {F} (put : minmea_date → locals F → locals F) : dest F := λ v l,
  match v with VDate d => Ret (put d l) | _ => Fault BadVarArg end.
Definition to_time {F} (put : minmea_time → locals F → locals F) : dest F := λ v l,
  match v with VTime t => Ret (put t l) | _ => Fault BadVarArg end.

(** [&local] and [&frame->member]. *)
Definition own {F E} (get : locals F → E) `{!FieldUpdate get} (x : E) (l : locals F) :
    locals F := l <| get := x |>.
Definition into {F E} (get : F → E) `{!FieldUpdate get} (x : E) (l : locals F) :
    locals F := l <| frame := (frame l) <| get := x |> |>.

Fixpoint store_all {F} (dests : list (dest F)) (out : list value) (l : locals F)
    {struct out} : res (locals F) :=
  match out, dests with
  | [], _ => Ret l
  | v :: out, d :: dests => l ← d v l; store_all dests out l
  | _ :: _, [] => Fault BadVarArg
  end.

Definition scan_into {F} (sentence : cstr) (format : string) (dests : list (dest F))
    (f : F) : res (bool * locals F) :=
  '(ok, out) ← minmea_scan sentence format;
  l ← store_all dests out (init_locals f);
  Ret (ok, l).

(** [x.value *= direction]. *)
Definition apply_direction (x : minmea_float) (direction : Z) : res minmea_float :=
  v ← chk32 (f_value x * direction); Ret (x <| f_value := v |>).

Definition rmc_dests : list (dest minmea_sentence_rmc) :=
  [ to_str (own type_); to_time (into rmc_time); to_char (own validity);
    to_float (into rmc_latitude); to_int (own latitude_direction);
    to_float (into rmc_longitude); to_int (own longitude_direction);
    to_float (into rmc_speed); to_float (into rmc_course); to_date (into rmc_date);
    to_float (into rmc_variation); to_int (own variation_direction) ].

Definition minmea_parse_rmc (f : minmea_sentence_rmc) (sentence : cstr) :
    res (bool * minmea_sentence_rmc) :=
  '(ok, l) ← scan_into sentence "tTcfdfdffDfd" rmc_dests f;
  if negb ok then Ret (false, frame l)
  else if negb (str_eq (drop 2 (type_ l)) (bytes "RMC")) then Ret (false, frame l)
  else
    let f := (frame l) <| rmc_valid := validity l =? 65 |> in
    lat ← apply_direction (rmc_latitude f) (latitude_direction l);
    let f := f <| rmc_latitude := lat |> in
    lon ← apply_direction (rmc_longitude f) (longitude_direction l);
    let f := f <| rmc_longitude := lon |> in
    var ← apply_direction (rmc_variation f) (variation_direction l);
    Ret (true, f <| rmc_variation := var |>).

Definition gga_dests : list (dest minmea_sentence_gga) :=
  [ to_str (own type_); to_time (into gga_time);
    to_float (into gga_latitude); to_int (own latitude_direction);
    to_float (into gga_longitude); to_int (own longitude_direction);
    to_int (into gga_fix_quality); to_int (into gga_satellites_tracked);
    to_float (into gga_hdop); to_float (into gga_altitude);
    to_char (into gga_altitude_units); to_float (into gga_height);
    to_char (into gga_height_units); to_int (into gga_dgps_age) ].

Definition minmea_parse_gga (f : minmea_sentence_gga) (sentence : cstr) :
    res (bool * minmea_sentence_gga) :=
  '(ok, l) ← scan_into sentence "tTfdfdiiffcfci_" gga_dests f;
  if negb ok then Ret (false, frame l)
  else if negb (str_eq (drop 2 (type_ l)) (bytes "GGA")) then Ret (false, frame l)
  else
    let f := frame l in
    lat ← apply_direction (gga_latitude f) (latitude_direction l);
    let f := f <| gga_latitude := lat |> in
    lon ← apply_direction (gga_longitude f) (longitude_direction l);
    Ret (true, f <| gga_longitude := lon |>).

(** [&frame->sats[i]]. *)
Definition into_gsa_sat (i : nat) (x : Z) (l : locals minmea_sentence_gsa) :
    locals minmea_sentence_gsa :=
  l <| frame := (frame l) <| gsa_sats := <[i := x]> (gsa_sats (frame l)) |> |>.

Definition gsa_dests : list (dest minmea_sentence_gsa) :=
  [ to_str (own type_); to_char (into gsa_mode); to_int (into gsa_fix_type) ]
  ++ ((λ i, to_int (into_gsa_sat i)) <$> seq 0 12)
  ++ [ to_float (into gsa_pdop); to_float (into gsa_hdop); to_float (into gsa_vdop) ].

Definition minmea_parse_gsa (f : minmea_sentence_gsa) (sentence : cstr) :
    res (bool * minmea_sentence_gsa) :=
  '(ok, l) ← scan_into sentence "tciiiiiiiiiiiiifff" gsa_dests f;
  if negb ok then Ret (false, frame l)
  else Ret (str_eq (drop 2 (type_ l)) (bytes "GSA"), frame l).

Definition gll_dests : list (dest minmea_sentence_gll) :=
  [ to_str (own type_);
    to_float (into gll_latitude); to_int (own latitude_direction);
    to_float (into gll_longitude); to_int (own longitude_direction);
    to_time (into gll_time); to_char (into gll_status); to_char (into gll_mode) ].

Definition minmea_parse_gll (f : minmea_sentence_gll) (sentence : cstr) :
    res (bool * minmea_sentence_gll) :=
  '(ok, l) ← scan_into sentence "tfdfdTc;c" gll_dests f;
  if negb ok then Ret (false, frame l)
  else if negb (str_eq (drop 2 (type_ l)) (bytes "GLL")) then Ret (false, frame l)
  else
    let f := frame l in
    lat ← apply_direction (gll_latitude f) (latitude_direction l);
    let f := f <| gll_latitude := lat |> in
    lon ← apply_direction (gll_longitude f) (longitude_direction l);
    Ret (true, f <| gll_longitude := lon |>).

Definition gst_dests : list (dest minmea_sentence_gst) :=
  [ to_str (own type_); to_time (into gst_time); to_float (into gst_rms_deviation);
    to_float (into gst_semi_major_deviation); to_float (into gst_semi_minor_deviation);
    to_float (into gst_semi_major_orientation);
    to_float (into gst_latitude_error_deviation);
    to_float (into gst_longitude_error_deviation);
    to_float (into gst_altitude_error_deviation) ].

Definition minmea_parse_gst (f : minmea_sentence_gst) (sentence : cstr) :
    res (bool * minmea_sentence_gst) :=
  '(ok, l) ← scan_into sentence "tTfffffff" gst_dests f;
  if negb ok then Ret (false, frame l)
  else Ret (str_eq (drop 2 (type_ l)) (bytes "GST"), frame l).

(** [&frame->sats[i].member]. *)
Definition into_gsv_sat (get : minmea_sat_info → Z) `{!FieldUpdate get} (i : nat) (x : Z)
    (l : locals minmea_sentence_gsv) : locals minmea_sentence_gsv :=
  l <| frame :=
    (frame l) <| gsv_sats := alter (λ s, s <| get := x |>) i (gsv_sats (frame l)) |> |>.

Definition gsv_dests : list (dest minmea_sentence_gsv) :=
  [ to_str (own type_); to_int (into gsv_total_msgs); to_int (into gsv_msg_nr);
    to_int (into gsv_total_sats) ]
  ++ mjoin ((λ i, [ to_int (into_gsv_sat sat_nr i); to_int (into_gsv_sat sat_elevation i);
                    to_int (into_gsv_sat sat_azimuth i); to_int (into_gsv_sat sat_snr i) ])
            <$> seq 0 4).

Definition minmea_parse_gsv (f : minmea_sentence_gsv) (sentence : cstr) :
    res (bool * minmea_sentence_gsv) :=
  '(ok, l) ← scan_into sentence "tiii;iiiiiiiiiiiiiiii" gsv_dests f;
  if negb ok then Ret (false, frame l)
  else Ret (str_eq (drop 2 (type_ l)) (bytes "GSV"), frame l).

Definition vtg_dests : list (dest minmea_sentence_vtg) :=
  [ to_str (own type_); to_float (into vtg_true_track_degrees); to_char (own c_true);
    to_float (into vtg_magnetic_track_degrees); to_char (own c_magnetic);
    to_float (into vtg_speed_knots); to_char (own c_knots);
    to_float (into vtg_speed_kph); to_char (own c_kph); to_char (own c_faa_mode) ].

Definition minmea_parse_vtg (f : minmea_sentence_vtg) (sentence : cstr) :
    res (bool * minmea_sentence_vtg) :=
  '(ok, l) ← scan_into sentence "tfcfcfcfc;c" vtg_dests f;
  if negb ok then Ret (false, frame l)
  else if negb (str_eq (drop 2 (type_ l)) (bytes "VTG")) then Ret (false, frame l)
  else if negb (c_true l =? 84) || negb (c_magnetic l =? 77)
       || negb (c_knots l =? 78) || negb (c_kph l =? 75) then Ret (false, frame l)
  else Ret (true, (frame l) <| vtg_faa_mode := c_faa_mode l |>).

(** [&frame->date.member]. *)
Definition into_zda_date (get : minmea_date → Z) `{!FieldUpdate get} (x : Z)
    (l : locals minmea_sentence_zda) : locals minmea_sentence_zda :=
  l <| frame := (frame l) <| zda_date := (zda_date (frame l)) <| get := x |> |> |>.

Definition zda_dests : list (dest minmea_sentence_zda) :=
  [ to_str (own type_); to_time (into zda_time); to_int (into_zda_date day);
    to_int (into_zda_date month); to_int (into_zda_date year);
    to_int (into zda_hour_offset); to_int (into zda_minute_offset) ].

Definition minmea_parse_zda (f : minmea_sentence_zda) (sentence : cstr) :
    res (bool * minmea_sentence_zda) :=
  '(ok, l) ← scan_into sentence "tTiiiii" zda_dests f;
  if negb ok then Ret (false, frame l)
  else if negb (str_eq (drop 2 (type_ l)) (bytes "ZDA")) then Ret (false, frame l)
  else
    let f := frame l in
    h ← chk32 (Z.abs (zda_hour_offset f));
    if (13 <? h) || (59 <? zda_minute_offset f) || (zda_minute_offset f <? 0)
    then Ret (false, f) else Ret (true, f).

(** * Fixed-point arithmetic (minmea.h) *)

Definition minmea_rescale (f : minmea_float) (new_scale : Z) : res Z :=
  if f_scale f =? 0 then Ret 0
  else if f_scale f =? new_scale then Ret (f_value f)
  else if new_scale <? f_scale f then
    s ← chk32 (Z.sgn (f_value f) * f_scale f);
    h ← quot32 s new_scale;
    h ← quot32 h 2;
    n ← chk32 (f_value f + h);
    d ← quot32 (f_scale f) new_scale;
    quot32 n d
  else
    k ← quot32 new_scale (f_scale f);
    chk32 (f_value f * k).
