(* ===== verification/MinmeaSpec.v ===== *)
(** Correctness of the NMEA sentence parser (Minmea): the accepted sentences, error
    detection, memory safety, the value every field gets, and rounding. *)

From S2P Require Import Prelude CLib Minmea.

(** * Specifications *)

(** The XOR of all the bytes of a sentence's body. *)
Definition xor_bytes (body : cstr) : Z := foldr Z.lxor 0 body.

(** A byte that may stand between "$" and "*". *)
Definition body_char (c : Z) : bool := isprint c && negb (c =? 42).

Definition newline (s : cstr) : Prop := s = [] ∨ s = [LF] ∨ s = [CR; LF].

(** The sentences the NMEA framing allows. *)
Definition framed (s : cstr) (strict : bool) : Prop :=
  ∃ body tail, s = 36 :: body ++ tail ∧ Forall (λ c, body_char c = true) body ∧
    ((∃ hi lo nl, tail = 42 :: hi :: lo :: nl ∧ newline nl ∧
        hex2int hi ≠ -1 ∧ hex2int lo ≠ -1 ∧
        16 * hex2int hi + hex2int lo = xor_bytes body)
     ∨ (strict = false ∧ newline tail)).

(** Faults that would be memory errors or mismatched varargs. *)
Definition only_overflow {A} (r : res A) : Prop :=
  match r with Ret _ => True | Fault f => f = SignedOverflow end.

(** The kind of value a conversion character stores. *)
Definition stores (type : Z) (v : value) : Prop :=
  match v with
  | VChar _ => type = 99
  | VInt _ => type = 100 ∨ type = 105
  | VFloat _ => type = 102
  | VStr _ => type = 115 ∨ type = 116
  | VDate _ => type = 68
  | VTime _ => type = 84
  end.

(** The pointer arguments of a call agree with its format, in number and kind. *)
Inductive args_fit {F} : cstr → list (dest F) → Prop :=
  | fit_nil : args_fit [] []
  | fit_optional fmt ds : args_fit fmt ds → args_fit (59 :: fmt) ds
  | fit_ignored fmt ds : args_fit fmt ds → args_fit (95 :: fmt) ds
  | fit_arg type fmt d ds :
      type ≠ 59 → type ≠ 95 →
      (∀ v l, stores type v → ∃ l', d v l = Ret l') →
      args_fit fmt ds → args_fit (type :: fmt) (d :: ds).

(** * Checksum lemmas *)

Lemma isprint_byte c : isprint c = true → 32 <= c <= 126.
Proof. unfold isprint. intros. bool_prop. lia. Qed.

Lemma lxor_byte a b : is_byte a → is_byte b → is_byte (Z.lxor a b).
Proof.
  unfold is_byte. intros Ha Hb.
  assert (0 <= Z.lxor a b) by (apply Z.lxor_nonneg; lia).
  split; [done|]. destruct (decide (Z.lxor a b = 0)); [lia|].
  change 256 with (2 ^ 8). apply Z.log2_lt_pow2; [lia|].
  eapply Z.le_lt_trans; [apply Z.log2_lxor; lia|].
  destruct (decide (a = 0)); destruct (decide (b = 0)); subst; cbn;
    try (apply Z.max_lub_lt); try (apply Z.log2_lt_pow2; lia); lia.
Qed.

Lemma xor_bytes_byte body : Forall (λ c, body_char c = true) body → is_byte (xor_bytes body).
Proof.
  induction 1 as [|c body Hc _ IH]; cbn; [done|].
  apply lxor_byte; [|done]. unfold body_char in Hc. bool_prop.
  apply isprint_byte in H. unfold is_byte. lia.
Qed.

Lemma xor_bytes_app a b : xor_bytes (a ++ b) = Z.lxor (xor_bytes a) (xor_bytes b).
Proof.
  unfold xor_bytes. induction a as [|c a IH]; cbn; [done|]. by rewrite IH, Z.lxor_assoc.
Qed.

Lemma check_loop_app acc body s :
  is_byte acc → Forall (λ c, body_char c = true) body →
  check_loop acc (body ++ s) = check_loop (Z.lxor acc (xor_bytes body)) s.
Proof.
  intros Hacc H. revert acc Hacc. induction H as [|c body Hc Hb IH]; intros acc Hacc; cbn.
  - by rewrite Z.lxor_0_r.
  - unfold body_char in Hc. bool_prop. rewrite H.
    apply Z.eqb_neq in H0. rewrite H0. cbn.
    assert (is_byte (Z.lxor acc c)).
    { apply lxor_byte; [done|]. apply isprint_byte in H. unfold is_byte. lia. }
    rewrite u8_small, IH by done. by rewrite Z.lxor_assoc.
Qed.

(** Where the loop stops. *)
Lemma check_loop_split s acc : is_byte acc →
  ∃ body tail, s = body ++ tail ∧ Forall (λ c, body_char c = true) body ∧
    check_loop acc s = (Z.lxor acc (xor_bytes body), tail) ∧
    match tail with c :: _ => body_char c = false | [] => True end.
Proof.
  revert acc. induction s as [|c s IH]; intros acc Hacc; cbn.
  - exists [], []. rewrite Z.lxor_0_r. repeat split; constructor.
  - case_if.
    + assert (is_byte (Z.lxor acc c)) as Hx.
      { apply lxor_byte; [done|]. apply isprint_byte in H0. unfold is_byte. lia. }
      destruct (IH (Z.lxor acc c) Hx) as (body & tail & -> & Hb & Hl & Ht).
      exists (c :: body), tail. rewrite u8_small by done. rewrite Hl. cbn.
      rewrite <- Z.lxor_assoc. repeat split; try done. constructor; [|done].
      unfold body_char. rewrite H0. cbn. apply negb_true_iff, Z.eqb_neq. lia.
    + exists [], (c :: s). cbn. rewrite Z.lxor_0_r. repeat split; [constructor|].
      unfold body_char. rewrite andb_comm.
      destruct (negb (c =? 42)) eqn:E1; cbn; [|done]. destruct E as [E|E]; congruence.
Qed.

Lemma at_newline_spec s : at_newline s = true ↔ newline s.
Proof.
  unfold at_newline, newline, str_eq. destruct s as [|c s]; [tauto|].
  rewrite orb_true_iff, !bool_decide_eq_true.
  split; [tauto|]. by intros [[=]|H].
Qed.

Lemma hex2int_range c : hex2int c ≠ -1 → 0 <= hex2int c < 16.
Proof. unfold hex2int. repeat case_if; lia. Qed.

Lemma hex_byte u l : 0 <= u < 16 → 0 <= l < 16 → Z.lor (Z.shiftl u 4) l = 16 * u + l.
Proof.
  intros Hu Hl.
  assert (forallb (λ u, forallb (λ l, Z.lor (Z.shiftl u 4) l =? 16 * u + l) (seqZ 0 16))
            (seqZ 0 16) = true) as H by reflexivity.
  rewrite forallb_forall in H. specialize (H u). rewrite forallb_forall in H.
  rewrite <- !list_elem_of_In, !elem_of_seqZ in H.
  apply Z.eqb_eq, H; rewrite <- ?list_elem_of_In, ?elem_of_seqZ; lia.
Qed.

(** * The accepted sentences *)

(** C2: [minmea_check] accepts exactly the sentences of at most 83 bytes that have
    the NMEA framing: "$", a printable body without "*", then "*" with the two hex
    digits of the XOR of the body, then at most one newline; in non-strict mode the
    checksum may be missing. *)
Theorem minmea_check_spec s strict :
  minmea_check s strict = true ↔ (length s <= 83)%nat ∧ framed s strict.
Proof.
  unfold minmea_check, framed, MINMEA_MAX_LENGTH. split.
  - case_if; [done|]. intros H. split; [lia|].
    destruct s as [|c s]; [done|]. revert H. case_if; [done|]. subst c.
    destruct (check_loop_split s 0) as (body & tail & -> & Hb & -> & Ht); [done|].
    rewrite Z.lxor_0_l. intros H. exists body, tail. split; [done|]. split; [done|].
    destruct tail as [|c tail].
    { right. destruct strict; [done|]. split; [done|]. by left. }
    revert H. case_if.
    + subst c. destruct (hex2int (peek tail) =? -1) eqn:Ehi; [done|].
      destruct (hex2int (peek (tl tail)) =? -1) eqn:Elo; [done|].
      case_if; [done|]. intros Hn. left. bool_prop.
      destruct tail as [|hi [|lo nl]]; [done..|]. cbn [peek tl] in *.
      exists hi, lo, nl. apply at_newline_spec in Hn.
      rewrite hex_byte in E0 by (apply hex2int_range; done). naive_solver.
    + case_if; [done|]. intros Hn. right. split; [done|]. by apply at_newline_spec.
  - intros [Hlen (body & tail & -> & Hb & Ht)].
    decide_if (80 + 3 <? Z.of_nat (length (36 :: body ++ tail))) false. cbn.
    rewrite check_loop_app, Z.lxor_0_l by done.
    destruct Ht as [(hi & lo & nl & -> & Hn & Hhi & Hlo & Hx)|[-> Hn]]; cbn.
    + apply Z.eqb_neq in Hhi as Ehi. apply Z.eqb_neq in Hlo as Elo. rewrite Ehi, Elo.
      rewrite hex_byte, Hx, Z.eqb_refl by (apply hex2int_range; done). cbn.
      by apply at_newline_spec.
    + by destruct Hn as [->|[->| ->]].
Qed.

(** The framing of a strict sentence is unique. *)
Lemma framed_inv body tail :
  Forall (λ c, body_char c = true) body → peek tail = 42 →
  framed (36 :: body ++ tail) true →
  ∃ hi lo nl, tail = 42 :: hi :: lo :: nl ∧ 16 * hex2int hi + hex2int lo = xor_bytes body.
Proof.
  intros Hb Ht (body' & tail' & E & Hb' & [(hi & lo & nl & -> & _ & _ & _ & Hx)|[[=] _]]).
  injection E as E. destruct tail as [|c tail]; [done|]. cbn in Ht. subst c.
  assert (body = body') as <-.
  { rewrite <- (take_while_app body_char body (42 :: tail)) by done.
    rewrite E. by rewrite take_while_app. }
  apply app_inv_head in E. injection E as ->. eauto.
Qed.

(** The strict check detects any change of one byte of the body: if a sentence
    is accepted, the same sentence with one body byte replaced by a different body
    byte is rejected. *)
Theorem minmea_check_detects a x y b tail :
  Forall (λ c, body_char c = true) (a ++ x :: b) → body_char y = true → x ≠ y →
  peek tail = 42 →
  minmea_check (36 :: (a ++ x :: b) ++ tail) true = true →
  minmea_check (36 :: (a ++ y :: b) ++ tail) true = false.
Proof.
  intros Hb Hy Hne Htail Hx.
  destruct (minmea_check _ true) eqn:Hok in |- *; [exfalso|done].
  apply minmea_check_spec in Hx as [_ Hx]. apply minmea_check_spec in Hok as [_ Hok].
  assert (Forall (λ c, body_char c = true) (a ++ y :: b)) as Hb'.
  { apply Forall_app in Hb as [? Hb]. apply Forall_app. inversion_clear Hb. by repeat constructor. }
  destruct (framed_inv _ _ Hb Htail Hx) as (hi & lo & nl & -> & Hs).
  destruct (framed_inv _ _ Hb' Htail Hok) as (? & ? & ? & [= <- <- <-] & Hs').
  rewrite Hs in Hs'. rewrite !xor_bytes_app in Hs'. cbn in Hs'.
  apply Hne. fold (xor_bytes b) in Hs'.
  apply (f_equal (Z.lxor (xor_bytes a))) in Hs'.
  rewrite <- !(Z.lxor_assoc (xor_bytes a) (xor_bytes a)), Z.lxor_nilpotent, !Z.lxor_0_l in Hs'.
  apply (f_equal (λ z, Z.lxor z (xor_bytes b))) in Hs'.
  by rewrite !Z.lxor_assoc, Z.lxor_nilpotent, !Z.lxor_0_r in Hs'.
Qed.

Lemma minmea_check_detects_witness :
  minmea_check (bytes "$GPGLL,1*4D") true = true ∧
  minmea_check (bytes "$GPGLL,7*4D") true = false.
Proof.
  split; [reflexivity|].
  apply (minmea_check_detects (bytes "GPGLL,") 49 55 [] (bytes "*4D"));
    [by repeat constructor | reflexivity | lia | reflexivity | reflexivity].
Defined.

(** * Memory safety *)

Lemma only_overflow_bind {A B} (m : res A) (k : A → res B) :
  only_overflow m → (∀ a, m = Ret a → only_overflow (k a)) → only_overflow (mbind k m).
Proof. destruct m as [a|f]; cbn; [|done]. intros _ H. by apply H. Qed.

Lemma only_overflow_chk32 z : only_overflow (chk32 z).
Proof. unfold chk32. by case_if. Qed.

Lemma only_overflow_scan_f_loop p sign value scale :
  only_overflow (scan_f_loop p sign value scale).
Proof.
  revert sign value scale. induction p as [|c p IH]; intros sign value scale;
    cbn [scan_f_loop]; [done|].
  repeat (case_if; try done).
  all: apply only_overflow_bind; [apply only_overflow_chk32|]; intros v _;
    apply only_overflow_bind; [|by intros]; try apply only_overflow_chk32; done.
Qed.

(** Reading on while the characters pass a test that NUL fails stays in the string. *)
Lemma all_chars_ret test p n i :
  test NUL = false → (i <= length p)%nat →
  ∃ b, all_chars test p i n = Ret b ∧ (b = true → (i + n <= length p)%nat).
Proof.
  intros Ht. revert i. induction n as [|n IH]; intros i Hi; cbn.
  - exists true. split; [done|]. lia.
  - destruct (decide (i = length p)) as [->|Hne].
    + rewrite char_at_end. cbn. rewrite Ht. by exists false.
    + rewrite char_at_lt by lia. cbn. case_if; [|by exists false].
      destruct (IH (S i)) as (b & -> & Hb); [lia|]. exists b. split; [done|]. intros Hb'. specialize (Hb Hb'). lia.
Qed.

Lemma memcpy_from_ret p n i : (i + n <= length p)%nat → memcpy_from p i n = Ret (take n (drop i p)).
Proof.
  revert i. induction n as [|n IH]; intros i Hi; [done|]. cbn [memcpy_from].
  rewrite char_at_lt by lia. cbn [mbind res_bind]. rewrite IH by lia. cbn [mbind res_bind].
  by rewrite (drop_S p (nth i p 0) i) by (apply lookup_nth; lia).
Qed.

Lemma two_digits_ret (p : cstr) (i : nat) : (S i < length p)%nat →
  two_digits p i = Ret (fst (strtol [nth i p 0; nth (S i) p 0])).
Proof. intros H. unfold two_digits. by rewrite (char_at_lt p i), (char_at_lt p (S i)) by lia. Qed.

Lemma only_overflow_scan_item type field : only_overflow (scan_item type field).
Proof.
  unfold scan_item. repeat (case_if; [|]); try done.
  - unfold scan_f. apply only_overflow_bind.
    { destruct field; [apply only_overflow_scan_f_loop|done]. }
    intros [[[sign value] scale]|] _; [|done]. case_if; [done|].
    destruct (if value =? -1 then _ else _) as [v s].
    apply only_overflow_bind; [|done]. case_if; [apply only_overflow_chk32|done].
  - unfold scan_t. destruct field as [p|]; [|done]. case_if; [done|].
    destruct p as [|c p]; [done|].
    destruct (all_chars_ret minmea_isfield (c :: p) 5 1) as (b & -> & Hb); [done|cbn; lia|].
    destruct b; [|done]. specialize (Hb eq_refl). by rewrite memcpy_from_ret by lia.
  - unfold scan_D. destruct field as [p|]; [|done]. case_if; [|done].
    destruct (all_chars_ret isdigit p 6 0) as (b & -> & Hb); [done|lia|].
    destruct b; cbn; [|done]. specialize (Hb eq_refl).
    by rewrite !two_digits_ret by lia.
  - unfold scan_T. destruct field as [p|]; [|done]. case_if; [|done].
    destruct (all_chars_ret isdigit p 6 0) as (b & -> & Hb); [done|lia|].
    destruct b; cbn; [|done]. specialize (Hb eq_refl).
    by rewrite !two_digits_ret by lia.
Qed.

Lemma only_overflow_scan_loop format field sentence optional out :
  only_overflow (scan_loop format field sentence optional out).
Proof.
  revert field sentence optional out.
  induction format as [|type format IH]; intros; cbn [scan_loop]; [done|].
  repeat case_if; try done; try apply IH.
  all: apply only_overflow_bind; [apply only_overflow_scan_item|]; intros [o|] _; [|done];
    destruct (next_field sentence); apply IH.
Qed.

Lemma scan_item_stores type field o :
  scan_item type field = Ret (Parsed o) →
  (type = 95 ∧ o = []) ∨ ∃ v, o = [v] ∧ stores type v ∧ type ≠ 59 ∧ type ≠ 95.
Proof.
  unfold scan_item. intros H.
  repeat match type of H with
  | (if ?b then _ else _) = _ => destruct b eqn:?; bool_prop
  end; subst; try discriminate; [right..|left].
  - injection H as <-. eexists. repeat split; done.
  - destruct field as [p|]; cbn in H; repeat case_match; simplify_eq;
      eexists; (split; [done|]); cbn; lia.
  - apply res_bind_inv in H as ([[[sign value] scale]|] & _ & H); [|done].
    case_match; [done|]. case_match. apply res_bind_inv in H as (? & _ & H).
    simplify_eq. eexists. repeat split; done.
  - destruct field as [p|]; cbn in H; repeat case_match; simplify_eq;
      eexists; (split; [done|]); cbn; lia.
  - injection H as <-. eexists. split; [done|]. cbn. lia.
  - destruct field as [p|]; cbn in H; [|done]. case_match; [done|].
    apply res_bind_inv in H as ([] & _ & H); simplify_eq.
    apply res_bind_inv in H as (buf & _ & H); simplify_eq. eexists. split; [done|]. cbn. lia.
  - destruct field as [p|]; cbn in H; [case_match|]; simplify_eq;
      try (eexists; repeat split; done).
    apply res_bind_inv in H as ([] & _ & H); [|done].
    apply res_bind_inv in H as (? & _ & H). apply res_bind_inv in H as (? & _ & H).
    apply res_bind_inv in H as (? & _ & H). simplify_eq. eexists; repeat split; done.
  - destruct field as [p|]; cbn in H; [case_match|]; simplify_eq;
      try (eexists; repeat split; done).
    apply res_bind_inv in H as ([] & _ & H); [|done].
    apply res_bind_inv in H as (? & _ & H). apply res_bind_inv in H as (? & _ & H).
    apply res_bind_inv in H as (? & _ & H). injection H as <-. eexists; repeat split; done.
  - by injection H as <-.
Qed.

Lemma store_none {F} (dests : list (dest F)) (out : list value) :
  ∃ vs, out = out ++ vs ∧ ∀ l, ∃ l', store_all dests vs l = Ret l'.
Proof. exists []. rewrite app_nil_r. split; [done|]. intros l. by exists l. Qed.

Lemma store_all_fit {F} format (dests : list (dest F)) field sentence optional out ok out' :
  args_fit format dests →
  scan_loop format field sentence optional out = Ret (ok, out') →
  ∃ vs, out' = out ++ vs ∧ ∀ l, ∃ l', store_all dests vs l = Ret l'.
Proof.
  intros Hfit. revert field sentence optional out.
  induction Hfit as [|fmt ds _ IH|fmt ds _ IH|type fmt d ds Hne Hne' Hd _ IH];
    intros field sentence optional out; cbn [scan_loop].
  - intros [= <- <-]. apply store_none.
  - apply IH.
  - change (95 =? 59) with false. cbv iota.
    case_if; [intros [= <- <-]; apply store_none|].
    intros H. apply res_bind_inv in H as ([o|] & Ho & H).
    2: { injection H as <- <-. apply store_none. }
    apply scan_item_stores in Ho as [[_ ->]|(v & _ & _ & _ & ?)]; [|done].
    destruct (next_field sentence) as [field' sentence'].
    apply IH in H as (vs & -> & Hvs). rewrite app_nil_r. by exists vs.
  - apply Z.eqb_neq in Hne. rewrite Hne.
    case_if; [intros [= <- <-]; apply store_none|].
    intros H. apply res_bind_inv in H as ([o|] & Ho & H).
    2: { injection H as <- <-. apply store_none. }
    apply scan_item_stores in Ho as [[? _]|(v & -> & Hv & _ & _)]; [done|].
    destruct (next_field sentence) as [field' sentence'].
    apply IH in H as (vs & -> & Hvs). exists (v :: vs). rewrite <- app_assoc.
    split; [done|]. intros l. destruct (Hd v l Hv) as [l' Hl]. cbn. rewrite Hl. apply Hvs.
Qed.

(** A [Ret] destination for every value its conversion can store. *)
Ltac solve_dest :=
  let v := fresh in let l := fresh in let Hs := fresh in
  intros v l Hs; destruct v; cbn in Hs; first [ lia | eexists; reflexivity ].
Ltac solve_args_fit :=
  match goal with
  | |- args_fit (bytes ?s) ?ds =>
      let fmt := eval vm_compute in (bytes s) in
      change (args_fit fmt ds); let l := eval hnf in ds in change (args_fit fmt l)
  end;
  repeat first [ apply fit_nil | apply fit_optional | apply fit_ignored
               | apply fit_arg; [done|done|solve_dest|] ].

Lemma rmc_args_fit : args_fit (bytes "tTcfdfdffDfd") rmc_dests.
Proof. solve_args_fit. Qed.
Lemma gga_args_fit : args_fit (bytes "tTfdfdiiffcfci_") gga_dests.
Proof. solve_args_fit. Qed.
Lemma gsa_args_fit : args_fit (bytes "tciiiiiiiiiiiiifff") gsa_dests.
Proof. solve_args_fit. Qed.
Lemma gll_args_fit : args_fit (bytes "tfdfdTc;c") gll_dests.
Proof. solve_args_fit. Qed.
Lemma gst_args_fit : args_fit (bytes "tTfffffff") gst_dests.
Proof. solve_args_fit. Qed.
Lemma gsv_args_fit : args_fit (bytes "tiii;iiiiiiiiiiiiiiii") gsv_dests.
Proof. solve_args_fit. Qed.
Lemma vtg_args_fit : args_fit (bytes "tfcfcfcfc;c") vtg_dests.
Proof. solve_args_fit. Qed.
Lemma zda_args_fit : args_fit (bytes "tTiiiii") zda_dests.
Proof. solve_args_fit. Qed.

Lemma only_overflow_scan_into {F} sentence format (dests : list (dest F)) f :
  args_fit (bytes format) dests → only_overflow (scan_into sentence format dests f).
Proof.
  intros Hfit. unfold scan_into. apply only_overflow_bind.
  { apply only_overflow_scan_loop. }
  intros [ok out] Hs. destruct (store_all_fit _ _ _ _ _ _ _ _ Hfit Hs) as (vs & -> & Hvs).
  destruct (Hvs (init_locals f)) as [l Hl]. rewrite app_nil_l, Hl. done.
Qed.

Lemma only_overflow_apply_direction x d : only_overflow (apply_direction x d).
Proof. unfold apply_direction. apply only_overflow_bind; [apply only_overflow_chk32|done]. Qed.

#[export] Hint Resolve only_overflow_scan_into only_overflow_apply_direction
  only_overflow_chk32 only_overflow_scan_loop rmc_args_fit gga_args_fit gsa_args_fit
  gll_args_fit gst_args_fit gsv_args_fit vtg_args_fit zda_args_fit : safe.

Ltac solve_safe :=
  repeat first
    [ progress (eauto with safe)
    | apply only_overflow_bind; [eauto with safe|intros ? ?]
    | case_match
    | done ].

(** C13: the sentence parsers are memory safe on every C string: no read past the
    terminator, and every pointer passed to [minmea_scan] agrees with its format
    in number and kind.  The only undefined behaviour left is [int] overflow. *)
Theorem minmea_parsers_safe sentence :
  (∀ f, only_overflow (minmea_parse_rmc f sentence)) ∧
  (∀ f, only_overflow (minmea_parse_gga f sentence)) ∧
  (∀ f, only_overflow (minmea_parse_gsa f sentence)) ∧
  (∀ f, only_overflow (minmea_parse_gll f sentence)) ∧
  (∀ f, only_overflow (minmea_parse_gst f sentence)) ∧
  (∀ f, only_overflow (minmea_parse_gsv f sentence)) ∧
  (∀ f, only_overflow (minmea_parse_vtg f sentence)) ∧
  (∀ f, only_overflow (minmea_parse_zda f sentence)).
Proof.
  repeat split; intros f.
  - unfold minmea_parse_rmc. solve_safe.
  - unfold minmea_parse_gga. solve_safe.
  - unfold minmea_parse_gsa. solve_safe.
  - unfold minmea_parse_gll. solve_safe.
  - unfold minmea_parse_gst. solve_safe.
  - unfold minmea_parse_gsv. solve_safe.
  - unfold minmea_parse_vtg. solve_safe.
  - unfold minmea_parse_zda. solve_safe.
Qed.

(** * Fractional values *)

Definition digits (ds : cstr) : Prop := Forall (λ c, isdigit c = true) ds.

Lemma isdigit_field c : isdigit c = true → minmea_isfield c = true ∧ 48 <= c <= 57.
Proof.
  unfold minmea_isfield, isdigit, isprint. intros H. bool_prop. split; [|lia].
  repeat (apply andb_true_iff; split); try apply negb_true_iff, Z.eqb_neq; lia.
Qed.

(** What the digit loop reads the sentinel -1 as. *)
Definition norm (value : Z) : Z := if value =? -1 then 0 else value.

Lemma norm_nonneg v : -1 <= v → 0 <= norm v.
Proof. unfold norm. case_if; lia. Qed.

Lemma norm_id v : 0 <= v → norm v = v.
Proof. unfold norm. intros. case_if; lia. Qed.

Lemma quot_guard v d : 0 <= v → 0 <= d <= 9 →
  (Z.quot (INT32_MAX - d) 10 <? v) = negb (10 * v + d <=? INT32_MAX).
Proof.
  intros Hv Hd. rewrite Z.quot_div_nonneg by (unfold INT32_MAX; lia).
  unfold INT32_MAX. destruct (Z.ltb_spec ((2147483647 - d) / 10) v) as [H|H];
    destruct (Z.leb_spec (10 * v + d) 2147483647) as [H'|H']; cbn; try done; dlia.
Qed.

(** One digit of the loop. *)
Lemma scan_f_digit c p sign v scale :
  isdigit c = true → -1 <= v → 0 <= scale → 10 * norm v + (c - 48) <= INT32_MAX →
  scan_f_loop (c :: p) sign v scale =
    (scale ← (if scale =? 0 then Ret 0 else chk32 (scale * 10));
     scan_f_loop p sign (10 * norm v + (c - 48)) scale).
Proof.
  intros Hc Hv Hs Hmax. destruct (isdigit_field _ Hc) as [Hf Hr].
  pose proof (norm_nonneg v Hv) as Hn. cbn [scan_f_loop]. rewrite Hf, Hc. cbn [negb].
  decide_if (c =? 43) false. decide_if (c =? 45) false. cbn [andb].
  fold (norm v). rewrite quot_guard by lia.
  decide_if (10 * norm v + (c - 48) <=? INT32_MAX) true. cbn [negb].
  rewrite (chk32_ok (10 * norm v + (c - 48))) by (unfold INT32_MIN; lia).
  cbn. by destruct (scale =? 0) eqn:?; bool_prop; subst.
Qed.

Lemma dec_acc_le_pow a ds : 0 <= a → digits ds → 0 <= dec_acc a ds.
Proof. intros Ha Hd. pose proof (dec_acc_le a ds Ha Hd). lia. Qed.

Lemma scan_f_digits ds p sign v scale :
  digits ds → -1 <= v → 0 <= scale → scale * 10 ^ Z.of_nat (length ds) <= INT32_MAX →
  dec_acc (norm v) ds <= INT32_MAX → ds ≠ [] ∨ v ≠ -1 →
  scan_f_loop (ds ++ p) sign v scale =
    scan_f_loop p sign (dec_acc (norm v) ds) (scale * 10 ^ Z.of_nat (length ds)).
Proof.
  intros Hds. revert v scale. induction Hds as [|c ds Hc Hds IH]; intros v scale Hv Hs Hmax Hdec Hne.
  - destruct Hne as [|Hne]; [done|]. cbn. rewrite norm_id by lia. by rewrite Z.mul_1_r.
  - destruct (isdigit_field _ Hc) as [_ Hr]. pose proof (norm_nonneg v Hv) as Hn.
    assert (dec_acc (norm v) (c :: ds) = dec_acc (10 * norm v + (c - 48)) ds) as Hacc.
    { unfold dec_acc. cbn. f_equal. lia. }
    rewrite Hacc in *. pose proof (dec_acc_le (10 * norm v + (c - 48)) ds ltac:(lia) Hds) as Hle.
    cbn [length] in *. rewrite Nat2Z.inj_succ, Z.pow_succ_r in * by lia.
    assert (1 <= 10 ^ Z.of_nat (length ds)) as Hpow by (apply (Z.pow_le_mono_r 10 0); lia).
    cbn [app]. rewrite scan_f_digit by (done || lia).
    assert ((if scale =? 0 then Ret 0 else chk32 (scale * 10)) = Ret (scale * 10)) as ->.
    { case_if; [by subst|]. apply chk32_ok. unfold INT32_MIN. nia. }
    cbn [mbind res_bind].
    rewrite IH; [|lia|lia|nia|rewrite norm_id by lia; lia|right; lia].
    rewrite norm_id by lia. f_equal. lia.
Qed.

Lemma scan_f_blanks n p : scan_f_loop (replicate n 32 ++ p) 0 (-1) 0 = scan_f_loop p 0 (-1) 0.
Proof. by induction n. Qed.

Lemma scan_f_stop p sign v scale :
  stops minmea_isfield p = true → scan_f_loop p sign v scale = Ret (Some (sign, v, scale)).
Proof. destruct p as [|c p]; [done|]. cbn. by intros ->. Qed.

Lemma scan_f_point p sign v :
  scan_f_loop (46 :: p) sign v 0 = scan_f_loop p sign v 1.
Proof. done. Qed.

(** An optional sign. *)
Definition sign_text (neg : option bool) : cstr :=
  match neg with None => [] | Some false => [43] | Some true => [45] end.
Definition sign_value (neg : option bool) : Z :=
  match neg with None => 0 | Some false => 1 | Some true => -1 end.

Lemma scan_f_sign neg p :
  scan_f_loop (sign_text neg ++ p) 0 (-1) 0 = scan_f_loop p (sign_value neg) (-1) 0.
Proof. by destruct neg as [[]|]. Qed.

(** The fixed-point conversion of [minmea_scan] is exact.  A field of leading
    blanks, an optional sign, digits [ds], a point and digits [fs] (not both empty)
    whose digits fit an [int] gives the integer they denote together and the scale
    10^|fs|. *)
Theorem scan_f_exact n neg ds fs rest :
  digits ds → digits fs → ds ++ fs ≠ [] → (length fs <= 9)%nat →
  dec (ds ++ fs) <= INT32_MAX → stops minmea_isfield rest = true →
  scan_f (Some (replicate n 32 ++ sign_text neg ++ ds ++ 46 :: fs ++ rest)) =
    Ret (Parsed [VFloat (MkFloat (if neg is Some true then - dec (ds ++ fs) else dec (ds ++ fs))
                           (10 ^ Z.of_nat (length fs)))]).
Proof.
  intros Hds Hfs Hne Hlen Hmax Hrest.
  assert (10 ^ Z.of_nat (length fs) <= 10 ^ 9) as Hpow by (apply Z.pow_le_mono_r; lia).
  assert (0 < 10 ^ Z.of_nat (length fs)) as Hpos by lia.
  assert (0 <= dec (ds ++ fs)) as Hnn.
  { apply dec_bounds, Forall_app. done. }
  assert (scan_f_loop (ds ++ 46 :: fs ++ rest) (sign_value neg) (-1) 0 =
    Ret (Some (sign_value neg, dec (ds ++ fs), 10 ^ Z.of_nat (length fs)))) as Hloop.
  { unfold dec in *. rewrite dec_acc_app in *. destruct ds as [|c ds].
    - cbn [app]. rewrite scan_f_point.
      rewrite scan_f_digits; try done; unfold INT32_MAX in *; try lia; [|by left].
      rewrite scan_f_stop by done. by rewrite Z.mul_1_l.
    - pose proof (dec_acc_le _ _ (dec_acc_le_pow 0 (c :: ds) ltac:(lia) Hds) Hfs) as Hle.
      rewrite scan_f_digits; try done; unfold INT32_MAX in *; try lia;
        [|change (norm (-1)) with 0; lia|by left].
      change (norm (-1)) with 0 in *. rewrite Z.mul_0_l, scan_f_point.
      pose proof (dec_acc_le_pow 0 (c :: ds) ltac:(lia) Hds).
      rewrite scan_f_digits; try done; unfold INT32_MAX in *; try rewrite norm_id by lia; try lia.
      rewrite scan_f_stop by done. by rewrite Z.mul_1_l. }
  unfold scan_f. rewrite scan_f_blanks, scan_f_sign, Hloop. cbn [mbind res_bind].
  decide_if (dec (ds ++ fs) =? -1) false. rewrite andb_false_r.
  decide_if (10 ^ Z.of_nat (length fs) =? 0) false.
  destruct neg as [[]|]; cbn; [| |done];
    rewrite chk32_ok by (unfold INT32_MIN, INT32_MAX in *; lia); cbn.
  - by rewrite Z.mul_comm.
  - by rewrite Z.mul_1_r.
Qed.

Lemma scan_f_exact_witness :
  scan_f (Some (bytes "  -48.07,N")) = Ret (Parsed [VFloat (MkFloat (-4807) 100)]).
Proof.
  apply (scan_f_exact 2 (Some true) (bytes "48") (bytes "07") (bytes ",N"));
    [by repeat constructor | by repeat constructor | done | cbn; lia
    | vm_compute; by intros [=] | reflexivity].
Defined.

Definition empty_rmc : minmea_sentence_rmc :=
  Mk_rmc (MkTime 0 0 0 0) false (MkFloat 0 0) (MkFloat 0 0) (MkFloat 0 0) (MkFloat 0 0)
    (MkDate 0 0 0) (MkFloat 0 0).

(** The scale of a fraction is not guarded.  While the value is 0 the overflow
    test of the digit loop never fires, so ten zeros after the point multiply the
    [int] scale past its range; a sentence that [minmea_check] accepts reaches this
    in [minmea_parse_rmc]. *)
Theorem minmea_scale_overflow n rest :
  (10 <= n)%nat →
  scan_f (Some (bytes "0." ++ replicate n 48 ++ rest)) = Fault SignedOverflow ∧
  ∃ sentence, minmea_check sentence true = true ∧
    ∀ f, minmea_parse_rmc f sentence = Fault SignedOverflow.
Proof.
  intros Hn. split.
  - replace n with (9 + S (n - 10))%nat by lia.
    rewrite replicate_add, <- app_assoc.
    unfold scan_f. change (bytes "0.") with [48; 46]. cbn [app].
    rewrite scan_f_digit by (done || (vm_compute; done)). cbn [Z.eqb mbind res_bind].
    rewrite scan_f_point, scan_f_digits;
      [|by repeat constructor|done|done|by vm_compute|by vm_compute|by left].
    change (dec_acc _ _) with 0. change (1 * _) with 1000000000.
    cbn [replicate app]. by rewrite scan_f_digit by (done || (vm_compute; done)).
  - exists (bytes "$GPRMC,081836,A,0.0000000000,S,14507.36,E,000.0,360.0,130998,011.3,E*51").
    split; [vm_compute; reflexivity|]. intros f. reflexivity.
Qed.

Lemma minmea_scale_overflow_witness :
  scan_f (Some (bytes "0.0000000000,")) = Fault SignedOverflow.
Proof. apply (minmea_scale_overflow 10 (bytes ",")). lia. Defined.

(** * Rescaling *)

(** Rounding half up by adding half of the divisor. *)
Lemma half_up_div a k : 0 <= a → 0 < k → (a + k / 2) / k = (2 * a + k) / (2 * k).
Proof.
  intros Ha Hk. set (q := (2 * a + k) / (2 * k)).
  assert (2 * k * q <= 2 * a + k < 2 * k * q + 2 * k).
  { pose proof (Z.mul_div_le (2 * a + k) (2 * k) ltac:(lia)).
    pose proof (Z.mul_succ_div_gt (2 * a + k) (2 * k) ltac:(lia)). subst q. lia. }
  symmetry. apply Z.div_unique with (a + k / 2 - k * q); [left|lia].
  assert (k = 2 * (k / 2) + k mod 2 ∧ 0 <= k mod 2 < 2) by dlia.
  assert (2 * k * q = 2 * (k * q)) by lia. lia.
Qed.

(** [minmea_rescale] to a coarser scale that divides the old one rounds half
    away from zero (its comment says towards zero), whenever the value leaves room
    for half of the factor. *)
Theorem minmea_rescale_rounds v s k :
  0 < s → 1 < k → s * k <= INT32_MAX → Z.abs v + k / 2 <= INT32_MAX →
  minmea_rescale (MkFloat v (s * k)) s = Ret (Z.sgn v * ((2 * Z.abs v + k) / (2 * k))).
Proof.
  intros Hs Hk Hsk Hv. unfold minmea_rescale. cbn [f_scale f_value].
  assert (0 <= k / 2) by dlia. assert (s < s * k) by nia.
  assert (k <= s * k) by nia.
  decide_if (s * k =? 0) false. decide_if (s * k =? s) false. decide_if (s <? s * k) true.
  assert (Z.quot (Z.sgn v * (s * k)) s = Z.sgn v * k) as Hq.
  { rewrite (Z.mul_comm s k), Z.mul_assoc. apply Z.quot_mul. lia. }
  assert (Z.quot (s * k) s = k) as Hd.
  { rewrite Z.mul_comm. apply Z.quot_mul. lia. }
  assert (Z.quot (Z.sgn v * k) 2 = Z.sgn v * (k / 2)) as Hh.
  { destruct (Z.sgn_spec v) as [[? ->]|[[? ->]|[? ->]]]; [|done|].
    - rewrite !Z.mul_1_l. apply Z.quot_div_nonneg; lia.
    - replace (-1 * k) with (- k) by lia. replace (-1 * (k / 2)) with (- (k / 2)) by lia.
      rewrite Z.quot_opp_l by lia. f_equal. apply Z.quot_div_nonneg; lia. }
  assert (Z.quot (v + Z.sgn v * (k / 2)) k = Z.sgn v * ((2 * Z.abs v + k) / (2 * k))) as Hr.
  { rewrite <- half_up_div by lia.
    assert (Z.quot (Z.abs v + k / 2) k = (Z.abs v + k / 2) / k) as <-
      by (apply Z.quot_div_nonneg; lia).
    destruct (Z.sgn_spec v) as [[? ->]|[[? ->]|[? ->]]].
    - rewrite !Z.mul_1_l. do 2 f_equal; lia.
    - subst. rewrite Z.mul_0_l. apply Z.quot_0_l. lia.
    - replace (v + - (1) * (k / 2)) with (- (Z.abs v + k / 2)) by lia.
      rewrite Z.quot_opp_l by lia. lia. }
  assert (∀ z, - INT32_MAX <= z <= INT32_MAX → chk32 z = Ret z) as Hchk.
  { intros z Hz. apply chk32_ok. unfold INT32_MIN, INT32_MAX in *. lia. }
  assert (Z.sgn v = 1 ∨ Z.sgn v = 0 ∨ Z.sgn v = -1) as Hsgn
    by (destruct (Z.sgn_spec v) as [[? ->]|[[? ->]|[? ->]]]; auto).
  assert (0 <= (2 * Z.abs v + k) / (2 * k) <= Z.abs v + k / 2) as Hq0.
  { rewrite <- half_up_div by lia. split; [apply Z.div_pos; lia|].
    apply Z.div_le_upper_bound; nia. }
  assert (k / 2 <= k) by dlia.
  unfold quot32. decide_if (s =? 0) false.
  rewrite (Hchk (Z.sgn v * (s * k))) by nia. cbn [mbind res_bind].
  rewrite Hq, (Hchk (Z.sgn v * k)) by nia. cbn [mbind res_bind Z.eqb].
  rewrite Hh, (Hchk (Z.sgn v * (k / 2))) by nia. cbn [mbind res_bind].
  rewrite (Hchk (v + Z.sgn v * (k / 2))) by nia. cbn [mbind res_bind].
  rewrite Hd, (Hchk k) by nia. cbn [mbind res_bind].
  decide_if (k =? 0) false. rewrite Hr. apply Hchk. nia.
Qed.

Lemma minmea_rescale_rounds_witness : minmea_rescale (MkFloat 15 10) 1 = Ret 2.
Proof.
  apply (minmea_rescale_rounds 15 1 10); vm_compute; first [done | by intros [=]].
Defined.
