(* ===== verification/MinmeaRmc.v ===== *)
(** Functional correctness of the RMC path of the NMEA parser (Minmea): every
    well-formed RMC sentence is accepted, identified and parsed to the values its
    text denotes. *)

From S2P Require Import Prelude CLib Minmea MinmeaSpec.

(** * The text of an RMC sentence *)

(** A number: nothing, digits, or the digits before and after a point. *)
Variant number_text : Type :=
  | NoNumber
  | Whole (ds : cstr)
  | Fixed (ds fs : cstr).

Definition wf_number (x : number_text) : Prop :=
  match x with
  | NoNumber => True
  | Whole ds => digits ds ∧ ds ≠ [] ∧ dec ds <= INT32_MAX
  | Fixed ds fs =>
      digits ds ∧ digits fs ∧ ds ++ fs ≠ [] ∧ (length fs <= 9)%nat ∧ dec (ds ++ fs) <= INT32_MAX
  end.
Definition number_str (x : number_text) : cstr :=
  match x with NoNumber => [] | Whole ds => ds | Fixed ds fs => ds ++ 46 :: fs end.
Definition number_value (x : number_text) : minmea_float :=
  match x with
  | NoNumber => MkFloat 0 0
  | Whole ds => MkFloat (dec ds) 1
  | Fixed ds fs => MkFloat (dec (ds ++ fs)) (10 ^ Z.of_nat (length fs))
  end.

(** A time: nothing, or six digits with or without a fraction of a second, of which six
    digits count. *)
Variant time_text : Type :=
  | NoTime
  | Seconds (hms : cstr)
  | Fraction (hms fs : cstr).

Definition pair_at (ds : cstr) (i : nat) : Z := dec (take 2 (drop i ds)).
Definition six_digits (ds : cstr) : Prop := digits ds ∧ length ds = 6%nat.
Definition wf_time (x : time_text) : Prop :=
  match x with
  | NoTime => True
  | Seconds hms => six_digits hms
  | Fraction hms fs => six_digits hms ∧ digits fs
  end.
Definition time_str (x : time_text) : cstr :=
  match x with NoTime => [] | Seconds hms => hms | Fraction hms fs => hms ++ 46 :: fs end.
Definition microseconds (fs : cstr) : Z :=
  dec (take 6 fs) * 10 ^ (6 - Z.of_nat (length (take 6 fs))).
Definition time_value (x : time_text) : minmea_time :=
  match x with
  | NoTime => MkTime (-1) (-1) (-1) (-1)
  | Seconds hms => MkTime (pair_at hms 0) (pair_at hms 2) (pair_at hms 4) 0
  | Fraction hms fs => MkTime (pair_at hms 0) (pair_at hms 2) (pair_at hms 4) (microseconds fs)
  end.

(** A date: nothing or six digits. *)
Definition wf_date (x : option cstr) : Prop := from_option six_digits True x.
Definition date_value (x : option cstr) : minmea_date :=
  match x with
  | None => MkDate (-1) (-1) (-1)
  | Some ds => MkDate (pair_at ds 0) (pair_at ds 2) (pair_at ds 4)
  end.

(** A sentence's fields, each of which may be empty but the first; the directions are
    [true] for S and W.  Further fields may follow, as later versions of NMEA have them;
    the digits of the checksum are in either case. *)
Record rmc_text : Type := MkRmcText {
  t_talker : cstr; t_time : time_text; t_validity : option Z;
  t_latitude : number_text; t_south : option bool;
  t_longitude : number_text; t_west : option bool;
  t_speed : number_text; t_course : number_text; t_date : option cstr;
  t_variation : number_text; t_var_west : option bool;
  t_more : list cstr; t_lower : bool * bool; t_newline : cstr }.

Definition all_field (w : cstr) : Prop := Forall (λ c, minmea_isfield c = true) w.

Definition wf_rmc (t : rmc_text) : Prop :=
  (all_field (t_talker t) ∧ length (t_talker t) = 2%nat) ∧ wf_time (t_time t) ∧
  from_option (λ c, minmea_isfield c = true) True (t_validity t) ∧
  wf_number (t_latitude t) ∧ wf_number (t_longitude t) ∧ wf_number (t_speed t) ∧
  wf_number (t_course t) ∧ wf_date (t_date t) ∧ wf_number (t_variation t) ∧
  Forall all_field (t_more t) ∧ newline (t_newline t).

Definition ns (south : bool) : Z := if south then 83 else 78.
Definition ew (west : bool) : Z := if west then 87 else 69.
Definition toward (d : option bool) : Z :=
  match d with None => 0 | Some true => -1 | Some false => 1 end.

(** The conversion character, text and value of each field, in order. *)
Definition rmc_fields (t : rmc_text) : list (Z * cstr * value) :=
  [ (116, 36 :: t_talker t ++ bytes "RMC", VStr (t_talker t ++ bytes "RMC"));
    (84, time_str (t_time t), VTime (time_value (t_time t)));
    (99, option_list (t_validity t), VChar (default 0 (t_validity t)));
    (102, number_str (t_latitude t), VFloat (number_value (t_latitude t)));
    (100, option_list (ns <$> t_south t), VInt (toward (t_south t)));
    (102, number_str (t_longitude t), VFloat (number_value (t_longitude t)));
    (100, option_list (ew <$> t_west t), VInt (toward (t_west t)));
    (102, number_str (t_speed t), VFloat (number_value (t_speed t)));
    (102, number_str (t_course t), VFloat (number_value (t_course t)));
    (68, default [] (t_date t), VDate (date_value (t_date t)));
    (102, number_str (t_variation t), VFloat (number_value (t_variation t)));
    (100, option_list (ew <$> t_var_west t), VInt (toward (t_var_west t))) ].

(** Fields joined by commas, then the tail of the sentence. *)
Fixpoint join (fields : list cstr) (tail : cstr) : cstr :=
  match fields with
  | [] => tail
  | [w] => w ++ tail
  | w :: fields => w ++ 44 :: join fields tail
  end.

Definition hex_digit (lower : bool) (d : Z) : Z :=
  if d <? 10 then 48 + d else (if lower then 87 else 55) + d.

Definition more_fields (l : list cstr) : cstr := flat_map (λ w, 44 :: w) l.

(** "$" and the body. *)
Definition rmc_start (t : rmc_text) : cstr :=
  join ((λ f, snd (fst f)) <$> rmc_fields t) (more_fields (t_more t)).
Definition checksum_text (t : rmc_text) : cstr :=
  let x := xor_bytes (tail (rmc_start t)) in
  42 :: hex_digit (fst (t_lower t)) (x / 16) :: hex_digit (snd (t_lower t)) (x mod 16) ::
  t_newline t.
Definition rmc_sentence (t : rmc_text) : cstr := rmc_start t ++ checksum_text t.

(** A number in a direction; without one it is zero. *)
Definition signed (d : option bool) (x : minmea_float) : minmea_float :=
  MkFloat (toward d * f_value x) (f_scale x).

(** The frame the sentence denotes. *)
Definition rmc_value (t : rmc_text) : minmea_sentence_rmc :=
  Mk_rmc (time_value (t_time t)) (bool_decide (t_validity t = Some 65))
    (signed (t_south t) (number_value (t_latitude t)))
    (signed (t_west t) (number_value (t_longitude t)))
    (number_value (t_speed t)) (number_value (t_course t)) (date_value (t_date t))
    (signed (t_var_west t) (number_value (t_variation t))).

(** * One field *)

(** [w] is a field that conversion [type] reads as [v]. *)
Definition parses (type : Z) (w : cstr) (v : value) : Prop :=
  Forall (λ c, minmea_isfield c = true) w ∧ type ≠ 59 ∧
  ∀ rest, stops minmea_isfield rest = true →
    scan_item type (Some (w ++ rest)) = Ret (Parsed [v]).

Lemma isdigit_isfield w : digits w → Forall (λ c, minmea_isfield c = true) w.
Proof. intros H. eapply Forall_impl; [exact H|]. intros c Hc. by apply isdigit_field. Qed.

Lemma stops_peek rest : stops minmea_isfield rest = true → minmea_isfield (peek rest) = false.
Proof. destruct rest as [|c rest]; [done|]. cbn. by intros ->%negb_true_iff. Qed.

(** A field without a character. *)
Lemma parses_nothing type v : type ≠ 59 →
  (∀ p, minmea_isfield (peek p) = false → scan_item type (Some p) = Ret (Parsed [v])) →
  parses type [] v.
Proof. intros Ht Hp. split; [done|]. split; [done|]. intros rest Hr. by apply Hp, stops_peek. Qed.

Lemma scan_f_whole ds rest : digits ds → ds ≠ [] → dec ds <= INT32_MAX →
  stops minmea_isfield rest = true →
  scan_f (Some (ds ++ rest)) = Ret (Parsed [VFloat (MkFloat (dec ds) 1)]).
Proof.
  intros Hd Hne Hmax Hr. assert (0 <= dec ds) by by apply dec_bounds.
  unfold scan_f. rewrite scan_f_digits; [|done|lia|lia|cbn; unfold INT32_MAX; lia|done|by left].
  rewrite Z.mul_0_l, scan_f_stop by done. cbn [mbind res_bind]. change (dec_acc _ ds) with (dec ds).
  decide_if (dec ds =? -1) false. done.
Qed.

Lemma parses_number x : wf_number x → parses 102 (number_str x) (VFloat (number_value x)).
Proof.
  destruct x as [|ds|ds fs]; cbn [wf_number number_str number_value].
  - intros _. apply parses_nothing; [done|]. intros p Hp. unfold scan_item, scan_f. cbn [Z.eqb].
    rewrite scan_f_stop; [done|]. destruct p as [|c p]; [done|]. cbn in *. by rewrite Hp.
  - intros (Hd & Hne & Hmax). split; [by apply isdigit_isfield|]. split; [done|].
    intros rest Hr. by apply scan_f_whole.
  - intros (Hi & Hf & Hne & Hlen & Hmax). split; [|split; [done|]].
    + apply Forall_app. split; [by apply isdigit_isfield|].
      constructor; [done|by apply isdigit_isfield].
    + intros rest Hr. unfold scan_item. cbn [Z.eqb].
      rewrite <- app_assoc. by apply (scan_f_exact 0 None).
Qed.

Lemma parses_char o : from_option (λ c, minmea_isfield c = true) True o →
  parses 99 (option_list o) (VChar (default 0 o)).
Proof.
  destruct o as [c|]; cbn.
  - intros Hc. split; [by repeat constructor|]. split; [done|].
    intros rest _. unfold scan_item, scan_c. cbn. by rewrite Hc.
  - intros _. apply parses_nothing; [done|]. intros p Hp. unfold scan_item, scan_c. by rewrite Hp.
Qed.

Lemma parses_direction f o : f = ns ∨ f = ew → parses 100 (option_list (f <$> o)) (VInt (toward o)).
Proof.
  intros Hf. destruct o as [b|]; cbn.
  - split; [destruct Hf, b; subst; by repeat constructor|]. split; [done|].
    intros rest _. by destruct Hf, b; subst.
  - apply parses_nothing; [done|]. intros p Hp. unfold scan_item, scan_d. cbn [Z.eqb]. by rewrite Hp.
Qed.

Lemma all_chars_true test w rest i n :
  Forall (λ c, test c = true) w → (i + n <= length w)%nat →
  all_chars test (w ++ rest) i n = Ret true.
Proof.
  intros Hw. revert i. induction n as [|n IH]; intros i Hi; cbn; [done|].
  rewrite char_at_lt by (rewrite length_app; lia). rewrite app_nth1 by lia. cbn.
  rewrite (Forall_nth_Z (λ c, test c = true)) by (done || lia). apply IH. lia.
Qed.

Lemma parses_type w : Forall (λ c, minmea_isfield c = true) w → length w = 5%nat →
  parses 116 (36 :: w) (VStr w).
Proof.
  intros Hw Hlen. split; [by constructor|]. split; [done|].
  intros rest _. unfold scan_item, scan_t. cbn [Z.eqb app peek negb].
  change (36 :: w ++ rest) with ((36 :: w) ++ rest).
  rewrite all_chars_true by first [by constructor | cbn; lia]. cbn [mbind res_bind].
  rewrite memcpy_from_ret by (cbn; rewrite length_app; lia). cbn [mbind res_bind].
  change (drop 1 ((36 :: w) ++ rest)) with (w ++ rest). by rewrite take_app_length'.
Qed.

(** Two digits. *)
Lemma strtol_two a b : isdigit a = true → isdigit b = true → fst (strtol [a; b]) = dec [a; b].
Proof.
  intros Ha Hb.
  assert (forallb (λ a, forallb (λ b, fst (strtol [a; b]) =? dec [a; b]) (seqZ 48 10))
            (seqZ 48 10) = true) as H by (vm_compute; reflexivity).
  unfold isdigit in *. bool_prop.
  rewrite forallb_forall in H. specialize (H a). rewrite forallb_forall in H.
  rewrite <- !list_elem_of_In, !elem_of_seqZ in H.
  apply Z.eqb_eq, H; rewrite <- ?list_elem_of_In, ?elem_of_seqZ; lia.
Qed.

Lemma two_digits_pair w rest i : digits w → (S i < length w)%nat →
  two_digits (w ++ rest) i = Ret (pair_at w i).
Proof.
  intros Hw Hi. rewrite two_digits_ret by (rewrite length_app; lia).
  rewrite !app_nth1 by lia.
  rewrite strtol_two by (apply (Forall_nth_Z (λ c, isdigit c = true)); done || lia). unfold pair_at. do 2 f_equal.
  rewrite (drop_S w (nth i w 0) i), (drop_S w (nth (S i) w 0) (S i)); [done|..];
    apply lookup_nth; lia.
Qed.

Lemma six_digits_peek w rest : six_digits w → minmea_isfield (peek (w ++ rest)) = true.
Proof. intros [Hw Hl]. destruct w as [|c w]; [done|]. inversion_clear Hw. by apply isdigit_field. Qed.

Lemma parses_date o : wf_date o → parses 68 (default [] o) (VDate (date_value o)).
Proof.
  destruct o as [w|]; cbn.
  - intros Hsix. pose proof Hsix as [Hw Hlen]. split; [by apply isdigit_isfield|]. split; [done|].
    intros rest _. unfold scan_item, scan_D. cbn [Z.eqb]. rewrite six_digits_peek by done.
    rewrite all_chars_true by (done || lia). cbn [mbind res_bind].
    by rewrite !two_digits_pair by (done || lia).
  - intros _. apply parses_nothing; [done|]. intros p Hp. unfold scan_item, scan_D. cbn [Z.eqb].
    by rewrite Hp.
Qed.

(** The fraction ends, or six digits have been read. *)
Lemma scan_usec_digits ds rest v m :
  digits ds → (length ds <= m)%nat → (m <= 6)%nat → 0 <= v < 10 ^ (6 - Z.of_nat m) →
  stops isdigit rest = true ∨ length ds = m →
  scan_usec (ds ++ rest) v (10 ^ Z.of_nat m) =
    (dec_acc v ds, 10 ^ (Z.of_nat m - Z.of_nat (length ds))).
Proof.
  intros Hds. revert v m. induction Hds as [|c ds Hc Hds IH]; intros v m Hlen Hm Hv Hr.
  - cbn. rewrite Z.sub_0_r. destruct rest as [|c rest]; [done|]. cbn.
    destruct Hr as [Hr|<-]; [|by rewrite andb_false_r]. cbn in Hr. by destruct (isdigit c).
  - cbn [length] in *. destruct m as [|m]; [lia|]. cbn [app scan_usec].
    rewrite Hc. rewrite Nat2Z.inj_succ, Z.pow_succ_r by lia.
    assert (1 <= 10 ^ Z.of_nat m) by (apply (Z.pow_le_mono_r 10 0); lia).
    decide_if (1 <? 10 * 10 ^ Z.of_nat m) true. cbn [andb].
    rewrite (Z.mul_comm 10), Z.div_mul by done.
    unfold isdigit in Hc. bool_prop.
    assert (0 <= v * 10 + (c - 48) < 10 ^ (6 - Z.of_nat m)) as Hv'.
    { replace (6 - Z.of_nat m) with (Z.succ (6 - Z.of_nat (S m))) by lia.
      rewrite Z.pow_succ_r by lia. lia. }
    assert (10 ^ (6 - Z.of_nat m) <= 10 ^ 6) by (apply Z.pow_le_mono_r; lia).
    rewrite u32_small by lia. rewrite IH; [|lia|lia|lia|destruct Hr; [by left|right; lia]].
    do 2 f_equal. lia.
Qed.

Lemma field_end_digits rest : stops minmea_isfield rest = true → stops isdigit rest = true.
Proof.
  destruct rest as [|c rest]; [done|]. cbn. intros Hr. apply negb_true_iff in Hr.
  apply negb_true_iff. destruct (isdigit c) eqn:E; [|done].
  apply isdigit_field in E as [E _]. by rewrite E in Hr.
Qed.

Lemma scan_fraction fs rest : digits fs → stops minmea_isfield rest = true →
  (let '(value, scale) := scan_usec (fs ++ rest) 0 1000000 in i32 (u32 (value * scale))) =
    microseconds fs.
Proof.
  intros Hfs Hr. rewrite <- (take_drop 6 fs) at 1. rewrite <- app_assoc.
  assert (digits (take 6 fs)) as H6 by by apply Forall_take.
  assert (length (take 6 fs) <= 6)%nat as Hlen by (rewrite length_take; lia).
  change 1000000 with (10 ^ Z.of_nat 6). rewrite scan_usec_digits; [|done|lia|lia|by cbn|].
  - pose proof (dec_bounds (take 6 fs) H6) as Hb. unfold microseconds. cbv zeta.
    change (dec_acc 0 (take 6 fs)) with (dec (take 6 fs)). change (Z.of_nat 6) with 6.
    assert (0 <= dec (take 6 fs) * 10 ^ (6 - Z.of_nat (length (take 6 fs))) < 10 ^ 6) as Hu.
    { replace (10 ^ 6) with (10 ^ Z.of_nat (length (take 6 fs)) * 10 ^ (6 - Z.of_nat (length (take 6 fs))))
        by (rewrite <- Z.pow_add_r by lia; f_equal; lia).
      assert (0 < 10 ^ (6 - Z.of_nat (length (take 6 fs)))) by (apply Z.pow_pos_nonneg; lia). nia. }
    by rewrite u32_small, i32_small by (unfold INT32_MIN, INT32_MAX; lia).
  - destruct (decide (6 <= length fs)%nat) as [Hl|Hl]; [right; rewrite length_take; lia|left].
    rewrite drop_ge by lia. by apply field_end_digits.
Qed.

Lemma scan_T_six w rest : six_digits w →
  scan_T (Some (w ++ rest)) =
    Ret (Parsed [VTime (MkTime (pair_at w 0) (pair_at w 2) (pair_at w 4)
      (if peek rest =? 46 then
         let '(value, scale) := scan_usec (tail rest) 0 1000000 in i32 (u32 (value * scale))
       else 0))]).
Proof.
  intros Hsix. pose proof Hsix as [Hw Hlen]. unfold scan_T. rewrite six_digits_peek by done.
  rewrite all_chars_true by (done || lia). cbn [mbind res_bind].
  rewrite !two_digits_pair by (done || lia). cbn [mbind res_bind]. by rewrite drop_app_length' by done.
Qed.

Lemma parses_time x : wf_time x → parses 84 (time_str x) (VTime (time_value x)).
Proof.
  destruct x as [|w|w fs]; cbn [wf_time time_str time_value].
  - intros _. apply parses_nothing; [done|]. intros p Hp. unfold scan_item, scan_T. cbn [Z.eqb].
    by rewrite Hp.
  - intros Hw. split; [by apply isdigit_isfield, Hw|]. split; [done|].
    intros rest Hr. unfold scan_item. cbn [Z.eqb]. rewrite scan_T_six by done.
    destruct (peek rest =? 46) eqn:E; [|done]. bool_prop. apply stops_peek in Hr. by rewrite E in Hr.
  - intros [Hw Hfs]. split; [|split; [done|]].
    { apply Forall_app. split; [by apply isdigit_isfield, Hw|].
      constructor; [done|by apply isdigit_isfield]. }
    intros rest Hr. unfold scan_item. cbn [Z.eqb]. rewrite <- app_assoc, scan_T_six by done.
    cbn [app peek tail Z.eqb Pos.eqb]. by rewrite (scan_fraction fs rest).
Qed.

(** * The whole sentence *)

Lemma next_field_comma w rest : Forall (λ c, minmea_isfield c = true) w →
  next_field (w ++ 44 :: rest) = (Some rest, rest).
Proof. intros Hw. unfold next_field. by rewrite skip_while_app. Qed.

Lemma next_field_star w rest : Forall (λ c, minmea_isfield c = true) w →
  next_field (w ++ 42 :: rest) = (None, 42 :: rest).
Proof. intros Hw. unfold next_field. by rewrite skip_while_app. Qed.

Lemma join_cons w fields rest :
  fields ≠ [] → join (w :: fields) rest = w ++ 44 :: join fields rest.
Proof. by destruct fields. Qed.

Lemma join_app fields rest1 rest2 : join fields (rest1 ++ rest2) = join fields rest1 ++ rest2.
Proof.
  induction fields as [|w fields IH]; [done|]. destruct fields as [|w' fields].
  - cbn. by rewrite app_assoc.
  - rewrite (join_cons w _ (rest1 ++ rest2)), (join_cons w _ rest1), IH by done.
    by rewrite <- app_assoc.
Qed.

(** The loop on a field that a comma or the checksum follows. *)
Lemma scan_loop_step type w v fmt out sep rest :
  parses type w v → stops minmea_isfield (sep :: rest) = true →
  scan_loop (type :: fmt) (Some (w ++ sep :: rest)) (w ++ sep :: rest) false out =
    let '(field, sentence) := next_field (w ++ sep :: rest) in
    scan_loop fmt field sentence false (out ++ [v]).
Proof.
  intros (_ & Htype & Hp) Hs. cbn [scan_loop]. apply Z.eqb_neq in Htype. rewrite Htype.
  cbn [negb andb]. by rewrite Hp.
Qed.

(** All the fields of the format, with something left behind them. *)
Lemma scan_loop_fields fields sep rest out :
  fields ≠ [] → stops minmea_isfield (sep :: rest) = true →
  Forall (λ f, parses (fst (fst f)) (snd (fst f)) (snd f)) fields →
  let s := join ((λ f, snd (fst f)) <$> fields) (sep :: rest) in
  scan_loop ((λ f, fst (fst f)) <$> fields) (Some s) s false out =
    Ret (true, out ++ (snd <$> fields)).
Proof.
  intros Hne Hsep H. revert out. induction H as [|[[type w] v] fields Hp Hfs IH];
    intros out; [done|]. cbn [fst snd] in Hp.
  destruct (decide (fields = [])) as [->|Hne'].
  - cbn [fmap list_fmap fst snd join]. rewrite (scan_loop_step _ _ v) by done. by destruct (next_field _).
  - specialize (IH Hne' (out ++ [v])). rewrite !fmap_cons. cbn [fst snd].
    rewrite join_cons by (by destruct fields).
    rewrite (scan_loop_step _ _ v) by done.
    rewrite next_field_comma by apply Hp. cbn zeta iota in *. rewrite IH.
    by rewrite <- app_assoc.
Qed.

Lemma rmc_fields_parse t : wf_rmc t →
  Forall (λ f, parses (fst (fst f)) (snd (fst f)) (snd f)) (rmc_fields t).
Proof.
  intros ([Htk Htk2] & Htime & Hval & Hlat & Hlon & Hsp & Hco & Hd & Hvar & _).
  unfold rmc_fields. repeat (apply Forall_cons; split); try apply Forall_nil; cbn [fst snd];
    auto using parses_number, parses_char, parses_direction, parses_date, parses_time.
  apply parses_type; [|rewrite length_app, Htk2; done].
  apply Forall_app. split; [done|by repeat constructor].
Qed.

(** What is left behind the fields that are read. *)
Lemma rmc_rest t : ∃ sep rest, stops minmea_isfield (sep :: rest) = true ∧
  rmc_sentence t = join ((λ f, snd (fst f)) <$> rmc_fields t) (sep :: rest).
Proof.
  unfold rmc_sentence, rmc_start. rewrite <- join_app. destruct (t_more t) as [|w l].
  - eexists 42, _. split; [|reflexivity]. done.
  - eexists 44, _. split; [|reflexivity]. done.
Qed.

(** * Checksum of the sentence *)

Lemma join_body fields rest :
  Forall (λ w, Forall (λ c, minmea_isfield c = true) w) fields →
  Forall (λ c, body_char c = true) rest → Forall (λ c, body_char c = true) (join fields rest).
Proof.
  intros Hf Hr.
  assert (∀ w, Forall (λ c, minmea_isfield c = true) w → Forall (λ c, body_char c = true) w) as Hw.
  { intros w H. eapply Forall_impl; [exact H|]. intros c. unfold minmea_isfield, body_char.
    rewrite !andb_true_iff. tauto. }
  induction Hf as [|w fields H Hf IH]; [done|].
  destruct (decide (fields = [])) as [->|Hne].
  - apply Forall_app. auto.
  - rewrite join_cons by done. apply Forall_app. split; [auto|]. by constructor.
Qed.

Lemma hex_digit_value lower d : 0 <= d < 16 → hex2int (hex_digit lower d) = d.
Proof.
  intros Hd.
  assert (forallb (λ d, hex2int (hex_digit lower d) =? d) (seqZ 0 16) = true) as H
    by (by destruct lower).
  rewrite forallb_forall in H. apply Z.eqb_eq, H.
  rewrite <- list_elem_of_In, elem_of_seqZ. lia.
Qed.

Lemma all_field_body w : all_field w → Forall (λ c, body_char c = true) w.
Proof.
  intros H. eapply Forall_impl; [exact H|]. intros c. unfold minmea_isfield, body_char.
  rewrite !andb_true_iff. tauto.
Qed.

(** "$" and the body of an RMC sentence. *)
Lemma rmc_start_body t : wf_rmc t → ∃ body,
  rmc_start t = 36 :: body ∧ Forall (λ c, body_char c = true) body.
Proof.
  intros Hwf.
  assert (Forall (λ c, body_char c = true) (rmc_start t)) as Hb.
  { apply join_body.
    - apply Forall_fmap. eapply Forall_impl; [by apply rmc_fields_parse|]. intros [[ty w] v] Hp. apply Hp.
    - destruct Hwf as (_ & _ & _ & _ & _ & _ & _ & _ & _ & Hm & _). unfold more_fields.
      induction Hm as [|w l Hw _ IH]; [done|]. cbn. constructor; [done|].
      apply Forall_app. split; [by apply all_field_body|done]. }
  eexists. split; [reflexivity|]. by inversion_clear Hb.
Qed.

(** Scanning only the sentence type. *)
Lemma rmc_scan_type t : wf_rmc t →
  minmea_scan (rmc_sentence t) "t" = Ret (true, [VStr (t_talker t ++ bytes "RMC")]).
Proof.
  intros Hwf. destruct (rmc_rest t) as (sep & rest & _ & ->). unfold minmea_scan.
  pose proof (rmc_fields_parse t Hwf) as Hp. unfold rmc_fields in *.
  rewrite !fmap_cons. cbn [fst snd]. rewrite join_cons by done.
  inversion_clear Hp as [|? ? H _]. change (bytes "t") with [116].
  rewrite (scan_loop_step _ _ (VStr (t_talker t ++ bytes "RMC"))) by done.
  destruct (next_field _). done.
Qed.

Lemma apply_direction_signed x d : wf_number x →
  apply_direction (number_value x) (toward d) = Ret (signed d (number_value x)).
Proof.
  intros Hx. assert (0 <= f_value (number_value x) <= INT32_MAX) as Hv.
  { destruct x as [|ds|ds fs]; cbn in *; [by unfold INT32_MAX|by destruct Hx as (Hd & _ & ?); split; [apply dec_bounds|]|].
    destruct Hx as (Hi & Hf & _ & _ & Hmax). split; [|done]. by apply dec_bounds, Forall_app. }
  unfold apply_direction, signed. destruct (number_value x) as [v s]. cbn [f_value f_scale] in *.
  assert (-1 <= toward d <= 1) by (by destruct d as [[]|]).
  rewrite chk32_ok by (unfold INT32_MIN, INT32_MAX in *; nia).
  unfold field_update. cbn. by rewrite Z.mul_comm.
Qed.

(** The locals of [minmea_parse_rmc] after the scan. *)
Definition rmc_stored (t : rmc_text) (f : minmea_sentence_rmc) : locals minmea_sentence_rmc :=
  MkLocals
    (Mk_rmc (time_value (t_time t)) (rmc_valid f)
      (number_value (t_latitude t)) (number_value (t_longitude t))
      (number_value (t_speed t)) (number_value (t_course t)) (date_value (t_date t))
      (number_value (t_variation t)))
    (t_talker t ++ bytes "RMC") (default 0 (t_validity t)) (toward (t_south t)) (toward (t_west t))
    (toward (t_var_west t)) 0 0 0 0 0.

(** Run the stores and member accesses of a parser, and nothing else. *)
Ltac run_stores :=
  lazy beta iota zeta delta
    [ store_all rmc_dests to_str to_time to_char to_float to_int to_date own into
      field_update init_locals frame type_ validity latitude_direction
      longitude_direction variation_direction c_true c_magnetic c_knots c_kph
      c_faa_mode rmc_time rmc_valid rmc_latitude rmc_longitude rmc_speed rmc_course
      rmc_date rmc_variation rmc_fields rmc_stored rmc_value fmap list_fmap snd
      mbind res_bind ].

(** The strict check accepts the sentence. *)
Lemma rmc_accepted t : wf_rmc t → (length (rmc_sentence t) <= 83)%nat →
  minmea_check (rmc_sentence t) true = true.
Proof.
  intros Hwf Hlen. apply minmea_check_spec. split; [done|].
  destruct (rmc_start_body t Hwf) as (body & Hs & Hb).
  exists body, (checksum_text t). unfold rmc_sentence. rewrite Hs. split; [done|]. split; [done|]. left.
  pose proof (xor_bytes_byte body Hb) as Hx. unfold is_byte in Hx.
  unfold checksum_text. rewrite Hs. cbn [tail].
  eexists _, _, _. split; [done|]. rewrite !hex_digit_value by dlia.
  split; [apply Hwf|]. dlia.
Qed.

Lemma rmc_scanned t : wf_rmc t →
  minmea_scan (rmc_sentence t) "tTcfdfdffDfd" = Ret (true, snd <$> rmc_fields t).
Proof.
  intros Hwf. destruct (rmc_rest t) as (sep & rest & Hsep & ->). unfold minmea_scan.
  apply (scan_loop_fields (rmc_fields t) sep rest []); [done|done|]. by apply rmc_fields_parse.
Qed.

(** C1: the RMC path is correct on every RMC sentence of at most 83 bytes: a talker of two
    characters; time, validity, position, speed, course, date and variation, each of them
    possibly empty; further fields; the checksum in digits of either case; and at most one
    line end.  A time has six digits and maybe a fraction, a date six digits; a number has
    no sign, at most nine digits after its point and digits that fit an [int].  The strict
    check accepts the sentence, it is identified as RMC, and parsing gives what the text
    denotes, whatever the frame held before: -1 for an empty time or date, 0 over 0 for an
    empty number, microseconds of the first six digits of the fraction, numbers with the
    sign of their direction, and 0 for one without a direction. *)
Theorem rmc_sentence_parsed t f :
  wf_rmc t → (length (rmc_sentence t) <= 83)%nat →
  minmea_check (rmc_sentence t) true = true ∧
  minmea_sentence_id (rmc_sentence t) true = Ret MINMEA_SENTENCE_RMC ∧
  minmea_parse_rmc f (rmc_sentence t) = Ret (true, rmc_value t).
Proof.
  intros Hwf Hlen. pose proof (rmc_accepted t Hwf Hlen) as Hchk.
  assert (length (t_talker t) = 2%nat) as Htk2 by apply Hwf.
  assert (str_eq (drop 2 (t_talker t ++ bytes "RMC")) (bytes "RMC") = true) as Htype.
  { rewrite drop_app_length' by done. reflexivity. }
  split; [done|]. split.
  - unfold minmea_sentence_id. rewrite Hchk. cbn [negb].
    rewrite (rmc_scan_type t Hwf). cbn [mbind res_bind].
    unfold sentence_id_of_type. by rewrite Htype.
  - pose proof (rmc_scanned t Hwf) as Hscan. destruct Hwf as (_ & _ & _ & Hlat & Hlon & _ & _ & _ & Hvar & _).
    unfold minmea_parse_rmc, scan_into. rewrite Hscan. cbn [mbind res_bind].
    assert (store_all rmc_dests (snd <$> rmc_fields t) (init_locals f) =
            Ret (rmc_stored t f)) as -> by (run_stores; reflexivity).
    cbn [mbind res_bind negb rmc_stored type_]. rewrite Htype. cbn [negb].
    run_stores. rewrite !apply_direction_signed by done. cbn [mbind res_bind].
    assert ((default 0 (t_validity t) =? 65) = bool_decide (t_validity t = Some 65)) as ->; [|done].
    destruct (t_validity t) as [c|]; [|done]. cbn. case_bool_decide as E; [by injection E as ->|].
    apply Z.eqb_neq. by intros ->.
Qed.

(** The sentence of the comment in minmea.c, with the line end of a receiver. *)
Definition sample_rmc : rmc_text :=
  MkRmcText (bytes "GP") (Seconds (bytes "081836")) (Some 65)
    (Fixed (bytes "3751") (bytes "65")) (Some true)
    (Fixed (bytes "14507") (bytes "36")) (Some false)
    (Fixed (bytes "000") (bytes "0")) (Fixed (bytes "360") (bytes "0")) (Some (bytes "130998"))
    (Fixed (bytes "011") (bytes "3")) (Some false) [] (false, false) [CR; LF].

(** What a receiver sends before it has a position. *)
Definition early_rmc : rmc_text :=
  MkRmcText (bytes "GN") (Fraction (bytes "235947") (bytes "000")) (Some 86)
    NoNumber None NoNumber None NoNumber NoNumber None NoNumber None [bytes "N"] (false, true) [LF].

Lemma sample_rmc_sentence : rmc_sentence sample_rmc =
  bytes "$GPRMC,081836,A,3751.65,S,14507.36,E,000.0,360.0,130998,011.3,E*62" ++ [CR; LF].
Proof. vm_compute. reflexivity. Qed.

Lemma early_rmc_sentence : rmc_sentence early_rmc = bytes "$GNRMC,235947.000,V,,,,,,,,,,N*5d" ++ [LF].
Proof. vm_compute. reflexivity. Qed.

Lemma sample_rmc_wf : wf_rmc sample_rmc ∧ wf_rmc early_rmc.
Proof.
  split; repeat split; try (by repeat constructor); try (by right; right); try (by right; left);
    vm_compute; first [done | lia | by intros [=]].
Qed.

Lemma rmc_sentence_parsed_witness :
  minmea_parse_rmc empty_rmc
    (bytes "$GPRMC,081836,A,3751.65,S,14507.36,E,000.0,360.0,130998,011.3,E*62" ++ [CR; LF]) =
    Ret (true, rmc_value sample_rmc) ∧
  minmea_parse_rmc empty_rmc (bytes "$GNRMC,235947.000,V,,,,,,,,,,N*5d" ++ [LF]) =
    Ret (true, rmc_value early_rmc).
Proof.
  rewrite <- sample_rmc_sentence, <- early_rmc_sentence. split.
  - refine (proj2 (proj2 (rmc_sentence_parsed sample_rmc empty_rmc (proj1 sample_rmc_wf) _))).
    rewrite sample_rmc_sentence. vm_compute. lia.
  - refine (proj2 (proj2 (rmc_sentence_parsed early_rmc empty_rmc (proj2 sample_rmc_wf) _))).
    rewrite early_rmc_sentence. vm_compute. lia.
Defined.
