(* ===== verification/Float32.v ===== *)
(** IEEE-754 single and double precision as the FPU and the compiler's runtime
    compute them (round to nearest even), on the standard library's [SpecFloat], with
    the C conversions between integers and floating point and [printf("%.2f")]. *)

From Stdlib Require Import SpecFloat.
From S2P Require Import Prelude CLib.

Definition float32 : Type := spec_float.
Definition float64 : Type := spec_float.

(** * Single precision *)

Definition f32_of_Z (z : Z) : float32 := binary_normalize 24 128 z 0 false.
Definition f32_add : float32 → float32 → float32 := SFadd 24 128.
Definition f32_sub : float32 → float32 → float32 := SFsub 24 128.
Definition f32_mul : float32 → float32 → float32 := SFmul 24 128.
Definition f32_div : float32 → float32 → float32 := SFdiv 24 128.

(** * Double precision *)

Definition f64_of_Z (z : Z) : float64 := binary_normalize 53 1024 z 0 false.
Definition f64_div : float64 → float64 → float64 := SFdiv 53 1024.

(** Conversion to another precision, rounding when it is narrower. *)
Definition convert (prec emax : Z) (x : spec_float) : spec_float :=
  match x with
  | S754_finite s m e => binary_normalize prec emax (if s then Zneg m else Zpos m) e s
  | _ => x
  end.
Definition f32_of_f64 (x : float64) : float32 := convert 24 128 x.
Definition f64_of_f32 (x : float32) : float64 := convert 53 1024 x.

(** * Conversions to integers *)

(** The value truncated towards zero; undefined for infinities and NaN. *)
Definition trunc (x : spec_float) : res Z :=
  match x with
  | S754_zero _ => Ret 0
  | S754_finite s m e =>
      let a := if 0 <=? e then Zpos m * 2 ^ e else Zpos m / 2 ^ (- e) in
      Ret (if s then - a else a)
  | _ => Fault BadConversion
  end.

Definition to_u32 (x : spec_float) : res Z :=
  z ← trunc x; if (0 <=? z) && (z <? 4294967296) then Ret z else Fault BadConversion.
Definition to_i32 (x : spec_float) : res Z :=
  z ← trunc x; if in_i32 z then Ret z else Fault BadConversion.

(** * [printf("%.2f", x)] for a non-negative value: the exact binary value rounded to
    hundredths, ties to even. *)
Definition hundredths (x : spec_float) : res Z :=
  match x with
  | S754_zero _ => Ret 0
  | S754_finite false m e =>
      if 0 <=? e then Ret (Zpos m * 2 ^ e * 100)
      else
        let n := Zpos m * 100 in
        let d := 2 ^ (- e) in
        let q := n / d in
        let r := n mod d in
        Ret (if (2 * r <? d) || ((2 * r =? d) && Z.even q) then q else q + 1)
  | _ => Fault BadConversion
  end.

Definition print_f2 (x : spec_float) : res cstr :=
  h ← hundredths x;
  Ret (print_d (h / 100) ++ [46; 48 + h mod 100 / 10; 48 + h mod 10]).
