(* ===== verification/FloatSpec.v ===== *)
(** Accuracy of the floating-point operations (Float32.v): each result is the exact value
    rounded to nearest, with the error in units of the last place. *)

From Stdlib Require Import SpecFloat QArith Qpower Lqa.
From S2P Require Import Prelude CLib Float32.

(** * Powers of two *)

Definition p2 (e : Z) : Q := Qpower 2 e.

Lemma p2_pos e : (0 < p2 e)%Q.
Proof. by apply Qpower_0_lt. Qed.
Lemma p2_add a b : (p2 (a + b) == p2 a * p2 b)%Q.
Proof. by apply Qpower_plus. Qed.
Lemma p2_Z n : 0 <= n → (p2 n == inject_Z (2 ^ n))%Q.
Proof. intros Hn. unfold p2. by rewrite <- (Zpower_Qpower 2 n Hn). Qed.
Lemma p2_le a b : a <= b → (p2 a <= p2 b)%Q.
Proof. intros Hab. by apply Qpower_le_compat_l. Qed.
Lemma p2_lt_inv a b : (p2 a < p2 b)%Q → a < b.
Proof. intros Hab. by apply (Qpower_lt_compat_l_inv 2). Qed.
Lemma p2_half e : (p2 (e + 1) == 2 * p2 e)%Q.
Proof. rewrite p2_add. change (p2 1) with 2%Q. ring. Qed.

(** * Values *)

Definition cond_neg (s : bool) (m : Z) : Z := if s then - m else m.

(** The value of a finite number. *)
Definition value (x : spec_float) : Q :=
  match x with
  | S754_finite s m e => (inject_Z (cond_neg s (Zpos m)) * p2 e)%Q
  | _ => 0
  end.
Definition is_finite (x : spec_float) : Prop :=
  match x with S754_zero _ | S754_finite _ _ _ => True | _ => False end.

(** The digits of a mantissa. *)
Lemma digits2_log2 p : Zpos (digits2_pos p) = Z.log2 (Zpos p) + 1.
Proof.
  induction p as [p IH|p IH|]; cbn [digits2_pos]; [| |done]; rewrite Pos2Z.inj_succ, IH.
  - change (Zpos p~1) with (2 * Zpos p + 1). rewrite Z.log2_succ_double by lia. lia.
  - change (Zpos p~0) with (2 * Zpos p). rewrite Z.log2_double by lia. lia.
Qed.

Lemma digits2_bounds m : 0 < m → 1 <= Zdigits2 m ∧ 2 ^ (Zdigits2 m - 1) <= m < 2 ^ Zdigits2 m.
Proof.
  destruct m as [|p|p]; try lia. intros _. cbn [Zdigits2]. rewrite digits2_log2.
  pose proof (Z.log2_spec (Zpos p) ltac:(lia)). pose proof (Z.log2_nonneg (Zpos p)).
  replace (Z.log2 (Zpos p) + 1 - 1) with (Z.log2 (Zpos p)) by lia. rewrite Z.add_1_r. split; [lia|done].
Qed.

(** * Locations *)

(** [x] lies between the integers [m] and [m + 1], where [l] says. *)
Definition located (m : Z) (l : location) (x : Q) : Prop :=
  let m := inject_Z m in
  match l with
  | loc_Exact => (x == m)%Q
  | loc_Inexact Lt => (m < x ∧ x < m + (1#2))%Q
  | loc_Inexact Eq => (x == m + (1#2))%Q
  | loc_Inexact Gt => (m + (1#2) < x ∧ x < m + 1)%Q
  end.
Definition recorded (r : shr_record) (x : Q) : Prop :=
  0 <= shr_m r ∧ located (shr_m r) (loc_of_shr_record r) x.

#[global] Instance located_proper m l : Proper (Qeq ==> iff) (located m l).
Proof. intros x y E. destruct l as [|[]]; cbn; by rewrite E. Qed.
#[global] Instance recorded_proper r : Proper (Qeq ==> iff) (recorded r).
Proof. intros x y E. unfold recorded. by rewrite E. Qed.

Lemma recorded_of_loc m l x : 0 <= m → located m l x → recorded (shr_record_of_loc m l) x.
Proof. intros Hm. by destruct l as [|[]]. Qed.

Lemma located_bounds m l x : located m l x → (inject_Z m <= x)%Q ∧ (x < inject_Z m + 1)%Q.
Proof. destruct l as [|[]]; cbn; intros H; lra. Qed.

(** A shift to the right halves the number. *)
Lemma recorded_shr_1 r x : recorded r x → recorded (shr_1 r) (x * (1#2)).
Proof.
  destruct r as [m b s]. unfold recorded. cbn [shr_m]. intros [Hm Hl].
  assert (∀ q p : Z, q = 2 * p → (inject_Z q == 2 * inject_Z p)%Q) as Heven
    by (intros q p ->; by rewrite inject_Z_mult).
  assert (∀ q p : Z, q = 2 * p + 1 → (inject_Z q == 2 * inject_Z p + 1)%Q) as Hodd
    by (intros q p ->; by rewrite inject_Z_plus, inject_Z_mult).
  destruct m as [|[p|p|]|p]; [| | | |lia]; cbn [shr_1 shr_m]; (split; [lia|]).
  - pose proof (Heven 0 0 eq_refl). destruct b, s; cbn in *; lra.
  - pose proof (Hodd (Zpos p~1) (Zpos p) ltac:(lia)). destruct b, s; cbn in *; lra.
  - pose proof (Heven (Zpos p~0) (Zpos p) ltac:(lia)). destruct b, s; cbn in *; lra.
  - pose proof (Hodd 1 0 ltac:(lia)). destruct b, s; cbn in *; lra.
Qed.

Lemma recorded_iter p r x : recorded r x → recorded (SpecFloat.iter_pos shr_1 p r) (x * p2 (- Zpos p)).
Proof.
  revert r x. induction p as [p IH|p IH|]; intros r x Hr; cbn [SpecFloat.iter_pos].
  - apply recorded_shr_1, IH, IH in Hr. revert Hr. apply recorded_proper.
    replace (- Zpos p~1) with (- Zpos p + - Zpos p + -1) by lia. rewrite !p2_add.
    change (p2 (-1)) with (1#2)%Q. ring.
  - apply IH, IH in Hr. revert Hr. apply recorded_proper.
    replace (- Zpos p~0) with (- Zpos p + - Zpos p) by lia. rewrite p2_add. ring.
  - apply recorded_shr_1 in Hr. done.
Qed.

Lemma recorded_shr r e n x r' e' :
  recorded r x → shr r e n = (r', e') → e' = Z.max e (e + n) ∧ recorded r' (x * p2 (e - e')).
Proof.
  intros Hr. destruct n as [|p|p]; cbn [shr]; intros [= <- <-]; (split; [lia|]).
  - rewrite Z.sub_diag. change (p2 0) with 1%Q. by rewrite Qmult_1_r.
  - replace (e - (e + Zpos p)) with (- Zpos p) by lia. by apply recorded_iter.
  - rewrite Z.sub_diag. change (p2 0) with 1%Q. by rewrite Qmult_1_r.
Qed.

(** Rounding to an integer, ties to even. *)
Lemma round_nearest m l x : 0 <= m → located m l x →
  m <= round_nearest_even m l <= m + 1 ∧
  (- (1#2) <= inject_Z (round_nearest_even m l) - x <= 1#2)%Q.
Proof.
  intros Hm Hl. assert (inject_Z (m + 1) == inject_Z m + 1)%Q as H1 by by rewrite inject_Z_plus.
  destruct l as [|[]]; cbn in *; try case_if; (split; [lia|lra]).
Qed.

Lemma inject_Z_le a b : (inject_Z a <= inject_Z b)%Q ↔ a <= b.
Proof. by rewrite <- Zle_Qle. Qed.
Lemma inject_Z_lt a b : (inject_Z a < inject_Z b)%Q ↔ a < b.
Proof. by rewrite <- Zlt_Qlt. Qed.

(** * Rounding *)

Section format.
Context (prec emax : Z) (Hprec : 1 < prec) (Hemax : prec < emax).
Abbreviation fexp := (SpecFloat.fexp prec emax).
Abbreviation emin := (SpecFloat.emin prec emax).

Lemma fexp_mono a b : a <= b → fexp a <= fexp b.
Proof. unfold SpecFloat.fexp. lia. Qed.
Lemma fexp_emin a : emin <= fexp a.
Proof. unfold SpecFloat.fexp. lia. Qed.

(** The mantissa uses all the digits the format has for the value. *)
Definition aligned (x : spec_float) : Prop :=
  match x with
  | S754_zero _ => True
  | S754_finite _ m e => e <= fexp (Zdigits2 (Zpos m) + e)
  | _ => False
  end.

(** [r] is the number [x], of absolute value below 2^[b], rounded to a multiple of a unit
    that is at most the one of the numbers below 2^[b]. *)
Definition rounded (b : Z) (x : Q) (r : spec_float) : Prop :=
  aligned r ∧ ∃ e n, e <= fexp b ∧ (value r == inject_Z n * p2 e)%Q ∧
    (- (1#2) * p2 e <= value r - x)%Q ∧ (value r - x <= (1#2) * p2 e)%Q.

(** The second half of the rounding: a mantissa of one digit too many. *)
Definition normalised (s : bool) (n e : Z) : spec_float :=
  let '(r, e) := shr_fexp prec emax n e loc_Exact in
  match shr_m r with
  | Z0 => S754_zero s
  | Zpos m => if e <=? emax - prec then S754_finite s m e else S754_infinity s
  | _ => S754_nan
  end.

Lemma shr_1_even q : 0 <= q → shr_1 (Build_shr_record (2 * q) false false) = Build_shr_record q false false.
Proof. by destruct q. Qed.

Lemma normalised_value s n e :
  0 <= n <= 2 ^ prec → emin <= e → e + 1 <= emax - prec → e = emin ∨ 2 ^ (prec - 1) <= n →
  aligned (normalised s n e) ∧ (value (normalised s n e) == inject_Z (cond_neg s n) * p2 e)%Q.
Proof.
  intros Hn He Hmax Hn2. unfold normalised, shr_fexp. cbn [shr_record_of_loc].
  destruct (decide (n = 2 ^ prec)) as [->|Hne].
  - replace (2 ^ prec) with (2 * 2 ^ (prec - 1)) by (rewrite <- Z.pow_succ_r by lia; f_equal; lia).
    assert (0 < 2 ^ (prec - 1)) as Hq by (apply Z.pow_pos_nonneg; lia).
    set (q := 2 ^ (prec - 1)) in *. destruct (digits2_bounds (2 * q)) as [Hd1 Hd2]; [lia|].
    assert (Zdigits2 (2 * q) = prec + 1) as ->.
    { assert (2 ^ (Zdigits2 (2 * q) - 1) < 2 ^ (prec + 1)) as H1.
      { subst q. replace (prec + 1) with (Z.succ (Z.succ (prec - 1))) by lia. rewrite !Z.pow_succ_r by lia. lia. }
      assert (2 ^ prec < 2 ^ Zdigits2 (2 * q)) as H2.
      { replace prec with (Z.succ (prec - 1)) at 1 by lia. rewrite Z.pow_succ_r by lia. fold q. lia. }
      apply Z.pow_lt_mono_r_iff in H1; [|lia..]. apply Z.pow_lt_mono_r_iff in H2; [|lia..]. lia. }
    replace (fexp (prec + 1 + e) - e) with 1 by (unfold SpecFloat.fexp; lia).
    cbn [shr SpecFloat.iter_pos]. rewrite shr_1_even by lia. cbn [shr_m].
    destruct q as [|m|m] eqn:Eq; [lia| |lia]. decide_if (e + 1 <=? emax - prec) true. split.
    + cbn [aligned Zdigits2]. destruct (digits2_bounds (Zpos m) ltac:(lia)) as [H1 H2].
      assert (2 ^ (prec - 1) < 2 ^ Zdigits2 (Zpos m)) as H3 by (fold q; lia).
      apply Z.pow_lt_mono_r_iff in H3; [|lia..]. cbn [Zdigits2] in H3. unfold SpecFloat.fexp. lia.
    + cbn [value]. rewrite p2_half. destruct s; cbn [cond_neg].
      * replace (- (2 * Zpos m)) with (2 * - Zpos m) by lia. rewrite (inject_Z_mult 2 (- Zpos m)). ring.
      * rewrite (inject_Z_mult 2 (Zpos m)). ring.
  - assert (Zdigits2 n <= prec) as Hd.
    { destruct (decide (n = 0)) as [->|Hn0]; [cbn; lia|]. destruct (digits2_bounds n) as [H1 H2]; [lia|].
      assert (2 ^ (Zdigits2 n - 1) < 2 ^ prec) as H3 by lia. apply Z.pow_lt_mono_r_iff in H3; lia. }
    assert (fexp (Zdigits2 n + e) - e <= 0) as Hle by (unfold SpecFloat.fexp in *; lia).
    assert (shr (Build_shr_record n false false) e (fexp (Zdigits2 n + e) - e) =
      (Build_shr_record n false false, e)) as -> by (destruct (fexp _ - e); [done|lia|done]).
    cbn [shr_m]. destruct n as [|m|m]; [split; [done|by destruct s]| |lia].
    decide_if (e <=? emax - prec) true. split; [|done]. cbn [aligned].
    destruct Hn2 as [->|Hn2]; [apply fexp_emin|]. destruct (digits2_bounds (Zpos m) ltac:(lia)) as [H1 H2].
    assert (2 ^ (prec - 1) < 2 ^ Zdigits2 (Zpos m)) as H3 by lia.
    apply Z.pow_lt_mono_r_iff in H3; [|lia..]. unfold SpecFloat.fexp. lia.
Qed.

Lemma round_aux (s : bool) m e l x b :
  0 <= m → located m l x → e <= fexp (Zdigits2 m + e) → (x * p2 e < p2 b)%Q → fexp b + 1 <= emax - prec →
  rounded b (if s then - (x * p2 e) else x * p2 e)%Q (binary_round_aux prec emax s m e l).
Proof.
  intros Hm Hl He Hx Hb. pose proof (located_bounds m l x Hl) as [Hx1 Hx2]. pose proof (p2_pos e) as Hp.
  set (E := fexp (Zdigits2 m + e)).
  assert (m = 0 ∨ 0 < m ∧ 1 <= Zdigits2 m ∧ 2 ^ (Zdigits2 m - 1) <= m < 2 ^ Zdigits2 m) as Hd.
  { destruct (decide (m = 0)); [by left|right]. split; [lia|]. apply digits2_bounds. lia. }
  assert (E <= fexp b) as HE.
  { destruct Hd as [->|(Hm0 & H1 & H2 & _)].
    - subst E. cbn [Zdigits2] in *. unfold SpecFloat.fexp in *. lia.
    - apply fexp_mono. assert (p2 (Zdigits2 m - 1 + e) < p2 b)%Q as H.
      { rewrite p2_add, p2_Z by lia. rewrite <- inject_Z_le in H2. nra. }
      apply p2_lt_inv in H. lia. }
  assert (x < p2 (Zdigits2 m))%Q as Hxd.
  { rewrite p2_Z by (destruct Hd as [->|(_ & ? & _)]; [done|lia]). assert (m + 1 <= 2 ^ Zdigits2 m) as H
      by (destruct Hd as [->|(_ & _ & _ & ?)]; [done|lia]). rewrite <- inject_Z_le, inject_Z_plus in H. change (inject_Z 1) with 1%Q in H. lra. }
  unfold binary_round_aux, shr_fexp at 1. fold E.
  destruct (shr (shr_record_of_loc m l) e (E - e)) as [r e'] eqn:Hr.
  destruct (recorded_shr _ _ _ x _ _ (recorded_of_loc m l x Hm Hl) Hr) as [-> [Hm' Hl']].
  replace (Z.max e (e + (E - e))) with E in * by lia.
  set (y := (x * p2 (e - E))%Q) in *. set (n := round_nearest_even (shr_m r) (loc_of_shr_record r)).
  destruct (round_nearest _ _ _ Hm' Hl') as [Hn1 Hn2]. fold n in Hn1, Hn2.
  destruct (located_bounds _ _ _ Hl') as [Hy1 Hy2].
  assert (x * p2 e == y * p2 E)%Q as Exy.
  { unfold y. rewrite <- Qmult_assoc, <- p2_add. by replace (e - E + E) with e by lia. }
  assert (E >= Zdigits2 m + e - prec ∧ E >= emin) as HE' by (unfold E, SpecFloat.fexp; lia).
  assert (shr_m r < 2 ^ prec) as Hup.
  { rewrite <- inject_Z_lt, <- p2_Z by lia. apply (Qle_lt_trans _ _ _ Hy1).
    apply (Qlt_le_trans _ (p2 (Zdigits2 m) * p2 (e - E))).
    - unfold y. pose proof (p2_pos (e - E)). nra.
    - rewrite <- p2_add. apply p2_le. lia. }
  assert (E = emin ∨ 2 ^ (prec - 1) <= n) as Hlow.
  { destruct Hd as [->|(Hm0 & H1 & H2 & _)]; [left; unfold E, SpecFloat.fexp in *; cbn in *; lia|].
    destruct (decide (E = emin)) as [|Hne]; [by left|right].
    assert (E = Zdigits2 m + e - prec) as HE2 by (unfold E, SpecFloat.fexp in *; lia).
    assert (p2 (prec - 1) <= y)%Q as Hy.
    { replace (prec - 1) with (Zdigits2 m - 1 + (e - E)) by lia. rewrite p2_add, p2_Z by lia.
      rewrite <- inject_Z_le in H2. unfold y. pose proof (p2_pos (e - E)). nra. }
    rewrite p2_Z in Hy by lia. assert (inject_Z (2 ^ (prec - 1)) < inject_Z (shr_m r + 1))%Q as H
      by (rewrite inject_Z_plus; change (inject_Z 1) with 1%Q; lra). rewrite inject_Z_lt in H. lia. }
  destruct (normalised_value s n E ltac:(lia) ltac:(lia) ltac:(lia) Hlow) as [Hal Hv].
  split; [exact Hal|]. exists E, (cond_neg s n). split; [done|]. split; [exact Hv|].
  change (let '(r, e) := shr_fexp prec emax n E loc_Exact in _) with (normalised s n E). rewrite Hv.
  pose proof (p2_pos E). destruct s; cbn [cond_neg]; rewrite ?inject_Z_opp, Exy; nra.
Qed.
#[local] Instance rounded_proper b : Proper (Qeq ==> eq ==> iff) (rounded b).
Proof.
  intros x y E r ? <-. unfold rounded. split; intros (Ha & e & n & ? & ? & ? & ?);
    (split; [done|]; exists e, n; repeat split; try done; [rewrite <- E in * || rewrite E in *; lra..]).
Qed.

Lemma shl_align_spec m e e' mz ez :
  shl_align m e e' = (mz, ez) → ez = Z.min e e' ∧ Zpos mz = Zpos m * 2 ^ (e - ez).
Proof.
  unfold shl_align. destruct (e' - e) as [|p|p] eqn:E; intros [= <- <-]; (split; [lia|]).
  - by rewrite Z.sub_diag, Z.mul_1_r.
  - by rewrite Z.sub_diag, Z.mul_1_r.
  - replace (e - e') with (Zpos p) by lia. clear E. revert m. 
    induction p as [|p IH] using Pos.peano_ind; intros m; [cbn; lia|].
    rewrite Pos.iter_succ, Pos2Z.inj_succ, Z.pow_succ_r by lia.
    change (Zpos (Pos.iter xO m p)~0) with (2 * Zpos (Pos.iter xO m p)). rewrite IH. lia.
Qed.

(** Rounding the fraction [m] * 2^[e]. *)
Lemma binary_round_ok (s : bool) m e b :
  (inject_Z (Zpos m) * p2 e < p2 b)%Q → fexp b + 1 <= emax - prec →
  rounded b (inject_Z (cond_neg s (Zpos m)) * p2 e) (binary_round prec emax s m e).
Proof.
  intros Hx Hb. unfold binary_round.
  destruct (shl_align m e (fexp (Zpos (digits2_pos m) + e))) as [mz ez] eqn:E.
  apply shl_align_spec in E as [Hez Hmz].
  assert (inject_Z (Zpos mz) * p2 ez == inject_Z (Zpos m) * p2 e)%Q as Hv.
  { rewrite Hmz, inject_Z_mult, <- p2_Z, <- Qmult_assoc, <- p2_add by lia. by replace (e - ez + ez) with e by lia. }
  assert (Zpos (digits2_pos mz) + ez = Zpos (digits2_pos m) + e) as Hd.
  { rewrite !digits2_log2, Hmz, Z.log2_mul_pow2 by lia. lia. }
  assert (rounded b (if s then - (inject_Z (Zpos mz) * p2 ez) else inject_Z (Zpos mz) * p2 ez)%Q
    (binary_round_aux prec emax s (Zpos mz) ez loc_Exact)) as H'.
  { apply round_aux; [lia|by cbn|cbn [Zdigits2]; rewrite Hd; lia|lra|done]. }
  revert H'. apply rounded_proper; [|done]. destruct s; cbn [cond_neg]; rewrite ?inject_Z_opp; lra.
Qed.

Abbreviation below x b := (- p2 b < x ∧ x < p2 b)%Q.

Lemma normalize_ok m e z b :
  below (inject_Z m * p2 e) b → fexp b + 1 <= emax - prec →
  rounded b (inject_Z m * p2 e) (binary_normalize prec emax m e z).
Proof.
  intros [Hl Hu] Hb. pose proof (p2_pos e). destruct m as [|m|m]; cbn [binary_normalize].
  - split; [done|]. exists (fexp b), 0. pose proof (p2_pos (fexp b)). cbn [value].
    change (inject_Z 0) with 0%Q. split; [lia|]. split; [ring|]. split; lra.
  - by apply (binary_round_ok false).
  - apply (binary_round_ok true); [|done]. change (Zneg m) with (- Zpos m) in *.
    rewrite inject_Z_opp in *. lra.
Qed.
(** * The operations *)

(** A number is its own rounding. *)
Lemma rounded_self x b : aligned x → below (value x) b → rounded b (value x) x.
Proof.
  intros Ha [Hl Hu]. split; [done|]. pose proof (p2_pos (fexp b)).
  destruct x as [s| | |s m e]; cbn [aligned] in Ha; try done.
  - exists (fexp b), 0. cbn [value]. change (inject_Z 0) with 0%Q. split; [lia|]. split; [ring|]. split; lra.
  - exists e, (cond_neg s (Zpos m)). pose proof (p2_pos e). split; [|split; [done|split; lra]].
    destruct (digits2_bounds (Zpos m) ltac:(lia)) as (H1 & H2 & _).
    enough (p2 (Zdigits2 (Zpos m) - 1 + e) < p2 b)%Q as H3.
    { apply p2_lt_inv in H3. etrans; [exact Ha|]. apply fexp_mono. lia. }
    rewrite p2_add, p2_Z by lia. rewrite <- inject_Z_le in H2. cbn [value] in Hl, Hu.
    destruct s; cbn [cond_neg] in Hl, Hu; rewrite ?inject_Z_opp in *; nra.
Qed.

Lemma add_ok x y b : aligned x → aligned y → below (value x + value y) b → fexp b + 1 <= emax - prec →
  rounded b (value x + value y) (SFadd prec emax x y).
Proof.
  intros Hx Hy Hb Hm. assert (∀ s, rounded b 0 (S754_zero s)) as Hz.
  { intros s. apply (rounded_self (S754_zero s)); [done|]. pose proof (p2_pos b). cbn [value]. split; lra. }
  destruct x as [sx| | |sx mx ex]; try done; destruct y as [sy| | |sy my ey]; try done.
  - assert (value (S754_zero sx) + value (S754_zero sy) == 0)%Q as -> by (cbn; ring).
    destruct sx, sy; cbn [SFadd]; apply Hz.
  - assert (value (S754_zero sx) + value (S754_finite sy my ey) == value (S754_finite sy my ey))%Q as E
      by (cbn [value]; ring). rewrite E in Hb |- *. by apply rounded_self.
  - assert (value (S754_finite sx mx ex) + value (S754_zero sy) == value (S754_finite sx mx ex))%Q as E
      by (cbn [value]; ring). rewrite E in Hb |- *. by apply rounded_self.
  - cbn [SFadd]. set (ez := Z.min ex ey).
    destruct (shl_align mx ex ez) as [zx e1] eqn:E1. destruct (shl_align my ey ez) as [zy e2] eqn:E2.
    apply shl_align_spec in E1 as [He1 Hzx], E2 as [He2 Hzy].
    assert (e1 = ez ∧ e2 = ez) as [-> ->] by lia. cbn [fst].
    assert (∀ s m z e, Zpos z = Zpos m * 2 ^ (e - ez) → ez <= e →
      (inject_Z (cond_Zopp s (Zpos z)) * p2 ez == value (S754_finite s m e))%Q) as Hal.
    { intros s m z e Hz' Hle. cbn [value]. assert (cond_Zopp s (Zpos z) = cond_neg s (Zpos m) * 2 ^ (e - ez)) as ->
        by (destruct s; cbn [cond_Zopp cond_neg]; lia).
      rewrite inject_Z_mult, <- p2_Z, <- Qmult_assoc, <- p2_add by lia. by replace (e - ez + ez) with e by lia. }
    assert (inject_Z (cond_Zopp sx (Zpos zx) + cond_Zopp sy (Zpos zy)) * p2 ez ==
      value (S754_finite sx mx ex) + value (S754_finite sy my ey))%Q as E.
    { rewrite inject_Z_plus, Qmult_plus_distr_l, (Hal sx mx zx ex), (Hal sy my zy ey) by (done || lia). done. }
    rewrite <- E in Hb |- *. by apply normalize_ok.
Qed.

Lemma sub_opp x y : SFsub prec emax x y = SFadd prec emax x (SFopp y).
Proof.
  destruct x as [[]| [] | |[] mx ex], y as [[]|[]| |[] my ey]; try done; cbn [SFsub SFadd SFopp negb cond_Zopp]; f_equal.
Qed.
Lemma opp_value y : (value (SFopp y) == - value y)%Q.
Proof.
  destruct y as [| | |[] m e]; cbn [SFopp value negb cond_neg]; rewrite ?inject_Z_opp; try ring; done.
Qed.

Lemma sub_ok x y b : aligned x → aligned y → below (value x - value y) b → fexp b + 1 <= emax - prec →
  rounded b (value x - value y) (SFsub prec emax x y).
Proof.
  intros Hx Hy Hb Hm. rewrite sub_opp. assert (value x - value y == value x + value (SFopp y))%Q as E
    by (rewrite opp_value; ring). rewrite E in Hb |- *. apply add_ok; [done| |done|done]. by destruct y.
Qed.

Lemma mul_ok x y b : aligned x → aligned y → below (value x * value y) b → fexp b + 1 <= emax - prec →
  rounded b (value x * value y) (SFmul prec emax x y).
Proof.
  intros Hx Hy Hb Hm. assert (∀ s x y, (value x == 0 \/ value y == 0)%Q → below (value x * value y) b →
    rounded b (value x * value y) (S754_zero s)) as Hz.
  { clear. intros s x y E [H1 H2]. assert (value x * value y == value (S754_zero s))%Q as E'
      by (cbn [value]; destruct E as [-> | ->]; ring). rewrite E' in * |- *. by apply rounded_self. }
  destruct x as [sx| | |sx mx ex]; try done; destruct y as [sy| | |sy my ey]; try done; cbn [SFmul];
    [apply Hz; [by left|done]|apply Hz; [by left|done]|apply Hz; [by right|done]|].
  cbn [aligned Zdigits2] in Hx, Hy. set (m := Zpos (mx * my)). set (s := xorb sx sy).
  assert (value (S754_finite sx mx ex) * value (S754_finite sy my ey) ==
    if s then - (inject_Z m * p2 (ex + ey)) else inject_Z m * p2 (ex + ey))%Q as E.
  { cbn [value]. subst m s. rewrite Pos2Z.inj_mul.
    destruct sx, sy; cbn [cond_neg xorb]; rewrite ?inject_Z_opp, p2_add, inject_Z_mult; ring. }
  eapply rounded_proper; [exact E|done|].
  apply round_aux; [lia|by cbn| |destruct s; lra|done].
  subst m. cbn [Zdigits2]. rewrite digits2_log2, Pos2Z.inj_mul.
  rewrite digits2_log2 in Hx, Hy.
  pose proof (Z.log2_mul_below (Zpos mx) (Zpos my) ltac:(lia) ltac:(lia)).
  unfold SpecFloat.fexp, SpecFloat.emin in *.
  pose proof (Z.log2_nonneg (Zpos mx)). pose proof (Z.log2_nonneg (Zpos my)). lia.
Qed.
(** The remainder [r] of a division by [n] says where the quotient lies. *)
Lemma located_remainder q r n : 0 < n → 0 <= r < n →
  located q (new_location n r) (inject_Z (q * n + r) / inject_Z n).
Proof.
  intros Hn Hr. assert (0 < inject_Z n)%Q as Hn' by (by apply (inject_Z_lt 0)).
  assert (inject_Z (q * n + r) / inject_Z n == inject_Z q + inject_Z r / inject_Z n)%Q as ->.
  { rewrite inject_Z_plus, inject_Z_mult. field. lra. }
  assert (inject_Z r == inject_Z r / inject_Z n * inject_Z n)%Q as Hid by (field; lra).
  set (f := (inject_Z r / inject_Z n)%Q) in *. clearbody f.
  assert (∀ a b : Z, (inject_Z (a * b) == inject_Z a * inject_Z b)%Q) as Hmul by (intros; by rewrite inject_Z_mult).
  unfold new_location, new_location_even, new_location_odd.
  destruct (Z.eqb_spec r 0) as [->|Hr0].
  { change (inject_Z 0) with 0%Q in Hid. assert (f == 0)%Q as E by nra. destruct (Z.even n); cbn; rewrite E; ring. }
  assert (0 < inject_Z r)%Q as Hr1 by (apply (inject_Z_lt 0); lia).
  assert (inject_Z r < inject_Z n)%Q as Hr2 by (apply inject_Z_lt; lia).
  assert (0 < f ∧ f < 1)%Q as [H0 H1] by (split; nra).
  assert (2 * r < n → (f < 1#2)%Q) as H2.
  { intros H. rewrite <- inject_Z_lt, Hmul in H. change (inject_Z 2) with 2%Q in H. nra. }
  assert (n < 2 * r → (1#2 < f)%Q) as H3.
  { intros H. rewrite <- inject_Z_lt, Hmul in H. change (inject_Z 2) with 2%Q in H. nra. }
  assert (2 * r = n → (f == 1#2)%Q) as H4.
  { intros <-. rewrite Hmul in *. change (inject_Z 2) with 2%Q in *. nra. }
  destruct (Z.even n) eqn:Ev.
  - decide_if (r =? 0) false. destruct (Z.compare_spec (2 * r) n); cbn; [specialize (H4 ltac:(lia)); lra|specialize (H2 ltac:(lia)); lra|specialize (H3 ltac:(lia)); lra].
  - assert (2 * r ≠ n) as Hne by (intros <-; by rewrite Z.even_mul in Ev).
    decide_if (r =? 0) false. destruct (Z.compare_spec (2 * r + 1) n); cbn; [specialize (H2 ltac:(lia)); lra|specialize (H2 ltac:(lia)); lra|specialize (H3 ltac:(lia)); lra].
Qed.
Lemma div_ok x y b : aligned x → aligned y → ¬ (value y == 0)%Q → below (value x / value y) b →
  fexp b + 1 <= emax - prec → rounded b (value x / value y) (SFdiv prec emax x y).
Proof.
  intros Hx Hy Hy0 Hb Hm. destruct y as [sy| | |sy my ey]; try done.
  destruct x as [sx| | |sx mx ex]; try done; cbn [SFdiv].
  { assert (value (S754_zero sx) / value (S754_finite sy my ey) == 0)%Q as E by (cbn [value]; unfold Qdiv; ring).
    eapply rounded_proper; [exact E|done|]. apply (rounded_self (S754_zero _)); [done|].
    pose proof (p2_pos b). cbn [value]. split; lra. }
  assert (0 < inject_Z (Zpos my))%Q as Hmy by (by apply (inject_Z_lt 0)).
  unfold SFdiv_core_binary. set (d1 := Zdigits2 (Zpos mx)). set (d2 := Zdigits2 (Zpos my)).
  set (e := Z.min (fexp (d1 + ex - (d2 + ey))) (ex - ey)). set (k := ex - ey - e).
  assert (0 <= k) as Hk by (subst k e; lia).
  assert (match k with Zpos _ => Z.shiftl (Zpos mx) k | Z0 => Zpos mx | Zneg _ => 0 end = Zpos mx * 2 ^ k) as ->.
  { destruct k; [lia|apply Z.shiftl_mul_pow2; lia|lia]. }
  pose proof (Z_div_mod (Zpos mx * 2 ^ k) (Zpos my) ltac:(lia)) as Hqr.
  destruct (Z.div_eucl (Zpos mx * 2 ^ k) (Zpos my)) as [q r]. destruct Hqr as [Hqr Hr].
  assert (0 < Zpos mx * 2 ^ k) as Hpos by (pose proof (Z.pow_pos_nonneg 2 k); lia).
  assert (0 <= q) as Hq by nia.
  set (f := (inject_Z (Zpos mx * 2 ^ k) / inject_Z (Zpos my))%Q).
  assert (located q (new_location (Zpos my) r) f) as Hl.
  { subst f. rewrite Hqr, (Z.mul_comm (Zpos my)). by apply located_remainder. }
  set (s := xorb sx sy).
  assert (value (S754_finite sx mx ex) / value (S754_finite sy my ey) == if s then - (f * p2 e) else f * p2 e)%Q as E.
  { assert (f * p2 e == inject_Z (Zpos mx) / inject_Z (Zpos my) * p2 (ex - ey))%Q as Ef.
    { unfold f. replace (ex - ey) with (k + e) by lia. rewrite inject_Z_mult, p2_add, <- p2_Z by lia. field. lra. }
    assert (p2 ex == p2 (ex - ey) * p2 ey)%Q as E by (rewrite <- p2_add; by replace (ex - ey + ey) with ex by lia).
    pose proof (p2_pos ey). subst s.
    destruct sx, sy; cbn [value cond_neg xorb]; rewrite ?inject_Z_opp, Ef, E; field; split; lra. }
  eapply rounded_proper; [exact E|done|]. apply round_aux; [done|done| |destruct s; lra|done].
  assert (Zpos mx * 2 ^ k < (q + 1) * Zpos my) as Hlt by nia.
  destruct (digits2_bounds (Zpos mx) ltac:(lia)) as (Hd1 & Hm1 & _).
  destruct (digits2_bounds (Zpos my) ltac:(lia)) as (Hd2 & _ & Hm2). fold d1 in Hd1, Hm1. fold d2 in Hd2, Hm2.
  assert (0 <= Zdigits2 q ∧ q + 1 <= 2 ^ Zdigits2 q) as [Hq0 Hq2].
  { destruct (decide (q = 0)) as [->|]; [done|]. destruct (digits2_bounds q); lia. }
  assert (2 ^ (d1 - 1 + k) < 2 ^ (Zdigits2 q + d2)) as H.
  { rewrite !Z.pow_add_r by lia. pose proof (Z.pow_pos_nonneg 2 k). nia. }
  apply Z.pow_lt_mono_r_iff in H; [|lia..].
  apply (Z.le_trans _ (fexp (d1 + ex - (d2 + ey)))); [lia|]. apply fexp_mono. lia.
Qed.

(** What a rounded number is. *)
Lemma rounded_err b x r : rounded b x r →
  (- (1#2) * p2 (fexp b) <= value r - x)%Q ∧ (value r - x <= (1#2) * p2 (fexp b))%Q.
Proof.
  intros (_ & e & n & He & _ & H1 & H2). apply p2_le in He. split; lra.
Qed.

Lemma rounded_exact b x r k : rounded b x r → (x == inject_Z k * p2 (fexp b))%Q → (value r == x)%Q.
Proof.
  intros (_ & e & n & He & Hv & H1 & H2) Hx. pose proof (p2_pos e) as Hp.
  assert (x == inject_Z (k * 2 ^ (fexp b - e)) * p2 e)%Q as Hx'.
  { rewrite Hx, inject_Z_mult, <- p2_Z, <- Qmult_assoc, <- p2_add by lia. by replace (fexp b - e + e) with (fexp b) by lia. }
  set (j := k * 2 ^ (fexp b - e)) in *. rewrite Hv, Hx' in H1, H2 |- *. enough (n = j) as -> by done.
  assert (inject_Z n < inject_Z (j + 1))%Q as Hu by (rewrite inject_Z_plus; change (inject_Z 1) with 1%Q; nra).
  assert (inject_Z j < inject_Z (n + 1))%Q as Hl by (rewrite inject_Z_plus; change (inject_Z 1) with 1%Q; nra).
  rewrite inject_Z_lt in Hu, Hl. lia.
Qed.

(** Integers of at most [prec] digits. *)
Lemma of_Z_ok z : - 2 ^ prec < z < 2 ^ prec → emin <= 0 → prec < emax - 1 →
  let r := binary_normalize prec emax z 0 false in aligned r ∧ (value r == inject_Z z)%Q.
Proof.
  intros Hz He Hmax. assert (fexp prec = 0) as Hf by (unfold SpecFloat.fexp; lia).
  assert (rounded prec (inject_Z z * p2 0) (binary_normalize prec emax z 0 false)) as Hr.
  { apply normalize_ok; [|lia]. rewrite p2_Z by lia. change (p2 0) with 1%Q.
    destruct Hz as [H1 H2]. rewrite <- inject_Z_lt in H1, H2. rewrite inject_Z_opp in H1. split; lra. }
  split; [apply Hr|]. rewrite (rounded_exact _ _ _ z Hr) by by rewrite Hf.
  change (p2 0) with 1%Q. ring.
Qed.

End format.

(** Truncation. *)
Lemma trunc_ok x : is_finite x → ∃ z, trunc x = Ret z ∧ (value x - 1 < inject_Z z)%Q ∧ (inject_Z z < value x + 1)%Q ∧
  ((0 <= value x)%Q → (inject_Z z <= value x)%Q) ∧ ((value x <= 0)%Q → (value x <= inject_Z z)%Q).
Proof.
  destruct x as [s| | |s m e]; try done; intros _; cbn [trunc].
  { exists 0. split; [done|]. cbn [value]. change (inject_Z 0) with 0%Q. repeat split; lra. }
  set (a := if 0 <=? e then Zpos m * 2 ^ e else Zpos m / 2 ^ (- e)).
  assert (inject_Z a <= inject_Z (Zpos m) * p2 e ∧ inject_Z (Zpos m) * p2 e < inject_Z a + 1)%Q as [H1 H2].
  { subst a. destruct (Z.leb_spec 0 e) as [He|He].
    - rewrite inject_Z_mult, p2_Z by done. split; lra.
    - pose proof (Z.pow_pos_nonneg 2 (- e) ltac:(lia) ltac:(lia)) as Hp.
      pose proof (Z.div_mod (Zpos m) (2 ^ (- e)) ltac:(lia)) as Hd.
      pose proof (Z.mod_pos_bound (Zpos m) (2 ^ (- e)) Hp) as Hm.
      set (q := Zpos m / 2 ^ (- e)) in *. set (d := 2 ^ (- e)) in *.
      assert (p2 e * inject_Z d == 1)%Q as Hed.
      { subst d. rewrite <- p2_Z, <- p2_add by lia. by replace (e + - e) with 0 by lia. }
      pose proof (p2_pos e) as Hpe.
      assert (d * q <= Zpos m ∧ Zpos m < d * (q + 1)) as [Ha Hb] by lia.
      rewrite <- inject_Z_le, inject_Z_mult in Ha. rewrite <- inject_Z_lt, inject_Z_mult, inject_Z_plus in Hb.
      change (inject_Z 1) with 1%Q in Hb. 
      assert (p2 e * (inject_Z d * inject_Z q) == inject_Z q)%Q by (rewrite Qmult_assoc, Hed; ring).
      assert (p2 e * (inject_Z d * (inject_Z q + 1)) == inject_Z q + 1)%Q by (rewrite Qmult_assoc, Hed; ring).
      split; nra. }
  eexists. split; [done|]. cbn [value].
  destruct s; cbn [cond_neg]; rewrite ?inject_Z_opp; pose proof (p2_pos e);
    assert (0 < inject_Z (Zpos m))%Q by (by apply (inject_Z_lt 0));
    (split; [lra|split; [lra|split; intros H']]); nra.
Qed.
