(* ===== verification/Gps.v ===== *)
(** GPS receiver: applications/gps.c and gps.h.

    The receive buffer is the array of its bytes, terminator and stale bytes
    included; a pointer is an offset into it, a null pointer is [None], and a read
    outside the array is the fault [OutOfBounds].  The world [gps] holds the global
    [gps_data], the static counter of the RMC handler and the calls the handlers
    make to the LCD and the log, in order. *)

From S2P Require Import Prelude CLib Float32.

(** * Data (gps.h) *)

Record nmea_slmsg : Type := MkSl { num : Z; eledeg : Z; azideg : Z; sn : Z }.
#[export] Instance eta_sl : Eta nmea_slmsg := λ s, MkSl (num s) (eledeg s) (azideg s) (sn s).

Record nmea_utc_time : Type := MkUtc {
  utc_year : Z; utc_month : Z; utc_date : Z; utc_hour : Z; utc_min : Z; utc_sec : Z }.
#[export] Instance eta_utc : Eta nmea_utc_time := λ u,
  MkUtc (utc_year u) (utc_month u) (utc_date u) (utc_hour u) (utc_min u) (utc_sec u).

Record nmea_msg : Type := MkMsg {
  svnum : Z; slmsg : list nmea_slmsg; utc : nmea_utc_time;
  latitude : Z; nshemi : Z; longitude : Z; ewhemi : Z; gpssta : Z; posslnum : Z;
  possl : list Z; fixmode : Z; pdop : Z; hdop : Z; vdop : Z; altitude : Z; speed : Z }.
#[export] Instance eta_msg : Eta nmea_msg := λ g,
  MkMsg (svnum g) (slmsg g) (utc g) (latitude g) (nshemi g) (longitude g) (ewhemi g)
    (gpssta g) (posslnum g) (possl g) (fixmode g) (pdop g) (hdop g) (vdop g)
    (altitude g) (speed g).

(** A zero-initialised [nmea_msg]. *)
Definition nmea_msg_zero : nmea_msg :=
  MkMsg 0 (replicate 12 (MkSl 0 0 0 0)) (MkUtc 0 0 0 0 0 0) 0 0 0 0 0 0
    (replicate 12 0) 0 0 0 0 0 0.

Inductive output : Type :=
  | LcdString (x y width height size : Z) (text : cstr)
  | Log (text : cstr).

Record gps : Type := MkGps { gps_data : nmea_msg; count : Z; out : list output }.
#[export] Instance eta_gps : Eta gps := λ w, MkGps (gps_data w) (count w) (out w).

(** * Memory *)

Definition rd (buf : list Z) (i : nat) : res Z :=
  match buf !! i with Some c => Ret c | None => Fault OutOfBounds end.

(** [strstr(buf + p, pat)]: where the first match starts.  The scan stops at NUL;
    an array without one is read past its end. *)
Fixpoint strstr_from (buf : list Z) (pat : cstr) (i : nat) : res (option nat) :=
  match buf with
  | [] => Fault OutOfBounds
  | c :: buf' =>
      if is_prefix pat buf then Ret (Some i)
      else if c =? NUL then Ret None
      else strstr_from buf' pat (S i)
  end.
Definition strstr_at (buf : list Z) (p : nat) (pat : cstr) : res (option nat) :=
  strstr_from (drop p buf) pat p.

(** * Fields *)

(** [while (cx)]: scan for the [cx]-th comma; [n] is [buf - p]. *)
Fixpoint comma_loop (s : list Z) (cx n : Z) : res Z :=
  if cx =? 0 then Ret (u8 n)
  else match s with
  | [] => Fault OutOfBounds
  | c :: s =>
      if (c =? 42) || (c <? 32) || (122 <? c) then Ret 255
      else comma_loop s (if c =? 44 then cx - 1 else cx) (n + 1)
  end.

Definition NMEA_Comma_Pos (buf : list Z) (p : option nat) (cx : Z) : res Z :=
  match p with
  | Some p => comma_loop (drop p buf) (u8 cx) 0
  | None => if u8 cx =? 0 then Ret 0 else Fault NullDeref
  end.

(** [while (n--) result *= m]. *)
Fixpoint pow_loop (n : nat) (m result : Z) : Z :=
  match n with O => result | S n => pow_loop n m (u32 (result * m)) end.
Definition NMEA_Pow (m n : Z) : Z := pow_loop (Z.to_nat (u8 n)) (u8 m) 1.

(** The first loop of [NMEA_Str2num]: (negative, point seen, ilen, flen).
    [minus] is set after the '-' that an iteration may skip. *)
Fixpoint str2num_len (s : list Z) (minus neg point : bool) (ilen flen : Z) :
    res (bool * Z * Z) :=
  match s with
  | [] => Fault OutOfBounds
  | c :: s =>
      if (c =? 45) && negb minus then str2num_len s true true point ilen flen
      else if (c =? 44) || (c =? 42) then Ret (neg, ilen, flen)
      else if c =? 46 then
        match s with
        | [] => Fault OutOfBounds
        | _ :: s => str2num_len s false neg true ilen (u8 (flen + 1))
        end
      else if (57 <? c) || (c <? 48) then Ret (neg, 0, 0)
      else if point then str2num_len s false neg point ilen (u8 (flen + 1))
      else str2num_len s false neg point (u8 (ilen + 1)) flen
  end.

(** [for (i = 0; i < len; i++) acc += NMEA_Pow(10, len-1-i) * (buf[off+i] - '0')]. *)
Fixpoint digit_sum (buf : list Z) (off : nat) (len : Z) (n : nat) (i acc : Z) : res Z :=
  match n with
  | O => Ret acc
  | S n =>
      c ← rd buf (off + Z.to_nat i);
      digit_sum buf off len n (i + 1) (u32 (acc + NMEA_Pow 10 (len - 1 - i) * (c - 48)))
  end.

(** (value, number of decimals). *)
Definition NMEA_Str2num (buf : list Z) (p : nat) : res (Z * Z) :=
  '(neg, ilen, flen) ← str2num_len (drop p buf) false false false 0 0;
  let p := if neg : bool then S p else p in
  ires ← digit_sum buf p ilen (Z.to_nat ilen) 0 0;
  let flen := if 5 <? flen then 5 else flen in
  fres ← digit_sum buf (p + Z.to_nat ilen + 1) flen (Z.to_nat flen) 0 0;
  let r := i32 (u32 (ires * NMEA_Pow 10 flen + fres)) in
  r ← (if neg : bool then chk32 (- r) else Ret r);
  Ret (r, flen).

(** [posx = NMEA_Comma_Pos(p1, cx); if (posx != 0XFF) ... NMEA_Str2num(p1+posx, &dx)]. *)
Definition field_num (buf : list Z) (p1 : option nat) (cx : Z) : res (option (Z * Z)) :=
  posx ← NMEA_Comma_Pos buf p1 cx;
  if posx =? 255 then Ret None
  else match p1 with
  | Some p => v ← NMEA_Str2num buf (p + Z.to_nat posx); Ret (Some v)
  | None => Fault NullDeref
  end.

(** [posx = NMEA_Comma_Pos(p1, cx); if (posx != 0XFF) ... *(p1+posx)]. *)
Definition field_char (buf : list Z) (p1 : option nat) (cx : Z) : res (option Z) :=
  posx ← NMEA_Comma_Pos buf p1 cx;
  if posx =? 255 then Ret None
  else match p1 with
  | Some p => c ← rd buf (p + Z.to_nat posx); Ret (Some c)
  | None => Fault NullDeref
  end.

(** * Handlers *)

Definition set_data (f : nmea_msg → nmea_msg) : io gps unit :=
  modify (λ w, w <| gps_data := f (gps_data w) |>).
Definition emit (o : output) : io gps unit := modify (λ w, w <| out := out w ++ [o] |>).

(** [if (posx != 0XFF) assign(NMEA_Str2num(...))]. *)
Definition assign_num (buf : list Z) (p1 : option nat) (cx : Z)
    (assign : Z → nmea_msg → nmea_msg) : io gps unit :=
  r ← lift (field_num buf p1 cx);
  match r with Some (v, _) => set_data (assign v) | None => mret tt end.

(** [gpsx->slmsg[slx].member = v]. *)
Definition set_slmsg (slx : Z) (f : nmea_slmsg → nmea_slmsg) : io gps unit := λ w,
  if slx <? Z.of_nat (length (slmsg (gps_data w))) then
    set_data (λ g, g <| slmsg := alter f (Z.to_nat slx) (slmsg g) |>) w
  else Fault OutOfBounds.

(** One member of a satellite; [false] is the [else break]. *)
Definition gsv_member (buf : list Z) (p1 : option nat) (cx slx : Z)
    (set : Z → nmea_slmsg → nmea_slmsg) : io gps bool :=
  r ← lift (field_num buf p1 cx);
  match r with
  | Some (v, _) => set_slmsg slx (set v) ;; mret true
  | None => mret false
  end.

(** [for (j = 0; j < 4; j++)] with its breaks: the new [slx]. *)
Fixpoint gsv_sats (n : nat) (buf : list Z) (p1 : option nat) (j slx : Z) : io gps Z :=
  match n with
  | O => mret slx
  | S n =>
      ok ← gsv_member buf p1 (4 + j * 4) slx (λ v s, s <| num := u8 v |>);
      if negb ok then mret slx else
      ok ← gsv_member buf p1 (5 + j * 4) slx (λ v s, s <| eledeg := u8 v |>);
      if negb ok then mret slx else
      ok ← gsv_member buf p1 (6 + j * 4) slx (λ v s, s <| azideg := u16 v |>);
      if negb ok then mret slx else
      ok ← gsv_member buf p1 (7 + j * 4) slx (λ v s, s <| sn := u8 v |>);
      if negb ok then mret slx else
      gsv_sats n buf p1 (j + 1) (u8 (slx + 1))
  end.

(** [for (i = 0; i < len; i++)]: one GPGSV message after the other. *)
Fixpoint gsv_messages (n : nat) (buf : list Z) (p : nat) (slx : Z) : io gps unit :=
  match n with
  | O => mret tt
  | S n =>
      p1 ← lift (strstr_at buf p (bytes "$GPGSV"));
      slx ← gsv_sats 4 buf p1 0 slx;
      match p1 with
      | Some q => gsv_messages n buf (S q) slx
      | None => io_fault NullDeref
      end
  end.

Definition NMEA_GPGSV_Analysis (buf : list Z) : io gps unit :=
  p1 ← lift (strstr_at buf 0 (bytes "$GPGSV"));
  c ← lift (match p1 with Some q => rd buf (q + 7) | None => Fault NullDeref end);
  let len := u8 (c - 48) in
  assign_num buf p1 3 (λ v g, g <| svnum := u8 v |>) ;;
  gsv_messages (Z.to_nat len) buf 0 0.

Definition NMEA_GNGGA_Analysis (buf : list Z) : io gps unit :=
  p1 ← lift (strstr_at buf 0 (bytes "$GNGGA"));
  assign_num buf p1 6 (λ v g, g <| gpssta := u8 v |>) ;;
  assign_num buf p1 7 (λ v g, g <| posslnum := u8 v |>) ;;
  assign_num buf p1 9 (λ v g, g <| altitude := v |>).

(** [gpsx->possl[i] = v]. *)
Definition set_possl (i : nat) (v : Z) : io gps unit := λ w,
  if (i <? length (possl (gps_data w)))%nat then
    set_data (λ g, g <| possl := <[i := v]> (possl g) |>) w
  else Fault OutOfBounds.

(** [for (i = 0; i < 12; i++)] with its break. *)
Fixpoint gsa_possl (n : nat) (buf : list Z) (p1 : option nat) (i : nat) : io gps unit :=
  match n with
  | O => mret tt
  | S n =>
      r ← lift (field_num buf p1 (3 + Z.of_nat i));
      match r with
      | Some (v, _) =>
          set_possl i (u8 v) ;;
          gsa_possl n buf p1 (S i)
      | None => mret tt
      end
  end.

Definition NMEA_GPGSA_Analysis (buf : list Z) : io gps unit :=
  p1 ← lift (strstr_at buf 0 (bytes "$GPGSA"));
  assign_num buf p1 2 (λ v g, g <| fixmode := u8 v |>) ;;
  gsa_possl 12 buf p1 0 ;;
  assign_num buf p1 15 (λ v g, g <| pdop := u16 v |>) ;;
  assign_num buf p1 16 (λ v g, g <| hdop := u16 v |>) ;;
  assign_num buf p1 17 (λ v g, g <| vdop := u16 v |>).

(** [temp / NMEA_Pow(10, n)] and [temp % NMEA_Pow(10, n)] on uint32. *)
Definition div_pow (temp n : Z) : res Z :=
  let d := NMEA_Pow 10 n in if d =? 0 then Fault DivByZero else Ret (temp / d).
Definition mod_pow (temp n : Z) : res Z :=
  let d := NMEA_Pow 10 n in if d =? 0 then Fault DivByZero else Ret (temp mod d).

(** ddmm.mmmm to degrees * 100000:
    [deg*NMEA_Pow(10,5) + (rs*NMEA_Pow(10,5-dx))/60], in single precision. *)
Definition to_degrees (temp dx : Z) : res Z :=
  deg ← div_pow temp (dx + 2);
  r ← mod_pow temp (dx + 2);
  let rs := f32_of_Z r in
  let minutes := f32_div (f32_mul rs (f32_of_Z (NMEA_Pow 10 (5 - dx)))) (f32_of_Z 60) in
  to_u32 (f32_add (f32_of_Z (u32 (deg * NMEA_Pow 10 5))) minutes).

(** Degrees, minutes and seconds for the display. *)
Definition dms (coord : Z) : res (Z * Z * Z) :=
  let int := i32 (coord / 100000) in
  let x := f32_of_f64 (f64_div (f64_of_Z coord) (f64_of_Z 100000)) in
  let frac := f32_mul (f32_sub x (f32_of_Z int)) (f32_of_Z 60) in
  fen ← to_i32 frac;
  miao ← to_i32 (f32_mul (f32_sub frac (f32_of_Z fen)) (f32_of_Z 60));
  Ret (int, fen, miao).

(** [sprintf] into [char data[50]]; the result is the text in the array. *)
Definition sprintf (text : cstr) : res cstr :=
  if (length text <? 50)%nat then Ret text else Fault OutOfBounds.

(** The text of a coordinate: degrees, a colon, minutes, a backquote, seconds, a double
    quote (34), two blanks, the hemisphere letter and a newline. *)
Definition print_dms (v : Z * Z * Z) (hemi : Z) : cstr :=
  let '(d, m, s) := v in
  print_wd 2 d ++ [58] ++ print_wd 2 m ++ [96] ++ print_wd 2 s ++ [34; 32; 32; hemi; LF].

(** [sprintf(data, "%.2f  km/h\n", (float)gpsx->speed / 1000)]. *)
Definition print_speed (speed : Z) : res cstr :=
  s ← print_f2 (f64_of_f32 (f32_div (f32_of_Z speed) (f32_of_Z 1000)));
  sprintf (s ++ bytes "  km/h" ++ [LF]).

(** The time, date and coordinate blocks of the RMC handler. *)
Definition rmc_time (buf : list Z) (p1 : option nat) : io gps unit :=
  r ← lift (field_num buf p1 1);
  match r with
  | Some (v, dx) =>
      temp ← lift (div_pow (u32 v) dx);
      set_data (λ g, g <| utc := (utc g) <| utc_hour := u8 (temp / 10000) |>
        <| utc_min := u8 ((temp / 100) mod 100) |> <| utc_sec := u8 (temp mod 100) |> |>)
  | None => mret tt
  end.

Definition rmc_date (buf : list Z) (p1 : option nat) : io gps unit :=
  r ← lift (field_num buf p1 9);
  match r with
  | Some (v, _) =>
      let temp := u32 v in
      set_data (λ g, g <| utc := (utc g) <| utc_date := u8 (temp / 10000) |>
        <| utc_month := u8 ((temp / 100) mod 100) |>
        <| utc_year := u16 (2000 + temp mod 100) |> |>)
  | None => mret tt
  end.

(** The display triple is left indeterminate when the field is missing. *)
Definition rmc_latitude (buf : list Z) (p1 : option nat) : io gps (option (Z * Z * Z)) :=
  r ← lift (field_num buf p1 3);
  match r with
  | Some (v, dx) =>
      lat ← lift (to_degrees (u32 v) dx);
      set_data (λ g, g <| latitude := lat |>) ;;
      d ← lift (dms lat);
      ns ← gets (λ w, nshemi (gps_data w));
      t ← lift (sprintf (print_dms d ns));
      emit (LcdString (20 + 88) 120 100 16 16 t) ;;
      mret (Some d)
  | None => mret None
  end.

Definition rmc_longitude (buf : list Z) (p1 : option nat) : io gps (option (Z * Z * Z)) :=
  r ← lift (field_num buf p1 5);
  match r with
  | Some (v, dx) =>
      lon ← lift (to_degrees (u32 v) dx);
      set_data (λ g, g <| longitude := lon |>) ;;
      d ← lift (dms lon);
      ew ← gets (λ w, ewhemi (gps_data w));
      t ← lift (sprintf (print_dms d ew));
      emit (LcdString (20 + 88) 80 100 16 16 t) ;;
      mret (Some d)
  | None => mret None
  end.

Definition assign_char (buf : list Z) (p1 : option nat) (cx : Z)
    (assign : Z → nmea_msg → nmea_msg) : io gps unit :=
  r ← lift (field_char buf p1 cx);
  match r with Some c => set_data (assign c) | None => mret tt end.

(** Reading a local that may be indeterminate. *)
Definition defined {A} (o : option A) : res A :=
  match o with Some a => Ret a | None => Fault Uninitialised end.

(** The log of every 200th call. *)
Definition rmc_log (lon lat : option (Z * Z * Z)) : io gps unit :=
  c ← gets count;
  if 200 <=? c then
    modify (λ w, w <| count := 0 |>) ;;
    d ← lift (defined lon);
    ew ← gets (λ w, ewhemi (gps_data w));
    t ← lift (sprintf (print_dms d ew));
    emit (Log t) ;;
    d ← lift (defined lat);
    ns ← gets (λ w, nshemi (gps_data w));
    t ← lift (sprintf (print_dms d ns));
    emit (Log t) ;;
    sp ← gets (λ w, speed (gps_data w));
    s ← lift (print_speed sp);
    emit (Log s)
  else mret tt.

Definition NMEA_GNRMC_Analysis (buf : list Z) : io gps unit :=
  modify (λ w, w <| count := u16 (count w + 1) |>) ;;
  p1 ← lift (strstr_at buf 0 (bytes "GNRMC"));
  rmc_time buf p1 ;;
  assign_char buf p1 4 (λ c g, g <| nshemi := c |>) ;;
  lat ← rmc_latitude buf p1;
  assign_char buf p1 6 (λ c g, g <| ewhemi := c |>) ;;
  lon ← rmc_longitude buf p1;
  rmc_date buf p1 ;;
  rmc_log lon lat.

Definition NMEA_GNVTG_Analysis (buf : list Z) : io gps unit :=
  p1 ← lift (strstr_at buf 0 (bytes "$GNVTG"));
  r ← lift (field_num buf p1 7);
  match r with
  | Some (v, dx) =>
      set_data (λ g, g <| speed := u16 v |>) ;;
      (if dx <? 3 then
         set_data (λ g, g <| speed := u16 (speed g * NMEA_Pow 10 (3 - dx)) |>)
       else mret tt) ;;
      sp ← gets (λ w, speed (gps_data w));
      s ← lift (print_speed sp);
      emit (LcdString (20 + 8 * 10) 160 100 16 16 s)
  | None => mret tt
  end.

(** [if (strstr(buf, pat)) handler(gpsx, buf)]. *)
Definition dispatch (buf : list Z) (pat : string) (handler : list Z → io gps unit) :
    io gps unit :=
  found ← lift (strstr_at buf 0 (bytes pat));
  match found with Some _ => handler buf | None => mret tt end.

Definition GPS_Analysis (buf : list Z) : io gps unit :=
  dispatch buf "$GPGSV" NMEA_GPGSV_Analysis ;;
  dispatch buf "$GNGGA" NMEA_GNGGA_Analysis ;;
  dispatch buf "$GPGSA" NMEA_GPGSA_Analysis ;;
  dispatch buf "GNRMC" NMEA_GNRMC_Analysis ;;
  dispatch buf "$GNVTG" NMEA_GNVTG_Analysis.

(** * Reading lines from the UART *)

Definition GPS_DEVICE_RECV_BUFF_LEN : Z := 512.

(** [uart_getchar] blocks until the UART delivers a byte; [rx] is what it is going
    to deliver.  [buff[count]] is an index into the caller's array. *)
Definition uart_getchar (rx : list Z) : res (Z * list Z) :=
  match rx with c :: rx => Ret (c, rx) | [] => Fault Blocked end.

Definition store (buff : list Z) (i c : Z) : res (list Z) :=
  if i <? Z.of_nat (length buff) then Ret (<[Z.to_nat i := c]> buff) else Fault OutOfBounds.

(** The [do ... while] of [data_read]; every iteration consumes a byte. *)
Fixpoint data_read_loop (rx : list Z) (buff : list Z) (len count : Z) :
    res (list Z * Z * list Z) :=
  match rx with
  | [] => Fault Blocked
  | c :: rx =>
      buff ← store buff count c;
      let count := u8 (count + 1) in
      if negb (c =? LF) && (count <=? len) then data_read_loop rx buff len count
      else Ret (buff, count, rx)
  end.

(** (buffer, bytes not yet delivered). *)
Definition data_read (rx : list Z) (buff : list Z) (len : Z) : res (list Z * list Z) :=
  '(buff, count, rx) ← data_read_loop rx buff len 0;
  buff ← store buff count 0;
  Ret (buff, rx).

(** [n] iterations of the thread's [while (1)]. *)
Fixpoint gps_thread_entry (n : nat) (line rx : list Z) : io gps (list Z * list Z) :=
  match n with
  | O => mret (line, rx)
  | S n =>
      '(line, rx) ← lift (data_read rx line GPS_DEVICE_RECV_BUFF_LEN);
      GPS_Analysis line ;;
      gps_thread_entry n line rx
  end.
