(* ===== verification/GpsSpec.v ===== *)
(** Properties of the GPS receiver (Gps.v): number fields, comma positions, the line
    reader, the speed and time handlers, and when the handlers are free of faults. *)

From S2P Require Import Prelude CLib Float32 Gps.

(** * Shared lemmas *)

Lemma pow_loop_spec n m r :
  0 <= m → 0 <= r < 4294967296 → pow_loop n m r = u32 (r * m ^ Z.of_nat n).
Proof.
  intros Hm. revert r. induction n as [|n IH]; intros r Hr; cbn [pow_loop].
  - change (Z.of_nat 0) with 0. rewrite Z.pow_0_r, Z.mul_1_r. by rewrite u32_small.
  - rewrite IH by (unfold u32; dlia). rewrite Nat2Z.inj_succ, Z.pow_succ_r by lia.
    unfold u32. rewrite Zmult_mod_idemp_l. f_equal. ring.
Qed.

Lemma NMEA_Pow_spec n : 0 <= n < 256 → NMEA_Pow 10 n = u32 (10 ^ n).
Proof.
  intros Hn. unfold NMEA_Pow. rewrite (u8_small n), (u8_small 10) by done.
  rewrite pow_loop_spec by lia. by rewrite Z.mul_1_l, Z2Nat.id by lia.
Qed.

Lemma dec_cons c ds : dec (c :: ds) = (c - 48) * 10 ^ Z.of_nat (length ds) + dec ds.
Proof.
  change (c :: ds) with ([c] ++ ds). rewrite dec_app. f_equal.
Qed.

Lemma u32_add_l a b : u32 (u32 a + b) = u32 (a + b).
Proof. apply Zplus_mod_idemp_l. Qed.
Lemma u32_mul_l a b : u32 (u32 a * b) = u32 (a * b).
Proof. apply Zmult_mod_idemp_l. Qed.
Lemma u32_mul_add a b c : u32 (u32 a * u32 b + u32 c) = u32 (a * b + c).
Proof.
  unfold u32. rewrite Zplus_mod_idemp_r, <- Zplus_mod_idemp_l, <- Zmult_mod.
  apply Zplus_mod_idemp_l.
Qed.

(** The summation loop adds up the number its characters denote, modulo 2^32. *)
Lemma digit_sum_spec buf off len ds : ∀ i acc,
  (∀ k c, ds !! k = Some c → buf !! (off + i + k)%nat = Some c) →
  len = Z.of_nat i + Z.of_nat (length ds) → len <= 255 →
  0 <= acc < 4294967296 →
  digit_sum buf off len (length ds) (Z.of_nat i) acc = Ret (u32 (acc + dec ds)).
Proof.
  induction ds as [|c ds IH]; intros i acc Hl Hlen Hb Hacc; cbn [length digit_sum].
  - change (dec []) with 0. by rewrite Z.add_0_r, u32_small.
  - cbn [length] in Hlen.
    assert (rd buf (off + Z.to_nat (Z.of_nat i)) = Ret c) as ->.
    { unfold rd. rewrite Nat2Z.id. specialize (Hl 0%nat c eq_refl).
      rewrite Nat.add_0_r in Hl. by rewrite Hl. }
    rewrite res_bind_ret, NMEA_Pow_spec by lia.
    replace (Z.of_nat i + 1) with (Z.of_nat (S i)) by lia.
    rewrite IH; [| |lia|lia|unfold u32; dlia].
    + rewrite dec_cons. rewrite u32_add_l. f_equal. unfold u32.
      replace (len - 1 - Z.of_nat i) with (Z.of_nat (length ds)) by lia.
      rewrite <- (Zplus_mod_idemp_l (acc + _)), <- (Zplus_mod_idemp_r _ acc),
        Zmult_mod_idemp_l, Zplus_mod_idemp_r, Zplus_mod_idemp_l. f_equal. ring.
    + intros k d Hk. rewrite <- (Hl (S k) d Hk). f_equal. lia.
Qed.

Lemma digit_sum_at buf off ds tail :
  drop off buf = ds ++ tail → (length ds <= 255)%nat →
  digit_sum buf off (Z.of_nat (length ds)) (length ds) 0 0 = Ret (u32 (dec ds)).
Proof.
  intros Hd Hl. apply (digit_sum_spec buf off _ ds 0 0); [|lia..].
  intros k c Hk. rewrite Nat.add_0_r, <- lookup_drop, Hd.
  by apply lookup_app_l_Some.
Qed.

(** * Number fields *)

Definition all_digits (ds : cstr) : Prop := Forall (λ c, isdigit c = true) ds.

Definition is_end (t : Z) : Prop := t = 44 ∨ t = 42.

(** A decimal field as the receiver prints it. *)
Definition num_text (neg : bool) (ip fp : cstr) : cstr :=
  (if neg then [45] else []) ++ ip ++ (match fp with [] => [] | _ => 46 :: fp end).

(** The value with [k] decimals kept, as an integer. *)
Definition num_value (neg : bool) (ip fp : cstr) (k : nat) : Z :=
  let v := dec ip * 10 ^ Z.of_nat k + dec (take k fp) in if neg then - v else v.

Lemma u8_succ a n : u8 (u8 (a + 1) + n) = u8 (a + Z.succ n).
Proof. unfold u8. rewrite Zplus_mod_idemp_l. f_equal. lia. Qed.

Lemma len_digits ds s neg pt il fl :
  all_digits ds → is_byte il → is_byte fl →
  str2num_len (ds ++ s) false neg pt il fl =
  str2num_len s false neg pt
    (if pt then il else u8 (il + Z.of_nat (length ds)))
    (if pt then u8 (fl + Z.of_nat (length ds)) else fl).
Proof.
  intros Hd. revert il fl. induction Hd as [|c ds Hc _ IH]; intros il fl Hi Hf.
  - cbn [app length]. change (Z.of_nat 0) with 0. rewrite !Z.add_0_r, !u8_small by done.
    by destruct pt.
  - unfold isdigit in Hc. bool_prop. cbn [app str2num_len].
    decide_if (c =? 45) false. decide_if (c =? 44) false. decide_if (c =? 42) false.
    decide_if (c =? 46) false. decide_if (57 <? c) false. decide_if (c <? 48) false.
    cbn [andb orb]. rewrite !IH by auto with ints.
    cbn [length]. rewrite !Nat2Z.inj_succ. destruct pt; by rewrite u8_succ.
Qed.

Lemma len_end t s neg pt il fl :
  is_end t → str2num_len (t :: s) false neg pt il fl = Ret (neg, il, fl).
Proof. intros [-> | ->]; done. Qed.

(** After the point the first character is counted without being looked at. *)
Lemma len_point c s neg pt il fl :
  str2num_len (46 :: c :: s) false neg pt il fl =
  str2num_len s false neg true il (u8 (fl + 1)).
Proof. done. Qed.

Lemma len_minus s :
  s ≠ [] → head s ≠ Some 45 →
  str2num_len (45 :: s) false false false 0 0 = str2num_len s false true false 0 0.
Proof.
  destruct s as [|c s]; [done|]. intros _ Hc. cbn [str2num_len].
  change (45 =? 45) with true. cbn [andb negb].
  assert ((c =? 45) = false) as -> by (apply Z.eqb_neq; intros ->; by apply Hc). done.
Qed.

(** The lengths the first loop finds in a well-formed field. *)
Lemma len_field neg ip fp t post :
  all_digits ip → all_digits fp → is_end t →
  (length ip <= 255)%nat → (length fp <= 255)%nat →
  str2num_len (num_text neg ip fp ++ t :: post) false false false 0 0 =
  Ret (neg, Z.of_nat (length ip), Z.of_nat (length fp)).
Proof.
  intros Hi Hf Ht Li Lf.
  assert (∀ s neg, str2num_len (ip ++ match fp with [] => [] | _ => 46 :: fp end ++ t :: s)
    false neg false 0 0 = Ret (neg, Z.of_nat (length ip), Z.of_nat (length fp))) as Hbody.
  { intros s neg'. rewrite len_digits by done.
    rewrite Z.add_0_l, (u8_small (Z.of_nat _)) by (unfold is_byte; lia).
    destruct Hf as [|c fp Hc Hf]; [by apply len_end|].
    cbn [app]. rewrite len_point, len_digits, len_end by (done || auto with ints || (unfold is_byte; lia)).
    cbn [length] in *. rewrite Z.add_0_l, u8_small by (unfold is_byte, u8; dlia).
    do 3 f_equal. unfold u8. dlia. }
  unfold num_text. rewrite <- !app_assoc. destruct neg; [|apply Hbody].
  cbn [app]. rewrite len_minus; [apply Hbody|..].
  - intros H. apply (f_equal length) in H. rewrite !length_app in H. cbn in H. lia.
  - destruct Hi as [|c ip Hc _]; cbn.
    + destruct fp; [|done]. by destruct Ht as [-> | ->].
    + intros [= ->]. done.
Qed.

Lemma drop_at {A} (buf w s : list A) p n :
  drop p buf = w ++ s → length w = n → drop (p + n) buf = s.
Proof.
  intros H <-. rewrite <- drop_drop, H. apply drop_app_length.
Qed.

Lemma num_value_bound ip fp k :
  all_digits ip → all_digits fp → 0 <= num_value false ip fp k.
Proof.
  intros Hi Hf. unfold num_value.
  pose proof (dec_bounds ip Hi). pose proof (dec_bounds (take k fp) (Forall_take _ k _ Hf)).
  pose proof (Z.pow_nonneg 10 (Z.of_nat k)). nia.
Qed.

Lemma str2num_field buf p neg ip fp t post :
  let k := Nat.min 5 (length fp) in
  drop p buf = num_text neg ip fp ++ t :: post →
  all_digits ip → all_digits fp → is_end t →
  (length ip <= 255)%nat → (length fp <= 255)%nat →
  num_value false ip fp k <= INT32_MAX →
  NMEA_Str2num buf p = Ret (num_value neg ip fp k, Z.of_nat k).
Proof.
  intros k Hd Hi Hf Ht Li Lf Hmax. unfold NMEA_Str2num.
  rewrite Hd, len_field by done. rewrite res_bind_ret. cbn beta iota.
  set (p' := if neg then S p else p).
  assert (drop p' buf = ip ++ (match fp with [] => [] | _ => 46 :: fp end) ++ t :: post) as Hd'.
  { unfold num_text in Hd. rewrite <- !app_assoc in Hd. subst p'. destruct neg; [|done].
    replace (S p) with (p + 1)%nat by lia. by apply (drop_at _ [45]). }
  rewrite Nat2Z.id, (digit_sum_at _ _ ip _ Hd') by done. rewrite res_bind_ret.
  assert ((if 5 <? Z.of_nat (length fp) then 5 else Z.of_nat (length fp)) = Z.of_nat k) as ->.
  { subst k. case_if; lia. }
  rewrite !Nat2Z.id.
  assert (digit_sum buf (p' + length ip + 1) (Z.of_nat k) k 0 0 = Ret (u32 (dec (take k fp)))) as ->.
  { destruct fp as [|c fp]; [done|].
    assert (k = length (take k (c :: fp))) as Hk by (rewrite length_take; subst k; lia).
    rewrite Hk at 1 2.
    apply (digit_sum_at _ _ _ (drop k (c :: fp) ++ t :: post)); [|rewrite <- Hk; subst k; lia].
    rewrite app_assoc, take_drop. replace (p' + length ip + 1)%nat with (p' + S (length ip))%nat by lia.
    apply (drop_at _ (ip ++ [46])); [|rewrite length_app; cbn; lia].
    rewrite Hd', <- app_assoc. done. }
  rewrite res_bind_ret, NMEA_Pow_spec, u32_mul_add by lia.
  change (dec ip * 10 ^ Z.of_nat k + dec (take k fp)) with (num_value false ip fp k).
  pose proof (num_value_bound ip fp k Hi Hf).
  unfold INT32_MAX in Hmax.
  rewrite u32_small, i32_small by (unfold INT32_MIN, INT32_MAX; lia).
  destruct neg; [|done]. rewrite chk32_ok by (unfold INT32_MIN, INT32_MAX; lia). done.
Qed.

(** * Comma positions *)

(** A character [NMEA_Comma_Pos] passes over, and one it stops at. *)
Definition stop_char (c : Z) : bool := (c =? 42) || (c <? 32) || (122 <? c).
Definition plain (c : Z) : bool := negb (stop_char c) && negb (c =? 44).

(** Fields, each with the comma that ends it. *)
Definition fields (fs : list cstr) : cstr := concat ((λ f, f ++ [44]) <$> fs).

Lemma fields_cons f fs : fields (f :: fs) = f ++ 44 :: fields fs.
Proof. unfold fields. cbn. by rewrite <- app_assoc. Qed.

Lemma comma_loop_plain f s cx n :
  Forall (λ c, plain c = true) f → cx ≠ 0 →
  comma_loop (f ++ s) cx n = comma_loop s cx (n + Z.of_nat (length f)).
Proof.
  intros Hf Hc. revert n. induction Hf as [|c f Hp _ IH]; intros n.
  - cbn [app length]. by rewrite Z.add_0_r.
  - unfold plain, stop_char in Hp. bool_prop. cbn [app comma_loop].
    decide_if (cx =? 0) false. decide_if (c =? 42) false. decide_if (c <? 32) false.
    decide_if (122 <? c) false. decide_if (c =? 44) false. cbn [orb].
    rewrite IH. f_equal. cbn [length]. lia.
Qed.

(** Found: the offset just after the [cx]-th comma. *)
Lemma comma_loop_fields fs s cx n :
  Forall (Forall (λ c, plain c = true)) fs → Z.of_nat (length fs) <= cx →
  comma_loop (fields fs ++ s) cx n =
  comma_loop s (cx - Z.of_nat (length fs)) (n + Z.of_nat (length (fields fs))).
Proof.
  intros Hf. revert cx n. induction Hf as [|f fs Hp _ IH]; intros cx n Hc.
  - cbn. f_equal; lia.
  - cbn [length] in Hc. rewrite fields_cons, <- app_assoc.
    rewrite comma_loop_plain by (done || lia). cbn [app comma_loop].
    decide_if (cx =? 0) false. change ((44 =? 42) || (44 <? 32) || (122 <? 44)) with false.
    change (44 =? 44) with true. cbn iota. rewrite IH by lia. rewrite length_app. cbn [length]. f_equal; lia.
Qed.

Lemma comma_pos_found buf p fs s :
  Forall (Forall (λ c, plain c = true)) fs →
  drop p buf = fields fs ++ s → (length fs < 256)%nat →
  NMEA_Comma_Pos buf (Some p) (Z.of_nat (length fs)) = Ret (u8 (Z.of_nat (length (fields fs)))).
Proof.
  intros Hf Hd Hl. unfold NMEA_Comma_Pos. rewrite u8_small by (unfold is_byte; lia).
  rewrite Hd, comma_loop_fields by (done || lia). rewrite Z.sub_diag. by destruct s.
Qed.

Lemma comma_pos_missing buf p fs f c s cx :
  Forall (Forall (λ c, plain c = true)) fs → Forall (λ c, plain c = true) f →
  stop_char c = true →
  drop p buf = fields fs ++ f ++ c :: s → Z.of_nat (length fs) < cx < 256 →
  NMEA_Comma_Pos buf (Some p) cx = Ret 255.
Proof.
  intros Hf Hp Hc Hd Hl. unfold NMEA_Comma_Pos. rewrite u8_small by (unfold is_byte; lia).
  rewrite Hd, comma_loop_fields, comma_loop_plain by (done || lia). cbn [comma_loop].
  decide_if (cx - Z.of_nat (length fs) =? 0) false. unfold stop_char in Hc. by rewrite Hc.
Qed.

(** A field read through its comma position. *)
Lemma field_num_spec buf p fs neg ip fp t post :
  let k := Nat.min 5 (length fp) in
  Forall (Forall (λ c, plain c = true)) fs →
  (length fs < 256)%nat → (length (fields fs) < 255)%nat →
  drop p buf = fields fs ++ num_text neg ip fp ++ t :: post →
  all_digits ip → all_digits fp → is_end t →
  (length ip <= 255)%nat → (length fp <= 255)%nat →
  num_value false ip fp k <= INT32_MAX →
  field_num buf (Some p) (Z.of_nat (length fs)) =
  Ret (Some (num_value neg ip fp k, Z.of_nat k)).
Proof.
  intros k Hfs Hn Hl Hd **. unfold field_num.
  rewrite (comma_pos_found _ _ fs _ Hfs Hd) by done. rewrite res_bind_ret, u8_small by (unfold is_byte; lia).
  decide_if (Z.of_nat (length (fields fs)) =? 255) false. rewrite Nat2Z.id.
  erewrite str2num_field; eauto using drop_at.
Qed.

(** * Reading a line *)

(** After [w] has been received: the cursor is 8 bits wide, so only the part of [w]
    since the last multiple of 256 is at the start of the buffer. *)
Record received (old w buff : list Z) : Prop := {
  rc_length : length buff = length old;
  rc_head : take (length w mod 256) buff = drop (256 * (length w / 256)) w;
  rc_tail : drop 256 buff = drop 256 old }.

Lemma received_store old w buff c :
  (256 <= length old)%nat → received old w buff →
  received old (w ++ [c]) (<[(length w mod 256)%nat := c]> buff).
Proof.
  intros Ho [Hl Hh Ht].
  assert (length w mod 256 < 256)%nat as Hm by (apply Nat.mod_upper_bound; lia).
  pose proof (Nat.div_mod_eq (length w) 256) as Hdm.
  set (n := length w) in *. set (q := (n / 256)%nat) in *. set (r := (n mod 256)%nat) in *.
  split.
  - by rewrite length_insert.
  - rewrite length_app. fold n. cbn [length]. destruct (decide (r = 255%nat)) as [E|E].
    + replace (n + 1)%nat with (256 * (q + 1))%nat by lia.
      rewrite (Nat.mul_comm 256), Nat.Div0.mod_mul, Nat.div_mul by lia. cbn [take].
      rewrite drop_ge; [done|]. rewrite length_app. fold n. cbn [length]. lia.
    + replace ((n + 1) mod 256)%nat with (S r)
        by (apply (Nat.mod_unique _ _ q); lia).
      replace ((n + 1) / 256)%nat with q by (apply (Nat.div_unique _ _ _ (S r)); lia).
      rewrite (take_S_r _ r c) by (apply list_lookup_insert_eq; lia).
      rewrite take_insert_ge, Hh by lia. rewrite drop_app_le by (fold n; lia). done.
  - rewrite drop_insert_lt by lia. done.
Qed.

Lemma u8_of_nat n : u8 (Z.of_nat n) = Z.of_nat (n mod 256).
Proof. unfold u8. by rewrite Nat2Z.inj_mod. Qed.

Lemma store_at buff n c :
  (256 <= length buff)%nat →
  store buff (u8 (Z.of_nat n)) c = Ret (<[(n mod 256)%nat := c]> buff).
Proof.
  intros H. rewrite u8_of_nat. unfold store.
  pose proof (Nat.mod_upper_bound n 256).
  decide_if (Z.of_nat (n mod 256) <? Z.of_nat (length buff)) true. by rewrite Nat2Z.id.
Qed.

Lemma data_read_loop_spec old l : ∀ w buff rest,
  (256 <= length old)%nat → LF ∉ l → received old w buff →
  ∃ buff', data_read_loop (l ++ LF :: rest) buff 512 (u8 (Z.of_nat (length w))) =
             Ret (buff', u8 (Z.of_nat (length (w ++ l ++ [LF]))), rest) ∧
           received old (w ++ l ++ [LF]) buff'.
Proof.
  induction l as [|c l IH]; intros w buff rest Ho Hl Hr; cbn [app data_read_loop];
    rewrite store_at by (rewrite (rc_length _ _ _ Hr); lia); rewrite res_bind_ret.
  - eexists. split; [|by apply received_store]. rewrite length_app. cbn [length]. cbn [Z.eqb LF negb andb].
    do 3 f_equal. unfold u8. dlia.
  - pose proof (received_store _ _ _ c Ho Hr) as Hs.
    apply not_elem_of_cons in Hl as [Hc Hl].
    destruct (IH (w ++ [c]) _ rest Ho Hl Hs) as (buff' & Hb & Hr').
    exists buff'. rewrite <- !app_assoc in Hb, Hr'. split; [|done]. cbn [app] in Hb.
    rewrite <- Hb, length_app. cbn [length].
    assert (u8 (u8 (Z.of_nat (length w)) + 1) = u8 (Z.of_nat (length w + 1))) as ->
      by (unfold u8; dlia).
    assert ((c =? LF) = false) as -> by (apply Z.eqb_neq; congruence).
    pose proof (u8_byte (Z.of_nat (length w + 1))) as Hb8. unfold is_byte in Hb8.
    decide_if (u8 (Z.of_nat (length w + 1)) <=? 512) true. done.
Qed.

(** * Memory safety of the handlers *)

(** Faults other than an access outside the buffer, through a null pointer, or a
    division by zero. *)
Definition benign (f : fault) : Prop :=
  f ≠ OutOfBounds ∧ f ≠ NullDeref ∧ f ≠ DivByZero.

(** Every point is followed by a character of the line. *)
Fixpoint dots_ok (s : cstr) : bool :=
  match s with
  | [] => true
  | c :: s => (negb (c =? 46) || match s with [] => false | _ => true end) && dots_ok s
  end.

(** A buffer that holds the line [s]: a terminator and at least one byte follow. *)
Definition holds_line (buf : list Z) (s : cstr) : Prop :=
  dots_ok s = true ∧ ∃ c post, buf = s ++ NUL :: c :: post.

Lemma dots_ok_drop s n : dots_ok s = true → dots_ok (drop n s) = true.
Proof.
  revert n. induction s as [|c s IH]; intros [|n]; try done.
  cbn [dots_ok drop]. intros H. bool_prop. eauto.
Qed.

(** The scan for the end of a number stays inside the line, and so do the lengths. *)
Lemma str2num_len_safe n : ∀ s post minus neg point ilen flen,
  (length s <= n)%nat → dots_ok s = true → is_byte ilen → is_byte flen →
  ∃ neg' ilen' flen',
    str2num_len (s ++ NUL :: post) minus neg point ilen flen = Ret (neg', ilen', flen') ∧
    is_byte ilen' ∧ is_byte flen' ∧
    ilen' + flen' + Z.b2z neg' <= ilen + flen + Z.b2z neg + Z.of_nat (length s).
Proof.
  assert (∀ z, is_byte z → is_byte (u8 (z + 1)) ∧ u8 (z + 1) <= z + 1) as Hu
    by (unfold is_byte, u8; intros; dlia).
  induction n as [|n IH]; intros [|c s] post minus neg point ilen flen Hn Hd Hi Hf;
    cbn [length] in Hn; try lia.
  1, 2: exists neg, 0, 0; split; [done|]; unfold is_byte in *; cbn [length]; lia.
  assert (dots_ok s = true) as Hd' by (cbn in Hd; by bool_prop).
  cbn [app str2num_len length].
  destruct (Hu ilen Hi) as [Hi1 Hi2]. destruct (Hu flen Hf) as [Hf1 Hf2].
  case_if; [|case_if; [|case_if; [|case_if; [|case_if]]]].
  - edestruct (IH s post true true point ilen flen) as (? & ? & ? & -> & ? & ? & ?);
      [lia|done..|]. do 3 eexists. split; [done|]. split; [done|split; [done|]].
    destruct neg; cbn [Z.b2z] in *; lia.
  - do 3 eexists. split; [done|]. split; [done|split; [done|]]. lia.
  - destruct s as [|d s]; [cbn in Hd; subst; done|]. cbn [app length] in *.
    assert (dots_ok s = true) as Hd'' by (cbn in Hd'; by bool_prop).
    edestruct (IH s post false neg true ilen (u8 (flen + 1))) as (? & ? & ? & -> & ? & ? & ?);
      [lia|done..|]. do 3 eexists. split; [done|]. split; [done|split; [done|]]. lia.
  - do 3 eexists. split; [done|]. unfold is_byte in *. lia.
  - edestruct (IH s post false neg true ilen (u8 (flen + 1))) as (? & ? & ? & -> & ? & ? & ?);
      [lia|done..|]. do 3 eexists. split; [done|]. split; [done|split; [done|]]. lia.
  - edestruct (IH s post false neg false (u8 (ilen + 1)) flen) as (? & ? & ? & -> & ? & ? & ?);
      [lia|done..|]. do 3 eexists. split; [done|]. split; [done|split; [done|]]. lia.
Qed.

Lemma digit_sum_safe buf off len :
  is_byte len → Z.of_nat off + len <= Z.of_nat (length buf) →
  ∃ v, digit_sum buf off len (Z.to_nat len) 0 0 = Ret v.
Proof.
  intros Hl Hb. unfold is_byte in Hl.
  set (ds := take (Z.to_nat len) (drop off buf)).
  assert (length ds = Z.to_nat len) as Hds by (subst ds; rewrite length_take, length_drop; lia).
  exists (u32 (dec ds)). rewrite <- Hds at 1. rewrite <- (Z2Nat.id len) at 1 by lia.
  rewrite <- Hds at 1.
  apply (digit_sum_at _ _ ds (drop (Z.to_nat len) (drop off buf))); [|lia].
  symmetry. apply take_drop.
Qed.

Section buffer.
Context (buf : list Z) (s : cstr) (Hline : holds_line buf s).

Lemma line_length : (length s + 2 <= length buf)%nat.
Proof. destruct Hline as [_ (c & post & ->)]. rewrite length_app. cbn. lia. Qed.

Lemma drop_line p : (p <= length s)%nat → ∃ post, drop p buf = drop p s ++ NUL :: post.
Proof.
  intros Hp. destruct Hline as [_ (c & post & ->)]. exists (c :: post).
  by rewrite drop_app_le.
Qed.

Lemma rd_line p : (p < length buf)%nat → ∃ c, rd buf p = Ret c.
Proof.
  intros Hp. unfold rd. destruct (lookup_lt_is_Some_2 buf p Hp) as [c ->]. eauto.
Qed.

Lemma Str2num_safe p :
  (p <= length s)%nat →
  may_fault benign (λ '(_, dx), 0 <= dx <= 5) (NMEA_Str2num buf p).
Proof.
  intros Hp. destruct (drop_line p Hp) as [post Hd]. pose proof line_length as Hlen.
  destruct (str2num_len_safe (length s) (drop p s) post false false false 0 0)
    as (neg & il & fl & Hr & Hi & Hf & Hm);
    [rewrite length_drop; lia|apply dots_ok_drop, Hline|done..|].
  unfold NMEA_Str2num. rewrite Hd, Hr, res_bind_ret. cbn beta iota.
  cbn [Z.b2z] in Hm. rewrite length_drop in Hm. unfold is_byte in Hi, Hf.
  set (q := if neg then S p else p).
  assert (Z.of_nat q = Z.of_nat p + Z.b2z neg) as Hq by (subst q; destruct neg; cbn; lia).
  destruct (digit_sum_safe buf q il) as [v ->]; [done|lia|]. rewrite res_bind_ret.
  set (k := if 5 <? fl then 5 else fl).
  assert (0 <= k <= 5 ∧ k <= fl) as Hk by (subst k; case_if; lia).
  destruct (digit_sum_safe buf (q + Z.to_nat il + 1) k) as [v' ->];
    [unfold is_byte; lia|lia|]. rewrite res_bind_ret.
  destruct neg; cbn [mbind res_bind]; [|cbn; lia].
  unfold chk32. case_if; [cbn; lia|done].
Qed.

Lemma comma_loop_safe w post cx n :
  0 <= n →
  ∃ posx, comma_loop (w ++ NUL :: post) cx n = Ret posx ∧
    (posx = 255 ∨ 0 <= posx <= n + Z.of_nat (length w)).
Proof.
  assert (∀ n, 0 <= n → 0 <= u8 n <= n) as Hu
    by (unfold u8; intros; split; [dlia | apply Z.mod_le; lia]).
  revert cx n. induction w as [|c w IH]; intros cx n Hn; cbn [app comma_loop length].
  - specialize (Hu n Hn). case_if; [eexists; split; [done|]; right; lia|].
    exists 255. auto.
  - case_if; [specialize (Hu n Hn); eexists; split; [done|]; right; lia|].
    case_if; [exists 255; by auto|].
    destruct (IH (if c =? 44 then cx - 1 else cx) (n + 1)) as (posx & -> & Hpos); [lia|].
    exists posx. split; [done|]. lia.
Qed.

Lemma Comma_Pos_safe p cx :
  (p <= length s)%nat →
  ∃ posx, NMEA_Comma_Pos buf (Some p) cx = Ret posx ∧
    (posx = 255 ∨ (p + Z.to_nat posx <= length s)%nat).
Proof.
  intros Hp. destruct (drop_line p Hp) as [post Hd]. unfold NMEA_Comma_Pos. rewrite Hd.
  destruct (comma_loop_safe (drop p s) post (u8 cx) 0) as (posx & -> & H); [done|].
  exists posx. split; [done|]. rewrite length_drop in H. lia.
Qed.

Definition field_dx_ok (r : option (Z * Z)) : Prop :=
  match r with Some (_, dx) => 0 <= dx <= 5 | None => True end.

Lemma field_num_safe p cx :
  (p <= length s)%nat → may_fault benign field_dx_ok (field_num buf (Some p) cx).
Proof.
  intros Hp. unfold field_num. destruct (Comma_Pos_safe p cx Hp) as (posx & -> & H).
  rewrite res_bind_ret. case_if; [done|]. destruct H as [H|H]; [done|].
  eapply may_fault_bind; [by apply Str2num_safe|]. by intros [v dx].
Qed.

Lemma field_char_safe p cx :
  (p <= length s)%nat → may_fault benign (λ _, True) (field_char buf (Some p) cx).
Proof.
  intros Hp. unfold field_char. destruct (Comma_Pos_safe p cx Hp) as (posx & -> & H).
  rewrite res_bind_ret. case_if; [done|]. destruct H as [H|H]; [done|].
  pose proof line_length. by destruct (rd_line (p + Z.to_nat posx)) as [c ->]; [lia|].
Qed.
End buffer.

Lemma is_prefix_inside pat s post :
  Forall (λ c, c ≠ NUL) pat → is_prefix pat (s ++ NUL :: post) = true →
  (length pat <= length s)%nat.
Proof.
  intros Hp. revert s. induction Hp as [|c pat Hc _ IH]; intros [|d s]; cbn [app is_prefix length]; try lia.
  intros H. bool_prop. apply IH in H0. lia.
Qed.

Lemma strstr_from_safe pat s post i :
  Forall (λ c, c ≠ NUL) pat →
  ∃ r, strstr_from (s ++ NUL :: post) pat i = Ret r ∧
    ∀ q, r = Some q → (i <= q ∧ q + length pat <= i + length s)%nat.
Proof.
  intros Hp. revert i. induction s as [|c s IH]; intros i; cbn [app strstr_from].
  - destruct (is_prefix _ _) eqn:E.
    + apply (is_prefix_inside pat [] post Hp) in E. exists (Some i). split; [done|].
      intros q [= <-]. lia.
    + exists None. split; [done|]. by intros q.
  - destruct (is_prefix _ _) eqn:E.
    + apply (is_prefix_inside pat (c :: s) post Hp) in E. exists (Some i). split; [done|].
      intros q [= <-]. lia.
    + case_if; [exists None; split; [done|]; by intros q|].
      destruct (IH (S i)) as (r & -> & Hr). exists r. split; [done|].
      intros q Hq. specialize (Hr q Hq). cbn [length]. lia.
Qed.

(** The messages a GPGSV line announces are found one after the other. *)
Fixpoint messages_follow (n : nat) (buf : list Z) (p : nat) : bool :=
  match n with
  | O => true
  | S n =>
      match strstr_at buf p (bytes "$GPGSV") with
      | Ret (Some q) => messages_follow n buf (S q)
      | _ => false
      end
  end.

Definition announced (buf : list Z) (q : nat) : Z :=
  match rd buf (q + 7) with Ret c => u8 (c - 48) | Fault _ => 0 end.

(** The GPGSV messages of the buffer: at most three, and all of them there. *)
Definition gsv_complete (buf : list Z) : Prop :=
  ∀ q, strstr_at buf 0 (bytes "$GPGSV") = Ret (Some q) →
    announced buf q <= 3 ∧ messages_follow (Z.to_nat (announced buf q)) buf 0 = true.

Section handlers.
Context (buf : list Z) (s : cstr) (Hline : holds_line buf s).

(** The arrays of [gps_data] keep their size. *)
Definition sized (w : gps) : Prop :=
  length (slmsg (gps_data w)) = 12%nat ∧ length (possl (gps_data w)) = 12%nat.
Definition same_arrays (f : nmea_msg → nmea_msg) : Prop :=
  ∀ g, slmsg (f g) = slmsg g ∧ possl (f g) = possl g.

Abbreviation safe m := (io_may_fault benign sized (λ _, True) m).

Lemma strstr_safe p pat :
  (p <= length s)%nat → Forall (λ c, c ≠ NUL) pat →
  ∃ r, strstr_at buf p pat = Ret r ∧
    ∀ q, r = Some q → (q + length pat <= length s)%nat.
Proof.
  intros Hp Hpat. destruct (drop_line buf s Hline p Hp) as [post Hd].
  unfold strstr_at. rewrite Hd.
  destruct (strstr_from_safe pat (drop p s) post p Hpat) as (r & -> & Hr).
  exists r. split; [done|]. intros q Hq. specialize (Hr q Hq).
  rewrite length_drop in Hr. lia.
Qed.

Lemma safe_bind {A B} (Q : A → Prop) (Q' : B → Prop) (m : io gps A) (k : A → io gps B) :
  io_may_fault benign sized Q m → (∀ a, Q a → io_may_fault benign sized Q' (k a)) →
  io_may_fault benign sized Q' (mbind k m).
Proof. apply io_mf_bind. Qed.

Lemma set_data_safe f : same_arrays f → safe (set_data f).
Proof.
  intros Hf. apply io_mf_modify. intros w. unfold sized. cbn. by destruct (Hf (gps_data w)) as [-> ->].
Qed.

Lemma emit_safe o : safe (emit o).
Proof. by apply io_mf_modify. Qed.

Lemma lift_num_safe p cx :
  (p <= length s)%nat →
  io_may_fault benign sized field_dx_ok (lift (field_num buf (Some p) cx)).
Proof. intros. by apply io_mf_lift, (field_num_safe buf s Hline). Qed.

Lemma assign_num_safe p cx f :
  (p <= length s)%nat → (∀ v, same_arrays (f v)) →
  safe (assign_num buf (Some p) cx f).
Proof.
  intros Hp Hf. eapply safe_bind; [by apply lift_num_safe|].
  intros [[v dx]|] _; [by apply set_data_safe|by apply io_mf_ret].
Qed.

Lemma assign_char_safe p cx f :
  (p <= length s)%nat → (∀ v, same_arrays (f v)) →
  safe (assign_char buf (Some p) cx f).
Proof.
  intros Hp Hf. eapply safe_bind; [by eapply io_mf_lift, (field_char_safe buf s Hline)|].
  intros [c|] _; [by apply set_data_safe|by apply io_mf_ret].
Qed.

Lemma pow_nonzero n : 0 <= n <= 9 → NMEA_Pow 10 n ≠ 0.
Proof.
  intros Hn. rewrite NMEA_Pow_spec by lia.
  pose proof (Z.pow_le_mono_r 10 n 9). pose proof (Z.pow_pos_nonneg 10 n).
  rewrite u32_small; lia.
Qed.

Lemma div_pow_safe t n : 0 <= n <= 9 → may_fault benign (λ _, True) (div_pow t n).
Proof.
  intros Hn. unfold div_pow. pose proof (pow_nonzero n Hn). by decide_if (NMEA_Pow 10 n =? 0) false.
Qed.

Lemma mod_pow_safe t n : 0 <= n <= 9 → may_fault benign (λ _, True) (mod_pow t n).
Proof.
  intros Hn. unfold mod_pow. pose proof (pow_nonzero n Hn). by decide_if (NMEA_Pow 10 n =? 0) false.
Qed.

Lemma trunc_safe x : may_fault benign (λ _, True) (trunc x).
Proof. by destruct x. Qed.

Lemma to_u32_safe x : may_fault benign (λ _, True) (to_u32 x).
Proof. eapply may_fault_bind; [apply trunc_safe|]. intros z _. by case_if. Qed.

Lemma to_i32_safe x : may_fault benign (λ _, True) (to_i32 x).
Proof. eapply may_fault_bind; [apply trunc_safe|]. intros z _. by case_if. Qed.

Lemma to_degrees_safe t dx : 0 <= dx <= 5 → may_fault benign (λ _, True) (to_degrees t dx).
Proof.
  intros Hdx. eapply may_fault_bind; [apply div_pow_safe; lia|]. intros deg _.
  eapply may_fault_bind; [apply mod_pow_safe; lia|]. intros r _. apply to_u32_safe.
Qed.

Lemma dms_safe c : may_fault benign (λ _, True) (dms c).
Proof.
  unfold dms. eapply may_fault_bind; [apply to_i32_safe|]. intros fen _.
  eapply may_fault_bind; [apply to_i32_safe|]. done.
Qed.

Lemma sprintf_safe t : (length t < 50)%nat → may_fault benign (λ _, True) (sprintf t).
Proof. intros Ht. unfold sprintf. by apply Nat.ltb_lt in Ht as ->. Qed.

Lemma print_dms_safe d c : may_fault benign (λ _, True) (sprintf (print_dms d c)).
Proof.
  apply sprintf_safe. destruct d as [[x y] z]. unfold print_dms, print_wd.
  pose proof (length_print_d x). pose proof (length_print_d y). pose proof (length_print_d z).
  rewrite !length_app, !length_replicate. cbn [length]. lia.
Qed.

Lemma print_speed_safe v : may_fault benign (λ _, True) (print_speed v).
Proof.
  eapply (may_fault_bind benign (λ t, length t <= 15)%nat).
  - eapply (may_fault_bind benign (λ _, True)).
    { destruct (f64_of_f32 _) as [| | |[] m e]; cbn; try done. by destruct e. }
    intros h _. cbn. pose proof (length_print_d (h / 100)). rewrite length_app. cbn. lia.
  - intros t Ht. apply sprintf_safe. rewrite !length_app. cbn. lia.
Qed.

Lemma set_slmsg_safe slx f : 0 <= slx < 12 → safe (set_slmsg slx f).
Proof.
  intros Hs w [Hw Hp]. unfold set_slmsg. rewrite Hw. decide_if (slx <? Z.of_nat 12) true.
  split; [done|]. unfold sized in *. cbn. by rewrite length_alter.
Qed.

Lemma set_possl_safe i v : (i < 12)%nat → safe (set_possl i v).
Proof.
  intros Hi w [Hw Hp]. unfold set_possl. rewrite Hp. apply Nat.ltb_lt in Hi as ->.
  split; [done|]. unfold sized in *. cbn. by rewrite length_insert.
Qed.

Lemma gsv_member_safe p cx slx f :
  (p <= length s)%nat → 0 <= slx < 12 → safe (gsv_member buf (Some p) cx slx f).
Proof.
  intros Hp Hs. eapply safe_bind; [by apply lift_num_safe|].
  intros [[v dx]|] _; [|by apply io_mf_ret].
  eapply safe_bind; [by apply set_slmsg_safe|]. intros _ _. by apply io_mf_ret.
Qed.

Lemma gsv_sats_safe n p j slx :
  (p <= length s)%nat → 0 <= slx → slx + Z.of_nat n <= 12 →
  io_may_fault benign sized (λ slx', 0 <= slx' <= slx + Z.of_nat n)
    (gsv_sats n buf (Some p) j slx).
Proof.
  intros Hp. revert j slx. induction n as [|n IH]; intros j slx H0 Hn; cbn [gsv_sats].
  { apply io_mf_ret. lia. }
  do 4 (eapply safe_bind; [apply gsv_member_safe; [done|lia]|];
        intros [] _; cbn [negb]; [|apply io_mf_ret; lia]).
  rewrite u8_small by (unfold is_byte; lia).
  eapply io_mf_mono; [apply IH; lia|]. cbn. lia.
Qed.

Lemma gsv_messages_safe n p slx :
  (p <= length s)%nat → 0 <= slx → slx + 4 * Z.of_nat n <= 12 →
  messages_follow n buf p = true → safe (gsv_messages n buf p slx).
Proof.
  revert p slx. induction n as [|n IH]; intros p slx Hp H0 Hn Hm; cbn [gsv_messages].
  { by apply io_mf_ret. }
  cbn [messages_follow] in Hm.
  destruct (strstr_safe p (bytes "$GPGSV")) as (r & Hr & Hq); [done|by repeat constructor|].
  rewrite Hr in Hm |- *. destruct r as [q|]; [|done]. specialize (Hq q eq_refl).
  cbn [length bytes] in Hq.
  eapply (safe_bind (eq (Some q))); [by apply io_mf_lift|]. intros ? <-.
  eapply safe_bind; [apply (gsv_sats_safe 4 q); lia|]. cbn beta. intros slx' Hs'.
  apply IH; [lia..|done].
Qed.

(** What the dispatcher knows when it calls a handler. *)
Definition found_safe (pat : string) (h : list Z → io gps unit) : Prop :=
  ∀ q, strstr_at buf 0 (bytes pat) = Ret (Some q) →
    (q + length (bytes pat) <= length s)%nat → safe (h buf).

Lemma dispatch_safe pat h :
  Forall (λ c, c ≠ NUL) (bytes pat) → found_safe pat h → safe (dispatch buf pat h).
Proof.
  intros Hpat Hh. unfold dispatch.
  destruct (strstr_safe 0 (bytes pat)) as (r & Hr & Hq); [lia|done|].
  rewrite Hr. eapply (safe_bind (eq r)); [by apply io_mf_lift|]. intros ? <-.
  destruct r as [q|]; [|by apply io_mf_ret]. apply (Hh q); auto.
Qed.

Lemma gpgsv_safe : gsv_complete buf → found_safe "$GPGSV" NMEA_GPGSV_Analysis.
Proof.
  intros Hc q Hr Hq. destruct (Hc q Hr) as [Ha Hm]. cbn [length bytes] in Hq.
  unfold NMEA_GPGSV_Analysis. rewrite Hr.
  eapply (safe_bind (eq (Some q))); [by apply io_mf_lift|]. intros ? <-.
  destruct (rd_line buf (q + 7)) as [c Hrd];
    [pose proof (line_length buf s Hline); lia|].
  unfold announced in Ha, Hm. rewrite Hrd in Ha, Hm |- *.
  eapply (safe_bind (eq c)); [by apply io_mf_lift|]. intros ? <-.
  eapply safe_bind; [apply assign_num_safe; [lia|done]|]. intros _ _.
  pose proof (u8_byte (c - 48)) as Hb. unfold is_byte in Hb.
  apply gsv_messages_safe; [lia..|done].
Qed.

Ltac assigns := repeat (eapply safe_bind; [apply assign_num_safe; [lia|done]|]; intros _ _).

Lemma gngga_safe : found_safe "$GNGGA" NMEA_GNGGA_Analysis.
Proof.
  intros q Hr Hq. unfold NMEA_GNGGA_Analysis. rewrite Hr.
  eapply (safe_bind (eq (Some q))); [by apply io_mf_lift|]. intros ? <-.
  assigns. apply assign_num_safe; [lia|done].
Qed.

Lemma gsa_possl_safe n p i : (p <= length s)%nat → (i + n <= 12)%nat →
  safe (gsa_possl n buf (Some p) i).
Proof.
  intros Hp. revert i. induction n as [|n IH]; intros i Hi; cbn [gsa_possl]; [by apply io_mf_ret|].
  eapply safe_bind; [by apply lift_num_safe|]. intros [[v dx]|] _; [|by apply io_mf_ret].
  eapply safe_bind; [apply set_possl_safe; lia|]. intros _ _. apply IH. lia.
Qed.

Lemma gpgsa_safe : found_safe "$GPGSA" NMEA_GPGSA_Analysis.
Proof.
  intros q Hr Hq. unfold NMEA_GPGSA_Analysis. rewrite Hr.
  eapply (safe_bind (eq (Some q))); [by apply io_mf_lift|]. intros ? <-.
  assigns. eapply safe_bind; [apply gsa_possl_safe; lia|]. intros _ _.
  assigns. apply assign_num_safe; [lia|done].
Qed.

Lemma gnvtg_safe : found_safe "$GNVTG" NMEA_GNVTG_Analysis.
Proof.
  intros q Hr Hq. unfold NMEA_GNVTG_Analysis. rewrite Hr.
  eapply (safe_bind (eq (Some q))); [by apply io_mf_lift|]. intros ? <-.
  eapply safe_bind; [apply lift_num_safe; lia|].
  intros [[v dx]|] _; [|by apply io_mf_ret].
  eapply safe_bind; [by apply set_data_safe|]. intros _ _.
  eapply safe_bind; [case_if; [by apply set_data_safe|by apply io_mf_ret]|]. intros _ _.
  eapply safe_bind; [apply io_mf_gets|]. intros sp _.
  eapply safe_bind; [apply io_mf_lift, print_speed_safe|]. intros t _. apply emit_safe.
Qed.

Lemma coordinate_safe p cx (set : Z → nmea_msg → nmea_msg) (get : gps → Z) (o : cstr → output) :
  (p <= length s)%nat → (∀ v, same_arrays (set v)) →
  safe (r ← lift (field_num buf (Some p) cx);
        match r with
        | Some (v, dx) =>
            c ← lift (to_degrees (u32 v) dx);
            set_data (set c) ;;
            d ← lift (dms c);
            h ← gets get;
            t ← lift (sprintf (print_dms d h));
            emit (o t) ;;
            mret (Some d)
        | None => mret None
        end).
Proof.
  intros Hp Hset. eapply safe_bind; [by apply lift_num_safe|].
  intros [[v dx]|] Hdx; [|by apply io_mf_ret].
  eapply safe_bind; [by apply io_mf_lift, to_degrees_safe|]. intros c _.
  eapply safe_bind; [by apply set_data_safe|]. intros _ _.
  eapply safe_bind; [apply io_mf_lift, dms_safe|]. intros d _.
  eapply safe_bind; [apply io_mf_gets|]. intros h _.
  eapply safe_bind; [apply io_mf_lift, print_dms_safe|]. intros t _.
  eapply safe_bind; [apply emit_safe|]. intros _ _. by apply io_mf_ret.
Qed.

Lemma rmc_time_safe p : (p <= length s)%nat → safe (rmc_time buf (Some p)).
Proof.
  intros Hp. eapply safe_bind; [by apply lift_num_safe|].
  intros [[v dx]|] Hdx; [|by apply io_mf_ret]. cbn in Hdx.
  eapply safe_bind; [apply io_mf_lift, div_pow_safe; lia|]. intros t _.
  by apply set_data_safe.
Qed.

Lemma rmc_date_safe p : (p <= length s)%nat → safe (rmc_date buf (Some p)).
Proof.
  intros Hp. eapply safe_bind; [by apply lift_num_safe|].
  intros [[v dx]|] Hdx; [|by apply io_mf_ret]. by apply set_data_safe.
Qed.

Lemma defined_safe {A} (x : option A) : may_fault benign (λ _, True) (defined x).
Proof. by destruct x. Qed.

Lemma rmc_log_safe lon lat : safe (rmc_log lon lat).
Proof.
  unfold rmc_log. eapply safe_bind; [apply io_mf_gets|]. intros c _.
  case_if; [|by apply io_mf_ret].
  eapply safe_bind; [by apply io_mf_modify|]. intros _ _.
  do 2 (eapply safe_bind; [apply io_mf_lift, defined_safe|]; intros ? _;
        eapply safe_bind; [apply io_mf_gets|]; intros ? _;
        eapply safe_bind; [apply io_mf_lift, print_dms_safe|]; intros ? _;
        eapply safe_bind; [apply emit_safe|]; intros _ _).
  eapply safe_bind; [apply io_mf_gets|]. intros sp _.
  eapply safe_bind; [apply io_mf_lift, print_speed_safe|]. intros t _. apply emit_safe.
Qed.

Lemma gnrmc_safe : found_safe "GNRMC" NMEA_GNRMC_Analysis.
Proof.
  intros q Hr Hq. unfold NMEA_GNRMC_Analysis. rewrite Hr.
  eapply safe_bind; [by apply io_mf_modify|]. intros _ _.
  eapply (safe_bind (eq (Some q))); [by apply io_mf_lift|]. intros ? <-.
  eapply safe_bind; [apply rmc_time_safe; lia|]. intros _ _.
  eapply safe_bind; [apply assign_char_safe; [lia|done]|]. intros _ _.
  eapply safe_bind; [apply (coordinate_safe q 3 (λ v g, g <| latitude := v |>)); [lia|done]|].
  intros lat _.
  eapply safe_bind; [apply assign_char_safe; [lia|done]|]. intros _ _.
  eapply safe_bind; [apply (coordinate_safe q 5 (λ v g, g <| longitude := v |>)); [lia|done]|].
  intros lon _.
  eapply safe_bind; [apply rmc_date_safe; lia|]. intros _ _. apply rmc_log_safe.
Qed.
End handlers.

(** C5. Memory safety of the whole analysis.  For every buffer that holds a
    terminated line in which each '.' is followed by a character, and whose GPGSV
    messages are all in the buffer and at most three, [GPS_Analysis] (all five
    handlers, on any prior contents of [gps_data] and any counter value) never reads
    or writes outside the buffer, the arrays of [gps_data] or the array it prints into,
    never follows a null pointer and never divides by zero; and the table of satellites
    and the list of those in use keep their twelve entries. *)
Theorem gps_analysis_memory_safe buf s w :
  holds_line buf s → gsv_complete buf →
  length (slmsg (gps_data w)) = 12%nat → length (possl (gps_data w)) = 12%nat →
  match GPS_Analysis buf w with
  | Ret (_, w') => length (slmsg (gps_data w')) = 12%nat ∧ length (possl (gps_data w')) = 12%nat
  | Fault f => f ≠ OutOfBounds ∧ f ≠ NullDeref ∧ f ≠ DivByZero
  end.
Proof.
  intros Hline Hgsv Hw Hp.
  assert (io_may_fault benign sized (λ _, True) (GPS_Analysis buf)) as H.
  { unfold GPS_Analysis.
    eapply safe_bind; [eapply dispatch_safe; [done|by repeat constructor|by eapply gpgsv_safe]|]. intros _ _.
    eapply safe_bind; [eapply dispatch_safe; [done|by repeat constructor|by eapply gngga_safe]|]. intros _ _.
    eapply safe_bind; [eapply dispatch_safe; [done|by repeat constructor|by eapply gpgsa_safe]|]. intros _ _.
    eapply safe_bind; [eapply dispatch_safe; [done|by repeat constructor|by eapply gnrmc_safe]|]. intros _ _.
    eapply dispatch_safe; [done|by repeat constructor|by eapply gnvtg_safe]. }
  specialize (H w (conj Hw Hp)). destruct (GPS_Analysis buf w) as [[[] w']|f]; [apply H|done].
Qed.

(** A line in the receive buffer: the bytes of the line, a terminator, stale zeros. *)
Definition in_buffer (line : string) : list Z :=
  let l := bytes line in l ++ replicate (512 - length l) 0.
Definition gps0 : gps := MkGps nmea_msg_zero 0 [].

Lemma gps_analysis_memory_safe_witness :
  let buf := in_buffer "$GPGSV,1,1,02,02,35,291,20,03,09,129,10*70" in
  match GPS_Analysis buf gps0 with
  | Ret (_, w') => length (slmsg (gps_data w')) = 12%nat ∧ length (possl (gps_data w')) = 12%nat
  | Fault f => f ≠ OutOfBounds ∧ f ≠ NullDeref ∧ f ≠ DivByZero
  end.
Proof.
  apply (gps_analysis_memory_safe _ (bytes "$GPGSV,1,1,02,02,35,291,20,03,09,129,10*70")).
  - split; [reflexivity|]. exists 0, (replicate 468 0). reflexivity.
  - intros q Hq. vm_compute in Hq. injection Hq as <-. split; [vm_compute; congruence|reflexivity].
  - reflexivity.
  - reflexivity.
Defined.

(** * Fields of a sentence *)

(** C6. Reading a comma-separated field.  When [fs] are the fields before it (plain
    characters, fewer than 255 bytes with their commas), the field that follows the
    [length fs]-th comma reads as its decimal value scaled by 10^k together with
    k, the number of decimals, of which five at most are kept; the scaled value has
    to fit an [int].  A field number beyond the last comma before a '*' or an illegal
    character is reported missing. *)
Theorem gps_field_value buf p fs neg ip fp t post :
  Forall (Forall (λ c, plain c = true)) fs →
  (length fs < 256)%nat → (length (fields fs) < 255)%nat →
  drop p buf = fields fs ++ num_text neg ip fp ++ t :: post →
  all_digits ip → all_digits fp → is_end t →
  (length ip <= 255)%nat → (length fp <= 255)%nat →
  num_value false ip fp (Nat.min 5 (length fp)) <= INT32_MAX →
  field_num buf (Some p) (Z.of_nat (length fs)) =
    Ret (Some (num_value neg ip fp (Nat.min 5 (length fp)), Z.of_nat (Nat.min 5 (length fp)))) ∧
  (t = 42 → Forall (λ c, plain c = true) (num_text neg ip fp) →
   ∀ cx, Z.of_nat (length fs) < cx < 256 → field_num buf (Some p) cx = Ret None).
Proof.
  intros Hf Hn Hl Hd Hi Hfp Ht Li Lf Hv. split; [by eapply field_num_spec|].
  intros -> Hp cx Hcx. unfold field_num.
  by rewrite (comma_pos_missing buf p fs (num_text neg ip fp) 42 post cx).
Qed.

Lemma gps_field_value_witness :
  let buf := in_buffer "$GNGGA,,,-12.345678*00" in
  field_num buf (Some 0%nat) 3 = Ret (Some (-1234567, 5)) ∧ field_num buf (Some 0%nat) 4 = Ret None.
Proof.
  edestruct (gps_field_value (in_buffer "$GNGGA,,,-12.345678*00") 0
    [bytes "$GNGGA"; []; []] true (bytes "12") (bytes "345678") 42
    (bytes "00" ++ replicate 490 0)) as [H1 H2]; cycle -1.
  { split; [exact H1|]. apply H2; [reflexivity|repeat constructor|done]. }
  all: first [by repeat constructor|vm_compute; congruence].
Defined.

(** * The line reader *)

Lemma data_read_line l rest buff :
  length buff = 512%nat → LF ∉ l →
  ∃ buff', data_read (l ++ LF :: rest) buff GPS_DEVICE_RECV_BUFF_LEN = Ret (buff', rest) ∧
    length buff' = 512%nat ∧
    take ((length l + 1) mod 256 + 1) buff' =
      drop (256 * ((length l + 1) / 256)) (l ++ [LF]) ++ [NUL] ∧
    drop 256 buff' = drop 256 buff.
Proof.
  intros Hb Hl. assert (received buff [] buff) as H0 by done.
  destruct (data_read_loop_spec buff l [] buff rest) as (b & Hr & Hrc); [lia|done..|].
  cbn [app length] in *. change (u8 (Z.of_nat 0)) with 0 in Hr.
  unfold data_read, GPS_DEVICE_RECV_BUFF_LEN. rewrite Hr, res_bind_ret. rewrite store_at by (rewrite (rc_length _ _ _ Hrc); lia).
  assert (256 <= length buff)%nat as Hb' by lia.
  pose proof (received_store _ _ _ NUL Hb' Hrc) as [L1 _ L3].
  destruct Hrc as [L4 L5 _]. rewrite length_app in *. cbn [length] in *.
  assert ((length l + 1) mod 256 < 256)%nat as Hm by (apply Nat.mod_upper_bound; lia).
  set (m := ((length l + 1) mod 256)%nat) in *.
  exists (<[m := NUL]> b). split; [done|]. split; [lia|]. split; [|done].
  rewrite (Nat.add_1_r m), (take_S_r _ _ NUL) by (apply list_lookup_insert_eq; lia).
  by rewrite take_insert_ge, L5 by lia.
Qed.

(** [data_read] on a 512-byte buffer: it returns as soon as a newline is delivered,
    having consumed exactly the line; the buffer then starts with a terminated copy of
    the line from its last multiple of 256 on (all of it when the line with its newline
    is shorter than 256 bytes), because the write cursor is an [rt_uint8_t]: the bound
    [count <= len] never stops the loop and the upper half is never written. *)
Theorem gps_data_read_line l rest buff :
  length buff = 512%nat → LF ∉ l →
  ∃ buff', data_read (l ++ LF :: rest) buff GPS_DEVICE_RECV_BUFF_LEN = Ret (buff', rest) ∧
    length buff' = 512%nat ∧
    take ((length l + 1) mod 256 + 1) buff' =
      drop (256 * ((length l + 1) / 256)) (l ++ [LF]) ++ [NUL] ∧
    drop 256 buff' = drop 256 buff.
Proof. apply data_read_line. Qed.

Lemma gps_data_read_line_witness :
  ∃ buff', data_read (bytes "$GN" ++ LF :: [1]) (replicate 512 0) GPS_DEVICE_RECV_BUFF_LEN = Ret (buff', [1]) ∧
    length buff' = 512%nat ∧ take 5 buff' = bytes "$GN" ++ [LF] ++ [NUL] ∧
    drop 256 buff' = drop 256 (replicate 512 0).
Proof.
  apply (gps_data_read_line (bytes "$GN") [1] (replicate 512 0)); [reflexivity|].
  intros H. by repeat (apply elem_of_cons in H as [H|H]; [discriminate|]); apply elem_of_nil in H.
Defined.

(** * Satellites *)

(** A buffer holding one GPGSV message that announces two or more: the handler
    looks for the next message, does not find it and goes on through the null pointer;
    from no state does it complete. *)
Theorem gpgsv_single_line_faults buf q w :
  strstr_at buf 0 (bytes "$GPGSV") = Ret (Some q) →
  strstr_at buf (S q) (bytes "$GPGSV") = Ret None →
  2 <= announced buf q →
  ∃ f, NMEA_GPGSV_Analysis buf w = Fault f.
Proof.
  intros Hq Hnone Ha.
  destruct (NMEA_GPGSV_Analysis buf w) as [[[] w']|f] eqn:E; [exfalso|eauto].
  unfold NMEA_GPGSV_Analysis in E. rewrite Hq in E. unfold announced in Ha.
  destruct (rd buf (q + 7)) as [c|] eqn:Hc; [|lia].
  unfold mbind, io_bind, lift in E. rewrite Hc in E.
  destruct (assign_num buf (Some q) 3 _ w) as [[[] w1]|]; [|done].
  destruct (Z.to_nat (u8 (c - 48))) as [|[|n]] eqn:Hn; [lia..|].
  cbn [gsv_messages] in E. unfold mbind, io_bind, lift in E. rewrite Hq in E.
  destruct (gsv_sats 4 buf (Some q) 0 0 w1) as [[slx w2]|]; [|done].
  rewrite Hnone in E. done.
Qed.

Lemma gpgsv_single_line_faults_witness :
  let buf := in_buffer "$GPGSV,2,1,08,02,35,291,20*70" in
  ∃ f, NMEA_GPGSV_Analysis buf gps0 = Fault f.
Proof.
  apply (gpgsv_single_line_faults _ 0); [reflexivity..|vm_compute; congruence].
Defined.
