(* ===== verification/GpsCoord.v ===== *)
(** The numbers of the receiver (Gps.v) that go through floating point: coordinates, their
    text on the display and the text of the speed, each within a stated distance of the
    exact value. *)

From Stdlib Require Import SpecFloat QArith Lqa.
From S2P Require Import Prelude CLib Float32 FloatSpec Gps GpsSpec.

(** * Single and double precision *)

Lemma f32_of_Z_ok z : - 16777216 < z < 16777216 → aligned 24 128 (f32_of_Z z) ∧ (value (f32_of_Z z) == inject_Z z)%Q.
Proof. intros Hz. apply of_Z_ok; done. Qed.
Lemma f64_of_Z_ok z : - 9007199254740992 < z < 9007199254740992 →
  aligned 53 1024 (f64_of_Z z) ∧ (value (f64_of_Z z) == inject_Z z)%Q.
Proof. intros Hz. apply of_Z_ok; done. Qed.

Lemma aligned_finite prec emax x : aligned prec emax x → is_finite x.
Proof. by destruct x. Qed.

Ltac p2_num e := let q := eval vm_compute in (p2 e) in change (p2 e) with q in *.
(** The rounding error of [H : rounded prec emax b x r], as a number. *)
Ltac round_err H :=
  pose proof (rounded_err _ _ _ _ _ H) as [? ?];
  match type of H with rounded ?p ?m ?b _ _ => p2_num (SpecFloat.fexp p m b) end.
Ltac below b := p2_num b; split; lra.

(** [inject_Z] of an integer expression, as an expression over Q. *)
Ltac push_Q := unfold Z.sub; repeat (rewrite inject_Z_plus || rewrite inject_Z_opp || rewrite inject_Z_mult);
  repeat match goal with |- context [inject_Z ?z] =>
    match z with Zpos _ => change (inject_Z z) with (z # 1)%Q | Z0 => change (inject_Z 0) with 0%Q | Zneg _ => change (inject_Z z) with (z # 1)%Q end end.

(** A bound on an integer, found over Q. *)
Lemma bound_lt a z : ((a # 1) < inject_Z z)%Q → a < z.
Proof. change (a # 1)%Q with (inject_Z a). apply inject_Z_lt. Qed.
Lemma lt_bound a z : (inject_Z z < (a # 1))%Q → z < a.
Proof. change (a # 1)%Q with (inject_Z a). apply inject_Z_lt. Qed.

Lemma inject_bounds a z b : a <= z <= b → ((a # 1) <= inject_Z z)%Q ∧ (inject_Z z <= (b # 1))%Q.
Proof. intros [H1 H2]. change (a # 1)%Q with (inject_Z a). change (b # 1)%Q with (inject_Z b). by rewrite !inject_Z_le. Qed.

(** An exact integer result. *)
Lemma rounded_integer x k r : rounded 24 128 24 x r → (x == inject_Z k)%Q → aligned 24 128 r ∧ (value r == inject_Z k)%Q.
Proof.
  intros Hr Hx. split; [apply Hr|]. rewrite (rounded_exact _ _ _ _ _ k Hr); [done|].
  rewrite Hx. change (p2 (SpecFloat.fexp 24 128 24)) with 1%Q. ring.
Qed.

Lemma pow10_bounds n : 0 <= n <= 7 → 1 <= 10 ^ n <= 10000000.
Proof.
  intros Hn. pose proof (Z.pow_le_mono_r 10 n 7). pose proof (Z.pow_pos_nonneg 10 n). lia.
Qed.
Lemma NMEA_Pow_small n : 0 <= n <= 7 → NMEA_Pow 10 n = 10 ^ n.
Proof. intros Hn. pose proof (pow10_bounds n Hn). rewrite NMEA_Pow_spec, u32_small by lia. done. Qed.

(** An even number of at most 25 digits. *)
Lemma f32_of_even z : 0 <= z < 16777216 → aligned 24 128 (f32_of_Z (2 * z)) ∧ (value (f32_of_Z (2 * z)) == inject_Z (2 * z))%Q.
Proof.
  intros Hz. pose proof (inject_bounds 0 z 16777215 ltac:(lia)) as [? ?].
  assert (inject_Z (2 * z) * p2 0 == inject_Z z * p2 1)%Q as E
    by (rewrite inject_Z_mult; change (p2 0) with 1%Q; change (p2 1) with 2%Q; change (inject_Z 2) with 2%Q; ring).
  assert (rounded 24 128 25 (inject_Z (2 * z) * p2 0) (f32_of_Z (2 * z))) as Hr.
  { apply normalize_ok; [done..| |done]. rewrite E. change (p2 1) with 2%Q. below 25. }
  split; [apply Hr|]. rewrite (rounded_exact _ _ _ _ _ z Hr E). change (p2 0) with 1%Q. ring.
Qed.

(** * Degrees *)

(** [c] is the coordinate of [deg] degrees and [r] / 10^[k] minutes, in units of a
    hundred-thousandth of a degree, to within two units. *)
Definition near_degrees (deg r k c : Z) : Prop :=
  Z.abs (60 * 10 ^ k * c - 100000 * (60 * 10 ^ k * deg + r)) <= 120 * 10 ^ k.

(** The minutes: an exact product, and one rounding by the division. *)
Lemma minutes_ok r t : 0 <= r < 16777216 → 1 <= t < 16777216 → 0 <= r * t < 10000000 →
  let min := f32_div (f32_mul (f32_of_Z r) (f32_of_Z t)) (f32_of_Z 60) in
  aligned 24 128 min ∧ (- (1#128) <= value min - inject_Z (r * t) * (1#60))%Q ∧
  (value min - inject_Z (r * t) * (1#60) <= 1#128)%Q.
Proof.
  intros Hr Ht Hrt. destruct (f32_of_Z_ok r) as [Har Hvr]; [lia|]. destruct (f32_of_Z_ok t) as [Hat Hvt]; [lia|].
  destruct (f32_of_Z_ok 60) as [Ha60 Hv60]; [lia|]. change (inject_Z 60) with 60%Q in Hv60.
  pose proof (inject_bounds 0 (r * t) 9999999 ltac:(lia)) as [Hi0 Hi1].
  set (rs := f32_mul (f32_of_Z r) (f32_of_Z t)).
  assert (aligned 24 128 rs ∧ (value rs == inject_Z (r * t))%Q) as [Hars Hvrs].
  { apply (rounded_integer (value (f32_of_Z r) * value (f32_of_Z t))%Q); [|by rewrite Hvr, Hvt, inject_Z_mult].
    apply mul_ok; [done..| |done]. rewrite Hvr, Hvt. rewrite inject_Z_mult in *. below 24. }
  assert (value rs / value (f32_of_Z 60) == inject_Z (r * t) * (1#60))%Q as Emin by (rewrite Hvrs, Hv60; field).
  assert (rounded 24 128 18 (value rs / value (f32_of_Z 60)) (f32_div rs (f32_of_Z 60))) as Hmin.
  { apply div_ok; [done..| | |done]; [rewrite Hv60; done|]. rewrite Emin. below 18. }
  round_err Hmin. rewrite Emin in *. split; [apply Hmin|]. split; lra.
Qed.

(** The sum with the degrees, and its truncation. *)
Lemma degrees_ok deg x min :
  0 <= deg <= 180 → 0 <= x < 10000000 → aligned 24 128 min →
  (- (1#128) <= value min - inject_Z x * (1#60))%Q → (value min - inject_Z x * (1#60) <= 1#128)%Q →
  ∃ c, to_u32 (f32_add (f32_of_Z (deg * 100000)) min) = Ret c ∧
    Z.abs (60 * (c - deg * 100000) - x) <= 120 ∧ 0 <= c < 20000000.
Proof.
  intros Hdeg Hx Ham Hm1 Hm2. destruct (f32_of_even (deg * 50000)) as [Hadg Hvdg]; [lia|].
  replace (2 * (deg * 50000)) with (deg * 100000) in * by lia.
  pose proof (inject_bounds 0 (deg * 100000) 18000000 ltac:(lia)) as [? ?].
  pose proof (inject_bounds 0 x 9999999 ltac:(lia)) as [? ?].
  set (sum := f32_add (f32_of_Z (deg * 100000)) min).
  assert (rounded 24 128 25 (value (f32_of_Z (deg * 100000)) + value min) sum) as Hsum.
  { apply add_ok; [done..| |done]. rewrite Hvdg. below 25. }
  round_err Hsum. rewrite Hvdg in *.
  destruct (trunc_ok sum) as (c & Hc & Hc1 & Hc2 & Hc3 & Hc4); [eapply aligned_finite, Hsum|].
  rewrite !inject_Z_mult in *. change (inject_Z 100000) with 100000%Q in *.
  assert (-241 < 2 * (60 * (c - deg * 100000) - x)) as Hlo by (apply bound_lt; push_Q; lra).
  assert (2 * (60 * (c - deg * 100000) - x) < 241) as Hhi by (apply lt_bound; push_Q; lra).
  assert (c < 20000000) as Hmax by (apply lt_bound; push_Q; lra).
  assert (0 <= c) as Hc0.
  { destruct (decide (deg = 0)) as [->|Hd0]; [|lia].
    assert (rounded 24 128 18 (value (f32_of_Z (0 * 100000)) + value min) sum) as Hs0.
    { apply add_ok; [done..| |done]. rewrite Hvdg. change (inject_Z 0) with 0%Q. below 18. }
    round_err Hs0. rewrite Hvdg in *. change (inject_Z 0) with 0%Q in *.
    enough (-1 < c) by lia. apply bound_lt.
    destruct (Qlt_le_dec (value sum) 0) as [Hneg|Hpos]; [specialize (Hc4 ltac:(lra)); lra|lra]. }
  exists c. split; [|split; [lia|done]].
  unfold to_u32. rewrite Hc, res_bind_ret. decide_if (0 <=? c) true. by decide_if (c <? 4294967296) true.
Qed.

Lemma to_degrees_near v k deg r :
  0 <= k <= 5 → v = deg * 10 ^ (k + 2) + r → 0 <= r < 10 ^ (k + 2) → 0 <= deg <= 180 →
  ∃ c, to_degrees v k = Ret c ∧ near_degrees deg r k c ∧ 0 <= c < 20000000.
Proof.
  intros Hk Hv Hr Hdeg. set (D := 10 ^ (k + 2)) in *.
  assert (1 <= D <= 10000000) as HD by (apply pow10_bounds; lia).
  assert (D * 10 ^ (5 - k) = 10000000) as HDk.
  { subst D. rewrite <- Z.pow_add_r by lia. by replace (k + 2 + (5 - k)) with 7 by lia. }
  unfold to_degrees, div_pow, mod_pow. rewrite !NMEA_Pow_small by lia. fold D.
  decide_if (D =? 0) false.
  assert (v / D = deg) as -> by (symmetry; apply (Z.div_unique_pos _ _ _ r); lia).
  assert (v mod D = r) as -> by (symmetry; apply (Z.mod_unique_pos _ _ deg); lia).
  rewrite !res_bind_ret. set (t := 10 ^ (5 - k)) in *.
  assert (1 <= t <= 10000000) as Ht by (apply pow10_bounds; lia).
  destruct (minutes_ok r t) as (Ham & Hm1 & Hm2); [nia..|].
  assert (u32 (deg * 10 ^ 5) = deg * 100000) as -> by (rewrite u32_small; lia).
  edestruct (degrees_ok deg (r * t)) as (c & Hc & Hnear & Hbound); [done|nia|exact Ham|done..|].
  exists c. split; [done|]. split; [|done].
  unfold near_degrees. assert (10 ^ k * t = 100000) as Hkt.
  { subst t. rewrite <- Z.pow_add_r by lia. by replace (k + (5 - k)) with 5 by lia. }
  replace (60 * 10 ^ k * c - 100000 * (60 * 10 ^ k * deg + r)) with
    (10 ^ k * (60 * (c - deg * 100000) - r * t)) by nia.
  rewrite Z.abs_mul, (Z.abs_eq (10 ^ k)) by (apply Z.pow_nonneg; lia).
  pose proof (Z.pow_pos_nonneg 10 k). nia.
Qed.

(** * Degrees, minutes and seconds *)

Lemma convert_ok prec emax x b :
  1 < prec → prec < emax → is_finite x → (- p2 b < value x)%Q → (value x < p2 b)%Q →
  SpecFloat.fexp prec emax b + 1 <= emax - prec → rounded prec emax b (value x) (convert prec emax x).
Proof.
  intros H1 H2 Hf Hl Hu Hb. destruct x as [s| | |s m e]; try done; cbn [convert].
  - by apply (rounded_self prec emax (S754_zero s)).
  - assert ((if s then Zneg m else Zpos m) = cond_neg s (Zpos m)) as -> by (by destruct s).
    by apply normalize_ok.
Qed.

(** The coordinate in single precision: a division in double precision, then one rounding. *)
Lemma coordinate_float c : 0 <= c < 20000000 →
  let x := f32_of_f64 (f64_div (f64_of_Z c) (f64_of_Z 100000)) in
  aligned 24 128 x ∧ (- (1#131071) <= value x - inject_Z c * (1#100000))%Q ∧
  (value x - inject_Z c * (1#100000) <= 1#131071)%Q.
Proof.
  intros Hc. destruct (f64_of_Z_ok c) as [Hac Hvc]; [lia|]. destruct (f64_of_Z_ok 100000) as [Hah Hvh]; [lia|].
  change (inject_Z 100000) with 100000%Q in Hvh.
  pose proof (inject_bounds 0 c 19999999 ltac:(lia)) as [? ?].
  set (q := f64_div (f64_of_Z c) (f64_of_Z 100000)).
  assert (value (f64_of_Z c) / value (f64_of_Z 100000) == inject_Z c * (1#100000))%Q as E by (rewrite Hvc, Hvh; field).
  assert (rounded 53 1024 8 (value (f64_of_Z c) / value (f64_of_Z 100000)) q) as Hq.
  { apply div_ok; [done..| | |done]; [rewrite Hvh; done|]. rewrite E. below 8. }
  round_err Hq. rewrite E in *.
  assert (rounded 24 128 8 (value q) (f32_of_f64 q)) as Hx.
  { apply convert_ok; [done..|eapply aligned_finite, Hq| | |done]; p2_num 8; lra. }
  round_err Hx. split; [apply Hx|]. split; lra.
Qed.

(** The fraction [x] - [n] in sixtieths. *)
Lemma sixtieths x n : aligned 24 128 x → -16777216 < n < 16777216 →
  (- (1#60) < value x - inject_Z n)%Q → (value x - inject_Z n < 61#60)%Q →
  let f := f32_mul (f32_sub x (f32_of_Z n)) (f32_of_Z 60) in
  aligned 24 128 f ∧ (- (1#100000) < value f - 60 * (value x - inject_Z n))%Q ∧
  (value f - 60 * (value x - inject_Z n) < 1#100000)%Q.
Proof.
  intros Hx Hn H1 H2. destruct (f32_of_Z_ok n) as [Han Hvn]; [lia|]. destruct (f32_of_Z_ok 60) as [Ha60 Hv60]; [lia|].
  change (inject_Z 60) with 60%Q in Hv60. set (d := f32_sub x (f32_of_Z n)).
  assert (rounded 24 128 1 (value x - value (f32_of_Z n)) d) as Hd.
  { apply sub_ok; [done..| |done]. rewrite Hvn. below 1. }
  round_err Hd. rewrite Hvn in *.
  assert (rounded 24 128 6 (value d * value (f32_of_Z 60)) (f32_mul d (f32_of_Z 60))) as Hm.
  { apply mul_ok; [done..|apply Hd|done| |done]. rewrite Hv60. below 6. }
  round_err Hm. rewrite Hv60 in *. split; [apply Hm|]. split; lra.
Qed.

Lemma to_sixtieths f : aligned 24 128 f → (- (1#10) < value f)%Q → (value f < 61)%Q →
  ∃ z, to_i32 f = Ret z ∧ 0 <= z <= 60 ∧ (value f - inject_Z z < 1)%Q ∧ ((0 <= value f - inject_Z z)%Q ∨ z = 0).
Proof.
  intros Hf Hl Hu. destruct (trunc_ok f (aligned_finite _ _ _ Hf)) as (z & Hz & H1 & H2 & H3 & H4).
  assert (z < 62) as Hz2 by (apply lt_bound; lra).
  assert (0 <= z <= 60 ∧ ((0 <= value f - inject_Z z)%Q ∨ z = 0)) as [Hr Hs].
  { destruct (Qlt_le_dec (value f) 0) as [Hneg|Hpos].
    - assert (z = 0) as -> by (enough (-1 < z < 1) by lia; split; [apply bound_lt|apply lt_bound];
        specialize (H4 ltac:(lra)); lra). split; [lia|by right].
    - specialize (H3 Hpos). assert (z < 61) by (apply lt_bound; lra). assert (-1 < z) by (apply bound_lt; lra).
      split; [lia|left; lra]. }
  exists z. split; [|split; [done|split; [lra|done]]]. unfold to_i32. rewrite Hz, res_bind_ret.
  assert (in_i32 z = true) as -> by (apply in_i32_spec; unfold INT32_MIN, INT32_MAX; lia). done.
Qed.

(** [m] minutes and [s] seconds are what [c] has over its whole degrees, to within a
    little more than a second. *)
Definition near_seconds (c m s : Z) : Prop :=
  0 <= m <= 60 ∧ 0 <= s <= 60 ∧ Z.abs (100000 * (60 * m + s) - 3600 * (c mod 100000)) <= 103000.

Lemma dms_near c : 0 <= c < 20000000 → ∃ m s, dms c = Ret (c / 100000, m, s) ∧ near_seconds c m s.
Proof.
  intros Hc. pose proof (Z.div_mod c 100000 ltac:(lia)) as Hdiv.
  pose proof (Z.mod_pos_bound c 100000 ltac:(lia)) as Hmod.
  unfold dms. set (n := c / 100000) in *. set (y := c mod 100000) in *.
  assert (0 <= n < 200) as Hn by lia. rewrite (i32_small n) by (unfold INT32_MIN, INT32_MAX; lia).
  destruct (coordinate_float c Hc) as (Hx & Hx1 & Hx2). set (x := f32_of_f64 _) in *.
  assert (inject_Z c == 100000 * inject_Z n + inject_Z y)%Q as Ec.
  { rewrite Hdiv, inject_Z_plus, inject_Z_mult. by change (inject_Z 100000) with 100000%Q. }
  pose proof (inject_bounds 0 y 99999 ltac:(lia)) as [Hy0 Hy1].
  destruct (sixtieths x n) as (Hf & Hf1 & Hf2); [done|lia|lra..|].
  set (f := f32_mul (f32_sub x (f32_of_Z n)) (f32_of_Z 60)) in *.
  destruct (to_sixtieths f) as (m & -> & Hm & Hm1 & Hm2); [done|lra..|]. rewrite res_bind_ret.
  assert (- (1#1000) < value f - inject_Z m)%Q as Hm3.
  { destruct Hm2 as [| ->]; [lra|]. change (inject_Z 0) with 0%Q. lra. }
  destruct (sixtieths f m) as (Hg & Hg1 & Hg2); [done|lia|lra..|].
  set (g := f32_mul (f32_sub f (f32_of_Z m)) (f32_of_Z 60)) in *.
  destruct (to_sixtieths g) as (s & -> & Hs & Hs1 & Hs2); [done|lra..|]. rewrite res_bind_ret.
  assert (- (1#10) < value g - inject_Z s)%Q as Hs3.
  { destruct Hs2 as [| ->]; [lra|]. change (inject_Z 0) with 0%Q. lra. }
  exists m, s. split; [done|]. split; [done|]. split; [done|].
  assert (-103000 < 100000 * (60 * m + s) - 3600 * y) by (apply bound_lt; push_Q; lra).
  assert (100000 * (60 * m + s) - 3600 * y < 103000) by (apply lt_bound; push_Q; lra). fold y. lia.
Qed.

(** [t] is the coordinate [c] in degrees, minutes and seconds, with its hemisphere; 34 is
    the double quote. *)
Definition dms_text (c hemi : Z) (t : cstr) : Prop :=
  ∃ m s, near_seconds c m s ∧
    t = print_wd 2 (c / 100000) ++ bytes ":" ++ print_wd 2 m ++ bytes "`" ++ print_wd 2 s ++
        [34] ++ bytes "  " ++ [hemi; LF].

Lemma sprintf_dms d hemi : sprintf (print_dms d hemi) = Ret (print_dms d hemi).
Proof.
  unfold sprintf. assert (length (print_dms d hemi) < 50)%nat as Hl; [|by apply Nat.ltb_lt in Hl as ->].
  destruct d as [[x y] z]. unfold print_dms, print_wd.
  pose proof (length_print_d x). pose proof (length_print_d y). pose proof (length_print_d z).
  rewrite !length_app, !length_replicate. cbn [length]. lia.
Qed.

(** * The speed *)

Lemma hundredths_ok x : is_finite x → (0 < value x)%Q → ∃ h, hundredths x = Ret h ∧ 0 <= h ∧
  (- (1#2) <= inject_Z h - 100 * value x)%Q ∧ (inject_Z h - 100 * value x <= 1#2)%Q.
Proof.
  intros Hf Hx. destruct x as [s| | |s m e]; try done. cbn [value hundredths] in *. pose proof (p2_pos e) as Hp.
  assert (0 < inject_Z (Zpos m))%Q as Hm by (by apply (inject_Z_lt 0)).
  destruct s; cbn [cond_neg] in *; [rewrite inject_Z_opp in Hx; nra|].
  destruct (Z.leb_spec 0 e) as [He|He].
  { eexists. split; [done|]. split; [lia|]. rewrite !inject_Z_mult, <- p2_Z by done.
    change (inject_Z 100) with 100%Q. split; lra. }
  set (d := 2 ^ (- e)). assert (0 < d) as Hd by (apply Z.pow_pos_nonneg; lia).
  assert (p2 e * inject_Z d == 1)%Q as Hed.
  { subst d. rewrite <- p2_Z, <- p2_add by lia. by replace (e + - e) with 0 by lia. }
  set (n := Zpos m * 100). pose proof (Z.div_mod n d ltac:(lia)) as Hdm. pose proof (Z.mod_pos_bound n d Hd) as Hr.
  set (q := n / d) in *. set (r := n mod d) in *. assert (0 <= q) by (apply Z.div_pos; lia).
  set (h := if (2 * r <? d) || ((2 * r =? d) && Z.even q) then q else q + 1).
  assert (- d <= 2 * (h * d - n) <= d ∧ 0 <= h) as [[H1 H2] H3].
  { subst h. destruct (Z.ltb_spec (2 * r) d), (Z.eqb_spec (2 * r) d), (Z.even q); cbn [orb andb]; lia. }
  exists h. split; [done|]. split; [done|].
  assert (0 < inject_Z d)%Q as Hd' by (by apply (inject_Z_lt 0)).
  rewrite <- inject_Z_le in H1, H2. unfold n, Z.sub in H1, H2.
  repeat (rewrite inject_Z_mult in H1, H2 || rewrite inject_Z_plus in H1, H2).
  rewrite !inject_Z_opp, !inject_Z_mult in H1. rewrite !inject_Z_opp, !inject_Z_mult in H2.
  change (inject_Z 100) with 100%Q in *. change (inject_Z 2) with 2%Q in *.
  assert (inject_Z h == inject_Z h * inject_Z d * p2 e)%Q as Eh by (rewrite <- Qmult_assoc, (Qmult_comm (inject_Z d)), Hed; ring).
  apply (Qmult_le_compat_r _ _ (p2 e)) in H1, H2; [|lra..]. split; lra.
Qed.

(** [t] is the speed [sp] / 1000 with two decimals, to the nearest hundredth. *)
Definition speed_text (sp : Z) (t : cstr) : Prop :=
  ∃ h, 0 <= h ∧ Z.abs (10 * h - sp) <= 5 ∧
    t = print_d (h / 100) ++ bytes "." ++ [48 + h mod 100 / 10; 48 + h mod 10] ++ bytes "  km/h" ++ [LF].

Lemma print_speed_near sp : 0 <= sp < 65536 → ∃ t, print_speed sp = Ret t ∧ speed_text sp t.
Proof.
  intros Hsp. unfold print_speed. set (x := f64_of_f32 (f32_div (f32_of_Z sp) (f32_of_Z 1000))).
  assert (∃ h, hundredths x = Ret h ∧ 0 <= h ∧ Z.abs (10 * h - sp) <= 5) as (h & Hh & Hh0 & Hn).
  { destruct (decide (sp = 0)) as [->|Hne]; [exists 0; split; [vm_compute; reflexivity|lia]|].
    destruct (f32_of_Z_ok sp) as [Has Hvs]; [lia|]. destruct (f32_of_Z_ok 1000) as [Hat Hvt]; [lia|].
    change (inject_Z 1000) with 1000%Q in Hvt. pose proof (inject_bounds 1 sp 65535 ltac:(lia)) as [? ?].
    set (q := f32_div (f32_of_Z sp) (f32_of_Z 1000)) in *.
    assert (value (f32_of_Z sp) / value (f32_of_Z 1000) == inject_Z sp * (1#1000))%Q as E by (rewrite Hvs, Hvt; field).
    assert (rounded 24 128 7 (value (f32_of_Z sp) / value (f32_of_Z 1000)) q) as Hq.
    { apply div_ok; [done..| | |done]; [rewrite Hvt; done|]. rewrite E. below 7. }
    round_err Hq. rewrite E in *.
    assert (rounded 53 1024 7 (value q) x) as Hx.
    { apply convert_ok; [done..|eapply aligned_finite, Hq| | |done]; p2_num 7; lra. }
    round_err Hx. destruct (hundredths_ok x) as (h & Hh & Hh0 & H1' & H2'); [eapply aligned_finite, Hx|lra|].
    exists h. split; [done|]. split; [done|].
    assert (-6 < 10 * h - sp) by (apply bound_lt; push_Q; lra).
    assert (10 * h - sp < 6) by (apply lt_bound; push_Q; lra). lia. }
  unfold print_f2. rewrite Hh, !res_bind_ret. unfold sprintf.
  assert (length ((print_d (h / 100)%Z ++ [46; 48 + h mod 100 / 10; 48 + h mod 10]%Z) ++ bytes "  km/h" ++ [LF]) < 50)%nat as Hl.
  { rewrite !length_app. pose proof (length_print_d (h / 100)). cbn. lia. }
  apply Nat.ltb_lt in Hl as ->. eexists. split; [done|]. exists h. split; [done|]. split; [done|].
  by rewrite <- app_assoc.
Qed.
