(* ===== verification/GpsMembers.v ===== *)
(** What each sentence leaves in [gps_data] (Gps.v): which member holds the value of which
    field, for all five sentences of the receiver. *)

From S2P Require Import Prelude CLib Float32 FloatSpec Gps GpsSpec GpsCoord.

(** * Sentences *)

(** A number as the receiver prints it; without digits it is an empty field, which
    reads as 0. *)
Record number : Type := MkNumber { n_neg : bool; n_int : cstr; n_frac : cstr }.

Definition num_str (n : number) : cstr := num_text (n_neg n) (n_int n) (n_frac n).
(** Five decimals at most are kept. *)
Definition kept (n : number) : nat := Nat.min 5 (length (n_frac n)).
Definition scaled (n : number) : Z := num_value (n_neg n) (n_int n) (n_frac n) (kept n).
Definition wf_number (n : number) : Prop :=
  all_digits (n_int n) ∧ all_digits (n_frac n) ∧
  num_value false (n_int n) (n_frac n) (kept n) <= INT32_MAX.

Fixpoint joined (fs : list cstr) : cstr :=
  match fs with [] => [] | [f] => f | f :: fs => f ++ 44 :: joined fs end.

(** The fields of a sentence that starts at [q] and ends with its checksum. *)
Record sentence_at (buf : list Z) (q : nat) (fs : list cstr) : Prop := {
  sa_plain : Forall (Forall (λ c, plain c = true)) fs;
  sa_short : (length (joined fs) < 255)%nat;
  sa_text : ∃ post, drop q buf = joined fs ++ 42 :: post }.

(** Field [i] is the number [v] with [k] decimals. *)
Definition number_at (fs : list cstr) (i : nat) (v : Z) (k : nat) : Prop :=
  ∃ n, fs !! i = Some (num_str n) ∧ wf_number n ∧ scaled n = v ∧ kept n = k.
Definition in_range (fs : list cstr) (i : nat) (v hi : Z) : Prop :=
  0 <= v < hi ∧ ∃ k, number_at fs i v k.
Abbreviation byte_at fs i v := (in_range fs i v 256).
Abbreviation word_at fs i v := (in_range fs i v 65536).

(** * Reading a field *)

Lemma joined_cons f fs : fs ≠ [] → joined (f :: fs) = f ++ 44 :: joined fs.
Proof. by destruct fs. Qed.

Lemma joined_split fs i f post : fs !! i = Some f →
  ∃ t post', joined fs ++ 42 :: post = fields (take i fs) ++ f ++ t :: post' ∧ is_end t ∧
    (length (fields (take i fs)) + length f <= length (joined fs))%nat.
Proof.
  revert i. induction fs as [|g fs IH]; intros i Hi; [done|].
  destruct (decide (fs = [])) as [->|Hne].
  - destruct i as [|i]; [|done]. injection Hi as ->. exists 42, post. split_and!; [done|by right|cbn; lia].
  - rewrite joined_cons by done. destruct i as [|i].
    + injection Hi as ->. exists 44, (joined fs ++ 42 :: post). rewrite <- app_assoc.
      split_and!; [done|by left|]. rewrite length_app. cbn. lia.
    + destruct (IH i Hi) as (t & post' & E & Ht & Hl). exists t, post'. cbn [take].
      rewrite fields_cons, <- !app_assoc. cbn [app]. rewrite E. split_and!; [done|done|].
      rewrite !length_app. cbn [length]. lia.
Qed.

Lemma joined_length fs : (length fs <= S (length (joined fs)))%nat.
Proof.
  induction fs as [|f fs IH]; [cbn; lia|]. destruct fs as [|g fs]; [cbn; lia|].
  rewrite joined_cons, length_app by done. cbn [length] in *. lia.
Qed.

Section sentence.
Context (buf : list Z) (q : nat) (fs : list cstr) (Hs : sentence_at buf q fs).

Lemma field_found i f : fs !! i = Some f → ∃ t post,
  drop q buf = fields (take i fs) ++ f ++ t :: post ∧ is_end t ∧
  NMEA_Comma_Pos buf (Some q) (Z.of_nat i) = Ret (Z.of_nat (length (fields (take i fs)))) ∧
  (length (fields (take i fs)) + length f < 255)%nat.
Proof.
  intros Hi. destruct Hs as [Hp Hl [post Ht]].
  destruct (joined_split fs i f post Hi) as (t & post' & E & Hend & Hlen). rewrite E in Ht.
  exists t, post'. split_and!; [done|done| |lia].
  assert (length (take i fs) = i) as Hti.
  { apply lookup_lt_Some in Hi. rewrite length_take. lia. }
  pose proof (joined_length fs). apply lookup_lt_Some in Hi.
  rewrite <- Hti at 1. rewrite (comma_pos_found _ _ _ (f ++ t :: post')); [|by apply Forall_take|done|lia].
  by rewrite u8_small by (unfold is_byte; lia).
Qed.

Lemma read_number i v k : number_at fs i v k →
  field_num buf (Some q) (Z.of_nat i) = Ret (Some (v, Z.of_nat k)).
Proof.
  intros (n & Hi & (Hd & Hf & Hmax) & <- & <-). destruct (field_found i _ Hi) as (t & post & Ht & Hend & Hpos & Hl).
  unfold field_num. rewrite Hpos. cbn [mbind res_bind].
  decide_if (Z.of_nat (length (fields (take i fs))) =? 255) false. rewrite Nat2Z.id.
  unfold num_str, num_text in Hl. rewrite !length_app in Hl.
  assert (length (n_int n) <= 255 ∧ length (n_frac n) <= 255)%nat as [Hli Hlf].
  { destruct (n_frac n); cbn [length] in *; lia. }
  rewrite (str2num_field buf _ (n_neg n) (n_int n) (n_frac n) t post); [done| |done..].
  by eapply drop_at.
Qed.

Lemma read_char i c : fs !! i = Some [c] →
  field_char buf (Some q) (Z.of_nat i) = Ret (Some c).
Proof.
  intros Hi. destruct (field_found i _ Hi) as (t & post & Ht & _ & Hpos & Hl).
  unfold field_char. rewrite Hpos. cbn [mbind res_bind].
  decide_if (Z.of_nat (length (fields (take i fs))) =? 255) false. rewrite Nat2Z.id.
  unfold rd. rewrite <- lookup_drop, Ht, lookup_app_r, Nat.sub_diag by lia. done.
Qed.

Lemma read_missing cx : Z.of_nat (length fs) <= cx < 256 → fs ≠ [] →
  field_num buf (Some q) cx = Ret None.
Proof.
  intros Hcx Hne. destruct (exists_last Hne) as (gs & f & ->).
  destruct Hs as [Hp Hl [post Ht]]. apply Forall_app in Hp as [Hgs Hf]. inversion_clear Hf as [|?? Hf' _].
  rewrite length_app in Hcx. cbn [length] in Hcx.
  assert (joined (gs ++ [f]) = fields gs ++ f) as Hj.
  { clear. induction gs as [|g gs IH]; [done|]. cbn [app]. rewrite joined_cons by by destruct gs.
    by rewrite IH, fields_cons, <- app_assoc. }
  rewrite Hj, <- app_assoc in Ht. unfold field_num.
  by rewrite (comma_pos_missing buf q gs f 42 post) by (done || lia).
Qed.

Lemma wp_field i v k (Q : option (Z * Z) → gps → Prop) w :
  number_at fs i v k → Q (Some (v, Z.of_nat k)) w → wp (lift (field_num buf (Some q) (Z.of_nat i))) Q w.
Proof. intros Hv HQ. eapply wp_lift; [by apply read_number|done]. Qed.

Lemma wp_number i v k f Q w :
  number_at fs i v k → Q tt (w <| gps_data := f v (gps_data w) |>) →
  wp (assign_num buf (Some q) (Z.of_nat i) f) Q w.
Proof. intros Hv HQ. apply wp_bind. eapply wp_field; [done|]. by apply wp_modify. Qed.

Lemma wp_letter i c f Q w :
  fs !! i = Some [c] → Q tt (w <| gps_data := f c (gps_data w) |>) →
  wp (assign_char buf (Some q) (Z.of_nat i) f) Q w.
Proof. intros Hc HQ. apply wp_bind. eapply wp_lift; [by apply read_char|]. by apply wp_modify. Qed.

(** ** Position *)

(** A GGA sentence: quality, satellites and height. *)
Definition gga_fields (sta n alt : Z) : Prop :=
  byte_at fs 6 sta ∧ byte_at fs 7 n ∧ ∃ k, number_at fs 9 alt k.

Lemma wp_gga sta n alt w :
  strstr_at buf 0 (bytes "$GNGGA") = Ret (Some q) → gga_fields sta n alt →
  wp (NMEA_GNGGA_Analysis buf) (λ _ w', w' = w <| gps_data := (gps_data w) <| gpssta := sta |>
    <| posslnum := n |> <| altitude := alt |> |>) w.
Proof.
  intros Hq ([Hr1 [k1 H1]] & [Hr2 [k2 H2]] & k3 & H3). unfold NMEA_GNGGA_Analysis.
  apply wp_bind. eapply wp_lift; [exact Hq|].
  apply wp_bind. eapply (wp_number 6); [done|]. apply wp_bind. eapply (wp_number 7); [done|].
  eapply (wp_number 9); [done|]. by rewrite !u8_small.
Qed.

(** ** Satellites in use *)

(** A GSA sentence: mode, the twelve satellites and the three dilutions, in hundredths. *)
Definition gsa_fields (mode : Z) (sats : list Z) (p h v : Z) : Prop :=
  byte_at fs 2 mode ∧ length sats = 12%nat ∧ (∀ i s, sats !! i = Some s → byte_at fs (3 + i) s) ∧
  word_at fs 15 p ∧ word_at fs 16 h ∧ word_at fs 17 v.

Lemma wp_gsa_possl sats n i w :
  length (possl (gps_data w)) = 12%nat → (i + n = 12)%nat → length sats = n →
  (∀ j s, sats !! j = Some s → byte_at fs (3 + (i + j)) s) →
  wp (gsa_possl n buf (Some q) i) (λ _ w', w' = w <| gps_data := (gps_data w) <| possl :=
    take i (possl (gps_data w)) ++ sats |> |>) w.
Proof.
  revert n i w. induction sats as [|s sats IH]; intros n i w Hp Hin Hn Hss; cbn [length] in Hn; subst n; cbn [gsa_possl].
  - apply wp_ret. rewrite app_nil_r, take_ge by lia. by destruct w as [[] ? ?].
  - destruct (Hss 0%nat s eq_refl) as [Hr [k Hk]]. rewrite Nat.add_0_r in Hk.
    apply wp_bind. replace (3 + Z.of_nat i) with (Z.of_nat (3 + i)) by lia. eapply wp_field; [done|].
    apply wp_bind. unfold wp at 1, set_possl. rewrite Hp. assert ((i <? 12)%nat = true) as -> by (apply Nat.ltb_lt; lia).
    cbn [set_data modify]. rewrite u8_small by done.
    eapply wp_mono; [apply IH; [by cbn; rewrite length_insert|lia|done|]|].
    + intros j s' Hj. replace (S i + j)%nat with (i + S j)%nat by lia. by apply (Hss (S j)).
    + intros _ ? ->. set (l := possl (gps_data w)) in *.
      assert (take (S i) (<[i := s]> l) ++ sats = take i l ++ s :: sats) as <-; [|done].
      rewrite (take_S_r _ i s) by (rewrite list_lookup_insert_eq by lia; done).
      rewrite take_insert_ge by lia. by rewrite <- app_assoc.
Qed.

Lemma wp_gsa mode sats p h v w :
  strstr_at buf 0 (bytes "$GPGSA") = Ret (Some q) → gsa_fields mode sats p h v →
  length (possl (gps_data w)) = 12%nat →
  wp (NMEA_GPGSA_Analysis buf) (λ _ w', w' = w <| gps_data := (gps_data w) <| fixmode := mode |>
    <| possl := sats |> <| pdop := p |> <| hdop := h |> <| vdop := v |> |>) w.
Proof.
  intros Hq ([Hr1 [k1 H1]] & Hl & Hss & [Hr2 [k2 H2]] & [Hr3 [k3 H3]] & [Hr4 [k4 H4]]) Hp.
  unfold NMEA_GPGSA_Analysis. apply wp_bind. eapply wp_lift; [exact Hq|].
  apply wp_bind. eapply (wp_number 2); [done|]. apply wp_bind.
  eapply wp_mono; [apply (wp_gsa_possl sats 12 0); [done..|exact Hss]|]. intros _ ? ->.
  apply wp_bind. eapply (wp_number 15); [done|]. apply wp_bind. eapply (wp_number 16); [done|].
  eapply (wp_number 17); [done|]. by rewrite !u16_small, u8_small.
Qed.

(** ** Speed *)

(** A VTG sentence: the speed over ground, with at most three decimals, in thousandths. *)
Definition vtg_fields (sp : Z) : Prop :=
  ∃ v k, number_at fs 7 v k ∧ (k <= 3)%nat ∧ sp = v * 10 ^ (3 - Z.of_nat k) ∧ 0 <= sp < 65536.

Lemma wp_vtg sp w :
  strstr_at buf 0 (bytes "$GNVTG") = Ret (Some q) → vtg_fields sp →
  wp (NMEA_GNVTG_Analysis buf) (λ _ w', ∃ t, speed_text sp t ∧
    w' = w <| gps_data := (gps_data w) <| speed := sp |> |>
           <| out := out w ++ [LcdString 100 160 100 16 16 t] |>) w.
Proof.
  intros Hq (v & k & Hv & Hk & Hsp & Hr). unfold NMEA_GNVTG_Analysis. apply wp_bind. eapply wp_lift; [exact Hq|].
  apply wp_bind. eapply (wp_field 7); [done|]. apply wp_bind, wp_modify, wp_bind.
  assert (1 <= 10 ^ (3 - Z.of_nat k)) as Hpow by (pose proof (Z.pow_pos_nonneg 10 (3 - Z.of_nat k)); lia).
  assert (0 <= v < 65536) as Hv' by nia.
  eapply (wp_mono _ (λ _ w', w' = w <| gps_data := (gps_data w) <| speed := sp |> |>)).
  { rewrite u16_small by done. case_if.
    - apply wp_modify. cbn. rewrite NMEA_Pow_small by lia. rewrite <- Hsp, u16_small by done. done.
    - apply wp_ret. assert (k = 3%nat) as -> by lia. rewrite Z.mul_1_r in Hsp. by subst v. }
  intros _ ? ->. apply wp_bind, wp_gets, wp_bind. cbn [gps_data speed].
  destruct (print_speed_near sp Hr) as (t & Ht & Htext). eapply wp_lift; [exact Ht|].
  apply wp_modify. by exists t.
Qed.

(** ** Satellites in view *)

(** The four fields of the satellite [j] of a GSV sentence. *)
Definition sat_at (j : nat) (s : nmea_slmsg) : Prop :=
  byte_at fs (4 + 4 * j) (num s) ∧ byte_at fs (5 + 4 * j) (eledeg s) ∧
  word_at fs (6 + 4 * j) (azideg s) ∧ byte_at fs (7 + 4 * j) (sn s).

Lemma wp_gsv_member cx i v k slx set Q w :
  number_at fs i v k → cx = Z.of_nat i → 0 <= slx < Z.of_nat (length (slmsg (gps_data w))) →
  Q true (w <| gps_data := (gps_data w) <| slmsg := alter (set v) (Z.to_nat slx) (slmsg (gps_data w)) |> |>) →
  wp (gsv_member buf (Some q) cx slx set) Q w.
Proof.
  intros Hv -> Hx HQ. apply wp_bind. eapply wp_field; [done|]. apply wp_bind. unfold wp at 1, set_slmsg.
  decide_if (slx <? Z.of_nat (length (slmsg (gps_data w)))) true. exact HQ.
Qed.

(** The four assignments together. *)
Lemma alter_members (l : list nmea_slmsg) i s : (i < length l)%nat →
  alter (λ x, x <| sn := sn s |>) i (alter (λ x, x <| azideg := azideg s |>) i
    (alter (λ x, x <| eledeg := eledeg s |>) i (alter (λ x, x <| num := num s |>) i l))) = <[i := s]> l.
Proof.
  intros Hi. apply list_eq. intros j. destruct (decide (j = i)) as [->|Hne].
  - rewrite list_lookup_insert_eq, !list_lookup_alter_eq by done.
    destruct (lookup_lt_is_Some_2 l i Hi) as [x ->]. by destruct s.
  - by rewrite list_lookup_insert_ne, !list_lookup_alter_ne by done.
Qed.

Lemma wp_sat {A} j i s (rest : io gps A) Q w :
  let slx := Z.of_nat i in let l := slmsg (gps_data w) in
  sat_at j s → (i < length l)%nat → wp rest Q (w <| gps_data := (gps_data w) <| slmsg := <[i := s]> l |> |>) →
  ∀ stop, wp (ok ← gsv_member buf (Some q) (4 + Z.of_nat j * 4) slx (λ v s, s <| num := u8 v |>);
      if negb ok then stop else
      ok ← gsv_member buf (Some q) (5 + Z.of_nat j * 4) slx (λ v s, s <| eledeg := u8 v |>);
      if negb ok then stop else
      ok ← gsv_member buf (Some q) (6 + Z.of_nat j * 4) slx (λ v s, s <| azideg := u16 v |>);
      if negb ok then stop else
      ok ← gsv_member buf (Some q) (7 + Z.of_nat j * 4) slx (λ v s, s <| sn := u8 v |>);
      if negb ok then stop else rest) Q w.
Proof.
  intros slx l ([Hr1 [k1 H1]] & [Hr2 [k2 H2]] & [Hr3 [k3 H3]] & [Hr4 [k4 H4]]) Hi HQ stop. subst slx l.
  apply wp_bind. eapply wp_gsv_member; [exact H1|lia|lia|]. cbn [negb].
  apply wp_bind. eapply wp_gsv_member; [exact H2|lia|cbn; rewrite !length_alter; lia|]. cbn [negb].
  apply wp_bind. eapply wp_gsv_member; [exact H3|lia|cbn; rewrite !length_alter; lia|]. cbn [negb].
  apply wp_bind. eapply wp_gsv_member; [exact H4|lia|cbn; rewrite !length_alter; lia|]. cbn [negb].
  rewrite !u8_small, !u16_small by done. rewrite Nat2Z.id.
  rewrite <- (alter_members _ i s Hi) in HQ. exact HQ.
Qed.

(** A GSV sentence: the satellites [sats] in order, and no field after the last one
    unless there are four. *)
Definition gsv_fields (sats : list nmea_slmsg) : Prop :=
  fs ≠ [] ∧ (length sats <= 4)%nat ∧ (∀ j s, sats !! j = Some s → sat_at j s) ∧
  (length sats = 4%nat ∨ length fs = (4 + 4 * length sats)%nat).

Definition put_sats (i : nat) (sats l : list nmea_slmsg) : list nmea_slmsg :=
  take i l ++ sats ++ drop (i + length sats) l.

Lemma put_sats_nil i l : put_sats i [] l = l.
Proof. unfold put_sats. cbn. by rewrite Nat.add_0_r, take_drop. Qed.
Lemma put_sats_cons i s sats l : (i < length l)%nat →
  put_sats (S i) sats (<[i := s]> l) = put_sats i (s :: sats) l.
Proof.
  intros Hi. unfold put_sats. rewrite (take_S_r _ i s) by (rewrite list_lookup_insert_eq by lia; done).
  rewrite take_insert_ge, drop_insert_lt, <- app_assoc by lia. cbn. do 4 f_equal. lia.
Qed.
Lemma put_sats_length i sats l : (i + length sats <= length l)%nat → length (put_sats i sats l) = length l.
Proof. intros Hl. unfold put_sats. rewrite !length_app, length_take, length_drop. lia. Qed.
Lemma put_sats_app i s1 s2 l : (i + length (s1 ++ s2) <= length l)%nat →
  put_sats (i + length s1) s2 (put_sats i s1 l) = put_sats i (s1 ++ s2) l.
Proof.
  revert i l. induction s1 as [|s s1 IH]; intros i l Hl; [by rewrite put_sats_nil, Nat.add_0_r|].
  cbn [app length] in *. rewrite <- !put_sats_cons by lia. rewrite <- IH by (rewrite length_insert; lia).
  f_equal. lia.
Qed.

Lemma wp_gsv_sats n j i sats w :
  fs ≠ [] → (n + j = 4)%nat → (length sats <= n)%nat → (i + length sats <= length (slmsg (gps_data w)))%nat →
  (length (slmsg (gps_data w)) <= 12)%nat →
  (∀ m s, sats !! m = Some s → sat_at (j + m) s) →
  length sats = n ∨ length fs = (4 + 4 * (j + length sats))%nat →
  wp (gsv_sats n buf (Some q) (Z.of_nat j) (Z.of_nat i)) (λ slx' w', slx' = Z.of_nat (i + length sats) ∧
    w' = w <| gps_data := (gps_data w) <| slmsg := put_sats i sats (slmsg (gps_data w)) |> |>) w.
Proof.
  intros Hne. revert j i sats w. induction n as [|n IH]; intros j i sats w Hj Hn Hi Hl Hss Hend; cbn [gsv_sats].
  { destruct sats; [|cbn in Hn; lia]. apply wp_ret. rewrite put_sats_nil, Nat.add_0_r. split; [done|].
    by destruct w as [[] ? ?]. }
  destruct sats as [|s sats].
  { apply wp_bind, wp_bind. eapply wp_lift; [apply read_missing; [|done]; cbn in Hend; lia|].
    do 2 apply wp_ret. rewrite put_sats_nil, Nat.add_0_r. split; [done|]. by destruct w as [[] ? ?]. }
  cbn [length] in *. eapply (wp_sat j i s); [specialize (Hss 0%nat s eq_refl); by rewrite Nat.add_0_r in Hss|lia|].
  rewrite u8_small by (unfold is_byte; lia).
  replace (Z.of_nat j + 1) with (Z.of_nat (S j)) by lia. replace (Z.of_nat i + 1) with (Z.of_nat (S i)) by lia.
  eapply wp_mono; [apply (IH (S j) (S i) sats); [lia|lia|cbn; rewrite length_insert; lia|cbn; rewrite length_insert; lia| |lia]|].
  - intros m s' Hm. replace (S j + m)%nat with (j + S m)%nat by lia. by apply Hss.
  - intros slx' w' [-> ->]. split; [lia|]. cbn [gps_data slmsg]. by rewrite <- put_sats_cons by lia.
Qed.

(** ** Time, date and coordinates *)

(** The digits hhmmss of a time, whatever its fraction, and ddmmyy of a date. *)
Definition pairs (v a b c : Z) : Prop :=
  v = 10000 * a + 100 * b + c ∧ 0 <= a < 100 ∧ 0 <= b < 100 ∧ 0 <= c < 100.
Definition clock_at (i : nat) (h m s : Z) : Prop :=
  ∃ v k, number_at fs i v k ∧ pairs (v / 10 ^ Z.of_nat k) h m s.
Definition date_at (i : nat) (d m y : Z) : Prop := ∃ v k, number_at fs i v k ∧ pairs v d m y.

(** [deg] degrees and [r] / 10^[k] minutes: (d)ddmm.mmmm. *)
Definition coord_at (i : nat) (deg r : Z) (k : nat) : Prop :=
  0 <= deg <= 180 ∧ 0 <= r < 10 ^ (Z.of_nat k + 2) ∧ number_at fs i (deg * 10 ^ (Z.of_nat k + 2) + r) k.

Lemma number_bounds i v k : number_at fs i v k → - INT32_MAX <= v <= INT32_MAX ∧ (k <= 5)%nat.
Proof.
  intros (n & _ & (Hi & Hf & Hmax) & <- & <-). unfold scaled, kept in *.
  pose proof (num_value_bound (n_int n) (n_frac n) (Nat.min 5 (length (n_frac n))) Hi Hf).
  split; [|lia]. unfold num_value in *. destruct (n_neg n); lia.
Qed.

Lemma pairs_digits v a b c : pairs v a b c → v / 10000 = a ∧ (v / 100) mod 100 = b ∧ v mod 100 = c.
Proof. intros (-> & Ha & Hb & Hc). dlia. Qed.

Lemma wp_rmc_time h m s w Q : clock_at 1 h m s →
  Q tt (w <| gps_data := (gps_data w) <| utc := (utc (gps_data w)) <| utc_hour := h |>
    <| utc_min := m |> <| utc_sec := s |> |> |>) →
  wp (rmc_time buf (Some q)) Q w.
Proof.
  intros (v & k & Hv & Hp) HQ. destruct (number_bounds _ _ _ Hv) as [Hb Hk].
  apply wp_bind. eapply (wp_field 1); [done|]. apply wp_bind.
  assert (1 <= 10 ^ Z.of_nat k <= 10000000) as Hpow by (apply pow10_bounds; lia).
  destruct (pairs_digits _ _ _ _ Hp) as (<- & <- & <-). destruct Hp as (Hvk & Hh & Hm & Hs').
  assert (0 <= v) as Hv0.
  { destruct (decide (v < 0)); [|lia]. pose proof (Z.div_lt_upper_bound v (10 ^ Z.of_nat k) 0). lia. }
  unfold INT32_MAX in Hb. unfold div_pow. rewrite NMEA_Pow_small, u32_small by lia.
  decide_if (10 ^ Z.of_nat k =? 0) false. eapply wp_lift; [done|]. apply wp_modify.
  by rewrite !u8_small by (unfold is_byte; lia).
Qed.

Lemma wp_rmc_date d m y w Q : date_at 9 d m y →
  Q tt (w <| gps_data := (gps_data w) <| utc := (utc (gps_data w)) <| utc_date := d |>
    <| utc_month := m |> <| utc_year := 2000 + y |> |> |>) →
  wp (rmc_date buf (Some q)) Q w.
Proof.
  intros (v & k & Hv & Hp) HQ. apply wp_bind. eapply (wp_field 9); [done|]. apply wp_modify.
  destruct (pairs_digits _ _ _ _ Hp) as (E1 & E2 & E3). destruct Hp as (Hvk & Hd & Hm & Hy).
  rewrite (u32_small v), E1, E2, E3, !u8_small, u16_small by (unfold is_byte; lia). exact HQ.
Qed.

(** A coordinate: stored, converted and shown with its hemisphere. *)
Lemma wp_coordinate i deg r k (set : Z → nmea_msg → nmea_msg) (hemi : gps → Z) (o : cstr → output) Q w :
  coord_at i deg r k →
  (∀ c d m s, let w1 := w <| gps_data := set c (gps_data w) |> in
     near_degrees deg r (Z.of_nat k) c → near_seconds c m s → d = (c / 100000, m, s) →
     Q (Some d) (w1 <| out := out w1 ++ [o (print_dms d (hemi w1))] |>)) →
  wp (r ← lift (field_num buf (Some q) (Z.of_nat i));
      match r with
      | Some (v, dx) =>
          c ← lift (to_degrees (u32 v) dx);
          set_data (set c) ;;
          d ← lift (dms c);
          h ← gets hemi;
          t ← lift (sprintf (print_dms d h));
          emit (o t) ;;
          mret (Some d)
      | None => mret None
      end) Q w.
Proof.
  intros (Hdeg & Hr & Hv) HQ. destruct (number_bounds _ _ _ Hv) as [Hb Hk]. unfold INT32_MAX in Hb.
  apply wp_bind. eapply wp_field; [done|].
  destruct (to_degrees_near (deg * 10 ^ (Z.of_nat k + 2) + r) (Z.of_nat k) deg r) as (c & Hc & Hnear & Hbound);
    [lia|done..|].
  assert (0 <= deg * 10 ^ (Z.of_nat k + 2)) by (apply Z.mul_nonneg_nonneg; lia).
  apply wp_bind. eapply wp_lift; [rewrite u32_small by lia; exact Hc|]. apply wp_bind, wp_modify.
  destruct (dms_near c Hbound) as (m & s & Hd & Hs'). apply wp_bind. eapply wp_lift; [exact Hd|].
  apply wp_bind, wp_gets, wp_bind. eapply wp_lift; [apply sprintf_dms|]. apply wp_bind, wp_modify, wp_ret.
  by apply (HQ c (c / 100000, m, s) m s).
Qed.

Lemma wp_rmc_log lon lat t w (Q : unit → gps → Prop) :
  let g := gps_data w in
  print_speed (speed g) = Ret t →
  Q tt (MkGps g (if count w <? 200 then count w else 0) (out w ++
    (if count w <? 200 then [] else [Log (print_dms lon (ewhemi g)); Log (print_dms lat (nshemi g)); Log t]))) →
  wp (rmc_log (Some lon) (Some lat)) Q w.
Proof.
  intros g Ht HQ. unfold rmc_log. apply wp_bind, wp_gets. destruct w as [g' c o]. cbn [gps_data count out] in *.
  subst g. destruct (Z.ltb_spec c 200) as [Hc|Hc].
  - decide_if (200 <=? c) false. apply wp_ret. by rewrite app_nil_r in HQ.
  - decide_if (200 <=? c) true. apply wp_bind, wp_modify.
    do 2 (apply wp_bind; eapply wp_lift; [done|]; apply wp_bind, wp_gets, wp_bind;
      eapply wp_lift; [apply sprintf_dms|]; apply wp_bind, wp_modify).
    apply wp_bind, wp_gets, wp_bind. eapply wp_lift; [exact Ht|]. apply wp_modify.
    cbn. by rewrite <- !app_assoc.
Qed.

(** An RMC sentence. *)
Record rmc_values : Type := MkRmcValues {
  v_hour : Z; v_min : Z; v_sec : Z; v_ns : Z; v_ew : Z; v_date : Z; v_month : Z; v_year : Z;
  lat_deg : Z; lat_min : Z; lat_places : nat; lon_deg : Z; lon_min : Z; lon_places : nat }.
Definition rmc_fields (v : rmc_values) : Prop :=
  clock_at 1 (v_hour v) (v_min v) (v_sec v) ∧ fs !! 4%nat = Some [v_ns v] ∧ fs !! 6%nat = Some [v_ew v] ∧
  coord_at 3 (lat_deg v) (lat_min v) (lat_places v) ∧ coord_at 5 (lon_deg v) (lon_min v) (lon_places v) ∧
  date_at 9 (v_date v) (v_month v) (v_year v).

(** What an RMC sentence leaves: the members, the count of sentences, which starts again at
    200, the two lines of the display and, at the 200th sentence, the log. *)
Definition rmc_stored (v : rmc_values) (w w' : gps) : Prop :=
  ∃ lat lon tlat tlon tsp,
    near_degrees (lat_deg v) (lat_min v) (Z.of_nat (lat_places v)) lat ∧
    near_degrees (lon_deg v) (lon_min v) (Z.of_nat (lon_places v)) lon ∧
    dms_text lat (v_ns v) tlat ∧ dms_text lon (v_ew v) tlon ∧ speed_text (speed (gps_data w)) tsp ∧
    gps_data w' = (gps_data w)
      <| utc := MkUtc (2000 + v_year v) (v_month v) (v_date v) (v_hour v) (v_min v) (v_sec v) |>
      <| nshemi := v_ns v |> <| latitude := lat |> <| ewhemi := v_ew v |> <| longitude := lon |> ∧
    count w' = (if count w + 1 <? 200 then count w + 1 else 0) ∧
    out w' = out w ++ [LcdString 108 120 100 16 16 tlat; LcdString 108 80 100 16 16 tlon] ++
      (if count w + 1 <? 200 then [] else [Log tlon; Log tlat; Log tsp]).

Lemma wp_rmc v w :
  strstr_at buf 0 (bytes "GNRMC") = Ret (Some q) → rmc_fields v →
  0 <= count w < 65535 → 0 <= speed (gps_data w) < 65536 →
  wp (NMEA_GNRMC_Analysis buf) (λ _ w', rmc_stored v w w') w.
Proof.
  intros Hq (Ht & Hns & Hew & Hlat & Hlon & Hdate) Hc Hsp. unfold NMEA_GNRMC_Analysis.
  apply wp_bind, wp_modify, wp_bind. eapply wp_lift; [exact Hq|].
  apply wp_bind. eapply wp_rmc_time; [exact Ht|]. apply wp_bind. eapply (wp_letter 4); [exact Hns|].
  apply wp_bind. eapply (wp_coordinate 3 _ _ _ (λ c g, g <| latitude := c |>)); [exact Hlat|].
  intros lat dlat m1 s1 w1 Hnear1 Hsec1 Hd1.
  apply wp_bind. eapply (wp_letter 6); [exact Hew|].
  apply wp_bind. eapply (wp_coordinate 5 _ _ _ (λ c g, g <| longitude := c |>)); [exact Hlon|].
  intros lon dlon m2 s2 w2 Hnear2 Hsec2 Hd2.
  apply wp_bind. eapply wp_rmc_date; [exact Hdate|].
  destruct (print_speed_near _ Hsp) as (tsp & Hps & Htsp).
  eapply wp_rmc_log; [exact Hps|]. subst w1 w2 dlat dlon. destruct w as [g c o].
  cbn [count] in *. exists lat, lon, (print_dms (lat / 100000, m1, s1) (v_ns v)),
    (print_dms (lon / 100000, m2, s2) (v_ew v)), tsp.
  split; [done|]. split; [done|]. split; [by exists m1, s1|]. split; [by exists m2, s2|]. split; [done|].
  cbn. rewrite u16_small by lia. split; [done|]. split; [done|]. by rewrite <- !app_assoc.
Qed.
End sentence.

(** The GSV sentences of a line, one after the other, each with its satellites. *)
Fixpoint gsv_chain (buf : list Z) (p : nat) (ms : list (list cstr * list nmea_slmsg)) : Prop :=
  match ms with
  | [] => True
  | (fs, sats) :: ms => ∃ q, strstr_at buf p (bytes "$GPGSV") = Ret (Some q) ∧
      sentence_at buf q fs ∧ gsv_fields fs sats ∧ gsv_chain buf (S q) ms
  end.
Definition in_view (ms : list (list cstr * list nmea_slmsg)) : list nmea_slmsg := concat (snd <$> ms).

Lemma wp_gsv_messages buf ms p i w :
  gsv_chain buf p ms → (i + length (in_view ms) <= length (slmsg (gps_data w)))%nat →
  (length (slmsg (gps_data w)) <= 12)%nat →
  wp (gsv_messages (length ms) buf p (Z.of_nat i)) (λ _ w',
    w' = w <| gps_data := (gps_data w) <| slmsg := put_sats i (in_view ms) (slmsg (gps_data w)) |> |>) w.
Proof.
  revert p i w. induction ms as [|[fs sats] ms IH]; intros p i w Hc Hi Hl; cbn [length gsv_messages].
  { apply wp_ret. cbn. rewrite put_sats_nil. by destruct w as [[] ? ?]. }
  destruct Hc as (q & Hq & Hsent & (Hne & Hn & Hs & Hend) & Hc).
  change (in_view ((fs, sats) :: ms)) with (sats ++ in_view ms) in *. rewrite length_app in Hi.
  apply wp_bind. eapply wp_lift; [exact Hq|]. apply wp_bind.
  eapply wp_mono; [apply (wp_gsv_sats buf q fs Hsent 4 0 i sats); [done|done|lia|lia|done|exact Hs|lia]|].
  intros slx' w' [-> ->]. eapply wp_mono; [apply IH; [done|..]|].
  - cbn. rewrite put_sats_length; lia.
  - cbn. rewrite put_sats_length; lia.
  - intros _ ? ->. cbn [gps_data slmsg]. by rewrite <- put_sats_app by (rewrite length_app; lia).
Qed.

(** The header of the first sentence: how many there are and how many satellites. *)
Definition gsv_header (fs : list cstr) (total n : Z) : Prop :=
  fs !! 0%nat = Some (bytes "$GPGSV") ∧ total <= 9 ∧ fs !! 1%nat = Some [48 + total] ∧ byte_at fs 3 n.

Lemma wp_gsv buf fs sats ms n w :
  gsv_chain buf 0 ((fs, sats) :: ms) → gsv_header fs (Z.of_nat (S (length ms))) n →
  (length (sats ++ in_view ms) <= 12)%nat → length (slmsg (gps_data w)) = 12%nat →
  wp (NMEA_GPGSV_Analysis buf) (λ _ w', w' = w <| gps_data := (gps_data w) <| svnum := n |>
    <| slmsg := (sats ++ in_view ms) ++ drop (length (sats ++ in_view ms)) (slmsg (gps_data w)) |> |>) w.
Proof.
  intros Hc (H0 & H9 & H1 & [Hn [k Hk]]) Hmax Hl. pose proof Hc as (q & Hq & Hsent & _).
  unfold NMEA_GPGSV_Analysis. apply wp_bind. eapply wp_lift; [exact Hq|]. apply wp_bind.
  destruct (field_found buf q fs Hsent 1 _ H1) as (t & post & Ht & _).
  assert (rd buf (q + 7) = Ret (48 + Z.of_nat (S (length ms)))) as Hrd.
  { unfold rd. rewrite <- lookup_drop, Ht, (take_S_r _ 0 _ H0). done. }
  eapply wp_lift; [exact Hrd|]. apply wp_bind. eapply (wp_number buf q fs Hsent 3); [done|].
  rewrite Z.add_simpl_l, u8_small, (u8_small n), Nat2Z.id by (unfold is_byte; lia).
  eapply wp_mono; [apply (wp_gsv_messages buf ((fs, sats) :: ms) 0 0); [done|..]|].
  - cbn [gps_data slmsg]. change (in_view ((fs, sats) :: ms)) with (sats ++ in_view ms). cbn; lia.
  - cbn. lia.
  - intros _ ? ->. done.
Qed.


(** * Concrete sentences *)

(** A line with the sentence of the fields [fs], and stale zeros behind it. *)
Definition line_of (fs : list string) : list Z :=
  let l := joined (bytes <$> fs) ++ bytes "*00" in l ++ replicate (512 - length l) 0.

Lemma line_sentence fs :
  Forall (Forall (λ c, plain c = true)) (bytes <$> fs) → (length (joined (bytes <$> fs)) < 255)%nat →
  sentence_at (line_of fs) 0 (bytes <$> fs).
Proof.
  intros Hp Hl. split; [done|done|]. eexists. unfold line_of. rewrite drop_0, <- app_assoc. reflexivity.
Qed.

Definition vtg_line : list string := ["$GNVTG"; "123.4"; "T"; ""; "M"; "10.8"; "N"; "20.02"; "K"].

Definition rmc_line : list string :=
  ["GNRMC"; "081836.00"; "A"; "3751.6500"; "S"; "14507.3600"; "E"; "0.0"; "360.0"; "130998"; ""; "E"].
Definition rmc_read : rmc_values := MkRmcValues 8 18 36 83 69 13 9 98 37 516500 4 145 73600 4.

(** A field of a concrete sentence. *)
Ltac number_here i f :=
  exists (MkNumber false (bytes i) (bytes f)); split_and!; [reflexivity|repeat constructor..|];
  vm_compute; congruence.


Example vtg_shown :
  match NMEA_GNVTG_Analysis (line_of vtg_line) gps0 with
  | Ret (_, w) => speed (gps_data w) = 20020 ∧ out w = [LcdString 100 160 100 16 16 (bytes "20.02  km/h" ++ [LF])]
  | Fault _ => False
  end.
Proof. vm_compute. done. Qed.

Example rmc_shown :
  match NMEA_GNRMC_Analysis (line_of rmc_line) gps0 with
  | Ret (_, w) => latitude (gps_data w) = 3786083 ∧ longitude (gps_data w) = 14512267 ∧
      out w = [LcdString 108 120 100 16 16 (bytes "37:51`38" ++ [34] ++ bytes "  S" ++ [LF]);
               LcdString 108 80 100 16 16 (bytes "145: 7`21" ++ [34] ++ bytes "  E" ++ [LF])]
  | Fault _ => False
  end.
Proof. vm_compute. done. Qed.
