(* ===== verification/Rc522.v ===== *)
(** RFID reader driver: applications/rc522.c and rc522.h.

    The SPI peripheral, the chip-select pin and the MFRC522 behind them are hardware:
    the interface [SpiBus] lists the accesses the driver makes to them, and every
    driver function is a state-passing computation over such a device.  Arrays that C
    leaves indeterminate are lists of options: reading a [None] is the fault
    [Uninitialised], an index outside the array the fault [OutOfBounds]. *)

From S2P Require Import Prelude CLib.

(** * Commands, registers and status values (rc522.h) *)

Definition PCD_IDLE := 0.
Definition PCD_AUTHENT := 14.
Definition PCD_TRANSCEIVE := 12.
Definition PCD_RESETPHASE := 15.
Definition PCD_CALCCRC := 3.

Definition PICC_REQALL := 82.
Definition PICC_ANTICOLL1 := 147.
Definition PICC_READ := 48.
Definition PICC_WRITE := 160.
Definition PICC_HALT := 80.

Definition MAXRLEN := 18.

Definition CommandReg := 1.
Definition ComIEnReg := 2.
Definition ComIrqReg := 4.
Definition DivIrqReg := 5.
Definition ErrorReg := 6.
Definition Status2Reg := 8.
Definition FIFODataReg := 9.
Definition FIFOLevelReg := 10.
Definition ControlReg := 12.
Definition BitFramingReg := 13.
Definition CollReg := 14.
Definition ModeReg := 17.
Definition TxControlReg := 20.
Definition TxAutoReg := 21.
Definition RxSelReg := 23.
Definition CRCResultRegM := 33.
Definition CRCResultRegL := 34.
Definition RFCfgReg := 38.
Definition TModeReg := 42.
Definition TPrescalerReg := 43.
Definition TReloadRegH := 44.
Definition TReloadRegL := 45.

Definition MI_OK := 0.
Definition MI_NOTAGERR := 1.
Definition MI_ERR := 2.

(** * Local arrays *)

Abbreviation buffer := (list (option Z)) (only parsing).

Definition rdb (buf : buffer) (i : Z) : res Z :=
  match buf !! Z.to_nat i with
  | Some (Some v) => Ret v
  | Some None => Fault Uninitialised
  | None => Fault OutOfBounds
  end.
Definition wrb (buf : buffer) (i v : Z) : res buffer :=
  if i <? Z.of_nat (length buf) then Ret (<[Z.to_nat i := Some v]> buf) else Fault OutOfBounds.

(** [unsigned char ucComMF522Buf[MAXRLEN]]. *)
Definition fresh : buffer := replicate 18 None.

(** * The device *)

(** The peripheral accesses of the driver.  [spi_patience] bounds the number of polls
    of a status bit that the model follows before it calls the driver [Blocked]. *)
Class SpiBus (D : Type) : Type := {
  spi_patience : nat;
  spi_sr : D → Z * D;
  spi_dr_read : D → Z * D;
  spi_dr_write : Z → D → D;
  rt_pin_write : bool → D → D;
  rt_pin_mode : D → D;
  HAL_SPI_Init : D → bool * D;
  rt_thread_delay : Z → D → D }.

Definition device {D A} (f : D → A * D) : io D A := λ d, let '(a, d') := f d in Ret (a, d').

Section driver.
Context {D : Type} `{SpiBus D}.

(** [while ((SPI1->SR & mask) == 0);] *)
Fixpoint spi_wait (fuel : nat) (mask : Z) : io D unit :=
  match fuel with
  | O => io_fault Blocked
  | S fuel =>
      sr ← device spi_sr;
      if Z.land sr mask =? 0 then spi_wait fuel mask else mret tt
  end.

Definition SPIWriteByte (Byte : Z) : io D Z :=
  spi_wait spi_patience 2 ;;
  modify (spi_dr_write Byte) ;;
  spi_wait spi_patience 1 ;;
  v ← device spi_dr_read;
  mret (u8 v).
Definition SPIReadByte : io D Z := SPIWriteByte 0.

Definition delay_ns (ns : Z) : io D unit := for_ (Z.to_nat ns) 0 (λ _, mret tt).

(** [Error_Handler] never returns. *)
Definition MX_SPI1_Init : io D unit :=
  ok ← device HAL_SPI_Init;
  if ok : bool then mret tt else io_fault Blocked.

Definition SPI1_Init : io D unit :=
  modify rt_pin_mode ;;
  modify (rt_pin_write true) ;;
  MX_SPI1_Init ;;
  SPIWriteByte 255 ;;
  mret tt.

(** * Registers *)

Definition ReadRawRC (Address : Z) : io D Z :=
  modify (rt_pin_write false) ;;
  let ucAddr := Z.lor (Z.land (u8 (Z.shiftl Address 1)) 126) 128 in
  SPIWriteByte ucAddr ;;
  ucResult ← SPIReadByte;
  modify (rt_pin_write true) ;;
  mret ucResult.

Definition WriteRawRC (Address value : Z) : io D unit :=
  modify (rt_pin_write false) ;;
  let ucAddr := Z.land (u8 (Z.shiftl Address 1)) 126 in
  SPIWriteByte ucAddr ;;
  SPIWriteByte value ;;
  modify (rt_pin_write true).

Definition SetBitMask (reg mask : Z) : io D unit :=
  tmp ← ReadRawRC reg;
  WriteRawRC reg (u8 (Z.lor tmp mask)).

Definition ClearBitMask (reg mask : Z) : io D unit :=
  tmp ← ReadRawRC reg;
  WriteRawRC reg (u8 (Z.land tmp (Z.lnot mask))).

(** * Talking to a card *)

(** [switch (Command)]: (irqEn, waitFor). *)
Definition com_irq (Command : Z) : Z * Z :=
  if Command =? PCD_AUTHENT then (18, 16)
  else if Command =? PCD_TRANSCEIVE then (119, 48)
  else (0, 0).

(** [for (i = 0; i < len; i++) WriteRawRC(FIFODataReg, pIn[off + i])]. *)
Definition fifo_write (pIn : buffer) (len : Z) : io D unit :=
  for_ (Z.to_nat len) 0 (λ i, v ← lift (rdb pIn i); WriteRawRC FIFODataReg v).

(** [do { n = ReadRawRC(reg); i--; } while ((i!=0) && !(n & mask))]: (n, i). *)
Fixpoint poll (i : nat) (reg mask : Z) : io D (Z * nat) :=
  match i with
  | O => mret (0, O)
  | S i =>
      n ← ReadRawRC reg;
      if negb (i =? 0)%nat && (Z.land n mask =? 0) then poll i reg mask else mret (n, i)
  end.

Definition poll_limit : nat := Z.to_nat 100000.

(** [for (i = 0; i < n; i++) pOut[i] = ReadRawRC(FIFODataReg)]. *)
Fixpoint fifo_read (n : nat) (i : Z) (pOut : buffer) : io D buffer :=
  match n with
  | O => mret pOut
  | S n =>
      v ← ReadRawRC FIFODataReg;
      pOut ← lift (wrb pOut i v);
      fifo_read n (i + 1) pOut
  end.

(** The received bytes: (pOut, value of pOutLenBit). *)
Definition com_receive (pOut : buffer) : io D (buffer * Z) :=
  n ← ReadRawRC FIFOLevelReg;
  c ← ReadRawRC ControlReg;
  let lastBits := Z.land c 7 in
  let bits := if negb (lastBits =? 0) then u8 ((n - 1) * 8 + lastBits) else u8 (n * 8) in
  let n := if n =? 0 then 1 else n in
  let n := if MAXRLEN <? n then MAXRLEN else n in
  pOut ← fifo_read (Z.to_nat n) 0 pOut;
  mret (pOut, bits).

(** (status, pOut, pOutLenBit); the length is left alone ([None]) unless a
    transceive succeeds. *)
Definition PcdComMF522 (Command : Z) (pIn : buffer) (InLenByte : Z) (pOut : buffer) :
    io D (Z * buffer * option Z) :=
  let '(irqEn, waitFor) := com_irq Command in
  WriteRawRC ComIEnReg (Z.lor irqEn 128) ;;
  ClearBitMask ComIrqReg 128 ;;
  WriteRawRC CommandReg PCD_IDLE ;;
  SetBitMask FIFOLevelReg 128 ;;
  fifo_write pIn InLenByte ;;
  WriteRawRC CommandReg Command ;;
  (if Command =? PCD_TRANSCEIVE then SetBitMask BitFramingReg 128 else mret tt) ;;
  '(n, i) ← poll poll_limit ComIrqReg (Z.lor 1 waitFor);
  ClearBitMask BitFramingReg 128 ;;
  r ← (if (i =? 0)%nat then mret (MI_ERR, pOut, None)
       else
         e ← ReadRawRC ErrorReg;
         if negb (Z.land e 27 =? 0) then mret (MI_ERR, pOut, None)
         else
           let status :=
             if negb (Z.land (Z.land n irqEn) 1 =? 0) then MI_NOTAGERR else MI_OK in
           if Command =? PCD_TRANSCEIVE then
             '(pOut, bits) ← com_receive pOut;
             mret (status, pOut, Some bits)
           else mret (status, pOut, None));
  SetBitMask ControlReg 128 ;;
  WriteRawRC CommandReg PCD_IDLE ;;
  mret r.

(** [CalulateCRC(buf, len, &buf[off])]: the buffer with the two CRC bytes. *)
Definition CalulateCRC (buf : buffer) (len off : Z) : io D buffer :=
  ClearBitMask DivIrqReg 4 ;;
  WriteRawRC CommandReg PCD_IDLE ;;
  SetBitMask FIFOLevelReg 128 ;;
  fifo_write buf len ;;
  WriteRawRC CommandReg PCD_CALCCRC ;;
  '(n, i) ← poll 255 DivIrqReg 4;
  lo ← ReadRawRC CRCResultRegL;
  buf ← lift (wrb buf off lo);
  hi ← ReadRawRC CRCResultRegM;
  lift (wrb buf (off + 1) hi).

(** Reading a length that was never written. *)
Definition known (len : option Z) : res Z :=
  match len with Some n => Ret n | None => Fault Uninitialised end.

(** [(status == MI_OK) && (unLen == want)]; [&&] does not read [unLen] otherwise. *)
Definition ok_with (status : Z) (len : option Z) (want : Z) : res bool :=
  if status =? MI_OK then n ← known len; Ret (n =? want) else Ret false.

(** (status, pTagType). *)
Definition PcdRequest (req_code : Z) (pTagType : buffer) : io D (Z * buffer) :=
  ClearBitMask Status2Reg 8 ;;
  WriteRawRC BitFramingReg 7 ;;
  SetBitMask TxControlReg 3 ;;
  buf ← lift (wrb fresh 0 req_code);
  '(status, buf, unLen) ← PcdComMF522 PCD_TRANSCEIVE buf 1 buf;
  ok ← lift (ok_with status unLen 16);
  if ok : bool then
    a ← lift (rdb buf 0);
    pTagType ← lift (wrb pTagType 0 a);
    b ← lift (rdb buf 1);
    pTagType ← lift (wrb pTagType 1 b);
    mret (status, pTagType)
  else mret (MI_ERR, pTagType).

(** [for (i = 0; i < 4; i++) { pSnr[i] = buf[i]; snr_check ^= buf[i]; }]. *)
Fixpoint copy_check (n : nat) (i : Z) (buf pSnr : buffer) (check : Z) : res (buffer * Z) :=
  match n with
  | O => Ret (pSnr, check)
  | S n =>
      v ← rdb buf i;
      pSnr ← wrb pSnr i v;
      copy_check n (i + 1) buf pSnr (Z.lxor check v)
  end.

(** (status, pSnr). *)
Definition PcdAnticoll (pSnr : buffer) : io D (Z * buffer) :=
  ClearBitMask Status2Reg 8 ;;
  WriteRawRC BitFramingReg 0 ;;
  ClearBitMask CollReg 128 ;;
  buf ← lift (wrb fresh 0 PICC_ANTICOLL1);
  buf ← lift (wrb buf 1 32);
  '(status, buf, unLen) ← PcdComMF522 PCD_TRANSCEIVE buf 2 buf;
  '(status, pSnr) ←
    (if status =? MI_OK then
       '(pSnr, snr_check) ← lift (copy_check 4 0 buf pSnr 0);
       c ← lift (rdb buf 4);
       mret (if negb (snr_check =? c) then MI_ERR else status, pSnr)
     else mret (status, pSnr));
  SetBitMask CollReg 128 ;;
  mret (status, pSnr).

(** [for (i = 0; i < 4; i++) { buf[i+2] = pSnr[i]; buf[6] ^= pSnr[i]; }]. *)
Fixpoint select_fill (n : nat) (i : Z) (buf pSnr : buffer) : res buffer :=
  match n with
  | O => Ret buf
  | S n =>
      v ← rdb pSnr i;
      buf ← wrb buf (i + 2) v;
      x ← rdb buf 6;
      buf ← wrb buf 6 (Z.lxor x v);
      select_fill n (i + 1) buf pSnr
  end.

Definition PcdSelect (pSnr : buffer) : io D Z :=
  buf ← lift (wrb fresh 0 PICC_ANTICOLL1);
  buf ← lift (wrb buf 1 112);
  buf ← lift (wrb buf 6 0);
  buf ← lift (select_fill 4 0 buf pSnr);
  buf ← CalulateCRC buf 7 7;
  ClearBitMask Status2Reg 8 ;;
  '(status, buf, unLen) ← PcdComMF522 PCD_TRANSCEIVE buf 9 buf;
  ok ← lift (ok_with status unLen 24);
  mret (if ok : bool then MI_OK else MI_ERR).

(** [memcpy(&dst[off], src, n)]. *)
Fixpoint copy_bytes (n : nat) (i : Z) (dst : buffer) (off : Z) (src : buffer) : res buffer :=
  match n with
  | O => Ret dst
  | S n =>
      v ← rdb src i;
      dst ← wrb dst (off + i) v;
      copy_bytes n (i + 1) dst off src
  end.

Definition PcdAuthState (auth_mode addr : Z) (pKey pSnr : buffer) : io D Z :=
  buf ← lift (wrb fresh 0 auth_mode);
  buf ← lift (wrb buf 1 addr);
  buf ← lift (copy_bytes 6 0 buf 2 pKey);
  buf ← lift (copy_bytes 4 0 buf 8 pSnr);
  '(status, _, _) ← PcdComMF522 PCD_AUTHENT buf 12 buf;
  if negb (status =? MI_OK) then mret MI_ERR
  else
    s ← ReadRawRC Status2Reg;
    mret (if Z.land s 8 =? 0 then MI_ERR else status).

(** (status, p). *)
Definition PcdRead (addr : Z) (p : buffer) : io D (Z * buffer) :=
  buf ← lift (wrb fresh 0 PICC_READ);
  buf ← lift (wrb buf 1 addr);
  buf ← CalulateCRC buf 2 2;
  '(status, buf, unLen) ← PcdComMF522 PCD_TRANSCEIVE buf 4 buf;
  ok ← lift (ok_with status unLen 144);
  if ok : bool then
    p ← lift (copy_bytes 16 0 p 0 buf);
    mret (status, p)
  else mret (MI_ERR, p).

(** [(status != MI_OK) || (unLen != 4) || ((buf[0] & 0x0F) != 0x0A)]. *)
Definition no_ack (status : Z) (unLen : option Z) (buf : buffer) : res bool :=
  if negb (status =? MI_OK) then Ret true
  else
    n ← known unLen;
    if negb (n =? 4) then Ret true
    else c ← rdb buf 0; Ret (negb (Z.land c 15 =? 10)).

Definition PcdWrite (addr : Z) (p : buffer) : io D Z :=
  buf ← lift (wrb fresh 0 PICC_WRITE);
  buf ← lift (wrb buf 1 addr);
  buf ← CalulateCRC buf 2 2;
  '(status, buf, unLen) ← PcdComMF522 PCD_TRANSCEIVE buf 4 buf;
  bad ← lift (no_ack status unLen buf);
  let status := if bad : bool then MI_ERR else status in
  if status =? MI_OK then
    buf ← lift (copy_bytes 16 0 buf 0 p);
    buf ← CalulateCRC buf 16 16;
    '(status, buf, unLen) ← PcdComMF522 PCD_TRANSCEIVE buf 18 buf;
    bad ← lift (no_ack status unLen buf);
    mret (if bad : bool then MI_ERR else status)
  else mret status.

Definition PcdHalt : io D Z :=
  buf ← lift (wrb fresh 0 PICC_HALT);
  buf ← lift (wrb buf 1 0);
  buf ← CalulateCRC buf 2 2;
  '(status, _, _) ← PcdComMF522 PCD_TRANSCEIVE buf 4 buf;
  mret status.

(** * Configuration *)

Definition PcdAntennaOn : io D unit :=
  i ← ReadRawRC TxControlReg;
  if Z.land i 3 =? 0 then SetBitMask TxControlReg 3 else mret tt.

Definition PcdAntennaOff : io D unit := ClearBitMask TxControlReg 3.

Definition PcdReset : io D Z :=
  modify (rt_pin_write true) ;;
  delay_ns 10 ;;
  modify (rt_pin_write false) ;;
  delay_ns 10 ;;
  modify (rt_pin_write true) ;;
  delay_ns 10 ;;
  WriteRawRC CommandReg PCD_RESETPHASE ;;
  WriteRawRC CommandReg PCD_RESETPHASE ;;
  delay_ns 10 ;;
  WriteRawRC ModeReg 61 ;;
  WriteRawRC TReloadRegL 30 ;;
  WriteRawRC TReloadRegH 0 ;;
  WriteRawRC TModeReg 141 ;;
  WriteRawRC TPrescalerReg 62 ;;
  WriteRawRC TxAutoReg 64 ;;
  mret MI_OK.

Definition M500PcdConfigISOType (type : Z) : io D Z :=
  if type =? 65 then
    ClearBitMask Status2Reg 8 ;;
    WriteRawRC ModeReg 61 ;;
    WriteRawRC RxSelReg 134 ;;
    WriteRawRC RFCfgReg 127 ;;
    WriteRawRC TReloadRegL 30 ;;
    WriteRawRC TReloadRegH 0 ;;
    WriteRawRC TModeReg 141 ;;
    WriteRawRC TPrescalerReg 62 ;;
    delay_ns 1000 ;;
    PcdAntennaOn ;;
    mret MI_OK
  else mret 1.

Definition InitRc522 : io D unit :=
  SPI1_Init ;;
  PcdReset ;;
  PcdAntennaOff ;;
  modify (rt_thread_delay 2) ;;
  PcdAntennaOn ;;
  M500PcdConfigISOType 65 ;;
  mret tt.

Definition Reset_RC522 : io D unit :=
  PcdReset ;;
  PcdAntennaOff ;;
  modify (rt_thread_delay 2) ;;
  PcdAntennaOn.
End driver.

(** * The card identity *)

(** The globals [CT], [SN], [Card_flag] and [num], the device and the console. *)
Record rc522 (D : Type) : Type := MkRc {
  dev : D; CT : buffer; SN : buffer; Card_flag : Z; num : list Z; console : cstr }.
Arguments MkRc {D}.
Arguments dev {D}.
Arguments CT {D}.
Arguments SN {D}.
Arguments Card_flag {D}.
Arguments num {D}.
Arguments console {D}.
#[export] Instance eta_rc {D} : Eta (rc522 D) := λ r,
  MkRc (dev r) (CT r) (SN r) (Card_flag r) (num r) (console r).

(** A driver call made by a function that also uses the globals. *)
Definition on_dev {D A} (m : io D A) : io (rc522 D) A := λ r,
  match m (dev r) with
  | Ret (a, d) => Ret (a, r <| dev := d |>)
  | Fault f => Fault f
  end.

Definition rt_kprintf {D} (s : cstr) : io (rc522 D) unit :=
  modify (λ r, r <| console := console r ++ s |>).

(** [x > 9 ? (x += '7') : (x += '0')]. *)
Definition hex_char (x : Z) : Z := if 9 <? x then u8 (x + 55) else u8 (x + 48).

Definition TurnID {D} (p : buffer) : io (rc522 D) unit :=
  for_ 4 0 (λ i,
    v ← lift (rdb p i);
    let hi := hex_char (Z.shiftr v 4) in
    let lo := hex_char (Z.land v 15) in
    modify (λ r, r <| num := <[Z.to_nat (i * 2 + 1) := lo]> (<[Z.to_nat (i * 2) := hi]> (num r)) |>) ;;
    rt_kprintf [hi; lo]) ;;
  rt_kprintf [CR; LF] ;;
  modify (λ r, r <| num := <[8%nat := 0]> (num r) |>).

Definition ReadID {D} `{SpiBus D} : io (rc522 D) Z :=
  ct ← gets CT;
  '(status, ct) ← on_dev (PcdRequest PICC_REQALL ct);
  modify (λ r, r <| CT := ct |>) ;;
  on_dev PcdReset ;;
  on_dev PcdAntennaOff ;;
  on_dev PcdAntennaOn ;;
  ct ← gets CT;
  '(status, ct) ← on_dev (PcdRequest PICC_REQALL ct);
  modify (λ r, r <| CT := ct |>) ;;
  status ← (if status =? MI_OK then
              sn ← gets SN;
              '(status, sn) ← on_dev (PcdAnticoll sn);
              modify (λ r, r <| SN := sn |>) ;;
              mret status
            else mret status);
  if status =? MI_OK then
    modify (λ r, r <| Card_flag := 1 |>) ;;
    sn ← gets SN;
    for_ 4 0 (λ i, v ← lift (rdb sn i); rt_kprintf (print_hex v)) ;;
    rt_kprintf [CR; LF] ;;
    TurnID sn ;;
    modify (λ r, r <| SN := replicate 4 (Some 0) |>) ;;
    mret MI_ERR
  else mret status.
