(* ===== verification/Rc522Spec.v ===== *)
(** Properties of the RFID driver (Rc522.v).

    [Mfrc522] is the interface the upper half of the driver is verified against: a
    register file reached by [ReadRawRC] and [WriteRawRC].  [SpiLaws] states what the
    SPI peripheral and the chip's byte protocol have to do for that interface to hold.
    What a driver function does to the chip is a trace of register accesses. *)

From S2P Require Import Prelude CLib Rc522.

(** * The byte protocol *)

(** A bus that answers every poll in time: writing the data register exchanges a byte
    with the chip, which sees chip-select edges and bytes. *)
Class SpiLaws (D : Type) `{SpiBus D} : Type := {
  select : bool → D → D;
  exchange : Z → D → Z * D;
  spi_ready : D → Prop;
  select_law : ∀ b d, rt_pin_write b d = select b d;
  select_ready : ∀ b d, spi_ready d → spi_ready (select b d);
  exchange_law : ∀ b d, spi_ready d → SPIWriteByte b d = Ret (exchange b d);
  exchange_ready : ∀ b d, spi_ready d → spi_ready (exchange b d).2 }.

(** The bytes of a register access, between a falling and a rising chip-select edge. *)
Fixpoint frame {D} `{SpiLaws D} (bs : list Z) (last : Z) (d : D) : Z * D :=
  match bs with
  | [] => (last, d)
  | b :: bs => let '(v, d) := exchange b d in frame bs v d
  end.
Definition transaction {D} `{SpiLaws D} (bs : list Z) (d : D) : Z * D :=
  let '(v, d) := frame bs 0 (select false d) in (v, select true d).

Lemma address_byte a : 0 <= a < 64 →
  Z.land (u8 (Z.shiftl a 1)) 126 = 2 * a ∧ Z.lor (Z.land (u8 (Z.shiftl a 1)) 126) 128 = 2 * a + 128.
Proof.
  intros Ha.
  assert (Forall (λ a, Z.land (u8 (Z.shiftl a 1)) 126 = 2 * a ∧
    Z.lor (Z.land (u8 (Z.shiftl a 1)) 126) 128 = 2 * a + 128) (seqZ 0 64)) as Hall
    by (change (seqZ 0 64) with (ltac:(let l := eval vm_compute in (seqZ 0 64) in exact l)); repeat constructor).
  rewrite Forall_forall in Hall. apply Hall, elem_of_seqZ. lia.
Qed.

(** * Register traces *)

Inductive event : Type :=
  | Rd (a v : Z)
  | Wr (a v : Z)
  | Cs (level : bool).

(** The register-file view of the chip. *)
Class Mfrc522 (D : Type) `{SpiBus D} : Type := {
  reg_read : Z → D → Z * D;
  reg_write : Z → Z → D → D;
  idle : D → Prop;
  read_law : ∀ a d, 0 <= a < 64 → idle d →
    ReadRawRC a d = Ret (reg_read a d) ∧ is_byte (reg_read a d).1 ∧ idle (reg_read a d).2;
  write_law : ∀ a v d, 0 <= a < 64 → is_byte v → idle d →
    WriteRawRC a v d = Ret (tt, reg_write a v d) ∧ idle (reg_write a v d);
  pin_law : ∀ b d, idle d → idle (rt_pin_write b d) }.

Section traces.
Context {D : Type} `{Mfrc522 D}.

(** [replay t d = Some d']: the chip in state [d] can go through the accesses [t],
    its reads returning the values of [t], and ends in [d']. *)
Fixpoint replay (t : list event) (d : D) : option D :=
  match t with
  | [] => Some d
  | Rd a v :: t =>
      let '(v', d') := reg_read a d in if v =? v' then replay t d' else None
  | Wr a v :: t => replay t (reg_write a v d)
  | Cs b :: t => replay t (rt_pin_write b d)
  end.

Lemma replay_app t1 t2 d :
  replay (t1 ++ t2) d = d' ← replay t1 d; replay t2 d'.
Proof.
  revert d. induction t1 as [|[a v|a v|b] t1 IH]; intros d; cbn; [done| |apply IH..].
  destruct (reg_read a d) as [v' d']. case_if; [apply IH|done].
Qed.

(** From every idle chip, [m] returns a value after a trace that satisfy [Q]
    together, or stops with a fault that satisfies [P]. *)
Definition does {A} (P : fault → Prop) (m : io D A) (Q : A → list event → Prop) : Prop :=
  ∀ d, idle d →
    match m d with
    | Ret (a, d') => ∃ t, replay t d = Some d' ∧ idle d' ∧ Q a t
    | Fault f => P f
    end.

Lemma does_bind {A B} P (m : io D A) (k : A → io D B) Q Q' :
  does P m Q → (∀ a t, Q a t → does P (k a) (λ b t', Q' b (t ++ t'))) →
  does P (mbind k m) Q'.
Proof.
  intros Hm Hk d Hd. specialize (Hm d Hd). unfold mbind, io_bind.
  destruct (m d) as [[a d1]|f]; [|done]. destruct Hm as (t & Ht & Hd1 & HQ).
  specialize (Hk a t HQ d1 Hd1). destruct (k a d1) as [[b d2]|f]; [|done].
  destruct Hk as (t' & Ht' & Hd2 & HQ'). exists (t ++ t'). split; [|done].
  by rewrite replay_app, Ht.
Qed.

Lemma does_mono {A} P (m : io D A) (Q Q' : A → list event → Prop) :
  does P m Q → (∀ a t, Q a t → Q' a t) → does P m Q'.
Proof.
  intros Hm HQ d Hd. specialize (Hm d Hd). destruct (m d) as [[a d']|f]; [|done].
  destruct Hm as (t & ? & ? & ?). eauto.
Qed.

Lemma does_weaken {A} (P P' : fault → Prop) (m : io D A) Q :
  (∀ f, P f → P' f) → does P m Q → does P' m Q.
Proof.
  intros HP Hm d Hd. specialize (Hm d Hd). destruct (m d) as [[a d']|f]; auto.
Qed.

Lemma does_ret {A} P (a : A) (Q : A → list event → Prop) : Q a [] → does P (mret a) Q.
Proof. intros HQ d Hd. by exists []. Qed.

Lemma does_lift {A} P (r : res A) (Q : A → list event → Prop) a :
  r = Ret a → Q a [] → does P (lift r) Q.
Proof. intros -> HQ d Hd. by exists []. Qed.

Lemma does_lift_or {A} (P : fault → Prop) (r : res A) :
  may_fault P (λ _, True) r → does P (lift r) (λ a t, r = Ret a ∧ t = []).
Proof. intros Hr d Hd. unfold lift. destruct r; [by exists []|done]. Qed.

Lemma does_read P a :
  0 <= a < 64 → does P (ReadRawRC a) (λ v t, is_byte v ∧ t = [Rd a v]).
Proof.
  intros Ha d Hd. destruct (read_law a d Ha Hd) as (-> & Hb & Hi).
  destruct (reg_read a d) as [v d'] eqn:E. exists [Rd a v]. cbn.
  rewrite E, Z.eqb_refl. done.
Qed.

Lemma does_write P a v :
  0 <= a < 64 → is_byte v → does P (WriteRawRC a v) (λ _ t, t = [Wr a v]).
Proof.
  intros Ha Hv d Hd. destruct (write_law a v d Ha Hv Hd) as (-> & Hi). by exists [Wr a v].
Qed.

Lemma does_pin P b : does P (modify (rt_pin_write b)) (λ _ t, t = [Cs b]).
Proof. intros d Hd. exists [Cs b]. split; [done|]. by split; [apply pin_law|]. Qed.

Lemma does_delay P ns : does P (delay_ns ns) (λ _ t, t = []).
Proof.
  unfold delay_ns. generalize 0. induction (Z.to_nat ns) as [|n IH]; intros lo; cbn [for_].
  - by apply does_ret.
  - eapply (does_bind _ _ _ (λ _ t, t = [])); [by apply does_ret|]. intros _ ? ->. apply IH.
Qed.

(** ** Bit masks *)

Definition set_bits (r m x : Z) : list event := [Rd r x; Wr r (u8 (Z.lor x m))].
Definition clear_bits (r m x : Z) : list event := [Rd r x; Wr r (u8 (Z.land x (Z.lnot m)))].

Lemma does_set P r m :
  0 <= r < 64 → does P (SetBitMask r m) (λ _ t, ∃ x, is_byte x ∧ t = set_bits r m x).
Proof.
  intros Hr. eapply does_bind; [by apply does_read|]. intros x ? [Hx ->].
  eapply does_mono; [apply does_write; [done|apply u8_byte]|]. cbn. intros _ ? ->. eauto.
Qed.

Lemma does_clear P r m :
  0 <= r < 64 → does P (ClearBitMask r m) (λ _ t, ∃ x, is_byte x ∧ t = clear_bits r m x).
Proof.
  intros Hr. eapply does_bind; [by apply does_read|]. intros x ? [Hx ->].
  eapply does_mono; [apply does_write; [done|apply u8_byte]|]. cbn. intros _ ? ->. eauto.
Qed.
End traces.

(** * The register interface over SPI *)

Section frames.
Context {D : Type} `{SpiLaws D}.

Lemma select_modify b (d : D) : modify (rt_pin_write b) d = Ret (tt, select b d).
Proof. unfold modify. by rewrite select_law. Qed.

Lemma exchange_byte b (d : D) : spi_ready d → is_byte (exchange b d).1.
Proof.
  intros Hd. pose proof (exchange_law b d Hd) as Hx. unfold SPIWriteByte in Hx.
  unfold mbind, io_bind in Hx.
  destruct (spi_wait _ _ d) as [[[] d1]|]; [|done].
  destruct (modify _ d1) as [[[] d2]|]; [|done].
  destruct (spi_wait _ _ d2) as [[[] d3]|]; [|done].
  destruct (device spi_dr_read d3) as [[v d4]|]; [|done].
  injection Hx as <-. apply u8_byte.
Qed.

Lemma read_frame a (d : D) :
  0 <= a < 64 → spi_ready d → ReadRawRC a d = Ret (transaction [2 * a + 128; 0] d).
Proof.
  intros Ha Hd. unfold ReadRawRC. rewrite (proj2 (address_byte a Ha)).
  unfold mbind, io_bind. rewrite select_modify.
  pose proof (select_ready false d Hd) as Hd1. rewrite exchange_law by done.
  pose proof (exchange_ready (2 * a + 128) _ Hd1) as Hd2.
  unfold transaction, frame. destruct (exchange _ (select false d)) as [v d1].
  cbn in Hd2. unfold SPIReadByte. rewrite exchange_law by done.
  destruct (exchange 0 d1) as [v' d2]. by rewrite select_modify.
Qed.

Lemma write_frame a v (d : D) :
  0 <= a < 64 → spi_ready d → WriteRawRC a v d = Ret (tt, (transaction [2 * a; v] d).2).
Proof.
  intros Ha Hd. unfold WriteRawRC. rewrite (proj1 (address_byte a Ha)).
  unfold mbind, io_bind. rewrite select_modify.
  pose proof (select_ready false d Hd) as Hd1. rewrite exchange_law by done.
  pose proof (exchange_ready (2 * a) _ Hd1) as Hd2.
  unfold transaction, frame. destruct (exchange _ (select false d)) as [v1 d1].
  cbn in Hd2. rewrite exchange_law by done.
  destruct (exchange v d1) as [v' d2]. by rewrite select_modify.
Qed.

Lemma transaction_ready bs (d : D) : spi_ready d → spi_ready (transaction bs d).2.
Proof.
  intros Hd. unfold transaction.
  assert (∀ last d, spi_ready d → spi_ready (frame bs last d).2) as Hf.
  { clear d Hd. induction bs as [|b bs IH]; intros last d Hd; cbn [frame]; [done|].
    pose proof (exchange_ready b d Hd). destruct (exchange b d). by apply IH. }
  specialize (Hf 0 _ (select_ready false d Hd)). destruct (frame _ _ _). by apply select_ready.
Qed.

(** The SPI side implements the register file: a read is the two-byte transaction
    [2a + 128, 0], a write [2a, v]. *)
#[export] Program Instance spi_mfrc522 : Mfrc522 D := {
  reg_read a d := transaction [2 * a + 128; 0] d;
  reg_write a v d := (transaction [2 * a; v] d).2;
  idle := spi_ready }.
Next Obligation.
  intros a d Ha Hd. cbn. split; [by apply read_frame|]. split; [|by apply transaction_ready].
  unfold transaction, frame. pose proof (select_ready false d Hd) as Hd1.
  pose proof (exchange_ready (2 * a + 128) _ Hd1) as Hd2. destruct (exchange _ (select _ _)) as [v d1].
  pose proof (exchange_byte 0 d1 Hd2). by destruct (exchange 0 d1).
Qed.
Next Obligation.
  intros a v d Ha Hv Hd. cbn. split; [by apply write_frame|by apply transaction_ready].
Qed.
Next Obligation.
  intros b d Hd. cbn. rewrite select_law. by apply select_ready.
Qed.
End frames.

(** * The card exchange *)

Section exchange.
Context {D : Type} `{Mfrc522 D}.

Definition bytes_at (buf : list (option Z)) (bs : list Z) : Prop :=
  ∀ i b, bs !! i = Some b → buf !! i = Some (Some b).

Lemma rdb_at buf i (b : Z) : buf !! i = Some (Some b) → rdb buf (Z.of_nat i) = Ret b.
Proof. unfold rdb. rewrite Nat2Z.id. by intros ->. Qed.

Lemma does_fifo_write P buf bs :
  bytes_at buf bs → Forall is_byte bs →
  does P (fifo_write buf (Z.of_nat (length bs))) (λ _ t, t = Wr FIFODataReg <$> bs).
Proof.
  intros Hb Hbs. unfold fifo_write. rewrite Nat2Z.id.
  assert (∀ k, (∀ i b, bs !! i = Some b → buf !! (k + i)%nat = Some (Some b)) →
    does P (for_ (length bs) (Z.of_nat k) (λ i, v ← lift (rdb buf i); WriteRawRC FIFODataReg v))
      (λ _ t, t = Wr FIFODataReg <$> bs)) as Hgen; [|by apply (Hgen 0%nat)].
  clear Hb. induction Hbs as [|b bs Hb _ IH]; intros k Hk; cbn [length for_].
  { by apply does_ret. }
  eapply (does_bind _ _ _ (λ _ t, t = [Wr FIFODataReg b])).
  - eapply (does_bind _ _ _ (λ v t, v = b ∧ t = [])).
    + eapply does_lift; [apply rdb_at|done]. specialize (Hk 0%nat b eq_refl).
      by rewrite Nat.add_0_r in Hk.
    + intros v ? [-> ->]. by apply does_write.
  - intros _ ? ->. eapply does_mono.
    + replace (Z.of_nat k + 1) with (Z.of_nat (S k)) by lia. apply IH.
      intros i c Hi. specialize (Hk (S i) c Hi). by replace (S k + i)%nat with (k + S i)%nat by lia.
    + cbn. by intros _ t ->.
Qed.

(** The values a polling loop reads: none but the last has a bit of the mask. *)
Inductive polled (mask : Z) : nat → list Z → Z → nat → Prop :=
  | polled_last i n : i = O ∨ Z.land n mask ≠ 0 → polled mask (S i) [n] n i
  | polled_more i n ns n' i' :
      i ≠ O → Z.land n mask = 0 → polled mask i ns n' i' → polled mask (S i) (n :: ns) n' i'.

Lemma does_poll P reg mask i :
  0 <= reg < 64 → i ≠ O →
  does P (poll i reg mask)
    (λ '(n, i') t, is_byte n ∧ ∃ ns, polled mask i ns n i' ∧ t = Rd reg <$> ns).
Proof.
  intros Hr. induction i as [|i IH]; intros Hi; [done|]. cbn [poll].
  eapply does_bind; [by apply does_read|]. intros n ? [Hn ->].
  destruct (negb (i =? 0)%nat && (Z.land n mask =? 0)) eqn:E.
  - apply andb_true_iff in E as [E1 E2]. apply negb_true_iff, Nat.eqb_neq in E1. bool_prop.
    eapply does_mono; [by apply IH|]. intros [n' i'] t (Hn' & ns & Hp & ->).
    split; [done|]. exists (n :: ns). split; [by constructor|done].
  - apply does_ret. split; [done|]. exists [n]. split; [|done]. constructor.
    apply andb_false_iff in E as [E|E]; [left|right; by bool_prop].
    by apply negb_false_iff, Nat.eqb_eq in E.
Qed.

Lemma wrb_ok buf i v :
  (Z.to_nat i < length buf)%nat → 0 <= i → wrb buf i v = Ret (<[Z.to_nat i := Some v]> buf).
Proof. intros Hi Hi0. unfold wrb. by decide_if (i <? Z.of_nat (length buf)) true. Qed.

Lemma does_fifo_read P n : ∀ k out,
  (k + n <= length out)%nat →
  does P (fifo_read n (Z.of_nat k) out)
    (λ out' t, ∃ bs, length bs = n ∧ Forall is_byte bs ∧ t = Rd FIFODataReg <$> bs ∧
       out' = take k out ++ (Some <$> bs) ++ drop (k + n) out).
Proof.
  induction n as [|n IH]; intros k out Hk; cbn [fifo_read].
  - apply does_ret. exists []. rewrite Nat.add_0_r. cbn. by rewrite take_drop.
  - eapply does_bind; [by apply does_read|]. intros v ? [Hv ->].
    eapply does_bind; [eapply (does_lift _ _ (λ o t, o = <[k := Some v]> out ∧ t = []));
      [rewrite wrb_ok, Nat2Z.id by lia; done|done]|].
    intros ? ? [-> ->]. eapply does_mono.
    + replace (Z.of_nat k + 1) with (Z.of_nat (S k)) by lia.
      apply IH. rewrite length_insert. lia.
    + cbn. intros out' t (bs & Hl & Hbs & -> & ->). exists (v :: bs).
      split; [cbn; lia|]. split; [by constructor|]. split; [done|].
      rewrite (take_S_r _ _ (Some v)) by (apply list_lookup_insert_eq; lia).
      rewrite take_insert_ge, drop_insert_lt by lia. rewrite <- app_assoc.
      by rewrite Nat.add_succ_r.
Qed.

(** ** The exchange as a trace *)

Definition irq_status (cmd n : Z) : Z :=
  if Z.land (Z.land n (com_irq cmd).1) 1 =? 0 then MI_OK else MI_NOTAGERR.
(** The number of bits of an answer, as stored in the caller's [rt_uint8_t]. *)
Definition bit_length (l c : Z) : Z :=
  if Z.land c 7 =? 0 then u8 (l * 8) else u8 ((l - 1) * 8 + Z.land c 7).
(** The number of bytes fetched: at least one, and never more than the buffer holds. *)
Definition fifo_count (l : Z) : Z := Z.min MAXRLEN (Z.max 1 l).

(** What follows the polling, given the last interrupt bits and the polls left. *)
Inductive answer (cmd : Z) (out : list (option Z)) (n : Z) :
    nat → Z → list (option Z) → option Z → list event → Prop :=
  | answer_timeout : answer cmd out n 0 MI_ERR out None []
  | answer_error i e :
      i ≠ O → Z.land e 27 ≠ 0 → answer cmd out n i MI_ERR out None [Rd ErrorReg e]
  | answer_auth i e :
      i ≠ O → Z.land e 27 = 0 → cmd ≠ PCD_TRANSCEIVE →
      answer cmd out n i (irq_status cmd n) out None [Rd ErrorReg e]
  | answer_data i e l c bs :
      i ≠ O → Z.land e 27 = 0 → cmd = PCD_TRANSCEIVE →
      is_byte l → Forall is_byte bs → Z.of_nat (length bs) = fifo_count l →
      answer cmd out n i (irq_status cmd n) ((Some <$> bs) ++ drop (length bs) out)
        (Some (bit_length l c))
        ([Rd ErrorReg e; Rd FIFOLevelReg l; Rd ControlReg c] ++ (Rd FIFODataReg <$> bs)).

(** One exchange: interrupts enabled and cleared, the FIFO flushed and filled with the
    input, the command started, the interrupt register polled, the answer fetched,
    and in every case the timer stopped and the chip put to idle at the end. *)
Definition com_spec (cmd : Z) (ins : list Z) (out : list (option Z))
    (r : Z * list (option Z) * option Z) (t : list event) : Prop :=
  let '(status, out', len) := r in
  ∃ irq fl start ns n i bf ans ctl,
    t = [Wr ComIEnReg (Z.lor (com_irq cmd).1 128)] ++ clear_bits ComIrqReg 128 irq ++
        [Wr CommandReg PCD_IDLE] ++ set_bits FIFOLevelReg 128 fl ++
        (Wr FIFODataReg <$> ins) ++ [Wr CommandReg cmd] ++ start ++
        (Rd ComIrqReg <$> ns) ++ clear_bits BitFramingReg 128 bf ++ ans ++
        set_bits ControlReg 128 ctl ++ [Wr CommandReg PCD_IDLE] ∧
    (if cmd =? PCD_TRANSCEIVE then ∃ x, start = set_bits BitFramingReg 128 x else start = []) ∧
    polled (Z.lor 1 (com_irq cmd).2) poll_limit ns n i ∧
    answer cmd out n i status out' len ans.

Lemma does_receive P out n cmd i e :
  length out = 18%nat → i ≠ O → Z.land e 27 = 0 → cmd = PCD_TRANSCEIVE →
  does P (com_receive out)
    (λ '(out', bits) t, answer cmd out n i (irq_status cmd n) out' (Some bits) (Rd ErrorReg e :: t)).
Proof.
  intros Hout Hi He Hc. unfold com_receive.
  eapply does_bind; [by apply does_read|]. intros l ? [Hl ->].
  eapply does_bind; [by apply does_read|]. intros c ? [_ ->]. cbv zeta.
  set (m := if MAXRLEN <? (if l =? 0 then 1 else l) then MAXRLEN else (if l =? 0 then 1 else l)).
  assert (m = fifo_count l) as Hm
    by (unfold fifo_count, MAXRLEN, is_byte in *; subst m;
        destruct (l =? 0) eqn:El; bool_prop; case_if; lia).
  assert (1 <= m <= 18) as Hb by (rewrite Hm; unfold fifo_count, MAXRLEN; lia).
  eapply does_bind; [apply (does_fifo_read _ _ 0); lia|].
  intros out' ? (bs & Hbs & Hby & -> & ->). apply does_ret.
  rewrite Nat.add_0_l, <- Hbs. cbn [take app]. rewrite app_nil_r.
  assert ((if negb (Z.land c 7 =? 0) then u8 ((l - 1) * 8 + Z.land c 7) else u8 (l * 8)) =
    bit_length l c) as -> by (unfold bit_length; by destruct (Z.land c 7 =? 0)).
  apply answer_data; [done..|lia].
Qed.

(** The shared lemma behind every card command. *)
Lemma does_com P cmd pIn ins out :
  cmd = PCD_AUTHENT ∨ cmd = PCD_TRANSCEIVE → bytes_at pIn ins → Forall is_byte ins →
  length out = 18%nat →
  does P (PcdComMF522 cmd pIn (Z.of_nat (length ins)) out) (com_spec cmd ins out).
Proof.
  intros Hc Hin Hby Hout. unfold PcdComMF522, com_spec.
  destruct (com_irq cmd) as [irqEn waitFor] eqn:Hirq. cbn [fst snd].
  assert (is_byte (Z.lor irqEn 128) ∧ is_byte cmd) as [Hb1 Hb2]
    by (destruct Hc as [-> | ->]; injection Hirq as <- <-; done).
  eapply does_bind; [by apply does_write|]. intros _ ? ->.
  eapply does_bind; [by apply does_clear|]. intros _ ? (irq & _ & ->).
  eapply does_bind; [by apply does_write|]. intros _ ? ->.
  eapply does_bind; [by apply does_set|]. intros _ ? (fl & _ & ->).
  eapply does_bind; [by apply does_fifo_write|]. intros _ ? ->.
  eapply does_bind; [by apply does_write|]. intros _ ? ->.
  eapply (does_bind _ _ _ (λ _ t, if cmd =? PCD_TRANSCEIVE
    then ∃ x, t = set_bits BitFramingReg 128 x else t = [])).
  { case_if; [eapply does_mono; [by apply does_set|]; cbn; intros _ t (x & _ & ->); eauto|].
    by apply does_ret. }
  intros _ start Hstart.
  eapply does_bind; [apply does_poll; [done|unfold poll_limit; lia]|].
  intros [n i] ? (Hn & ns & Hns & ->).
  eapply does_bind; [by apply does_clear|]. intros _ ? (bf & _ & ->).
  eapply (does_bind _ _ _ (λ '(status, out', len) t, answer cmd out n i status out' len t)).
  { case_if; [apply Nat.eqb_eq in E as ->; apply does_ret, answer_timeout|].
    apply Nat.eqb_neq in E.
    eapply does_bind; [by apply does_read|]. intros e ? [_ ->].
    case_if; [apply does_ret; by apply answer_error|].
    assert ((if negb (Z.land (Z.land n irqEn) 1 =? 0) then MI_NOTAGERR else MI_OK) =
      irq_status cmd n) as -> by (unfold irq_status; rewrite Hirq; by destruct (_ =? 0)).
    case_if; [|apply does_ret; by apply answer_auth].
    eapply does_bind; [by apply (does_receive _ out n cmd i e)|].
    intros [out' bits] t Ht. apply does_ret. by rewrite app_nil_r. }
  intros [[status out'] len] ans Hans.
  eapply does_bind; [by apply does_set|]. intros _ ? (ctl & _ & ->).
  eapply does_bind; [by apply does_write|]. intros _ ? ->.
  apply does_ret. rewrite app_nil_r.
  exists irq, fl, start, ns, n, i, bf, ans, ctl. by split.
Qed.
End exchange.
