(* ===== verification/Rc522Card.v ===== *)
(** The card commands of the RFID driver (Rc522.v), proved over the register traces of
    Rc522Spec.v, and a simulated chip on which they run. *)

From S2P Require Import Prelude CLib Rc522 Rc522Spec.

Definition never (f : fault) : Prop := False.

Ltac byte_list := repeat (apply Forall_cons_2; [done|]); apply Forall_nil_2.

Section card.
Context {D : Type} `{Mfrc522 D}.

(** The bytes a trace fetched from the FIFO, in order, and those it put in. *)
Definition fetched (t : list event) : list Z :=
  omap (λ e, match e with Rd a v => if a =? FIFODataReg then Some v else None | _ => None end) t.
Definition sent (t : list event) : list Z :=
  omap (λ e, match e with Wr a v => if a =? FIFODataReg then Some v else None | _ => None end) t.

Lemma fetched_app t1 t2 : fetched (t1 ++ t2) = fetched t1 ++ fetched t2.
Proof. apply omap_app. Qed.
Lemma sent_app t1 t2 : sent (t1 ++ t2) = sent t1 ++ sent t2.
Proof. apply omap_app. Qed.
Lemma fetched_wr r bs : fetched (Wr r <$> bs) = [].
Proof. by induction bs. Qed.
Lemma sent_rd r bs : sent (Rd r <$> bs) = [].
Proof. by induction bs. Qed.
Lemma fetched_rd bs : fetched (Rd FIFODataReg <$> bs) = bs.
Proof. induction bs; cbn; [done|]. by f_equal. Qed.
Lemma sent_wr bs : sent (Wr FIFODataReg <$> bs) = bs.
Proof. induction bs; cbn; [done|]. by f_equal. Qed.
Lemma fetched_other r bs : r ≠ FIFODataReg → fetched (Rd r <$> bs) = [].
Proof. intros Hr. induction bs; cbn; [done|]. by decide_if (r =? FIFODataReg) false. Qed.

(** What an exchange sent and fetched, and how its results relate to that. *)
Record exchanged (ins : list Z) (out : list (option Z)) (status : Z)
    (out' : list (option Z)) (len : option Z) (t : list event) : Prop := {
  ex_sent : sent t = ins;
  ex_status : status = MI_OK ∨ status = MI_NOTAGERR ∨ status = MI_ERR;
  ex_bytes : Forall is_byte (fetched t);
  ex_length : length out' = length out;
  ex_data : status ≠ MI_ERR → ∃ l c,
    is_byte l ∧ len = Some (bit_length l c) ∧
    Z.of_nat (length (fetched t)) = fifo_count l ∧
    out' = (Some <$> fetched t) ++ drop (length (fetched t)) out }.

Lemma com_spec_exchanged ins out status out' len t :
  length out = 18%nat →
  com_spec PCD_TRANSCEIVE ins out (status, out', len) t →
  exchanged ins out status out' len t.
Proof.
  intros Hout (irq & fl & start & ns & n & i & bf & ans & ctl & -> & (x & ->) & _ & Hans).
  assert (Hf : ∀ a, fetched ([Wr ComIEnReg (Z.lor (com_irq PCD_TRANSCEIVE).1 128)] ++
    clear_bits ComIrqReg 128 irq ++ [Wr CommandReg PCD_IDLE] ++ set_bits FIFOLevelReg 128 fl ++
    (Wr FIFODataReg <$> ins) ++ [Wr CommandReg PCD_TRANSCEIVE] ++ set_bits BitFramingReg 128 x ++
    (Rd ComIrqReg <$> ns) ++ clear_bits BitFramingReg 128 bf ++ a ++
    set_bits ControlReg 128 ctl ++ [Wr CommandReg PCD_IDLE]) = fetched a).
  { intros a. rewrite !fetched_app, fetched_wr, fetched_other by done. cbn. by rewrite app_nil_r. }
  assert (Hs : sent ans = []).
  { destruct Hans; cbn; try done. by rewrite sent_rd. }
  split.
  - rewrite !sent_app, sent_wr, sent_rd, Hs. cbn. by rewrite app_nil_r.
  - destruct Hans; auto; unfold irq_status; case_if; auto.
  - rewrite Hf. destruct Hans; cbn; try by constructor. by rewrite fetched_rd.
  - destruct Hans; try done. rewrite length_app, length_fmap, length_drop.
    match goal with Hl : Z.of_nat _ = fifo_count _ |- _ =>
      unfold fifo_count, MAXRLEN in Hl end. lia.
  - intros Hst. rewrite Hf. destruct Hans as [| |? ? ? ? Hc|i e l c bs]; try done.
    exists l, c. cbn. rewrite fetched_rd. done.
Qed.

Lemma does_transceive pIn ins out :
  bytes_at pIn ins → Forall is_byte ins → length out = 18%nat →
  does never (PcdComMF522 PCD_TRANSCEIVE pIn (Z.of_nat (length ins)) out)
    (λ '(status, out', len) t, exchanged ins out status out' len t).
Proof.
  intros Hin Hb Hout. eapply does_mono; [by apply does_com; auto|].
  intros [[status out'] len] t. by apply com_spec_exchanged.
Qed.

Lemma does_poll_any P reg mask i :
  0 <= reg < 64 → reg ≠ FIFODataReg → i ≠ O →
  does P (poll i reg mask) (λ _ t, fetched t = [] ∧ sent t = []).
Proof.
  intros Hr Hf Hi. eapply does_mono; [by apply does_poll|].
  intros [n i'] t (_ & ns & _ & ->). split; [by apply fetched_other|apply sent_rd].
Qed.

Lemma does_crc P buf ins off :
  bytes_at buf ins → Forall is_byte ins → (off + 2 <= length buf)%nat →
  does P (CalulateCRC buf (Z.of_nat (length ins)) (Z.of_nat off))
    (λ buf' t, fetched t = [] ∧ sent t = ins ∧ ∃ lo hi, is_byte lo ∧ is_byte hi ∧
       buf' = <[S off := Some hi]> (<[off := Some lo]> buf)).
Proof.
  intros Hin Hb Hoff. unfold CalulateCRC.
  eapply does_bind; [by apply does_clear|]. intros _ ? (x1 & _ & ->).
  eapply does_bind; [by apply does_write|]. intros _ ? ->.
  eapply does_bind; [by apply does_set|]. intros _ ? (x2 & _ & ->).
  eapply does_bind; [by apply does_fifo_write|]. intros _ ? ->.
  eapply does_bind; [by apply does_write|]. intros _ ? ->.
  eapply does_bind; [by apply does_poll_any|]. intros [n i] tp [Hp1 Hp2].
  eapply does_bind; [by apply does_read|]. intros lo ? [Hlo ->].
  eapply (does_bind _ _ _ (λ b t, b = <[off := Some lo]> buf ∧ t = [])).
  { eapply does_lift; [rewrite wrb_ok, Nat2Z.id by lia; done|done]. }
  intros ? ? [-> ->].
  eapply does_bind; [by apply does_read|]. intros hi ? [Hhi ->].
  eapply does_lift.
  { rewrite wrb_ok by (rewrite ?length_insert; lia).
    replace (Z.to_nat (Z.of_nat off + 1)) with (S off) by lia. done. }
  rewrite !fetched_app, !sent_app, Hp1, Hp2, fetched_wr, sent_wr. cbn.
  rewrite app_nil_r. eauto 8.
Qed.

Lemma ins2 (buf : list (option Z)) a b rest :
  buf = Some a :: Some b :: rest → bytes_at buf [a; b].
Proof. intros -> [|[|i]] c; cbn; by intros [= <-]. Qed.

(** ** Anticollision *)

Lemma copy_check_spec b0 b1 b2 b3 rest sn :
  length sn = 4%nat →
  copy_check 4 0 (Some b0 :: Some b1 :: Some b2 :: Some b3 :: rest) sn 0 =
  Ret (Some <$> [b0; b1; b2; b3], Z.lxor (Z.lxor (Z.lxor b0 b1) b2) b3).
Proof.
  intros Hl. destruct sn as [|? [|? [|? [|? [|]]]]]; try done.
Qed.

Lemma does_anticoll sn :
  length sn = 4%nat →
  does (λ f, f = Uninitialised) (PcdAnticoll sn)
    (λ '(status, sn') t,
       sent t = [PICC_ANTICOLL1; 32] ∧
       (status = MI_OK ∨ status = MI_NOTAGERR ∨ status = MI_ERR) ∧
       (status = MI_OK → ∃ b0 b1 b2 b3 rest,
          fetched t = b0 :: b1 :: b2 :: b3 :: Z.lxor (Z.lxor (Z.lxor b0 b1) b2) b3 :: rest ∧
          sn' = Some <$> [b0; b1; b2; b3] ∧ Forall is_byte [b0; b1; b2; b3])).
Proof.
  intros Hsn. unfold PcdAnticoll. destruct sn as [|s0 [|s1 [|s2 [|s3 [|]]]]]; try done.
  eapply does_bind; [by apply does_clear|]. intros _ ? (x1 & _ & ->).
  eapply does_bind; [by apply does_write|]. intros _ ? ->.
  eapply does_bind; [by apply does_clear|]. intros _ ? (x2 & _ & ->).
  set (buf := Some PICC_ANTICOLL1 :: Some 32 :: replicate 16 None).
  eapply (does_bind _ _ _ (λ b t, b = <[0%nat := Some PICC_ANTICOLL1]> fresh ∧ t = [])); [by eapply does_lift|].
  intros ? ? [-> ->].
  eapply (does_bind _ _ _ (λ b t, b = buf ∧ t = [])); [by eapply does_lift|]. intros ? ? [-> ->].
  eapply does_bind; [eapply does_weaken, (does_transceive buf [PICC_ANTICOLL1; 32] buf);
    [done|by eapply ins2|by repeat constructor|done]|].
  intros [[status out] len] t [Hs Hst Hby _ Hd]. cbn [fst snd].
  eapply (does_bind _ _ _ (λ '(st, sn') t', t' = [] ∧
    (st = MI_OK ∨ st = MI_NOTAGERR ∨ st = MI_ERR) ∧
    (st = MI_OK → ∃ b0 b1 b2 b3 rest,
      fetched t = b0 :: b1 :: b2 :: b3 :: Z.lxor (Z.lxor (Z.lxor b0 b1) b2) b3 :: rest ∧
      sn' = Some <$> [b0; b1; b2; b3] ∧ Forall is_byte [b0; b1; b2; b3]))).
  - case_if; [|apply does_ret; done]. subst status.
    destruct Hd as (l & c & Hl & _ & Hn & ->); [done|].
    assert (1 <= fifo_count l) as Hc by (unfold fifo_count, MAXRLEN; lia).
    destruct (fetched t) as [|b0 [|b1 [|b2 [|b3 [|b4 rest]]]]]; [cbn in Hn; lia|..];
      [intros d Hdd; subst buf; unfold mbind, io_bind, lift; exact eq_refl..|].
    eapply (does_bind _ _ _ (λ r t', t' = [] ∧ r = (Some <$> [b0; b1; b2; b3],
      Z.lxor (Z.lxor (Z.lxor b0 b1) b2) b3))).
    { eapply does_lift; [by apply copy_check_spec|done]. }
    intros ? ? [-> ->]. eapply (does_bind _ _ _ (λ r t', t' = [] ∧ r = b4)); [by eapply does_lift|].
    intros ? ? [-> ->]. apply does_ret. split; [done|]. case_if; [split; [auto|done]|].
    split; [auto|]. intros _. exists b0, b1, b2, b3, rest. subst.
    split; [done|]. split; [done|]. by apply (Forall_take _ 4) in Hby.
  - intros [st sn'] ? (-> & Hst' & Hok).
    eapply does_bind; [by apply does_set|]. intros _ ? (x3 & _ & ->). apply does_ret.
    rewrite !sent_app, !fetched_app, Hs. cbn. rewrite !app_nil_r. done.
Qed.

(** ** Blocks *)

Lemma copy_bytes_spec (off : nat) src bs : ∀ k dst,
  (∀ i b, bs !! i = Some b → src !! (k + i)%nat = Some (Some b)) →
  (off + k + length bs <= length dst)%nat →
  copy_bytes (length bs) (Z.of_nat k) dst (Z.of_nat off) src =
  Ret (take (off + k) dst ++ (Some <$> bs) ++ drop (off + k + length bs) dst).
Proof.
  induction bs as [|b bs IH]; intros k dst Hs Hl; cbn [length copy_bytes].
  { rewrite Nat.add_0_r. cbn. by rewrite take_drop. }
  cbn [length] in Hl. rewrite (rdb_at src k b).
  2: { specialize (Hs 0%nat b eq_refl). by rewrite Nat.add_0_r in Hs. }
  rewrite res_bind_ret, wrb_ok by lia. rewrite res_bind_ret.
  replace (Z.of_nat k + 1) with (Z.of_nat (S k)) by lia.
  replace (Z.to_nat (Z.of_nat off + Z.of_nat k)) with (off + k)%nat by lia.
  rewrite IH.
  - rewrite Nat.add_succ_r.
    rewrite (take_S_r _ _ (Some b)) by (apply list_lookup_insert_eq; lia).
    rewrite take_insert_ge, drop_insert_lt by lia. rewrite <- app_assoc.
    by rewrite Nat.add_succ_r.
  - intros i c Hi. specialize (Hs (S i) c Hi). by replace (S k + i)%nat with (k + S i)%nat by lia.
  - rewrite length_insert. lia.
Qed.

Lemma land7 c : 0 <= Z.land c 7 < 8.
Proof. change 7 with (Z.ones 3). rewrite Z.land_ones by done. by apply Z.mod_pos_bound. Qed.

Lemma bit_length_block l c : is_byte l → bit_length l c = 144 → 18 <= l.
Proof.
  unfold is_byte, bit_length, u8. pose proof (land7 c). case_if; intros; dlia.
Qed.

Lemma ins_all (bs : list Z) rest : bytes_at ((Some <$> bs) ++ rest) bs.
Proof. intros i b Hi. apply lookup_app_l_Some. by rewrite list_lookup_fmap, Hi. Qed.

(** Filling in the command, the address and the checksum of a four-byte command. *)
Lemma does_command {A} P cmd addr (k : list (option Z) → io D A) Q :
  is_byte cmd → is_byte addr →
  (∀ lo hi t, is_byte lo → is_byte hi → sent t = [cmd; addr] → fetched t = [] →
     does P (k ((Some <$> [cmd; addr; lo; hi]) ++ replicate 14 None)) (λ r t', Q r (t ++ t'))) →
  does P (buf ← lift (wrb fresh 0 cmd);
          buf ← lift (wrb buf 1 addr);
          buf ← CalulateCRC buf 2 2; k buf) Q.
Proof.
  intros Hc Ha Hk.
  eapply (does_bind _ _ _ (λ b t, b = <[0%nat := Some cmd]> fresh ∧ t = [])); [by eapply does_lift|].
  intros ? ? [-> ->].
  eapply (does_bind _ _ _ (λ b t, b = Some cmd :: Some addr :: replicate 16 None ∧ t = []));
    [by eapply does_lift|]. intros ? ? [-> ->].
  eapply does_bind; [apply (does_crc _ _ [cmd; addr] 2);
    [by eapply ins2|byte_list|cbn; lia]|].
  intros buf t (Hf & Hs & lo & hi & Hlo & Hhi & ->). by apply (Hk lo hi).
Qed.

Lemma copy_block (bs : list Z) p :
  length bs = 18%nat → length p = 16%nat →
  copy_bytes 16 0 p 0 (Some <$> bs) = Ret (Some <$> take 16 bs).
Proof.
  intros Hbs Hp. pose proof (copy_bytes_spec 0 (Some <$> bs) (take 16 bs) 0 p) as Hc.
  rewrite length_take, Hbs in Hc. change (Nat.min 16 18) with 16%nat in Hc.
  cbn [Nat.add] in Hc. rewrite take_0, (drop_ge p), app_nil_r in Hc by lia.
  apply Hc; [|lia]. intros i b Hi. rewrite list_lookup_fmap.
  apply lookup_take_Some in Hi as [Hi _]. by rewrite Hi.
Qed.

Lemma does_read_block addr p :
  is_byte addr → length p = 16%nat →
  does never (PcdRead addr p)
    (λ '(status, p') t,
       ∃ lo hi, sent t = [PICC_READ; addr] ++ [PICC_READ; addr; lo; hi] ∧
       (status = MI_OK ∧ length (fetched t) = 18%nat ∧ p' = Some <$> take 16 (fetched t) ∨
        status = MI_ERR ∧ p' = p)).
Proof.
  intros Ha Hp. unfold PcdRead. apply does_command; [done..|].
  intros lo hi t0 Hlo Hhi Hs0 Hf0.
  eapply does_bind; [apply (does_transceive _ [PICC_READ; addr; lo; hi]);
    [apply ins_all|byte_list|done]|].
  intros [[status out] len] t [Hs Hst Hby _ Hd].
  eapply (does_bind _ _ _ (λ ok t', t' = [] ∧ ok_with status len 144 = Ret ok)).
  { unfold ok_with. case_if; [|by eapply does_lift].
    destruct Hd as (l & c & _ & -> & _); [subst; done|]. by eapply does_lift. }
  intros ok ? [-> Hok]. unfold ok_with in Hok. destruct ok.
  - destruct (status =? MI_OK) eqn:E; [|done]. bool_prop.
    destruct Hd as (l & c & Hl & -> & Hn & ->); [subst; done|].
    injection Hok as Hok. bool_prop. apply bit_length_block in Hok; [|done].
    assert (length (fetched t) = 18%nat) as Hlen
      by (unfold fifo_count, MAXRLEN in Hn; lia).
    eapply (does_bind _ _ _ (λ b t', t' = [] ∧ b = Some <$> take 16 (fetched t))).
    { eapply does_lift; [|done]. rewrite drop_ge, app_nil_r by (rewrite Hlen; cbn; lia).
      by apply copy_block. }
    intros ? ? [-> ->]. apply does_ret. rewrite sent_app, fetched_app, !app_nil_r, Hs0, Hs, Hf0.
    exists lo, hi. split; [done|]. left. by subst.
  - apply does_ret. rewrite sent_app, fetched_app, !app_nil_r, Hs0, Hs. exists lo, hi. auto.
Qed.

(** The acknowledge: four bits, 1010. *)
Definition acked (t : list event) : Prop :=
  ∃ a rest, fetched t = a :: rest ∧ Z.land a 15 = 10.

Lemma does_no_ack ins out status out' len t :
  exchanged ins out status out' len t →
  does never (lift (no_ack status len out'))
    (λ bad t', t' = [] ∧ if bad : bool then True else status = MI_OK ∧ acked t).
Proof.
  intros [_ _ _ _ Hd]. unfold no_ack. destruct (status =? MI_OK) eqn:E; bool_prop; cbn [negb].
  2: by eapply does_lift.
  destruct Hd as (l & c & Hl & -> & Hn & ->); [by subst|]. cbn [known mbind res_bind].
  destruct (bit_length l c =? 4) eqn:E4; cbn [negb]; [|by eapply does_lift].
  destruct (fetched t) as [|a rest] eqn:Hf; [cbn in Hn; unfold fifo_count, MAXRLEN in Hn; lia|].
  eapply does_lift; [done|]. split; [done|]. destruct (Z.land a 15 =? 10) eqn:Ea; cbn; [|done].
  bool_prop. split; [done|]. exists a, rest. done.
Qed.

Lemma does_write_block addr data :
  is_byte addr → Forall is_byte data → length data = 16%nat →
  does never (PcdWrite addr (Some <$> data))
    (λ status t,
       ∃ lo hi t1 t2, t = t1 ++ t2 ∧ sent t1 = [PICC_WRITE; addr; PICC_WRITE; addr; lo; hi] ∧
       (status = MI_OK ∧ acked t1 ∧ acked t2 ∧
          (∃ lo' hi', sent t2 = data ++ data ++ [lo'; hi']) ∨
        status = MI_ERR ∧ (t2 = [] ∨ acked t1))).
Proof.
  intros Ha Hdata Hlen. unfold PcdWrite. apply does_command; [done..|].
  intros lo hi t0 Hlo Hhi Hs0 Hf0.
  eapply does_bind; [apply (does_transceive _ [PICC_WRITE; addr; lo; hi]);
    [apply ins_all|byte_list|done]|].
  intros [[status out] len] t Hex.
  assert (sent (t0 ++ t) = [PICC_WRITE; addr; PICC_WRITE; addr; lo; hi]) as Hs1
    by (rewrite sent_app, Hs0, (ex_sent _ _ _ _ _ _ Hex); done).
  assert (acked t → acked (t0 ++ t)) as Hack
    by (intros (a & r & ? & ?); exists a, r; by rewrite fetched_app, Hf0).
  eapply does_bind; [by eapply does_no_ack|]. intros bad ? [-> Hbad].
  destruct bad.
  { apply does_ret. exists lo, hi, (t0 ++ t), []. rewrite !app_nil_r. split; [done|]. split; [done|]. right. by auto. }
  destruct Hbad as [-> Hok]. cbv zeta. change (MI_OK =? MI_OK) with true. cbn iota.
  assert (length out = 18%nat) as Hout by (by rewrite (ex_length _ _ _ _ _ _ Hex)).
  eapply (does_bind _ _ _ (λ b t', t' = [] ∧ b = (Some <$> data) ++ drop 16 out)).
  { eapply does_lift; [|done].
    pose proof (copy_bytes_spec 0 (Some <$> data) data 0 out) as Hc.
    rewrite Hlen in Hc. cbn [Nat.add] in Hc. rewrite take_0 in Hc. apply Hc; [|lia].
    intros i b Hi. by rewrite list_lookup_fmap, Hi. }
  intros ? ? [-> ->].
  assert (∃ o1 o2, drop 16 out = [o1; o2]) as (o1 & o2 & Hdrop).
  { assert (length (drop 16 out) = 2%nat) as Hl by (rewrite length_drop; lia).
    destruct (drop 16 out) as [|o1 [|o2 [|]]]; try done. by exists o1, o2. }
  eapply does_bind.
  { replace 16 with (Z.of_nat (length data)) at 1 by lia.
    apply (does_crc _ _ data 16); [apply ins_all|done|].
    rewrite length_app, length_fmap, length_drop. lia. }
  intros ? t2 (Hf2 & Hs2 & lo' & hi' & Hlo' & Hhi' & ->).
  assert (<[17%nat := Some hi']> (<[16%nat := Some lo']> ((Some <$> data) ++ drop 16 out)) =
    Some <$> (data ++ [lo'; hi'])) as ->.
  { rewrite Hdrop, !insert_app_r_alt by (rewrite ?length_insert, ?length_fmap; lia).
    rewrite length_fmap, Hlen, fmap_app. done. }
  eapply does_bind.
  { replace 18 with (Z.of_nat (length (data ++ [lo'; hi']))) by (rewrite length_app; cbn; lia).
    apply (does_transceive _ (data ++ [lo'; hi'])).
    - rewrite <- (app_nil_r (Some <$> _)). apply ins_all.
    - apply Forall_app; split; [done|]. byte_list.
    - rewrite length_fmap, length_app. cbn. lia. }
  intros [[status' out'] len'] t3 Hex'.
  eapply does_bind; [by eapply does_no_ack|]. intros bad ? [-> Hbad].
  apply does_ret. exists lo, hi, (t0 ++ t), (t2 ++ t3).
  split; [by rewrite !app_nil_r, <- !app_assoc|]. split; [done|].
  destruct bad; [by auto|]. destruct Hbad as [-> (a & r & Hr & Ha')]. left.
  split; [done|]. split; [auto|]. split.
  - exists a, r. by rewrite fetched_app, Hf2, Hr.
  - exists lo', hi'. by rewrite sent_app, Hs2, (ex_sent _ _ _ _ _ _ Hex').
Qed.

(** ** Finding a card *)

Lemma bit_length_request l c : is_byte l → bit_length l c = 16 → 2 <= l.
Proof.
  unfold is_byte, bit_length, u8. pose proof (land7 c). case_if; intros; dlia.
Qed.

Lemma does_request code ct :
  is_byte code → length ct = 2%nat →
  does never (PcdRequest code ct)
    (λ '(status, ct') t, sent t = [code] ∧ length ct' = 2%nat ∧
       (status = MI_OK ∧ (∃ a b rest, fetched t = a :: b :: rest ∧ ct' = Some <$> [a; b]) ∨
        status = MI_ERR ∧ ct' = ct)).
Proof.
  intros Hcode Hct. unfold PcdRequest.
  destruct ct as [|c0 [|c1 [|]]]; try done.
  eapply does_bind; [by apply does_clear|]. intros _ ? (x1 & _ & ->).
  eapply does_bind; [by apply does_write|]. intros _ ? ->.
  eapply does_bind; [by apply does_set|]. intros _ ? (x2 & _ & ->).
  eapply (does_bind _ _ _ (λ b t, b = Some code :: replicate 17 None ∧ t = [])); [by eapply does_lift|].
  intros ? ? [-> ->].
  eapply does_bind; [apply (does_transceive (Some code :: replicate 17 None) [code]);
    [apply (ins_all [code])|byte_list|done]|].
  intros [[status out] len] t [Hs Hst Hby _ Hd].
  eapply (does_bind _ _ _ (λ ok t', t' = [] ∧ ok_with status len 16 = Ret ok)).
  { unfold ok_with. case_if; [|by eapply does_lift].
    destruct Hd as (l & c & _ & -> & _); [subst; done|]. by eapply does_lift. }
  intros ok ? [-> Hok]. unfold ok_with in Hok. destruct ok.
  - destruct (status =? MI_OK) eqn:E; [|done]. bool_prop.
    destruct Hd as (l & c & Hl & -> & Hn & ->); [subst; done|].
    injection Hok as Hok. bool_prop. apply bit_length_request in Hok; [|done].
    unfold fifo_count, MAXRLEN in Hn.
    destruct (fetched t) as [|a [|b rest]] eqn:Hf; cbn [length] in Hn; [lia..|].
    eapply (does_bind _ _ _ (λ r t', t' = [] ∧ r = a)); [by eapply does_lift|]. intros ? ? [-> ->].
    eapply (does_bind _ _ _ (λ r t', t' = [] ∧ r = [Some a; c1])); [by eapply does_lift|].
    intros ? ? [-> ->].
    eapply (does_bind _ _ _ (λ r t', t' = [] ∧ r = b)); [by eapply does_lift|]. intros ? ? [-> ->].
    eapply (does_bind _ _ _ (λ r t', t' = [] ∧ r = Some <$> [a; b])); [by eapply does_lift|].
    intros ? ? [-> ->].
    apply does_ret. rewrite !sent_app, !fetched_app, Hs, Hf. cbn. rewrite !app_nil_r.
    split; [done|]. split; [done|]. left. eauto 8.
  - apply does_ret. rewrite !sent_app, Hs. cbn. auto.
Qed.

Lemma does_reset P : does P PcdReset (λ status t, status = MI_OK ∧ fetched t = [] ∧ sent t = []).
Proof.
  unfold PcdReset.
  do 3 (eapply does_bind; [apply does_pin|]; intros _ ? ->;
        eapply does_bind; [apply does_delay|]; intros _ ? ->).
  do 2 (eapply does_bind; [by apply does_write|]; intros _ ? ->).
  eapply does_bind; [apply does_delay|]; intros _ ? ->.
  do 6 (eapply does_bind; [by apply does_write|]; intros _ ? ->).
  by apply does_ret.
Qed.

Lemma does_antenna_off P : does P PcdAntennaOff (λ _ t, fetched t = [] ∧ sent t = []).
Proof. eapply does_mono; [by apply does_clear|]. by intros _ t (x & _ & ->). Qed.

Lemma does_antenna_on P : does P PcdAntennaOn (λ _ t, fetched t = [] ∧ sent t = []).
Proof.
  eapply does_bind; [by apply does_read|]. intros i ? [_ ->]. case_if; [|by apply does_ret].
  eapply does_mono; [by apply does_set|]. by intros _ t (x & _ & ->).
Qed.
End card.
