(* ===== verification/Rc522Sim.v ===== *)
(** The properties of the RFID driver, and a simulated MFRC522 on which their
    hypotheses hold. *)

From S2P Require Import Prelude CLib Rc522 Rc522Spec Rc522Card.

(** * A simulated chip

    A register file behind the byte protocol: the first byte of a frame is the address,
    every later one is written to, or answered from, that register.  Starting a
    transceive makes the chip answer with the next entry of its script: the number of
    valid bits of the last byte (0 for all) and the bytes. *)

Record sim : Type := MkSim {
  regs : list Z; fifo : list Z; script : list (Z * list Z); addr : option Z; rx : Z }.
#[export] Instance eta_sim : Eta sim := λ s, MkSim (regs s) (fifo s) (script s) (addr s) (rx s).

Definition sim_read (a : Z) (s : sim) : Z * sim :=
  if a =? FIFODataReg then
    match fifo s with b :: bs => (u8 b, s <| fifo := bs |>) | [] => (0, s) end
  else if a =? FIFOLevelReg then (u8 (Z.of_nat (length (fifo s))), s)
  else (u8 (nth (Z.to_nat a) (regs s) 0), s).

Definition sim_write (a v : Z) (s : sim) : sim :=
  let s := s <| regs := <[Z.to_nat a := v]> (regs s) |> in
  if a =? FIFODataReg then s <| fifo := fifo s ++ [v] |>
  else if a =? FIFOLevelReg then (if Z.testbit v 7 then s <| fifo := [] |> else s)
  else if a =? CommandReg then
    (if v =? PCD_CALCCRC then s <| regs := <[5%nat := 4]> (regs s) |> else s)
  else if (a =? BitFramingReg) && Z.testbit v 7 then
    match script s with
    | (bits, r) :: rs =>
        s <| fifo := r |> <| script := rs |>
          <| regs := <[12%nat := bits]> (<[4%nat := 48]> (regs s)) |>
    | [] => s <| fifo := [] |> <| regs := <[4%nat := 1]> (regs s) |>
    end
  else s.

Definition sim_byte (b : Z) (s : sim) : sim :=
  match addr s with
  | None => s <| addr := Some b |> <| rx := 0 |>
  | Some c =>
      let a := Z.shiftr (Z.land c 126) 1 in
      if Z.testbit c 7 then let '(v, s) := sim_read a s in s <| rx := v |>
      else (sim_write a b s) <| rx := 0 |>
  end.

#[export] Instance sim_bus : SpiBus sim := {
  spi_patience := 2;
  spi_sr s := (3, s);
  spi_dr_read s := (rx s, s);
  spi_dr_write := sim_byte;
  rt_pin_write b s := if b : bool then s <| addr := None |> else s;
  rt_pin_mode s := s;
  HAL_SPI_Init s := (true, s);
  rt_thread_delay _ s := s }.

#[export] Program Instance sim_laws : SpiLaws sim := {
  select b s := if b : bool then s <| addr := None |> else s;
  exchange b s := (u8 (rx (sim_byte b s)), sim_byte b s);
  spi_ready _ := True }.
Solve All Obligations with done.

Definition sim0 (answers : list (Z * list Z)) : sim := MkSim (replicate 64 0) [] answers None 0.
Definition rc0 (answers : list (Z * list Z)) : rc522 sim :=
  MkRc (sim0 answers) (replicate 2 (Some 0)) (replicate 4 (Some 0)) 0 (replicate 9 0) [].

(** * Registers *)

(** Register access.  On a bus that answers its polls, [ReadRawRC] is exactly the
    chip-select-framed exchange of the two bytes 2a + 128 and 0, and its result the byte
    received second; [WriteRawRC] is that of 2a and the value; an access ends (the status
    polls never block) and two different accesses never send the same address byte. *)
Theorem register_frames {D} `{SpiLaws D} a v (d : D) :
  0 <= a < 64 → spi_ready d →
  ReadRawRC a d = Ret (transaction [2 * a + 128; 0] d) ∧
  WriteRawRC a v d = Ret (tt, (transaction [2 * a; v] d).2) ∧
  ∀ a', 0 <= a' < 64 →
    Z.lor (Z.land (u8 (Z.shiftl a 1)) 126) 128 ≠ Z.land (u8 (Z.shiftl a' 1)) 126 ∧
    (Z.land (u8 (Z.shiftl a 1)) 126 = Z.land (u8 (Z.shiftl a' 1)) 126 → a = a').
Proof.
  intros Ha Hd. split; [by apply read_frame|]. split; [by apply write_frame|].
  intros a' Ha'. destruct (address_byte a Ha) as [-> ->].
  destruct (address_byte a' Ha') as [-> _]. lia.
Qed.

Lemma register_frames_witness :
  ReadRawRC 55 (sim0 []) = Ret (transaction [238; 0] (sim0 [])) ∧
  WriteRawRC 55 1 (sim0 []) = Ret (tt, (transaction [110; 1] (sim0 [])).2).
Proof.
  destruct (register_frames 55 1 (sim0 [])) as (H1 & H2 & _); [lia|done|].
  split; [exact H1|exact H2].
Defined.

(** * Exchanges with a card *)

(** C3. [PcdComMF522].  With any chip reachable through the register interface, for
    either command, any initialised input within its buffer and an 18-byte output
    buffer, the call returns (no fault, at most 100000 polls) and does exactly the
    register accesses of [com_spec]: the input bytes reach the FIFO in order, the status
    and the output are those of the answer it read, at most 18 bytes are stored, and on
    every path, timeout and error included, the timer is stopped and the chip put back to
    idle last. *)
Theorem PcdComMF522_exchange {D} `{Mfrc522 D} cmd pIn ins out (d : D) :
  cmd = PCD_AUTHENT ∨ cmd = PCD_TRANSCEIVE →
  bytes_at pIn ins → Forall is_byte ins → length out = 18%nat → idle d →
  ∃ r d' t, PcdComMF522 cmd pIn (Z.of_nat (length ins)) out d = Ret (r, d') ∧
    replay t d = Some d' ∧ idle d' ∧ com_spec cmd ins out r t.
Proof.
  intros Hc Hin Hb Ho Hd. pose proof (does_com never cmd pIn ins out Hc Hin Hb Ho d Hd) as Hr.
  destruct (PcdComMF522 _ _ _ _ d) as [[r d']|f]; [|done].
  destruct Hr as (t & Ht & Hi & Hs). by exists r, d', t.
Qed.

Lemma PcdComMF522_exchange_witness :
  ∃ r d' t, PcdComMF522 PCD_TRANSCEIVE (Some 82 :: replicate 17 None) 1
              (Some 82 :: replicate 17 None) (sim0 [(0, [4; 0])]) = Ret (r, d') ∧
    replay t (sim0 [(0, [4; 0])]) = Some d' ∧ idle d' ∧
    com_spec PCD_TRANSCEIVE [82] (Some 82 :: replicate 17 None) r t.
Proof.
  apply (PcdComMF522_exchange PCD_TRANSCEIVE (Some 82 :: replicate 17 None) [82]);
    [by right|apply (ins_all [82])|byte_list|reflexivity|done].
Defined.

(** C11. [PcdAnticoll].  Success means that the card answered four serial bytes followed
    by their exclusive or, and that those four are what [pSnr] holds; a wrong check byte is
    never accepted.  The command sent is 93 20.  The only fault is the read of an
    uninitialised buffer byte, when the card answers fewer than five bytes: the length of
    the answer is not checked. *)
Theorem PcdAnticoll_serial {D} `{Mfrc522 D} sn (d : D) :
  length sn = 4%nat → idle d →
  match PcdAnticoll sn d with
  | Fault f => f = Uninitialised
  | Ret (status, sn', d') =>
      ∃ t, replay t d = Some d' ∧ sent t = [147; 32] ∧
        (status = MI_OK ∨ status = MI_NOTAGERR ∨ status = MI_ERR) ∧
        (status = MI_OK → ∃ b0 b1 b2 b3 rest,
           fetched t = b0 :: b1 :: b2 :: b3 :: Z.lxor (Z.lxor (Z.lxor b0 b1) b2) b3 :: rest ∧
           sn' = Some <$> [b0; b1; b2; b3])
  end.
Proof.
  intros Hsn Hd. pose proof (does_anticoll sn Hsn d Hd) as Hr.
  destruct (PcdAnticoll sn d) as [[[status sn'] d']|f]; [|done].
  destruct Hr as (t & Ht & _ & Hs & Hst & Hok). exists t. split; [done|]. split; [done|].
  split; [done|]. intros E. destruct (Hok E) as (b0 & b1 & b2 & b3 & rest & ? & ? & _). eauto 8.
Qed.

Lemma PcdAnticoll_serial_witness :
  let d := sim0 [(0, [222; 173; 190; 239; 34])] in
  match PcdAnticoll (replicate 4 None) d with
  | Fault f => f = Uninitialised
  | Ret (status, sn', d') =>
      ∃ t, replay t d = Some d' ∧ sent t = [147; 32] ∧
        (status = MI_OK ∨ status = MI_NOTAGERR ∨ status = MI_ERR) ∧
        (status = MI_OK → ∃ b0 b1 b2 b3 rest,
           fetched t = b0 :: b1 :: b2 :: b3 :: Z.lxor (Z.lxor (Z.lxor b0 b1) b2) b3 :: rest ∧
           sn' = Some <$> [b0; b1; b2; b3])
  end.
Proof. intros d. exact (PcdAnticoll_serial (replicate 4 None) d eq_refl I). Defined.

(** C12. Blocks.  [PcdRead] and [PcdWrite] return for every chip.  A successful read is
    that of an 18-byte answer, whose first 16 bytes fill the caller's block; otherwise the
    block is untouched and the status [MI_ERR].  A write reports success only when both
    the command and the data were acknowledged (1010); the 16 data bytes, followed by two
    checksum bytes, are sent only after the first acknowledge. *)
Theorem card_blocks {D} `{Mfrc522 D} addr p data (d : D) :
  is_byte addr → length p = 16%nat → Forall is_byte data → length data = 16%nat → idle d →
  (∃ status p' d' t, PcdRead addr p d = Ret (status, p', d') ∧ replay t d = Some d' ∧
     (∃ lo hi, sent t = [PICC_READ; addr; PICC_READ; addr; lo; hi]) ∧
     (status = MI_OK ∧ length (fetched t) = 18%nat ∧ p' = Some <$> take 16 (fetched t) ∨
      status = MI_ERR ∧ p' = p)) ∧
  (∃ status d' t1 t2, PcdWrite addr (Some <$> data) d = Ret (status, d') ∧
     replay (t1 ++ t2) d = Some d' ∧
     (∃ lo hi, sent t1 = [PICC_WRITE; addr; PICC_WRITE; addr; lo; hi]) ∧
     (status = MI_OK ∧ acked t1 ∧ acked t2 ∧ (∃ lo hi, sent t2 = data ++ data ++ [lo; hi]) ∨
      status = MI_ERR ∧ (t2 = [] ∨ acked t1))).
Proof.
  intros Ha Hp Hdata Hl Hd. split.
  - pose proof (does_read_block addr p Ha Hp d Hd) as Hr.
    destruct (PcdRead addr p d) as [[[status p'] d']|f]; [|done].
    destruct Hr as (t & Ht & _ & lo & hi & Hs & Hr). exists status, p', d', t.
    split; [done|]. split; [done|]. split; [by exists lo, hi|done].
  - pose proof (does_write_block addr data Ha Hdata Hl d Hd) as Hr.
    destruct (PcdWrite addr (Some <$> data) d) as [[status d']|f]; [|done].
    destruct Hr as (t & Ht & _ & lo & hi & t1 & t2 & -> & Hs & Hr).
    exists status, d', t1, t2. split; [done|]. split; [done|]. split; [by exists lo, hi|done].
Qed.

Lemma card_blocks_witness :
  let d := sim0 [(4, [10]); (4, [10])] in
  ∃ status d' t1 t2, PcdWrite 4 (Some <$> replicate 16 5) d = Ret (status, d') ∧
     replay (t1 ++ t2) d = Some d' ∧
     (∃ lo hi, sent t1 = [PICC_WRITE; 4; PICC_WRITE; 4; lo; hi]) ∧
     (status = MI_OK ∧ acked t1 ∧ acked t2 ∧
        (∃ lo hi, sent t2 = replicate 16 5 ++ replicate 16 5 ++ [lo; hi]) ∨
      status = MI_ERR ∧ (t2 = [] ∨ acked t1)).
Proof.
  intros d. refine (proj2 (card_blocks 4 (replicate 16 None) (replicate 16 5) d _ _ _ _ I));
    [by split|reflexivity|repeat (apply Forall_cons_2; [by split|]); apply Forall_nil_2|reflexivity].
Defined.

(** * The card identity *)

(** Two hexadecimal digit characters and the byte they denote. *)
Definition hex_digit (c : Z) : bool := isdigit c || ((65 <=? c) && (c <=? 70)).
Definition hex_value (c : Z) : Z := if isdigit c then c - 48 else c - 55.
Definition shows (hi lo b : Z) : bool :=
  hex_digit hi && hex_digit lo && (16 * hex_value hi + hex_value lo =? b).

Lemma hex_char_shows b :
  is_byte b → shows (hex_char (Z.shiftr b 4)) (hex_char (Z.land b 15)) b = true.
Proof.
  intros Hb.
  assert (forallb (λ b, shows (hex_char (Z.shiftr b 4)) (hex_char (Z.land b 15)) b)
    (seqZ 0 256) = true) as Hall by (vm_compute; reflexivity).
  rewrite List.forallb_forall in Hall. apply Hall, list_elem_of_In, elem_of_seqZ.
  unfold is_byte in Hb. lia.
Qed.

Definition hex_text (bs : list Z) : list Z :=
  concat ((λ b, [hex_char (Z.shiftr b 4); hex_char (Z.land b 15)]) <$> bs).

Lemma TurnID_text {D} b0 b1 b2 b3 (r : rc522 D) :
  length (num r) = 9%nat →
  TurnID (Some <$> [b0; b1; b2; b3]) r =
  Ret (tt, r <| num := hex_text [b0; b1; b2; b3] ++ [0] |>
             <| console := ((((console r ++ hex_text [b0]) ++ hex_text [b1]) ++
                             hex_text [b2]) ++ hex_text [b3]) ++ [CR; LF] |>).
Proof.
  intros Hn. destruct r as [d ct sn cf n c]. cbn in Hn.
  do 9 (destruct n as [|? n]; [done|]). by destruct n.
Qed.

Section read_id.
Context {D : Type} `{Mfrc522 D}.

Lemma on_dev_does {A} P (m : io D A) Q (r : rc522 D) :
  does P m Q → idle (dev r) →
  may_fault P (λ '(a, r'), ∃ d t, r' = r <| dev := d |> ∧ idle d ∧ Q a t) (on_dev m r).
Proof.
  intros Hm Hd. specialize (Hm (dev r) Hd). unfold on_dev.
  destruct (m (dev r)) as [[a d]|f]; [|done]. destruct Hm as (t & _ & Hi & HQ).
  exists d, t. done.
Qed.

Lemma io_bind_mf {W A B} P (Q : A * W → Prop) (Q' : B * W → Prop) (m : io W A) (k : A → io W B) w :
  may_fault P Q (m w) → (∀ a w', Q (a, w') → may_fault P Q' (k a w')) →
  may_fault P Q' (mbind k m w).
Proof.
  unfold mbind, io_bind. destruct (m w) as [[a w']|f]; cbn; auto.
Qed.

Lemma kprintf_loop (pr : Z → cstr) b0 b1 b2 b3 (r : rc522 D) :
  ∃ c, for_ 4 0 (λ i, v ← lift (rdb (Some <$> [b0; b1; b2; b3]) i); rt_kprintf (pr v)) r =
       Ret (tt, r <| console := c |>).
Proof. eexists. destruct r. reflexivity. Qed.

(** The states a call can leave the globals in. *)
Definition id_read (r' : rc522 D) : Prop :=
  Card_flag r' = 1 ∧ SN r' = replicate 4 (Some 0) ∧
  ∃ b0 b1 b2 b3, Forall is_byte [b0; b1; b2; b3] ∧
    num r' = hex_text [b0; b1; b2; b3] ++ [0].
Definition id_unread (r r' : rc522 D) : Prop :=
  Card_flag r' = Card_flag r ∧ num r' = num r.

(** The globals a search that has found nothing leaves: all but the device and [CT]. *)
Definition searching (r r' : rc522 D) : Prop :=
  ∃ d ct, r' = r <| dev := d |> <| CT := ct |> ∧ idle d ∧ length ct = 2%nat.

Lemma searching_dev {A} P r (m : io D A) Q :
  does P m Q → io_may_fault P (searching r) (λ a, ∃ t, Q a t) (on_dev m).
Proof.
  intros Hm r' (d & ct & -> & Hd & Hct).
  eapply may_fault_mono; [eapply on_dev_does; [done|done]|].
  intros [a r''] (d' & t & -> & Hd' & HQ). split; [eauto|]. by exists d', ct.
Qed.

Lemma searching_ct P r ct :
  length ct = 2%nat → io_may_fault P (searching r) (λ _, True) (modify (λ r, r <| CT := ct |>)).
Proof.
  intros Hct. apply io_mf_modify. intros r' (d & ct' & -> & Hd & _). by exists d, ct.
Qed.

Lemma searching_get_ct P r :
  io_may_fault P (searching r) (λ ct, length ct = 2%nat) (gets CT).
Proof. intros r' (d & ct & -> & Hd & Hct). split; [done|]. by exists d, ct. Qed.

Lemma searching_request P r ct :
  length ct = 2%nat →
  io_may_fault P (searching r)
    (λ '(status, ct'), length ct' = 2%nat ∧ (status = MI_OK ∨ status = MI_ERR))
    (on_dev (PcdRequest PICC_REQALL ct)).
Proof.
  intros Hct. eapply io_mf_mono.
  - eapply searching_dev, (does_weaken never); [done|]. by apply does_request.
  - intros [status ct'] (t & _ & Hct' & Hst). tauto.
Qed.

Lemma searching_unread r r' : searching r r' → idle (dev r') ∧ id_unread r r'.
Proof. by intros (d & ct & -> & Hd & _). Qed.

(** The card's answer to the anticollision command, stored in [SN]. *)
Lemma searching_anticoll r r' sn :
  searching r r' → length sn = 4%nat →
  may_fault (λ f, f = Uninitialised)
    (λ '((status, sn'), r''), searching r r'' ∧
       (status = MI_OK ∨ status = MI_NOTAGERR ∨ status = MI_ERR) ∧
       (status = MI_OK → ∃ b0 b1 b2 b3, sn' = Some <$> [b0; b1; b2; b3] ∧
          Forall is_byte [b0; b1; b2; b3]))
    (on_dev (PcdAnticoll sn) r').
Proof.
  intros Hr Hsn. eapply may_fault_mono.
  - eapply (searching_dev _ r); [by apply does_anticoll|done].
  - intros [[status sn'] r''] [(t & _ & Hst & Hok) Hs]. split; [done|]. split; [done|].
    intros E. destruct (Hok E) as (b0 & b1 & b2 & b3 & rest & _ & ? & ?). eauto 8.
Qed.

(** The report of a serial number. *)
Lemma report_card (r' : rc522 D) b0 b1 b2 b3 :
  idle (dev r') → length (num r') = 9%nat → Forall is_byte [b0; b1; b2; b3] →
  SN r' = Some <$> [b0; b1; b2; b3] →
  may_fault (λ f, f = Uninitialised) (λ '(status, r''), idle (dev r'') ∧ status = MI_ERR ∧ id_read r'')
    ((modify (λ r, r <| Card_flag := 1 |>) ;;
      sn ← gets SN;
      for_ 4 0 (λ i, v ← lift (rdb sn i); rt_kprintf (print_hex v)) ;;
      rt_kprintf [CR; LF] ;;
      TurnID sn ;;
      modify (λ r, r <| SN := replicate 4 (Some 0) |>) ;;
      mret MI_ERR) r').
Proof.
  intros Hd Hn Hb Hsn.
  eapply (io_bind_mf _ (λ '(_, w), w = r' <| Card_flag := 1 |>)); [done|]. intros [] ? ->.
  eapply (io_bind_mf _ (λ '(sn, w), sn = Some <$> [b0; b1; b2; b3] ∧ w = r' <| Card_flag := 1 |>));
    [by rewrite <- Hsn|]. intros ? ? [-> ->].
  destruct (kprintf_loop print_hex b0 b1 b2 b3 (r' <| Card_flag := 1 |>)) as [c Hc].
  eapply (io_bind_mf _ (λ '(_, w), w = r' <| Card_flag := 1 |> <| console := c |>));
    [by rewrite Hc|]. clear Hc. intros [] ? ->.
  eapply (io_bind_mf _ (λ '(_, w), ∃ c, w = r' <| Card_flag := 1 |> <| console := c |>));
    [by eexists|]. intros [] ? [c' ->].
  eapply (io_bind_mf _ (λ '(_, w), ∃ c, w = r' <| Card_flag := 1 |>
    <| num := hex_text [b0; b1; b2; b3] ++ [0] |> <| console := c |>)).
  { rewrite TurnID_text by done. by eexists. }
  intros [] ? [c'' ->].
  split; [done|]. split; [done|]. split; [done|]. split; [done|]. by exists b0, b1, b2, b3.
Qed.

Lemma ReadID_result (r : rc522 D) :
  idle (dev r) → length (CT r) = 2%nat → length (SN r) = 4%nat → length (num r) = 9%nat →
  may_fault (λ f, f = Uninitialised)
    (λ '(status, r'), idle (dev r') ∧
       (status = MI_ERR ∧ id_read r' ∨
        (status = MI_NOTAGERR ∨ status = MI_ERR) ∧ id_unread r r'))
    (ReadID r).
Proof.
  intros Hd Hct Hsn Hnum. unfold ReadID.
  assert (searching r r) as Hr by (exists (dev r), (CT r); by destruct r).
  eapply io_bind_mf; [by apply (searching_get_ct _ r)|]. intros ct r1 [Hct1 Hr1].
  eapply io_bind_mf; [by apply (searching_request _ r)|]. intros [st1 ct1] r2 [[Hct2 _] Hr2].
  eapply io_bind_mf; [by apply (searching_ct _ r)|]. intros [] r3 [_ Hr3].
  eapply io_bind_mf; [by apply (searching_dev _ r _ _ (does_reset _))|]. intros _ r4 [_ Hr4].
  eapply io_bind_mf; [by apply (searching_dev _ r _ _ (does_antenna_off _))|]. intros _ r5 [_ Hr5].
  eapply io_bind_mf; [by apply (searching_dev _ r _ _ (does_antenna_on _))|]. intros _ r6 [_ Hr6].
  eapply io_bind_mf; [by apply (searching_get_ct _ r)|]. intros ct3 r7 [Hct3 Hr7].
  eapply io_bind_mf; [by apply (searching_request _ r)|]. intros [st ct4] r8 [[Hct4 Hst] Hr8].
  eapply io_bind_mf; [by apply (searching_ct _ r)|]. intros [] r9 [_ Hr9].
  destruct (st =? MI_OK) eqn:E; bool_prop.
  2: { unfold mbind, io_bind, mret, io_ret. rewrite (proj2 (Z.eqb_neq _ _) E).
       destruct (searching_unread _ _ Hr9). destruct Hst; [done|]. by split; [|right; auto]. }
  eapply (io_bind_mf _ (λ '(status, r'), ∃ r'' sn, searching r r'' ∧ r' = r'' <| SN := sn |> ∧
    (status = MI_OK ∨ status = MI_NOTAGERR ∨ status = MI_ERR) ∧
    (status = MI_OK → ∃ b0 b1 b2 b3, sn = Some <$> [b0; b1; b2; b3] ∧
       Forall is_byte [b0; b1; b2; b3]))).
  { eapply (io_bind_mf _ (λ '(sn, r'), length sn = 4%nat ∧ searching r r')).
    { split; [|done]. by destruct Hr9 as (? & ? & -> & _). }
    intros sn r10 [Hsn10 Hr10].
    eapply io_bind_mf; [by apply (searching_anticoll r)|].
    intros [status sn'] r11 (Hr11 & Hst11 & Hok). exists r11, sn'. done. }
  intros status r12 (r11 & sn & Hr11 & -> & Hst12 & Hok).
  destruct (status =? MI_OK) eqn:E12; bool_prop.
  - destruct (Hok E12) as (b0 & b1 & b2 & b3 & -> & Hb). destruct Hr11 as (d & ct' & -> & Hd' & _).
    eapply may_fault_mono; [by eapply report_card|].
    intros [status' r'] (? & ? & ?). auto.
  - destruct Hr11 as (d & ct' & -> & Hd' & _). split; [done|]. right. split; [tauto|done].
Qed.
End read_id.

(** [ReadID] never reports success.  With any chip it ends (or stops at the
    uninitialised read of a short anticollision answer); when a card was identified,
    [Card_flag] is set, [num] holds the eight hexadecimal digits of its serial number and
    a terminator, and [SN] is cleared, yet the value returned is [MI_ERR]; otherwise
    [Card_flag] and [num] are unchanged and the value is an error code as well. *)
Theorem ReadID_never_ok {D} `{Mfrc522 D} (r : rc522 D) :
  idle (dev r) → length (CT r) = 2%nat → length (SN r) = 4%nat → length (num r) = 9%nat →
  match ReadID r with
  | Fault f => f = Uninitialised
  | Ret (status, r') =>
      status ≠ MI_OK ∧
      (status = MI_ERR ∧ Card_flag r' = 1 ∧ SN r' = replicate 4 (Some 0) ∧
         (∃ bs, length bs = 4%nat ∧ num r' = hex_text bs ++ [0] ∧
            Forall (λ b, shows (hex_char (Z.shiftr b 4)) (hex_char (Z.land b 15)) b = true) bs) ∨
       Card_flag r' = Card_flag r ∧ num r' = num r)
  end.
Proof.
  intros Hd Hct Hsn Hnum. pose proof (ReadID_result r Hd Hct Hsn Hnum) as Hr.
  destruct (ReadID r) as [[status r']|f]; [|done].
  destruct Hr as [_ [[-> (? & ? & b0 & b1 & b2 & b3 & Hb & ?)]|[Hst [? ?]]]].
  - split; [done|]. left. split; [done|]. split; [done|]. split; [done|].
    exists [b0; b1; b2; b3]. split; [done|]. split; [done|].
    eapply Forall_impl; [done|]. intros b. apply hex_char_shows.
  - split; [by destruct Hst as [-> | ->]|]. by right.
Qed.

Lemma ReadID_never_ok_witness :
  let r := rc0 [(0, [4; 0]); (0, [4; 0]); (0, [222; 173; 190; 239; 34])] in
  match ReadID r with
  | Fault f => f = Uninitialised
  | Ret (status, r') =>
      status ≠ MI_OK ∧
      (status = MI_ERR ∧ Card_flag r' = 1 ∧ SN r' = replicate 4 (Some 0) ∧
         (∃ bs, length bs = 4%nat ∧ num r' = hex_text bs ++ [0] ∧
            Forall (λ b, shows (hex_char (Z.shiftr b 4)) (hex_char (Z.land b 15)) b = true) bs) ∨
       Card_flag r' = Card_flag r ∧ num r' = num r)
  end.
Proof. intros r. exact (ReadID_never_ok r I eq_refl eq_refl eq_refl). Defined.
