(* ===== verification/Font.v ===== *)
(** The ASCII fonts of applications/font.h: for each printable character from the blank
    on, the columns of its glyph, high bit first. *)

From S2P Require Import Prelude.

Definition asc2_1206 : list (list Z) := [
  [0; 0; 0; 0; 0; 0; 0; 0; 0; 0; 0; 0];
  [0; 0; 0; 0; 63; 64; 0; 0; 0; 0; 0; 0];
  [0; 0; 48; 0; 64; 0; 48; 0; 64; 0; 0; 0];
  [9; 0; 11; 192; 61; 0; 11; 192; 61; 0; 9; 0];
  [24; 192; 36; 64; 127; 224; 34; 64; 49; 128; 0; 0];
  [24; 0; 36; 192; 27; 0; 13; 128; 50; 64; 1; 128];
  [3; 128; 28; 64; 39; 64; 28; 128; 7; 64; 0; 64];
  [16; 0; 96; 0; 0; 0; 0; 0; 0; 0; 0; 0];
  [0; 0; 0; 0; 0; 0; 31; 128; 32; 64; 64; 32];
  [0; 0; 64; 32; 32; 64; 31; 128; 0; 0; 0; 0];
  [9; 0; 6; 0; 31; 128; 6; 0; 9; 0; 0; 0];
  [4; 0; 4; 0; 63; 128; 4; 0; 4; 0; 0; 0];
  [0; 16; 0; 96; 0; 0; 0; 0; 0; 0; 0; 0];
  [4; 0; 4; 0; 4; 0; 4; 0; 4; 0; 0; 0];
  [0; 0; 0; 64; 0; 0; 0; 0; 0; 0; 0; 0];
  [0; 32; 1; 192; 6; 0; 56; 0; 64; 0; 0; 0];
  [31; 128; 32; 64; 32; 64; 32; 64; 31; 128; 0; 0];
  [0; 0; 16; 64; 63; 192; 0; 64; 0; 0; 0; 0];
  [24; 192; 33; 64; 34; 64; 36; 64; 24; 64; 0; 0];
  [16; 128; 32; 64; 36; 64; 36; 64; 27; 128; 0; 0];
  [2; 0; 13; 0; 17; 0; 63; 192; 1; 64; 0; 0];
  [60; 128; 36; 64; 36; 64; 36; 64; 35; 128; 0; 0];
  [31; 128; 36; 64; 36; 64; 52; 64; 3; 128; 0; 0];
  [48; 0; 32; 0; 39; 192; 56; 0; 32; 0; 0; 0];
  [27; 128; 36; 64; 36; 64; 36; 64; 27; 128; 0; 0];
  [28; 0; 34; 192; 34; 64; 34; 64; 31; 128; 0; 0];
  [0; 0; 0; 0; 8; 64; 0; 0; 0; 0; 0; 0];
  [0; 0; 0; 0; 4; 96; 0; 0; 0; 0; 0; 0];
  [0; 0; 4; 0; 10; 0; 17; 0; 32; 128; 64; 64];
  [9; 0; 9; 0; 9; 0; 9; 0; 9; 0; 0; 0];
  [0; 0; 64; 64; 32; 128; 17; 0; 10; 0; 4; 0];
  [24; 0; 32; 0; 35; 64; 36; 0; 24; 0; 0; 0];
  [31; 128; 32; 64; 39; 64; 41; 64; 31; 64; 0; 0];
  [0; 64; 7; 192; 57; 0; 15; 0; 1; 192; 0; 64];
  [32; 64; 63; 192; 36; 64; 36; 64; 27; 128; 0; 0];
  [31; 128; 32; 64; 32; 64; 32; 64; 48; 128; 0; 0];
  [32; 64; 63; 192; 32; 64; 32; 64; 31; 128; 0; 0];
  [32; 64; 63; 192; 36; 64; 46; 64; 48; 192; 0; 0];
  [32; 64; 63; 192; 36; 64; 46; 0; 48; 0; 0; 0];
  [15; 0; 16; 128; 32; 64; 34; 64; 51; 128; 2; 0];
  [32; 64; 63; 192; 4; 0; 4; 0; 63; 192; 32; 64];
  [32; 64; 32; 64; 63; 192; 32; 64; 32; 64; 0; 0];
  [0; 96; 32; 32; 32; 32; 63; 192; 32; 0; 32; 0];
  [32; 64; 63; 192; 36; 64; 11; 0; 48; 192; 32; 64];
  [32; 64; 63; 192; 32; 64; 0; 64; 0; 64; 0; 192];
  [63; 192; 60; 0; 3; 192; 60; 0; 63; 192; 0; 0];
  [32; 64; 63; 192; 12; 64; 35; 0; 63; 192; 32; 0];
  [31; 128; 32; 64; 32; 64; 32; 64; 31; 128; 0; 0];
  [32; 64; 63; 192; 36; 64; 36; 0; 24; 0; 0; 0];
  [31; 128; 33; 64; 33; 64; 32; 224; 31; 160; 0; 0];
  [32; 64; 63; 192; 36; 64; 38; 0; 25; 192; 0; 64];
  [24; 192; 36; 64; 36; 64; 34; 64; 49; 128; 0; 0];
  [48; 0; 32; 64; 63; 192; 32; 64; 48; 0; 0; 0];
  [32; 0; 63; 128; 0; 64; 0; 64; 63; 128; 32; 0];
  [32; 0; 62; 0; 1; 192; 7; 0; 56; 0; 32; 0];
  [56; 0; 7; 192; 60; 0; 7; 192; 56; 0; 0; 0];
  [32; 64; 57; 192; 6; 0; 57; 192; 32; 64; 0; 0];
  [32; 0; 56; 64; 7; 192; 56; 64; 32; 0; 0; 0];
  [48; 64; 33; 192; 38; 64; 56; 64; 32; 192; 0; 0];
  [0; 0; 0; 0; 127; 224; 64; 32; 64; 32; 0; 0];
  [0; 0; 112; 0; 12; 0; 3; 128; 0; 64; 0; 0];
  [0; 0; 64; 32; 64; 32; 127; 224; 0; 0; 0; 0];
  [0; 0; 32; 0; 64; 0; 32; 0; 0; 0; 0; 0];
  [0; 16; 0; 16; 0; 16; 0; 16; 0; 16; 0; 16];
  [0; 0; 0; 0; 64; 0; 0; 0; 0; 0; 0; 0];
  [0; 0; 2; 128; 5; 64; 5; 64; 3; 192; 0; 64];
  [32; 0; 63; 192; 4; 64; 4; 64; 3; 128; 0; 0];
  [0; 0; 3; 128; 4; 64; 4; 64; 6; 64; 0; 0];
  [0; 0; 3; 128; 4; 64; 36; 64; 63; 192; 0; 64];
  [0; 0; 3; 128; 5; 64; 5; 64; 3; 64; 0; 0];
  [0; 0; 4; 64; 31; 192; 36; 64; 36; 64; 32; 0];
  [0; 0; 2; 224; 5; 80; 5; 80; 6; 80; 4; 32];
  [32; 64; 63; 192; 4; 64; 4; 0; 3; 192; 0; 64];
  [0; 0; 4; 64; 39; 192; 0; 64; 0; 0; 0; 0];
  [0; 16; 0; 16; 4; 16; 39; 224; 0; 0; 0; 0];
  [32; 64; 63; 192; 1; 64; 7; 0; 4; 192; 4; 64];
  [32; 64; 32; 64; 63; 192; 0; 64; 0; 64; 0; 0];
  [7; 192; 4; 0; 7; 192; 4; 0; 3; 192; 0; 0];
  [4; 64; 7; 192; 4; 64; 4; 0; 3; 192; 0; 64];
  [0; 0; 3; 128; 4; 64; 4; 64; 3; 128; 0; 0];
  [4; 16; 7; 240; 4; 80; 4; 64; 3; 128; 0; 0];
  [0; 0; 3; 128; 4; 64; 4; 80; 7; 240; 0; 16];
  [4; 64; 7; 192; 2; 64; 4; 0; 4; 0; 0; 0];
  [0; 0; 6; 64; 5; 64; 5; 64; 4; 192; 0; 0];
  [0; 0; 4; 0; 31; 128; 4; 64; 0; 64; 0; 0];
  [4; 0; 7; 128; 0; 64; 4; 64; 7; 192; 0; 64];
  [4; 0; 7; 0; 4; 192; 1; 128; 6; 0; 4; 0];
  [6; 0; 1; 192; 7; 0; 1; 192; 6; 0; 0; 0];
  [4; 64; 6; 192; 1; 0; 6; 192; 4; 64; 0; 0];
  [4; 16; 7; 16; 4; 224; 1; 128; 6; 0; 4; 0];
  [0; 0; 4; 64; 5; 192; 6; 64; 4; 64; 0; 0];
  [0; 0; 0; 0; 4; 0; 123; 224; 64; 32; 0; 0];
  [0; 0; 0; 0; 0; 0; 255; 240; 0; 0; 0; 0];
  [0; 0; 64; 32; 123; 224; 4; 0; 0; 0; 0; 0];
  [64; 0; 128; 0; 64; 0; 32; 0; 32; 0; 64; 0]].

Definition asc2_1608 : list (list Z) := [
  [0; 0; 0; 0; 0; 0; 0; 0; 0; 0; 0; 0; 0; 0; 0; 0];
  [0; 0; 0; 0; 0; 0; 31; 204; 0; 12; 0; 0; 0; 0; 0; 0];
  [0; 0; 8; 0; 48; 0; 96; 0; 8; 0; 48; 0; 96; 0; 0; 0];
  [2; 32; 3; 252; 30; 32; 2; 32; 3; 252; 30; 32; 2; 32; 0; 0];
  [0; 0; 14; 24; 17; 4; 63; 255; 16; 132; 12; 120; 0; 0; 0; 0];
  [15; 0; 16; 132; 15; 56; 0; 192; 7; 120; 24; 132; 0; 120; 0; 0];
  [0; 120; 15; 132; 16; 196; 17; 36; 14; 152; 0; 228; 0; 132; 0; 8];
  [8; 0; 104; 0; 112; 0; 0; 0; 0; 0; 0; 0; 0; 0; 0; 0];
  [0; 0; 0; 0; 0; 0; 7; 224; 24; 24; 32; 4; 64; 2; 0; 0];
  [0; 0; 64; 2; 32; 4; 24; 24; 7; 224; 0; 0; 0; 0; 0; 0];
  [2; 64; 2; 64; 1; 128; 15; 240; 1; 128; 2; 64; 2; 64; 0; 0];
  [0; 128; 0; 128; 0; 128; 15; 248; 0; 128; 0; 128; 0; 128; 0; 0];
  [0; 1; 0; 13; 0; 14; 0; 0; 0; 0; 0; 0; 0; 0; 0; 0];
  [0; 0; 0; 128; 0; 128; 0; 128; 0; 128; 0; 128; 0; 128; 0; 128];
  [0; 0; 0; 12; 0; 12; 0; 0; 0; 0; 0; 0; 0; 0; 0; 0];
  [0; 0; 0; 6; 0; 24; 0; 96; 1; 128; 6; 0; 24; 0; 32; 0];
  [0; 0; 7; 240; 8; 8; 16; 4; 16; 4; 8; 8; 7; 240; 0; 0];
  [0; 0; 8; 4; 8; 4; 31; 252; 0; 4; 0; 4; 0; 0; 0; 0];
  [0; 0; 14; 12; 16; 20; 16; 36; 16; 68; 17; 132; 14; 12; 0; 0];
  [0; 0; 12; 24; 16; 4; 17; 4; 17; 4; 18; 136; 12; 112; 0; 0];
  [0; 0; 0; 224; 3; 32; 4; 36; 8; 36; 31; 252; 0; 36; 0; 0];
  [0; 0; 31; 152; 16; 132; 17; 4; 17; 4; 16; 136; 16; 112; 0; 0];
  [0; 0; 7; 240; 8; 136; 17; 4; 17; 4; 24; 136; 0; 112; 0; 0];
  [0; 0; 28; 0; 16; 0; 16; 252; 19; 0; 28; 0; 16; 0; 0; 0];
  [0; 0; 14; 56; 17; 68; 16; 132; 16; 132; 17; 68; 14; 56; 0; 0];
  [0; 0; 7; 0; 8; 140; 16; 68; 16; 68; 8; 136; 7; 240; 0; 0];
  [0; 0; 0; 0; 0; 0; 3; 12; 3; 12; 0; 0; 0; 0; 0; 0];
  [0; 0; 0; 0; 0; 1; 1; 6; 0; 0; 0; 0; 0; 0; 0; 0];
  [0; 0; 0; 128; 1; 64; 2; 32; 4; 16; 8; 8; 16; 4; 0; 0];
  [2; 32; 2; 32; 2; 32; 2; 32; 2; 32; 2; 32; 2; 32; 0; 0];
  [0; 0; 16; 4; 8; 8; 4; 16; 2; 32; 1; 64; 0; 128; 0; 0];
  [0; 0; 14; 0; 18; 0; 16; 12; 16; 108; 16; 128; 15; 0; 0; 0];
  [3; 224; 12; 24; 19; 228; 20; 36; 23; 196; 8; 40; 7; 208; 0; 0];
  [0; 4; 0; 60; 3; 196; 28; 64; 7; 64; 0; 228; 0; 28; 0; 4];
  [16; 4; 31; 252; 17; 4; 17; 4; 17; 4; 14; 136; 0; 112; 0; 0];
  [3; 224; 12; 24; 16; 4; 16; 4; 16; 4; 16; 8; 28; 16; 0; 0];
  [16; 4; 31; 252; 16; 4; 16; 4; 16; 4; 8; 8; 7; 240; 0; 0];
  [16; 4; 31; 252; 17; 4; 17; 4; 23; 196; 16; 4; 8; 24; 0; 0];
  [16; 4; 31; 252; 17; 4; 17; 0; 23; 192; 16; 0; 8; 0; 0; 0];
  [3; 224; 12; 24; 16; 4; 16; 4; 16; 68; 28; 120; 0; 64; 0; 0];
  [16; 4; 31; 252; 16; 132; 0; 128; 0; 128; 16; 132; 31; 252; 16; 4];
  [0; 0; 16; 4; 16; 4; 31; 252; 16; 4; 16; 4; 0; 0; 0; 0];
  [0; 3; 0; 1; 16; 1; 16; 1; 31; 254; 16; 0; 16; 0; 0; 0];
  [16; 4; 31; 252; 17; 4; 3; 128; 20; 100; 24; 28; 16; 4; 0; 0];
  [16; 4; 31; 252; 16; 4; 0; 4; 0; 4; 0; 4; 0; 12; 0; 0];
  [16; 4; 31; 252; 31; 0; 0; 252; 31; 0; 31; 252; 16; 4; 0; 0];
  [16; 4; 31; 252; 12; 4; 3; 0; 0; 224; 16; 24; 31; 252; 16; 0];
  [7; 240; 8; 8; 16; 4; 16; 4; 16; 4; 8; 8; 7; 240; 0; 0];
  [16; 4; 31; 252; 16; 132; 16; 128; 16; 128; 16; 128; 15; 0; 0; 0];
  [7; 240; 8; 24; 16; 36; 16; 36; 16; 28; 8; 10; 7; 242; 0; 0];
  [16; 4; 31; 252; 17; 4; 17; 0; 17; 192; 17; 48; 14; 12; 0; 4];
  [0; 0; 14; 28; 17; 4; 16; 132; 16; 132; 16; 68; 28; 56; 0; 0];
  [24; 0; 16; 0; 16; 4; 31; 252; 16; 4; 16; 0; 24; 0; 0; 0];
  [16; 0; 31; 248; 16; 4; 0; 4; 0; 4; 16; 4; 31; 248; 16; 0];
  [16; 0; 30; 0; 17; 224; 0; 28; 0; 112; 19; 128; 28; 0; 16; 0];
  [31; 192; 16; 60; 0; 224; 31; 0; 0; 224; 16; 60; 31; 192; 0; 0];
  [16; 4; 24; 12; 22; 52; 1; 192; 1; 192; 22; 52; 24; 12; 16; 4];
  [16; 0; 28; 0; 19; 4; 0; 252; 19; 4; 28; 0; 16; 0; 0; 0];
  [8; 4; 16; 28; 16; 100; 16; 132; 19; 4; 28; 4; 16; 24; 0; 0];
  [0; 0; 0; 0; 0; 0; 127; 254; 64; 2; 64; 2; 64; 2; 0; 0];
  [0; 0; 48; 0; 12; 0; 3; 128; 0; 96; 0; 28; 0; 3; 0; 0];
  [0; 0; 64; 2; 64; 2; 64; 2; 127; 254; 0; 0; 0; 0; 0; 0];
  [0; 0; 0; 0; 32; 0; 64; 0; 64; 0; 64; 0; 32; 0; 0; 0];
  [0; 1; 0; 1; 0; 1; 0; 1; 0; 1; 0; 1; 0; 1; 0; 1];
  [0; 0; 64; 0; 64; 0; 32; 0; 0; 0; 0; 0; 0; 0; 0; 0];
  [0; 0; 0; 152; 1; 36; 1; 68; 1; 68; 1; 68; 0; 252; 0; 4];
  [16; 0; 31; 252; 0; 136; 1; 4; 1; 4; 0; 136; 0; 112; 0; 0];
  [0; 0; 0; 112; 0; 136; 1; 4; 1; 4; 1; 4; 0; 136; 0; 0];
  [0; 0; 0; 112; 0; 136; 1; 4; 1; 4; 17; 8; 31; 252; 0; 4];
  [0; 0; 0; 248; 1; 68; 1; 68; 1; 68; 1; 68; 0; 200; 0; 0];
  [0; 0; 1; 4; 1; 4; 15; 252; 17; 4; 17; 4; 17; 0; 24; 0];
  [0; 0; 0; 214; 1; 41; 1; 41; 1; 41; 1; 201; 1; 6; 0; 0];
  [16; 4; 31; 252; 0; 132; 1; 0; 1; 0; 1; 4; 0; 252; 0; 4];
  [0; 0; 1; 4; 25; 4; 25; 252; 0; 4; 0; 4; 0; 0; 0; 0];
  [0; 0; 0; 3; 0; 1; 1; 1; 25; 1; 25; 254; 0; 0; 0; 0];
  [16; 4; 31; 252; 0; 36; 0; 64; 1; 180; 1; 12; 1; 4; 0; 0];
  [0; 0; 16; 4; 16; 4; 31; 252; 0; 4; 0; 4; 0; 0; 0; 0];
  [1; 4; 1; 252; 1; 4; 1; 0; 1; 252; 1; 4; 1; 0; 0; 252];
  [1; 4; 1; 252; 0; 132; 1; 0; 1; 0; 1; 4; 0; 252; 0; 4];
  [0; 0; 0; 248; 1; 4; 1; 4; 1; 4; 1; 4; 0; 248; 0; 0];
  [1; 1; 1; 255; 0; 133; 1; 4; 1; 4; 0; 136; 0; 112; 0; 0];
  [0; 0; 0; 112; 0; 136; 1; 4; 1; 4; 1; 5; 1; 255; 0; 1];
  [1; 4; 1; 4; 1; 252; 0; 132; 1; 4; 1; 0; 1; 128; 0; 0];
  [0; 0; 0; 204; 1; 36; 1; 36; 1; 36; 1; 36; 1; 152; 0; 0];
  [0; 0; 1; 0; 1; 0; 7; 248; 1; 4; 1; 4; 0; 0; 0; 0];
  [1; 0; 1; 248; 0; 4; 0; 4; 0; 4; 1; 8; 1; 252; 0; 4];
  [1; 0; 1; 128; 1; 112; 0; 12; 0; 16; 1; 96; 1; 128; 1; 0];
  [1; 240; 1; 12; 0; 48; 1; 192; 0; 48; 1; 12; 1; 240; 1; 0];
  [0; 0; 1; 4; 1; 140; 0; 116; 1; 112; 1; 140; 1; 4; 0; 0];
  [1; 1; 1; 129; 1; 113; 0; 14; 0; 24; 1; 96; 1; 128; 1; 0];
  [0; 0; 1; 132; 1; 12; 1; 52; 1; 68; 1; 132; 1; 12; 0; 0];
  [0; 0; 0; 0; 0; 0; 0; 0; 1; 0; 62; 252; 64; 2; 64; 2];
  [0; 0; 0; 0; 0; 0; 0; 0; 255; 255; 0; 0; 0; 0; 0; 0];
  [0; 0; 64; 2; 64; 2; 62; 252; 1; 0; 0; 0; 0; 0; 0; 0];
  [0; 0; 96; 0; 128; 0; 128; 0; 64; 0; 64; 0; 32; 0; 32; 0]].

Definition asc2_2412 : list (list Z) := [
  [0; 0; 0; 0; 0; 0; 0; 0; 0; 0; 0; 0; 0; 0; 0; 0; 0; 0; 0; 0; 0; 0; 0; 0; 0; 0; 0; 0; 0; 0; 0; 0; 0; 0; 0; 0];
  [0; 0; 0; 0; 0; 0; 0; 0; 0; 0; 0; 0; 0; 0; 0; 15; 128; 56; 15; 254; 56; 15; 128; 56; 0; 0; 0; 0; 0; 0; 0; 0; 0; 0; 0; 0];
  [0; 0; 0; 0; 0; 0; 1; 0; 0; 6; 0; 0; 12; 0; 0; 56; 0; 0; 49; 0; 0; 6; 0; 0; 12; 0; 0; 56; 0; 0; 48; 0; 0; 0; 0; 0];
  [0; 0; 0; 0; 97; 128; 0; 103; 248; 7; 249; 128; 0; 97; 128; 0; 97; 128; 0; 97; 128; 0; 97; 128; 0; 103; 248; 7; 249; 128; 0; 97; 128; 0; 0; 0];
  [0; 0; 0; 0; 0; 0; 1; 192; 224; 3; 224; 240; 6; 48; 8; 4; 24; 8; 31; 255; 254; 4; 14; 8; 7; 135; 240; 3; 129; 224; 0; 0; 0; 0; 0; 0];
  [1; 240; 0; 6; 12; 0; 4; 4; 8; 6; 12; 112; 1; 249; 192; 0; 14; 0; 0; 59; 224; 0; 236; 24; 7; 8; 8; 4; 12; 24; 0; 3; 224; 0; 0; 0];
  [0; 1; 224; 0; 7; 240; 3; 248; 24; 4; 28; 8; 4; 23; 8; 7; 225; 208; 3; 192; 224; 0; 35; 176; 0; 60; 8; 0; 32; 8; 0; 0; 16; 0; 0; 0];
  [0; 0; 0; 1; 0; 0; 49; 0; 0; 50; 0; 0; 28; 0; 0; 0; 0; 0; 0; 0; 0; 0; 0; 0; 0; 0; 0; 0; 0; 0; 0; 0; 0; 0; 0; 0];
  [0; 0; 0; 0; 0; 0; 0; 0; 0; 0; 0; 0; 0; 0; 0; 0; 127; 0; 1; 255; 192; 7; 128; 240; 12; 0; 24; 16; 0; 4; 32; 0; 2; 0; 0; 0];
  [0; 0; 0; 32; 0; 2; 16; 0; 4; 12; 0; 24; 7; 128; 240; 1; 255; 192; 0; 127; 0; 0; 0; 0; 0; 0; 0; 0; 0; 0; 0; 0; 0; 0; 0; 0];
  [0; 0; 0; 0; 66; 0; 0; 102; 0; 0; 102; 0; 0; 60; 0; 0; 24; 0; 3; 255; 192; 0; 24; 0; 0; 60; 0; 0; 102; 0; 0; 102; 0; 0; 66; 0];
  [0; 0; 0; 0; 8; 0; 0; 8; 0; 0; 8; 0; 0; 8; 0; 0; 8; 0; 1; 255; 192; 0; 8; 0; 0; 8; 0; 0; 8; 0; 0; 8; 0; 0; 8; 0];
  [0; 0; 0; 0; 0; 1; 0; 0; 49; 0; 0; 50; 0; 0; 28; 0; 0; 0; 0; 0; 0; 0; 0; 0; 0; 0; 0; 0; 0; 0; 0; 0; 0; 0; 0; 0];
  [0; 0; 0; 0; 8; 0; 0; 8; 0; 0; 8; 0; 0; 8; 0; 0; 8; 0; 0; 8; 0; 0; 8; 0; 0; 8; 0; 0; 8; 0; 0; 8; 0; 0; 0; 0];
  [0; 0; 0; 0; 0; 0; 0; 0; 56; 0; 0; 56; 0; 0; 56; 0; 0; 0; 0; 0; 0; 0; 0; 0; 0; 0; 0; 0; 0; 0; 0; 0; 0; 0; 0; 0];
  [0; 0; 0; 0; 0; 6; 0; 0; 28; 0; 0; 112; 0; 1; 128; 0; 14; 0; 0; 56; 0; 0; 192; 0; 7; 0; 0; 28; 0; 0; 48; 0; 0; 0; 0; 0];
  [0; 0; 0; 0; 127; 128; 1; 255; 224; 3; 128; 112; 6; 0; 24; 4; 0; 8; 4; 0; 8; 6; 0; 24; 3; 128; 112; 1; 255; 224; 0; 127; 128; 0; 0; 0];
  [0; 0; 0; 0; 0; 0; 1; 0; 8; 1; 0; 8; 1; 0; 8; 3; 255; 248; 7; 255; 248; 0; 0; 8; 0; 0; 8; 0; 0; 8; 0; 0; 0; 0; 0; 0];
  [0; 0; 0; 1; 192; 56; 2; 192; 88; 4; 0; 152; 4; 1; 24; 4; 2; 24; 4; 4; 24; 6; 28; 24; 3; 248; 24; 1; 224; 248; 0; 0; 0; 0; 0; 0];
  [0; 0; 0; 1; 192; 224; 3; 192; 240; 4; 0; 8; 4; 8; 8; 4; 8; 8; 6; 24; 8; 3; 244; 24; 1; 231; 240; 0; 1; 224; 0; 0; 0; 0; 0; 0];
  [0; 0; 0; 0; 3; 0; 0; 13; 0; 0; 17; 0; 0; 97; 0; 0; 129; 8; 3; 1; 8; 7; 255; 248; 15; 255; 248; 0; 1; 8; 0; 1; 8; 0; 0; 0];
  [0; 0; 0; 0; 0; 224; 7; 252; 208; 6; 8; 8; 6; 16; 8; 6; 16; 8; 6; 16; 8; 6; 24; 56; 6; 15; 240; 6; 7; 192; 0; 0; 0; 0; 0; 0];
  [0; 0; 0; 0; 63; 128; 1; 255; 224; 3; 132; 48; 2; 8; 24; 4; 16; 8; 4; 16; 8; 4; 16; 8; 7; 24; 16; 3; 15; 240; 0; 7; 192; 0; 0; 0];
  [0; 0; 0; 0; 0; 0; 3; 192; 0; 7; 0; 0; 6; 0; 0; 6; 0; 248; 6; 7; 248; 6; 24; 0; 6; 224; 0; 7; 0; 0; 6; 0; 0; 0; 0; 0];
  [0; 0; 0; 1; 225; 224; 3; 247; 240; 6; 52; 16; 4; 24; 8; 4; 24; 8; 4; 12; 8; 4; 12; 8; 6; 22; 24; 3; 243; 240; 1; 193; 224; 0; 0; 0];
  [0; 0; 0; 0; 248; 0; 3; 252; 48; 3; 6; 56; 4; 2; 8; 4; 2; 8; 4; 2; 8; 4; 4; 16; 3; 8; 240; 1; 255; 192; 0; 127; 0; 0; 0; 0];
  [0; 0; 0; 0; 0; 0; 0; 0; 0; 0; 0; 0; 0; 0; 0; 0; 112; 56; 0; 112; 56; 0; 112; 56; 0; 0; 0; 0; 0; 0; 0; 0; 0; 0; 0; 0];
  [0; 0; 0; 0; 0; 0; 0; 0; 0; 0; 0; 0; 0; 0; 0; 0; 48; 26; 0; 48; 28; 0; 0; 0; 0; 0; 0; 0; 0; 0; 0; 0; 0; 0; 0; 0];
  [0; 0; 0; 0; 0; 0; 0; 8; 0; 0; 20; 0; 0; 34; 0; 0; 65; 0; 0; 128; 128; 1; 0; 64; 2; 0; 32; 4; 0; 16; 8; 0; 8; 0; 0; 0];
  [0; 0; 0; 0; 33; 0; 0; 33; 0; 0; 33; 0; 0; 33; 0; 0; 33; 0; 0; 33; 0; 0; 33; 0; 0; 33; 0; 0; 33; 0; 0; 33; 0; 0; 0; 0];
  [0; 0; 0; 0; 0; 0; 8; 0; 8; 4; 0; 16; 2; 0; 32; 1; 0; 64; 0; 128; 128; 0; 65; 0; 0; 34; 0; 0; 20; 0; 0; 8; 0; 0; 0; 0];
  [0; 0; 0; 3; 192; 0; 4; 192; 0; 4; 0; 0; 8; 0; 56; 8; 15; 56; 8; 8; 56; 8; 16; 0; 12; 48; 0; 7; 224; 0; 3; 192; 0; 0; 0; 0];
  [0; 0; 0; 0; 63; 128; 0; 255; 224; 3; 128; 112; 2; 15; 16; 6; 112; 136; 4; 192; 136; 4; 131; 8; 4; 127; 136; 2; 192; 144; 3; 1; 32; 0; 254; 64];
  [0; 0; 8; 0; 0; 24; 0; 1; 248; 0; 62; 8; 1; 194; 0; 7; 2; 0; 7; 226; 0; 0; 254; 0; 0; 31; 200; 0; 1; 248; 0; 0; 56; 0; 0; 8];
  [4; 0; 8; 7; 255; 248; 7; 255; 248; 4; 8; 8; 4; 8; 8; 4; 8; 8; 4; 8; 8; 6; 24; 8; 3; 244; 24; 1; 231; 240; 0; 1; 224; 0; 0; 0];
  [0; 0; 0; 0; 63; 128; 1; 255; 224; 3; 128; 112; 2; 0; 24; 4; 0; 8; 4; 0; 8; 4; 0; 8; 4; 0; 16; 6; 0; 32; 7; 128; 192; 0; 0; 0];
  [4; 0; 8; 7; 255; 248; 7; 255; 248; 4; 0; 8; 4; 0; 8; 4; 0; 8; 4; 0; 24; 2; 0; 16; 3; 128; 112; 1; 255; 224; 0; 127; 128; 0; 0; 0];
  [4; 0; 8; 7; 255; 248; 7; 255; 248; 4; 8; 8; 4; 8; 8; 4; 8; 8; 4; 8; 8; 4; 62; 8; 4; 0; 8; 6; 0; 24; 1; 0; 96; 0; 0; 0];
  [4; 0; 8; 7; 255; 248; 7; 255; 248; 4; 8; 8; 4; 8; 0; 4; 8; 0; 4; 8; 0; 4; 62; 0; 6; 0; 0; 6; 0; 0; 1; 128; 0; 0; 0; 0];
  [0; 0; 0; 0; 63; 128; 1; 255; 224; 3; 128; 112; 6; 0; 24; 4; 0; 8; 4; 2; 8; 4; 2; 8; 2; 3; 240; 7; 131; 240; 0; 2; 0; 0; 2; 0];
  [4; 0; 8; 7; 255; 248; 7; 255; 248; 4; 8; 8; 0; 8; 0; 0; 8; 0; 0; 8; 0; 0; 8; 0; 4; 8; 8; 7; 255; 248; 7; 255; 248; 4; 0; 8];
  [0; 0; 0; 0; 0; 0; 4; 0; 8; 4; 0; 8; 4; 0; 8; 7; 255; 248; 7; 255; 248; 4; 0; 8; 4; 0; 8; 4; 0; 8; 0; 0; 0; 0; 0; 0];
  [0; 0; 0; 0; 0; 6; 0; 0; 7; 0; 0; 1; 4; 0; 1; 4; 0; 1; 4; 0; 3; 7; 255; 254; 7; 255; 252; 4; 0; 0; 4; 0; 0; 4; 0; 0];
  [4; 0; 8; 7; 255; 248; 7; 255; 248; 4; 12; 8; 0; 24; 0; 0; 62; 0; 4; 199; 128; 5; 3; 200; 6; 0; 248; 4; 0; 56; 4; 0; 24; 0; 0; 8];
  [4; 0; 8; 7; 255; 248; 7; 255; 248; 4; 0; 8; 0; 0; 8; 0; 0; 8; 0; 0; 8; 0; 0; 8; 0; 0; 8; 0; 0; 24; 0; 0; 96; 0; 0; 0];
  [4; 0; 8; 7; 255; 248; 7; 128; 8; 7; 252; 0; 0; 127; 192; 0; 3; 248; 0; 7; 192; 0; 120; 0; 7; 128; 8; 7; 255; 248; 7; 255; 248; 4; 0; 8];
  [4; 0; 8; 7; 255; 248; 7; 0; 8; 3; 192; 0; 0; 224; 0; 0; 56; 0; 0; 30; 0; 0; 7; 0; 0; 1; 192; 4; 0; 240; 7; 255; 248; 4; 0; 0];
  [0; 0; 0; 0; 127; 128; 1; 255; 224; 3; 128; 112; 6; 0; 24; 4; 0; 8; 4; 0; 8; 6; 0; 24; 3; 0; 48; 1; 255; 224; 0; 127; 128; 0; 0; 0];
  [4; 0; 8; 7; 255; 248; 7; 255; 248; 4; 4; 8; 4; 4; 0; 4; 4; 0; 4; 4; 0; 4; 4; 0; 6; 12; 0; 3; 248; 0; 1; 240; 0; 0; 0; 0];
  [0; 0; 0; 0; 127; 128; 1; 255; 224; 3; 128; 112; 6; 0; 136; 4; 0; 136; 4; 0; 200; 6; 0; 60; 3; 0; 62; 1; 255; 230; 0; 127; 132; 0; 0; 0];
  [4; 0; 8; 7; 255; 248; 7; 255; 248; 4; 8; 8; 4; 8; 0; 4; 12; 0; 4; 15; 0; 4; 11; 192; 6; 16; 240; 3; 240; 56; 1; 224; 8; 0; 0; 8];
  [0; 0; 0; 1; 224; 248; 3; 240; 48; 6; 48; 16; 4; 24; 8; 4; 24; 8; 4; 12; 8; 4; 12; 8; 2; 6; 24; 2; 7; 240; 7; 129; 224; 0; 0; 0];
  [1; 128; 0; 6; 0; 0; 4; 0; 0; 4; 0; 0; 4; 0; 8; 7; 255; 248; 7; 255; 248; 4; 0; 8; 4; 0; 0; 4; 0; 0; 6; 0; 0; 1; 128; 0];
  [4; 0; 0; 7; 255; 224; 7; 255; 240; 4; 0; 24; 0; 0; 8; 0; 0; 8; 0; 0; 8; 0; 0; 8; 0; 0; 8; 4; 0; 16; 7; 255; 224; 4; 0; 0];
  [4; 0; 0; 6; 0; 0; 7; 224; 0; 7; 254; 0; 4; 31; 224; 0; 1; 248; 0; 0; 56; 0; 1; 224; 4; 62; 0; 7; 192; 0; 6; 0; 0; 4; 0; 0];
  [4; 0; 0; 7; 224; 0; 7; 255; 192; 4; 31; 248; 0; 7; 192; 7; 248; 0; 7; 255; 128; 4; 63; 248; 0; 7; 192; 4; 248; 0; 7; 0; 0; 4; 0; 0];
  [0; 0; 0; 4; 0; 8; 6; 0; 24; 7; 192; 120; 5; 241; 200; 0; 62; 0; 0; 31; 128; 4; 99; 232; 7; 128; 248; 6; 0; 24; 4; 0; 8; 0; 0; 0];
  [4; 0; 0; 6; 0; 0; 7; 128; 0; 7; 224; 8; 4; 124; 8; 0; 31; 248; 0; 7; 248; 0; 24; 8; 4; 224; 8; 7; 0; 0; 6; 0; 0; 4; 0; 0];
  [0; 0; 0; 1; 0; 8; 6; 0; 56; 4; 0; 248; 4; 3; 232; 4; 15; 8; 4; 124; 8; 5; 240; 8; 7; 192; 8; 7; 0; 24; 4; 0; 96; 0; 0; 0];
  [0; 0; 0; 0; 0; 0; 0; 0; 0; 0; 0; 0; 0; 0; 0; 63; 255; 254; 32; 0; 2; 32; 0; 2; 32; 0; 2; 32; 0; 2; 32; 0; 2; 0; 0; 0];
  [0; 0; 0; 0; 0; 0; 8; 0; 0; 7; 0; 0; 0; 192; 0; 0; 56; 0; 0; 6; 0; 0; 1; 192; 0; 0; 48; 0; 0; 14; 0; 0; 1; 0; 0; 0];
  [0; 0; 0; 0; 0; 0; 32; 0; 2; 32; 0; 2; 32; 0; 2; 32; 0; 2; 32; 0; 2; 63; 255; 254; 0; 0; 0; 0; 0; 0; 0; 0; 0; 0; 0; 0];
  [0; 0; 0; 0; 0; 0; 0; 0; 0; 8; 0; 0; 16; 0; 0; 48; 0; 0; 32; 0; 0; 48; 0; 0; 16; 0; 0; 8; 0; 0; 0; 0; 0; 0; 0; 0];
  [0; 0; 1; 0; 0; 1; 0; 0; 1; 0; 0; 1; 0; 0; 1; 0; 0; 1; 0; 0; 1; 0; 0; 1; 0; 0; 1; 0; 0; 1; 0; 0; 1; 0; 0; 1];
  [0; 0; 0; 0; 0; 0; 0; 0; 0; 32; 0; 0; 32; 0; 0; 16; 0; 0; 16; 0; 0; 0; 0; 0; 0; 0; 0; 0; 0; 0; 0; 0; 0; 0; 0; 0];
  [0; 0; 0; 0; 0; 240; 0; 25; 248; 0; 27; 24; 0; 34; 8; 0; 38; 8; 0; 36; 8; 0; 36; 16; 0; 63; 248; 0; 31; 248; 0; 0; 8; 0; 0; 24];
  [0; 0; 0; 4; 0; 0; 7; 255; 248; 15; 255; 240; 0; 24; 24; 0; 16; 8; 0; 32; 8; 0; 32; 8; 0; 48; 24; 0; 31; 240; 0; 15; 192; 0; 0; 0];
  [0; 0; 0; 0; 7; 192; 0; 31; 240; 0; 24; 48; 0; 32; 8; 0; 32; 8; 0; 32; 8; 0; 60; 8; 0; 28; 16; 0; 0; 96; 0; 0; 0; 0; 0; 0];
  [0; 0; 0; 0; 7; 192; 0; 31; 240; 0; 56; 24; 0; 32; 8; 0; 32; 8; 0; 32; 8; 4; 16; 16; 7; 255; 248; 15; 255; 240; 0; 0; 16; 0; 0; 0];
  [0; 0; 0; 0; 0; 0; 0; 7; 192; 0; 31; 240; 0; 18; 48; 0; 34; 24; 0; 34; 8; 0; 34; 8; 0; 50; 8; 0; 30; 16; 0; 14; 32; 0; 0; 0];
  [0; 0; 0; 0; 32; 0; 0; 32; 8; 0; 32; 8; 1; 255; 248; 3; 255; 248; 6; 32; 8; 4; 32; 8; 4; 32; 8; 7; 32; 0; 3; 0; 0; 0; 0; 0];
  [0; 0; 0; 0; 0; 14; 0; 14; 110; 0; 31; 243; 0; 49; 177; 0; 32; 177; 0; 32; 177; 0; 49; 145; 0; 31; 19; 0; 46; 30; 0; 32; 14; 0; 48; 0];
  [0; 0; 0; 4; 0; 8; 7; 255; 248; 15; 255; 248; 0; 16; 8; 0; 32; 0; 0; 32; 0; 0; 32; 8; 0; 63; 248; 0; 31; 248; 0; 0; 8; 0; 0; 0];
  [0; 0; 0; 0; 0; 0; 0; 32; 8; 0; 32; 8; 0; 32; 8; 6; 63; 248; 6; 63; 248; 0; 0; 8; 0; 0; 8; 0; 0; 8; 0; 0; 0; 0; 0; 0];
  [0; 0; 0; 0; 0; 0; 0; 0; 3; 0; 0; 3; 0; 32; 1; 0; 32; 1; 0; 32; 3; 6; 63; 254; 6; 63; 252; 0; 0; 0; 0; 0; 0; 0; 0; 0];
  [0; 0; 0; 4; 0; 8; 7; 255; 248; 15; 255; 248; 0; 1; 136; 0; 3; 0; 0; 47; 192; 0; 56; 248; 0; 32; 56; 0; 32; 8; 0; 0; 8; 0; 0; 0];
  [0; 0; 0; 0; 0; 0; 4; 0; 8; 4; 0; 8; 4; 0; 8; 7; 255; 248; 15; 255; 248; 0; 0; 8; 0; 0; 8; 0; 0; 8; 0; 0; 0; 0; 0; 0];
  [0; 32; 8; 0; 63; 248; 0; 63; 248; 0; 16; 8; 0; 32; 0; 0; 63; 248; 0; 63; 248; 0; 16; 8; 0; 32; 0; 0; 63; 248; 0; 63; 248; 0; 0; 8];
  [0; 0; 0; 0; 32; 8; 0; 63; 248; 0; 63; 248; 0; 16; 8; 0; 16; 0; 0; 32; 0; 0; 32; 8; 0; 63; 248; 0; 31; 248; 0; 0; 8; 0; 0; 0];
  [0; 0; 0; 0; 7; 192; 0; 15; 240; 0; 24; 48; 0; 48; 8; 0; 32; 8; 0; 32; 8; 0; 48; 8; 0; 24; 48; 0; 15; 240; 0; 7; 192; 0; 0; 0];
  [0; 0; 0; 0; 32; 1; 0; 63; 255; 0; 63; 255; 0; 16; 17; 0; 32; 9; 0; 32; 8; 0; 32; 8; 0; 48; 56; 0; 31; 240; 0; 15; 192; 0; 0; 0];
  [0; 0; 0; 0; 7; 192; 0; 31; 240; 0; 56; 24; 0; 32; 8; 0; 32; 8; 0; 32; 9; 0; 16; 17; 0; 31; 255; 0; 63; 255; 0; 0; 1; 0; 0; 0];
  [0; 32; 8; 0; 32; 8; 0; 32; 8; 0; 63; 248; 0; 63; 248; 0; 8; 8; 0; 16; 8; 0; 32; 8; 0; 32; 0; 0; 48; 0; 0; 48; 0; 0; 0; 0];
  [0; 0; 0; 0; 0; 0; 0; 12; 120; 0; 30; 24; 0; 51; 8; 0; 35; 8; 0; 33; 8; 0; 33; 136; 0; 33; 152; 0; 48; 240; 0; 56; 96; 0; 0; 0];
  [0; 0; 0; 0; 32; 0; 0; 32; 0; 0; 32; 0; 0; 255; 240; 3; 255; 248; 0; 32; 8; 0; 32; 8; 0; 32; 8; 0; 0; 48; 0; 0; 0; 0; 0; 0];
  [0; 0; 0; 0; 32; 0; 0; 63; 240; 0; 127; 248; 0; 0; 24; 0; 0; 8; 0; 0; 8; 0; 32; 16; 0; 63; 248; 0; 127; 240; 0; 0; 16; 0; 0; 0];
  [0; 0; 0; 0; 32; 0; 0; 48; 0; 0; 60; 0; 0; 63; 128; 0; 35; 240; 0; 0; 120; 0; 0; 112; 0; 35; 128; 0; 60; 0; 0; 48; 0; 0; 32; 0];
  [0; 32; 0; 0; 60; 0; 0; 63; 224; 0; 35; 248; 0; 0; 224; 0; 39; 0; 0; 62; 0; 0; 63; 224; 0; 33; 248; 0; 1; 224; 0; 62; 0; 0; 32; 0];
  [0; 0; 0; 0; 32; 8; 0; 32; 8; 0; 56; 56; 0; 62; 104; 0; 39; 128; 0; 3; 200; 0; 44; 248; 0; 56; 56; 0; 32; 24; 0; 32; 8; 0; 0; 0];
  [0; 0; 0; 0; 32; 0; 0; 48; 3; 0; 60; 1; 0; 63; 131; 0; 35; 236; 0; 0; 112; 0; 35; 128; 0; 60; 0; 0; 32; 0; 0; 32; 0; 0; 0; 0];
  [0; 0; 0; 0; 0; 0; 0; 56; 8; 0; 32; 56; 0; 32; 248; 0; 35; 232; 0; 47; 136; 0; 62; 8; 0; 56; 8; 0; 32; 24; 0; 0; 112; 0; 0; 0];
  [0; 0; 0; 0; 0; 0; 0; 0; 0; 0; 0; 0; 0; 0; 0; 0; 8; 0; 0; 20; 0; 31; 247; 252; 48; 0; 6; 32; 0; 2; 0; 0; 0; 0; 0; 0];
  [0; 0; 0; 0; 0; 0; 0; 0; 0; 0; 0; 0; 0; 0; 0; 0; 0; 0; 255; 255; 255; 0; 0; 0; 0; 0; 0; 0; 0; 0; 0; 0; 0; 0; 0; 0];
  [0; 0; 0; 0; 0; 0; 32; 0; 2; 48; 0; 6; 31; 247; 252; 0; 20; 0; 0; 8; 0; 0; 0; 0; 0; 0; 0; 0; 0; 0; 0; 0; 0; 0; 0; 0];
  [0; 0; 0; 24; 0; 0; 96; 0; 0; 64; 0; 0; 64; 0; 0; 32; 0; 0; 16; 0; 0; 8; 0; 0; 4; 0; 0; 4; 0; 0; 12; 0; 0; 16; 0; 0]].

