(* ===== verification/LcdTables.v ===== *)
(** Controller start-up tables: the command sequences [LCD_Init] sends, one per panel
    controller it recognises (applications/lcd.c), in the order of the source.  The long
    ones are split into consecutive parts. *)

From S2P Require Import Prelude.

(** One statement of a start-up sequence. *)
Inductive init_op : Type :=
  | IReg (v : Z)            (* LCD_WR_REG *)
  | IData (v : Z)           (* LCD_WR_DATA *)
  | IWrite (r v : Z)        (* LCD_WriteReg *)
  | IDelay (ticks : Z)      (* rt_thread_delay *)
  | IUsDelay (us : Z)       (* rt_hw_us_delay *)
  | IBackLight (pwm : Z).   (* LCD_SSD_BackLightSet *)

Definition init_9341 : list init_op :=
  [IReg 207; IData 0; IData 193; IData 48; IReg 237; IData 100; IData 3; IData 18; IData 129;
   IReg 232; IData 133; IData 16; IData 122; IReg 203; IData 57; IData 44; IData 0; IData 52;
   IData 2; IReg 247; IData 32; IReg 234; IData 0; IData 0; IReg 192; IData 27; IReg 193; IData 1;
   IReg 197; IData 48; IData 48; IReg 199; IData 183; IReg 54; IData 72; IReg 58; IData 85;
   IReg 177; IData 0; IData 26; IReg 182; IData 10; IData 162; IReg 242; IData 0; IReg 38;
   IData 1; IReg 224; IData 15; IData 42; IData 40; IData 8; IData 14; IData 8; IData 84;
   IData 169; IData 67; IData 10; IData 15; IData 0; IData 0; IData 0; IData 0; IReg 225; IData 0;
   IData 21; IData 23; IData 7; IData 17; IData 6; IData 43; IData 86; IData 60; IData 5;
   IData 16; IData 15; IData 63; IData 63; IData 15; IReg 43; IData 0; IData 0; IData 1; IData 63;
   IReg 42; IData 0; IData 0; IData 0; IData 239; IReg 17; IDelay 120; IReg 41].

Definition init_6804 : list init_op :=
  [IReg 17; IDelay 20; IReg 208; IData 7; IData 66; IData 29; IReg 209; IData 0; IData 26;
   IData 9; IReg 210; IData 1; IData 34; IReg 192; IData 16; IData 59; IData 0; IData 2; IData 17;
   IReg 197; IData 3; IReg 200; IData 0; IData 37; IData 33; IData 5; IData 0; IData 10;
   IData 101; IData 37; IData 119; IData 80; IData 15; IData 0; IReg 248; IData 1; IReg 254;
   IData 0; IData 2; IReg 32; IReg 54; IData 8; IReg 58; IData 85; IReg 43; IData 0; IData 0;
   IData 1; IData 63; IReg 42; IData 0; IData 0; IData 1; IData 223; IDelay 120; IReg 41].

Definition init_5310_1 : list init_op :=
  [IReg 237; IData 1; IData 254; IReg 238; IData 222; IData 33; IReg 241; IData 1; IReg 223;
   IData 16; IReg 196; IData 143; IReg 198; IData 0; IData 226; IData 226; IData 226; IReg 191;
   IData 170; IReg 176; IData 13; IData 0; IData 13; IData 0; IData 17; IData 0; IData 25;
   IData 0; IData 33; IData 0; IData 45; IData 0; IData 61; IData 0; IData 93; IData 0; IData 93;
   IData 0; IReg 177; IData 128; IData 0; IData 139; IData 0; IData 150; IData 0; IReg 178;
   IData 0; IData 0; IData 2; IData 0; IData 3; IData 0; IReg 179; IData 0; IData 0; IData 0;
   IData 0; IData 0; IData 0; IData 0; IData 0; IData 0; IData 0; IData 0; IData 0; IData 0;
   IData 0; IData 0; IData 0; IData 0; IData 0; IData 0; IData 0; IData 0; IData 0; IData 0;
   IData 0; IReg 180; IData 139; IData 0; IData 150; IData 0; IData 161; IData 0; IReg 181;
   IData 2; IData 0; IData 3; IData 0; IData 4; IData 0; IReg 182; IData 0; IData 0; IReg 183;
   IData 0; IData 0; IData 63; IData 0; IData 94; IData 0; IData 100; IData 0; IData 140; IData 0;
   IData 172; IData 0; IData 220; IData 0; IData 112; IData 0; IData 144; IData 0; IData 235;
   IData 0; IData 220; IData 0; IReg 184; IData 0; IData 0; IData 0; IData 0; IData 0; IData 0;
   IData 0; IData 0; IReg 186; IData 36; IData 0; IData 0; IData 0; IReg 193; IData 32; IData 0].

Definition init_5310_2 : list init_op :=
  [IData 84; IData 0; IData 255; IData 0; IReg 194; IData 10; IData 0; IData 4; IData 0; IReg 195;
   IData 60; IData 0; IData 58; IData 0; IData 57; IData 0; IData 55; IData 0; IData 60; IData 0;
   IData 54; IData 0; IData 50; IData 0; IData 47; IData 0; IData 44; IData 0; IData 41; IData 0;
   IData 38; IData 0; IData 36; IData 0; IData 36; IData 0; IData 35; IData 0; IData 60; IData 0;
   IData 54; IData 0; IData 50; IData 0; IData 47; IData 0; IData 44; IData 0; IData 41; IData 0;
   IData 38; IData 0; IData 36; IData 0; IData 36; IData 0; IData 35; IData 0; IReg 196; IData 98;
   IData 0; IData 5; IData 0; IData 132; IData 0; IData 240; IData 0; IData 24; IData 0;
   IData 164; IData 0; IData 24; IData 0; IData 80; IData 0; IData 12; IData 0; IData 23; IData 0;
   IData 149; IData 0; IData 243; IData 0; IData 230; IData 0; IReg 197; IData 50; IData 0;
   IData 68; IData 0; IData 101; IData 0; IData 118; IData 0; IData 136; IData 0; IReg 198;
   IData 32; IData 0; IData 23; IData 0; IData 1; IData 0; IReg 199; IData 0; IData 0; IData 0;
   IData 0; IReg 200; IData 0; IData 0; IData 0; IData 0; IReg 201; IData 0; IData 0; IData 0;
   IData 0; IData 0; IData 0; IData 0; IData 0; IData 0; IData 0; IData 0; IData 0; IData 0;
   IData 0; IData 0; IData 0; IReg 224; IData 22; IData 0; IData 28; IData 0; IData 33; IData 0;
   IData 54; IData 0; IData 70; IData 0].

Definition init_5310_3 : list init_op :=
  [IData 82; IData 0; IData 100; IData 0; IData 122; IData 0; IData 139; IData 0; IData 153;
   IData 0; IData 168; IData 0; IData 185; IData 0; IData 196; IData 0; IData 202; IData 0;
   IData 210; IData 0; IData 217; IData 0; IData 224; IData 0; IData 243; IData 0; IReg 225;
   IData 22; IData 0; IData 28; IData 0; IData 34; IData 0; IData 54; IData 0; IData 69; IData 0;
   IData 82; IData 0; IData 100; IData 0; IData 122; IData 0; IData 139; IData 0; IData 153;
   IData 0; IData 168; IData 0; IData 185; IData 0; IData 196; IData 0; IData 202; IData 0;
   IData 210; IData 0; IData 216; IData 0; IData 224; IData 0; IData 243; IData 0; IReg 226;
   IData 5; IData 0; IData 11; IData 0; IData 27; IData 0; IData 52; IData 0; IData 68; IData 0;
   IData 79; IData 0; IData 97; IData 0; IData 121; IData 0; IData 136; IData 0; IData 151;
   IData 0; IData 166; IData 0; IData 183; IData 0; IData 194; IData 0; IData 199; IData 0;
   IData 209; IData 0; IData 214; IData 0; IData 221; IData 0; IData 243; IData 0; IReg 227;
   IData 5; IData 0; IData 10; IData 0; IData 28; IData 0; IData 51; IData 0; IData 68; IData 0;
   IData 80; IData 0; IData 98; IData 0; IData 120; IData 0; IData 136; IData 0; IData 151;
   IData 0; IData 166; IData 0; IData 183; IData 0; IData 194; IData 0; IData 199; IData 0;
   IData 209; IData 0; IData 213; IData 0; IData 221; IData 0; IData 243; IData 0; IReg 228;
   IData 1; IData 0; IData 1; IData 0; IData 2; IData 0; IData 42; IData 0; IData 60].

Definition init_5310_4 : list init_op :=
  [IData 0; IData 75; IData 0; IData 93; IData 0; IData 116; IData 0; IData 132; IData 0;
   IData 147; IData 0; IData 162; IData 0; IData 179; IData 0; IData 190; IData 0; IData 196;
   IData 0; IData 205; IData 0; IData 211; IData 0; IData 221; IData 0; IData 243; IData 0;
   IReg 229; IData 0; IData 0; IData 0; IData 0; IData 2; IData 0; IData 41; IData 0; IData 60;
   IData 0; IData 75; IData 0; IData 93; IData 0; IData 116; IData 0; IData 132; IData 0;
   IData 147; IData 0; IData 162; IData 0; IData 179; IData 0; IData 190; IData 0; IData 196;
   IData 0; IData 205; IData 0; IData 211; IData 0; IData 220; IData 0; IData 243; IData 0;
   IReg 230; IData 17; IData 0; IData 52; IData 0; IData 86; IData 0; IData 118; IData 0;
   IData 119; IData 0; IData 102; IData 0; IData 136; IData 0; IData 153; IData 0; IData 187;
   IData 0; IData 153; IData 0; IData 102; IData 0; IData 85; IData 0; IData 85; IData 0;
   IData 69; IData 0; IData 67; IData 0; IData 68; IData 0; IReg 231; IData 50; IData 0; IData 85;
   IData 0; IData 118; IData 0; IData 102; IData 0; IData 103; IData 0; IData 103; IData 0;
   IData 135; IData 0; IData 153; IData 0; IData 187; IData 0; IData 153; IData 0; IData 119;
   IData 0; IData 68; IData 0; IData 86; IData 0; IData 35; IData 0; IData 51; IData 0; IData 69;
   IData 0; IReg 232; IData 0; IData 0; IData 153; IData 0; IData 135; IData 0; IData 136;
   IData 0; IData 119; IData 0; IData 102; IData 0; IData 136; IData 0; IData 170; IData 0].

Definition init_5310_5 : list init_op :=
  [IData 187; IData 0; IData 153; IData 0; IData 102; IData 0; IData 85; IData 0; IData 85;
   IData 0; IData 68; IData 0; IData 68; IData 0; IData 85; IData 0; IReg 233; IData 170; IData 0;
   IData 0; IData 0; IReg 0; IData 170; IReg 207; IData 0; IData 0; IData 0; IData 0; IData 0;
   IData 0; IData 0; IData 0; IData 0; IData 0; IData 0; IData 0; IData 0; IData 0; IData 0;
   IData 0; IData 0; IReg 240; IData 0; IData 80; IData 0; IData 0; IData 0; IReg 243; IData 0;
   IReg 249; IData 6; IData 16; IData 41; IData 0; IReg 58; IData 85; IReg 17; IDelay 100;
   IReg 41; IReg 53; IData 0; IReg 81; IData 255; IReg 83; IData 44; IReg 85; IData 130; IReg 44].

Definition init_5510_1 : list init_op :=
  [IWrite 61440 85; IWrite 61441 170; IWrite 61442 82; IWrite 61443 8; IWrite 61444 1;
   IWrite 45056 13; IWrite 45057 13; IWrite 45058 13; IWrite 46592 52; IWrite 46593 52;
   IWrite 46594 52; IWrite 45312 13; IWrite 45313 13; IWrite 45314 13; IWrite 46848 52;
   IWrite 46849 52; IWrite 46850 52; IWrite 45568 0; IWrite 45569 0; IWrite 45570 0;
   IWrite 47104 36; IWrite 47105 36; IWrite 47106 36; IWrite 48896 1; IWrite 45824 15;
   IWrite 45825 15; IWrite 45826 15; IWrite 47360 52; IWrite 47361 52; IWrite 47362 52;
   IWrite 46336 8; IWrite 46337 8; IWrite 46338 8; IWrite 49664 3; IWrite 47616 36;
   IWrite 47617 36; IWrite 47618 36; IWrite 48128 0; IWrite 48129 120; IWrite 48130 0;
   IWrite 48384 0; IWrite 48385 120; IWrite 48386 0; IWrite 48640 0; IWrite 48641 100;
   IWrite 53504 0; IWrite 53505 51; IWrite 53506 0; IWrite 53507 52; IWrite 53508 0;
   IWrite 53509 58; IWrite 53510 0; IWrite 53511 74; IWrite 53512 0; IWrite 53513 92;
   IWrite 53514 0; IWrite 53515 129; IWrite 53516 0; IWrite 53517 166; IWrite 53518 0;
   IWrite 53519 229; IWrite 53520 1; IWrite 53521 19; IWrite 53522 1; IWrite 53523 84;
   IWrite 53524 1; IWrite 53525 130; IWrite 53526 1; IWrite 53527 202; IWrite 53528 2;
   IWrite 53529 0; IWrite 53530 2; IWrite 53531 1; IWrite 53532 2; IWrite 53533 52;
   IWrite 53534 2; IWrite 53535 103; IWrite 53536 2; IWrite 53537 132; IWrite 53538 2;
   IWrite 53539 164; IWrite 53540 2; IWrite 53541 183; IWrite 53542 2; IWrite 53543 207;
   IWrite 53544 2; IWrite 53545 222; IWrite 53546 2; IWrite 53547 242; IWrite 53548 2;
   IWrite 53549 254; IWrite 53550 3; IWrite 53551 16; IWrite 53552 3; IWrite 53553 51;
   IWrite 53554 3; IWrite 53555 109; IWrite 53760 0; IWrite 53761 51; IWrite 53762 0;
   IWrite 53763 52; IWrite 53764 0; IWrite 53765 58; IWrite 53766 0; IWrite 53767 74;
   IWrite 53768 0; IWrite 53769 92; IWrite 53770 0; IWrite 53771 129; IWrite 53772 0;
   IWrite 53773 166; IWrite 53774 0; IWrite 53775 229; IWrite 53776 1; IWrite 53777 19;
   IWrite 53778 1; IWrite 53779 84; IWrite 53780 1; IWrite 53781 130; IWrite 53782 1;
   IWrite 53783 202; IWrite 53784 2; IWrite 53785 0; IWrite 53786 2; IWrite 53787 1;
   IWrite 53788 2; IWrite 53789 52; IWrite 53790 2; IWrite 53791 103; IWrite 53792 2;
   IWrite 53793 132; IWrite 53794 2; IWrite 53795 164; IWrite 53796 2; IWrite 53797 183].

Definition init_5510_2 : list init_op :=
  [IWrite 53798 2; IWrite 53799 207; IWrite 53800 2; IWrite 53801 222; IWrite 53802 2;
   IWrite 53803 242; IWrite 53804 2; IWrite 53805 254; IWrite 53806 3; IWrite 53807 16;
   IWrite 53808 3; IWrite 53809 51; IWrite 53810 3; IWrite 53811 109; IWrite 54016 0;
   IWrite 54017 51; IWrite 54018 0; IWrite 54019 52; IWrite 54020 0; IWrite 54021 58;
   IWrite 54022 0; IWrite 54023 74; IWrite 54024 0; IWrite 54025 92; IWrite 54026 0;
   IWrite 54027 129; IWrite 54028 0; IWrite 54029 166; IWrite 54030 0; IWrite 54031 229;
   IWrite 54032 1; IWrite 54033 19; IWrite 54034 1; IWrite 54035 84; IWrite 54036 1;
   IWrite 54037 130; IWrite 54038 1; IWrite 54039 202; IWrite 54040 2; IWrite 54041 0;
   IWrite 54042 2; IWrite 54043 1; IWrite 54044 2; IWrite 54045 52; IWrite 54046 2;
   IWrite 54047 103; IWrite 54048 2; IWrite 54049 132; IWrite 54050 2; IWrite 54051 164;
   IWrite 54052 2; IWrite 54053 183; IWrite 54054 2; IWrite 54055 207; IWrite 54056 2;
   IWrite 54057 222; IWrite 54058 2; IWrite 54059 242; IWrite 54060 2; IWrite 54061 254;
   IWrite 54062 3; IWrite 54063 16; IWrite 54064 3; IWrite 54065 51; IWrite 54066 3;
   IWrite 54067 109; IWrite 54272 0; IWrite 54273 51; IWrite 54274 0; IWrite 54275 52;
   IWrite 54276 0; IWrite 54277 58; IWrite 54278 0; IWrite 54279 74; IWrite 54280 0;
   IWrite 54281 92; IWrite 54282 0; IWrite 54283 129; IWrite 54284 0; IWrite 54285 166;
   IWrite 54286 0; IWrite 54287 229; IWrite 54288 1; IWrite 54289 19; IWrite 54290 1;
   IWrite 54291 84; IWrite 54292 1; IWrite 54293 130; IWrite 54294 1; IWrite 54295 202;
   IWrite 54296 2; IWrite 54297 0; IWrite 54298 2; IWrite 54299 1; IWrite 54300 2;
   IWrite 54301 52; IWrite 54302 2; IWrite 54303 103; IWrite 54304 2; IWrite 54305 132;
   IWrite 54306 2; IWrite 54307 164; IWrite 54308 2; IWrite 54309 183; IWrite 54310 2;
   IWrite 54311 207; IWrite 54312 2; IWrite 54313 222; IWrite 54314 2; IWrite 54315 242;
   IWrite 54316 2; IWrite 54317 254; IWrite 54318 3; IWrite 54319 16; IWrite 54320 3;
   IWrite 54321 51; IWrite 54322 3; IWrite 54323 109; IWrite 54528 0; IWrite 54529 51;
   IWrite 54530 0; IWrite 54531 52; IWrite 54532 0; IWrite 54533 58; IWrite 54534 0;
   IWrite 54535 74; IWrite 54536 0; IWrite 54537 92; IWrite 54538 0; IWrite 54539 129;
   IWrite 54540 0; IWrite 54541 166; IWrite 54542 0; IWrite 54543 229; IWrite 54544 1;
   IWrite 54545 19; IWrite 54546 1; IWrite 54547 84; IWrite 54548 1; IWrite 54549 130;
   IWrite 54550 1; IWrite 54551 202; IWrite 54552 2; IWrite 54553 0; IWrite 54554 2;
   IWrite 54555 1; IWrite 54556 2].

Definition init_5510_3 : list init_op :=
  [IWrite 54557 52; IWrite 54558 2; IWrite 54559 103; IWrite 54560 2; IWrite 54561 132;
   IWrite 54562 2; IWrite 54563 164; IWrite 54564 2; IWrite 54565 183; IWrite 54566 2;
   IWrite 54567 207; IWrite 54568 2; IWrite 54569 222; IWrite 54570 2; IWrite 54571 242;
   IWrite 54572 2; IWrite 54573 254; IWrite 54574 3; IWrite 54575 16; IWrite 54576 3;
   IWrite 54577 51; IWrite 54578 3; IWrite 54579 109; IWrite 54784 0; IWrite 54785 51;
   IWrite 54786 0; IWrite 54787 52; IWrite 54788 0; IWrite 54789 58; IWrite 54790 0;
   IWrite 54791 74; IWrite 54792 0; IWrite 54793 92; IWrite 54794 0; IWrite 54795 129;
   IWrite 54796 0; IWrite 54797 166; IWrite 54798 0; IWrite 54799 229; IWrite 54800 1;
   IWrite 54801 19; IWrite 54802 1; IWrite 54803 84; IWrite 54804 1; IWrite 54805 130;
   IWrite 54806 1; IWrite 54807 202; IWrite 54808 2; IWrite 54809 0; IWrite 54810 2;
   IWrite 54811 1; IWrite 54812 2; IWrite 54813 52; IWrite 54814 2; IWrite 54815 103;
   IWrite 54816 2; IWrite 54817 132; IWrite 54818 2; IWrite 54819 164; IWrite 54820 2;
   IWrite 54821 183; IWrite 54822 2; IWrite 54823 207; IWrite 54824 2; IWrite 54825 222;
   IWrite 54826 2; IWrite 54827 242; IWrite 54828 2; IWrite 54829 254; IWrite 54830 3;
   IWrite 54831 16; IWrite 54832 3; IWrite 54833 51; IWrite 54834 3; IWrite 54835 109;
   IWrite 61440 85; IWrite 61441 170; IWrite 61442 82; IWrite 61443 8; IWrite 61444 0;
   IWrite 45312 204; IWrite 45313 0; IWrite 46592 5; IWrite 46848 112; IWrite 46849 112;
   IWrite 47104 1; IWrite 47105 3; IWrite 47106 3; IWrite 47107 3; IWrite 48128 2; IWrite 48129 0;
   IWrite 48130 0; IWrite 51456 208; IWrite 51457 2; IWrite 51458 80; IWrite 51459 80;
   IWrite 51460 80; IWrite 13568 0; IWrite 14848 85; IReg 4352; IUsDelay 120; IReg 10496].

Definition init_9325 : list init_op :=
  [IWrite 229 30960; IWrite 1 256; IWrite 2 1792; IWrite 3 4144; IWrite 4 0; IWrite 8 514;
   IWrite 9 0; IWrite 10 0; IWrite 12 0; IWrite 13 0; IWrite 15 0; IWrite 16 0; IWrite 17 7;
   IWrite 18 0; IWrite 19 0; IWrite 7 0; IWrite 16 5776; IWrite 17 551; IWrite 18 157;
   IWrite 19 6400; IWrite 41 37; IWrite 43 13; IWrite 48 7; IWrite 49 771; IWrite 50 3;
   IWrite 53 518; IWrite 54 8; IWrite 55 1030; IWrite 56 772; IWrite 57 7; IWrite 60 1538;
   IWrite 61 8; IWrite 80 0; IWrite 81 239; IWrite 82 0; IWrite 83 319; IWrite 96 42752;
   IWrite 97 1; IWrite 106 0; IWrite 128 0; IWrite 129 0; IWrite 130 0; IWrite 131 0;
   IWrite 132 0; IWrite 133 0; IWrite 144 16; IWrite 146 1536; IWrite 7 307; IWrite 0 34].

Definition init_9328 : list init_op :=
  [IWrite 236 4239; IWrite 239 4660; IWrite 1 256; IWrite 2 1792; IWrite 3 4144; IWrite 4 0;
   IWrite 8 514; IWrite 9 0; IWrite 10 0; IWrite 12 1; IWrite 13 0; IWrite 15 0; IWrite 16 0;
   IWrite 17 7; IWrite 18 0; IWrite 19 0; IWrite 7 1; IDelay 50; IWrite 16 5264; IWrite 17 551;
   IDelay 50; IWrite 18 138; IDelay 50; IWrite 19 6656; IWrite 41 6; IWrite 43 13; IDelay 50;
   IWrite 32 0; IWrite 33 0; IDelay 50; IWrite 48 0; IWrite 49 1540; IWrite 50 773; IWrite 53 0;
   IWrite 54 3081; IWrite 55 516; IWrite 56 769; IWrite 57 1799; IWrite 60 0; IWrite 61 2570;
   IDelay 50; IWrite 80 0; IWrite 81 239; IWrite 82 0; IWrite 83 319; IWrite 96 42752;
   IWrite 97 1; IWrite 106 0; IWrite 128 0; IWrite 129 0; IWrite 130 0; IWrite 131 0;
   IWrite 132 0; IWrite 133 0; IWrite 144 16; IWrite 146 1536; IWrite 7 307].

Definition init_9320 : list init_op :=
  [IWrite 0 0; IWrite 1 256; IWrite 2 1792; IWrite 3 4144; IWrite 4 0; IWrite 8 514; IWrite 9 0;
   IWrite 10 0; IWrite 12 1; IWrite 13 0; IWrite 15 0; IDelay 50; IWrite 7 257; IDelay 50;
   IWrite 16 4288; IWrite 17 7; IWrite 18 272; IWrite 19 2816; IWrite 41 0; IWrite 43 16400;
   IWrite 80 0; IWrite 81 239; IWrite 82 0; IWrite 83 319; IWrite 96 9984; IWrite 97 1;
   IWrite 106 0; IWrite 128 0; IWrite 129 0; IWrite 130 0; IWrite 131 0; IWrite 132 0;
   IWrite 133 0; IWrite 144 16; IWrite 146 0; IWrite 147 1; IWrite 149 272; IWrite 151 0;
   IWrite 152 0; IWrite 7 371].

Definition init_9331 : list init_op :=
  [IWrite 231 4116; IWrite 1 256; IWrite 2 512; IWrite 3 4152; IWrite 8 514; IWrite 9 0;
   IWrite 10 0; IWrite 12 0; IWrite 13 0; IWrite 15 0; IWrite 16 0; IWrite 17 7; IWrite 18 0;
   IWrite 19 0; IDelay 200; IWrite 16 5776; IWrite 17 551; IDelay 50; IWrite 18 12; IDelay 50;
   IWrite 19 2048; IWrite 41 17; IWrite 43 11; IDelay 50; IWrite 32 0; IWrite 33 319; IWrite 48 0;
   IWrite 49 262; IWrite 50 0; IWrite 53 516; IWrite 54 5642; IWrite 55 1799; IWrite 56 262;
   IWrite 57 1799; IWrite 60 1026; IWrite 61 3087; IWrite 80 0; IWrite 81 239; IWrite 82 0;
   IWrite 83 319; IWrite 96 9984; IWrite 97 1; IWrite 106 0; IWrite 128 0; IWrite 129 0;
   IWrite 130 0; IWrite 131 0; IWrite 132 0; IWrite 133 0; IWrite 144 16; IWrite 146 1536;
   IWrite 7 307].

Definition init_5408 : list init_op :=
  [IWrite 1 256; IWrite 2 1792; IWrite 3 4144; IWrite 4 0; IWrite 8 519; IWrite 9 0; IWrite 10 0;
   IWrite 12 0; IWrite 13 0; IWrite 15 0; IDelay 20; IWrite 16 5808; IWrite 17 1; IWrite 23 1;
   IWrite 18 312; IWrite 19 2048; IWrite 41 9; IWrite 42 9; IWrite 164 0; IWrite 80 0;
   IWrite 81 239; IWrite 82 0; IWrite 83 319; IWrite 96 9984; IWrite 97 1; IWrite 106 0;
   IWrite 128 0; IWrite 129 0; IWrite 130 0; IWrite 131 0; IWrite 132 0; IWrite 133 0;
   IWrite 144 19; IWrite 146 0; IWrite 147 3; IWrite 149 272; IWrite 7 371; IDelay 50].

Definition init_1505 : list init_op :=
  [IWrite 7 0; IDelay 50; IWrite 18 284; IWrite 164 1; IWrite 8 15; IWrite 10 8; IWrite 13 8;
   IWrite 48 1799; IWrite 49 7; IWrite 50 1539; IWrite 51 1792; IWrite 52 514; IWrite 53 2;
   IWrite 54 7951; IWrite 55 1799; IWrite 56 0; IWrite 57 0; IWrite 58 1799; IWrite 59 0;
   IWrite 60 7; IWrite 61 0; IDelay 50; IWrite 7 1; IWrite 23 1; IDelay 50; IWrite 16 6048;
   IWrite 17 535; IWrite 18 286; IWrite 19 3840; IWrite 42 0; IWrite 41 10; IWrite 18 318;
   IWrite 80 0; IWrite 81 239; IWrite 82 0; IWrite 83 319; IWrite 96 9984; IWrite 97 1;
   IWrite 106 0; IWrite 128 0; IWrite 129 0; IWrite 130 0; IWrite 131 0; IWrite 132 0;
   IWrite 133 0; IWrite 144 19; IWrite 146 768; IWrite 147 5; IWrite 149 0; IWrite 151 0;
   IWrite 152 0; IWrite 1 256; IWrite 2 1792; IWrite 3 4152; IWrite 4 0; IWrite 12 0; IWrite 15 0;
   IWrite 32 0; IWrite 33 0; IWrite 7 33; IDelay 20; IWrite 7 97; IDelay 20; IWrite 7 371;
   IDelay 20].

Definition init_B505 : list init_op :=
  [IWrite 0 0; IWrite 0 0; IWrite 0 0; IWrite 0 0; IWrite 164 1; IDelay 20; IWrite 96 9984;
   IWrite 8 514; IWrite 48 532; IWrite 49 14101; IWrite 50 1540; IWrite 51 3606; IWrite 52 8721;
   IWrite 53 5376; IWrite 54 34055; IWrite 55 5127; IWrite 56 5123; IWrite 57 32; IWrite 144 26;
   IWrite 16 0; IWrite 17 7; IWrite 18 0; IWrite 19 0; IDelay 20; IWrite 16 1840; IWrite 17 311;
   IDelay 20; IWrite 18 440; IDelay 20; IWrite 19 3840; IWrite 42 128; IWrite 41 72; IDelay 20;
   IWrite 1 256; IWrite 2 1792; IWrite 3 4152; IWrite 8 514; IWrite 10 0; IWrite 12 0;
   IWrite 13 0; IWrite 14 48; IWrite 80 0; IWrite 81 239; IWrite 82 0; IWrite 83 319;
   IWrite 96 9984; IWrite 97 1; IWrite 106 0; IWrite 144 17; IWrite 146 1536; IWrite 147 1026;
   IWrite 148 2; IDelay 20; IWrite 7 1; IDelay 20; IWrite 7 97; IWrite 7 371; IWrite 32 0;
   IWrite 33 0; IWrite 0 34].

Definition init_C505 : list init_op :=
  [IWrite 0 0; IWrite 0 0; IDelay 20; IWrite 0 0; IWrite 0 0; IWrite 0 0; IWrite 0 0;
   IWrite 164 1; IDelay 20; IWrite 96 9984; IWrite 8 2054; IWrite 48 1795; IWrite 49 1;
   IWrite 50 4; IWrite 51 258; IWrite 52 768; IWrite 53 259; IWrite 54 31; IWrite 55 1795;
   IWrite 56 1; IWrite 57 4; IWrite 144 21; IWrite 16 1040; IWrite 17 583; IWrite 18 444;
   IWrite 19 3584; IDelay 120; IWrite 1 256; IWrite 2 512; IWrite 3 4144; IWrite 10 8;
   IWrite 12 0; IWrite 14 32; IWrite 15 0; IWrite 32 0; IWrite 33 0; IWrite 42 61; IDelay 20;
   IWrite 41 45; IWrite 80 0; IWrite 81 53487; IWrite 82 0; IWrite 83 319; IWrite 97 0;
   IWrite 106 0; IWrite 146 768; IWrite 147 5; IWrite 7 256].

Definition init_4531 : list init_op :=
  [IWrite 0 1; IDelay 10; IWrite 16 5672; IWrite 18 14; IWrite 19 2617; IDelay 10; IWrite 17 64;
   IWrite 21 80; IDelay 10; IWrite 18 30; IDelay 10; IWrite 16 5664; IWrite 19 10809; IDelay 10;
   IWrite 1 256; IWrite 2 768; IWrite 3 4152; IWrite 8 514; IWrite 10 8; IWrite 48 0;
   IWrite 49 1026; IWrite 50 262; IWrite 51 1283; IWrite 52 260; IWrite 53 769; IWrite 54 1799;
   IWrite 55 773; IWrite 56 520; IWrite 57 3851; IWrite 65 2; IWrite 96 9984; IWrite 97 1;
   IWrite 144 528; IWrite 146 266; IWrite 147 4; IWrite 160 256; IWrite 7 1; IWrite 7 33;
   IWrite 7 35; IWrite 7 51; IWrite 7 307; IWrite 160 0].

Definition init_4535 : list init_op :=
  [IWrite 21 48; IWrite 154 16; IWrite 17 32; IWrite 16 13352; IWrite 18 2; IWrite 19 4152;
   IDelay 40; IWrite 18 18; IDelay 40; IWrite 16 13344; IWrite 19 12344; IDelay 70; IWrite 48 0;
   IWrite 49 1026; IWrite 50 775; IWrite 51 772; IWrite 52 4; IWrite 53 1025; IWrite 54 1799;
   IWrite 55 773; IWrite 56 1552; IWrite 57 1552; IWrite 1 256; IWrite 2 768; IWrite 3 4144;
   IWrite 8 2056; IWrite 10 8; IWrite 96 9984; IWrite 97 1; IWrite 144 318; IWrite 146 256;
   IWrite 147 256; IWrite 160 12288; IWrite 163 16; IWrite 7 1; IWrite 7 33; IWrite 7 35;
   IWrite 7 51; IWrite 7 307].

Definition init_1963 : list init_op :=
  [IReg 226; IData 29; IData 2; IData 4; IUsDelay 100; IReg 224; IData 1; IDelay 10; IReg 224;
   IData 3; IDelay 12; IReg 1; IDelay 10; IReg 230; IData 47; IData 255; IData 255; IReg 176;
   IData 32; IData 0; IData 3; IData 799; IData 1; IData 479; IData 0; IReg 180; IData 4;
   IData 1055; IData 0; IData 46; IData 0; IData 0; IData 0; IData 0; IReg 182; IData 2;
   IData 524; IData 0; IData 23; IData 21; IData 0; IData 0; IReg 240; IData 3; IReg 41; IReg 208;
   IData 0; IReg 190; IData 5; IData 254; IData 1; IData 0; IData 0; IData 0; IReg 184; IData 3;
   IData 1; IReg 186; IData 1; IBackLight 100].

(** The [else if] chain on [lcddev.id]; an unknown controller gets no commands. *)
Definition init_sequence (id : Z) : list init_op :=
  if id =? 37697 then init_9341
  else if id =? 26628 then init_6804
  else if id =? 21264 then init_5310_1 ++ init_5310_2 ++ init_5310_3 ++ init_5310_4 ++ init_5310_5
  else if id =? 21776 then init_5510_1 ++ init_5510_2 ++ init_5510_3
  else if id =? 37669 then init_9325
  else if id =? 37672 then init_9328
  else if id =? 37664 then init_9320
  else if id =? 37681 then init_9331
  else if id =? 21512 then init_5408
  else if id =? 5381 then init_1505
  else if id =? 46341 then init_B505
  else if id =? 50437 then init_C505
  else if id =? 17713 then init_4531
  else if id =? 17717 then init_4535
  else if id =? 6499 then init_1963
  else [].
