(* ===== verification/Lcd.v ===== *)
(** TFT display driver: applications/lcd.c and lcd.h.

    The display is reached through two memory-mapped registers.  The model keeps every
    access the driver makes to them, newest first; what a read returns is a function of
    the accesses so far ([LcdPanel]), which is all the driver can know of the panel. *)

From S2P Require Import Prelude CLib Float32 Font LcdTables.

(** * State *)

(** A store to [LCD->LCD_REG] or [LCD->LCD_RAM], and a load of the latter. *)
Inductive access : Type :=
  | Reg (v : Z)
  | Ram (v : Z)
  | Load (v : Z).

Class LcdPanel : Type := lcd_ram : list access → Z.

(** [lcddev], the two colours, the timing register and the console. *)
Record lcd : Type := MkLcd {
  width : Z; height : Z; id : Z; dir : Z; wramcmd : Z; setxcmd : Z; setycmd : Z;
  POINT_COLOR : Z; BACK_COLOR : Z; bwtr : Z; led : bool; bus : list access; console : cstr }.
#[export] Instance eta_lcd : Eta lcd := λ w,
  MkLcd (width w) (height w) (id w) (dir w) (wramcmd w) (setxcmd w) (setycmd w)
    (POINT_COLOR w) (BACK_COLOR w) (bwtr w) (led w) (bus w) (console w).

Definition WHITE : Z := 65535.
Definition L2R_U2D := 0.
Definition L2R_D2U := 1.
Definition R2L_U2D := 2.
Definition R2L_D2U := 3.
Definition U2D_L2R := 4.
Definition U2D_R2L := 5.
Definition D2U_L2R := 6.
Definition D2U_R2L := 7.
Definition DFT_SCAN_DIR := U2D_R2L.

(** * Bus accesses *)

Definition put (a : access) : io lcd unit := modify (λ w, w <| bus := a :: bus w |>).
Definition LCD_WR_REG (regval : Z) : io lcd unit := put (Reg (u16 regval)).
Definition LCD_WR_DATA (data : Z) : io lcd unit := put (Ram (u16 data)).
Definition LCD_RD_DATA `{LcdPanel} : io lcd Z := λ w,
  let v := u16 (lcd_ram (bus w)) in Ret (v, w <| bus := Load v :: bus w |>).
Definition LCD_WriteReg (LCD_Reg LCD_RegValue : Z) : io lcd unit :=
  put (Reg (u16 LCD_Reg)) ;; put (Ram (u16 LCD_RegValue)).
Definition LCD_ReadReg `{LcdPanel} (LCD_Reg : Z) : io lcd Z :=
  LCD_WR_REG LCD_Reg ;; LCD_RD_DATA.
Definition LCD_WriteRAM_Prepare : io lcd unit := w ← gets wramcmd; put (Reg w).
Definition LCD_WriteRAM (RGB_Code : Z) : io lcd unit := put (Ram (u16 RGB_Code)).

Definition LCD_BGR2RGB (c : Z) : Z :=
  let b := Z.land c 31 in
  let g := Z.land (Z.shiftr c 5) 63 in
  let r := Z.land (Z.shiftr c 11) 31 in
  u16 (Z.shiftl b 11 + Z.shiftl g 5 + r).

(** [lcddev.id == a || lcddev.id == b || ...]. *)
Definition id_in (ids : list Z) : io lcd bool := i ← gets id; mret (existsb (Z.eqb i) ids).

Definition hi (v : Z) : Z := Z.shiftr v 8.
Definition lo (v : Z) : Z := Z.land v 255.

(** Two data words, high byte first: [LCD_WR_DATA(v>>8); LCD_WR_DATA(v&0XFF)]. *)
Definition data2 (v : Z) : io lcd unit := LCD_WR_DATA (hi v) ;; LCD_WR_DATA (lo v).
(** The same with a command before each word, as the NT35510 wants it. *)
Definition cmd2 (cmd v : Z) : io lcd unit :=
  LCD_WR_REG cmd ;; LCD_WR_DATA (hi v) ;; LCD_WR_REG (cmd + 1) ;; LCD_WR_DATA (lo v).

(** [if (lcddev.dir == d) x = lcddev.width - 1 - x]. *)
Definition mirror (d x : Z) : io lcd Z :=
  dr ← gets dir; w ← gets width;
  mret (if dr =? d then u16 (w - 1 - x) else x).

Definition LCD_SetCursor (Xpos Ypos : Z) : io lcd unit :=
  setx ← gets setxcmd; sety ← gets setycmd;
  w ← gets width; h ← gets height; d ← gets dir;
  plain ← id_in [37697; 21264];
  if plain : bool then
    LCD_WR_REG setx ;; data2 Xpos ;; LCD_WR_REG sety ;; data2 Ypos
  else
  is6804 ← id_in [26628];
  if is6804 : bool then
    Xpos ← mirror 1 Xpos;
    LCD_WR_REG setx ;; data2 Xpos ;; LCD_WR_REG sety ;; data2 Ypos
  else
  is1963 ← id_in [6499];
  if is1963 : bool then
    (if d =? 0 then
       let Xpos := u16 (w - 1 - Xpos) in
       LCD_WR_REG setx ;; LCD_WR_DATA 0 ;; LCD_WR_DATA 0 ;; data2 Xpos
     else LCD_WR_REG setx ;; data2 Xpos ;; data2 (w - 1)) ;;
    LCD_WR_REG sety ;; data2 Ypos ;; data2 (h - 1)
  else
  is5510 ← id_in [21776];
  if is5510 : bool then cmd2 setx Xpos ;; cmd2 sety Ypos
  else
    Xpos ← mirror 1 Xpos;
    LCD_WriteReg setx Xpos ;; LCD_WriteReg sety Ypos.

Definition LCD_ReadPoint `{LcdPanel} (x y : Z) : io lcd Z :=
  w ← gets width; h ← gets height; i ← gets id;
  if (w <=? x) || (h <=? y) then mret 0
  else
    LCD_SetCursor x y ;;
    (if existsb (Z.eqb i) [37697; 26628; 21264; 6499] then LCD_WR_REG 46
     else if i =? 21776 then LCD_WR_REG 11776
     else LCD_WR_REG 34) ;;
    r ← LCD_RD_DATA;
    if i =? 6499 then mret r
    else
      r ← LCD_RD_DATA;
      '(b, g) ← (if existsb (Z.eqb i) [37697; 21264; 21776] then
                   b ← LCD_RD_DATA; mret (b, u16 (Z.shiftl (Z.land r 255) 8))
                 else mret (0, 0));
      mret (if existsb (Z.eqb i) [37669; 17717; 17713; 46341; 50437] then r
            else if existsb (Z.eqb i) [37697; 21264; 21776] then
              Z.lor (Z.lor (Z.shiftl (Z.shiftr r 11) 11) (Z.shiftl (Z.shiftr g 10) 5))
                (Z.shiftr b 11)
            else LCD_BGR2RGB r).

Definition LCD_DisplayOn : io lcd unit :=
  i ← gets id;
  if existsb (Z.eqb i) [37697; 26628; 21264; 6499] then LCD_WR_REG 41
  else if i =? 21776 then LCD_WR_REG 10496
  else LCD_WriteReg 7 371.
Definition LCD_DisplayOff : io lcd unit :=
  i ← gets id;
  if existsb (Z.eqb i) [37697; 26628; 21264; 6499] then LCD_WR_REG 40
  else if i =? 21776 then LCD_WR_REG 10240
  else LCD_WriteReg 7 0.

(** * Orientation *)

(** The direction exchange of a landscape panel (portrait for the SSD1963). *)
Definition turn_dir (d : Z) : Z :=
  if d =? 0 then 6 else if d =? 1 then 7 else if d =? 2 then 4 else if d =? 3 then 5
  else if d =? 4 then 1 else if d =? 5 then 0 else if d =? 6 then 3 else if d =? 7 then 2
  else d.

(** [regval] of the first switch (bits 7, 6, 5) and of the second (bits 5, 4, 3). *)
Definition scan_bits_mipi (d : Z) : Z :=
  if d =? L2R_U2D then 0 else if d =? L2R_D2U then 128 else if d =? R2L_U2D then 64
  else if d =? R2L_D2U then 192 else if d =? U2D_L2R then 32 else if d =? U2D_R2L then 96
  else if d =? D2U_L2R then 160 else if d =? D2U_R2L then 224 else 0.
Definition scan_bits_ili (d : Z) : Z :=
  if d =? L2R_U2D then 48 else if d =? L2R_D2U then 16 else if d =? R2L_U2D then 32
  else if d =? R2L_D2U then 0 else if d =? U2D_L2R then 56 else if d =? U2D_R2L then 40
  else if d =? D2U_L2R then 24 else if d =? D2U_R2L then 8 else 0.

Definition swap_size : io lcd unit :=
  modify (λ w, w <| width := height w |> <| height := width w |>).

(** The window commands at the end of [LCD_Scan_Dir]. *)
Definition full_window : io lcd unit :=
  setx ← gets setxcmd; sety ← gets setycmd; w ← gets width; h ← gets height; i ← gets id;
  if i =? 21776 then
    LCD_WR_REG setx ;; LCD_WR_DATA 0 ;; LCD_WR_REG (setx + 1) ;; LCD_WR_DATA 0 ;;
    cmd2 (setx + 2) (w - 1) ;;
    LCD_WR_REG sety ;; LCD_WR_DATA 0 ;; LCD_WR_REG (sety + 1) ;; LCD_WR_DATA 0 ;;
    cmd2 (sety + 2) (h - 1)
  else
    LCD_WR_REG setx ;; LCD_WR_DATA 0 ;; LCD_WR_DATA 0 ;; data2 (w - 1) ;;
    LCD_WR_REG sety ;; LCD_WR_DATA 0 ;; LCD_WR_DATA 0 ;; data2 (h - 1).

Definition LCD_Scan_Dir (d : Z) : io lcd unit :=
  i ← gets id; dr ← gets dir;
  let d := if ((dr =? 1) && negb (i =? 26628) && negb (i =? 6499)) ||
              ((dr =? 0) && (i =? 6499)) then turn_dir d else d in
  if existsb (Z.eqb i) [37697; 26628; 21264; 21776; 6499] then
    let regval := scan_bits_mipi d in
    let dirreg := if i =? 21776 then 13824 else 54 in
    let regval := if negb (existsb (Z.eqb i) [21264; 21776; 6499]) then Z.lor regval 8 else regval in
    let regval := if i =? 26628 then Z.lor regval 2 else regval in
    LCD_WriteReg dirreg regval ;;
    (if negb (i =? 6499) then
       w ← gets width; h ← gets height;
       if negb (Z.land regval 32 =? 0) then (if w <? h then swap_size else mret tt)
       else (if h <? w then swap_size else mret tt)
     else mret tt) ;;
    full_window
  else
    LCD_WriteReg 3 (Z.lor (scan_bits_ili d) 4096).

(** The members [LCD_Display_Dir] sets: (width, height, wramcmd, setxcmd, setycmd). *)
Definition portrait (i : Z) : Z * Z * Z * Z * Z :=
  if existsb (Z.eqb i) [37697; 26628; 21264] then
    let '(w, h) := if existsb (Z.eqb i) [26628; 21264] then (320, 480) else (240, 320) in
    (w, h, 44, 42, 43)
  else if i =? 21776 then (480, 800, 11264, 10752, 11008)
  else if i =? 6499 then (480, 800, 44, 43, 42)
  else (240, 320, 34, 32, 33).
Definition landscape (i : Z) : Z * Z * Z * Z * Z :=
  let '(w, h, ram, setx, sety) :=
    if existsb (Z.eqb i) [37697; 21264] then (320, 240, 44, 42, 43)
    else if i =? 26628 then (320, 240, 44, 43, 42)
    else if i =? 21776 then (800, 480, 11264, 10752, 11008)
    else if i =? 6499 then (800, 480, 44, 42, 43)
    else (320, 240, 34, 33, 32) in
  if existsb (Z.eqb i) [26628; 21264] then (480, 320, ram, setx, sety)
  else (w, h, ram, setx, sety).

Definition LCD_Display_Dir (d : Z) : io lcd unit :=
  i ← gets id;
  let '(w, h, ram, setx, sety) := if d =? 0 then portrait i else landscape i in
  modify (λ s, s <| dir := if d =? 0 then 0 else 1 |> <| width := w |> <| height := h |>
    <| wramcmd := ram |> <| setxcmd := setx |> <| setycmd := sety |>) ;;
  LCD_Scan_Dir DFT_SCAN_DIR.

Definition LCD_Set_Window (sx sy wid hei : Z) : io lcd unit :=
  setx ← gets setxcmd; sety ← gets setycmd; W ← gets width; d ← gets dir; i ← gets id;
  let twidth := u16 (sx + wid - 1) in
  let theight := u16 (sy + hei - 1) in
  if existsb (Z.eqb i) [37697; 21264; 26628] || ((d =? 1) && (i =? 6499)) then
    LCD_WR_REG setx ;; data2 sx ;; data2 twidth ;;
    LCD_WR_REG sety ;; data2 sy ;; data2 theight
  else if i =? 6499 then
    let sx := u16 (W - wid - sx) in
    let hei := u16 (sy + hei - 1) in
    LCD_WR_REG setx ;; data2 sx ;; data2 (sx + wid - 1) ;;
    LCD_WR_REG sety ;; data2 sy ;; data2 hei
  else if i =? 21776 then
    cmd2 setx sx ;; cmd2 (setx + 2) twidth ;; cmd2 sety sy ;; cmd2 (sety + 2) theight
  else
    let '(hsaval, heaval, vsaval, veaval) :=
      if d =? 1 then (sy, theight, u16 (W - twidth - 1), u16 (W - sx - 1))
      else (sx, twidth, sy, theight) in
    LCD_WriteReg 80 hsaval ;; LCD_WriteReg 81 heaval ;;
    LCD_WriteReg 82 vsaval ;; LCD_WriteReg 83 veaval ;;
    LCD_SetCursor sx sy.

(** * Points, lines and areas *)

Definition LCD_DrawPoint (x y : Z) : io lcd unit :=
  LCD_SetCursor x y ;; LCD_WriteRAM_Prepare ;; c ← gets POINT_COLOR; put (Ram c).

Definition LCD_Fast_DrawPoint (x y color : Z) : io lcd unit :=
  setx ← gets setxcmd; sety ← gets setycmd; i ← gets id;
  (if existsb (Z.eqb i) [37697; 21264] then
     LCD_WR_REG setx ;; data2 x ;; LCD_WR_REG sety ;; data2 y
   else if i =? 21776 then cmd2 setx x ;; cmd2 sety y
   else if i =? 6499 then
     x ← mirror 0 x;
     LCD_WR_REG setx ;; data2 x ;; data2 x ;; LCD_WR_REG sety ;; data2 y ;; data2 y
   else if i =? 26628 then
     x ← mirror 1 x;
     LCD_WR_REG setx ;; data2 x ;; LCD_WR_REG sety ;; data2 y
   else
     x ← mirror 1 x;
     LCD_WriteReg setx x ;; LCD_WriteReg sety y) ;;
  LCD_WriteRAM_Prepare ;; put (Ram color).

(** [LCD_WR_DATA(pwm*2.55)]: the product in double precision, truncated. *)
Definition LCD_SSD_BackLightSet (pwm : Z) : io lcd unit :=
  v ← lift (to_i32 (SpecFloat.SFmul 53 1024 (f64_of_Z pwm) (f64_div (f64_of_Z 255) (f64_of_Z 100))));
  LCD_WR_REG 190 ;; LCD_WR_DATA 5 ;; LCD_WR_DATA v ;; LCD_WR_DATA 1 ;; LCD_WR_DATA 255 ;;
  LCD_WR_DATA 0 ;; LCD_WR_DATA 0.

Definition LCD_Clear (color : Z) : io lcd unit :=
  w ← gets width; h ← gets height; i ← gets id; d ← gets dir;
  let totalpoint := u32 (w * h) in
  (if (i =? 26628) && (d =? 1) then
     modify (λ s, s <| dir := 0 |> <| setxcmd := 42 |> <| setycmd := 43 |>) ;;
     LCD_SetCursor 0 0 ;;
     modify (λ s, s <| dir := 1 |> <| setxcmd := 43 |> <| setycmd := 42 |>)
   else LCD_SetCursor 0 0) ;;
  LCD_WriteRAM_Prepare ;;
  for_ (Z.to_nat totalpoint) 0 (λ _, put (Ram color)).

(** [for (i = sy; i <= ey; i++)] on 16-bit counters; it ends within 65536 rounds or
    never ([ey = 65535]). *)
Fixpoint fill_rows (fuel : nat) (sx i ey xlen color : Z) : io lcd unit :=
  match fuel with
  | O => io_fault Blocked
  | S fuel =>
      if i <=? ey then
        LCD_SetCursor sx i ;;
        LCD_WriteRAM_Prepare ;;
        for_ (Z.to_nat xlen) 0 (λ _, put (Ram color)) ;;
        fill_rows fuel sx (u16 (i + 1)) ey xlen color
      else mret tt
  end.
Definition fill_fuel : nat := Z.to_nat 65537.

Definition LCD_Fill (sx sy ex ey color : Z) : io lcd unit :=
  i ← gets id; d ← gets dir; w ← gets width;
  if (i =? 26628) && (d =? 1) then
    let '(sx', sy', ex', ey') := (sy, u16 (w - ex - 1), ey, u16 (w - sx - 1)) in
    modify (λ s, s <| dir := 0 |> <| setxcmd := 42 |> <| setycmd := 43 |>) ;;
    fill_rows fill_fuel sx' sy' ey' (u16 (ex' - sx' + 1)) color ;;
    modify (λ s, s <| dir := 1 |> <| setxcmd := 43 |> <| setycmd := 42 |>)
  else fill_rows fill_fuel sx sy ey (u16 (ex - sx + 1)) color.

Definition LCD_Color_Fill (sx sy ex ey : Z) (color : list Z) : io lcd unit :=
  let wid := u16 (ex - sx + 1) in
  let hei := u16 (ey - sy + 1) in
  for_ (Z.to_nat hei) 0 (λ i,
    LCD_SetCursor sx (u16 (sy + i)) ;;
    LCD_WriteRAM_Prepare ;;
    for_ (Z.to_nat wid) 0 (λ j,
      match color !! Z.to_nat (i * wid + j) with
      | Some c => put (Ram c)
      | None => io_fault OutOfBounds
      end)).

(** One coordinate of a line: (step, magnitude) of a difference. *)
Definition line_step (delta : Z) : Z * Z :=
  if 0 <? delta then (1, delta) else if delta =? 0 then (0, delta) else (-1, - delta).

(** [for (t = 0; t <= distance + 1; t++)], [t] of 16 bits. *)
Fixpoint line_loop (fuel : nat) (t dx dy distance incx incy uRow uCol xerr yerr : Z) : io lcd unit :=
  match fuel with
  | O => io_fault Blocked
  | S fuel =>
      if t <=? distance + 1 then
        LCD_DrawPoint (u16 uRow) (u16 uCol) ;;
        let xerr := xerr + dx in
        let yerr := yerr + dy in
        let '(xerr, uRow) := if distance <? xerr then (xerr - distance, uRow + incx) else (xerr, uRow) in
        let '(yerr, uCol) := if distance <? yerr then (yerr - distance, uCol + incy) else (yerr, uCol) in
        line_loop fuel (u16 (t + 1)) dx dy distance incx incy uRow uCol xerr yerr
      else mret tt
  end.

Definition LCD_DrawLine (x1 y1 x2 y2 : Z) : io lcd unit :=
  let '(incx, delta_x) := line_step (x2 - x1) in
  let '(incy, delta_y) := line_step (y2 - y1) in
  let distance := if delta_y <? delta_x then delta_x else delta_y in
  line_loop fill_fuel 0 delta_x delta_y distance incx incy x1 y1 0 0.

Definition LCD_DrawRectangle (x1 y1 x2 y2 : Z) : io lcd unit :=
  LCD_DrawLine x1 y1 x2 y1 ;;
  LCD_DrawLine x1 y1 x1 y2 ;;
  LCD_DrawLine x1 y2 x2 y2 ;;
  LCD_DrawLine x2 y1 x2 y2.

(** The eight points of one step of a circle. *)
Definition circle_points (x0 y0 a b : Z) : list (Z * Z) :=
  [(x0 + a, y0 - b); (x0 + b, y0 - a); (x0 + b, y0 + a); (x0 + a, y0 + b);
   (x0 - a, y0 + b); (x0 - b, y0 + a); (x0 - a, y0 - b); (x0 - b, y0 - a)].

(** [while (a <= b)]; [a] grows in every round. *)
Fixpoint circle_loop (fuel : nat) (x0 y0 a b di : Z) : io lcd unit :=
  match fuel with
  | O => io_fault Blocked
  | S fuel =>
      if a <=? b then
        seq_ ((λ '(x, y), LCD_DrawPoint (u16 x) (u16 y)) <$> circle_points x0 y0 a b) ;;
        let a := a + 1 in
        if di <? 0 then circle_loop fuel x0 y0 a b (di + (4 * a + 6))
        else circle_loop fuel x0 y0 a (b - 1) (di + (10 + 4 * (a - b)))
      else mret tt
  end.

Definition LCD_Draw_Circle (x0 y0 r : Z) : io lcd unit :=
  circle_loop 300 x0 y0 0 r (3 - Z.shiftl r 1).

(** * Text *)

(** Bytes of a glyph of the font. *)
Definition glyph_size (size : Z) : Z :=
  u8 ((size / 8 + (if negb (size mod 8 =? 0) then 1 else 0)) * (size / 2)).

(** [asc2_xxxx[num][t]]; [None] when there is no such font. *)
Definition font (size : Z) : option (list (list Z)) :=
  if size =? 12 then Some asc2_1206
  else if size =? 16 then Some asc2_1608
  else if size =? 24 then Some asc2_2412
  else None.
Definition font_byte (f : list (list Z)) (num t : Z) : res Z :=
  match f !! Z.to_nat num with
  | Some row => match row !! Z.to_nat t with Some b => Ret b | None => Fault OutOfBounds end
  | None => Fault OutOfBounds
  end.

(** The eight bits of a font byte, downwards: the next position, or [None] when the
    function returns because the display ends. *)
Fixpoint char_bits (n : nat) (size mode y0 temp x y : Z) : io lcd (option (Z * Z)) :=
  match n with
  | O => mret (Some (x, y))
  | S n =>
      pc ← gets POINT_COLOR; bc ← gets BACK_COLOR;
      (if negb (Z.land temp 128 =? 0) then LCD_Fast_DrawPoint x y pc
       else if mode =? 0 then LCD_Fast_DrawPoint x y bc
       else mret tt) ;;
      w ← gets width; h ← gets height;
      let temp := u8 (Z.shiftl temp 1) in
      let y := u16 (y + 1) in
      if h <=? y then mret None
      else if y - y0 =? size then
        let x := u16 (x + 1) in
        if w <=? x then mret None else mret (Some (x, y0))
      else char_bits n size mode y0 temp x y
  end.

(** [for (t = 0; t < csize; t++)]. *)
Fixpoint char_bytes (n : nat) (f : list (list Z)) (num size mode y0 t x y : Z) : io lcd unit :=
  match n with
  | O => mret tt
  | S n =>
      temp ← lift (font_byte f num t);
      pos ← char_bits 8 size mode y0 temp x y;
      match pos with
      | Some (x, y) => char_bytes n f num size mode y0 (t + 1) x y
      | None => mret tt
      end
  end.

Definition LCD_ShowChar (x y num size mode : Z) : io lcd unit :=
  let csize := glyph_size size in
  let num := u8 (num - 32) in
  match font size with
  | Some f => char_bytes (Z.to_nat csize) f num size mode y 0 x y
  | None => mret tt
  end.

Fixpoint lcd_pow_loop (n : nat) (m result : Z) : Z :=
  match n with O => result | S n => lcd_pow_loop n m (u32 (result * m)) end.
Definition LCD_Pow (m n : Z) : Z := lcd_pow_loop (Z.to_nat (u8 n)) (u8 m) 1.

(** [(num / LCD_Pow(10, len-t-1)) % 10]. *)
Definition num_digit (num len t : Z) : res Z :=
  let d := LCD_Pow 10 (len - t - 1) in
  if d =? 0 then Fault DivByZero else Ret ((num / d) mod 10).

(** [for (t = 0; t < len; t++)]: leading zeros appear as [fill]. *)
Fixpoint show_digits (n : nat) (x y num len size t fill mode : Z) (enshow : bool) : io lcd unit :=
  match n with
  | O => mret tt
  | S n =>
      temp ← lift (num_digit num len t);
      let at_x := u16 (x + size / 2 * t) in
      if negb enshow && (t <? len - 1) && (temp =? 0) then
        LCD_ShowChar at_x y fill size mode ;;
        show_digits n x y num len size (t + 1) fill mode enshow
      else
        LCD_ShowChar at_x y (u8 (temp + 48)) size mode ;;
        show_digits n x y num len size (t + 1) fill mode (enshow || (t <? len - 1))
  end.

Definition LCD_ShowNum (x y num len size : Z) : io lcd unit :=
  show_digits (Z.to_nat len) x y num len size 0 32 0 false.

Definition LCD_ShowxNum (x y num len size mode : Z) : io lcd unit :=
  show_digits (Z.to_nat len) x y num len size 0
    (if negb (Z.land mode 128 =? 0) then 48 else 32) (Z.land mode 1) false.

(** [while (( *p <= '~') && ( *p >= ' '))]: [x0] is an 8-bit copy of [x]. *)
Fixpoint show_string (p : cstr) (x0 x y wid hei size : Z) : io lcd unit :=
  match p with
  | [] => mret tt
  | c :: p =>
      if (c <=? 126) && (32 <=? c) then
        let '(x, y) := if wid <=? x then (x0, u16 (y + size)) else (x, y) in
        if hei <=? y then mret tt
        else
          LCD_ShowChar x y c size 0 ;;
          show_string p x0 (u16 (x + size / 2)) y wid hei size
      else mret tt
  end.

Definition LCD_ShowString (x y wid hei size : Z) (p : cstr) : io lcd unit :=
  show_string p (u8 x) x y (u16 (wid + x)) (u16 (hei + y)) size.

(** * Start-up *)

Section init.
Context `{LcdPanel}.

(** [HAL_SRAM_Init], of the STM32 HAL. *)
Variable hal_sram_init : bool.

Definition MX_FSMC_Init : io lcd unit :=
  if hal_sram_init then mret tt else io_fault Blocked.

Definition set_id (v : Z) : io lcd unit := modify (λ w, w <| id := v |>).

(** [id = RD; id <<= 8; id |= RD], after [n] dummy reads. *)
Fixpoint read_id16 (n : nat) : io lcd unit :=
  match n with
  | S n => v ← LCD_RD_DATA; set_id v ;; read_id16 n
  | O =>
      v ← LCD_RD_DATA; set_id v ;;
      modify (λ w, w <| id := u16 (Z.shiftl (id w) 8) |>) ;;
      v ← LCD_RD_DATA;
      modify (λ w, w <| id := Z.lor (id w) v |>)
  end.

(** The identification of the controller. *)
Definition identify : io lcd unit :=
  LCD_WriteReg 0 1 ;;
  v ← LCD_ReadReg 0; set_id v ;;
  i ← gets id;
  if (i <? 255) || (i =? 65535) || (i =? 37632) then
    LCD_WR_REG 211 ;; read_id16 2 ;;
    i ← gets id;
    if negb (i =? 37697) then
      LCD_WR_REG 191 ;; read_id16 3 ;;
      i ← gets id;
      if negb (i =? 26628) then
        LCD_WR_REG 212 ;; read_id16 2 ;;
        i ← gets id;
        if negb (i =? 21264) then
          LCD_WR_REG 55808 ;; (v ← LCD_RD_DATA; set_id v) ;;
          LCD_WR_REG 56064 ;; (v ← LCD_RD_DATA; set_id v) ;;
          modify (λ w, w <| id := u16 (Z.shiftl (id w) 8) |>) ;;
          LCD_WR_REG 56320 ;;
          (v ← LCD_RD_DATA; modify (λ w, w <| id := Z.lor (id w) v |>)) ;;
          modify (λ w, if id w =? 32768 then w <| id := 21776 |> else w) ;;
          i ← gets id;
          if negb (i =? 21776) then
            LCD_WR_REG 161 ;; read_id16 1 ;;
            modify (λ w, if id w =? 22369 then w <| id := 6499 |> else w)
          else mret tt
        else mret tt
      else mret tt
    else mret tt
  else mret tt.

(** [x &= ~(0XF << s)] and [x |= v << s]. *)
Definition bwtr_clear (s : Z) : io lcd unit :=
  modify (λ w, w <| bwtr := Z.land (bwtr w) (Z.lnot (Z.shiftl 15 s)) |>).
Definition bwtr_set (v s : Z) : io lcd unit :=
  modify (λ w, w <| bwtr := Z.lor (bwtr w) (Z.shiftl v s) |>).

Definition write_timing : io lcd unit :=
  fast ← id_in [37697; 21264; 21776; 6499];
  if fast : bool then bwtr_clear 0 ;; bwtr_clear 8 ;; bwtr_set 3 0 ;; bwtr_set 2 8
  else
    slow ← id_in [26628; 50437];
    if slow : bool then bwtr_clear 0 ;; bwtr_clear 8 ;; bwtr_set 10 0 ;; bwtr_set 12 8
    else mret tt.

Definition run_op (o : init_op) : io lcd unit :=
  match o with
  | IReg v => LCD_WR_REG v
  | IData v => LCD_WR_DATA v
  | IWrite r v => LCD_WriteReg r v
  | IDelay _ | IUsDelay _ => mret tt
  | IBackLight v => LCD_SSD_BackLightSet v
  end.

Definition LCD_Init : io lcd unit :=
  MX_FSMC_Init ;;
  identify ;;
  write_timing ;;
  i ← gets id;
  modify (λ w, w <| console := console w ++ bytes " LCD ID:" ++ print_hex i ++ [CR; LF] |>) ;;
  seq_ (run_op <$> init_sequence i) ;;
  LCD_Display_Dir 0 ;;
  modify (λ w, w <| led := true |>) ;;
  LCD_Clear WHITE.
End init.
