(* ===== verification/LcdSpec.v ===== *)
(** Properties of the display driver (Lcd.v).

    [emits w m t]: on a display configured as [w], whatever was sent before, [m] sends
    exactly the accesses [t], in order, and changes nothing else. *)

From S2P Require Import Prelude CLib Font Lcd.

Definition emits (w : lcd) (m : io lcd unit) (t : list access) : Prop :=
  ∀ b, m (w <| bus := b |>) = Ret (tt, w <| bus := rev t ++ b |>).

Lemma emits_nil w : emits w (mret tt) [].
Proof. by intros b. Qed.

Lemma emits_seq w m1 m2 t1 t2 :
  emits w m1 t1 → emits w m2 t2 → emits w (m1 ;; m2) (t1 ++ t2).
Proof.
  intros H1 H2 b. unfold mbind, io_bind. rewrite H1, H2, rev_app_distr. by rewrite <- app_assoc.
Qed.

Lemma emits_put w a : emits w (put a) [a].
Proof. by intros b. Qed.

Lemma emits_gets {A} w (f : lcd → A) (k : A → io lcd unit) t :
  (∀ b, f (w <| bus := b |>) = f w) → emits w (k (f w)) t → emits w (mbind k (gets f)) t.
Proof. intros Hf Hk b. unfold mbind, io_bind, gets. rewrite Hf. apply Hk. Qed.

Lemma emits_lift {A} w (r : res A) a (k : A → io lcd unit) t :
  r = Ret a → emits w (k a) t → emits w (mbind k (lift r)) t.
Proof. intros -> Hk b. unfold mbind, io_bind, lift. apply Hk. Qed.

Lemma emits_ext w m m' t : (∀ v, m v = m' v) → emits w m t → emits w m' t.
Proof. intros Hm H b. rewrite <- Hm. apply H. Qed.

Lemma emits_for w n lo body t :
  (∀ i, emits w (body i) t) → emits w (for_ n lo body) (concat (replicate n t)).
Proof.
  intros Hb. revert lo. induction n as [|n IH]; intros lo; [apply emits_nil|].
  by apply emits_seq.
Qed.

Create HintDb lcddb.
#[export] Hint Resolve emits_nil emits_put : lcddb.

(** * Positioning *)

(** The accesses that move the cursor, and those that colour one pixel. *)
Definition sent_by (w : lcd) (m : io lcd unit) : list access :=
  match m (w <| bus := [] |>) with Ret (_, w') => rev (bus w') | Fault _ => [] end.
Definition cursor (w : lcd) (x y : Z) : list access := sent_by w (LCD_SetCursor x y).
Definition point (w : lcd) (x y : Z) : list access :=
  cursor w x y ++ [Reg (wramcmd w); Ram (POINT_COLOR w)].
Definition pixel (w : lcd) (x y color : Z) : list access := sent_by w (LCD_Fast_DrawPoint x y color).

Lemma emits_sent_by w m t : emits w m t → sent_by w m = t.
Proof.
  intros H. unfold sent_by. rewrite H. cbn. rewrite app_nil_r. apply rev_involutive.
Qed.

(** Operations that only read the configuration and write the bus. *)
Definition emitter (w : lcd) (m : io lcd unit) : Prop := ∃ t, emits w m t.

Lemma emitter_emits w m : emitter w m → emits w m (sent_by w m).
Proof. intros [t Ht]. by rewrite (emits_sent_by w m t Ht). Qed.

Lemma emitter_nil w : emitter w (mret tt).
Proof. eexists. apply emits_nil. Qed.
Lemma emitter_put w a : emitter w (put a).
Proof. eexists. apply emits_put. Qed.
Lemma emitter_seq w m1 m2 : emitter w m1 → emitter w m2 → emitter w (m1 ;; m2).
Proof. intros [t1 H1] [t2 H2]. eexists. by apply emits_seq. Qed.
Lemma emitter_gets {A} w (f : lcd → A) (k : A → io lcd unit) :
  (∀ b, f (w <| bus := b |>) = f w) → emitter w (k (f w)) → emitter w (mbind k (gets f)).
Proof. intros Hf [t Ht]. exists t. by apply emits_gets. Qed.
Lemma emitter_if w (b : bool) m1 m2 :
  emitter w m1 → emitter w m2 → emitter w (if b then m1 else m2).
Proof. by destruct b. Qed.
Lemma emitter_id_in w ids (k : bool → io lcd unit) :
  (∀ b, emitter w (k b)) → emitter w (mbind k (id_in ids)).
Proof.
  intros Hk. destruct (Hk (existsb (Z.eqb (id w)) ids)) as [t Ht]. exists t.
  intros b. apply Ht.
Qed.
Lemma emitter_mirror w d x (k : Z → io lcd unit) :
  (∀ v, emitter w (k v)) → emitter w (mbind k (mirror d x)).
Proof.
  intros Hk. destruct (Hk (if dir w =? d then u16 (width w - 1 - x) else x)) as [t Ht].
  exists t. intros b. apply Ht.
Qed.

#[export] Hint Resolve emitter_nil emitter_put emitter_seq emitter_if emitter_id_in
  emitter_mirror : lcddb.

Lemma emitter_reg w v : emitter w (LCD_WR_REG v).
Proof. apply emitter_put. Qed.
Lemma emitter_data w v : emitter w (LCD_WR_DATA v).
Proof. apply emitter_put. Qed.
Lemma emitter_data2 w v : emitter w (data2 v).
Proof. apply emitter_seq; apply emitter_put. Qed.
Lemma emitter_cmd2 w c v : emitter w (cmd2 c v).
Proof. repeat apply emitter_seq; apply emitter_put. Qed.
Lemma emitter_write w r v : emitter w (LCD_WriteReg r v).
Proof. apply emitter_seq; apply emitter_put. Qed.
Lemma emitter_prepare w : emitter w LCD_WriteRAM_Prepare.
Proof. apply emitter_gets; [done|]. apply emitter_put. Qed.
#[export] Hint Resolve emitter_reg emitter_data emitter_data2 emitter_cmd2 emitter_write
  emitter_prepare : lcddb.

Lemma emitter_cursor w x y : emitter w (LCD_SetCursor x y).
Proof.
  unfold LCD_SetCursor. do 5 (apply emitter_gets; [done|]).
  apply emitter_id_in. intros []; [auto 10 with lcddb|].
  apply emitter_id_in. intros []; [apply emitter_mirror; auto 10 with lcddb|].
  apply emitter_id_in. intros []; [auto 12 with lcddb|].
  apply emitter_id_in. intros []; [auto 10 with lcddb|].
  apply emitter_mirror. auto 10 with lcddb.
Qed.

Lemma emitter_fast w x y c : emitter w (LCD_Fast_DrawPoint x y c).
Proof.
  unfold LCD_Fast_DrawPoint. do 3 (apply emitter_gets; [done|]).
  apply emitter_seq; [|auto with lcddb].
  repeat apply emitter_if; try apply emitter_mirror; auto 12 with lcddb.
Qed.

Lemma emits_cursor w x y : emits w (LCD_SetCursor x y) (cursor w x y).
Proof. apply emitter_emits, emitter_cursor. Qed.

Lemma emits_prepare w : emits w LCD_WriteRAM_Prepare [Reg (wramcmd w)].
Proof. by intros b. Qed.

Lemma emits_point w x y : emits w (LCD_DrawPoint x y) (point w x y).
Proof.
  apply emits_seq; [apply emits_cursor|]. apply (emits_seq _ _ _ [_] [_]); [apply emits_prepare|].
  by apply emits_gets; [|apply emits_put].
Qed.

Lemma emits_pixel w x y c : emits w (LCD_Fast_DrawPoint x y c) (pixel w x y c).
Proof. apply emitter_emits, emitter_fast. Qed.

(** What the cursor commands of an ILI9341 or NT35310 are. *)
Lemma cursor_9341 w x y :
  id w = 37697 ∨ id w = 21264 →
  cursor w x y = [Reg (u16 (setxcmd w)); Ram (u16 (hi x)); Ram (u16 (lo x));
                  Reg (u16 (setycmd w)); Ram (u16 (hi y)); Ram (u16 (lo y))].
Proof.
  intros Hid. apply emits_sent_by. intros b. unfold LCD_SetCursor, id_in.
  unfold mbind, io_bind, gets, mret, io_ret. cbn.
  by destruct Hid as [-> | ->].
Qed.

(** * Filled rectangles *)

(** One row of a filled rectangle. *)
Definition row (w : lcd) (sx y n color : Z) : list access :=
  cursor w sx y ++ [Reg (wramcmd w)] ++ replicate (Z.to_nat n) (Ram color).

Lemma concat_replicate_1 {A} n (a : A) : concat (replicate n [a]) = replicate n a.
Proof. induction n; cbn; [done|]. by f_equal. Qed.

Lemma emits_row w sx i n color (rest : io lcd unit) t :
  emits w rest t →
  emits w (LCD_SetCursor sx i ;; LCD_WriteRAM_Prepare ;;
           for_ (Z.to_nat n) 0 (λ _, put (Ram color)) ;; rest)
    (row w sx i n color ++ t).
Proof.
  intros Hr. unfold row. rewrite <- !app_assoc.
  apply emits_seq; [apply emits_cursor|]. apply (emits_seq _ _ _ [_]); [apply emits_prepare|].
  apply emits_seq; [|done]. rewrite <- (concat_replicate_1 _ (Ram color)).
  apply emits_for. intros _. apply emits_put.
Qed.

Lemma fill_rows_spec w sx n color k : ∀ fuel i ey,
  (k < fuel)%nat → 0 <= i → ey < 65535 → ey = i + Z.of_nat k - 1 →
  emits w (fill_rows fuel sx i ey n color)
    (concat ((λ y, row w sx y n color) <$> seqZ i (Z.of_nat k))).
Proof.
  induction k as [|k IH]; intros [|fuel] i ey Hf Hi Hey Hk; try lia; cbn [fill_rows].
  - decide_if (i <=? ey) false. apply emits_nil.
  - decide_if (i <=? ey) true. rewrite seqZ_cons by lia. cbn [fmap list_fmap concat].
    apply emits_row. rewrite u16_small by lia.
    replace (Z.pred (Z.of_nat (S k))) with (Z.of_nat k) by lia.
    replace (Z.succ i) with (i + 1) by lia. apply IH; lia.
Qed.

Lemma fill_rows_endless w sx n color fuel : ∀ i,
  0 <= i < 65536 → ∀ b, ∃ f, fill_rows fuel sx i 65535 n color (w <| bus := b |>) = Fault f.
Proof.
  induction fuel as [|fuel IH]; intros i Hi b; [by eexists|]. cbn [fill_rows].
  decide_if (i <=? 65535) true.
  pose proof (emits_cursor w sx i b) as Hc. unfold mbind at 1, io_bind at 1. rewrite Hc.
  unfold mbind at 1, io_bind at 1. rewrite emits_prepare.
  unfold mbind at 1, io_bind at 1.
  rewrite (emits_for w (Z.to_nat n) 0 (λ _, put (Ram color)) [Ram color]) by (intros; apply emits_put).
  apply IH. unfold u16. dlia.
Qed.

(** Filled rectangles.  For every controller except a landscape RM68042, and corners
    within the 16-bit coordinates, [LCD_Fill] ends and sends, for each row from [sy] to
    [ey], one cursor command and exactly [ex - sx + 1] colour words, and nothing else.  The
    16-bit row counter makes the bound [ey = 65535] the exception: the loop never ends. *)
Theorem LCD_Fill_rows w sx sy ex ey color :
  (id w =? 26628) && (dir w =? 1) = false →
  0 <= sx <= ex → ex < 65535 → 0 <= sy → sy <= ey + 1 →
  (ey < 65535 →
   emits w (LCD_Fill sx sy ex ey color)
     (concat ((λ y, row w sx y (ex - sx + 1) color) <$> seqZ sy (ey - sy + 1)))) ∧
  (ey = 65535 → sy <= ey → ∃ f, LCD_Fill sx sy ex ey color w = Fault f).
Proof.
  intros Hid Hx Hex Hsy Hey. split.
  - intros He b. unfold LCD_Fill, mbind at 1, io_bind at 1, gets at 1.
    unfold mbind at 1, io_bind at 1, gets at 1. unfold mbind at 1, io_bind at 1, gets at 1.
    cbn [id dir width]. change (id (w <| bus := b |>)) with (id w).
    change (dir (w <| bus := b |>)) with (dir w). rewrite Hid, u16_small by lia.
    rewrite <- (Z2Nat.id (ey - sy + 1)) by lia.
    apply fill_rows_spec; [unfold fill_fuel; lia|lia..].
  - intros -> Hs. unfold LCD_Fill, mbind, io_bind, gets. rewrite Hid.
    pose proof (fill_rows_endless w sx (u16 (ex - sx + 1)) color fill_fuel sy ltac:(lia) (bus w)) as [f Hf].
    exists f. rewrite <- Hf. by destruct w.
Qed.

(** A 9341 panel as [LCD_Display_Dir(0)] leaves it. *)
Definition panel : lcd := MkLcd 320 240 37697 0 44 42 43 0 65535 0 true [] [].

Lemma LCD_Fill_rows_witness :
  emits panel (LCD_Fill 10 20 12 21 31)
    (concat ((λ y, row panel 10 y 3 31) <$> seqZ 20 2)) ∧
  ∃ f, LCD_Fill 10 20 12 65535 31 panel = Fault f.
Proof.
  split.
  - apply (LCD_Fill_rows panel 10 20 12 21 31); [reflexivity|lia..].
  - apply (LCD_Fill_rows panel 10 20 12 65535 31); [reflexivity|lia..].
Defined.

(** * Lines *)

(** The steps taken along one axis before the [t]-th point, for a difference [delta]
    on a line of [distance]. *)
Definition moved (delta distance t : Z) : Z := Z.max 0 ((t * delta - 1) / distance).

Definition line_point (x1 y1 x2 y2 : Z) (t : Z) : Z * Z :=
  let d := Z.max (Z.abs (x2 - x1)) (Z.abs (y2 - y1)) in
  (x1 + Z.sgn (x2 - x1) * moved (Z.abs (x2 - x1)) d t,
   y1 + Z.sgn (y2 - y1) * moved (Z.abs (y2 - y1)) d t).

(** The running error of an axis. *)
Definition axis (delta d t m e : Z) : Prop :=
  m = moved delta d t ∧ e = t * delta - d * m.

Lemma moved_spec delta d t : 0 <= delta <= d → 0 < d → 0 <= t →
  let m := moved delta d t in
  (t * delta = 0 ∧ m = 0) ∨ 0 < t * delta - d * m <= d ∧ 0 <= m.
Proof.
  intros Hd H0 Ht m. subst m. unfold moved.
  assert (0 <= t * delta) by nia. set (T := t * delta) in *.
  pose proof (Z.div_mod (T - 1) d ltac:(lia)). pose proof (Z.mod_pos_bound (T - 1) d H0).
  set (q := (T - 1) / d) in *.
  destruct (Z.eq_dec T 0) as [E|E]; [left; split; [lia|]|right]; nia.
Qed.

Lemma moved_unique delta d t m : 0 <= delta <= d → 0 < d → 0 <= t → 0 <= m →
  (t * delta = 0 ∧ m = 0 ∨ 0 < t * delta - d * m <= d) → m = moved delta d t.
Proof.
  intros Hd H0 Ht Hm H. pose proof (moved_spec delta d t Hd H0 Ht) as Hs. cbn in Hs. nia.
Qed.

Lemma axis_step delta d t m e :
  0 <= delta <= d → 0 < d → 0 <= t → axis delta d t m e →
  axis delta d (t + 1) (if d <? e + delta then m + 1 else m)
    (if d <? e + delta then e + delta - d else e + delta).
Proof.
  intros Hd H0 Ht [-> ->]. pose proof (moved_spec delta d t Hd H0 Ht) as Hs. cbn in Hs.
  set (m := moved delta d t) in *.
  case_if; (split; [apply moved_unique; nia|nia]).
Qed.

Lemma line_step_spec z : line_step z = (Z.sgn z, Z.abs z).
Proof. unfold line_step. case_if; [f_equal; lia|]. case_if; f_equal; lia. Qed.

Lemma moved_bounds delta d t : 0 <= delta <= d → 0 <= t <= d + 1 → 0 <= moved delta d t <= delta.
Proof.
  intros Hd Ht. destruct (Z.eq_dec d 0) as [->|H0].
  - unfold moved. rewrite Z.div_0_r. lia.
  - pose proof (moved_spec delta d t Hd ltac:(lia) ltac:(lia)) as Hs. cbn in Hs. nia.
Qed.

Lemma moved_0 delta d : 0 <= delta <= d → moved delta d 0 = 0.
Proof.
  intros Hd. destruct (Z.eq_dec d 0) as [->|H0]; [done|].
  symmetry. apply moved_unique; lia.
Qed.

Lemma moved_last delta d : 0 <= delta <= d → moved delta d (d + 1) = delta.
Proof.
  intros Hd. destruct (Z.eq_dec d 0) as [->|H0].
  - unfold moved. rewrite Z.div_0_r. lia.
  - symmetry. apply moved_unique; nia.
Qed.

Lemma moved_succ delta d t : 0 <= delta <= d → 0 <= t →
  moved delta d t <= moved delta d (t + 1) <= moved delta d t + 1.
Proof.
  intros Hd Ht. destruct (Z.eq_dec d 0) as [->|H0].
  - unfold moved. rewrite !Z.div_0_r. lia.
  - pose proof (moved_spec delta d t Hd ltac:(lia) Ht) as H1.
    pose proof (moved_spec delta d (t + 1) Hd ltac:(lia) ltac:(lia)) as H2. cbn in H1, H2. nia.
Qed.

(** Both axes stay within one step of the ideal line. *)
Lemma moved_close dx dy d t : 0 <= dx <= d → 0 <= dy <= d → 0 <= t →
  - d <= moved dx d t * dy - moved dy d t * dx <= d.
Proof.
  intros Hx Hy Ht. destruct (Z.eq_dec d 0) as [->|H0]; [assert (dx = 0) as -> by lia; assert (dy = 0) as -> by lia; lia|].
  pose proof (moved_spec dx d t Hx ltac:(lia) Ht) as H1.
  pose proof (moved_spec dy d t Hy ltac:(lia) Ht) as H2. cbn in H1, H2.
  set (mx := moved dx d t) in *. set (my := moved dy d t) in *.
  assert (0 <= t * dx - d * mx <= d) as Ex by (destruct H1 as [[? Hm]|[]]; [rewrite Hm|]; lia).
  assert (0 <= t * dy - d * my <= d) as Ey by (destruct H2 as [[? Hm]|[]]; [rewrite Hm|]; lia).
  set (ex := t * dx - d * mx) in *. set (ey := t * dy - d * my) in *.
  assert (d * (mx * dy - my * dx) = ey * dx - ex * dy) as E by (subst ex ey; ring).
  assert (0 <= ey * dx <= d * d) by nia. assert (0 <= ex * dy <= d * d) by nia. nia.
Qed.

Section line.
Context (w : lcd) (x1 y1 dx dy d incx incy : Z).

Definition line_at (t : Z) : Z * Z :=
  (u16 (x1 + incx * moved dx d t), u16 (y1 + incy * moved dy d t)).

Lemma line_loop_spec k : ∀ fuel t mx my xerr yerr,
  (k < fuel)%nat → 0 <= t → t + Z.of_nat k = d + 2 → d < 65534 → 0 < d →
  0 <= dx <= d → 0 <= dy <= d → axis dx d t mx xerr → axis dy d t my yerr →
  emits w (line_loop fuel t dx dy d incx incy (x1 + incx * mx) (y1 + incy * my) xerr yerr)
    (concat ((λ t, let '(x, y) := line_at t in point w x y) <$> seqZ t (Z.of_nat k))).
Proof.
  induction k as [|k IH]; intros [|fuel] t mx my xerr yerr Hf Ht Hk Hd H0 Hx Hy Ax Ay;
    try lia; cbn [line_loop].
  - decide_if (t <=? d + 1) false. apply emits_nil.
  - decide_if (t <=? d + 1) true. rewrite seqZ_cons by lia. cbn [fmap list_fmap concat].
    apply emits_seq.
    { destruct Ax as [-> _], Ay as [-> _]. apply emits_point. }
    pose proof (axis_step dx d t mx xerr Hx H0 Ht Ax) as Ax'.
    pose proof (axis_step dy d t my yerr Hy H0 Ht Ay) as Ay'.
    rewrite u16_small by lia.
    replace (Z.pred (Z.of_nat (S k))) with (Z.of_nat k) by lia.
    replace (Z.succ t) with (t + 1) by lia.
    destruct (d <? xerr + dx), (d <? yerr + dy);
      try (replace (x1 + incx * mx + incx) with (x1 + incx * (mx + 1)) by ring);
      try (replace (y1 + incy * my + incy) with (y1 + incy * (my + 1)) by ring);
      apply IH; (lia || done).
Qed.
End line.

Lemma emits_concat_ext w m {A} (f g : A → list access) l :
  emits w m (concat (f <$> l)) → Forall (λ a, f a = g a) l → emits w m (concat (g <$> l)).
Proof.
  intros H Hfg. assert (f <$> l = g <$> l) as <-; [clear H|done].
  induction Hfg as [|a l Ha _ IH]; [done|]. by rewrite !fmap_cons, IH, Ha.
Qed.

(** C39. Lines.  For corners within the 16-bit coordinates (and a longer side below
    65534), [LCD_DrawLine] ends and draws exactly the points of [line_point], one per
    step: the first is (x1, y1), the last (x2, y2); successive points differ by at most
    one in each coordinate; and every point is within one pixel of the ideal line (the
    cross product with its direction is at most the longer side). *)
Theorem LCD_DrawLine_points w x1 y1 x2 y2 :
  0 <= x1 < 65536 → 0 <= y1 < 65536 → 0 <= x2 < 65536 → 0 <= y2 < 65536 →
  let d := Z.max (Z.abs (x2 - x1)) (Z.abs (y2 - y1)) in
  let p := line_point x1 y1 x2 y2 in
  d < 65534 →
  emits w (LCD_DrawLine x1 y1 x2 y2)
    (concat ((λ t, let '(x, y) := p t in point w x y) <$> seqZ 0 (d + 2))) ∧
  p 0 = (x1, y1) ∧ p (d + 1) = (x2, y2) ∧
  (∀ t, 0 <= t → Z.abs ((p (t + 1)).1 - (p t).1) <= 1 ∧ Z.abs ((p (t + 1)).2 - (p t).2) <= 1) ∧
  (∀ t, 0 <= t →
     Z.abs (((p t).1 - x1) * (y2 - y1) - ((p t).2 - y1) * (x2 - x1)) <= d).
Proof.
  intros Hx1 Hy1 Hx2 Hy2 d p Hd.
  set (dx := Z.abs (x2 - x1)) in *. set (dy := Z.abs (y2 - y1)) in *.
  assert (0 <= dx <= d ∧ 0 <= dy <= d) as [Hdx Hdy] by lia.
  assert (∀ t, p t = (x1 + Z.sgn (x2 - x1) * moved dx d t, y1 + Z.sgn (y2 - y1) * moved dy d t)) as Hp by done.
  split; [|split; [|split; [|split]]].
  - apply (emits_concat_ext _ _ (λ t, let '(x, y) :=
      line_at x1 y1 dx dy d (Z.sgn (x2 - x1)) (Z.sgn (y2 - y1)) t in point w x y)).
    + unfold LCD_DrawLine. rewrite !line_step_spec. fold dx dy.
      replace (if dy <? dx then dx else dy) with d by (subst d; case_if; lia).
      rewrite <- (Z2Nat.id (d + 2)) by lia.
      destruct (Z.eq_dec d 0) as [E|E].
      * assert (dx = 0 ∧ dy = 0) as [-> ->] by lia. rewrite E.
        assert (∃ n, fill_fuel = S (S (S n))) as [n ->]
          by (exists (Z.to_nat 65534); unfold fill_fuel; lia).
        cbn [line_loop].
        change (0 <=? 0 + 1) with true. change (u16 (0 + 1) <=? 0 + 1) with true. cbn iota.
        change (0 <? 0 + 0) with false. cbn iota. change (0 <? 0 + 0 + 0) with false. cbn iota.
        change (u16 (u16 (0 + 1) + 1) <=? 0 + 1) with false. cbn iota.
        change (seqZ 0 (Z.of_nat (Z.to_nat (0 + 2)))) with [0; 1]. cbn [fmap list_fmap concat].
        unfold line_at, moved. rewrite !Z.div_0_r, Z.max_id, !Z.mul_0_r, !Z.add_0_r.
        apply emits_seq; [apply emits_point|].
        apply emits_seq; [apply emits_point|apply emits_nil].
      * pose proof (line_loop_spec w x1 y1 dx dy d (Z.sgn (x2 - x1)) (Z.sgn (y2 - y1))
          (Z.to_nat (d + 2)) fill_fuel 0 0 0 0 0) as H.
        rewrite !Z.mul_0_r, !Z.add_0_r in H. apply H; try (unfold fill_fuel; lia).
        -- split; [by rewrite moved_0|lia].
        -- split; [by rewrite moved_0|lia].
    + apply Forall_forall. intros t Ht. apply elem_of_seqZ in Ht.
      pose proof (moved_bounds dx d t Hdx ltac:(lia)). pose proof (moved_bounds dy d t Hdy ltac:(lia)).
      rewrite Hp. unfold line_at. rewrite !u16_small by lia. done.
  - rewrite Hp, !moved_0 by done. f_equal; lia.
  - rewrite Hp, !moved_last by done. f_equal; lia.
  - intros t Ht. rewrite !Hp. cbn.
    pose proof (moved_succ dx d t Hdx Ht). pose proof (moved_succ dy d t Hdy Ht). lia.
  - intros t Ht. rewrite Hp. cbn [fst snd].
    pose proof (moved_close dx dy d t Hdx Hdy Ht) as Hc.
    replace (y2 - y1) with (Z.sgn (y2 - y1) * dy) at 1 by lia.
    replace (x2 - x1) with (Z.sgn (x2 - x1) * dx) at 2 by lia.
    destruct (Z.sgn_spec (x2 - x1)) as [[_ ->]|[[_ ->]|[_ ->]]],
      (Z.sgn_spec (y2 - y1)) as [[_ ->]|[[_ ->]|[_ ->]]]; lia.
Qed.

Lemma LCD_DrawLine_points_witness :
  emits panel (LCD_DrawLine 5 5 9 3)
    (concat ((λ t, let '(x, y) := line_point 5 5 9 3 t in point panel x y) <$> seqZ 0 6)) ∧
  line_point 5 5 9 3 5 = (9, 3).
Proof.
  destruct (LCD_DrawLine_points panel 5 5 9 3) as (H1 & _ & H2 & _); [lia..|vm_compute; congruence|].
  split; [exact H1|exact H2].
Defined.

(** * Orientation *)

Lemma scan_dir_other d w :
  existsb (Z.eqb (id w)) [37697; 26628; 21264; 21776; 6499] = false →
  ∃ b, LCD_Scan_Dir d w = Ret (tt, w <| bus := b |>).
Proof.
  intros Hid. unfold LCD_Scan_Dir, mbind, io_bind, gets. rewrite Hid.
  eexists. by destruct w.
Qed.

(** Orientation.  [LCD_Display_Dir] ends for every argument.  Asked for portrait
    (0), the driver of each MIPI-style controller (9341, 5310, 6804, 5510) ends up wider
    than high although [dir] says portrait, and asked for landscape, that of the 9341,
    5310 and 5510 ends up higher than wide: the default scan direction exchanges the axes
    once more. *)
Theorem LCD_Display_Dir_size w d :
  ∃ w', LCD_Display_Dir d w = Ret (tt, w') ∧
    dir w' = (if d =? 0 then 0 else 1) ∧
    (d = 0 → In (id w) [37697; 21264; 26628; 21776] → height w' < width w') ∧
    (d ≠ 0 → In (id w) [37697; 21264; 21776] → width w' < height w').
Proof.
  destruct w as [wid hei i dr ram sx sy pc bc bw led bs co].
  unfold LCD_Display_Dir, mbind, io_bind, gets, modify. cbn [id].
  destruct (d =? 0) eqn:Ed; bool_prop; unfold portrait, landscape; cbn [existsb].
  all: destruct (i =? 37697) eqn:E1; [bool_prop; subst; eexists; split; [vm_compute; reflexivity|];
    split; [reflexivity|]; split; intros; cbn; lia|].
  all: destruct (i =? 26628) eqn:E2; [bool_prop; subst; eexists; split; [vm_compute; reflexivity|];
    split; [reflexivity|]; split; intros; cbn in *; lia|].
  all: destruct (i =? 21264) eqn:E3; [bool_prop; subst; eexists; split; [vm_compute; reflexivity|];
    split; [reflexivity|]; split; intros; cbn; lia|].
  all: destruct (i =? 21776) eqn:E4; [bool_prop; subst; eexists; split; [vm_compute; reflexivity|];
    split; [reflexivity|]; split; intros; cbn; lia|].
  all: destruct (i =? 6499) eqn:E5; [bool_prop; subst; eexists; split; [vm_compute; reflexivity|];
    split; [reflexivity|]; split; intros; cbn in *; lia|].
  all: cbn [orb]; cbn beta iota zeta.
  all: match goal with |- context [LCD_Scan_Dir ?d ?w] =>
         destruct (scan_dir_other d w) as [b Hb]; [cbn; by rewrite E1, E2, E3, E4, E5|] end;
    eexists; split; [exact Hb|]; split; [reflexivity|]; bool_prop; split; intros; cbn in *; lia.
Qed.

(** * Numbers *)

Lemma lcd_pow_spec n m r :
  0 <= m → 0 <= r < 4294967296 → lcd_pow_loop n m r = u32 (r * m ^ Z.of_nat n).
Proof.
  intros Hm. revert r. induction n as [|n IH]; intros r Hr; cbn [lcd_pow_loop].
  - change (Z.of_nat 0) with 0. rewrite Z.pow_0_r, Z.mul_1_r. by rewrite u32_small.
  - rewrite IH by (unfold u32; dlia). rewrite Nat2Z.inj_succ, Z.pow_succ_r by lia.
    unfold u32. rewrite Zmult_mod_idemp_l. f_equal. ring.
Qed.

Lemma LCD_Pow_spec n : 0 <= n <= 9 → LCD_Pow 10 n = 10 ^ n.
Proof.
  intros Hn. unfold LCD_Pow. rewrite (u8_small n), (u8_small 10) by (unfold is_byte; lia).
  rewrite lcd_pow_spec by lia. rewrite Z.mul_1_l, Z2Nat.id, u32_small; [done| |lia].
  pose proof (Z.pow_le_mono_r 10 n 9). pose proof (Z.pow_pos_nonneg 10 n). lia.
Qed.

(** Exactly [r] decimal digits, most significant first. *)
Fixpoint fixed (r : nat) (num : Z) : cstr :=
  match r with
  | O => []
  | S r => (48 + (num / 10 ^ Z.of_nat r) mod 10) :: fixed r num
  end.

Lemma fixed_snoc r num : 0 <= num → fixed (S r) num = fixed r (num / 10) ++ [48 + num mod 10].
Proof.
  intros Hn. induction r as [|r IH].
  - cbn. change (10 ^ 0) with 1. by rewrite Z.div_1_r.
  - change (fixed (S (S r)) num) with
      ((48 + (num / 10 ^ Z.of_nat (S r)) mod 10) :: fixed (S r) num).
    rewrite IH. cbn [fixed app]. f_equal. f_equal. f_equal.
    rewrite Nat2Z.inj_succ, Z.pow_succ_r by lia.
    rewrite Z.div_div by (try lia; apply Z.pow_pos_nonneg; lia). done.
Qed.

Lemma digits_acc_fixed r : ∀ fuel num acc,
  (r <= fuel)%nat → 10 ^ Z.of_nat r <= num < 10 ^ Z.of_nat (S r) →
  digits_acc (S fuel) num acc = fixed (S r) num ++ acc.
Proof.
  induction r as [|r IH]; intros fuel num acc Hf Hn.
  - change (10 ^ Z.of_nat 0) with 1 in Hn. change (10 ^ Z.of_nat 1) with 10 in Hn.
    cbn [digits_acc fixed app]. decide_if (num <? 10) true.
    change (10 ^ Z.of_nat 0) with 1. by rewrite Z.div_1_r.
  - rewrite (Nat2Z.inj_succ (S r)), (Nat2Z.inj_succ r), !Z.pow_succ_r in Hn by lia.
    pose proof (Z.pow_pos_nonneg 10 (Z.of_nat r)).
    rewrite fixed_snoc by lia. rewrite <- app_assoc. cbn [app].
    destruct fuel as [|fuel]; [lia|].
    change (digits_acc (S (S fuel)) num acc) with
      (if num <? 10 then (48 + num mod 10) :: acc
       else digits_acc (S fuel) (num / 10) ((48 + num mod 10) :: acc)).
    decide_if (num <? 10) false. apply IH; [lia|].
    rewrite Nat2Z.inj_succ, Z.pow_succ_r by lia. split.
    + apply Z.div_le_lower_bound; lia.
    + apply Z.div_lt_upper_bound; lia.
Qed.

(** What the digit loop shows with [r] positions left. *)
Fixpoint shown_text (r : nat) (num fill : Z) (enshow : bool) : cstr :=
  match r with
  | O => []
  | S r =>
      let d := (num / 10 ^ Z.of_nat r) mod 10 in
      if negb enshow && negb (Nat.eqb r 0) && (d =? 0)
      then fill :: shown_text r num fill false
      else (48 + d) :: shown_text r num fill true
  end.

Lemma shown_true r num fill : shown_text r num fill true = fixed r num.
Proof. induction r as [|r IH]; cbn; [done|]. by rewrite IH. Qed.

(** Blank-padded, it is [printf("%<r>d")]. *)
Lemma shown_print r num :
  (1 <= r <= 10)%nat → 0 <= num < 10 ^ Z.of_nat r →
  shown_text r num 32 false = print_wd r num.
Proof.
  intros Hr Hn. unfold print_wd, print_d. decide_if (num <? 0) false.
  induction r as [|r IH]; [lia|]. cbn [shown_text negb andb].
  rewrite Nat2Z.inj_succ, Z.pow_succ_r in Hn by lia.
  pose proof (Z.pow_pos_nonneg 10 (Z.of_nat r)).
  rewrite (Z.mod_small (num / _)).
  2: { split; [apply Z.div_pos; lia|]. apply Z.div_lt_upper_bound; lia. }
  destruct (num / 10 ^ Z.of_nat r =? 0) eqn:E; bool_prop.
  - apply Z.div_small_iff in E; [|lia]. destruct r as [|r].
    + cbn [Nat.eqb negb andb]. change (10 ^ Z.of_nat 0) with 1 in *.
      assert (num = 0) as -> by lia. done.
    + cbn [Nat.eqb negb andb]. rewrite IH by lia.
      set (s := digits_acc 11 num []).
      assert (length s <= S r)%nat as Hs.
      { clear IH. subst s. destruct (Z.eq_dec num 0) as [->|H0]; [cbn; lia|].
        assert (∃ k, (k <= r)%nat ∧ 10 ^ Z.of_nat k <= num < 10 ^ Z.of_nat (S k)) as (k & Hk & Hb).
        { clear - E H0 Hn. revert E. induction r as [|r IH]; intros E.
          - exists 0%nat. split; [lia|]. change (10 ^ Z.of_nat 0) with 1. lia.
          - destruct (Z_lt_ge_dec num (10 ^ Z.of_nat (S r))) as [H|H].
            + destruct IH as (k & Hk & Hb); [lia..|]. exists k. lia.
            + exists (S r). lia. }
        rewrite (digits_acc_fixed k) by lia. rewrite app_nil_r.
        assert (∀ n, length (fixed n num) = n) as Hl by (induction n; cbn; auto).
        rewrite Hl. lia. }
      replace (S (S r) - length s)%nat with (S (S r - length s)) by lia. done.
  - rewrite andb_false_r. rewrite shown_true.
    assert (10 ^ Z.of_nat r <= num) as Hge.
    { destruct (Z_lt_ge_dec num (10 ^ Z.of_nat r)); [|lia]. by rewrite Z.div_small in E by lia. }
    rewrite (digits_acc_fixed r) by (rewrite ?Nat2Z.inj_succ, ?Z.pow_succ_r; lia).
    rewrite app_nil_r.
    assert (∀ n, length (fixed n num) = n) as Hl by (induction n; cbn; auto).
    rewrite Hl, Nat.sub_diag. cbn [replicate app fixed].
    rewrite (Z.mod_small (num / _)); [done|].
    split; [apply Z.div_pos; lia|]. apply Z.div_lt_upper_bound; lia.
Qed.

Lemma shown_zeros r num : shown_text r num 48 false = fixed r num.
Proof.
  induction r as [|r IH]; cbn [shown_text fixed]; [done|].
  destruct (_ && _) eqn:E; [|by rewrite shown_true].
  apply andb_true_iff in E as [_ E]. bool_prop. by rewrite IH, E.
Qed.

(** Characters side by side from column [t] on. *)
Fixpoint show_text (x y size mode t : Z) (s : cstr) : io lcd unit :=
  match s with
  | [] => mret tt
  | c :: s =>
      LCD_ShowChar (u16 (x + size / 2 * t)) y c size mode ;; show_text x y size mode (t + 1) s
  end.

Lemma show_digits_text n x y num len size fill mode : ∀ t enshow v,
  (n <= 10)%nat → 0 <= num → 0 <= t → t + Z.of_nat n = len →
  show_digits n x y num len size t fill mode enshow v =
  show_text x y size mode t (shown_text n num fill enshow) v.
Proof.
  induction n as [|n IH]; intros t enshow v Hn H0 Ht Hl; [done|]. cbn [show_digits shown_text].
  assert (num_digit num len t = Ret ((num / 10 ^ Z.of_nat n) mod 10)) as ->.
  { unfold num_digit. rewrite LCD_Pow_spec by lia.
    replace (len - t - 1) with (Z.of_nat n) by lia.
    pose proof (Z.pow_pos_nonneg 10 (Z.of_nat n)). by decide_if (10 ^ Z.of_nat n =? 0) false. }
  unfold mbind at 1, io_bind at 1, lift at 1. cbv zeta.
  set (d := (num / 10 ^ Z.of_nat n) mod 10).
  assert (0 <= d < 10) as Hd by (apply Z.mod_pos_bound; lia).
  assert ((t <? len - 1) = negb (Nat.eqb n 0)) as ->.
  { destruct n; cbn; [apply Z.ltb_ge|apply Z.ltb_lt]; lia. }
  assert (u8 (d + 48) = 48 + d) as -> by (rewrite u8_small; unfold is_byte; lia).
  case_if; cbn [show_text].
  - unfold mbind, io_bind. destruct (LCD_ShowChar _ _ _ _ _ v) as [[[] v']|]; [|done].
    destruct enshow; [done|]. apply IH; lia.
  - unfold mbind, io_bind. destruct (LCD_ShowChar _ _ _ _ _ v) as [[[] v']|]; [|done].
    rewrite IH by lia. destruct n as [|n]; [done|]. by rewrite orb_true_r.
Qed.

(** Numbers.  For up to ten digits and a number that fits them, [LCD_ShowNum] shows,
    character cell by character cell, exactly the text of [printf("%<len>d")], and
    [LCD_ShowxNum] with bit 7 of its mode set the same number with leading zeros. *)
Theorem LCD_ShowNum_prints x y num len size mode v :
  (1 <= len <= 10)%nat → 0 <= num < 10 ^ Z.of_nat len →
  LCD_ShowNum x y num (Z.of_nat len) size v = show_text x y size 0 0 (print_wd len num) v ∧
  (Z.land mode 128 ≠ 0 →
   LCD_ShowxNum x y num (Z.of_nat len) size mode v =
   show_text x y size (Z.land mode 1) 0 (fixed len num) v) ∧
  dec (fixed len num) = num.
Proof.
  intros Hl Hn. unfold LCD_ShowNum, LCD_ShowxNum. rewrite !Nat2Z.id. split; [|split].
  - rewrite show_digits_text by lia. by rewrite shown_print.
  - intros Hm. apply Z.eqb_neq in Hm. rewrite Hm. cbn [negb].
    rewrite show_digits_text by lia. by rewrite shown_zeros.
  - clear Hl. revert num Hn. induction len as [|len IH]; intros num Hn.
    { change (10 ^ Z.of_nat 0) with 1 in Hn. change (0 = num). lia. }
    rewrite Nat2Z.inj_succ, Z.pow_succ_r in Hn by lia.
    rewrite fixed_snoc by lia. rewrite dec_app, IH.
    + change (dec [48 + num mod 10]) with (0 * 10 + (48 + num mod 10 - 48)).
      change (10 ^ Z.of_nat (length [48 + num mod 10])) with 10. dlia.
    + split; [apply Z.div_pos; lia|]. apply Z.div_lt_upper_bound; lia.
Qed.

Lemma LCD_ShowNum_prints_witness :
  LCD_ShowNum 20 20 42 4 16 panel = show_text 20 20 16 0 0 (print_wd 4 42) panel ∧
  print_wd 4 42 = bytes "  42".
Proof.
  split; [|reflexivity]. exact (proj1 (LCD_ShowNum_prints 20 20 42 4 16 128 panel ltac:(lia) ltac:(lia))).
Defined.
