(* ===== verification/LcdText.v ===== *)
(** Characters and circles of the display driver (Lcd.v): the pixels [LCD_ShowChar] and
    [LCD_Draw_Circle] write, in the trace style of LcdSpec.v. *)

From S2P Require Import Prelude CLib Font Lcd LcdSpec.

(** [emits] for a computation with a result. *)
Definition emitsv {A} (w : lcd) (m : io lcd A) (t : list access) (a : A) : Prop :=
  ∀ b, m (w <| bus := b |>) = Ret (a, w <| bus := rev t ++ b |>).

Lemma emitsv_bind {A} w (m : io lcd A) (k : A → io lcd unit) t1 a t2 :
  emitsv w m t1 a → emits w (k a) t2 → emits w (mbind k m) (t1 ++ t2).
Proof.
  intros H1 H2 b. unfold mbind, io_bind. rewrite H1, H2, rev_app_distr. by rewrite <- app_assoc.
Qed.

Lemma emitsv_seq {A} w (m1 : io lcd unit) (m2 : io lcd A) t1 t2 a :
  emits w m1 t1 → emitsv w m2 t2 a → emitsv w (m1 ;; m2) (t1 ++ t2) a.
Proof.
  intros H1 H2 b. unfold mbind, io_bind. rewrite H1, H2, rev_app_distr. by rewrite <- app_assoc.
Qed.

Lemma emitsv_gets {A B} w (f : lcd → A) (k : A → io lcd B) t r :
  (∀ b, f (w <| bus := b |>) = f w) → emitsv w (k (f w)) t r → emitsv w (mbind k (gets f)) t r.
Proof. intros Hf Hk b. unfold mbind, io_bind, gets. rewrite Hf. apply Hk. Qed.

Lemma emitsv_ret {A} w (a : A) : emitsv w (mret a) [] a.
Proof. by intros b. Qed.

(** * Glyphs *)

(** One cell of the pixel grid: a set bit is drawn in the pen colour, a clear one in the
    background colour unless the mode is overlay. *)
Definition cell (w : lcd) (mode : Z) (bit : bool) (x y : Z) : list access :=
  if bit then pixel w x y (POINT_COLOR w)
  else if mode =? 0 then pixel w x y (BACK_COLOR w) else [].

Section char.
Context (w : lcd) (mode size y0 : Z).

Fixpoint bits_trace (r : nat) (temp x y : Z) : list access :=
  match r with
  | O => []
  | S r => cell w mode (Z.testbit temp 7) x y ++ bits_trace r (u8 (Z.shiftl temp 1)) x (y + 1)
  end.

Lemma bit_128 temp : negb (Z.land temp 128 =? 0) = Z.testbit temp 7.
Proof.
  change 128 with (2 ^ 7).
  destruct (Z.testbit temp 7) eqn:E.
  - apply negb_true_iff, Z.eqb_neq. intros H.
    assert (Z.testbit (Z.land temp (2 ^ 7)) 7 = true) as Ht by (rewrite Z.land_spec, E; done).
    by rewrite H, Z.bits_0 in Ht.
  - apply negb_false_iff, Z.eqb_eq, Z.bits_inj'. intros n Hn.
    rewrite Z.land_spec, Z.pow2_bits_eqb, Z.bits_0 by done.
    destruct (7 =? n) eqn:E7; bool_prop; [by subst; rewrite E|by rewrite andb_false_r].
Qed.

Lemma emits_cell x y temp :
  emits w (if negb (Z.land temp 128 =? 0) then LCD_Fast_DrawPoint x y (POINT_COLOR w)
           else if mode =? 0 then LCD_Fast_DrawPoint x y (BACK_COLOR w) else mret tt)
    (cell w mode (Z.testbit temp 7) x y).
Proof.
  rewrite bit_128. unfold cell. repeat case_if; apply emits_pixel || apply emits_nil.
Qed.

(** A byte inside a column, one that ends it, and one that ends at the last row of
    the display. *)
Lemma char_bits_inside n : ∀ temp x y,
  0 <= y → y - y0 + Z.of_nat n < size → y + Z.of_nat n < height w → height w < 65536 →
  emitsv w (char_bits n size mode y0 temp x y) (bits_trace n temp x y) (Some (x, y + Z.of_nat n)).
Proof.
  induction n as [|n IH]; intros temp x y H0 Hs Hh Hw; cbn [char_bits bits_trace].
  - rewrite Z.add_0_r. apply emitsv_ret.
  - do 2 (apply emitsv_gets; [done|]). apply emitsv_seq; [apply emits_cell|].
    do 2 (apply emitsv_gets; [done|]). rewrite u16_small by lia.
    decide_if (height w <=? y + 1) false. decide_if (y + 1 - y0 =? size) false.
    replace (y + Z.of_nat (S n)) with (y + 1 + Z.of_nat n) by lia. apply IH; lia.
Qed.

Lemma char_bits_end n r : ∀ temp x y,
  0 <= y → (1 <= r <= n)%nat → y - y0 + Z.of_nat r = size →
  y0 + size <= height w → height w < 65536 → 0 <= x < 65535 →
  emitsv w (char_bits n size mode y0 temp x y) (bits_trace r temp x y)
    (if (height w <=? y0 + size) || (width w <=? x + 1) then None else Some (x + 1, y0)).
Proof.
  revert r. induction n as [|n IH]; intros r temp x y H0 Hr Hs Hh Hw Hx; [lia|].
  destruct r as [|r]; [lia|]. cbn [char_bits bits_trace].
  do 2 (apply emitsv_gets; [done|]). apply emitsv_seq; [apply emits_cell|].
  do 2 (apply emitsv_gets; [done|]). rewrite !u16_small by lia.
  destruct r as [|r].
  - cbn [bits_trace]. replace (y0 + size) with (y + 1) by lia.
    destruct (height w <=? y + 1) eqn:E; cbn [orb]; [apply emitsv_ret|].
    decide_if (y + 1 - y0 =? size) true. case_if; apply emitsv_ret.
  - decide_if (height w <=? y + 1) false. decide_if (y + 1 - y0 =? size) false.
    apply IH; lia.
Qed.

(** Eight bits by position. *)
Lemma shift_bit temp k : 0 <= k < 7 → Z.testbit (u8 (Z.shiftl temp 1)) (7 - k) = Z.testbit temp (7 - (k + 1)).
Proof.
  intros Hk. unfold u8. change 256 with (2 ^ 8). rewrite Z.mod_pow2_bits_low by lia.
  rewrite Z.shiftl_spec by lia. f_equal. lia.
Qed.

Lemma bits_trace_spec r : ∀ temp x y,
  (r <= 8)%nat →
  bits_trace r temp x y =
  concat ((λ k, cell w mode (Z.testbit temp (7 - k)) x (y + k)) <$> seqZ 0 (Z.of_nat r)).
Proof.
  assert (∀ r temp x y j, (Z.to_nat j + r <= 8)%nat → 0 <= j →
    ∀ t', (∀ k, 0 <= k → k + j < 8 → Z.testbit t' (7 - k) = Z.testbit temp (7 - (k + j))) →
    bits_trace r t' x (y + j) =
    concat ((λ k, cell w mode (Z.testbit temp (7 - k)) x (y + k)) <$> seqZ j (Z.of_nat r))) as Hgen.
  { clear. induction r as [|r IH]; intros temp x y j Hr Hj t' Ht'; [done|].
    rewrite seqZ_cons by lia. cbn [bits_trace fmap list_fmap concat].
    specialize (Ht' 0 ltac:(lia) ltac:(lia)) as Ht0. rewrite Z.sub_0_r, Z.add_0_l in Ht0.
    rewrite Ht0. f_equal.
    replace (Z.pred (Z.of_nat (S r))) with (Z.of_nat r) by lia.
    replace (y + j + 1) with (y + Z.succ j) by lia.
    apply IH; [lia..|]. intros k Hk Hkj. rewrite shift_bit by lia.
    rewrite Ht' by lia. f_equal. lia. }
  intros temp x y Hr. rewrite <- (Hgen r temp x y 0 ltac:(lia) ltac:(lia) temp).
  - by rewrite Z.add_0_r.
  - intros. f_equal. lia.
Qed.
End char.

(** The glyph of a font row: bit [j] of column [i], the bytes of a column going down. *)
Definition glyph_bit (row : list Z) (size i j : Z) : bool :=
  Z.testbit (nth (Z.to_nat (i * ((size + 7) / 8) + j / 8)) row 0) (7 - j mod 8).

(** The cells of column [i] from row [j] on, for a character at (x, y). *)
Definition column_from (w : lcd) (mode : Z) (row : list Z) (size x y i j : Z) : list access :=
  concat ((λ j, cell w mode (glyph_bit row size i j) (x + i) (y + j)) <$> seqZ j (size - j)).
Definition column (w : lcd) (mode : Z) (row : list Z) (size x y i : Z) : list access :=
  column_from w mode row size x y i 0.

Lemma concat_ext {A} (f g : A → list access) l :
  Forall (λ a, f a = g a) l → concat (f <$> l) = concat (g <$> l).
Proof.
  induction 1 as [|a l Ha _ IH]; [done|]. by rewrite !fmap_cons; cbn [concat]; rewrite IH, Ha.
Qed.

Section glyph.
Context (w : lcd) (mode size : Z) (f : list (list Z)) (num : Z) (row : list Z).
Context (Hrow : f !! Z.to_nat num = Some row).
Context (Hlen : Z.of_nat (length row) = (size + 7) / 8 * (size / 2)).
Context (Hsize : 8 <= size < 256).

Let bpc := (size + 7) / 8.

Lemma font_byte_row t :
  0 <= t < Z.of_nat (length row) → font_byte f num t = Ret (nth (Z.to_nat t) row 0).
Proof.
  intros Ht. unfold font_byte. rewrite Hrow, lookup_nth by lia. done.
Qed.

Lemma bits_trace_at r q i x y :
  (r <= 8)%nat → 0 <= q → 0 <= i →
  bits_trace w mode r (nth (Z.to_nat (i * bpc + q)) row 0) (x + i) (y + 8 * q) =
  concat ((λ j, cell w mode (glyph_bit row size i j) (x + i) (y + j)) <$> seqZ (8 * q) (Z.of_nat r)).
Proof.
  intros Hr Hq Hi. rewrite bits_trace_spec by done.
  replace (seqZ (8 * q) (Z.of_nat r)) with (Z.add (8 * q) <$> seqZ 0 (Z.of_nat r))
    by (rewrite fmap_add_seqZ; f_equal; lia).
  rewrite <- list_fmap_compose.
  apply concat_ext, Forall_forall. intros k Hk. apply elem_of_seqZ in Hk. unfold compose.
  unfold glyph_bit. fold bpc.
  replace ((8 * q + k) / 8) with q by dlia.
  replace ((8 * q + k) mod 8) with k by dlia. f_equal. lia.
Qed.

(** The bytes of one column, then [rest] unless the display ends there. *)
Lemma column_bytes m n i x y : ∀ q T,
  (1 <= m)%nat → 0 <= q → 0 <= i < size / 2 → q + Z.of_nat m = bpc →
  0 <= y → y + size <= height w → height w < 65536 → 0 <= x → x + i < 65535 →
  (if (height w <=? y + size) || (width w <=? x + i + 1) then T = []
   else emits w (char_bytes n f num size mode y (i * bpc + q + Z.of_nat m) (x + i + 1) y) T) →
  emits w (char_bytes (m + n) f num size mode y (i * bpc + q) (x + i) (y + 8 * q))
    (column_from w mode row size x y i (8 * q) ++ T).
Proof.
  assert (0 <= size / 2 ∧ bpc * 8 - 8 < size <= bpc * 8) as [Hh2 Hbpc] by (unfold bpc; dlia).
  induction m as [|m IH]; intros q T Hm Hq Hi Hqm Hy Hyh Hh Hx Hxi HT; [lia|].
  cbn [Nat.add char_bytes].
  eapply emits_lift; [apply font_byte_row; rewrite Hlen; fold bpc; nia|].
  destruct m as [|m].
  - assert (column_from w mode row size x y i (8 * q) =
      bits_trace w mode (Z.to_nat (size - 8 * q)) (nth (Z.to_nat (i * bpc + q)) row 0) (x + i) (y + 8 * q)) as ->.
    { rewrite bits_trace_at by lia. unfold column_from. by rewrite Z2Nat.id by lia. }
    eapply emitsv_bind; [apply (char_bits_end w mode size y 8); lia|].
    change (Z.of_nat 1) with 1 in *. cbn [Nat.add].
    destruct ((height w <=? y + size) || (width w <=? x + i + 1)); [by rewrite HT; apply emits_nil|done].
  - assert (column_from w mode row size x y i (8 * q) =
      bits_trace w mode 8 (nth (Z.to_nat (i * bpc + q)) row 0) (x + i) (y + 8 * q) ++
      column_from w mode row size x y i (8 * (q + 1))) as ->.
    { rewrite bits_trace_at by lia. unfold column_from.
      replace (size - 8 * q) with (8 + (size - 8 * (q + 1))) by lia.
      rewrite seqZ_app by lia. rewrite fmap_app, concat_app. f_equal. f_equal. f_equal. f_equal; lia. }
    rewrite <- app_assoc.
    eapply emitsv_bind; [apply (char_bits_inside w mode size y 8); lia|]. cbn [Nat.add].
    replace (y + 8 * q + Z.of_nat 8) with (y + 8 * (q + 1)) by lia.
    replace (i * bpc + q + 1) with (i * bpc + (q + 1)) by lia.
    apply IH; try lia.
    replace (i * bpc + (q + 1) + Z.of_nat (S m)) with (i * bpc + q + Z.of_nat (S (S m))) by lia.
    done.
Qed.

(** All columns from [i] on. *)
Lemma char_columns c x y : ∀ i,
  0 <= i → i + Z.of_nat c = size / 2 → 0 <= y → y + size < height w → height w < 65536 →
  0 <= x → x + size / 2 <= width w → width w <= 65535 →
  emits w (char_bytes (Z.to_nat bpc * c) f num size mode y (i * bpc) (x + i) y)
    (concat (column w mode row size x y <$> seqZ i (Z.of_nat c))).
Proof.
  assert (0 < bpc) as Hb by (unfold bpc; dlia).
  induction c as [|c IH]; intros i Hi Hc Hy Hyh Hh Hx Hxw Hw.
  { rewrite Nat.mul_0_r. apply emits_nil. }
  rewrite seqZ_cons by lia. cbn [fmap list_fmap concat]. rewrite Nat.mul_succ_r, Nat.add_comm.
  pose proof (column_bytes (Z.to_nat bpc) (Z.to_nat bpc * c) i x y 0
    (concat (column w mode row size x y <$> seqZ (Z.succ i) (Z.pred (Z.of_nat (S c)))))) as H.
  rewrite Z.mul_0_r, !Z.add_0_r in H. apply H; try lia. clear H.
  decide_if (height w <=? y + size) false. cbn [orb].
  replace (Z.pred (Z.of_nat (S c))) with (Z.of_nat c) by lia.
  destruct (width w <=? x + i + 1) eqn:E; bool_prop.
  - assert (c = 0%nat) as -> by lia. done.
  - replace (i * bpc + Z.of_nat (Z.to_nat bpc)) with (Z.succ i * bpc) by lia.
    replace (x + i + 1) with (x + Z.succ i) by lia. apply IH; lia.
Qed.
End glyph.

(** The fonts have a row of the right length for every printable character. *)
Lemma font_rows size f num :
  font size = Some f → 0 <= num < 95 →
  ∃ row, f !! Z.to_nat num = Some row ∧ Z.of_nat (length row) = (size + 7) / 8 * (size / 2) ∧
    glyph_size size = (size + 7) / 8 * (size / 2) ∧ 8 <= size < 256.
Proof.
  assert (∀ f n k, Forall (λ r : list Z, length r = k) f → length f = 95%nat →
    0 <= n < 95 → ∃ row, f !! Z.to_nat n = Some row ∧ length row = k) as Hf.
  { intros g n k Hg Hl Hn. destruct (lookup_lt_is_Some_2 g (Z.to_nat n)) as [row Hr]; [lia|].
    exists row. split; [done|]. eapply Forall_lookup_1 in Hg; [|done]. done. }
  unfold font. intros Hs Hn.
  destruct (size =? 12) eqn:E12; [|destruct (size =? 16) eqn:E16; [|destruct (size =? 24) eqn:E24; [|done]]];
    injection Hs as <-; bool_prop; subst size.
  - destruct (Hf asc2_1206 num 12%nat) as (row & ? & Hl); [by repeat constructor|done..|].
    exists row. by rewrite Hl.
  - destruct (Hf asc2_1608 num 16%nat) as (row & ? & Hl); [by repeat constructor|done..|].
    exists row. by rewrite Hl.
  - destruct (Hf asc2_2412 num 36%nat) as (row & ? & Hl); [by repeat constructor|done..|].
    exists row. by rewrite Hl.
Qed.

(** C40. Characters.  For each of the three fonts, every printable character and both
    modes, placed inside the display, [LCD_ShowChar] writes exactly the pixels of the
    glyph: column by column, downwards, a set bit in the pen colour and (unless the mode
    is overlay) a clear one in the background colour.  A character whose last row is the
    last row of the display is cut: the function returns after its first column. *)
Theorem LCD_ShowChar_glyph w x y c size mode f :
  font size = Some f → 32 <= c <= 126 →
  0 <= x → x + size / 2 <= width w → width w <= 65535 →
  0 <= y → y + size <= height w → height w < 65536 →
  ∃ row, f !! Z.to_nat (c - 32) = Some row ∧
    emits w (LCD_ShowChar x y c size mode)
      (if y + size <? height w
       then concat (column w mode row size x y <$> seqZ 0 (size / 2))
       else column w mode row size x y 0).
Proof.
  intros Hf Hc Hx Hxw Hw Hy Hyh Hh.
  destruct (font_rows size f (c - 32) Hf) as (row & Hrow & Hlen & Hg & Hs); [lia|].
  exists row. split; [done|].
  assert (1 <= size / 2 ∧ 0 < (size + 7) / 8) as [Hs2 Hb] by dlia.
  unfold LCD_ShowChar. rewrite Hf, Hg, (u8_small (c - 32)) by (unfold is_byte; lia).
  case_if.
  - replace (Z.to_nat ((size + 7) / 8 * (size / 2)))
      with (Z.to_nat ((size + 7) / 8) * Z.to_nat (size / 2))%nat by lia.
    rewrite <- (Z2Nat.id (size / 2)) at 2 by lia.
    pose proof (char_columns w mode size f (c - 32) row Hrow Hlen Hs (Z.to_nat (size / 2)) x y 0) as H.
    rewrite Z.mul_0_l, Z.add_0_r in H. apply H; lia.
  - assert (0 <= (size + 7) / 8 * (size / 2 - 1)) as Hnn by nia.
    replace (Z.to_nat ((size + 7) / 8 * (size / 2)))
      with (Z.to_nat ((size + 7) / 8) + Z.to_nat ((size + 7) / 8 * (size / 2 - 1)))%nat by lia.
    pose proof (column_bytes w mode size f (c - 32) row Hrow Hlen Hs (Z.to_nat ((size + 7) / 8))
      (Z.to_nat ((size + 7) / 8 * (size / 2 - 1))) 0 x y 0 []) as H.
    rewrite Z.mul_0_l, !Z.mul_0_r, !Z.add_0_r, app_nil_r in H. apply H; try lia.
    by decide_if (height w <=? y + size) true.
Qed.

Lemma LCD_ShowChar_glyph_witness :
  ∃ row, asc2_1206 !! 33%nat = Some row ∧
    emits panel (LCD_ShowChar 20 30 65 12 0)
      (concat (column panel 0 row 12 20 30 <$> seqZ 0 6)).
Proof.
  apply (LCD_ShowChar_glyph panel 20 30 65 12 0 asc2_1206); [reflexivity|..]; vm_compute; intuition congruence.
Defined.

(** * Circles *)

(** The (a, b) of the successive rounds; the last component is left over fuel. *)
Fixpoint circle_steps (fuel : nat) (a b di : Z) : option (list (Z * Z)) :=
  match fuel with
  | O => None
  | S fuel =>
      if a <=? b then
        let a' := a + 1 in
        rest ← (if di <? 0 then circle_steps fuel a' b (di + (4 * a' + 6))
                else circle_steps fuel a' (b - 1) (di + (10 + 4 * (a' - b))));
        Some ((a, b) :: rest)
      else Some []
  end.

Definition circle_round (w : lcd) (x0 y0 : Z) (p : Z * Z) : list access :=
  concat ((λ '(x, y), point w (u16 x) (u16 y)) <$> circle_points x0 y0 p.1 p.2).

Lemma circle_loop_spec w x0 y0 fuel : ∀ a b di l,
  circle_steps fuel a b di = Some l →
  emits w (circle_loop fuel x0 y0 a b di) (concat (circle_round w x0 y0 <$> l)).
Proof.
  induction fuel as [|fuel IH]; intros a b di l Hl; [done|]. cbn [circle_steps circle_loop] in *.
  destruct (a <=? b); [|injection Hl as <-; apply emits_nil].
  apply bind_Some in Hl as (rest & Hr & Hl). injection Hl as <-.
  rewrite fmap_cons. cbn [concat]. apply emits_seq.
  - unfold circle_round. cbn [fst snd circle_points fmap list_fmap seq_ concat].
    repeat (apply emits_seq; [apply emits_point|]). apply emits_nil.
  - cbv zeta. destruct (di <? 0); by apply IH.
Qed.

(** A round is in the octant, and the distance of its point from the centre between
    r - 1.1 and r + 0.5 (in tenths of a pixel, squared). *)
Definition near (r : Z) (p : Z * Z) : bool :=
  let '(a, b) := p in
  (0 <=? a) && (a <=? b) && (b <=? r) &&
  ((r <=? 1) || ((10 * r - 11) * (10 * r - 11) <=? 100 * (a * a + b * b))) &&
  (100 * (a * a + b * b) <=? (10 * r + 5) * (10 * r + 5)).

(** Successive rounds move one column and at most one row. *)
Fixpoint linked (p : Z * Z) (l : list (Z * Z)) : bool :=
  match l with
  | [] => true
  | q :: l => (q.1 =? p.1 + 1) && (p.2 - 1 <=? q.2) && (q.2 <=? p.2) && linked q l
  end.

Definition circle_of (r : Z) : option (list (Z * Z)) := circle_steps 300 0 r (3 - Z.shiftl r 1).

Lemma draw_circle w x0 y0 r l :
  circle_of r = Some l → emits w (LCD_Draw_Circle x0 y0 r) (concat (circle_round w x0 y0 <$> l)).
Proof.
  unfold circle_of, LCD_Draw_Circle. intros H.
  exact (circle_loop_spec w x0 y0 300 0 r (3 - Z.shiftl r 1) l H).
Qed.

Definition circle_ok (r : Z) : bool :=
  match circle_of r with
  | Some (p :: l) => (p.1 =? 0) && (p.2 =? r) && forallb (near r) (p :: l) && linked p l
  | _ => false
  end.

Lemma circle_all : forallb circle_ok (seqZ 0 256) = true.
Proof. vm_compute. reflexivity. Qed.

Lemma circle_ok_all r : 0 <= r < 256 → circle_ok r = true.
Proof.
  intros Hr. apply (proj1 (List.forallb_forall circle_ok (seqZ 0 256)) circle_all).
  apply list_elem_of_In, elem_of_seqZ. lia.
Qed.

Lemma circle_ok_inv r :
  circle_ok r = true →
  ∃ l, circle_of r = Some ((0, r) :: l) ∧ forallb (near r) ((0, r) :: l) = true ∧
    linked (0, r) l = true.
Proof.
  unfold circle_ok. generalize (circle_of r). intros [[|[a b] l]|] H; [done| |done].
  apply andb_true_iff in H as [H Hl]. apply andb_true_iff in H as [H Hn].
  apply andb_true_iff in H as [Ha Hb]. apply Z.eqb_eq in Ha, Hb. cbn [fst snd] in Ha, Hb.
  subst. by exists l.
Qed.

(** Circles.  For every radius [LCD_Draw_Circle] ends; it draws, for successive
    points of one octant, their eight reflections about the centre; the first is (0, r),
    each next one is one column further and at most one row lower, and the distance of
    every point from the centre is between r - 1.1 and r + 0.5 pixels. *)
Theorem LCD_Draw_Circle_points w x0 y0 r :
  0 <= r < 256 →
  ∃ l, emits w (LCD_Draw_Circle x0 y0 r) (concat (circle_round w x0 y0 <$> (0, r) :: l)) ∧
    Forall (λ p, near r p = true) ((0, r) :: l) ∧ linked (0, r) l = true.
Proof.
  intros Hr. destruct (circle_ok_inv r (circle_ok_all r Hr)) as (l & Hs & Hn & Hl).
  exists l. split; [by apply draw_circle|]. split; [|exact Hl].
  apply List.Forall_forall. by apply List.forallb_forall.
Qed.

Lemma LCD_Draw_Circle_points_witness :
  ∃ l, emits panel (LCD_Draw_Circle 60 60 20) (concat (circle_round panel 60 60 <$> (0, 20) :: l)) ∧
    Forall (λ p, near 20 p = true) ((0, 20) :: l) ∧ linked (0, 20) l = true.
Proof. apply (LCD_Draw_Circle_points panel 60 60 20). lia. Defined.
