(* ===== verification/Event.v ===== *)
(** The event object of the kernel the modem driver waits on (rt-thread/src/ipc.c:
    rt_event_send, rt_event_recv; thread.c: rt_thread_timeout).

    An event holds a set of 32 flags and the queue of the threads suspended on it.
    Both operations run with interrupts disabled, so a behaviour of several threads is
    a sequence of them.  [rt_event_recv] is split at the point where the calling thread
    suspends: what the other threads do meanwhile is a list of sends, and the wait ends
    with the first of them that resumes the thread, or with its timeout. *)

From S2P Require Import Prelude.

Definition RT_EOK := 0.
Definition RT_ERROR := 1.
Definition RT_ETIMEOUT := 2.
Definition RT_ENOMEM := 5.
Definition RT_EBUSY := 7.
Definition RT_WAITING_FOREVER := -1.

(** clock.c *)
Definition RT_TICK_PER_SECOND := 1000.
Definition rt_tick_from_millisecond (ms : Z) : Z :=
  if ms <? 0 then 4294967295
  else u32 (u32 (RT_TICK_PER_SECOND * (ms / 1000)) + (RT_TICK_PER_SECOND * (ms mod 1000) + 999) / 1000).

Definition RT_EVENT_FLAG_AND := 1.
Definition RT_EVENT_FLAG_OR := 2.
Definition RT_EVENT_FLAG_CLEAR := 4.

Definition RT_IPC_FLAG_FIFO := 0.

Record rt_thread : Type := MkThread {
  tid : Z;
  current_priority : Z;
  event_set : Z;
  event_info : Z }.

Record rt_event : Type := MkEvent {
  ev_set : Z;
  suspend_thread : list rt_thread;
  ipc_flag : Z }.
#[global] Instance rt_event_eta : Eta rt_event :=
  λ e, MkEvent (ev_set e) (suspend_thread e) (ipc_flag e).

Definition flag (info mask : Z) : bool := negb (Z.land info mask =? 0).

(** What a thread waiting for [event_set] takes from the flags [s]: [None] when its
    condition does not hold. *)
Definition received (s : Z) (t : rt_thread) : option rt_thread :=
  if flag (event_info t) RT_EVENT_FLAG_AND then
    if Z.land (event_set t) s =? event_set t then Some t else None
  else if flag (event_info t) RT_EVENT_FLAG_OR then
    if Z.land (event_set t) s =? 0 then None
    else Some (MkThread (tid t) (current_priority t) (Z.land (event_set t) s) (event_info t))
  else None.

(** The loop over the suspended threads: the flags left, the threads left in the queue
    and the resumed ones, each with the flags it received. *)
Fixpoint resume_loop (s : Z) (q : list rt_thread) : Z * list rt_thread * list rt_thread :=
  match q with
  | [] => (s, [], [])
  | t :: q =>
      match received s t with
      | None => let '(s', kept, woken) := resume_loop s q in (s', t :: kept, woken)
      | Some t' =>
          let s := if flag (event_info t') RT_EVENT_FLAG_CLEAR
                   then Z.land s (Z.lnot (event_set t')) else s in
          let '(s', kept, woken) := resume_loop s q in (s', kept, t' :: woken)
      end
  end.

Definition rt_event_send (ev : rt_event) (set : Z) : Z * rt_event * list rt_thread :=
  if set =? 0 then (- RT_ERROR, ev, [])
  else
    let '(s, kept, woken) := resume_loop (Z.lor (ev_set ev) set) (suspend_thread ev) in
    (RT_EOK, MkEvent s kept (ipc_flag ev), woken).

(** [rt_ipc_list_suspend]: at the end of the queue, or before the first thread of a
    lower priority (a larger number). *)
Fixpoint insert_by_priority (t : rt_thread) (q : list rt_thread) : list rt_thread :=
  match q with
  | [] => [t]
  | u :: q =>
      if current_priority t <? current_priority u then t :: u :: q
      else u :: insert_by_priority t q
  end.
Definition rt_ipc_list_suspend (q : list rt_thread) (t : rt_thread) (flag : Z) : list rt_thread :=
  if flag =? RT_IPC_FLAG_FIFO then q ++ [t] else insert_by_priority t q.

(** [rt_event_recv] up to the point where the thread suspends. *)
Inductive recv_outcome : Type :=
  | RecvFailed (err : Z)
  | Recved (recved : Z) (ev : rt_event)
  | Suspended (ev : rt_event).

Definition rt_event_recv (ev : rt_event) (self prio set option timeout : Z) : res recv_outcome :=
  if set =? 0 then Ret (RecvFailed (- RT_ERROR))
  else
    status ←
      (if flag option RT_EVENT_FLAG_AND then Ret (Z.land (ev_set ev) set =? set)
       else if flag option RT_EVENT_FLAG_OR then Ret (negb (Z.land (ev_set ev) set =? 0))
       else Fault AssertFailed);
    if status : bool then
      Ret (Recved (Z.land (ev_set ev) set)
             (if flag option RT_EVENT_FLAG_CLEAR
              then ev <| ev_set := Z.land (ev_set ev) (Z.lnot set) |> else ev))
    else if timeout =? 0 then Ret (RecvFailed (- RT_ETIMEOUT))
    else
      let thread := MkThread self prio set option in
      Ret (Suspended (ev <| suspend_thread :=
             rt_ipc_list_suspend (suspend_thread ev) thread (ipc_flag ev) |>)).

(** [rt_thread_timeout]: the thread leaves the queue. *)
Definition rt_thread_timeout (ev : rt_event) (self : Z) : rt_event :=
  ev <| suspend_thread := List.filter (λ t, negb (tid t =? self)) (suspend_thread ev) |>.

(** Sends by other threads, in order: the final event and every thread resumed. *)
Fixpoint sends (ev : rt_event) (sets : list Z) : rt_event * list rt_thread :=
  match sets with
  | [] => (ev, [])
  | set :: sets =>
      let '(_, ev, woken) := rt_event_send ev set in
      let '(ev, woken') := sends ev sets in
      (ev, woken ++ woken')
  end.

(** The end of the wait of [self]: its flags if one of the sends resumed it. *)
Definition wait_end (ev : rt_event) (self : Z) (sets : list Z) : option Z * rt_event :=
  let '(ev, woken) := sends ev sets in
  match List.find (λ t, tid t =? self) woken with
  | Some t => (Some (event_set t), ev)
  | None => (None, rt_thread_timeout ev self)
  end.

(** * Delivery *)

(** No thread stays suspended while the flags it waits for are set. *)
Definition quiescent (ev : rt_event) : Prop :=
  Forall (λ t, received (ev_set ev) t = None) (suspend_thread ev).

Definition disjoint_flags (a b : Z) : Prop := Z.land a b = 0.
Definition wants_clear (t : rt_thread) : Prop := flag (event_info t) RT_EVENT_FLAG_CLEAR = true.

(** A smaller set of flags satisfies fewer threads. *)
Definition flags_le (s s' : Z) : Prop := Z.land s s' = s.

Lemma flags_le_bits s s' : flags_le s s' ↔ ∀ i, 0 <= i → Z.testbit s i = true → Z.testbit s' i = true.
Proof.
  unfold flags_le. split.
  - intros E i Hi. rewrite <- E, Z.land_spec. by destruct (Z.testbit s i), (Z.testbit s' i).
  - intros E. apply Z.bits_inj'. intros i Hi. rewrite Z.land_spec. specialize (E i Hi).
    destruct (Z.testbit s i); [by rewrite E|done].
Qed.

Lemma flags_le_refl s : flags_le s s.
Proof. apply Z.land_diag. Qed.

Lemma flags_le_trans a b c : flags_le a b → flags_le b c → flags_le a c.
Proof. rewrite !flags_le_bits. eauto. Qed.

Lemma flags_le_clear s m : flags_le (Z.land s (Z.lnot m)) s.
Proof. apply flags_le_bits. intros i Hi. rewrite Z.land_spec. by intros [? _]%andb_true_iff. Qed.

Lemma flags_le_land s m : flags_le (Z.land m s) s.
Proof. apply flags_le_bits. intros i Hi. rewrite Z.land_spec. by intros [_ ?]%andb_true_iff. Qed.

#[export] Hint Resolve flags_le_refl flags_le_clear flags_le_land : ints.

Lemma land_0_le a s s' : flags_le s' s → Z.land a s = 0 → Z.land a s' = 0.
Proof.
  rewrite flags_le_bits. intros Hs E. apply Z.bits_inj'. intros i Hi.
  assert (Z.testbit (Z.land a s) i = false) as F by (rewrite E; apply Z.bits_0).
  rewrite Z.land_spec in F. rewrite Z.land_spec, Z.bits_0. specialize (Hs i Hi).
  destruct (Z.testbit a i), (Z.testbit s' i); cbn in *; try done. by rewrite Hs in F.
Qed.

Lemma received_mono s s' t : flags_le s' s → received s t = None → received s' t = None.
Proof.
  unfold received. intros Hs. destruct (flag (event_info t) RT_EVENT_FLAG_AND).
  - intros H. destruct (_ =? _) eqn:E in H; [done|]. case_if; [|done]. exfalso.
    bool_prop. apply E. change (flags_le (event_set t) s). eapply flags_le_trans; [|done]. apply E0.
  - destruct (flag (event_info t) RT_EVENT_FLAG_OR); [|done].
    intros H. destruct (Z.land (event_set t) s =? 0) eqn:E in H; [|done]. bool_prop.
    by rewrite (land_0_le _ _ _ Hs E).
Qed.

Lemma received_le s t t' : received s t = Some t' → flags_le (event_set t') s.
Proof.
  unfold received. repeat case_if; intros [= <-]; cbn; auto with ints.
Qed.

Lemma received_id s t t' :
  received s t = Some t' → tid t' = tid t ∧ event_info t' = event_info t.
Proof. unfold received. repeat case_if; by intros [= <-]. Qed.

Lemma resume_loop_le s q : flags_le (resume_loop s q).1.1 s.
Proof.
  revert s. induction q as [|t q IH]; intros s; cbn; [auto with ints|].
  destruct (received s t) as [t'|] eqn:E.
  - set (s1 := if flag _ _ then _ else _). specialize (IH s1).
    destruct (resume_loop s1 q) as [[s' k] w]. cbn in *. eapply flags_le_trans; [done|].
    subst s1. case_if; auto with ints.
  - specialize (IH s). by destruct (resume_loop s q) as [[s' k] w].
Qed.

Lemma resume_loop_quiescent s q :
  Forall (λ t, received (resume_loop s q).1.1 t = None) (resume_loop s q).1.2.
Proof.
  revert s. induction q as [|t q IH]; intros s; cbn; [constructor|].
  destruct (received s t) as [t'|] eqn:E.
  - set (s1 := if flag _ _ then _ else _). specialize (IH s1).
    by destruct (resume_loop s1 q) as [[s' k] w].
  - specialize (IH s). pose proof (resume_loop_le s q) as Hle.
    destruct (resume_loop s q) as [[s' k] w]. constructor; [|done].
    by eapply received_mono.
Qed.

Lemma lor_clear s m : flags_le m s → Z.lor (Z.land s (Z.lnot m)) m = s.
Proof.
  rewrite flags_le_bits. intros H. apply Z.bits_inj'. intros i Hi.
  rewrite Z.lor_spec, Z.land_spec, Z.lnot_spec by done. specialize (H i Hi).
  destruct (Z.testbit s i), (Z.testbit m i); cbn; try done. by specialize (H eq_refl).
Qed.

Lemma land_clear s m : Z.land m (Z.land s (Z.lnot m)) = 0.
Proof.
  apply Z.bits_inj'. intros i Hi. rewrite !Z.land_spec, Z.lnot_spec, Z.bits_0 by done.
  by destruct (Z.testbit s i), (Z.testbit m i).
Qed.

(** The resumed threads, all clearing, share out the flags that leave the set. *)
Lemma resume_loop_shares s q :
  Forall wants_clear q →
  let '(s', _, woken) := resume_loop s q in
  foldr (λ t a, Z.lor a (event_set t)) s' woken = s ∧
  ForallOrdPairs (λ t u, disjoint_flags (event_set t) (event_set u)) woken ∧
  Forall (λ t, disjoint_flags (event_set t) s') woken ∧
  Forall (λ t, flags_le (event_set t) s) woken.
Proof.
  intros Hq. revert s. induction Hq as [|t q Ht _ IH]; intros s; cbn [resume_loop].
  { repeat constructor. }
  destruct (received s t) as [t'|] eqn:E.
  - destruct (received_id _ _ _ E) as [_ Hi]. pose proof (received_le _ _ _ E) as Hle.
    rewrite Hi, Ht. pose proof (resume_loop_le (Z.land s (Z.lnot (event_set t'))) q) as Hs.
    specialize (IH (Z.land s (Z.lnot (event_set t')))).
    destruct (resume_loop _ q) as [[s' k] w]. destruct IH as (Hu & Hp & Hd & Hw).
    cbn in *. rewrite Hu. split_and!.
    + by apply lor_clear.
    + constructor; [|done]. eapply Forall_impl; [exact Hw|]. intros u Hu'.
      eapply land_0_le; [exact Hu'|apply land_clear].
    + constructor; [|done]. eapply land_0_le; [exact Hs|apply land_clear].
    + constructor; [done|]. eapply Forall_impl; [exact Hw|]. intros u Hu'.
      eapply flags_le_trans; [exact Hu'|auto with ints].
  - specialize (IH s). by destruct (resume_loop s q) as [[s' k] w].
Qed.

(** Every thread is kept or resumed, in queue order. *)
Lemma resume_loop_threads s q :
  let '(_, kept, woken) := resume_loop s q in
  kept `sublist_of` q ∧ tid <$> q ≡ₚ (tid <$> kept) ++ (tid <$> woken).
Proof.
  revert s. induction q as [|t q IH]; intros s; cbn [resume_loop]; [done|].
  destruct (received s t) as [t'|] eqn:E.
  - destruct (received_id _ _ _ E) as [Hi _].
    set (s1 := if flag _ _ then _ else _). specialize (IH s1).
    destruct (resume_loop s1 q) as [[s' k] w]. destruct IH as [Hs Hp]. split.
    + by constructor.
    + cbn. rewrite Hp, Hi. by rewrite Permutation_middle.
  - specialize (IH s). destruct (resume_loop s q) as [[s' k] w]. destruct IH as [Hs Hp].
    split; [by constructor|]. cbn. by rewrite Hp.
Qed.

Lemma insert_by_priority_in t q u : u ∈ insert_by_priority t q → u = t ∨ u ∈ q.
Proof.
  induction q as [|v q IH]; cbn; [rewrite list_elem_of_singleton; auto|].
  case_if; rewrite !elem_of_cons; [tauto|]. intros [->|[->|?]%IH]; auto.
Qed.

Lemma recv_quiescent ev self prio want option timeout :
  quiescent ev →
  match rt_event_recv ev self prio want option timeout with
  | Ret (Recved _ ev') | Ret (Suspended ev') => quiescent ev'
  | _ => True
  end.
Proof.
  intros Hq. unfold rt_event_recv. case_if; [done|].
  assert (received (ev_set ev) (MkThread self prio want option) = None →
    quiescent (ev <| suspend_thread := rt_ipc_list_suspend (suspend_thread ev)
                 (MkThread self prio want option) (ipc_flag ev) |>)) as Hsus.
  { intros Hn. apply Forall_forall. intros u Hu. cbn in *.
    unfold quiescent in Hq. rewrite Forall_forall in Hq.
    unfold rt_ipc_list_suspend in Hu. destruct (ipc_flag ev =? RT_IPC_FLAG_FIFO).
    - apply elem_of_app in Hu as [Hu|Hu%list_elem_of_singleton]; subst; auto.
    - apply insert_by_priority_in in Hu as [->|Hu]; auto. }
  assert (quiescent (ev <| ev_set := Z.land (ev_set ev) (Z.lnot want) |>)) as Hclr.
  { eapply Forall_impl; [exact Hq|]. intros u. apply received_mono. cbn. auto with ints. }
  unfold received in Hsus. cbn [event_info event_set] in Hsus. rewrite (Z.land_comm want) in Hsus.
  destruct (flag option RT_EVENT_FLAG_AND);
    [|destruct (flag option RT_EVENT_FLAG_OR); [|done]];
    cbn [mbind res_bind]; (destruct (Z.land (ev_set ev) want =? _); cbn [negb];
    [ try (case_if; assumption) | try (case_if; assumption) ];
    try (case_if; [done|]; apply Hsus; reflexivity)).
Qed.

(** C38. Delivery of events.  [rt_event_send] leaves no thread suspended whose condition
    holds; every suspended thread is kept, in queue order, or resumed; and when all of
    them clear what they receive (as the modem driver's threads do), the flags set before
    and by the call are shared out: each is received by at most one resumed thread or
    stays set.  [rt_event_recv] keeps the first property: it suspends a thread only on
    flags that do not satisfy it. *)
Theorem event_delivery ev set :
  set ≠ 0 → Forall wants_clear (suspend_thread ev) →
  (let '(err, ev', woken) := rt_event_send ev set in
   err = RT_EOK ∧ quiescent ev' ∧
   suspend_thread ev' `sublist_of` suspend_thread ev ∧
   tid <$> suspend_thread ev ≡ₚ (tid <$> suspend_thread ev') ++ (tid <$> woken) ∧
   foldr (λ t a, Z.lor a (event_set t)) (ev_set ev') woken = Z.lor (ev_set ev) set ∧
   ForallOrdPairs (λ t u, disjoint_flags (event_set t) (event_set u)) woken ∧
   Forall (λ t, disjoint_flags (event_set t) (ev_set ev')) woken) ∧
  (quiescent ev → ∀ self prio want option timeout,
     match rt_event_recv ev self prio want option timeout with
     | Ret (Recved _ ev') | Ret (Suspended ev') => quiescent ev'
     | _ => True
     end).
Proof.
  intros Hset Hq. split.
  - unfold rt_event_send. decide_if (set =? 0) false.
    pose proof (resume_loop_quiescent (Z.lor (ev_set ev) set) (suspend_thread ev)) as H1.
    pose proof (resume_loop_shares (Z.lor (ev_set ev) set) _ Hq) as H2.
    pose proof (resume_loop_threads (Z.lor (ev_set ev) set) (suspend_thread ev)) as H3.
    destruct (resume_loop _ _) as [[s' k] w]. cbn in *. tauto.
  - intros Hqu self prio want option timeout. by apply recv_quiescent.
Qed.

Lemma event_delivery_witness :
  let t s := MkThread s 1 (Z.shiftl (s + 1) 16) 6 in
  let ev := MkEvent 0 [t 0; t 1; t 2] RT_IPC_FLAG_FIFO in
  Forall wants_clear (suspend_thread ev) ∧
  rt_event_send ev (Z.lor (Z.shiftl 3 16) 1) =
    (RT_EOK, MkEvent 1 [t 2] RT_IPC_FLAG_FIFO, [t 0; t 1]) ∧
  quiescent (rt_event_send ev (Z.lor (Z.shiftl 3 16) 1)).1.2.
Proof.
  assert (Forall wants_clear [MkThread 0 1 (Z.shiftl 1 16) 6; MkThread 1 1 (Z.shiftl 2 16) 6;
    MkThread 2 1 (Z.shiftl 3 16) 6]) as Hq by repeat constructor.
  assert (Z.lor (Z.shiftl 3 16) 1 ≠ 0) as Hn by (vm_compute; discriminate).
  cbn zeta. split; [exact Hq|]. split; [reflexivity|].
  destruct (event_delivery (MkEvent 0 _ RT_IPC_FLAG_FIFO) (Z.lor (Z.shiftl 3 16) 1)
    Hn Hq) as [H _].
  exact (proj1 (proj2 H)).
Defined.
