(* ===== verification/WaitQueue.v ===== *)
(** The wait queues of the device drivers (components/drivers/src/waitqueue.c).

    A queue has a flag and a list of nodes, each with the thread it stands for and the
    function that decides whether the node takes a wake-up.  Sections with interrupts
    disabled are single steps; [rt_wqueue_wait] is split where the calling thread suspends.
    A node is known by a number; removing one that is in no list does nothing. *)

From S2P Require Import Prelude Event.

(** The events of dfs_poll.h, the keys of the queues. *)
Definition POLLIN := 1.
Definition POLLOUT := 2.
Definition POLLERR := 4.
Definition POLLHUP := 8.
Definition POLLNVAL := 16.
Definition POLLMASK_DEFAULT := 3.

Definition RT_WQ_FLAG_CLEAN := 0.
Definition RT_WQ_FLAG_WAKEUP := 1.

(** [__wqueue_default_wake], and [__wqueue_pollwake] of poll.c. *)
Inductive wake_function : Type := WakeDefault | WakePoll.
#[global] Instance wake_function_eq_dec : EqDecision wake_function.
Proof. solve_decision. Defined.

Record rt_wqueue_node : Type := MkNode {
  node_id : Z;
  polling_thread : Z;
  node_key : Z;
  wakeup : wake_function }.

Record rt_wqueue : Type := MkWqueue { wq_flag : Z; waiting_list : list rt_wqueue_node }.
#[global] Instance rt_wqueue_eta : Eta rt_wqueue := λ q, MkWqueue (wq_flag q) (waiting_list q).

Definition rt_wqueue_init : rt_wqueue := MkWqueue RT_WQ_FLAG_CLEAN [].

Definition rt_wqueue_add (q : rt_wqueue) (n : rt_wqueue_node) : rt_wqueue :=
  q <| waiting_list := waiting_list q ++ [n] |>.
Definition rt_wqueue_remove (q : rt_wqueue) (id : Z) : rt_wqueue :=
  q <| waiting_list := List.filter (λ n, negb (node_id n =? id)) (waiting_list q) |>.

(** [entry->wakeup(entry, key) == 0] *)
Definition wakes (key : Z) (n : rt_wqueue_node) : bool :=
  match wakeup n with
  | WakeDefault => true
  | WakePoll => (key =? 0) || negb (Z.land key (node_key n) =? 0)
  end.

(** The loop of [rt_wqueue_wakeup]: the first node that wakes leaves the list. *)
Fixpoint wake_first (key : Z) (l : list rt_wqueue_node) :
    list rt_wqueue_node * option rt_wqueue_node :=
  match l with
  | [] => ([], None)
  | n :: l =>
      if wakes key n then (l, Some n)
      else let '(l, woken) := wake_first key l in (n :: l, woken)
  end.

(** The node whose thread is resumed, if there is one. *)
Definition rt_wqueue_wakeup (q : rt_wqueue) (key : Z) : rt_wqueue * option rt_wqueue_node :=
  let '(l, woken) := wake_first key (waiting_list q) in
  (MkWqueue RT_WQ_FLAG_WAKEUP l, woken).

(** [rt_wqueue_wait] up to where the thread suspends: it returns at once, finds the queue
    already woken, or waits.  The node is a local variable of the call. *)
Inductive wait_outcome : Type :=
  | WaitReturns
  | WaitFlagged (q : rt_wqueue)
  | WaitSuspends (q : rt_wqueue).

Definition rt_wqueue_wait (q : rt_wqueue) (id self : Z) (condition : bool) (msec : Z) :
    wait_outcome :=
  let tick := rt_tick_from_millisecond msec in
  if condition || (tick =? 0) then WaitReturns
  else if wq_flag q =? RT_WQ_FLAG_WAKEUP then WaitFlagged (q <| wq_flag := 0 |>)
  else WaitSuspends (rt_wqueue_add q (MkNode id self 0 WakeDefault)).

(** The section after the thread has been scheduled again. *)
Definition wait_clears (q : rt_wqueue) : rt_wqueue := q <| wq_flag := 0 |>.
