(* ===== verification/AtClient.v ===== *)
(** The AT client the modem driver calls (rt-thread/components/net/at/src/at_client.c,
    at_utils.c) and the world it runs in.

    The client is shared by the driver's callers and the parser thread that reads the
    serial line.  Code outside both (allocator, serial device, the parser thread while a
    caller waits, other threads) is the interface [Modem].  [written] records the texts
    written to the serial line, [heap] counts the live allocations of this code. *)

From S2P Require Import Prelude CLib Event.

(** * [sscanf] with the directives the driver uses *)

Inductive directive : Type :=
  | Lit (c : Z)
  | Blank
  | IntD
  | GetStr
  | SkipStr
  | SkipSet (stop : Z)
  | GetSet (stop : Z).

Inductive scanned : Type := SInt (z : Z) | SText (t : list Z).

Definition lits (s : cstr) : list directive := Lit <$> s.

(** The value and rest of a signed decimal number; [None] if there is none. *)
Definition scan_int (s : cstr) : option (Z * cstr) :=
  let q := skip_while isspace s in
  let '(neg, q) :=
    match q with
    | c :: q' => if c =? 45 then (true, q') else if c =? 43 then (false, q') else (false, q)
    | [] => (false, q)
    end in
  match take_while isdigit q with
  | [] => None
  | ds => Some ((if neg : bool then - dec ds else dec ds), skip_while isdigit q)
  end.

(** [n] conversions assigned so far, [conv]: some conversion done.  The result is the
    number assigned, or -1 (EOF) when the input ends before the first conversion; a
    number outside [int] is undefined. *)
Fixpoint scanf (fmt : list directive) (s : cstr) (n : Z) (conv : bool) : res (Z * list scanned) :=
  let input_failure := Ret (if conv then n else -1, []) in
  let matching_failure := Ret (n, []) in
  match fmt with
  | [] => Ret (n, [])
  | Blank :: fmt => scanf fmt (skip_while isspace s) n conv
  | Lit c :: fmt =>
      match s with
      | [] => input_failure
      | d :: s => if c =? d then scanf fmt s n conv else matching_failure
      end
  | IntD :: fmt =>
      match skip_while isspace s with
      | [] => input_failure
      | _ =>
          match scan_int s with
          | None => matching_failure
          | Some (z, s) =>
              if in_i32 z then
                '(r, vs) ← scanf fmt s (n + 1) true; Ret (r, SInt z :: vs)
              else Fault BadConversion
          end
      end
  | GetStr :: fmt =>
      match skip_while isspace s with
      | [] => input_failure
      | s =>
          '(r, vs) ← scanf fmt (skip_while (λ c, negb (isspace c)) s) (n + 1) true;
          Ret (r, SText (take_while (λ c, negb (isspace c)) s) :: vs)
      end
  | SkipStr :: fmt =>
      match skip_while isspace s with
      | [] => input_failure
      | s => scanf fmt (skip_while (λ c, negb (isspace c)) s) n true
      end
  | SkipSet stop :: fmt =>
      match s with
      | [] => input_failure
      | _ =>
          match take_while (λ c, negb (c =? stop)) s with
          | [] => matching_failure
          | _ => scanf fmt (skip_while (λ c, negb (c =? stop)) s) n true
          end
      end
  | GetSet stop :: fmt =>
      match s with
      | [] => input_failure
      | _ =>
          match take_while (λ c, negb (c =? stop)) s with
          | [] => matching_failure
          | t =>
              '(r, vs) ← scanf fmt (skip_while (λ c, negb (c =? stop)) s) (n + 1) true;
              Ret (r, SText t :: vs)
          end
      end
  end.
Definition sscanf (s : cstr) (fmt : list directive) : res (Z * list scanned) := scanf fmt s 0 false.

(** * The world *)

(** What the parser thread reports to a caller that waits for its response (no notice:
    the wait timed out), with the event flags other threads sent meanwhile. *)
Record answer : Type := MkAnswer {
  notice : bool;
  ans_status : Z;
  ans_lines : list cstr;
  meanwhile : list Z }.

Class Modem (W : Type) : Type := {
  rt_malloc : Z → W → bool * W;
  rt_device_write : cstr → W → Z * W;
  resp_notice : Z → W → answer * W;
  event_wait : Z → W → list Z * W;
  at_client_getchar : Z → W → option Z * W;
  rt_delay : Z → W → W }.

(** A call of an application's socket callback. *)
Record notified : Type := MkNotified {
  cb : Z;
  cb_socket : Z;
  cb_event : Z;
  cb_buff : option (list Z);
  cb_bfsz : Z }.

Record world (W : Type) : Type := MkWorld {
  cli : bool;
  lock : Z;
  end_sign : Z;
  resp_status : Z;
  self : Z;
  priority : Z;
  socket_event : rt_event;
  device_found : bool;
  at_evt_cb_set : list (option Z);
  heap : Z;
  written : list cstr;
  notices : list notified;
  modem : W }.
Arguments MkWorld {W}.
Arguments cli {W}. Arguments lock {W}. Arguments end_sign {W}. Arguments resp_status {W}.
Arguments self {W}. Arguments priority {W}. Arguments socket_event {W}.
Arguments device_found {W}. Arguments at_evt_cb_set {W}. Arguments heap {W}.
Arguments written {W}. Arguments notices {W}. Arguments modem {W}.
#[global] Instance world_eta {W} : Eta (world W) :=
  λ w, MkWorld (cli w) (lock w) (end_sign w) (resp_status w) (self w) (priority w)
    (socket_event w) (device_found w) (at_evt_cb_set w) (heap w) (written w) (notices w) (modem w).

(** [buf]: the response buffer is allocated; the lines the parser stored in it. *)
Record at_response : Type := MkResp {
  buf : bool;
  buf_size : Z;
  line_num : Z;
  timeout : Z;
  lines : list cstr }.
#[global] Instance at_response_eta : Eta at_response :=
  λ r, MkResp (buf r) (buf_size r) (line_num r) (timeout r) (lines r).

Definition AT_RESP_OK := 0.
Definition AT_RESP_TIMEOUT := -2.
Definition AT_CMD_MAX_LEN := 512.
Definition CRLF : cstr := [CR; LF].

Section client.
Context {W : Type} `{Modem W}.

Definition on_modem {A} (f : W → A * W) : io (world W) A := λ w,
  let '(a, m) := f (modem w) in Ret (a, w <| modem := m |>).

(** [rt_calloc(1, size)] and [rt_free]. *)
Definition rt_calloc (size : Z) : io (world W) bool :=
  ok ← on_modem (rt_malloc size);
  if ok : bool then modify (λ w, w <| heap := heap w + 1 |>) ;; mret true else mret false.
Definition rt_free : io (world W) unit := modify (λ w, w <| heap := heap w - 1 |>).

Definition uart_write (text : cstr) : io (world W) Z :=
  modify (λ w, w <| written := written w ++ [text] |>) ;; on_modem (rt_device_write text).

(** * Response objects *)

Definition at_create_resp (size num tmo : Z) : io (world W) (option at_response) :=
  ok ← rt_calloc 24;
  if ok : bool then
    ok ← rt_calloc size;
    if ok : bool then mret (Some (MkResp true size num tmo []))
    else rt_free ;; mret None
  else mret None.

Definition at_delete_resp (resp : at_response) : io (world W) unit :=
  (if buf resp then rt_free else mret tt) ;; rt_free.

(** [rt_realloc] keeps the count of live blocks, or raises it when there was none; when it
    fails the old block is lost.  The lines of the last answer are looked at before. *)
Definition at_resp_set_info (resp : at_response) (size num tmo : Z) : io (world W) at_response :=
  if negb (buf_size resp =? size) then
    ok ← (if buf resp then on_modem (rt_malloc size) else rt_calloc size);
    if ok : bool then mret (resp <| buf := true |> <| buf_size := size |>
                              <| line_num := num |> <| timeout := tmo |>)
    else mret (resp <| buf := false |> <| buf_size := size |>)
  else mret (resp <| line_num := num |> <| timeout := tmo |>).

Fixpoint line_by_kw (ls : list cstr) (keyword : cstr) : option cstr :=
  match ls with
  | [] => None
  | l :: ls => match strstr l keyword with Some _ => Some l | None => line_by_kw ls keyword end
  end.
Definition at_resp_get_line_by_kw (resp : at_response) (keyword : cstr) : option cstr :=
  line_by_kw (lines resp) keyword.

Definition at_resp_parse_line_args_by_kw (resp : at_response) (keyword : cstr)
    (expr : list directive) : res (Z * list scanned) :=
  match at_resp_get_line_by_kw resp keyword with
  | None => Ret (-1, [])
  | Some l => sscanf l expr
  end.

(** * Commands *)

(** [vsnprintf] cuts the text to [send_buf], whose bytes are then written by the length
    of the whole text. *)
Definition at_vprintfln (text : cstr) : io (world W) unit :=
  let n := Z.of_nat (length text) in
  if n <? AT_CMD_MAX_LEN then uart_write text ;; uart_write CRLF ;; mret tt
  else if n =? AT_CMD_MAX_LEN then
    uart_write (take 511 text ++ [NUL]) ;; uart_write CRLF ;; mret tt
  else io_fault OutOfBounds.

(** [rt_sem_take(client->resp_notice, timeout)]: other threads run. *)
Definition take_notice (tmo : Z) : io (world W) answer :=
  a ← on_modem (resp_notice tmo);
  modify (λ w, w <| socket_event := (sends (socket_event w) (meanwhile a)).1 |>) ;;
  mret a.

(** The part that holds the lock of the client. *)
Definition exec_locked (resp : option at_response) (cmd : cstr)
    : io (world W) (Z * option at_response) :=
  modify (λ w, w <| lock := lock w + 1 |> <| resp_status := AT_RESP_OK |>) ;;
  at_vprintfln cmd ;;
  r ← (match resp with
       | None => mret (RT_EOK, None)
       | Some rsp =>
           a ← take_notice (timeout rsp);
           let resp := Some (rsp <| lines := ans_lines a |>) in
           if notice a then
             modify (λ w, w <| resp_status := ans_status a |>) ;;
             if ans_status a =? AT_RESP_OK then mret (RT_EOK, resp)
             else mret (- RT_ERROR, resp)
           else
             modify (λ w, w <| resp_status := AT_RESP_TIMEOUT |>) ;;
             mret (- RT_ETIMEOUT, resp)
       end);
  modify (λ w, w <| lock := lock w - 1 |>) ;;
  mret r.

Definition at_obj_exec_cmd (resp : option at_response) (cmd : cstr)
    : io (world W) (Z * option at_response) :=
  c ← gets cli;
  if (c : bool) && bool_decide (is_Some resp) then mret (- RT_EBUSY, resp)
  else exec_locked resp cmd.

Definition at_client_obj_send (data : list Z) : io (world W) Z := uart_write data.

(** Up to [n] characters; the number is [n] or, after a timeout, 0. *)
Fixpoint recv_loop (n : nat) (tmo : Z) (got : list Z) : io (world W) (bool * list Z) :=
  match n with
  | O => mret (true, got)
  | S n =>
      c ← on_modem (at_client_getchar tmo);
      match c with
      | None => mret (false, got)
      | Some ch => recv_loop n tmo (got ++ [ch])
      end
  end.
Definition at_client_obj_recv (size tmo : Z) : io (world W) (Z * list Z) :=
  r ← recv_loop (Z.to_nat size) tmo [];
  mret (if r.1 : bool then size else 0, r.2).

Definition at_obj_set_end_sign (ch : Z) : io (world W) unit :=
  modify (λ w, w <| end_sign := ch |>).

Definition rt_mutex_take : io (world W) unit := modify (λ w, w <| lock := lock w + 1 |>).
Definition rt_mutex_release : io (world W) unit := modify (λ w, w <| lock := lock w - 1 |>).
Definition rt_thread_mdelay (ms : Z) : io (world W) unit :=
  modify (λ w, w <| modem := rt_delay ms (modem w) |>).

(** * Waiting for the socket event *)

(** [rt_event_recv] of the calling thread: the error code and the flags received. *)
Definition event_recv (set option tmo : Z) : io (world W) (Z * Z) :=
  ev ← gets socket_event; me ← gets self; prio ← gets priority;
  o ← lift (rt_event_recv ev me prio set option tmo);
  match o with
  | RecvFailed e => mret (e, 0)
  | Recved recved ev => modify (λ w, w <| socket_event := ev |>) ;; mret (RT_EOK, recved)
  | Suspended ev =>
      sets ← on_modem (event_wait tmo);
      let '(got, ev) := wait_end ev me sets in
      modify (λ w, w <| socket_event := ev |>) ;;
      match got with
      | Some recved => mret (RT_EOK, recved)
      | None => mret (- RT_ETIMEOUT, 0)
      end
  end.
End client.
