(* ===== verification/AtSocket.v ===== *)
(** The socket operations of the A9G modem: applications/at_socket_a9g.c.

    The operations of [a9g_socket_ops] run in the thread of the caller; the URC
    functions run in the parser thread when a line of [urc_table] arrives.  The two
    meet in the event of the device.  A socket is its [user_data], the number the modem
    knows it by; the device has [AT_DEVICE_A9G_SOCKETS_NUM] of them. *)

From S2P Require Import Prelude CLib Event AtClient.

Definition A9G_MODULE_SEND_MAX_SIZE := 1000.
Definition AT_DEVICE_A9G_SOCKETS_NUM := 8.
Definition RESOLVE_RETRY : nat := 5.

Definition A9G_EVENT_CONN_OK := 1.
Definition A9G_EVENT_SEND_OK := 2.
Definition A9G_EVENT_CLOSE_OK := 8.
Definition A9G_EVENT_CONN_FAIL := 16.
Definition A9G_EVENT_SEND_FAIL := 32.

Definition AT_SOCKET_TCP := 16.
Definition AT_SOCKET_UDP := 32.
Definition AT_SOCKET_EVT_RECV := 0.
Definition AT_SOCKET_EVT_CLOSED := 1.

(** [((socket + 1) << 16) | event]; the shift of an [int] has to stay in range. *)
Definition SET_EVENT (socket event : Z) : res Z :=
  if (0 <=? socket + 1) && (socket + 1 <? 32768)
  then Ret (Z.lor (Z.shiftl (socket + 1) 16) event) else Fault SignedOverflow.

Definition rt_assert {W} (b : bool) : io W unit :=
  if b then mret tt else io_fault AssertFailed.

Section socket.
Context {W : Type} `{Modem W}.

(** Threads a send resumes run on after it; the caller goes on either way. *)
Definition a9g_socket_event_send (event : Z) : io (world W) Z :=
  r ← gets (λ w, rt_event_send (socket_event w) event);
  modify (λ w, w <| socket_event := r.1.2 |>) ;;
  mret r.1.1.

Definition a9g_socket_event_recv (event tmo option : Z) : io (world W) Z :=
  r ← event_recv event (Z.lor option RT_EVENT_FLAG_CLEAR) tmo;
  if negb (r.1 =? RT_EOK) then mret (- RT_ETIMEOUT) else mret (i32 r.2).

(** * Close *)

Definition cmd_close (device_socket : Z) : cstr := bytes "AT+CIPCLOSE=" ++ print_d device_socket.

Definition a9g_socket_close (device_socket : Z) : io (world W) Z :=
  resp ← at_create_resp 64 0 600;
  match resp with
  | None => mret (- RT_ENOMEM)
  | Some resp =>
      r ← at_obj_exec_cmd (Some resp) (cmd_close device_socket);
      let result := if r.1 <? 0 then - RT_ERROR else RT_EOK in
      at_delete_resp resp ;;
      mret result
  end.

(** * Connect *)

Definition cmd_connect (proto ip : cstr) (port : Z) : cstr :=
  bytes "AT+CIPSTART=" ++ [34] ++ proto ++ [34; 44; 34] ++ ip ++ [34; 44] ++ print_d port.

(** The command of one attempt: -1 when it cannot be sent. *)
Definition connect_cmd (ip : cstr) (port type : Z) (is_client : bool) : io (world W) Z :=
  if is_client then
    if type =? AT_SOCKET_TCP then
      r ← at_obj_exec_cmd None (cmd_connect (bytes "TCP") ip port);
      mret (if r.1 <? 0 then - RT_ERROR else RT_EOK)
    else if type =? AT_SOCKET_UDP then
      r ← at_obj_exec_cmd None (cmd_connect (bytes "UDP") ip port);
      mret (if r.1 <? 0 then - RT_ERROR else RT_EOK)
    else mret (- RT_ERROR)
  else mret RT_EOK.

(** From [__retry] to the end of the attempt: [None] asks for another one. *)
Definition connect_attempt (device_socket : Z) (ip : cstr) (port type : Z)
    (is_client retryed : bool) : io (world W) (option Z) :=
  event ← lift (SET_EVENT device_socket (Z.lor A9G_EVENT_CONN_OK A9G_EVENT_CONN_FAIL));
  a9g_socket_event_recv event 0 RT_EVENT_FLAG_OR ;;
  r ← connect_cmd ip port type is_client;
  if r <? 0 then mret (Some (- RT_ERROR))
  else
    event ← lift (SET_EVENT device_socket 0);
    r ← a9g_socket_event_recv event (10 * RT_TICK_PER_SECOND) RT_EVENT_FLAG_OR;
    if r <? 0 then mret (Some (- RT_ETIMEOUT))
    else
      event_result ← a9g_socket_event_recv (Z.lor A9G_EVENT_CONN_OK A9G_EVENT_CONN_FAIL)
                       (1 * RT_TICK_PER_SECOND) RT_EVENT_FLAG_OR;
      if event_result <? 0 then mret (Some (- RT_ETIMEOUT))
      else if negb (Z.land event_result A9G_EVENT_CONN_FAIL =? 0) then
        if retryed then mret (Some (- RT_ERROR))
        else
          r ← a9g_socket_close device_socket;
          if r <? 0 then mret (Some (- RT_ERROR)) else mret None
      else mret (Some RT_EOK).

(** [retryed] makes two attempts the most. *)
Fixpoint connect_loop (fuel : nat) (device_socket : Z) (ip : cstr) (port type : Z)
    (is_client retryed : bool) : io (world W) Z :=
  match fuel with
  | O => io_fault Blocked
  | S fuel =>
      r ← connect_attempt device_socket ip port type is_client retryed;
      match r with
      | Some result => mret result
      | None => connect_loop fuel device_socket ip port type is_client true
      end
  end.

Definition a9g_socket_connect (device_socket : Z) (ip : option cstr) (port type : Z)
    (is_client : bool) : io (world W) Z :=
  match ip with
  | None => io_fault AssertFailed
  | Some ip =>
      rt_assert (0 <=? port) ;;
      resp ← at_create_resp 128 0 (5 * RT_TICK_PER_SECOND);
      match resp with
      | None => mret (- RT_ENOMEM)
      | Some resp =>
          result ← connect_loop 2 device_socket ip port type is_client false;
          at_delete_resp resp ;;
          mret result
      end
  end.

(** * Send *)

Definition cmd_send (device_socket size : Z) : cstr :=
  bytes "AT+CIPSEND=" ++ print_d device_socket ++ [44] ++ print_d size.

(** The loop from [sent_size] on; the second component is the response object. *)
Fixpoint send_loop (fuel : nat) (device_socket : Z) (buff : list Z) (sent_size result : Z)
    (resp : at_response) : io (world W) (Z * at_response) :=
  let bfsz := Z.of_nat (length buff) in
  match fuel with
  | O => io_fault Blocked
  | S fuel =>
      if sent_size <? bfsz then
        let cur_pkt_size :=
          if bfsz - sent_size <? A9G_MODULE_SEND_MAX_SIZE then bfsz - sent_size
          else A9G_MODULE_SEND_MAX_SIZE in
        r ← at_obj_exec_cmd (Some resp) (cmd_send device_socket cur_pkt_size);
        if r.1 <? 0 then mret (- RT_ERROR, resp)
        else
          n ← at_client_obj_send (take (Z.to_nat cur_pkt_size) (drop (Z.to_nat sent_size) buff));
          let result := i32 n in
          if result =? 0 then mret (- RT_ERROR, resp)
          else
            resp ← at_resp_set_info resp 128 0 (30 * RT_TICK_PER_SECOND);
            r ← at_obj_exec_cmd (Some resp) [];
            if r.1 <? 0 then mret (- RT_ERROR, resp)
            else
              resp ← at_resp_set_info resp 128 2 (5 * RT_TICK_PER_SECOND);
              send_loop fuel device_socket buff (sent_size + cur_pkt_size) result resp
      else mret (result, resp)
  end.

(** Each round sends at least one byte. *)
Definition a9g_socket_send (device_socket : Z) (buff : list Z) (type : Z) : io (world W) Z :=
  resp ← at_create_resp 128 2 (5 * RT_TICK_PER_SECOND);
  match resp with
  | None => mret (- RT_ENOMEM)
  | Some resp =>
      rt_mutex_take ;;
      at_obj_set_end_sign 62 ;;
      r ← send_loop (S (length buff)) device_socket buff 0 RT_EOK resp;
      at_obj_set_end_sign 0 ;;
      rt_mutex_release ;;
      at_delete_resp r.2 ;;
      mret r.1
  end.

(** * Domain names *)

Definition cmd_resolve (name : cstr) : cstr := bytes "AT+CDNSGIP=" ++ [34] ++ name ++ [34].
Definition fmt_err_code : list directive := lits (bytes "+CDNSGIP:") ++ [Blank; Lit 48; Lit 44; IntD].
Definition fmt_ip : list directive := [SkipSet 44; Lit 44; SkipSet 44; Lit 44; Lit 34; GetSet 34].

(** [recv_ip] after the scan: 16 bytes with the terminator. *)
Definition store_ip (recv_ip : cstr) (vs : list scanned) : res cstr :=
  match vs with
  | [SText t] => if (length t <? 16)%nat then Ret t else Fault OutOfBounds
  | _ => Ret recv_ip
  end.

(** [strncpy(ip, recv_ip, 15); ip[15] = 0], which pads with zeros. *)
Definition copy_ip (recv_ip : cstr) : list Z :=
  take 15 recv_ip ++ replicate (15 - length (take 15 recv_ip)) 0 ++ [0].

Fixpoint resolve_loop (n : nat) (name : cstr) (recv_ip : cstr) (ip : list Z) (resp : at_response)
    : io (world W) (Z * list Z) :=
  match n with
  | O => mret (RT_EOK, ip)
  | S n =>
      r ← at_obj_exec_cmd (Some resp) (cmd_resolve name);
      match r with
      | (result, Some resp) =>
          if result <? 0 then mret (- RT_ERROR, ip)
          else
            e ← lift (at_resp_parse_line_args_by_kw resp (bytes "+CDNSGIP:") fmt_err_code);
            if (0 <? e.1) && match e.2 with [SInt c] => (c =? 3) || (c =? 8) | _ => false end
            then mret (- RT_ERROR, ip)
            else
              p ← lift (at_resp_parse_line_args_by_kw resp (bytes "+CDNSGIP:") fmt_ip);
              recv_ip ← lift (store_ip recv_ip p.2);
              if p.1 <? 0 then rt_thread_mdelay 100 ;; resolve_loop n name recv_ip ip resp
              else if (length recv_ip <? 8)%nat then
                rt_thread_mdelay 100 ;; resolve_loop n name recv_ip ip resp
              else rt_thread_mdelay 10 ;; mret (RT_EOK, copy_ip recv_ip)
      | (_, None) => io_fault NullDeref
      end
  end.

(** The result and the caller's [ip] array. *)
Definition a9g_domain_resolve (name : cstr) (ip : list Z) : io (world W) (Z * list Z) :=
  found ← gets device_found;
  if negb found then mret (- RT_ERROR, ip)
  else
    resp ← at_create_resp 1024 3 (14 * RT_TICK_PER_SECOND);
    match resp with
    | None => mret (- RT_ENOMEM, ip)
    | Some resp =>
        r ← resolve_loop RESOLVE_RETRY name [] ip resp;
        at_delete_resp resp ;;
        mret r
    end.

(** * Unsolicited lines *)

Definition a9g_socket_set_event_cb (event : Z) (cb : option Z) : io (world W) unit :=
  if (0 <=? event) && (event <? 2) then
    modify (λ w, w <| at_evt_cb_set := <[Z.to_nat event := cb]> (at_evt_cb_set w) |>)
  else mret tt.

(** [&device->sockets[device_socket]]. *)
Definition socket_at (device_socket : Z) : res Z :=
  if (0 <=? device_socket) && (device_socket <? AT_DEVICE_A9G_SOCKETS_NUM)
  then Ret device_socket else Fault OutOfBounds.

(** The call of a callback if one is set. *)
Definition notify (socket event : Z) (buff : option (list Z)) (bfsz : Z) : io (world W) unit :=
  cbs ← gets at_evt_cb_set;
  match cbs !! Z.to_nat event with
  | Some (Some f) =>
      modify (λ w, w <| notices := notices w ++ [MkNotified f socket event buff bfsz] |>)
  | _ => mret tt
  end.

(** [sscanf(data, "%d,%*s", &device_socket)] with [device_socket = 0] before. *)
Definition urc_socket (data : cstr) : res Z :=
  r ← sscanf data [IntD; Lit 44; SkipStr];
  Ret (match r.2 with [SInt s] => s | _ => 0 end).

Definition contains (data pat : cstr) : bool := bool_decide (is_Some (strstr data pat)).

Definition send_event (device_socket event : Z) : io (world W) unit :=
  e ← lift (SET_EVENT device_socket event);
  a9g_socket_event_send e ;; mret tt.

Definition urc_connect_func (data : cstr) : io (world W) unit :=
  rt_assert (0 <? Z.of_nat (length data)) ;;
  found ← gets device_found;
  if negb found then mret tt
  else
    device_socket ← lift (urc_socket data);
    if contains data (bytes "CONNECT OK") then send_event device_socket A9G_EVENT_CONN_OK
    else if contains data (bytes "CONNECT FAIL") then send_event device_socket A9G_EVENT_CONN_FAIL
    else mret tt.

Definition urc_send_func (data : cstr) : io (world W) unit :=
  rt_assert (0 <? Z.of_nat (length data)) ;;
  found ← gets device_found;
  if negb found then mret tt
  else
    device_socket ← lift (urc_socket data);
    if contains data (bytes "SEND OK") then send_event device_socket A9G_EVENT_SEND_OK
    else if contains data (bytes "SEND FAIL") then send_event device_socket A9G_EVENT_SEND_FAIL
    else mret tt.

Definition urc_close_func (data : cstr) : io (world W) unit :=
  rt_assert (0 <? Z.of_nat (length data)) ;;
  found ← gets device_found;
  if negb found then mret tt
  else
    device_socket ← lift (urc_socket data);
    if contains data (bytes "CLOSE OK") then send_event device_socket A9G_EVENT_CLOSE_OK
    else if contains data (bytes "CLOSED") then
      socket ← lift (socket_at device_socket);
      notify socket AT_SOCKET_EVT_CLOSED None 0
    else mret tt.

(** * Received data *)

Definition fmt_rcv : list directive := lits (bytes "+CIPRCV,") ++ [IntD; Lit 44; IntD; Lit 58].

(** The part of the line after the first colon; a null pointer if there is none. *)
Definition after_colon (data : cstr) : res cstr :=
  match strstr data [58] with Some (_ :: p) => Ret p | _ => Fault NullDeref end.

(** [size - (strstr(data, ":") + 1 - data) - 2], in [rt_size_t]. *)
Definition held_size (p : cstr) : Z := u32 (Z.of_nat (length p) - 2).

(** The loop that reads and drops the data, eight bytes at a time. *)
Fixpoint drain (fuel : nat) (temp_size bfsz tmo : Z) : io (world W) unit :=
  match fuel with
  | O => io_fault Blocked
  | S fuel =>
      if temp_size <? bfsz then
        (if 8 <? bfsz - temp_size then at_client_obj_recv 8 tmo
         else at_client_obj_recv (bfsz - temp_size) tmo) ;;
        drain fuel (u32 (temp_size + 8)) bfsz tmo
      else mret tt
  end.
Definition drain_fuel (temp_size bfsz : Z) : nat := S (Z.to_nat ((bfsz - temp_size + 7) / 8)).

(** [memcpy] and the receive into the [bfsz] bytes of [recv_buf]. *)
Definition urc_recv_func (data : cstr) : io (world W) unit :=
  rt_assert (0 <? Z.of_nat (length data)) ;;
  r ← lift (sscanf data fmt_rcv);
  let '(device_socket, bfsz) :=
    match r.2 with
    | [SInt s; SInt n] => (s, u32 n)
    | [SInt s] => (s, 0)
    | _ => (0, 0)
    end in
  let tmo := i32 bfsz in
  if (device_socket <? 0) || (bfsz =? 0) then mret tt
  else
    found ← gets device_found;
    if negb found then mret tt
    else
      ok ← rt_calloc bfsz;
      p ← lift (after_colon data);
      let temp_size := held_size p in
      if negb ok then drain (drain_fuel temp_size bfsz) temp_size bfsz tmo
      else
        if (bfsz <? temp_size) || (Z.of_nat (length p) + 1 <? temp_size) then io_fault OutOfBounds
        else
          let recv_buf := take (Z.to_nat temp_size) (p ++ [NUL]) in
          n ← at_client_obj_recv (bfsz - temp_size) tmo;
          if negb (n.1 =? bfsz - temp_size) then rt_free
          else
            socket ← lift (socket_at device_socket);
            notify socket AT_SOCKET_EVT_RECV (Some (recv_buf ++ n.2)) bfsz.

(** * The table *)

Definition urc_table : list (cstr * cstr * option (cstr → io (world W) unit)) :=
  [ ([], bytes "CONNECT OK" ++ CRLF, Some urc_connect_func);
    ([], bytes ",CONNECT FAIL" ++ CRLF, Some urc_connect_func);
    ([], bytes ",SEND FAIL" ++ CRLF, Some urc_send_func);
    (bytes "CLOSED:", CRLF, Some urc_close_func);
    (bytes "+CIPRCV,", CRLF, Some urc_recv_func) ].
End socket.
