(* ===== verification/AtSocketSpec.v ===== *)
(** Correctness of the socket operations of the modem driver: what each sends to the
    modem, what it returns, and that it gives back the client's lock, end sign and
    memory on every path. *)

From S2P Require Import Prelude CLib Event AtClient AtSocket.

(** * Rules for the client's operations *)

(** Everything of the world that is neither the event, the response status, the text
    written nor the environment itself. *)
Definition settings {W} (w : world W) :=
  (cli w, lock w, end_sign w, self w, priority w, device_found w, at_evt_cb_set w, notices w).

(** [run ws dh w w']: from [w] to [w'] exactly the texts [ws] are written and [dh] more
    blocks are live; the settings stay. *)
Definition run {W} (ws : list cstr) (dh : Z) (w w' : world W) : Prop :=
  settings w' = settings w ∧ written w' = written w ++ ws ∧ heap w' = heap w + dh.

Lemma run_refl {W} (w : world W) : run [] 0 w w.
Proof. split_and!; [done|by rewrite app_nil_r|lia]. Qed.

Lemma run_trans {W} ws ws' dh dh' (w1 w2 w3 : world W) :
  run ws dh w1 w2 → run ws' dh' w2 w3 → run (ws ++ ws') (dh + dh') w1 w3.
Proof.
  intros (H1 & H2 & H3) (H1' & H2' & H3'). split_and!.
  - congruence.
  - by rewrite H2', H2, app_assoc.
  - lia.
Qed.

(** What a command writes. *)
Definition command (cmd : cstr) : list cstr := [cmd; CRLF].

Section rules.
Context {W : Type} `{Modem W}.

(** From every world, [m] returns a value after writes and allocations that satisfy [Q]
    together, the settings kept, or stops with a fault that satisfies [P]. *)
Definition runs {A} (P : fault → Prop) (m : io (world W) A)
    (Q : A → list cstr → Z → Prop) : Prop :=
  ∀ w, match m w with
       | Ret (a, w') => ∃ ws dh, run ws dh w w' ∧ Q a ws dh
       | Fault f => P f
       end.

Lemma runs_bind {A B} P (m : io (world W) A) (k : A → io (world W) B) Q Q' :
  runs P m Q → (∀ a ws dh, Q a ws dh →
    runs P (k a) (λ b ws' dh', Q' b (ws ++ ws') (dh + dh'))) →
  runs P (mbind k m) Q'.
Proof.
  intros Hm Hk w. specialize (Hm w). unfold mbind, io_bind.
  destruct (m w) as [[a w1]|f]; [|done]. destruct Hm as (ws & dh & Hr & HQ).
  specialize (Hk a ws dh HQ w1). destruct (k a w1) as [[b w2]|f]; [|done].
  destruct Hk as (ws' & dh' & Hr' & HQ'). exists (ws ++ ws'), (dh + dh').
  split; [by eapply run_trans|done].
Qed.

Lemma runs_mono {A} P (m : io (world W) A) (Q Q' : A → list cstr → Z → Prop) :
  runs P m Q → (∀ a ws dh, Q a ws dh → Q' a ws dh) → runs P m Q'.
Proof.
  intros Hm HQ w. specialize (Hm w). destruct (m w) as [[a w']|f]; [|done].
  destruct Hm as (ws & dh & ? & ?). eauto.
Qed.

Lemma runs_ret {A} P (a : A) (Q : A → list cstr → Z → Prop) : Q a [] 0 → runs P (mret a) Q.
Proof. intros HQ w. exists [], 0. eauto using run_refl. Qed.

Lemma runs_gets {A} P (f : world W → A) : runs P (gets f) (λ _ ws dh, ws = [] ∧ dh = 0).
Proof. intros w. exists [], 0. eauto using run_refl. Qed.

Lemma runs_lift {A} (P : fault → Prop) (r : res A) :
  may_fault P (λ _, True) r → runs P (lift r) (λ a ws dh, r = Ret a ∧ ws = [] ∧ dh = 0).
Proof. intros Hr w. unfold lift. destruct r; [|done]. exists [], 0. eauto using run_refl. Qed.

Lemma runs_modify P (f : world W → world W) :
  (∀ w, run [] 0 w (f w)) → runs P (modify f) (λ _ ws dh, ws = [] ∧ dh = 0).
Proof. intros Hf w. exists [], 0. auto. Qed.

Lemma runs_on_modem {A} P (f : W → A * W) :
  runs P (on_modem f) (λ _ ws dh, ws = [] ∧ dh = 0).
Proof.
  intros w. unfold on_modem. destruct (f (modem w)) as [a m]. exists [], 0.
  split; [|done]. split_and!; cbn; [done|by rewrite app_nil_r|lia].
Qed.

(** A serial device that takes everything it is given. *)
Definition full_writes : Prop := ∀ t m, (rt_device_write t m).1 = Z.of_nat (length t).

Lemma runs_write P text :
  runs P (uart_write text) (λ n ws dh, ws = [text] ∧ dh = 0 ∧
    (full_writes → n = Z.of_nat (length text))).
Proof.
  intros w. unfold uart_write, mbind, io_bind, modify, on_modem. cbn [modem].
  set (m0 := modem _). destruct (rt_device_write text m0) as [n m] eqn:E. exists [text], 0.
  split; [|split_and!; [done..|]].
  - split_and!; cbn; [done|done|lia].
  - intros Hf. specialize (Hf text m0). by rewrite E in Hf.
Qed.

Lemma runs_calloc P size :
  runs P (rt_calloc size) (λ ok ws dh, ws = [] ∧ dh = if ok : bool then 1 else 0).
Proof.
  unfold rt_calloc. eapply runs_bind; [apply runs_on_modem|]. intros ok ? ? [-> ->].
  destruct ok; [|by apply runs_ret]. intros w. exists [], 1. split; [|done].
  split_and!; cbn; [done|by rewrite app_nil_r|lia].
Qed.

Lemma runs_free P : runs P rt_free (λ _ ws dh, ws = [] ∧ dh = -1).
Proof.
  intros w. exists [], (-1). split; [|done].
  split_and!; cbn; [done|by rewrite app_nil_r|lia].
Qed.

Lemma runs_create P size num tmo :
  runs P (at_create_resp size num tmo) (λ r ws dh, ws = [] ∧
    match r with Some r => r = MkResp true size num tmo [] ∧ dh = 2 | None => dh = 0 end).
Proof.
  unfold at_create_resp. eapply runs_bind; [apply runs_calloc|]. intros [] ? ? [-> ->];
    [|by apply runs_ret].
  eapply runs_bind; [apply runs_calloc|]. intros [] ? ? [-> ->]; [by apply runs_ret|].
  eapply runs_bind; [apply runs_free|]. intros _ ? ? [-> ->]. by apply runs_ret.
Qed.

Lemma runs_delete P resp :
  buf resp = true → runs P (at_delete_resp resp) (λ _ ws dh, ws = [] ∧ dh = -2).
Proof.
  intros Hb. unfold at_delete_resp. rewrite Hb. eapply runs_bind; [apply runs_free|].
  intros _ ? ? [-> ->]. eapply runs_mono; [apply runs_free|]. intros _ ? ? [-> ->]. done.
Qed.

Lemma runs_set_info P resp num tmo :
  runs P (at_resp_set_info resp (buf_size resp) num tmo) (λ r ws dh, ws = [] ∧ dh = 0 ∧
    buf r = buf resp ∧ buf_size r = buf_size resp).
Proof.
  unfold at_resp_set_info. rewrite Z.eqb_refl. by apply runs_ret.
Qed.

Lemma runs_vprintfln P text :
  (length text < 512)%nat → runs P (at_vprintfln text) (λ _ ws dh, ws = command text ∧ dh = 0).
Proof.
  intros Ht. unfold at_vprintfln, AT_CMD_MAX_LEN. decide_if (Z.of_nat (length text) <? 512) true.
  eapply runs_bind; [apply runs_write|]. intros _ ? ? (-> & -> & _).
  eapply runs_bind; [apply runs_write|]. intros _ ? ? (-> & -> & _). by apply runs_ret.
Qed.

Lemma runs_notice P tmo : runs P (take_notice tmo) (λ _ ws dh, ws = [] ∧ dh = 0).
Proof.
  unfold take_notice. eapply runs_bind; [apply runs_on_modem|]. intros a ? ? [-> ->].
  eapply runs_bind; [apply runs_modify|].
  { intros w. split_and!; cbn; [done|by rewrite app_nil_r|lia]. }
  intros _ ? ? [-> ->]. by apply runs_ret.
Qed.

(** The part of [at_obj_exec_cmd] that holds the lock. *)
Lemma runs_status P z : runs P (modify (λ w, w <| resp_status := z |>)) (λ _ ws dh, ws = [] ∧ dh = 0).
Proof. apply runs_modify. intros w. split_and!; cbn; [done|by rewrite app_nil_r|lia]. Qed.

Lemma runs_locked {A} P (p : io (world W) unit) (m : io (world W) A) Q :
  runs P (p ;; m) Q →
  runs P (modify (λ w, w <| lock := lock w + 1 |> <| resp_status := AT_RESP_OK |>) ;;
          p ;; r ← m; modify (λ w, w <| lock := lock w - 1 |>) ;; mret r) Q.
Proof.
  intros Hm w. specialize (Hm (w <| lock := lock w + 1 |> <| resp_status := AT_RESP_OK |>)).
  unfold mbind, io_bind, modify, mret, io_ret in *.
  destruct (p _) as [[[] w1]|f]; [|done].
  destruct (m _) as [[a w']|f]; [|done]. destruct Hm as (ws & dh & (H1 & H2 & H3) & HQ).
  exists ws, dh. split; [|done]. unfold settings in *. cbn in *. simplify_eq.
  split_and!; cbn; [|done|done]. unfold settings. cbn.
  assert (lock w' - 1 = lock w) by lia. congruence.
Qed.

(** A response object keeps its buffer. *)
Definition same_buffer (r r' : option at_response) : Prop :=
  (λ r, (buf r, buf_size r)) <$> r = (λ r, (buf r, buf_size r)) <$> r'.

Lemma runs_exec_locked P resp cmd :
  (length cmd < 512)%nat →
  runs P (exec_locked resp cmd) (λ r ws dh, dh = 0 ∧ same_buffer resp r.2 ∧
    ws = command cmd ∧ (r.1 = RT_EOK ∨ is_Some resp ∧ r.1 < 0)).
Proof.
  intros Hc. unfold exec_locked. apply runs_locked. eapply runs_bind; [by apply runs_vprintfln|].
  intros _ ? ? [-> ->]. destruct resp as [rsp|].
  - eapply runs_bind; [apply runs_notice|]. intros a ? ? [-> ->].
    destruct (notice a); (eapply runs_bind; [apply runs_status|]); intros _ ? ? [-> ->];
      [case_if|]; apply runs_ret; rewrite app_nil_r; cbn; (split_and!; [done..|]);
      [by left|right..]; (split; [by eexists|]);
      unfold RT_ERROR, RT_ETIMEOUT; lia.
  - apply runs_ret. rewrite app_nil_r. cbn. split_and!; [done|done|auto..].
Qed.

(** A command either runs (its text written and its status returned) or is refused
    because the client is in CLI mode. *)
Lemma runs_exec P resp cmd :
  (length cmd < 512)%nat →
  runs P (at_obj_exec_cmd resp cmd) (λ r ws dh, dh = 0 ∧ same_buffer resp r.2 ∧
    (r.1 = - RT_EBUSY ∧ ws = [] ∧ is_Some resp ∨
     ws = command cmd ∧ (r.1 = RT_EOK ∨ is_Some resp ∧ r.1 < 0))).
Proof.
  intros Hc. unfold at_obj_exec_cmd. eapply runs_bind; [apply runs_gets|].
  intros c ? ? [-> ->]. destruct (c && _) eqn:E.
  - apply runs_ret. split_and!; [done|done|]. left. split_and!; [done..|].
    apply andb_true_iff in E as [_ E]. by apply bool_decide_eq_true in E.
  - eapply runs_mono; [by apply runs_exec_locked|]. cbn. intros r ws dh (-> & ? & -> & ?). auto.
Qed.

Lemma runs_recv P n tmo : ∀ got, runs P (recv_loop n tmo got) (λ _ ws dh, ws = [] ∧ dh = 0).
Proof.
  induction n as [|n IH]; intros got; cbn [recv_loop]; [by apply runs_ret|].
  eapply runs_bind; [apply runs_on_modem|]. intros [ch|] ? ? [-> ->]; [|by apply runs_ret].
  apply IH.
Qed.

Lemma runs_delay P ms : runs P (rt_thread_mdelay ms) (λ _ ws dh, ws = [] ∧ dh = 0).
Proof. apply runs_modify. intros w. split_and!; cbn; [done|by rewrite app_nil_r|lia]. Qed.

(** Waiting on an event changes nothing but the event. *)
Lemma runs_event_recv P set tmo :
  set ≠ 0 → runs P (a9g_socket_event_recv set tmo RT_EVENT_FLAG_OR) (λ _ ws dh, ws = [] ∧ dh = 0).
Proof.
  intros Hs w. unfold a9g_socket_event_recv, event_recv, mbind, io_bind, gets, lift, rt_event_recv.
  decide_if (set =? 0) false. cbn [mbind res_bind flag].
  change (flag (Z.lor RT_EVENT_FLAG_OR RT_EVENT_FLAG_CLEAR) RT_EVENT_FLAG_AND) with false.
  change (flag (Z.lor RT_EVENT_FLAG_OR RT_EVENT_FLAG_CLEAR) RT_EVENT_FLAG_OR) with true.
  cbn [mbind res_bind]. case_if.
  - cbn. exists [], 0. split; [|done]. split_and!; cbn; [done|by rewrite app_nil_r|lia].
  - destruct (tmo =? 0); cbn; [exists [], 0; eauto using run_refl|].
    unfold on_modem. destruct (event_wait tmo _) as [sets m].
    destruct (wait_end _ _ sets) as [[got|] ev]; cbn; exists [], 0; (split; [|done]);
      split_and!; cbn; try done; try (by rewrite app_nil_r); lia.
Qed.
End rules.

(** * Sending *)

(** The data cut into packets of 1000 bytes and a last one of at most 1000. *)
Fixpoint cut (fuel : nat) (l : list Z) : list (list Z) :=
  match fuel, l with
  | S fuel, _ :: _ => take 1000 l :: cut fuel (drop 1000 l)
  | _, _ => []
  end.
Definition packets (l : list Z) : list (list Z) := cut (length l) l.

(** What is written for one packet: the command, the data and an empty command. *)
Definition transaction (s : Z) (p : list Z) : list cstr :=
  command (cmd_send s (Z.of_nat (length p))) ++ [p] ++ command [].

Lemma cut_fuel n m l : (length l <= n)%nat → (length l <= m)%nat → cut n l = cut m l.
Proof.
  revert m l. induction n as [|n IH]; intros m [|a l] Hn Hm; destruct m as [|m]; cbn in *; try done; try lia.
  f_equal. apply IH; rewrite length_skipn; lia.
Qed.

Lemma packets_nil : packets [] = [].
Proof. done. Qed.

Lemma packets_cons l : l ≠ [] → packets l = take 1000 l :: packets (drop 1000 l).
Proof.
  destruct l as [|a l]; [done|]. intros _. unfold packets. cbn [length cut]. f_equal.
  apply cut_fuel; rewrite length_skipn; cbn [length]; lia.
Qed.

Lemma packets_spec l :
  concat (packets l) = l ∧ Forall (λ p, (0 < length p <= 1000)%nat) (packets l).
Proof.
  remember (length l) as n eqn:Hn. revert l Hn.
  induction (lt_wf n) as [n _ IH]. intros l ->. destruct (decide (l = [])) as [->|Hl]; [done|].
  rewrite packets_cons by done. assert (0 < length l)%nat by (destruct l; cbn; [done|lia]).
  destruct (IH (length (drop 1000 l))) with (l := drop 1000 l) as [Hc Hf];
    [rewrite length_skipn; lia|done|].
  split; [cbn; by rewrite Hc, firstn_skipn|]. constructor; [|done]. rewrite length_firstn. lia.
Qed.

Lemma cmd_send_length s n :
  INT32_MIN <= s <= INT32_MAX → 0 <= n <= 1000 → (length (cmd_send s n) < 512)%nat.
Proof.
  intros Hs Hn. unfold cmd_send. rewrite !length_app.
  destruct (print_d_spec s Hs) as (? & _ & _ & _ & _ & H1).
  destruct (print_d_spec n) as (? & _ & _ & _ & _ & H2); [unfold INT32_MIN, INT32_MAX; lia|].
  cbn [length]. change (length (bytes "AT+CIPSEND=")) with 11%nat. lia.
Qed.

Section send.
Context {W : Type} `{Modem W}.

(** The value of a completed send of [l] after a packet that returned [result]. *)
Definition last_size (result : Z) (l : list Z) : Z :=
  if decide (l = []) then result else (Z.of_nat (length l) - 1) mod 1000 + 1.

Definition sends_packets (s : Z) (l : list Z) (result : Z)
    (r : Z * at_response) (ws : list cstr) (dh : Z) : Prop :=
  dh = 0 ∧ buf r.2 = true ∧
  (r.1 = - RT_ERROR ∧ ws `prefix_of` concat (transaction s <$> packets l) ∨
   ws = concat (transaction s <$> packets l) ∧
   (full_writes → r.1 = last_size result l)).

(** The packet that begins at [k]. *)
Lemma packet_at k (buff : list Z) : let n := Nat.min 1000 (length buff - k) in
  take n (drop k buff) = take 1000 (drop k buff) ∧ length (take 1000 (drop k buff)) = n ∧
  drop (k + n) buff = drop 1000 (drop k buff).
Proof.
  intros n. split_and!; [|by rewrite length_firstn, length_skipn|].
  - unfold n. destruct (decide (length buff - k <= 1000)%nat).
    + rewrite !firstn_all2; [done|rewrite length_skipn; lia..].
    + f_equal. lia.
  - rewrite drop_drop. unfold n. destruct (decide (length buff - k <= 1000)%nat).
    + rewrite !drop_ge by lia. done.
    + f_equal. lia.
Qed.

Lemma last_size_step result (l : list Z) : l ≠ [] →
  last_size (i32 (Z.of_nat (length (take 1000 l)))) (drop 1000 l) = last_size result l.
Proof.
  intros Hl. unfold last_size. rewrite (decide_False (P := l = [])) by done. rewrite length_firstn.
  destruct (decide (length l <= 1000)%nat) as [Hle|Hgt].
  - rewrite decide_True by (by apply drop_ge). rewrite i32_small by (unfold INT32_MIN, INT32_MAX; lia).
    destruct l; [done|]. cbn [length] in *. rewrite Z.mod_small; lia.
  - rewrite decide_False by (intros E; apply (f_equal length) in E; rewrite length_skipn in E; cbn in E; lia).
    rewrite (length_skipn 1000), Nat2Z.inj_sub by lia. change (Z.of_nat 1000) with 1000.
    replace (Z.of_nat (length l) - 1000 - 1) with (Z.of_nat (length l) - 1 + (-1) * 1000) by lia.
    by rewrite Z.mod_add.
Qed.

Lemma send_loop_spec P s buff fuel : ∀ k result resp,
  INT32_MIN <= s <= INT32_MAX → buf resp = true → buf_size resp = 128 →
  (length buff - k < fuel)%nat → (k <= length buff)%nat →
  runs P (send_loop fuel s buff (Z.of_nat k) result resp)
    (sends_packets s (drop k buff) result).
Proof.
  induction fuel as [|fuel IH]; intros k result resp Hs Hb H128 Hf Hk; [lia|].
  cbn [send_loop]. case_if; cycle 1.
  { apply runs_ret. rewrite drop_ge by lia. split_and!; [done|done|]. right. done. }
  assert (drop k buff ≠ []) as Hne.
  { intros E0. apply (f_equal length) in E0. rewrite length_skipn in E0. cbn in E0. lia. }
  set (n := Nat.min 1000 (length buff - k)).
  assert ((if Z.of_nat (length buff) - Z.of_nat k <? A9G_MODULE_SEND_MAX_SIZE
    then Z.of_nat (length buff) - Z.of_nat k else A9G_MODULE_SEND_MAX_SIZE) = Z.of_nat n) as ->.
  { unfold A9G_MODULE_SEND_MAX_SIZE. case_if; lia. }
  unfold sends_packets. rewrite packets_cons by done. rewrite fmap_cons.
  rewrite !Nat2Z.id. destruct (packet_at k buff) as (Htk & Hln & Hd). fold n in Htk, Hln, Hd.
  cbn [concat]. unfold transaction at 1. rewrite Hln.
  eapply runs_bind; [apply runs_exec, cmd_send_length; [done|lia]|].
  intros [r1 resp1] ws dh (-> & Hsame & Hr). cbn [fst snd] in *. case_if.
  { apply runs_ret. split_and!; [done|done|]. left. split; [done|]. rewrite app_nil_r.
    destruct Hr as [(_ & -> & _)|[-> _]]; [apply prefix_nil|].
    rewrite <- !app_assoc. by apply prefix_app_r. }
  destruct Hr as [(-> & _ & _)|[-> _]]; [by unfold RT_EBUSY in *|].
  eapply runs_bind; [apply runs_write|]. intros m ? ? (-> & -> & Hm). rewrite Htk.
  case_if.
  { apply runs_ret. split_and!; [done|done|]. left. split; [done|]. rewrite app_nil_r, <- !app_assoc.
    apply prefix_app. by apply prefix_app_r. }
  pose proof (runs_set_info P resp 0 (30 * RT_TICK_PER_SECOND)) as Hset. rewrite H128 in Hset.
  eapply runs_bind; [exact Hset|]. clear Hset. intros resp2 ? ? (-> & -> & Hb2 & Hs2).
  eapply runs_bind; [apply runs_exec; cbn; lia|].
  intros [r2 resp3] ws dh (-> & _ & Hr). cbn [fst snd] in *. case_if.
  { apply runs_ret. split_and!; [done|cbn; congruence|]. left. split; [done|].
    rewrite app_nil_r, <- !app_assoc.
    destruct Hr as [(_ & -> & _)|[-> _]].
    - apply prefix_app. by apply prefix_app_r.
    - do 2 apply prefix_app. by apply prefix_app_r. }
  destruct Hr as [(-> & _ & _)|[-> _]]; [by unfold RT_EBUSY in *|].
  pose proof (runs_set_info P resp2 2 (5 * RT_TICK_PER_SECOND)) as Hset. rewrite Hs2 in Hset.
  eapply runs_bind; [exact Hset|]. clear Hset. intros resp4 ? ? (-> & -> & Hb4 & Hs4).
  replace (Z.of_nat k + Z.of_nat n) with (Z.of_nat (k + n)) by lia.
  eapply runs_mono; [apply IH; [done|congruence|congruence|lia|lia]|].
  intros [r4 resp5] ws dh (-> & Hb5 & Hr). cbn [fst snd] in *.
  rewrite Hd in Hr. split_and!; [done|done|].
  rewrite app_nil_l, <- !app_assoc. destruct Hr as [[-> Hp]|[-> Hlast]]; [left|right].
  - split; [done|]. do 3 apply prefix_app. by rewrite app_nil_l.
  - split; [unfold transaction at 2; by rewrite Hln, <- !app_assoc|]. intros Hf'. rewrite (Hlast Hf'). specialize (Hm Hf').
    rewrite Hm, Htk. by apply last_size_step.
Qed.
End send.

Lemma socket_sends {W} `{Modem W} s buff type (w : world W) :
  INT32_MIN <= s <= INT32_MAX →
  ∃ r w' ws, a9g_socket_send s buff type w = Ret (r, w') ∧
    lock w' = lock w ∧ heap w' = heap w ∧ written w' = written w ++ ws ∧
    (r = - RT_ENOMEM ∧ ws = [] ∧ end_sign w' = end_sign w ∨
     r = - RT_ERROR ∧ ws `prefix_of` concat (transaction s <$> packets buff) ∧ end_sign w' = 0 ∨
     ws = concat (transaction s <$> packets buff) ∧ end_sign w' = 0 ∧
     (full_writes → r = last_size 0 buff)) ∧
    device_found w' = device_found w.
Proof.
  intros Hs. unfold a9g_socket_send, mbind, io_bind.
  pose proof (runs_create (λ _, False) 128 2 (5 * RT_TICK_PER_SECOND) w) as Hc.
  destruct (at_create_resp _ _ _ w) as [[[resp|] w1]|f]; [| |done].
  - destruct Hc as (? & ? & (Hk & Hw & Hh) & -> & -> & ->).
    cbn [rt_mutex_take at_obj_set_end_sign modify].
    set (w2 := w1 <| lock := lock w1 + 1 |> <| end_sign := 62 |>).
    pose proof (send_loop_spec (λ _, False) s buff (S (length buff)) 0 RT_EOK
      (MkResp true 128 2 (5 * RT_TICK_PER_SECOND) []) Hs eq_refl eq_refl ltac:(lia) ltac:(lia) w2) as Hl.
    destruct (send_loop _ _ _ _ _ _ w2) as [[[r resp] w3]|f]; [|done].
    destruct Hl as (ws & ? & (Hk3 & Hw3 & Hh3) & -> & Hb & Hr). cbn [fst snd] in *.
    cbn [rt_mutex_release at_obj_set_end_sign modify fst snd].
    match goal with |- context [at_delete_resp resp ?v] => set (w4 := v) end.
    pose proof (runs_delete (λ _, False) resp Hb w4) as Hd.
    destruct (at_delete_resp resp w4) as [[[] w5]|f]; [|done].
    destruct Hd as (? & ? & (Hk5 & Hw5 & Hh5) & -> & ->).
    unfold settings in *. subst w2 w4. cbn in *. simplify_eq.
    exists r, w5, ws. rewrite drop_0 in Hr. rewrite app_nil_r in *.
    split_and!; [done|lia|lia|congruence| |congruence].
    right. destruct Hr as [[-> Hp]|[-> Hlast]]; [left|right]; split_and!; auto; congruence.
  - destruct Hc as (? & ? & (Hk & Hw & Hh) & -> & ->). exists (- RT_ENOMEM), w1, [].
    unfold settings in Hk. simplify_eq. split_and!; try done; try lia.
    left. split_and!; congruence.
Qed.

(** C14. Sending.  [a9g_socket_send] always returns, with the client's lock released, its
    end sign reset (it was ['>'] while sending) and its memory freed.  It sends the data
    in order in packets of at most 1000 bytes, each as a command, the data and the wait
    for the answer; an error ends it after a beginning of that and gives -1.  After a
    complete send the value is the size of the last packet, not of the data sent. *)
Theorem a9g_socket_send_packets {W} `{Modem W} s buff type (w : world W) :
  INT32_MIN <= s <= INT32_MAX →
  ∃ r w' ws, a9g_socket_send s buff type w = Ret (r, w') ∧
    lock w' = lock w ∧ heap w' = heap w ∧ written w' = written w ++ ws ∧
    (r = - RT_ENOMEM ∧ ws = [] ∧ end_sign w' = end_sign w ∨
     r = - RT_ERROR ∧ ws `prefix_of` concat (transaction s <$> packets buff) ∧ end_sign w' = 0 ∨
     ws = concat (transaction s <$> packets buff) ∧ end_sign w' = 0 ∧
     (full_writes → r = last_size 0 buff)) ∧
    concat (packets buff) = buff ∧ Forall (λ p, (0 < length p <= 1000)%nat) (packets buff).
Proof.
  intros Hs. destruct (socket_sends s buff type w Hs) as (r & w' & ws & ? & ? & ? & ? & ? & _).
  exists r, w', ws. split_and!; [done..|apply packets_spec|apply packets_spec].
Qed.

(** * A scripted modem, for concrete runs *)

Record script : Type := MkScript {
  sc_memory : bool;
  sc_waits : list (list Z);
  sc_answers : list answer;
  sc_input : list Z }.

#[export] Instance script_modem : Modem script := {
  rt_malloc _ m := (sc_memory m, m);
  rt_device_write t m := (Z.of_nat (length t), m);
  resp_notice _ m :=
    (hd (MkAnswer true AT_RESP_OK [] []) (sc_answers m),
     MkScript (sc_memory m) (sc_waits m) (tl (sc_answers m)) (sc_input m));
  event_wait _ m :=
    (hd [] (sc_waits m), MkScript (sc_memory m) (tl (sc_waits m)) (sc_answers m) (sc_input m));
  at_client_getchar _ m :=
    (hd_error (sc_input m), MkScript (sc_memory m) (sc_waits m) (sc_answers m) (tl (sc_input m)));
  rt_delay _ m := m }.

Definition world_of (flags : Z) (cbs : list (option Z)) (m : script) : world script :=
  MkWorld false 0 0 0 1 20 (MkEvent flags [] RT_IPC_FLAG_FIFO) true cbs 0 [] [] m.

Lemma a9g_socket_send_packets_witness :
  let w := world_of 0 [None; None] (MkScript true [] [] []) in
  full_writes (W := script) ∧ (INT32_MIN <= 0 <= INT32_MAX) ∧
  ∃ r w' ws, a9g_socket_send 0 (replicate 1500 65) AT_SOCKET_TCP w = Ret (r, w') ∧
    lock w' = 0 ∧ heap w' = 0 ∧ written w' = [] ++ ws.
Proof.
  cbn zeta. split; [done|]. assert (INT32_MIN <= 0 <= INT32_MAX) as H0 by (split; discriminate).
  split; [exact H0|].
  destruct (a9g_socket_send_packets 0 (replicate 1500 65) AT_SOCKET_TCP
    (world_of 0 [None; None] (MkScript true [] [] [])) H0) as (r & w' & ws & H1 & H2 & H3 & H4 & _).
  exists r, w', ws. exact (conj H1 (conj H2 (conj H3 H4))).
Defined.

(** The same run, evaluated: 1500 bytes are sent and the value is 500. *)
Example send_1500 :
  match a9g_socket_send 0 (replicate 1500 65) AT_SOCKET_TCP
          (world_of 0 [None; None] (MkScript true [] [] [])) with
  | Ret (r, w') => r = 500 ∧ length (written w') = 10%nat
  | Fault _ => False
  end.
Proof. vm_compute. done. Qed.

(** * Connecting *)

(** What one attempt to connect writes. *)
Definition attempt_text (ip : cstr) (port type : Z) (is_client : bool) : list cstr :=
  if is_client then
    if type =? AT_SOCKET_TCP then command (cmd_connect (bytes "TCP") ip port)
    else if type =? AT_SOCKET_UDP then command (cmd_connect (bytes "UDP") ip port)
    else []
  else [].

Lemma SET_EVENT_ok s e :
  0 <= s < AT_DEVICE_A9G_SOCKETS_NUM → SET_EVENT s e = Ret (Z.lor (Z.shiftl (s + 1) 16) e).
Proof.
  unfold AT_DEVICE_A9G_SOCKETS_NUM, SET_EVENT. intros Hs.
  decide_if (0 <=? s + 1) true. by decide_if (s + 1 <? 32768) true.
Qed.

Lemma event_nonzero s e :
  0 <= s < AT_DEVICE_A9G_SOCKETS_NUM → Z.lor (Z.shiftl (s + 1) 16) e ≠ 0.
Proof.
  unfold AT_DEVICE_A9G_SOCKETS_NUM. intros Hs E. apply Z.lor_eq_0_iff in E as [E _].
  rewrite Z.shiftl_mul_pow2 in E by lia. lia.
Qed.

Section connect.
Context {W : Type} `{Modem W}.
Variables (s : Z) (ip : cstr) (port type : Z) (is_client : bool).
Hypothesis Hs : 0 <= s < AT_DEVICE_A9G_SOCKETS_NUM.
Hypothesis Hip : (length ip <= 400)%nat.
Hypothesis Hport : 0 <= port <= INT32_MAX.

Lemma cmd_connect_length p : (length p = 3)%nat → (length (cmd_connect p ip port) < 512)%nat.
Proof using Hip Hport.
  clear -Hip Hport. intros Hp. unfold cmd_connect. rewrite !length_app, Hp.
  destruct (print_d_spec port) as (? & _ & _ & _ & _ & H1); [unfold INT32_MIN in *; lia|].
  cbn [length]. change (length (bytes "AT+CIPSTART=")) with 12%nat. lia.
Qed.

Lemma cmd_close_length : (length (cmd_close s) < 512)%nat.
Proof using Hs.
  clear -Hs. unfold cmd_close. rewrite length_app. unfold AT_DEVICE_A9G_SOCKETS_NUM in *.
  destruct (print_d_spec s) as (? & _ & _ & _ & _ & H1); [unfold INT32_MIN, INT32_MAX; lia|].
  change (length (bytes "AT+CIPCLOSE=")) with 12%nat. lia.
Qed.

Lemma runs_close P :
  runs P (a9g_socket_close s) (λ r ws dh, dh = 0 ∧
    (r = RT_EOK ∧ ws = command (cmd_close s) ∨
     r < 0 ∧ (ws = [] ∨ ws = command (cmd_close s)))).
Proof using Hs.
  clear -Hs. unfold a9g_socket_close. eapply runs_bind; [apply runs_create|].
  intros [resp|] ? ? [-> Hd]; [destruct Hd as [-> ->]|subst];
    [|apply runs_ret; split; [done|]; right; split; [done|by left]].
  eapply runs_bind; [apply runs_exec, cmd_close_length|].
  intros [r resp] ws dh (-> & _ & Hr). cbn [fst snd] in *.
  eapply runs_bind; [by apply runs_delete|]. intros _ ? ? [-> ->].
  apply runs_ret. rewrite !app_nil_r. cbn [app]. split; [done|]. case_if.
  - right. split; [done|]. destruct Hr as [(_ & -> & _)|[-> _]]; auto.
  - left. destruct Hr as [(-> & _ & _)|[-> _]]; [by unfold RT_EBUSY in *|done].
Qed.

Lemma runs_connect_cmd P :
  runs P (connect_cmd ip port type is_client) (λ r ws dh, dh = 0 ∧
    ws = attempt_text ip port type is_client ∧ (r = RT_EOK ∨ r = - RT_ERROR)).
Proof using Hip Hport.
  unfold connect_cmd, attempt_text. destruct is_client; [|apply runs_ret; auto].
  case_if; [|case_if; [|apply runs_ret; auto]];
    (eapply runs_bind; [apply runs_exec, cmd_connect_length; done|]);
    intros [r resp] ws dh (-> & _ & [(_ & _ & Hr)|[-> Hr]]); cbn [fst snd] in *;
    try (by destruct Hr); apply runs_ret; rewrite app_nil_r;
    (destruct Hr as [->|[Hr _]]; [auto|by destruct Hr]).
Qed.

(** The outcome of an attempt. *)
Definition attempted (retryed : bool) (r : option Z) (ws : list cstr) (dh : Z) : Prop :=
  let A := attempt_text ip port type is_client in
  let C := command (cmd_close s) in
  dh = 0 ∧
  match r with
  | None => retryed = false ∧ ws = A ++ C
  | Some r =>
      (r = RT_EOK ∨ r = - RT_ETIMEOUT) ∧ ws = A ∨
      r = - RT_ERROR ∧ (ws = A ∨ retryed = false ∧ ws = A ++ C)
  end.

Lemma runs_attempt P retryed :
  runs P (connect_attempt s ip port type is_client retryed) (attempted retryed).
Proof using Hs Hip Hport.
  unfold connect_attempt, attempted. rewrite !SET_EVENT_ok by done.
  eapply runs_bind; [by apply runs_lift|]. intros e ? ? ([= <-] & -> & ->).
  eapply runs_bind; [by apply runs_event_recv, event_nonzero|]. intros _ ? ? [-> ->].
  eapply runs_bind; [apply runs_connect_cmd|]. intros r ? ? (-> & -> & _). case_if.
  { apply runs_ret. rewrite !app_nil_r. cbn [app]. auto. }
  eapply runs_bind; [by apply runs_lift|]. intros e' ? ? ([= <-] & -> & ->).
  eapply runs_bind; [by apply runs_event_recv, event_nonzero|]. intros r2 ? ? [-> ->]. case_if.
  { apply runs_ret. rewrite !app_nil_r. cbn [app]. auto. }
  eapply runs_bind; [by apply runs_event_recv|]. intros r3 ? ? [-> ->]. case_if.
  { apply runs_ret. rewrite !app_nil_r. cbn [app]. auto. }
  case_if; [|apply runs_ret; rewrite !app_nil_r; cbn [app]; auto].
  destruct retryed; [apply runs_ret; rewrite !app_nil_r; cbn [app]; auto|].
  eapply runs_bind; [apply runs_close|]. intros r4 ws dh (-> & Hr).
  case_if; apply runs_ret; cbn [app]; rewrite !app_nil_r; split; [done| |done|].
  - right. split; [done|]. destruct Hr as [[-> _]|[_ [-> | ->]]]; [done| |auto].
    left. by rewrite app_nil_r.
  - destruct Hr as [[_ ->]|[? _]]; [done|lia].
Qed.
End connect.

Lemma runs_connect {W} `{Modem W} s ip port type is_client :
  0 <= s < AT_DEVICE_A9G_SOCKETS_NUM → (length ip <= 400)%nat → 0 <= port <= INT32_MAX →
  let A := attempt_text ip port type is_client in
  let C := command (cmd_close s) in
  runs (W := W) (λ _, False) (a9g_socket_connect s (Some ip) port type is_client)
    (λ r ws dh, dh = 0 ∧
      (r = - RT_ENOMEM ∧ ws = [] ∨
       (r = RT_EOK ∨ r = - RT_ETIMEOUT) ∧ (ws = A ∨ ws = A ++ C ++ A) ∨
       r = - RT_ERROR ∧ (ws = A ∨ ws = A ++ C ∨ ws = A ++ C ++ A))).
Proof.
  intros Hs Hip Hport A C.
  unfold a9g_socket_connect, rt_assert. decide_if (0 <=? port) true.
  eapply runs_bind; [by apply (runs_ret _ _ (λ _ ws dh, ws = [] ∧ dh = 0))|].
  intros _ ? ? [-> ->]. eapply runs_bind; [apply runs_create|].
  intros [resp|] ? ? [-> Hd]; [destruct Hd as [-> ->]|subst; apply runs_ret; cbn; auto].
  eapply runs_bind.
  { cbn [connect_loop]. eapply runs_bind; [by apply runs_attempt|].
    intros r ws dh (-> & Hr). instantiate (1 := λ r ws dh, dh = 0 ∧
      ((r = RT_EOK ∨ r = - RT_ETIMEOUT) ∧ (ws = A ∨ ws = A ++ C ++ A) ∨
       r = - RT_ERROR ∧ (ws = A ∨ ws = A ++ C ∨ ws = A ++ C ++ A))).
    destruct r as [r|].
    - apply runs_ret. rewrite app_nil_r. split; [done|]. destruct Hr as [[? ->]|[-> [->|[_ ->]]]]; auto 6.
    - destruct Hr as [_ ->]. eapply runs_bind; [by apply runs_attempt|].
      intros [r|] ws dh (-> & Hr); [|by destruct Hr].
      apply runs_ret. rewrite app_nil_r, <- app_assoc. split; [done|].
      destruct Hr as [[? ->]|[-> [->|[? _]]]]; [auto|auto 6|done]. }
  cbn beta. intros r ws dh (-> & Hr). eapply runs_bind; [by apply runs_delete|].
  intros _ ? ? [-> ->]. apply runs_ret. cbn [app]. rewrite !app_nil_r. split; [done|auto].
Qed.

(** Connecting.  For a socket of the device and an address and port that fit a
    command, [a9g_socket_connect] always returns, with the memory and the client's
    settings as before.  It makes one attempt, or two with a close between them, never
    more; 0 and the timeout are the outcome of a complete attempt, -1 that of a rejected
    one, and without memory nothing is sent. *)
Theorem a9g_socket_connect_attempts {W} `{Modem W} s ip port type is_client (w : world W) :
  0 <= s < AT_DEVICE_A9G_SOCKETS_NUM → (length ip <= 400)%nat → 0 <= port <= INT32_MAX →
  let A := attempt_text ip port type is_client in
  let C := command (cmd_close s) in
  ∃ r w' ws, a9g_socket_connect s (Some ip) port type is_client w = Ret (r, w') ∧
    settings w' = settings w ∧ heap w' = heap w ∧ written w' = written w ++ ws ∧
    (r = - RT_ENOMEM ∧ ws = [] ∨
     (r = RT_EOK ∨ r = - RT_ETIMEOUT) ∧ (ws = A ∨ ws = A ++ C ++ A) ∨
     r = - RT_ERROR ∧ (ws = A ∨ ws = A ++ C ∨ ws = A ++ C ++ A)).
Proof.
  intros Hs Hip Hport A C.
  pose proof (runs_connect s ip port type is_client Hs Hip Hport w) as Hrun. fold A C in Hrun.
  destruct (a9g_socket_connect _ _ _ _ _ w) as [[r w']|f]; [|done].
  destruct Hrun as (ws & dh & (H1 & H2 & H3) & -> & Hr). exists r, w', ws.
  split_and!; try done. lia.
Qed.

Lemma a9g_socket_connect_attempts_witness :
  let w := world_of 0 [None; None]
    (MkScript true [[Z.lor (Z.shiftl 1 16) 16]; [Z.lor (Z.shiftl 1 16) 1]] [] []) in
  (0 <= 0 < AT_DEVICE_A9G_SOCKETS_NUM) ∧ (length (bytes "10.0.0.1") <= 400)%nat ∧
  (0 <= 80 <= INT32_MAX) ∧
  ∃ r w' ws, a9g_socket_connect 0 (Some (bytes "10.0.0.1")) 80 AT_SOCKET_TCP true w = Ret (r, w') ∧
    settings w' = settings w ∧ heap w' = heap w ∧ written w' = written w ++ ws.
Proof.
  intros w. assert (0 <= 0 < AT_DEVICE_A9G_SOCKETS_NUM) as H1 by (split; [discriminate|reflexivity]).
  assert (length (bytes "10.0.0.1") <= 400)%nat as H2 by (vm_compute; lia).
  assert (0 <= 80 <= INT32_MAX) as H3 by (split; discriminate).
  destruct (a9g_socket_connect_attempts 0 (bytes "10.0.0.1") 80 AT_SOCKET_TCP true w H1 H2 H3)
    as (r & w' & ws & E1 & E2 & E3 & E4 & _).
  exact (conj H1 (conj H2 (conj H3 (ex_intro _ r (ex_intro _ w' (ex_intro _ ws
    (conj E1 (conj E2 (conj E3 E4))))))))).
Defined.

(** The same run, evaluated: refused once, closed, connected the second time. *)
Example connect_retried :
  let w := world_of 0 [None; None]
    (MkScript true [[Z.lor (Z.shiftl 1 16) 16]; [Z.lor (Z.shiftl 1 16) 1]] [] []) in
  match a9g_socket_connect 0 (Some (bytes "10.0.0.1")) 80 AT_SOCKET_TCP true w with
  | Ret (r, w') => r = RT_EOK ∧ length (written w') = 6%nat ∧ ev_set (socket_event w') = 0
  | Fault _ => False
  end.
Proof. vm_compute. done. Qed.
