(* ===== verification/AtEventSpec.v ===== *)
(** Correctness of the modem driver where its threads meet: the event that tells a
    connecting thread the outcome, the URC functions that send it, and the hand-over of
    received data to the application. *)

From S2P Require Import Prelude CLib Event AtClient AtSocket AtSocketSpec.

(** * Receiving an event *)

Section events.
Context {W : Type} `{Modem W}.

(** The three ways of [a9g_socket_event_recv] with OR and CLEAR: flags are set, they are
    not and the caller does not wait, or it waits alone and one send arrives. *)
Lemma event_recv_now set tmo (w : world W) :
  set ≠ 0 → Z.land (ev_set (socket_event w)) set ≠ 0 →
  a9g_socket_event_recv set tmo RT_EVENT_FLAG_OR w =
    Ret (i32 (Z.land (ev_set (socket_event w)) set),
      w <| socket_event := (socket_event w) <| ev_set := Z.land (ev_set (socket_event w)) (Z.lnot set) |> |>).
Proof.
  intros Hs Hl. unfold a9g_socket_event_recv, event_recv, mbind, io_bind, gets, lift, rt_event_recv.
  decide_if (set =? 0) false.
  change (flag (Z.lor RT_EVENT_FLAG_OR RT_EVENT_FLAG_CLEAR) RT_EVENT_FLAG_AND) with false.
  change (flag (Z.lor RT_EVENT_FLAG_OR RT_EVENT_FLAG_CLEAR) RT_EVENT_FLAG_OR) with true.
  change (flag (Z.lor RT_EVENT_FLAG_OR RT_EVENT_FLAG_CLEAR) RT_EVENT_FLAG_CLEAR) with true.
  cbn [mbind res_bind]. apply Z.eqb_neq in Hl. rewrite Hl. done.
Qed.

Lemma event_recv_poll set (w : world W) :
  set ≠ 0 → Z.land (ev_set (socket_event w)) set = 0 →
  a9g_socket_event_recv set 0 RT_EVENT_FLAG_OR w = Ret (- RT_ETIMEOUT, w).
Proof.
  intros Hs Hl. unfold a9g_socket_event_recv, event_recv, mbind, io_bind, gets, lift, rt_event_recv.
  decide_if (set =? 0) false.
  change (flag (Z.lor RT_EVENT_FLAG_OR RT_EVENT_FLAG_CLEAR) RT_EVENT_FLAG_AND) with false.
  change (flag (Z.lor RT_EVENT_FLAG_OR RT_EVENT_FLAG_CLEAR) RT_EVENT_FLAG_OR) with true.
  cbn [mbind res_bind]. by rewrite Hl.
Qed.

Lemma event_recv_wait set tmo e (w : world W) :
  set ≠ 0 → tmo ≠ 0 → e ≠ 0 → Z.land (ev_set (socket_event w)) set = 0 →
  suspend_thread (socket_event w) = [] → (event_wait tmo (modem w)).1 = [e] →
  let f := Z.lor (ev_set (socket_event w)) e in
  let got := Z.land set f in
  ∃ w', a9g_socket_event_recv set tmo RT_EVENT_FLAG_OR w =
      Ret (if got =? 0 then - RT_ETIMEOUT else i32 got, w') ∧
    socket_event w' = MkEvent (if got =? 0 then f else Z.land f (Z.lnot got)) []
      (ipc_flag (socket_event w)).
Proof.
  intros Hs Ht He Hl Hq Hw f got.
  unfold a9g_socket_event_recv, event_recv, mbind, io_bind, gets, lift, rt_event_recv.
  decide_if (set =? 0) false.
  change (flag (Z.lor RT_EVENT_FLAG_OR RT_EVENT_FLAG_CLEAR) RT_EVENT_FLAG_AND) with false.
  change (flag (Z.lor RT_EVENT_FLAG_OR RT_EVENT_FLAG_CLEAR) RT_EVENT_FLAG_OR) with true.
  cbn [mbind res_bind]. rewrite Hl. cbn [Z.eqb negb]. decide_if (tmo =? 0) false.
  unfold on_modem. destruct (event_wait tmo (modem w)) as [sets m]. cbn in Hw. subst sets.
  assert (rt_ipc_list_suspend (suspend_thread (socket_event w))
    (MkThread (self w) (priority w) set (Z.lor RT_EVENT_FLAG_OR RT_EVENT_FLAG_CLEAR))
    (ipc_flag (socket_event w)) =
    [MkThread (self w) (priority w) set (Z.lor RT_EVENT_FLAG_OR RT_EVENT_FLAG_CLEAR)]) as Hsus.
  { rewrite Hq. unfold rt_ipc_list_suspend. by case_if. }
  rewrite Hsus. unfold wait_end. cbn [sends]. unfold rt_event_send. decide_if (e =? 0) false.
  cbn [ev_set suspend_thread ipc_flag field_update]. fold f.
  cbn [resume_loop received event_info event_set].
  unfold received. cbn [event_info event_set tid current_priority].
  change (flag (Z.lor RT_EVENT_FLAG_OR RT_EVENT_FLAG_CLEAR) RT_EVENT_FLAG_AND) with false.
  change (flag (Z.lor RT_EVENT_FLAG_OR RT_EVENT_FLAG_CLEAR) RT_EVENT_FLAG_OR) with true.
  fold got. destruct (got =? 0).
  - cbn. eexists. split; [reflexivity|]. unfold rt_thread_timeout. cbn. by rewrite Z.eqb_refl.
  - cbn. rewrite Z.eqb_refl. eexists. split; [reflexivity|]. done.
Qed.
End events.

(** * The flags of two sockets *)

Lemma testbit_17 i : 0 <= i → Z.testbit 17 i = (i =? 0) || (i =? 4).
Proof.
  intros Hi. destruct (Z.le_gt_cases 5 i) as [Hi5|Hi5].
  - rewrite Z.bits_above_log2 by (cbn; lia). symmetry. apply orb_false_iff.
    rewrite !Z.eqb_neq. lia.
  - assert (i = 0 ∨ i = 1 ∨ i = 2 ∨ i = 3 ∨ i = 4) as Hc by lia.
    by destruct Hc as [->|[->|[->|[->| ->]]]].
Qed.

Lemma testbit_1 i : 0 <= i → Z.testbit 1 i = (i =? 0).
Proof.
  intros Hi. destruct (Z.eqb_spec i 0) as [->|Hn]; [done|].
  apply Z.bits_above_log2; cbn; lia.
Qed.

Lemma testbit_high a i : i < 16 → Z.testbit (Z.shiftl a 16) i = false.
Proof. intros Hi. by apply Z.shiftl_spec_low. Qed.

(** Flags [u] without those of socket [a] and without the outcome flags. *)
Definition cleared (u a : Z) : Prop := Z.land u (Z.lor (Z.shiftl a 16) 17) = 0.

Lemma cleared_clear u a :
  cleared (Z.land u (Z.lnot (Z.lor (Z.shiftl a 16) 17))) a.
Proof. unfold cleared. rewrite Z.land_comm. apply land_clear. Qed.

Lemma cleared_bit u a i :
  cleared u a → 0 <= i →
  Z.testbit u i = true → Z.testbit (Z.shiftl a 16) i = false ∧ Z.testbit 17 i = false.
Proof.
  unfold cleared. intros Hc Hi Hu.
  assert (Z.testbit (Z.land u (Z.lor (Z.shiftl a 16) 17)) i = false) as E
    by (rewrite Hc; apply Z.bits_0).
  rewrite Z.land_spec, Z.lor_spec, Hu in E. cbn in E. by apply orb_false_iff in E.
Qed.

(** What the thread of socket number [a] sees of the success of number [b]. *)
Lemma seen_flags u a b :
  cleared u a →
  Z.land (Z.shiftl a 16) (Z.lor u (Z.lor (Z.shiftl b 16) 1)) = Z.shiftl (Z.land a b) 16.
Proof.
  intros Hc. rewrite Z.shiftl_land. apply Z.bits_inj'. intros i Hi.
  rewrite !Z.land_spec, !Z.lor_spec. pose proof (cleared_bit u a i Hc Hi) as Hb.
  destruct (Z.testbit (Z.shiftl a 16) i) eqn:Ea; [|done].
  assert (Z.testbit u i = false) as ->.
  { destruct (Z.testbit u i); [|done]. by destruct (Hb eq_refl). }
  rewrite testbit_1 by done. destruct (Z.eqb_spec i 0) as [->|_].
  - by rewrite testbit_high in Ea.
  - by rewrite orb_false_r.
Qed.

Lemma left_outcome u a b c :
  cleared u a →
  Z.land (Z.land (Z.lor u (Z.lor (Z.shiftl b 16) 1)) (Z.lnot (Z.shiftl c 16))) 17 = 1.
Proof.
  intros Hc. apply Z.bits_inj'. intros i Hi.
  rewrite !Z.land_spec, !Z.lor_spec, Z.lnot_spec, testbit_17, testbit_1 by done.
  pose proof (cleared_bit u a i Hc Hi) as Hb. rewrite testbit_17 in Hb by done.
  destruct (Z.eqb_spec i 0) as [->|H0].
  { rewrite !testbit_high by lia. by rewrite !orb_true_r. }
  destruct (Z.eqb_spec i 4) as [->|H4]; [|by rewrite !andb_false_r].
  rewrite !testbit_high by lia. destruct (Z.testbit u 4); [|done].
  destruct (Hb eq_refl) as [_ E]. done.
Qed.

Section wake.
Context {W : Type} `{Modem W}.

(** A command without a response object leaves the event alone. *)
Lemma exec_none cmd (w : world W) :
  (length cmd < 512)%nat →
  ∃ w', at_obj_exec_cmd None cmd w = Ret ((RT_EOK, None), w') ∧ socket_event w' = socket_event w.
Proof.
  intros Hc. unfold at_obj_exec_cmd, exec_locked, at_vprintfln, uart_write, on_modem, AT_CMD_MAX_LEN.
  unfold mbind, io_bind, gets, modify. rewrite andb_false_r. unfold mbind, io_bind, modify.
  decide_if (Z.of_nat (length cmd) <? 512) true. cbn [modem].
  destruct (rt_device_write cmd _) as [n m]. destruct (rt_device_write CRLF _) as [n' m'].
  eexists. split; [reflexivity|done].
Qed.

Lemma connect_cmd_quiet ip port type (w : world W) :
  (length ip <= 400)%nat → 0 <= port <= INT32_MAX → type = AT_SOCKET_TCP ∨ type = AT_SOCKET_UDP →
  ∃ w', connect_cmd ip port type true w = Ret (RT_EOK, w') ∧ socket_event w' = socket_event w.
Proof.
  intros Hip Hport Ht. unfold connect_cmd, mbind, io_bind.
  destruct Ht as [-> | ->]; cbn [Z.eqb AT_SOCKET_TCP AT_SOCKET_UDP Pos.eqb].
  - destruct (exec_none (cmd_connect (bytes "TCP") ip port) w) as (w' & -> & E);
      [by apply cmd_connect_length|]. by exists w'.
  - destruct (exec_none (cmd_connect (bytes "UDP") ip port) w) as (w' & -> & E);
      [by apply cmd_connect_length|]. by exists w'.
Qed.

Lemma create_quiet size num tmo (w : world W) :
  (∀ n m, (rt_malloc n m).1 = true) →
  ∃ w', at_create_resp size num tmo w = Ret (Some (MkResp true size num tmo []), w') ∧
    socket_event w' = socket_event w.
Proof.
  intros Hm. unfold at_create_resp, rt_calloc, on_modem, mbind, io_bind, modify.
  pose proof (Hm 24 (modem w)) as H1. destruct (rt_malloc 24 _) as [ok m]. cbn in H1. subst ok.
  cbn [mret io_ret modem field_update]. pose proof (Hm size m) as H2.
  destruct (rt_malloc size _) as [ok m']. cbn in H2. subst ok.
  eexists. split; [reflexivity|done].
Qed.

Lemma both_small s s' :
  0 <= s < AT_DEVICE_A9G_SOCKETS_NUM → 0 <= s' < AT_DEVICE_A9G_SOCKETS_NUM →
  let c := Z.land (s + 1) (s' + 1) in 0 <= c <= 8.
Proof.
  unfold AT_DEVICE_A9G_SOCKETS_NUM. intros Hs Hs'. cbn zeta. split.
  - apply Z.land_nonneg. lia.
  - assert (s + 1 ∈ [1; 2; 3; 4; 5; 6; 7; 8]) as Ha by (rewrite !elem_of_cons; lia).
    assert (s' + 1 ∈ [1; 2; 3; 4; 5; 6; 7; 8]) as Hb by (rewrite !elem_of_cons; lia).
    revert Ha Hb. generalize (s + 1) (s' + 1). intros a b Ha Hb.
    assert (Forall (λ a, Forall (λ b, Z.land a b <= 8) [1; 2; 3; 4; 5; 6; 7; 8])
      [1; 2; 3; 4; 5; 6; 7; 8]) as Hall by (repeat constructor; vm_compute; discriminate).
    rewrite Forall_forall in Hall. specialize (Hall a Ha). rewrite Forall_forall in Hall. auto.
Qed.
End wake.

Section attempt.
Context {W : Type} `{Modem W}.

Lemma clear_step s (w : world W) :
  0 <= s < AT_DEVICE_A9G_SOCKETS_NUM →
  ∃ r w', a9g_socket_event_recv (Z.lor (Z.shiftl (s + 1) 16) 17) 0 RT_EVENT_FLAG_OR w = Ret (r, w') ∧
    cleared (ev_set (socket_event w')) (s + 1) ∧
    suspend_thread (socket_event w') = suspend_thread (socket_event w).
Proof.
  intros Hs. pose proof (event_nonzero s 17 Hs) as Hn.
  destruct (Z.eqb_spec (Z.land (ev_set (socket_event w)) (Z.lor (Z.shiftl (s + 1) 16) 17)) 0) as [E|E].
  - rewrite event_recv_poll by done. eauto.
  - rewrite event_recv_now by done. eexists _, _. split; [reflexivity|].
    split; [apply cleared_clear|done].
Qed.

(** An attempt to connect socket [s] that socket [s']'s success arrives in. *)
Lemma attempt_woken s s' ip port type retryed (w : world W) :
  0 <= s < AT_DEVICE_A9G_SOCKETS_NUM → 0 <= s' < AT_DEVICE_A9G_SOCKETS_NUM →
  (length ip <= 400)%nat → 0 <= port <= INT32_MAX → type = AT_SOCKET_TCP ∨ type = AT_SOCKET_UDP →
  suspend_thread (socket_event w) = [] →
  (∀ m, (event_wait 10000 m).1 = [Z.lor (Z.shiftl (s' + 1) 16) A9G_EVENT_CONN_OK]) →
  ∃ w', connect_attempt s ip port type true retryed w =
    Ret (Some (if Z.land (s + 1) (s' + 1) =? 0 then - RT_ETIMEOUT else RT_EOK), w').
Proof.
  intros Hs Hs' Hip Hport Ht Hq Hw. unfold connect_attempt.
  rewrite !SET_EVENT_ok by done. unfold mbind, io_bind, lift.
  change (Z.lor A9G_EVENT_CONN_OK A9G_EVENT_CONN_FAIL) with 17.
  destruct (clear_step s w Hs) as (r1 & w1 & -> & Hc1 & Hq1).
  destruct (connect_cmd_quiet ip port type w1 Hip Hport Ht) as (w2 & -> & He2).
  change (RT_EOK <? 0) with false. cbn [mbind].
  rewrite <- He2 in Hc1, Hq1. rewrite Hq in Hq1.
  pose proof (seen_flags _ _ (s' + 1) Hc1) as Hseen.
  pose proof (both_small s s' Hs Hs') as Hsm. cbn zeta in Hsm.
  destruct (event_recv_wait (Z.lor (Z.shiftl (s + 1) 16) 0) (10 * RT_TICK_PER_SECOND)
    (Z.lor (Z.shiftl (s' + 1) 16) A9G_EVENT_CONN_OK) w2) as (w3 & Hr3 & He3).
  { by apply event_nonzero. }
  { done. }
  { by apply event_nonzero. }
  { rewrite Z.lor_0_r. apply (land_0_le _ (Z.lor (Z.shiftl (s + 1) 16) 17)); [|exact Hc1].
    apply flags_le_bits. intros i _ Hi. by rewrite Z.lor_spec, Hi. }
  { done. }
  { apply Hw. }
  rewrite Z.lor_0_r in Hr3, He3. unfold A9G_EVENT_CONN_OK in Hr3, He3. rewrite Hseen in Hr3, He3.
  rewrite Z.lor_0_r. unfold A9G_EVENT_CONN_OK. rewrite Hr3. clear Hr3.
  pose proof (left_outcome _ _ (s' + 1) (Z.land (s + 1) (s' + 1)) Hc1) as Hleft.
  assert (Z.shiftl (Z.land (s + 1) (s' + 1)) 16 = Z.land (s + 1) (s' + 1) * 65536) as Hg
    by (rewrite Z.shiftl_mul_pow2 by lia; lia).
  rewrite Hg in *. destruct (Z.eqb_spec (Z.land (s + 1) (s' + 1)) 0) as [E0|E0].
  - rewrite E0. cbn. eauto.
  - decide_if (Z.land (s + 1) (s' + 1) * 65536 =? 0) false.
    rewrite i32_small by (unfold INT32_MIN, INT32_MAX; lia).
    decide_if (Z.land (s + 1) (s' + 1) * 65536 <? 0) false.
    rewrite (proj2 (Z.eqb_neq _ 0)) in He3 by lia.
    rewrite event_recv_now; [|done|rewrite He3; cbn [ev_set]; by rewrite Hleft].
    rewrite He3. cbn [ev_set]. rewrite Hleft. cbn. eauto.
Qed.

(** C15. Whose success wakes a connecting thread.  While a thread waits for the outcome of
    connecting socket [s] (no stale flag of an earlier attempt matters: they are cleared
    first), the modem reports that socket [s'] is connected.  The call succeeds when [s + 1]
    and [s' + 1] have a binary digit in common, and times out otherwise: the event's number
    of the socket is waited for with OR, so the success of socket 0 or 1 is taken by socket
    2 as its own. *)
Theorem connect_woken_by s s' ip port type (w : world W) :
  0 <= s < AT_DEVICE_A9G_SOCKETS_NUM → 0 <= s' < AT_DEVICE_A9G_SOCKETS_NUM →
  (length ip <= 400)%nat → 0 <= port <= INT32_MAX → type = AT_SOCKET_TCP ∨ type = AT_SOCKET_UDP →
  suspend_thread (socket_event w) = [] → (∀ n m, (rt_malloc n m).1 = true) →
  (∀ m, (event_wait 10000 m).1 = [Z.lor (Z.shiftl (s' + 1) 16) A9G_EVENT_CONN_OK]) →
  ∃ w', a9g_socket_connect s (Some ip) port type true w =
    Ret (if Z.land (s + 1) (s' + 1) =? 0 then - RT_ETIMEOUT else RT_EOK, w').
Proof.
  intros Hs Hs' Hip Hport Ht Hq Hm Hw. unfold a9g_socket_connect, rt_assert.
  decide_if (0 <=? port) true. unfold mbind, io_bind. cbn [mret io_ret].
  destruct (create_quiet 128 0 (5 * RT_TICK_PER_SECOND) w Hm) as (w1 & -> & He1).
  cbn [connect_loop]. unfold mbind, io_bind.
  destruct (attempt_woken s s' ip port type false w1) as (w2 & ->); try done; [by rewrite He1|].
  eexists. reflexivity.
Qed.
End attempt.

(** A modem that reports the success of socket [s'] whenever a thread waits. *)
#[export] Instance reporting_modem (s' : Z) : Modem unit := {
  rt_malloc _ m := (true, m);
  rt_device_write t m := (Z.of_nat (length t), m);
  resp_notice _ m := (MkAnswer true AT_RESP_OK [] [], m);
  event_wait _ m := ([Z.lor (Z.shiftl (s' + 1) 16) A9G_EVENT_CONN_OK], m);
  at_client_getchar _ m := (None, m);
  rt_delay _ m := m }.

Lemma connect_woken_by_witness :
  let w := MkWorld false 0 0 0 1 20 (MkEvent 0 [] RT_IPC_FLAG_FIFO) true [None; None] 0 [] [] tt in
  (∃ w', @a9g_socket_connect _ (reporting_modem 0) 2 (Some (bytes "10.0.0.1")) 80 AT_SOCKET_TCP true w =
     Ret (RT_EOK, w')) ∧
  (∃ w', @a9g_socket_connect _ (reporting_modem 3) 2 (Some (bytes "10.0.0.1")) 80 AT_SOCKET_TCP true w =
     Ret (- RT_ETIMEOUT, w')).
Proof.
  assert (0 <= 2 < AT_DEVICE_A9G_SOCKETS_NUM) as H2 by (split; [discriminate|reflexivity]).
  assert (0 <= 0 < AT_DEVICE_A9G_SOCKETS_NUM) as H0 by (split; [discriminate|reflexivity]).
  assert (0 <= 3 < AT_DEVICE_A9G_SOCKETS_NUM) as H3 by (split; [discriminate|reflexivity]).
  assert (length (bytes "10.0.0.1") <= 400)%nat as Hl by (vm_compute; lia).
  assert (0 <= 80 <= INT32_MAX) as Hp by (split; discriminate).
  intros w. split.
  - exact (@connect_woken_by _ (reporting_modem 0) 2 0 _ 80 _ w H2 H0 Hl Hp (or_introl eq_refl)
      eq_refl (λ _ _, eq_refl) (λ _, eq_refl)).
  - exact (@connect_woken_by _ (reporting_modem 3) 2 3 _ 80 _ w H2 H3 Hl Hp (or_introl eq_refl)
      eq_refl (λ _ _, eq_refl) (λ _, eq_refl)).
Defined.
