(* ===== verification/AtReceive.v ===== *)
(** Correctness of the URC functions of the modem driver: the sockets and events the
    lines denote, the hand-over of received data, and the answers to name queries. *)

From S2P Require Import Prelude CLib Event AtClient AtSocket AtSocketSpec AtEventSpec.

(** * Scanning what the modem prints *)

Lemma digit_not_space c : isdigit c = true → isspace c = false.
Proof. unfold isdigit, isspace. intros. bool_prop. apply orb_false_iff. split; [lia|].
  apply andb_false_iff. right. apply Z.leb_gt. lia.
Qed.

(** A printed [int] is scanned back, whatever follows it but a digit. *)
Lemma scan_printed z rest :
  INT32_MIN <= z <= INT32_MAX → stops isdigit rest = true →
  scan_int (print_d z ++ rest) = Some (z, rest) ∧
  skip_while isspace (print_d z ++ rest) ≠ [].
Proof.
  intros Hz Hr. destruct (print_d_spec z Hz) as (ds & -> & Hn & Hds & Hv & _).
  pose proof (take_while_app isdigit ds rest Hds Hr) as Ht.
  pose proof (skip_while_app isdigit ds rest Hds Hr) as Hk.
  destruct ds as [|d ds]; [done|]. apply Forall_cons_1 in Hds as Hd.
  destruct Hd as [Hd _]. pose proof (digit_not_space d Hd) as Hsp.
  unfold scan_int. cbn [app] in Ht, Hk.
  destruct (z <? 0) eqn:E; bool_prop; cbn [app skip_while].
  - change (isspace 45) with false. cbv beta iota zeta. change (45 =? 45) with true.
    cbv beta iota zeta. rewrite Ht, Hk, Hv. split; [|done]. do 2 f_equal. lia.
  - rewrite Hsp. cbv beta iota zeta. unfold isdigit in Hd. bool_prop. decide_if (d =? 45) false.
    decide_if (d =? 43) false. cbv beta iota zeta. rewrite Ht, Hk, Hv. split; [|done]. do 2 f_equal. lia.
Qed.

Lemma scanf_int fmt z rest n conv :
  INT32_MIN <= z <= INT32_MAX → stops isdigit rest = true →
  scanf (IntD :: fmt) (print_d z ++ rest) n conv =
    ('(r, vs) ← scanf fmt rest (n + 1) true; Ret (r, SInt z :: vs)).
Proof.
  intros Hz Hr. cbn [scanf]. destruct (scan_printed z rest Hz Hr) as [-> Hs].
  destruct (skip_while isspace _); [done|]. by apply in_i32_spec in Hz as ->.
Qed.

Lemma scanf_lit c fmt s n conv : scanf (Lit c :: fmt) (c :: s) n conv = scanf fmt s n conv.
Proof. cbn. by rewrite Z.eqb_refl. Qed.

Lemma scanf_lits p fmt s n conv : scanf (lits p ++ fmt) (p ++ s) n conv = scanf fmt s n conv.
Proof. induction p as [|c p IH]; [done|]. cbn. by rewrite Z.eqb_refl. Qed.

Lemma strstr_char u c v :
  Forall (λ d, d ≠ c) u → strstr (u ++ c :: v) [c] = Some (c :: v).
Proof.
  induction 1 as [|d u Hd _ IH]; cbn; [by rewrite Z.eqb_refl|].
  decide_if (c =? d) false. done.
Qed.

Lemma print_d_chars z :
  INT32_MIN <= z <= INT32_MAX → Forall (λ d, d ≠ 58) (print_d z).
Proof.
  intros Hz. destruct (print_d_spec z Hz) as (ds & -> & _ & Hds & _). apply Forall_app. split.
  - case_if; by repeat constructor.
  - eapply Forall_impl; [exact Hds|]. unfold isdigit. cbn. intros c Hc. bool_prop. lia.
Qed.

(** * Received data *)

(** The line that announces [n] bytes for socket [s] and holds the first of them. *)
Definition rcv_line (s n : Z) (held : list Z) : cstr :=
  bytes "+CIPRCV," ++ print_d s ++ [44] ++ print_d n ++ [58] ++ held ++ CRLF.

Lemma rcv_line_scan s n held :
  INT32_MIN <= s <= INT32_MAX → INT32_MIN <= n <= INT32_MAX →
  sscanf (rcv_line s n held) fmt_rcv = Ret (2, [SInt s; SInt n]) ∧
  after_colon (rcv_line s n held) = Ret (held ++ CRLF).
Proof.
  intros Hs Hn. split.
  - unfold sscanf, rcv_line, fmt_rcv. rewrite scanf_lits, scanf_int by done.
    cbn [app]. rewrite scanf_lit, (scanf_int [Lit 58] n (58 :: held ++ CRLF)), scanf_lit by done.
    done.
  - unfold after_colon, rcv_line. rewrite !app_assoc, <- (app_assoc _ held).
    rewrite <- (app_assoc _ [58]). cbn [app]. rewrite strstr_char; [done|].
    rewrite !Forall_app. split_and!; try apply print_d_chars; try done; repeat constructor; done.
Qed.

Section receive.
Context {W : Type} `{Modem W}.

(** The serial line delivers the bytes [bs], each within [tmo]. *)
Fixpoint delivers (tmo : Z) (bs : list Z) (m m' : W) : Prop :=
  match bs with
  | [] => m = m'
  | b :: bs => ∃ m1, at_client_getchar tmo m = (Some b, m1) ∧ delivers tmo bs m1 m'
  end.

Lemma delivers_app tmo a b m m' :
  delivers tmo (a ++ b) m m' → ∃ m1, delivers tmo a m m1 ∧ delivers tmo b m1 m'.
Proof.
  revert m. induction a as [|c a IH]; intros m; cbn; [eauto|].
  intros (m1 & Hc & Hd). destruct (IH m1 Hd) as (m2 & ? & ?). eauto 6.
Qed.

Lemma recv_loop_delivers tmo bs : ∀ got (w : world W) m',
  delivers tmo bs (modem w) m' →
  recv_loop (length bs) tmo got w = Ret ((true, got ++ bs), w <| modem := m' |>).
Proof.
  induction bs as [|b bs IH]; intros got w m'; cbn [delivers length recv_loop].
  - intros <-. rewrite app_nil_r. by destruct w.
  - intros (m1 & Hc & Hd). unfold mbind, io_bind, on_modem. rewrite Hc.
    rewrite (IH _ (w <| modem := m1 |>) m') by done. by rewrite <- app_assoc.
Qed.

Lemma recv_delivers tmo bs (w : world W) m' :
  delivers tmo bs (modem w) m' →
  at_client_obj_recv (Z.of_nat (length bs)) tmo w =
    Ret ((Z.of_nat (length bs), bs), w <| modem := m' |>).
Proof.
  intros Hd. unfold at_client_obj_recv, mbind, io_bind.
  by rewrite Nat2Z.id, (recv_loop_delivers _ _ _ _ _ Hd).
Qed.

(** Without memory the announced bytes are read eight at a time and dropped. *)
Lemma drain_delivers tmo n fuel : ∀ bs t (w : world W) m',
  n <= INT32_MAX → 0 <= t → Z.max 0 (n - t) = Z.of_nat (length bs) → t <= n + 8 →
  (Z.to_nat ((n - t + 7) / 8) < fuel)%nat →
  delivers tmo bs (modem w) m' → drain fuel t n tmo w = Ret (tt, w <| modem := m' |>).
Proof.
  unfold INT32_MAX. induction fuel as [|fuel IH]; intros bs t w m' Hn Ht Hl Ht8 Hf Hd; [lia|].
  cbn [drain]. case_if; cycle 1.
  { destruct bs; cbn in *; [|lia]. subst. by destruct w. }
  assert (0 < (n - t + 7) / 8) by dlia.
  unfold u32 at 1. rewrite Z.mod_small by lia. unfold mbind, io_bind. case_if.
  - destruct (delivers_app tmo (take 8 bs) (drop 8 bs) (modem w) m') as (m1 & H1 & H2).
    { by rewrite firstn_skipn. }
    replace 8 with (Z.of_nat (length (take 8 bs))) at 1 by (rewrite length_firstn; lia).
    rewrite (recv_delivers tmo _ w m1 H1).
    rewrite (IH (drop 8 bs) (t + 8) (w <| modem := m1 |>) m'); try done; try lia.
    + rewrite length_skipn. lia.
    + replace (n - (t + 8) + 7) with (n - t + 7 + (-1) * 8) by lia. rewrite Z.div_add by lia. lia.
  - replace (n - t) with (Z.of_nat (length bs)) by lia.
    rewrite (recv_delivers tmo _ w m' Hd).
    rewrite (IH [] (t + 8) (w <| modem := m' |>) m'); try done; cbn; try lia.
    replace (n - (t + 8) + 7) with (n - t + 7 + (-1) * 8) by lia. rewrite Z.div_add by lia. lia.
Qed.
End receive.

(** A received line, with and without memory for its data. *)
Lemma urc_recv_serves {W} `{Modem W} s n held rest f (w : world W) m' :
  0 <= s < AT_DEVICE_A9G_SOCKETS_NUM → 0 < n <= INT32_MAX →
  Z.of_nat (length held) <= INT32_MAX → device_found w = true →
  at_evt_cb_set w !! 0%nat = Some (Some f) →
  let mem := rt_malloc n (modem w) in
  (Z.of_nat (length held + length rest) = n → delivers n rest mem.2 m' →
   ∃ w', urc_recv_func (rcv_line s n held) w = Ret (tt, w') ∧ modem w' = m' ∧
     if mem.1
     then notices w' = notices w ++ [MkNotified f s AT_SOCKET_EVT_RECV (Some (held ++ rest)) n] ∧
          heap w' = heap w + 1
     else notices w' = notices w ∧ heap w' = heap w) ∧
  (mem.1 = true → n < Z.of_nat (length held) →
   urc_recv_func (rcv_line s n held) w = Fault OutOfBounds).
Proof.
  intros Hs Hn Hh Hdev Hcb mem.
  assert (INT32_MIN <= s <= INT32_MAX) as Hs32
    by (unfold AT_DEVICE_A9G_SOCKETS_NUM, INT32_MIN, INT32_MAX in *; lia).
  assert (INT32_MIN <= n <= INT32_MAX) as Hn32 by (unfold INT32_MIN in *; lia).
  destruct (rcv_line_scan s n held Hs32 Hn32) as [Hscan Hcolon].
  assert (0 < length (rcv_line s n held))%nat as Hlen.
  { unfold rcv_line. rewrite length_app. change (length (bytes "+CIPRCV,")) with 8%nat. lia. }
  assert (held_size (held ++ CRLF) = Z.of_nat (length held)) as Hsize.
  { unfold held_size. rewrite length_app, Nat2Z.inj_add. change (Z.of_nat (length CRLF)) with 2.
    rewrite u32_small; unfold INT32_MAX in *; lia. }
  unfold urc_recv_func, rt_assert. decide_if (0 <? Z.of_nat (length (rcv_line s n held))) true.
  unfold mbind, io_bind, lift. cbn [mret io_ret]. rewrite Hscan. cbn [snd].
  rewrite u32_small by (unfold INT32_MAX in *; lia). rewrite i32_small by done.
  decide_if (s <? 0) false. decide_if (n =? 0) false. cbn [orb].
  unfold gets. rewrite Hdev. cbn [negb]. unfold rt_calloc, on_modem, mbind, io_bind.
  unfold mem. destruct (rt_malloc n (modem w)) as [ok m1]. cbn [fst snd]. destruct ok; cbn [negb].
  - unfold modify at 1. cbn [mret io_ret]. rewrite Hcolon, Hsize.
    split; [|intros _ Hlt; by decide_if (n <? Z.of_nat (length held)) true].
    intros Hsum Hd. decide_if (n <? Z.of_nat (length held)) false.
    rewrite (proj2 (Z.ltb_ge (Z.of_nat (length (held ++ CRLF)) + 1) _))
      by (rewrite length_app; lia).
    cbn [orb]. replace (n - Z.of_nat (length held)) with (Z.of_nat (length rest)) by lia.
    change (negb true) with false. cbv beta iota.
    match goal with |- context [at_client_obj_recv _ _ ?v] =>
      rewrite (recv_delivers n rest v m' Hd) end. cbn [fst snd]. rewrite Z.eqb_refl. cbn [negb].
    unfold socket_at, AT_DEVICE_A9G_SOCKETS_NUM in *. decide_if (0 <=? s) true.
    decide_if (s <? 8) true. cbn [andb]. rewrite Nat2Z.id, take_app_le by (rewrite length_app; lia).
    rewrite take_app_length. unfold notify, gets, mbind, io_bind.
    cbn [at_evt_cb_set field_update]. change (Z.to_nat AT_SOCKET_EVT_RECV) with 0%nat.
    rewrite Hcb. eexists. split; [reflexivity|]. done.
  - unfold mret, io_ret. rewrite Hcolon, Hsize. change (negb false) with true.
    cbv beta iota. split; [|done]. intros Hsum Hd.
    exists (w <| modem := m1 |> <| modem := m' |>). split; [|done].
    apply (drain_delivers n n _ rest _ _ m'); try done; try lia. unfold drain_fuel. lia.
Qed.

(** Received data.  A line announces [n] bytes for socket [s] and holds the first
    ones; the serial line delivers the others.  [urc_recv_func] consumes exactly those
    and, if there is memory, calls the application's callback once with the [n] bytes in
    order in a buffer the callback owns; without memory it reads and drops them.  A line
    that holds more than it announces overflows the buffer. *)
Theorem urc_recv_hands_over {W} `{Modem W} s n held rest f (w : world W) m' :
  0 <= s < AT_DEVICE_A9G_SOCKETS_NUM → 0 < n <= INT32_MAX →
  Z.of_nat (length held) <= INT32_MAX → device_found w = true →
  at_evt_cb_set w !! 0%nat = Some (Some f) →
  let mem := rt_malloc n (modem w) in
  (Z.of_nat (length held + length rest) = n → delivers n rest mem.2 m' →
   ∃ w', urc_recv_func (rcv_line s n held) w = Ret (tt, w') ∧ modem w' = m' ∧
     if mem.1
     then notices w' = notices w ++ [MkNotified f s AT_SOCKET_EVT_RECV (Some (held ++ rest)) n] ∧
          heap w' = heap w + 1
     else notices w' = notices w ∧ heap w' = heap w) ∧
  (mem.1 = true → n < Z.of_nat (length held) →
   urc_recv_func (rcv_line s n held) w = Fault OutOfBounds).
Proof. apply urc_recv_serves. Qed.

Definition receiver (memory : bool) : world script :=
  world_of 0 [Some 7; None] (MkScript memory [] [] (bytes "defghijkl!")).

Lemma receiver_delivers memory :
  delivers 12 (bytes "defghijkl") (rt_malloc 12 (modem (receiver memory))).2
    (MkScript memory [] [] [33]).
Proof. vm_compute. repeat (eexists; split; [reflexivity|]). reflexivity. Qed.

Lemma urc_recv_hands_over_witness :
  (0 <= 1 < AT_DEVICE_A9G_SOCKETS_NUM) ∧ (0 < 12 <= INT32_MAX) ∧
  (Z.of_nat (length (bytes "abc")) <= INT32_MAX) ∧
  ∃ w', urc_recv_func (rcv_line 1 12 (bytes "abc")) (receiver true) = Ret (tt, w') ∧
    modem w' = MkScript true [] [] [33] ∧
    notices w' = notices (receiver true) ++
      [MkNotified 7 1 AT_SOCKET_EVT_RECV (Some (bytes "abc" ++ bytes "defghijkl")) 12].
Proof.
  assert (0 <= 1 < AT_DEVICE_A9G_SOCKETS_NUM) as H1 by (split; [discriminate|reflexivity]).
  assert (0 < 12 <= INT32_MAX) as H2 by (split; [reflexivity|discriminate]).
  assert (Z.of_nat (length (bytes "abc")) <= INT32_MAX) as H3 by discriminate.
  split; [exact H1|]. split; [exact H2|]. split; [exact H3|].
  destruct (urc_recv_hands_over 1 12 (bytes "abc") (bytes "defghijkl") 7 (receiver true)
      (MkScript true [] [] [33]) H1 H2 H3 eq_refl eq_refl) as [Hd _].
  destruct (Hd eq_refl (receiver_delivers true)) as (w' & E1 & E2 & E3 & _).
  exact (ex_intro _ w' (conj E1 (conj E2 E3))).
Defined.

(** * Name queries *)

(** The faults of a conversion, and of an answer longer than the 16 bytes for it. *)
Definition answer_fault (f : fault) : Prop := f = OutOfBounds ∨ f = BadConversion.

Lemma scanf_faults fmt : ∀ s n conv, may_fault answer_fault (λ _, True) (scanf fmt s n conv).
Proof.
  induction fmt as [|[c| | | | |c|c] fmt IH]; intros s n conv; cbn [scanf]; [done|..].
  - destruct s as [|d s]; [done|]. case_if; [apply IH|done].
  - apply IH.
  - destruct (skip_while isspace s); [done|]. destruct (scan_int s) as [[v s']|]; [|done].
    case_if; [|by right]. eapply may_fault_bind; [apply IH|]. by intros [].
  - destruct (skip_while isspace s); [done|]. eapply may_fault_bind; [apply IH|]. by intros [].
  - destruct (skip_while isspace s); [done|]. apply IH.
  - destruct s; [done|]. destruct (take_while _ _); [done|]. apply IH.
  - destruct s; [done|]. destruct (take_while _ _); [done|].
    eapply may_fault_bind; [apply IH|]. by intros [].
Qed.

Lemma parse_faults resp kw fmt :
  may_fault answer_fault (λ _, True) (at_resp_parse_line_args_by_kw resp kw fmt).
Proof.
  unfold at_resp_parse_line_args_by_kw. destruct (at_resp_get_line_by_kw resp kw); [|done].
  apply scanf_faults.
Qed.

Lemma scanf_lit_inv c fmt s n conv r vs :
  scanf (Lit c :: fmt) s n conv = Ret (r, vs) → vs = [] ∨ ∃ s', scanf fmt s' n conv = Ret (r, vs).
Proof.
  cbn [scanf]. destruct s as [|d s]; [intros [= <- <-]; by left|].
  case_if; [eauto|intros [= <- <-]; by left].
Qed.

Lemma scanf_skip_inv c fmt s n conv r vs :
  scanf (SkipSet c :: fmt) s n conv = Ret (r, vs) → vs = [] ∨ ∃ s', scanf fmt s' n true = Ret (r, vs).
Proof.
  cbn [scanf]. destruct s as [|d s]; [intros [= <- <-]; by left|].
  destruct (take_while _ _); [intros [= <- <-]; by left|]. eauto.
Qed.

(** The address format assigns nothing, or one text without a quote. *)
Lemma parse_ip resp kw r vs :
  at_resp_parse_line_args_by_kw resp kw fmt_ip = Ret (r, vs) →
  vs = [] ∨ ∃ t, vs = [SText t] ∧ r = 1 ∧ Forall (λ c, c ≠ 34) t.
Proof.
  unfold at_resp_parse_line_args_by_kw. destruct (at_resp_get_line_by_kw resp kw) as [l|];
    [|intros [= <- <-]; by left].
  unfold sscanf, fmt_ip.
  intros H. apply scanf_skip_inv in H as [|[? H]]; [by left|].
  apply scanf_lit_inv in H as [|[? H]]; [by left|]. apply scanf_skip_inv in H as [|[? H]]; [by left|].
  apply scanf_lit_inv in H as [|[? H]]; [by left|]. apply scanf_lit_inv in H as [|[s H]]; [by left|].
  cbn [scanf] in H. destruct s as [|d s]; [injection H as <- <-; by left|].
  pose proof (take_while_Forall (λ c, negb (c =? 34)) (d :: s)) as Hf.
  destruct (take_while _ (d :: s)) as [|d' t]; [injection H as <- <-; by left|].
  cbn [mbind res_bind] in H. injection H as <- <-. right. eexists. split_and!; [done|done|].
  eapply Forall_impl; [exact Hf|]. cbn. intros c Hc. bool_prop. lia.
Qed.

Section resolve.
Context {W : Type} `{Modem W}.
Variables (name : cstr) (ip : list Z).

Definition query : list cstr := command (cmd_resolve name).

(** The outcome of at most [n] queries. *)
Definition resolved (n : nat) (r : Z * list Z) (ws : list cstr) (dh : Z) : Prop :=
  dh = 0 ∧ ∃ k, (k <= n)%nat ∧ ws = concat (replicate k query) ∧
    (r = (- RT_ERROR, ip) ∨
     r = (RT_EOK, ip) ∧ k = n ∨
     ∃ t, r = (RT_EOK, t ++ replicate (16 - length t) 0) ∧ (8 <= length t <= 15)%nat ∧
       Forall (λ c, c ≠ 34) t).

Lemma resolved_later n r ws dh : resolved n r ws dh → resolved (S n) r (query ++ ws) dh.
Proof using.
  intros (-> & k & Hk & -> & Hr). split; [done|]. exists (S k). split_and!; [lia|done|].
  destruct Hr as [->|[[-> ->]|Hr]]; auto.
Qed.

Lemma copy_ip_short t : (length t <= 15)%nat → copy_ip t = t ++ replicate (16 - length t) 0.
Proof using.
  clear. intros Ht. unfold copy_ip. rewrite firstn_all2 by done. f_equal.
  replace (16 - length t)%nat with ((15 - length t) + 1)%nat by lia.
  by rewrite replicate_add.
Qed.

Hypothesis Hname : (length name <= 400)%nat.

Lemma runs_resolve n : ∀ recv_ip resp,
  (length recv_ip < 8)%nat → buf resp = true →
  runs answer_fault (resolve_loop n name recv_ip ip resp) (resolved n).
Proof using Hname.
  induction n as [|n IH]; intros recv_ip resp Hl Hb; cbn [resolve_loop].
  { apply runs_ret. split; [done|]. exists 0%nat. split_and!; auto. }
  assert (length (cmd_resolve name) < 512)%nat as Hc.
  { unfold cmd_resolve. rewrite !length_app. cbn [length].
    change (length (bytes "AT+CDNSGIP=")) with 11%nat. lia. }
  eapply runs_bind; [by apply runs_exec|]. intros [result [resp'|]] ws dh (-> & Hsame & Hr);
    [|done].
  cbn [fst snd] in *. injection Hsame as Hb' _.
  assert (∀ recv_ip, (length recv_ip < 8)%nat →
    runs answer_fault (rt_thread_mdelay 100 ;; resolve_loop n name recv_ip ip resp')
      (λ r ws dh, resolved (S n) r (query ++ ws) dh)) as Hretry.
  { intros rip Hrip. eapply runs_bind; [apply runs_delay|]. intros _ ? ? [-> ->].
    eapply runs_mono; [apply IH; [done|congruence]|]. intros r' ws' dh' Hr'.
    by apply resolved_later. }
  case_if.
  { apply runs_ret. rewrite app_nil_r. split; [done|].
    destruct Hr as [(_ & -> & _)|[-> _]]; [exists 0%nat|exists 1%nat]; (split; [lia|]); auto. }
  destruct Hr as [(-> & _)|[-> _]]; [by unfold RT_EBUSY in *|].
  eapply runs_bind; [by apply runs_lift, parse_faults|]. intros e ? ? (_ & -> & ->).
  case_if.
  { apply runs_ret. split; [done|]. exists 1%nat. split; [lia|]. auto. }
  eapply runs_bind; [by apply runs_lift, parse_faults|]. intros [p1 p2] ? ? (Hp & -> & ->).
  cbn [fst snd]. apply parse_ip in Hp.
  eapply runs_bind.
  { apply runs_lift. unfold store_ip. destruct Hp as [->|(t & -> & _ & _)]; [done|].
    case_if; [done|by left]. }
  intros rip ? ? (Hrip & -> & ->). case_if.
  { destruct Hp as [->|(t & -> & -> & _)]; [|done]. injection Hrip as <-. by apply Hretry. }
  case_if; [by apply Hretry, Nat.ltb_lt|]. apply Nat.ltb_ge in E2.
  eapply runs_bind; [apply runs_delay|]. intros _ ? ? [-> ->]. apply runs_ret.
  split; [done|]. exists 1%nat. split; [lia|]. split; [done|]. right. right.
  destruct Hp as [->|(t & -> & _ & Ht)]; [injection Hrip as <-; lia|].
  unfold store_ip in Hrip. destruct (length t <? 16)%nat eqn:E3; [|done]. injection Hrip as <-.
  apply Nat.ltb_lt in E3. exists t. rewrite copy_ip_short by lia. split_and!; [done|lia|lia|done].
Qed.
End resolve.

Lemma runs_domain_resolve {W} `{Modem W} name ip : (length name <= 400)%nat →
  runs answer_fault (a9g_domain_resolve name ip) (λ r ws dh, dh = 0 ∧
    ∃ k, (k <= 5)%nat ∧ ws = concat (replicate k (query name)) ∧
      (r.1 < 0 ∧ r.2 = ip ∨ r = (RT_EOK, ip) ∧ k = 5%nat ∨
       ∃ t, r = (RT_EOK, t ++ replicate (16 - length t) 0) ∧ (8 <= length t <= 15)%nat ∧
         Forall (λ c, c ≠ 34) t)).
Proof.
  intros Hname. unfold a9g_domain_resolve. eapply runs_bind; [apply runs_gets|]. intros found ? ? [-> ->].
  case_if; [apply runs_ret; split; [done|]; exists 0%nat; split_and!; [lia|done|by left]|].
  eapply runs_bind; [apply runs_create|].
  intros [resp|] ? ? [-> Hd]; [destruct Hd as [-> ->]|subst];
    [|apply runs_ret; split; [done|]; exists 0%nat; split_and!; [lia|done|by left]].
  eapply runs_bind; [apply (runs_resolve _ _ Hname RESOLVE_RETRY); [cbn; lia|done]|].
  intros r ws dh (-> & k & Hk & -> & Hr).
  eapply runs_bind; [by apply runs_delete|]. intros _ ? ? [-> ->].
  apply runs_ret. rewrite !app_nil_r. cbn [app]. split; [done|]. exists k. split; [done|].
  split; [done|]. destruct Hr as [->|Hr]; [by left|by right].
Qed.

(** Name queries.  [a9g_domain_resolve] returns after at most five queries, with the
    client's settings and memory as before.  When it stores an address, that is a text of 8
    to 15 characters from the modem's answer, terminated and padded in the caller's 16
    bytes.  It reports success without having stored one after five queries without an
    address.  Its faults are an address text of 16 characters or more, which overflows its
    buffer, and an error code outside [int]. *)
Theorem a9g_domain_resolve_address {W} `{Modem W} name ip (w : world W) :
  (length name <= 400)%nat →
  match a9g_domain_resolve name ip w with
  | Fault f => answer_fault f
  | Ret (r, w') =>
      settings w' = settings w ∧ heap w' = heap w ∧
      ∃ k, (k <= 5)%nat ∧ written w' = written w ++ concat (replicate k (query name)) ∧
        (r.1 < 0 ∧ r.2 = ip ∨ r = (RT_EOK, ip) ∧ k = 5%nat ∨
         ∃ t, r = (RT_EOK, t ++ replicate (16 - length t) 0) ∧ (8 <= length t <= 15)%nat ∧
           Forall (λ c, c ≠ 34) t)
  end.
Proof.
  intros Hname. pose proof (runs_domain_resolve name ip Hname) as Hrun.
  specialize (Hrun w). destruct (a9g_domain_resolve _ _ w) as [[r w']|f]; [|done].
  destruct Hrun as (ws & dh & (H1 & H2 & H3) & -> & k & Hk & -> & Hr).
  split_and!; [done|lia|]. eauto.
Qed.

Definition resolver (answers : list answer) : world script :=
  world_of 0 [None; None] (MkScript true [] answers []).
Definition empty_ip : list Z := replicate 16 0.

Lemma a9g_domain_resolve_address_witness :
  (length (bytes "example.com") <= 400)%nat ∧
  match a9g_domain_resolve (bytes "example.com") empty_ip (resolver []) with
  | Fault f => answer_fault f
  | Ret (r, w') => heap w' = 0
  end.
Proof.
  assert (length (bytes "example.com") <= 400)%nat as H1 by (vm_compute; lia).
  split; [exact H1|].
  pose proof (a9g_domain_resolve_address (bytes "example.com") empty_ip (resolver []) H1) as H2.
  destruct (a9g_domain_resolve _ _ _) as [[r w']|f]; [|exact H2].
  exact (proj1 (proj2 H2)).
Defined.

(** Evaluated: a modem that answers OK five times without an address, and one that
    answers the second query. *)
Example resolve_nothing :
  match a9g_domain_resolve (bytes "example.com") empty_ip (resolver []) with
  | Ret (r, w') => r = (RT_EOK, empty_ip) ∧ length (written w') = 10%nat
  | Fault _ => False
  end.
Proof. vm_compute. done. Qed.

Example resolve_second :
  let line := bytes "+CDNSGIP: 1," ++ [34] ++ bytes "example.com" ++ [34; 44; 34] ++
              bytes "93.184.216.34" ++ [34] in
  match a9g_domain_resolve (bytes "example.com") empty_ip
          (resolver [MkAnswer true AT_RESP_OK [] []; MkAnswer true AT_RESP_OK [[]; line] []]) with
  | Ret (r, _) => r = (RT_EOK, bytes "93.184.216.34" ++ [0; 0; 0])
  | Fault _ => False
  end.
Proof. vm_compute. done. Qed.

(** * Socket numbers in unsolicited lines *)

(** What the function of the "CONNECT OK" lines does with the number it reads. *)
Lemma urc_connect_ok {W} `{Modem W} s data (w : world W) :
  0 <= s < AT_DEVICE_A9G_SOCKETS_NUM → device_found w = true →
  (0 < length data)%nat → urc_socket data = Ret s → contains data (bytes "CONNECT OK") = true →
  urc_connect_func data w = Ret (tt, w <| socket_event :=
    (rt_event_send (socket_event w) (Z.lor (Z.shiftl (s + 1) 16) A9G_EVENT_CONN_OK)).1.2 |>).
Proof.
  intros Hs Hdev Hlen Hsock Hc. unfold urc_connect_func, rt_assert.
  decide_if (0 <? Z.of_nat (length data)) true.
  unfold mbind, io_bind, lift, gets. cbn [mret io_ret]. rewrite Hdev. cbn [negb].
  rewrite Hsock, Hc. unfold send_event. rewrite SET_EVENT_ok by done. done.
Qed.

(** The socket a line is about.  "s,CONNECT OK" is the success of socket [s]; the
    table also takes "CONNECT OK" without a number, which is the success of socket 0; and
    a line "CLOSED:..." tells the application that socket 0 was closed, whatever number
    follows: the scan expects the number at the start of the line. *)
Theorem urc_socket_numbers {W} `{Modem W} s t (w : world W) :
  0 <= s < AT_DEVICE_A9G_SOCKETS_NUM → device_found w = true →
  strstr (bytes "CLOSED:" ++ t) (bytes "CLOSE OK") = None →
  let success s := w <| socket_event :=
    (rt_event_send (socket_event w) (Z.lor (Z.shiftl (s + 1) 16) A9G_EVENT_CONN_OK)).1.2 |> in
  urc_connect_func (print_d s ++ bytes ",CONNECT OK" ++ CRLF) w = Ret (tt, success s) ∧
  urc_connect_func (bytes "CONNECT OK" ++ CRLF) w = Ret (tt, success 0) ∧
  urc_close_func (bytes "CLOSED:" ++ t) w = notify 0 AT_SOCKET_EVT_CLOSED None 0 w.
Proof.
  intros Hs Hdev Hclose success.
  assert (INT32_MIN <= s <= INT32_MAX) as Hs32
    by (unfold AT_DEVICE_A9G_SOCKETS_NUM, INT32_MIN, INT32_MAX in *; lia).
  split_and!.
  - set (data := print_d s ++ bytes ",CONNECT OK" ++ CRLF).
    apply (urc_connect_ok s data w Hs Hdev).
    + unfold data. rewrite !length_app. change (length CRLF) with 2%nat. lia.
    + unfold urc_socket, sscanf, data. rewrite scanf_int by done. reflexivity.
    + apply bool_decide_eq_true, not_eq_None_Some.
      replace data with ((print_d s ++ bytes ",") ++ bytes "CONNECT OK" ++ CRLF)
        by (unfold data; by rewrite <- app_assoc).
      apply strstr_found.
  - refine (urc_connect_ok 0 (bytes "CONNECT OK" ++ CRLF) w _ Hdev _ eq_refl eq_refl); [done|].
    apply Nat.ltb_lt. reflexivity.
  - unfold urc_close_func, rt_assert, mbind, io_bind, lift, gets.
    decide_if (0 <? Z.of_nat (length (bytes "CLOSED:" ++ t))) true. cbn [mret io_ret].
    rewrite Hdev. cbn [negb]. change (urc_socket (bytes "CLOSED:" ++ t)) with (Ret 0 : res Z).
    unfold contains. rewrite Hclose. rewrite bool_decide_eq_false_2 by (by intros [? ?]).
    rewrite bool_decide_eq_true_2; [done|]. apply not_eq_None_Some.
    apply (strstr_found [] (bytes "CLOSED") (bytes ":" ++ t)).
Qed.

Lemma urc_socket_numbers_witness :
  let w := receiver true in
  (0 <= 3 < AT_DEVICE_A9G_SOCKETS_NUM) ∧
  urc_close_func (bytes "CLOSED:" ++ bytes " 3") w = notify 0 AT_SOCKET_EVT_CLOSED None 0 w.
Proof.
  intros w. assert (0 <= 3 < AT_DEVICE_A9G_SOCKETS_NUM) as H1 by (split; [discriminate|reflexivity]).
  split; [exact H1|].
  exact (proj2 (proj2 (urc_socket_numbers 3 (bytes " 3") w H1 eq_refl eq_refl))).
Defined.
