(* ===== verification/AtParser.v ===== *)
(** The parser thread of the AT client (rt-thread/components/net/at/src/at_client.c:
    get_urc_obj, at_recv_readline, client_parser, at_obj_set_urc_table).

    The parser reads the serial line character by character, cuts it into lines, runs the
    function of the first URC entry a line matches, and stores every other line in the
    response a caller waits for.  A wait for a character that never comes is the fault
    [Blocked]; [fuel] bounds the characters of a line the model follows. *)

From S2P Require Import Prelude CLib Event AtClient AtSocket.

Definition AT_RESP_ERROR := -1.
Definition AT_RESP_BUFF_FULL := -3.
Definition AT_RESP_END_OK : cstr := bytes "OK".
Definition AT_RESP_END_ERROR : cstr := bytes "ERROR".
Definition AT_RESP_END_FAIL : cstr := bytes "FAIL".

(** The response a caller waits for, as the parser sees it: [mem] is what is stored of
    its buffer, [line_counts] lines each ended by a NUL. *)
Record pending : Type := MkPending {
  p_buf_size : Z;
  p_line_num : Z;
  line_counts : Z;
  mem : list Z }.
#[global] Instance pending_eta : Eta pending :=
  λ p, MkPending (p_buf_size p) (p_line_num p) (line_counts p) (mem p).

Definition buf_len (p : pending) : Z := Z.of_nat (length (mem p)).

(** The lines a caller finds by walking over the buffer from NUL to NUL. *)
Fixpoint walk (n : nat) (mem : list Z) : list cstr :=
  match n with
  | O => []
  | S n =>
      let l := take_while (λ c, negb (c =? NUL)) mem in
      l :: walk n (drop (S (length l)) mem)
  end.
Definition resp_lines (p : pending) : list cstr := walk (Z.to_nat (line_counts p)) (mem p).

(** The parser's part of the client: [resp], [resp_status] and how often [resp_notice]
    was released. *)
Record parser : Type := MkParser {
  resp : option pending;
  status : Z;
  notices_given : nat;
  delivered : option pending }.

Section parser.
Context {W : Type} `{Modem W}.

(** One entry of a URC table: prefix, suffix and function. *)
Definition at_urc : Type := cstr * cstr * option (cstr → io (world W) unit).

Definition matches (buffer : cstr) (u : at_urc) : bool :=
  let '(prefix, suffix, _) := u in
  if (length buffer <? length prefix + length suffix)%nat then false
  else is_prefix prefix buffer && is_prefix suffix (drop (length buffer - length suffix) buffer).

(** The tables in the order they were registered. *)
Definition get_urc_obj (tables : list (list at_urc)) (buffer : cstr) : option at_urc :=
  List.find (matches buffer) (concat tables).

(** The pointer to the tables is null ([None]) after a failed [rt_realloc], and the next
    registration copies from it. *)
Definition at_obj_set_urc_table (tables : option (list (list at_urc))) (table : list at_urc)
    : io (world W) (Z * option (list (list at_urc))) :=
  match tables with
  | None => io_fault NullDeref
  | Some [] =>
      ok ← rt_calloc 8;
      if ok : bool then mret (RT_EOK, Some [table]) else mret (- RT_ENOMEM, Some [])
  | Some tables =>
      ok ← rt_calloc (Z.of_nat (length tables) * 8);
      if negb ok then mret (- RT_ENOMEM, Some tables)
      else
        ok ← on_modem (rt_malloc (Z.of_nat (length tables) * 8 + 8));
        rt_free ;;
        if ok : bool then mret (RT_EOK, Some (tables ++ [table]))
        else mret (- RT_ENOMEM, None)
  end.

Variables (tables : list (list at_urc)) (recv_bufsz : Z).

(** Is the line read so far complete? *)
Definition line_end (ch last_ch es : Z) (buffer : cstr) : bool :=
  ((ch =? LF) && (last_ch =? CR)) || (negb (es =? 0) && (ch =? es)) ||
  bool_decide (is_Some (get_urc_obj tables buffer)).

(** [None]: the line did not fit the buffer and was dropped. *)
Fixpoint readline_loop (fuel : nat) (buffer : cstr) (last_ch : Z) (is_full : bool)
    : io (world W) (option cstr) :=
  match fuel with
  | O => io_fault Blocked
  | S fuel =>
      c ← on_modem (at_client_getchar RT_WAITING_FOREVER);
      match c with
      | None => io_fault Blocked
      | Some ch =>
          let '(buffer, is_full) :=
            if Z.of_nat (length buffer) <? recv_bufsz then (buffer ++ [ch], is_full)
            else (buffer, true) in
          es ← gets end_sign;
          if line_end ch last_ch es buffer then mret (if is_full : bool then None else Some buffer)
          else readline_loop fuel buffer ch is_full
      end
  end.
Definition at_recv_readline (fuel : nat) : io (world W) (option cstr) := readline_loop fuel [] 0 false.

(** A line of the response: stored if it fits, then the end of the response is decided. *)
Definition response_line (line : cstr) (p : pending) (st : parser) : parser :=
  let text := removelast line in
  let n := Z.of_nat (length line) in
  let '(p, st_full) :=
    if buf_len p + n <? p_buf_size p
    then (p <| mem := mem p ++ text ++ [NUL] |> <| line_counts := line_counts p + 1 |>, status st)
    else (p, AT_RESP_BUFF_FULL) in
  let finish s := MkParser None s (S (notices_given st)) (Some p) in
  if is_prefix AT_RESP_END_OK text && (p_line_num p =? 0) then finish AT_RESP_OK
  else if bool_decide (is_Some (strstr (take_while (λ c, negb (c =? NUL)) text) AT_RESP_END_ERROR))
          || is_prefix AT_RESP_END_FAIL text then finish AT_RESP_ERROR
  else if (line_counts p =? p_line_num p) && negb (p_line_num p =? 0) then finish AT_RESP_OK
  else MkParser (Some p) st_full (notices_given st) (delivered st).

(** One round of [client_parser]. *)
Definition client_parser (fuel : nat) (st : parser) : io (world W) parser :=
  r ← at_recv_readline fuel;
  match r with
  | None => mret st
  | Some line =>
      match get_urc_obj tables line with
      | Some (_, _, func) =>
          (match func with Some f => f line | None => mret tt end) ;; mret st
      | None =>
          match resp st with
          | Some p => mret (response_line line p st)
          | None => mret st
          end
      end
  end.

(** [n] rounds. *)
Fixpoint client_parser_rounds (n fuel : nat) (st : parser) : io (world W) parser :=
  match n with
  | O => mret st
  | S n => st ← client_parser fuel st; client_parser_rounds n fuel st
  end.
End parser.
