(* ===== verification/AtParserSpec.v ===== *)
(** Correctness of the parser thread: lines are cut where they end whatever precedes
    them, responses and URC lines are told apart, and what reaches the application of the
    data a modem sends. *)

From S2P Require Import Prelude CLib Event AtClient AtSocket AtSocketSpec AtEventSpec AtReceive AtParser.

(** * A serial line with its input *)

(** [input m]: the characters the modem has still to deliver. *)
Class Stream (W : Type) `{Modem W} : Type := {
  input : W → list Z;
  getchar_law : ∀ tmo m c s, input m = c :: s →
    ∃ m', at_client_getchar tmo m = (Some c, m') ∧ input m' = s;
  malloc_law : ∀ n m, input (rt_malloc n m).2 = input m }.

(** A modem that only delivers characters, with memory to spare. *)
Record feed : Type := Feed { feed_input : list Z }.
#[export] Instance feed_modem : Modem feed := {
  rt_malloc _ m := (true, m);
  rt_device_write t m := (Z.of_nat (length t), m);
  resp_notice _ m := (MkAnswer false 0 [] [], m);
  event_wait _ m := ([], m);
  at_client_getchar _ m := (hd_error (feed_input m), Feed (tl (feed_input m)));
  rt_delay _ m := m }.
#[export] Program Instance feed_stream : Stream feed := { input := feed_input }.
Next Obligation. intros tmo m c s E. cbn in *. eexists. by rewrite E. Qed.
Next Obligation. done. Qed.

Definition feed_world (cbs : list (option Z)) (l : list Z) : world feed :=
  MkWorld false 0 0 0 1 20 (MkEvent 0 [] RT_IPC_FLAG_FIFO) true cbs 0 [] [] (Feed l).

Section lines.
Context {W : Type} `{Stream W}.

Lemma stream_delivers tmo bs : ∀ s m,
  input m = bs ++ s → ∃ m', delivers tmo bs m m' ∧ input m' = s.
Proof.
  induction bs as [|b bs IH]; intros s m Hm; cbn [delivers]; [by exists m|].
  destruct (getchar_law tmo m b (bs ++ s) Hm) as (m1 & Hc & Hm1).
  destruct (IH s m1 Hm1) as (m' & ? & ?). eauto 6.
Qed.

Variables (tables : list (list (at_urc (W := W)))) (recv_bufsz : Z).

(** No beginning of [l] (after [buffer]) is a complete line, and all of it is. *)
Fixpoint frames (es : Z) (buffer : cstr) (last_ch : Z) (l : list Z) : bool :=
  match l with
  | [] => false
  | ch :: l =>
      if line_end tables ch last_ch es (buffer ++ [ch]) then bool_decide (l = [])
      else frames es (buffer ++ [ch]) ch l
  end.
Definition framed (es : Z) (line : list Z) : Prop := frames es [] 0 line = true.

Lemma readline_frames l : ∀ fuel buffer last_ch s (w : world W),
  frames (end_sign w) buffer last_ch l = true →
  Z.of_nat (length buffer + length l) <= recv_bufsz → (length l <= fuel)%nat →
  input (modem w) = l ++ s →
  ∃ m', readline_loop tables recv_bufsz fuel buffer last_ch false w =
      Ret (Some (buffer ++ l), w <| modem := m' |>) ∧ input m' = s.
Proof.
  induction l as [|ch l IH]; intros fuel buffer last_ch s w Hf Hl Hfu Hi; [done|].
  destruct fuel as [|fuel]; cbn [length] in *; [lia|]. cbn [frames] in Hf. cbn [readline_loop].
  destruct (getchar_law RT_WAITING_FOREVER (modem w) ch (l ++ s) Hi) as (m1 & Hc & Hm1).
  unfold mbind, io_bind, on_modem, gets. rewrite Hc. cbn [end_sign field_update].
  decide_if (Z.of_nat (length buffer) <? recv_bufsz) true.
  destruct (line_end tables ch last_ch (end_sign w) (buffer ++ [ch])) eqn:E.
  - apply bool_decide_eq_true in Hf as ->. exists m1. cbn. rewrite E. done.
  - cbn. rewrite E. destruct (IH fuel (buffer ++ [ch]) ch s (w <| modem := m1 |>)) as (m' & Hr & Hm');
      [done|rewrite length_app; cbn [length]; lia|lia|done|].
    exists m'. split; [|done]. etrans; [exact Hr|]. by rewrite <- app_assoc.
Qed.

Lemma readline_framed line fuel s (w : world W) :
  framed (end_sign w) line → Z.of_nat (length line) <= recv_bufsz → (length line <= fuel)%nat →
  input (modem w) = line ++ s →
  ∃ m', at_recv_readline tables recv_bufsz fuel w = Ret (Some line, w <| modem := m' |>) ∧
    input m' = s.
Proof. intros. by apply (readline_frames line fuel [] 0). Qed.

(** ** Lines longer than the buffer *)

(** [line] ends with its only line feed, does not fit the buffer, and nothing the buffer
    holds of it on the way is a URC line. *)
Definition long_line (line : list Z) : Prop :=
  ∃ body, line = body ++ CRLF ∧ (LF ∉ body) ∧ recv_bufsz < Z.of_nat (length line) ∧
    ∀ k, get_urc_obj tables (take k (take (Z.to_nat recv_bufsz) line)) = None.

Lemma readline_long line rest : ∀ seen fuel s (w : world W),
  long_line line → line = seen ++ rest → rest ≠ [] → 0 <= recv_bufsz → end_sign w = 0 →
  (length rest <= fuel)%nat → input (modem w) = rest ++ s →
  ∃ m', readline_loop tables recv_bufsz fuel (take (Z.to_nat recv_bufsz) seen) (List.last seen 0)
      (Nat.ltb (Z.to_nat recv_bufsz) (length seen)) w = Ret (None, w <| modem := m' |>) ∧ input m' = s.
Proof.
  induction rest as [|ch rest IH]; intros seen fuel s w Hlong Hline Hne Hb Hes Hfu Hi; [done|].
  destruct fuel as [|fuel]; cbn [length] in *; [lia|]. cbn [readline_loop].
  destruct (getchar_law RT_WAITING_FOREVER (modem w) ch (rest ++ s) Hi) as (m1 & Hc & Hm1).
  unfold mbind, io_bind, on_modem, gets. rewrite Hc. cbn [end_sign field_update].
  set (b := (if Z.of_nat (length (take (Z.to_nat recv_bufsz) seen)) <? recv_bufsz then _ else _)).
  assert (b = (take (Z.to_nat recv_bufsz) (seen ++ [ch]),
    (Z.to_nat recv_bufsz <? length (seen ++ [ch]))%nat)) as ->.
  { subst b. rewrite length_take, length_app. cbn [length]. case_if.
    - rewrite (firstn_all2 (n := Z.to_nat recv_bufsz) seen) by lia.
      rewrite firstn_all2 by (rewrite length_app; cbn; lia).
      f_equal. transitivity false; [|symmetry]; apply Nat.ltb_ge; lia.
    - rewrite take_app_le by lia. f_equal. symmetry. apply Nat.ltb_lt. lia. }
  destruct Hlong as (body & Hbody & Hlf & Hlen & Hurc).
  assert (get_urc_obj tables (take (Z.to_nat recv_bufsz) (seen ++ [ch])) = None) as Hn.
  { specialize (Hurc (length (seen ++ [ch]))). rewrite take_take, Nat.min_comm, <- take_take in Hurc.
    replace line with ((seen ++ [ch]) ++ rest) in Hurc by (by rewrite Hline, <- app_assoc).
    by rewrite take_app_length in Hurc. }
  unfold line_end. rewrite Hn. cbn [end_sign field_update]. rewrite Hes. cbn [Z.eqb negb andb].
  rewrite orb_false_r. rewrite orb_false_r.
  destruct rest as [|c2 rest].
  - assert (ch = LF ∧ List.last seen 0 = CR) as [-> ->].
    { rewrite Hbody in Hline. change CRLF with ([CR] ++ [LF]) in Hline. rewrite app_assoc in Hline.
      apply app_inj_tail in Hline as [<- <-]. split; [done|]. by rewrite List.last_last. }
    assert (Nat.ltb (Z.to_nat recv_bufsz) (length (seen ++ [LF])) = true) as ->
      by (apply Nat.ltb_lt; rewrite Hline in Hlen; lia).
    by exists m1.
  - assert (ch ≠ LF) as Hch.
    { intros ->. rewrite Hbody in Hline.
      destruct (exists_last (l := c2 :: rest)) as (r' & z & Hr'); [done|]. rewrite Hr' in Hline.
      change CRLF with ([CR] ++ [LF]) in Hline. rewrite app_assoc, (app_comm_cons r'), app_assoc in Hline.
      apply app_inj_tail in Hline as [E _].
      assert (LF ∈ body ++ [CR]) as Hin by (rewrite E, elem_of_app, elem_of_cons; auto).
      apply elem_of_app in Hin as [?|Hin%list_elem_of_singleton]; done. }
    decide_if (ch =? LF) false. cbn [andb bool_decide].
    destruct (IH (seen ++ [ch]) fuel s (w <| modem := m1 |>)) as (m' & Hr & Hm'); try done.
    { by exists body. } { by rewrite <- app_assoc. } { cbn [length] in *. lia. }
    exists m'. split; [|done]. rewrite List.last_last in Hr. exact Hr.
Qed.

Lemma readline_dropped line fuel s (w : world W) :
  long_line line → 0 <= recv_bufsz → end_sign w = 0 → (length line <= fuel)%nat →
  input (modem w) = line ++ s →
  ∃ m', at_recv_readline tables recv_bufsz fuel w = Ret (None, w <| modem := m' |>) ∧ input m' = s.
Proof.
  intros Hl Hb He Hf Hi. pose proof (readline_long line line [] fuel s w Hl eq_refl) as Hr.
  unfold at_recv_readline. rewrite firstn_nil in Hr. cbn [List.last length] in Hr.
  rewrite (proj2 (Nat.ltb_ge _ 0)) in Hr by lia. apply Hr; try done.
  destruct Hl as (body & -> & _). by destruct body.
Qed.
(** ** Responses and URC lines *)

(** A line that belongs to the response and does not end it. *)
Definition text_line (line : list Z) : Prop :=
  let text := removelast line in
  get_urc_obj tables line = None ∧ Forall (λ c, c ≠ NUL) text ∧
  is_prefix AT_RESP_END_OK text = false ∧ strstr text AT_RESP_END_ERROR = None ∧
  is_prefix AT_RESP_END_FAIL text = false.

(** The last line of a response. *)
Definition ok_line (line : list Z) : Prop :=
  let text := removelast line in
  get_urc_obj tables line = None ∧ Forall (λ c, c ≠ NUL) text ∧
  is_prefix AT_RESP_END_OK text = true.

(** A URC function that does not touch the modem. *)
Definition aside (f : io (world W) unit) : Prop :=
  ∀ w w' m, f w = Ret (tt, w') →
    f (w <| modem := m |>) = Ret (tt, w' <| modem := m |>) ∧ end_sign w' = end_sign w.

(** [traffic es ls ts cs]: of the lines [ls], those of the response are [ts] without their
    line feed, and the others call the URC functions [cs], each on its line. *)
Inductive traffic (es : Z) : list (list Z) → list cstr → list (io (world W) unit) → Prop :=
  | no_traffic : traffic es [] [] []
  | traffic_text l ls ts cs :
      framed es l → Z.of_nat (length l) <= recv_bufsz → text_line l →
      traffic es ls ts cs → traffic es (l :: ls) (removelast l :: ts) cs
  | traffic_urc l p s f ls ts cs :
      framed es l → Z.of_nat (length l) <= recv_bufsz →
      get_urc_obj tables l = Some (p, s, Some f) → aside (f l) →
      traffic es ls ts cs → traffic es (l :: ls) ts (f l :: cs).

(** What a response of the lines [ts] takes of its buffer. *)
Definition stored (ts : list cstr) : list Z := concat ((λ t, t ++ [NUL]) <$> ts).

Lemma walk_stored ts :
  Forall (Forall (λ c, c ≠ NUL)) ts → walk (length ts) (stored ts) = ts.
Proof.
  induction 1 as [|t ts Ht _ IH]; [done|]. cbn [length walk].
  change (stored (t :: ts)) with ((t ++ [NUL]) ++ stored ts). rewrite <- app_assoc.
  rewrite take_while_app; [| |done].
  - f_equal. replace (S (length t)) with (length (t ++ [NUL])) by (rewrite length_app; cbn; lia).
    by rewrite app_assoc, drop_app_length.
  - eapply Forall_impl; [exact Ht|]. cbn. intros c Hc. by decide_if (c =? NUL) false.
Qed.

Lemma take_while_all (f : Z → bool) l : Forall (λ c, f c = true) l → take_while f l = l.
Proof. intros Hl. rewrite <- (app_nil_r l) at 1. by apply take_while_app. Qed.

Lemma cut_text text :
  Forall (λ c, c ≠ NUL) text → take_while (λ c, negb (c =? NUL)) text = text.
Proof.
  intros Ht. apply take_while_all. eapply Forall_impl; [exact Ht|]. cbn. intros c Hc.
  by decide_if (c =? NUL) false.
Qed.

Lemma length_stored l : l ≠ [] → length (removelast l ++ [NUL]) = length l.
Proof.
  intros Hl. rewrite removelast_firstn_len, length_app, length_firstn. destruct l; [done|]. cbn. lia.
Qed.

(** The response so far: all lines stored, asked for with "OK" as its end. *)
Definition holds (p : pending) (ts : list cstr) (size : Z) : Prop :=
  p_line_num p = 0 ∧ line_counts p = Z.of_nat (length ts) ∧ mem p = stored ts ∧ p_buf_size p = size.

Lemma store_line p ts size l :
  holds p ts size → l ≠ [] → Z.of_nat (length (stored ts)) + Z.of_nat (length l) < size →
  (buf_len p + Z.of_nat (length l) <? p_buf_size p) = true ∧
  holds (p <| mem := mem p ++ removelast l ++ [NUL] |> <| line_counts := line_counts p + 1 |>)
    (ts ++ [removelast l]) size.
Proof.
  intros (H1 & H2 & H3 & H4) Hl Hf. unfold buf_len. rewrite H3, H4. split; [apply Z.ltb_lt; lia|].
  split_and!; cbn; [done|rewrite length_app; cbn; lia| |done].
  unfold stored. rewrite fmap_app, concat_app. cbn. by rewrite app_nil_r.
Qed.

Lemma framed_nonempty es l : framed es l → l ≠ [].
Proof. by intros Hf ->. Qed.

Lemma text_round l ts size p st fuel s (w : world W) :
  framed (end_sign w) l → Z.of_nat (length l) <= recv_bufsz → text_line l →
  resp st = Some p → holds p ts size →
  Z.of_nat (length (stored ts)) + Z.of_nat (length l) < size →
  (length l <= fuel)%nat → input (modem w) = l ++ s →
  ∃ m' p', client_parser tables recv_bufsz fuel st w =
      Ret (MkParser (Some p') (status st) (notices_given st) (delivered st), w <| modem := m' |>) ∧
    input m' = s ∧ holds p' (ts ++ [removelast l]) size.
Proof.
  intros Hf Hl (Hu & Hn & Ho & He & Hx) Hr Hp Hs Hfu Hi.
  destruct (readline_framed l fuel s w Hf Hl Hfu Hi) as (m' & Hrd & Hm').
  destruct (store_line p ts size l Hp (framed_nonempty _ _ Hf) Hs) as [Hfit Hp'].
  unfold client_parser, mbind, io_bind. rewrite Hrd, Hu, Hr.
  exists m'. eexists. split; [|split; [exact Hm'|exact Hp']].
  unfold response_line. rewrite Hfit, Ho, Hx, (cut_text _ Hn), He. cbn [andb orb].
  destruct Hp' as (Hz & _). rewrite Hz. cbn. by rewrite andb_false_r.
Qed.

Lemma ok_round l ts size p st fuel s (w : world W) :
  framed (end_sign w) l → Z.of_nat (length l) <= recv_bufsz → ok_line l →
  resp st = Some p → holds p ts size →
  Z.of_nat (length (stored ts)) + Z.of_nat (length l) < size →
  (length l <= fuel)%nat → input (modem w) = l ++ s →
  ∃ m' p', client_parser tables recv_bufsz fuel st w =
      Ret (MkParser None AT_RESP_OK (S (notices_given st)) (Some p'), w <| modem := m' |>) ∧
    input m' = s ∧ holds p' (ts ++ [removelast l]) size.
Proof.
  intros Hf Hl (Hu & Hn & Ho) Hr Hp Hs Hfu Hi.
  destruct (readline_framed l fuel s w Hf Hl Hfu Hi) as (m' & Hrd & Hm').
  destruct (store_line p ts size l Hp (framed_nonempty _ _ Hf) Hs) as [Hfit Hp'].
  unfold client_parser, mbind, io_bind. rewrite Hrd, Hu, Hr.
  exists m'. eexists. split; [|split; [exact Hm'|exact Hp']].
  unfold response_line. rewrite Hfit, Ho. destruct Hp' as (Hz & _). by rewrite Hz.
Qed.
Lemma seq_aside cs : ∀ (w w1 : world W) m,
  Forall aside cs → seq_ cs w = Ret (tt, w1) → seq_ cs (w <| modem := m |>) = Ret (tt, w1 <| modem := m |>).
Proof.
  induction cs as [|c cs IH]; intros w w1 m Hc Hs.
  - by injection Hs as <-.
  - apply Forall_cons in Hc as [Hc Hcs]. cbn [seq_] in *. unfold mbind, io_bind in *.
    destruct (c w) as [[[] w2]|] eqn:E; [|done]. destruct (Hc w w2 m E) as [-> _]. by apply IH.
Qed.

Lemma traffic_aside es ls ts cs : traffic es ls ts cs → Forall aside cs.
Proof. induction 1; by constructor || done. Qed.

Lemma stored_app ts us : stored (ts ++ us) = stored ts ++ stored us.
Proof. unfold stored. by rewrite fmap_app, concat_app. Qed.

Lemma rounds_traffic es fin size fuel s ls ts cs :
  traffic es ls ts cs → framed es fin → Z.of_nat (length fin) <= recv_bufsz → ok_line fin →
  Forall (λ l, length l <= fuel)%nat (fin :: ls) →
  ∀ ts0 p st (w w1 : world W), es = end_sign w → resp st = Some p → holds p ts0 size →
  Z.of_nat (length (stored (ts0 ++ ts)) + length fin) < size →
  seq_ cs w = Ret (tt, w1) → input (modem w) = concat ls ++ fin ++ s →
  ∃ m' p', client_parser_rounds tables recv_bufsz (length ls + 1) fuel st w =
      Ret (MkParser None AT_RESP_OK (S (notices_given st)) (Some p'), w1 <| modem := m' |>) ∧
    input m' = s ∧ holds p' (ts0 ++ ts ++ [removelast fin]) size.
Proof.
  intros Ht Hff Hfl Hok Hfu. apply Forall_cons in Hfu as [Hfin Hfu].
  induction Ht as [|l ls ts cs Hf Hl Htx Ht IH|l pre suf f ls ts cs Hf Hl Hu Ha Ht IH];
    intros ts0 p st w w1 Hes Hr Hp Hsz Hseq Hi; subst es.
  - injection Hseq as <-. rewrite app_nil_r in Hsz.
    destruct (ok_round fin ts0 size p st fuel s w) as (m' & p' & Hc & Hm' & Hp'); try done; [lia|].
    exists m', p'. split; [|done]. cbn [length Nat.add client_parser_rounds].
    unfold mbind, io_bind. by rewrite Hc.
  - apply Forall_cons in Hfu as [Hlf Hfu]. cbn [concat] in Hi. rewrite <- app_assoc in Hi.
    assert (length (stored (ts0 ++ removelast l :: ts)) =
      length (stored ts0) + length l + length (stored ts))%nat as Hlen.
    { rewrite cons_middle, !stored_app, !length_app. unfold stored at 2. cbn.
      rewrite app_nil_r, (length_stored l (framed_nonempty _ _ Hf)). lia. }
    destruct (text_round l ts0 size p st fuel (concat ls ++ fin ++ s) w)
      as (m1 & p1 & Hc & Hm1 & Hp1); try done; [lia|].
    destruct (IH Hfu (ts0 ++ [removelast l]) p1
      (MkParser (Some p1) (status st) (notices_given st) (delivered st)) (w <| modem := m1 |>)
      (w1 <| modem := m1 |>)) as (m' & p' & Hc' & Hm' & Hp'); try done.
    { rewrite <- app_assoc. done. }
    { apply seq_aside; [by eapply traffic_aside|done]. }
    exists m', p'. split; [|split; [done|by rewrite <- app_assoc in Hp']].
    cbn [length Nat.add client_parser_rounds]. unfold mbind, io_bind. by rewrite Hc.
  - apply Forall_cons in Hfu as [Hlf Hfu]. cbn [concat] in Hi. rewrite <- app_assoc in Hi.
    destruct (readline_framed l fuel (concat ls ++ fin ++ s) w Hf Hl Hlf Hi) as (m1 & Hrd & Hm1).
    cbn [seq_] in Hseq. unfold mbind, io_bind in Hseq.
    destruct (f l w) as [[[] w2]|] eqn:E; [|done]. destruct (Ha w w2 m1 E) as [Hfm Hes].
    destruct (IH Hfu ts0 p st (w2 <| modem := m1 |>) (w1 <| modem := m1 |>))
      as (m' & p' & Hc' & Hm' & Hp'); try done.
    { apply seq_aside; [by eapply traffic_aside|done]. }
    exists m', p'. split; [|done].
    cbn [length Nat.add client_parser_rounds]. unfold client_parser at 1, mbind, io_bind.
    by rewrite Hrd, Hu, Hfm.
Qed.
End lines.

(** C4. Responses and unsolicited lines.  While a caller waits for a response, the modem
    sends the lines of the response mixed with URC lines, and last one that starts with
    OK.  If the response fits its buffer, the caller gets exactly the lines of the
    response, in order, with the status OK and one notice; every URC function has run on
    its line, in order; and the input after the last line is untouched. *)
Theorem client_parser_demultiplexes {W} `{Stream W} tables bufsz fuel size ls ts cs fin s st
    (w w1 : world W) :
  traffic tables bufsz (end_sign w) ls ts cs →
  framed tables (end_sign w) fin → Z.of_nat (length fin) <= bufsz → ok_line tables fin →
  Forall (λ l, length l <= fuel)%nat (fin :: ls) →
  Forall (Forall (λ c, c ≠ NUL)) ts →
  resp st = Some (MkPending size 0 0 []) →
  Z.of_nat (length (stored ts) + length fin) < size →
  input (modem w) = concat ls ++ fin ++ s → seq_ cs w = Ret (tt, w1) →
  ∃ m' p', client_parser_rounds tables bufsz (length ls + 1) fuel st w =
      Ret (MkParser None AT_RESP_OK (S (notices_given st)) (Some p'), w1 <| modem := m' |>) ∧
    input m' = s ∧ resp_lines p' = ts ++ [removelast fin].
Proof.
  intros Ht Hf Hl Hok Hfu Hnul Hr Hsz Hi Hseq.
  destruct (rounds_traffic tables bufsz _ fin size fuel s ls ts cs Ht Hf Hl Hok Hfu [] _ st w w1
    eq_refl Hr) as (m' & p' & Hc & Hm' & (_ & Hcnt & Hmem & _)); try done.
  exists m', p'. split_and!; [done|done|]. unfold resp_lines. rewrite Hcnt, Hmem, Nat2Z.id.
  apply walk_stored. apply Forall_app. split; [done|]. destruct Hok as (_ & ? & _). by constructor.
Qed.

(** * The lines of the modem driver *)

(** Tables whose suffixes end with a line feed match nothing without one. *)
Definition ends_lf (suffix : cstr) : Prop := ∃ u, suffix = u ++ [LF].

Section driver.
Context {W : Type} `{Stream W}.

Lemma no_urc (tables : list (list (at_urc (W := W)))) buffer :
  Forall (λ u, ends_lf u.1.2) (concat tables) → LF ∉ buffer → get_urc_obj tables buffer = None.
Proof.
  unfold get_urc_obj. intros Ht Hb. induction Ht as [|[[p s] f] us [u Hu] _ IH]; [done|].
  cbn [List.find]. replace (matches buffer (p, s, f)) with false; [done|]. symmetry.
  unfold matches. case_if; [done|]. apply andb_false_iff. right.
  destruct (is_prefix s _) eqn:Es; [|done]. exfalso. apply Hb.
  apply is_prefix_spec in Es as [t Es]. cbn in Hu. subst s.
  rewrite <- (take_drop (length buffer - length (u ++ [LF])) buffer), Es.
  rewrite !elem_of_app, elem_of_cons. auto.
Qed.

(** Lines that end with their only line feed are read as such. *)
Lemma framed_line (tables : list (list (at_urc (W := W)))) body :
  Forall (λ u, ends_lf u.1.2) (concat tables) → LF ∉ body → framed tables 0 (body ++ CRLF).
Proof.
  intros Ht. unfold framed.
  assert (∀ l buffer last, LF ∉ buffer → LF ∉ l →
    frames tables 0 buffer last (l ++ CRLF) = true) as Hgen; [|intros Hb; apply (Hgen body [] 0); [apply not_elem_of_nil|done]].
  induction l as [|c l IH]; intros buffer last Hb Hl.
  - unfold CRLF. cbn [app frames]. unfold line_end at 1. change (CR =? LF) with false.
    rewrite no_urc; [|done|].
    2:{ rewrite elem_of_app, list_elem_of_singleton. intros [Hx|Hx]; [done|discriminate Hx]. }
    done.
  - apply not_elem_of_cons in Hl as [Hc Hl]. cbn [app frames]. unfold line_end.
    decide_if (c =? LF) false.
    rewrite no_urc; [|done|].
    2:{ rewrite elem_of_app, list_elem_of_singleton. by intros [?|?]. }
    cbn [andb orb negb Z.eqb]. apply IH; [|done].
    rewrite elem_of_app, list_elem_of_singleton. by intros [?|?].
Qed.

Lemma urc_table_lf : Forall (λ u, ends_lf u.1.2) (concat [urc_table (W := W)]).
Proof.
  cbn [concat urc_table]. repeat constructor; cbn [fst snd]; unfold ends_lf, CRLF.
  - exists (bytes "CONNECT OK" ++ [CR]). done.
  - exists (bytes ",CONNECT FAIL" ++ [CR]). done.
  - exists (bytes ",SEND FAIL" ++ [CR]). done.
  - by exists [CR].
  - by exists [CR].
Qed.
(** Which function the driver's table gives a line of received data. *)
Definition ends_with (line suffix : cstr) : bool :=
  is_prefix suffix (drop (length line - length suffix) line).

Definition plain_data (line : cstr) : Prop :=
  ends_with line (bytes "CONNECT OK" ++ CRLF) = false ∧
  ends_with line (bytes ",CONNECT FAIL" ++ CRLF) = false ∧
  ends_with line (bytes ",SEND FAIL" ++ CRLF) = false.

Lemma matches_no_prefix suffix (f : option (cstr → io (world W) unit)) line :
  ends_with line suffix = false → matches line ([], suffix, f) = false.
Proof. unfold matches, ends_with. intros ->. by case_if. Qed.

Lemma rcv_line_urc s n held :
  plain_data (rcv_line s n held) →
  get_urc_obj [urc_table (W := W)] (rcv_line s n held) =
    Some (bytes "+CIPRCV,", CRLF, Some urc_recv_func).
Proof.
  intros (H1 & H2 & H3). unfold get_urc_obj, urc_table. cbn [concat app List.find].
  rewrite !matches_no_prefix by done.
  assert (matches (rcv_line s n held) (bytes "CLOSED:", CRLF, Some (urc_close_func (W := W))) = false) as ->.
  { unfold matches. case_if; [done|]. apply andb_false_iff. left. done. }
  assert (matches (rcv_line s n held) (bytes "+CIPRCV,", CRLF, Some (urc_recv_func (W := W))) = true) as ->;
    [|done].
  unfold matches. rewrite (proj2 (Nat.ltb_ge _ _)).
  - apply andb_true_iff. split.
    + unfold rcv_line. apply is_prefix_app.
    + unfold rcv_line. rewrite !app_assoc. rewrite length_app, Nat.add_sub, drop_app_length.
      done.
  - unfold rcv_line. rewrite !length_app. cbn. lia.
Qed.
Lemma print_d_no_lf z : INT32_MIN <= z <= INT32_MAX → LF ∉ print_d z.
Proof.
  intros Hz. destruct (print_d_spec z Hz) as (ds & -> & _ & Hds & _).
  rewrite elem_of_app. intros [Hin|Hin].
  - destruct (z <? 0); [|by apply elem_of_nil in Hin].
    apply list_elem_of_singleton in Hin. discriminate Hin.
  - rewrite Forall_forall in Hds. by specialize (Hds _ Hin).
Qed.

(** One round of the parser on a line of received data and what the modem sends after it. *)
Lemma rcv_round bufsz fuel st s n a b rest f (w : world W) :
  0 <= s < AT_DEVICE_A9G_SOCKETS_NUM → 0 < n <= INT32_MAX → LF ∉ a →
  plain_data (rcv_line s n a) → Z.of_nat (length (rcv_line s n a)) <= bufsz →
  (length (rcv_line s n a) <= fuel)%nat → Z.of_nat (length a + length b) = n →
  end_sign w = 0 → device_found w = true → at_evt_cb_set w !! 0%nat = Some (Some f) →
  (∀ k m, (rt_malloc k m).1 = true) → input (modem w) = rcv_line s n a ++ b ++ rest →
  ∃ w', client_parser [urc_table] bufsz fuel st w = Ret (st, w') ∧ input (modem w') = rest ∧
    notices w' = notices w ++ [MkNotified f s AT_SOCKET_EVT_RECV (Some (a ++ b)) n].
Proof.
  intros Hs Hn Ha Hpl Hfit Hfu Hlen Hes Hdev Hcb Hm Hi.
  assert (INT32_MIN <= s <= INT32_MAX) as Hs32
    by (unfold AT_DEVICE_A9G_SOCKETS_NUM, INT32_MIN, INT32_MAX in *; lia).
  assert (INT32_MIN <= n <= INT32_MAX) as Hn32 by (unfold INT32_MIN in *; lia).
  assert (framed [urc_table (W := W)] (end_sign w) (rcv_line s n a)) as Hf.
  { rewrite Hes. unfold rcv_line. rewrite !app_assoc. apply framed_line; [apply urc_table_lf|].
    rewrite !elem_of_app. pose proof (print_d_no_lf s Hs32). pose proof (print_d_no_lf n Hn32).
    intros [[[[[Hin|?]|Hin]|?]|Hin]|?]; [|done| |done| |done];
      repeat (apply elem_of_cons in Hin as [Hin|Hin]; [discriminate Hin|]);
      by apply elem_of_nil in Hin. }
  destruct (readline_framed _ bufsz _ fuel (b ++ rest) w Hf Hfit Hfu Hi) as (m1 & Hr & Hm1).
  unfold client_parser, mbind, io_bind. rewrite Hr, rcv_line_urc by done.
  set (w1 := w <| modem := m1 |>).
  destruct (stream_delivers n b rest (rt_malloc n (modem w1)).2) as (m' & Hd & Hm').
  { by rewrite malloc_law. }
  destruct (urc_recv_serves s n a b f w1 m' Hs Hn) as [Hserve _]; try done; [lia|].
  destruct (Hserve Hlen Hd) as (w' & -> & Hw' & Hnot). rewrite Hm in Hnot.
  destruct Hnot as [Hnot _]. exists w'. split_and!; [done|congruence|done].
Qed.
End driver.

(** C18. Received data, from the serial line to the application.  The modem sends the header
    of [n] bytes for socket [s], the [n] bytes and a line end.  When the bytes hold no line
    feed, the callback gets exactly them; when they hold a line end, that line end is lost
    and the one after the data comes in its place, at the end: for [a], a line end and [b]
    the application gets [a], [b] and a line end.  Either way everything sent is consumed.
    (The bytes before the line end must not end like one of the driver's URC lines.) *)
Theorem received_payload {W} `{Stream W} bufsz fuel st s n a b rest f (w : world W) :
  0 <= s < AT_DEVICE_A9G_SOCKETS_NUM → 0 < n <= INT32_MAX → LF ∉ a →
  plain_data (rcv_line s n a) → Z.of_nat (length (rcv_line s n a)) <= bufsz →
  (length (rcv_line s n a) <= fuel)%nat →
  end_sign w = 0 → device_found w = true → at_evt_cb_set w !! 0%nat = Some (Some f) →
  (∀ k m, (rt_malloc k m).1 = true) →
  let header := bytes "+CIPRCV," ++ print_d s ++ [44] ++ print_d n ++ [58] in
  let gets data := ∃ w', client_parser [urc_table] bufsz fuel st w = Ret (st, w') ∧
    input (modem w') = rest ∧
    notices w' = notices w ++ [MkNotified f s AT_SOCKET_EVT_RECV (Some data) n] in
  (n = Z.of_nat (length a) → input (modem w) = header ++ a ++ CRLF ++ rest → gets a) ∧
  (n = Z.of_nat (length (a ++ CRLF ++ b)) →
   input (modem w) = header ++ (a ++ CRLF ++ b) ++ CRLF ++ rest → gets (a ++ b ++ CRLF)).
Proof.
  intros Hs Hn Ha Hpl Hfit Hfu Hes Hdev Hcb Hm header got. split; intros Hlen Hi; unfold got.
  - pose proof (rcv_round bufsz fuel st s n a [] rest f w) as Hr. rewrite app_nil_r in Hr.
    apply Hr; try done; [cbn; lia|].
    rewrite Hi. unfold header, rcv_line. by rewrite <- !app_assoc.
  - apply (rcv_round bufsz fuel st s n a (b ++ CRLF) rest f w); try done.
    + rewrite Hlen, !length_app. cbn. lia.
    + rewrite Hi. unfold header, rcv_line. by rewrite <- !app_assoc.
Qed.

Lemma received_payload_witness :
  let line := bytes "+CIPRCV,1,8:" in
  let input1 := line ++ (bytes "ab" ++ CRLF ++ bytes "cdef") ++ CRLF ++ bytes "next" in
  let w := feed_world [Some 7; None] input1 in
  ∃ w', client_parser [urc_table] 512 100 (MkParser None 0 0 None) w = Ret (MkParser None 0 0 None, w') ∧
    input (modem w') = bytes "next" ∧
    notices w' = [MkNotified 7 1 0 (Some (bytes "ab" ++ bytes "cdef" ++ CRLF)) 8].
Proof.
  intros line input1 w.
  assert (0 <= 1 < AT_DEVICE_A9G_SOCKETS_NUM) as H1 by (split; [discriminate|reflexivity]).
  assert (0 < 8 <= INT32_MAX) as H2 by (split; [reflexivity|discriminate]).
  assert (LF ∉ bytes "ab") as H3 by (vm_compute; intros Hin; repeat (apply elem_of_cons in Hin
    as [Hin|Hin]; [discriminate Hin|]); by apply elem_of_nil in Hin).
  assert (plain_data (rcv_line 1 8 (bytes "ab"))) as H4 by (vm_compute; done).
  assert (Z.of_nat (length (rcv_line 1 8 (bytes "ab"))) <= 512) as H5 by (vm_compute; discriminate).
  assert (length (rcv_line 1 8 (bytes "ab")) <= 100)%nat as H6 by (vm_compute; lia).
  assert (∀ k (m : feed), (rt_malloc k m).1 = true) as H7 by done.
  destruct (received_payload 512 100 (MkParser None 0 0 None) 1 8 (bytes "ab") (bytes "cdef")
    (bytes "next") 7 w H1 H2 H3 H4 H5 H6 eq_refl eq_refl eq_refl H7) as [_ Hgets].
  exact (Hgets eq_refl eq_refl).
Defined.

(** Overlong lines.  A line that does not fit the receive buffer is read to its end and
    dropped whole: no URC function runs, the response of a waiting caller and its status
    stay as they are, and the parser goes on with the line after it. *)
Theorem long_line_dropped {W} `{Stream W} (tables : list (list (at_urc (W := W)))) bufsz fuel st
    line s (w : world W) :
  long_line tables bufsz line → 0 <= bufsz → end_sign w = 0 → (length line <= fuel)%nat →
  input (modem w) = line ++ s →
  ∃ m', client_parser tables bufsz fuel st w = Ret (st, w <| modem := m' |>) ∧ input m' = s.
Proof.
  intros Hl Hb He Hf Hi. destruct (readline_dropped tables bufsz line fuel s w Hl Hb He Hf Hi)
    as (m' & Hr & Hm'). exists m'. unfold client_parser, mbind, io_bind. by rewrite Hr.
Qed.

Lemma long_line_dropped_witness :
  let line := bytes "CLOSED: 1234567890" ++ CRLF in
  let w := feed_world [None; Some 3] (line ++ bytes "OK") in
  ∃ m', client_parser [urc_table] 16 100 (MkParser None 0 0 None) w =
      Ret (MkParser None 0 0 None, w <| modem := m' |>) ∧ input m' = bytes "OK".
Proof.
  intros line w.
  assert (long_line [urc_table (W := feed)] 16 line) as H1.
  { exists (bytes "CLOSED: 1234567890"). split; [done|]. split.
    { vm_compute. intros Hin. repeat (apply elem_of_cons in Hin as [Hin|Hin]; [discriminate Hin|]).
      by apply elem_of_nil in Hin. }
    split; [reflexivity|]. intros k. apply no_urc; [apply urc_table_lf|].
    intros Hin%elem_of_take. destruct Hin as (i & Hi & _). vm_compute in Hi.
    do 16 (destruct i as [|i]; [discriminate Hi|]). discriminate Hi. }
  assert (0 <= 16) as H2 by discriminate.
  assert (length line <= 100)%nat as H3 by (vm_compute; lia).
  exact (long_line_dropped [urc_table] 16 100 (MkParser None 0 0 None) line (bytes "OK") w
    H1 H2 eq_refl H3 eq_refl).
Defined.

(** * Socket numbers in unsolicited lines *)

Section aside.
Context {W : Type} `{Modem W}.

Lemma aside_send s e : aside (W := W) (send_event s e).
Proof.
  intros w w' m. unfold send_event, a9g_socket_event_send, mbind, io_bind, lift, gets, modify.
  destruct (SET_EVENT s e) as [v|]; [|done]. cbn. intros [= <-]. done.
Qed.

Lemma aside_notify s e b n : aside (W := W) (notify s e b n).
Proof.
  intros w w' m. unfold notify, mbind, io_bind, gets. cbn.
  destruct (at_evt_cb_set w !! Z.to_nat e) as [[f|]|]; cbn; by intros [= <-].
Qed.

(** The URC functions for closed and connected sockets leave the modem alone. *)
Lemma aside_close line : aside (W := W) (urc_close_func line).
Proof.
  intros w w' m. unfold urc_close_func, rt_assert, mbind, io_bind, gets, lift.
  case_if; [|done]. cbn [mret io_ret device_found field_update].
  destruct (device_found w); cbn [negb]; [|by intros [= <-]].
  destruct (urc_socket line) as [s|]; [|done]. case_if; [apply aside_send|].
  case_if; [|by intros [= <-]]. destruct (socket_at s); [|done]. apply aside_notify.
Qed.

Lemma aside_connect line : aside (W := W) (urc_connect_func line).
Proof.
  intros w w' m. unfold urc_connect_func, rt_assert, mbind, io_bind, gets, lift.
  case_if; [|done]. cbn [mret io_ret device_found field_update].
  destruct (device_found w); cbn [negb]; [|by intros [= <-]].
  destruct (urc_socket line) as [s|]; [|done]. case_if; [apply aside_send|].
  case_if; [apply aside_send|by intros [= <-]].
Qed.
End aside.

Lemma client_parser_demultiplexes_witness :
  let ls := [bytes "+CSQ: 20,0" ++ CRLF; bytes "CLOSED: 1" ++ CRLF] in
  let ts := [bytes "+CSQ: 20,0" ++ [CR]] in
  let fin := bytes "OK" ++ CRLF in
  let w := feed_world [None; Some 3] (concat ls ++ fin ++ bytes "next") in
  let st := MkParser (Some (MkPending 64 0 0 [])) 0 0 None in
  ∃ m' p' w1, client_parser_rounds [urc_table] 512 3 100 st w =
      Ret (MkParser None AT_RESP_OK 1 (Some p'), w1 <| modem := m' |>) ∧
    input m' = bytes "next" ∧ resp_lines p' = ts ++ [bytes "OK" ++ [CR]] ∧
    notices w1 = [MkNotified 3 0 AT_SOCKET_EVT_CLOSED None 0].
Proof.
  intros ls ts fin w st.
  assert (traffic [urc_table (W := feed)] 512 0 ls ts [urc_close_func (bytes "CLOSED: 1" ++ CRLF)]) as H1.
  { apply (traffic_text _ _ _ (bytes "+CSQ: 20,0" ++ CRLF)); [reflexivity|discriminate| |].
    - vm_compute. split; [done|]. split; [|done]. repeat constructor; discriminate.
    - apply (traffic_urc _ _ _ (bytes "CLOSED: 1" ++ CRLF) (bytes "CLOSED:") CRLF urc_close_func);
        [reflexivity|discriminate|reflexivity|apply aside_close|constructor]. }
  assert (ok_line [urc_table (W := feed)] fin) as H2.
  { vm_compute. split; [done|]. split; [|done]. repeat constructor; discriminate. }
  assert (Forall (λ l, length l <= 100)%nat (fin :: ls)) as H3 by (repeat constructor; vm_compute; lia).
  assert (Forall (Forall (λ c, c ≠ NUL)) ts) as H4 by (repeat constructor; discriminate).
  assert (Z.of_nat (length fin) <= 512) as H5 by discriminate.
  assert (Z.of_nat (length (stored ts) + length fin) < 64) as H6 by reflexivity.
  assert (input (modem w) = concat ls ++ fin ++ bytes "next") as H7 by reflexivity.
  set (w1 := w <| notices := [MkNotified 3 0 AT_SOCKET_EVT_CLOSED None 0] |>).
  assert (seq_ [urc_close_func (bytes "CLOSED: 1" ++ CRLF)] w = Ret (tt, w1)) as H8 by reflexivity.
  destruct (client_parser_demultiplexes [urc_table] 512 100 64 ls ts _ fin (bytes "next") st w w1 H1 eq_refl H5 H2 H3 H4
    eq_refl H6 H7 H8) as (m' & p' & E1 & E2 & E3).
  exact (ex_intro _ m' (ex_intro _ p' (ex_intro _ _ (conj E1 (conj E2 (conj E3 eq_refl)))))).
Defined.
