(* ===== verification/Netdev.v ===== *)
(** The network interface layer of the kernel the modem registers with
    (rt-thread/components/net/netdev/src/netdev.c, netdev_ipaddr.c): IPv4 addresses as
    text, and the status of an interface.

    An address is the 32-bit number of its [addr] member: the first octet of the text is
    its low byte (the processor is little endian, the member in network order).  The
    interfaces are a list, an interface its position in it; callbacks and the calls of
    the socket layer are recorded in order in [net_events]. *)

From S2P Require Import Prelude CLib Event.

(** * Addresses *)

Definition isxdigit (c : Z) : bool :=
  isdigit c || ((97 <=? c) && (c <=? 102)) || ((65 <=? c) && (c <=? 70)).
Definition islower (c : Z) : bool := (97 <=? c) && (c <=? 122).

Definition htonl (x : Z) : Z :=
  Z.lor (Z.lor (Z.lor (Z.shiftl (Z.land x 255) 24)
                      (Z.shiftl (Z.land x 65280) 8))
               (Z.shiftr (Z.land x 16711680) 8))
        (Z.shiftr (Z.land x 4278190080) 24).

Definition htons (x : Z) : Z :=
  u16 (Z.lor (Z.shiftl (Z.land x 255) 8) (Z.shiftr (Z.land x 65280) 8)).

(** The digits of one part, from the pointer [p] on: the value and where it ends. *)
Fixpoint aton_digits (base val : Z) (p : cstr) : Z * cstr :=
  match p with
  | [] => (val, [])
  | c :: q =>
      if isdigit c then aton_digits base (u32 (val * base + (c - 48))) q
      else if (base =? 16) && isxdigit c then
        aton_digits base
          (Z.lor (u32 (Z.shiftl val 4)) (c + 10 - (if islower c then 97 else 65))) q
      else (val, p)
  end.

(** One part with its prefix: 0x is hexadecimal, 0 octal.  [None]: no digit. *)
Definition aton_part (p : cstr) : option (Z * cstr) :=
  match p with
  | [] => None
  | c :: q =>
      if negb (isdigit c) then None
      else if c =? 48 then
        let d := peek q in
        if (d =? 120) || (d =? 88) then Some (aton_digits 16 0 (drop 1 q))
        else Some (aton_digits 8 0 q)
      else Some (aton_digits 10 0 p)
  end.

(** The parts up to the last; [room] is how many more [parts] can be stored. *)
Fixpoint aton_parts (room : nat) (parts : list Z) (p : cstr) : option (list Z * Z * cstr) :=
  '(val, q) ← aton_part p;
  if peek q =? 46 then
    match room with
    | O => None
    | S room => aton_parts room (parts ++ [val]) (drop 1 q)
    end
  else Some (parts, val, q).

(** The address of the parts before the last, [parts], and the last, [val]. *)
Definition aton_concoct (parts : list Z) (val : Z) : option Z :=
  match parts with
  | [] => Some val
  | [a] =>
      if 16777215 <? val then None
      else if 255 <? a then None
      else Some (Z.lor val (u32 (Z.shiftl a 24)))
  | [a; b] =>
      if 65535 <? val then None
      else if (255 <? a) || (255 <? b) then None
      else Some (Z.lor val (Z.lor (u32 (Z.shiftl a 24)) (u32 (Z.shiftl b 16))))
  | [a; b; c] =>
      if 255 <? val then None
      else if (255 <? a) || (255 <? b) || (255 <? c) then None
      else Some (Z.lor val (Z.lor (Z.lor (u32 (Z.shiftl a 24)) (u32 (Z.shiftl b 16)))
                             (u32 (Z.shiftl c 8))))
  | _ => None
  end.

(** [None] is the return value 0: nothing is stored. *)
Definition netdev_ip4addr_aton (cp : cstr) : option Z :=
  '(parts, val, q) ← aton_parts 3 [] cp;
  if negb (peek q =? NUL) && negb (isspace (peek q)) then None
  else htonl <$> aton_concoct parts val.

(** [do .. while ( *ap)]: the decimal digits of an octet, most significant first; [inv]
    has three elements. *)
Fixpoint ntoa_inv (room : nat) (ap : Z) (inv : list Z) : res (list Z) :=
  match room with
  | O => Fault OutOfBounds
  | S room =>
      let inv := (48 + ap mod 10) :: inv in
      if ap / 10 =? 0 then Ret inv else ntoa_inv room (ap / 10) inv
  end.

(** [while (i--)]: the text so far with the characters [cs] after it; [None]: no room. *)
Fixpoint ntoa_put (buflen : Z) (buf cs : list Z) : option (list Z) :=
  match cs with
  | [] => Some buf
  | c :: cs =>
      if buflen <=? Z.of_nat (length buf) then None else ntoa_put buflen (buf ++ [c]) cs
  end.

Fixpoint ntoa_octets (octets : list Z) (buflen : Z) (buf : list Z) : res (option (list Z)) :=
  match octets with
  | [] => Ret (Some buf)
  | ap :: octets =>
      inv ← ntoa_inv 3 ap [];
      match ntoa_put buflen buf (inv ++ [46]) with
      | Some buf => ntoa_octets octets buflen buf
      | None => Ret None
      end
  end.

(** The bytes of the address in memory. *)
Definition octets (addr : Z) : list Z :=
  [u8 addr; u8 (Z.shiftr addr 8); u8 (Z.shiftr addr 16); u8 (Z.shiftr addr 24)].

(** The last point is overwritten by the terminator.  [None]: null pointer. *)
Definition netdev_ip4addr_ntoa_r (addr buflen : Z) : res (option cstr) :=
  buf ← ntoa_octets (octets addr) buflen [];
  Ret (option_map (@removelast Z) buf).

Definition IP4ADDR_STRLEN_MAX := 16.
Definition netdev_ip4addr_ntoa (addr : Z) : res (option cstr) :=
  netdev_ip4addr_ntoa_r addr IP4ADDR_STRLEN_MAX.

Definition IPADDR_NONE := 4294967295.
Definition netdev_ipaddr_addr (cp : cstr) : Z :=
  match netdev_ip4addr_aton cp with Some val => val | None => IPADDR_NONE end.

(** * Interfaces *)

Definition NETDEV_HWADDR_MAX_LEN := 8%nat.
Definition NETDEV_DNS_SERVERS_NUM := 2%nat.
Definition NETDEV_FLAG_UP := 1.
Definition NETDEV_FLAG_LINK_UP := 4.
Definition NETDEV_FLAG_INTERNET_UP := 128.
Definition NETDEV_FLAG_DHCP := 256.
Definition RT_NAME_MAX := 8%nat.

Inductive netdev_cb_type : Type :=
  | NETDEV_CB_ADDR_IP
  | NETDEV_CB_ADDR_NETMASK
  | NETDEV_CB_ADDR_GATEWAY
  | NETDEV_CB_ADDR_DNS_SERVER
  | NETDEV_CB_STATUS_UP
  | NETDEV_CB_STATUS_DOWN
  | NETDEV_CB_STATUS_LINK_UP
  | NETDEV_CB_STATUS_LINK_DOWN
  | NETDEV_CB_STATUS_INTERNET_UP
  | NETDEV_CB_STATUS_INTERNET_DOWN
  | NETDEV_CB_STATUS_DHCP_ENABLE
  | NETDEV_CB_STATUS_DHCP_DISABLE.

(** A callback and [ops->set_default] are function pointers: [true] when set. *)
Record netdev : Type := MkNetdev {
  name : cstr;
  ip_addr : Z;
  netmask : Z;
  gw : Z;
  dns_servers : list Z;
  hwaddr_len : Z;
  hwaddr : list Z;
  flags : Z;
  mtu : Z;
  ops_set_default : bool;
  status_callback : bool;
  addr_callback : bool }.
#[global] Instance netdev_eta : Eta netdev :=
  λ n, MkNetdev (name n) (ip_addr n) (netmask n) (gw n) (dns_servers n) (hwaddr_len n)
    (hwaddr n) (flags n) (mtu n) (ops_set_default n) (status_callback n) (addr_callback n).

Inductive net_event : Type :=
  | Callback (d : nat) (type : netdev_cb_type)
  | InternetCheck (d : nat)
  | SetDefault (d : nat).

Record netstate : Type := MkNetstate {
  netdev_list : list netdev;
  netdev_default : option nat;
  net_events : list net_event }.
#[global] Instance netstate_eta : Eta netstate :=
  λ s, MkNetstate (netdev_list s) (netdev_default s) (net_events s).

Definition flag_set (n : netdev) (f : Z) : bool := negb (Z.land (flags n) f =? 0).
Definition netdev_is_up (n : netdev) : bool := flag_set n NETDEV_FLAG_UP.
Definition netdev_is_link_up (n : netdev) : bool := flag_set n NETDEV_FLAG_LINK_UP.
Definition netdev_is_internet_up (n : netdev) : bool := flag_set n NETDEV_FLAG_INTERNET_UP.
Definition netdev_is_dhcp_enabled (n : netdev) : bool := flag_set n NETDEV_FLAG_DHCP.
Definition set_flag (f : Z) (n : netdev) : netdev := n <| flags := Z.lor (flags n) f |>.
Definition clear_flag (f : Z) (n : netdev) : netdev :=
  n <| flags := u16 (Z.land (flags n) (Z.lnot f)) |>.

(** The members of the interface [d]. *)
Definition get_netdev (d : nat) : io netstate netdev := λ s,
  match netdev_list s !! d with Some n => Ret (n, s) | None => Fault NullDeref end.
Definition upd_netdev (d : nat) (f : netdev → netdev) : io netstate unit :=
  modify (λ s, s <| netdev_list := alter f d (netdev_list s) |>).
Definition net_event_out (e : net_event) : io netstate unit :=
  modify (λ s, s <| net_events := net_events s ++ [e] |>).
Definition callback (set : netdev → bool) (d : nat) (type : netdev_cb_type) : io netstate unit :=
  n ← get_netdev d;
  if set n then net_event_out (Callback d type) else mret tt.
Definition sal_check_netdev_internet_up (d : nat) : io netstate unit :=
  net_event_out (InternetCheck d).

(** The members of an interface as [netdev_register] leaves them (its memory is zero but
    for [mtu] and [ops]).  The name is copied without a terminator. *)
Definition registered_netdev (n : netdev) (nm : cstr) : netdev :=
  let flags_mask := Z.lor (Z.lor NETDEV_FLAG_UP NETDEV_FLAG_LINK_UP)
                          (Z.lor NETDEV_FLAG_INTERNET_UP NETDEV_FLAG_DHCP) in
  clear_flag flags_mask n
    <| ip_addr := 0 |> <| netmask := 0 |> <| gw := 0 |>
    <| dns_servers := replicate NETDEV_DNS_SERVERS_NUM 0 |>
    <| status_callback := false |> <| addr_callback := false |> <| name := nm |>.

(** [n] goes to the tail. *)
Definition netdev_register (n : netdev) (nm : cstr) : io netstate nat :=
  if (RT_NAME_MAX <? length nm)%nat then io_fault OutOfBounds
  else
    d ← gets (λ s, length (netdev_list s));
    modify (λ s, s <| netdev_list := netdev_list s ++ [registered_netdev n nm] |>
                   <| netdev_default := match netdev_list s with
                                        | [] => Some O
                                        | _ => netdev_default s
                                        end |>) ;;
    mret d.

Fixpoint first_by_flags (d : nat) (l : list netdev) (f : Z) : option nat :=
  match l with
  | [] => None
  | n :: l => if flag_set n f then Some d else first_by_flags (S d) l f
  end.
Definition netdev_get_first_by_flags (f : Z) : io netstate (option nat) :=
  gets (λ s, first_by_flags 0 (netdev_list s) f).

Fixpoint first_by_name (d : nat) (l : list netdev) (nm : cstr) : option nat :=
  match l with
  | [] => None
  | n :: l => if is_prefix (name n) nm then Some d else first_by_name (S d) l nm
  end.
Definition netdev_get_by_name (nm : cstr) : io netstate (option nat) :=
  gets (λ s, first_by_name 0 (netdev_list s) nm).

Definition netdev_set_default (d : option nat) : io netstate unit :=
  match d with
  | None => mret tt
  | Some d =>
      modify (λ s, s <| netdev_default := Some d |>) ;;
      n ← get_netdev d;
      if ops_set_default n then net_event_out (SetDefault d) else mret tt
  end.

(** Two interfaces of the list differ in their links, so [rt_memcmp] finds them equal
    when they are the same. *)
Definition netdev_auto_change_default (d : nat) : io netstate unit :=
  def ← gets netdev_default;
  match def with
  | None => io_fault NullDeref
  | Some def =>
      if (d =? def)%nat then
        new ← netdev_get_first_by_flags NETDEV_FLAG_LINK_UP;
        netdev_set_default new
      else mret tt
  end.

Definition netdev_low_level_set_ipaddr (d : nat) (addr : Z) : io netstate unit :=
  n ← get_netdev d;
  if ip_addr n =? addr then mret tt
  else
    upd_netdev d (λ n, n <| ip_addr := addr |>) ;;
    (if netdev_is_up n && netdev_is_link_up n then sal_check_netdev_internet_up d else mret tt) ;;
    callback addr_callback d NETDEV_CB_ADDR_IP.

Definition netdev_low_level_set_dns_server (d dns_num : nat) (addr : Z) : io netstate unit :=
  n ← get_netdev d;
  if existsb (Z.eqb addr) (dns_servers n) then mret tt
  else if (dns_num <? NETDEV_DNS_SERVERS_NUM)%nat then
    upd_netdev d (λ n, n <| dns_servers := <[dns_num := addr]> (dns_servers n) |>) ;;
    callback addr_callback d NETDEV_CB_ADDR_DNS_SERVER
  else mret tt.

Definition netdev_low_level_set_status (d : nat) (is_up : bool) : io netstate unit :=
  n ← get_netdev d;
  if Bool.eqb (netdev_is_up n) is_up then mret tt
  else
    (if is_up then upd_netdev d (set_flag NETDEV_FLAG_UP)
     else
       upd_netdev d (clear_flag NETDEV_FLAG_UP) ;;
       netdev_auto_change_default d) ;;
    callback status_callback d (if is_up then NETDEV_CB_STATUS_UP else NETDEV_CB_STATUS_DOWN).

Definition netdev_low_level_set_link_status (d : nat) (is_up : bool) : io netstate unit :=
  n ← get_netdev d;
  if Bool.eqb (netdev_is_link_up n) is_up then mret tt
  else
    (if is_up then
       upd_netdev d (set_flag NETDEV_FLAG_LINK_UP) ;;
       (if netdev_is_up n && negb (ip_addr n =? 0) then sal_check_netdev_internet_up d
        else mret tt)
     else
       upd_netdev d (clear_flag NETDEV_FLAG_LINK_UP) ;;
       upd_netdev d (clear_flag NETDEV_FLAG_INTERNET_UP) ;;
       netdev_auto_change_default d) ;;
    callback status_callback d
      (if is_up then NETDEV_CB_STATUS_LINK_UP else NETDEV_CB_STATUS_LINK_DOWN).

Definition netdev_low_level_set_dhcp_status (d : nat) (is_enable : bool) : io netstate unit :=
  n ← get_netdev d;
  if Bool.eqb (netdev_is_dhcp_enabled n) is_enable then mret tt
  else
    upd_netdev d ((if is_enable then set_flag else clear_flag) NETDEV_FLAG_DHCP) ;;
    callback status_callback d
      (if is_enable then NETDEV_CB_STATUS_DHCP_ENABLE else NETDEV_CB_STATUS_DHCP_DISABLE).
