(* ===== verification/NetdevSpec.v ===== *)
(** Correctness of the interface layer (Netdev.v): an address and its text denote each
    other, whatever the buffer, and what the status calls do to an interface. *)

From S2P Require Import Prelude CLib Event Netdev.

(** * Bits *)

Lemma lor_shift_add x y k :
  0 <= k → 0 <= y < 2 ^ k → Z.lor (Z.shiftl x k) y = x * 2 ^ k + y.
Proof.
  intros Hk Hy. rewrite <- Z.shiftl_mul_pow2 by lia. symmetry. rewrite <- Z.lxor_lor.
  apply Z.add_nocarry_lxor.
  all: apply Z.bits_inj'; intros n Hn; rewrite Z.land_spec, Z.bits_0, Z.shiftl_spec by lia;
    destruct (Z.ltb_spec n k); [by rewrite (Z.testbit_neg_r x) by lia|];
    rewrite <- (Z.mod_small y (2 ^ k)), Z.mod_pow2_bits_high by lia; apply andb_false_r.
Qed.

Lemma land_shift_mask x m k : 0 <= k →
  Z.land x (Z.shiftl m k) = Z.shiftl (Z.land (Z.shiftr x k) m) k.
Proof.
  intros Hk. apply Z.bits_inj'. intros n Hn. rewrite Z.land_spec, !Z.shiftl_spec by lia.
  destruct (Z.ltb_spec n k).
  - by rewrite !(Z.testbit_neg_r _ (n - k)), andb_false_r by lia.
  - rewrite Z.land_spec, Z.shiftr_spec by lia. by replace (n - k + k) with n by lia.
Qed.

Lemma land_255 x : Z.land x 255 = u8 x.
Proof. apply (Z.land_ones x 8). lia. Qed.

(** Four octets as one number, the first the most significant. *)
Lemma lor_octets a b c d :
  is_byte a → is_byte b → is_byte c → is_byte d →
  Z.lor (Z.lor (Z.lor (Z.shiftl a 24) (Z.shiftl b 16)) (Z.shiftl c 8)) d =
    a * 16777216 + b * 65536 + c * 256 + d.
Proof.
  unfold is_byte. intros Ha Hb Hc Hd. rewrite <- !Z.lor_assoc.
  rewrite (lor_shift_add c), (lor_shift_add b), (lor_shift_add a) by lia. lia.
Qed.

Lemma htonl_octets x :
  htonl x = match octets x with
            | [d; c; b; a] => d * 16777216 + c * 65536 + b * 256 + a
            | _ => 0
            end.
Proof.
  unfold htonl.
  change 65280 with (Z.shiftl 255 8). change 16711680 with (Z.shiftl 255 16).
  change 4278190080 with (Z.shiftl 255 24).
  rewrite !land_shift_mask, !land_255, Z.shiftl_shiftl by lia.
  rewrite (Z.shiftr_shiftl_l _ 16 8), (Z.shiftr_shiftl_l _ 24 24), Z.shiftl_0_r by lia.
  unfold octets. apply lor_octets; apply u8_byte.
Qed.

Lemma octets_sum a : 0 <= a < 4294967296 →
  a = u8 (Z.shiftr a 24) * 16777216 + u8 (Z.shiftr a 16) * 65536 + u8 (Z.shiftr a 8) * 256 + u8 a.
Proof. intros Ha. unfold u8. rewrite !Z.shiftr_div_pow2 by lia. cbn. dlia. Qed.

Lemma octets_of_sum a b c d :
  is_byte a → is_byte b → is_byte c → is_byte d →
  octets (a * 16777216 + b * 65536 + c * 256 + d) = [d; c; b; a].
Proof.
  unfold is_byte, octets, u8. intros Ha Hb Hc Hd. rewrite !Z.shiftr_div_pow2 by lia.
  change (2 ^ 8) with 256. change (2 ^ 16) with 65536. change (2 ^ 24) with 16777216.
  repeat f_equal; dlia.
Qed.

(** * The text of an address *)

(** What the conversions need of the text of an octet: its digits, its value, and no
    leading zero that would make it octal. *)
Definition octet_text_ok (b : Z) : bool :=
  let t := print_d b in
  forallb isdigit t && (dec t =? b) && (length t <=? 3)%nat &&
  match ntoa_inv 3 b [] with Ret t' => bool_decide (t' = t) | Fault _ => false end &&
  match t with [] => false | c :: q => bool_decide (c = 48 → q = []) end.

Lemma octet_texts : forallb octet_text_ok (seqZ 0 256) = true.
Proof. vm_compute. reflexivity. Qed.

Lemma octet_text b : is_byte b →
  Forall (λ c, isdigit c = true) (print_d b) ∧ dec (print_d b) = b ∧
  (length (print_d b) <= 3)%nat ∧ ntoa_inv 3 b [] = Ret (print_d b) ∧
  ∃ c q, print_d b = c :: q ∧ (c = 48 → q = []).
Proof.
  intros Hb. pose proof octet_texts as H. rewrite forallb_forall in H.
  assert (octet_text_ok b = true) as Hok.
  { apply H. apply list_elem_of_In, elem_of_seqZ. unfold is_byte in Hb. lia. }
  clear H. unfold octet_text_ok in Hok. cbv zeta in Hok.
  apply andb_true_iff in Hok as [Hok H5]. apply andb_true_iff in Hok as [Hok H4].
  apply andb_true_iff in Hok as [Hok H3]. apply andb_true_iff in Hok as [H1 H2].
  split_and!.
  - apply Forall_forall. intros c Hc. rewrite forallb_forall in H1.
    apply H1. by apply list_elem_of_In.
  - lia.
  - by apply Nat.leb_le.
  - destruct (ntoa_inv 3 b []); [|done]. by apply bool_decide_eq_true in H4 as ->.
  - destruct (print_d b) as [|c q]; [done|]. apply bool_decide_eq_true in H5. eauto.
Qed.

Definition dotted (a : Z) : cstr :=
  print_d (u8 a) ++ 46 :: print_d (u8 (Z.shiftr a 8)) ++ 46 ::
  print_d (u8 (Z.shiftr a 16)) ++ 46 :: print_d (u8 (Z.shiftr a 24)).

Lemma dotted_length a : (length (dotted a) <= 15)%nat.
Proof.
  unfold dotted. repeat (rewrite length_app; cbn [length]).
  destruct (octet_text (u8 a)) as (_ & _ & ? & _); [apply u8_byte|].
  destruct (octet_text (u8 (Z.shiftr a 8))) as (_ & _ & ? & _); [apply u8_byte|].
  destruct (octet_text (u8 (Z.shiftr a 16))) as (_ & _ & ? & _); [apply u8_byte|].
  destruct (octet_text (u8 (Z.shiftr a 24))) as (_ & _ & ? & _); [apply u8_byte|].
  lia.
Qed.

(** ** Printing *)

Lemma ntoa_put_spec n cs : ∀ buf, cs ≠ [] →
  ntoa_put n buf cs =
    if Z.of_nat (length buf + length cs) <=? n then Some (buf ++ cs) else None.
Proof.
  induction cs as [|c cs IH]; intros buf Hcs; [done|]. cbn [ntoa_put length].
  case_if; [by decide_if (Z.of_nat (length buf + S (length cs)) <=? n) false|].
  destruct cs as [|c' cs]; [cbn [length ntoa_put]|].
  - by decide_if (Z.of_nat (length buf + 1) <=? n) true.
  - rewrite IH by done. rewrite length_app, <- app_assoc. cbn [length app].
    by replace (length buf + 1 + S (length cs))%nat with (length buf + S (S (length cs)))%nat by lia.
Qed.

Definition dots (l : list Z) : list Z := concat ((λ b, print_d b ++ [46]) <$> l).

Lemma ntoa_octets_spec n l : ∀ buf, Forall is_byte l → (Z.of_nat (length buf) <= n) →
  ntoa_octets l n buf =
    Ret (if Z.of_nat (length (buf ++ dots l)) <=? n then Some (buf ++ dots l) else None).
Proof.
  induction l as [|b l IH]; intros buf Hl Hbuf; cbn [ntoa_octets].
  { change (dots []) with (@nil Z). rewrite app_nil_r. by decide_if (Z.of_nat (length buf) <=? n) true. }
  inversion Hl as [|? ? Hb Hl']; subst. destruct (octet_text b Hb) as (_ & _ & _ & -> & _).
  cbn [mbind res_bind]. rewrite ntoa_put_spec by (by destruct (print_d b)).
  unfold dots. rewrite fmap_cons. cbn [concat]. fold (dots l).
  rewrite <- length_app. case_if.
  - rewrite IH by done. by rewrite <- !app_assoc.
  - rewrite !length_app in *. cbn [length] in *.
    by decide_if (Z.of_nat (length buf + (length (print_d b) + 1 + length (dots l))) <=? n) false.
Qed.

Lemma dots_octets a : dots (octets a) = dotted a ++ [46].
Proof.
  unfold dots, octets, dotted. rewrite !fmap_cons. cbn [fmap list_fmap concat].
  repeat (rewrite <- app_assoc || cbn [app]). done.
Qed.

(** ** Parsing *)

Lemma aton_digits_dec ds rest : ∀ v,
  Forall (λ c, isdigit c = true) ds → stops isdigit rest = true →
  0 <= v → dec_acc v ds < 4294967296 →
  aton_digits 10 v (ds ++ rest) = (dec_acc v ds, rest).
Proof.
  induction ds as [|d ds IH]; intros v Hds Hr Hv Hlt.
  - destruct rest as [|c rest]; cbn; [done|]. cbn in Hr. by apply negb_true_iff in Hr as ->.
  - inversion Hds as [|? ? Hd Hds']; subst. cbn [app aton_digits]. rewrite Hd.
    change (dec_acc v (d :: ds)) with (dec_acc (v * 10 + (d - 48)) ds) in *.
    assert (0 <= v * 10 + (d - 48)) as Hv' by (unfold isdigit in Hd; bool_prop; lia).
    pose proof (dec_acc_le _ ds Hv' Hds'). rewrite u32_small by lia. apply IH; [done..|lia].
Qed.

(** An octet, followed by a point, a blank or nothing. *)
Lemma aton_part_octet b rest :
  is_byte b → stops isdigit rest = true → peek rest ≠ 120 → peek rest ≠ 88 →
  aton_part (print_d b ++ rest) = Some (b, rest).
Proof.
  intros Hb Hr H1 H2. destruct (octet_text b Hb) as (Hd & Hv & _ & _ & c & q & E & Hc).
  unfold aton_part. rewrite E in *. cbn [app].
  apply Forall_cons in Hd as Hd'. destruct Hd' as [Hdc _].
  rewrite Hdc. cbn [negb]. case_if.
  - subst c. rewrite (Hc eq_refl) in *. cbn [app]. decide_if (peek rest =? 120) false.
    decide_if (peek rest =? 88) false. cbn [orb]. change (dec [48]) with 0 in Hv. rewrite <- Hv. f_equal.
    destruct rest as [|d rest]; cbn; [done|]. cbn in Hr. by apply negb_true_iff in Hr as ->.
  - change (c :: q ++ rest) with ((c :: q) ++ rest).
    unfold dec in Hv. rewrite aton_digits_dec; [by rewrite Hv|done|done|lia|].
    unfold is_byte in Hb. lia.
Qed.

Lemma peek_blank rest : rest = [] ∨ isspace (peek rest) = true →
  stops isdigit rest = true ∧ peek rest ≠ 120 ∧ peek rest ≠ 88 ∧ peek rest ≠ 46 ∧
  negb (peek rest =? NUL) && negb (isspace (peek rest)) = false.
Proof.
  intros [->|Hr]; [done|]. rewrite Hr, andb_false_r. destruct rest as [|c rest]; [done|].
  unfold isspace in Hr. cbn in *. unfold isdigit. split_and!; lia.
Qed.

Lemma aton_parts_octet room parts b rest : is_byte b →
  aton_parts (S room) parts (print_d b ++ 46 :: rest) = aton_parts room (parts ++ [b]) rest.
Proof. intros Hb. cbn [aton_parts]. rewrite aton_part_octet by done. done. Qed.

Lemma aton_dotted a rest :
  0 <= a < 4294967296 → rest = [] ∨ isspace (peek rest) = true →
  netdev_ip4addr_aton (dotted a ++ rest) = Some a.
Proof.
  intros Ha Hrest. destruct (peek_blank rest Hrest) as (Hs & H1 & H2 & H3 & H4).
  unfold netdev_ip4addr_aton, dotted. rewrite <- !app_assoc. cbn [app].
  rewrite <- !app_assoc. cbn [app]. rewrite <- !app_assoc. cbn [app].
  rewrite !aton_parts_octet by apply u8_byte. cbn [aton_parts].
  rewrite aton_part_octet by (done || apply u8_byte). cbn [mbind option_bind].
  decide_if (peek rest =? 46) false. cbn [mbind option_bind app]. rewrite H4. cbn [aton_concoct].
  pose proof (u8_byte a) as B0. pose proof (u8_byte (Z.shiftr a 8)) as B1.
  pose proof (u8_byte (Z.shiftr a 16)) as B2. pose proof (u8_byte (Z.shiftr a 24)) as B3.
  assert (∀ b, is_byte b → (255 <? b) = false) as Hle by (unfold is_byte; lia).
  rewrite !Hle by done. cbn [orb fmap option_fmap option_map]. f_equal.
  assert (∀ b k, is_byte b → 0 <= k <= 24 → u32 (Z.shiftl b k) = Z.shiftl b k) as Hsh.
  { intros b k Hb Hk. apply u32_small. rewrite Z.shiftl_mul_pow2 by lia. unfold is_byte in Hb.
    pose proof (Z.pow_le_mono_r 2 k 24 ltac:(lia) ltac:(lia)).
    pose proof (Z.pow_pos_nonneg 2 k ltac:(lia) ltac:(lia)). nia. }
  rewrite !Hsh by (done || lia). rewrite Z.lor_comm, lor_octets, htonl_octets by done.
  rewrite octets_of_sum by done. symmetry. by apply octets_sum.
Qed.

Lemma ntoa_r_text a n : 0 <= n →
  netdev_ip4addr_ntoa_r a n =
    Ret (if Z.of_nat (length (dotted a)) <? n then Some (dotted a) else None).
Proof.
  intros Hn. unfold netdev_ip4addr_ntoa_r. rewrite ntoa_octets_spec.
  - cbn [app mbind res_bind]. rewrite dots_octets, length_app. cbn [length]. case_if.
    + decide_if (Z.of_nat (length (dotted a)) <? n) true. cbn. by rewrite List.removelast_last.
    + by decide_if (Z.of_nat (length (dotted a)) <? n) false.
  - repeat constructor; apply u8_byte.
  - done.
Qed.

Lemma ntoa_text a : netdev_ip4addr_ntoa a = Ret (Some (dotted a)).
Proof.
  unfold netdev_ip4addr_ntoa, IP4ADDR_STRLEN_MAX. rewrite ntoa_r_text by lia.
  pose proof (dotted_length a). by decide_if (Z.of_nat (length (dotted a)) <? 16) true.
Qed.

(** Addresses and their text denote each other.  Every address is printed as four
    decimal octets of at most 15 characters, [netdev_ip4addr_ntoa_r] returns null exactly
    when the buffer has no room for the text and its terminator, the static buffer of
    [netdev_ip4addr_ntoa] always has, and parsing the text, alone or with a blank after
    it, gives the address back. *)
Theorem netdev_address_text a rest :
  0 <= a < 4294967296 → rest = [] ∨ isspace (peek rest) = true →
  (length (dotted a) <= 15)%nat ∧
  (∀ n, 0 <= n → netdev_ip4addr_ntoa_r a n =
     Ret (if Z.of_nat (length (dotted a)) <? n then Some (dotted a) else None)) ∧
  netdev_ip4addr_ntoa a = Ret (Some (dotted a)) ∧
  netdev_ip4addr_aton (dotted a ++ rest) = Some a ∧
  netdev_ipaddr_addr (dotted a) = a.
Proof.
  intros Ha Hrest. split_and!;
    [apply dotted_length|intros; by apply ntoa_r_text|apply ntoa_text|by apply aton_dotted|].
  - unfold netdev_ipaddr_addr. rewrite <- (app_nil_r (dotted a)).
    rewrite aton_dotted by (done || by left). done.
Qed.

Lemma netdev_address_text_witness :
  0 <= 134744072 < 4294967296 ∧ netdev_ip4addr_aton (bytes "8.8.8.8" ++ [CR]) = Some 134744072.
Proof.
  assert (0 <= 134744072 < 4294967296) as Ha by lia. split; [exact Ha|].
  exact (proj1 (proj2 (proj2 (proj2 (netdev_address_text 134744072 [CR] Ha (or_intror eq_refl)))))).
Defined.

(** Evaluated: octal and hexadecimal parts, short forms, and what is not an address. *)
Example aton_forms :
  netdev_ip4addr_aton (bytes "0x7f.1") = Some (127 + 16777216) ∧
  netdev_ip4addr_aton (bytes "010.0.0.1") = Some (8 + 16777216) ∧
  netdev_ip4addr_aton (bytes "256.0.0.1") = None ∧
  netdev_ip4addr_aton (bytes "1.2.3.4.5") = None ∧
  netdev_ip4addr_aton (bytes "ERROR.") = None.
Proof. vm_compute. done. Qed.

(** * Status of an interface *)

Section flags.
Variable n : netdev.

Lemma flag_set_bit k : 0 <= k → flag_set n (2 ^ k) = Z.testbit (flags n) k.
Proof.
  intros Hk. unfold flag_set. destruct (Z.testbit (flags n) k) eqn:E.
  - apply negb_true_iff, Z.eqb_neq. intros H0. apply (f_equal (λ z, Z.testbit z k)) in H0.
    rewrite Z.land_spec, E, Z.pow2_bits_true, Z.bits_0 in H0 by done. done.
  - apply negb_false_iff, Z.eqb_eq. apply Z.bits_inj'. intros i Hi.
    rewrite Z.land_spec, Z.bits_0. destruct (Z.eq_dec i k) as [->|]; [by rewrite E|].
    rewrite Z.pow2_bits_false by lia. apply andb_false_r.
Qed.
End flags.

Lemma flag_set_set n k j : 0 <= k → 0 <= j →
  flag_set (set_flag (2 ^ k) n) (2 ^ j) = (k =? j) || flag_set n (2 ^ j).
Proof.
  intros Hk Hj. rewrite !flag_set_bit by done. cbn. rewrite Z.lor_spec, orb_comm. f_equal.
  destruct (Z.eqb_spec k j) as [->|]; [by apply Z.pow2_bits_true|by apply Z.pow2_bits_false].
Qed.

Lemma flag_set_clear n k j : 0 <= k → 0 <= j < 16 →
  flag_set (clear_flag (2 ^ k) n) (2 ^ j) = negb (k =? j) && flag_set n (2 ^ j).
Proof.
  intros Hk Hj. rewrite !flag_set_bit by lia. cbn. unfold u16. change 65536 with (2 ^ 16).
  rewrite Z.mod_pow2_bits_low, Z.land_spec, Z.lnot_spec, andb_comm by lia. do 2 f_equal.
  destruct (Z.eqb_spec k j) as [->|]; [by apply Z.pow2_bits_true|by apply Z.pow2_bits_false].
Qed.

(** What a client of the interface layer sees of an interface. *)
Definition view (n : netdev) : bool * bool * bool * bool :=
  (netdev_is_up n, netdev_is_link_up n, netdev_is_internet_up n, netdev_is_dhcp_enabled n).

Lemma view_set n :
  let '(u, l, i, h) := view n in
  view (set_flag NETDEV_FLAG_UP n) = (true, l, i, h) ∧
  view (set_flag NETDEV_FLAG_LINK_UP n) = (u, true, i, h) ∧
  view (set_flag NETDEV_FLAG_DHCP n) = (u, l, i, true) ∧
  view (clear_flag NETDEV_FLAG_UP n) = (false, l, i, h) ∧
  view (clear_flag NETDEV_FLAG_INTERNET_UP (clear_flag NETDEV_FLAG_LINK_UP n)) = (u, false, false, h) ∧
  view (clear_flag NETDEV_FLAG_DHCP n) = (u, l, i, false).
Proof.
  unfold view, netdev_is_up, netdev_is_link_up, netdev_is_internet_up, netdev_is_dhcp_enabled.
  change NETDEV_FLAG_UP with (2 ^ 0). change NETDEV_FLAG_LINK_UP with (2 ^ 2).
  change NETDEV_FLAG_INTERNET_UP with (2 ^ 7). change NETDEV_FLAG_DHCP with (2 ^ 8).
  rewrite !flag_set_set, !flag_set_clear by lia. done.
Qed.

(** The interface [d] becomes [n'], with the addresses it had; the others stay, and there
    still is a default interface. *)
Definition becomes (d : nat) (n' : netdev) (s s' : netstate) : Prop :=
  netdev_list s' = <[d := n']> (netdev_list s) ∧ is_Some (netdev_default s').

Lemma list_alter_insert {A} (f : A → A) (l : list A) i x :
  l !! i = Some x → alter f i l = <[i := f x]> l.
Proof.
  revert i. induction l as [|y l IH]; intros [|i]; cbn; intros Hx; simplify_eq; [done|].
  f_equal. by apply IH.
Qed.

Section status.
Variable d : nat.

Lemma wp_get_netdev Q s n : netdev_list s !! d = Some n → Q n s → wp (get_netdev d) Q s.
Proof. intros Hn HQ. unfold wp, get_netdev. by rewrite Hn. Qed.

Lemma wp_callback set type s n (Q : netstate → Prop) :
  netdev_list s !! d = Some n → Q s →
  (∀ e, Q (s <| net_events := net_events s ++ [e] |>)) → wp (callback set d type) (λ _, Q) s.
Proof.
  intros Hn H1 H2. unfold callback. apply wp_bind. eapply wp_get_netdev; [done|].
  destruct (set n); [apply H2|exact H1].
Qed.

Lemma first_by_flags_lt l f : ∀ k j, first_by_flags k l f = Some j → (k <= j < k + length l)%nat.
Proof.
  induction l as [|n l IH]; intros k j; cbn; [done|]. destruct (flag_set n f).
  - intros [= <-]. lia.
  - intros Hj. apply IH in Hj. lia.
Qed.

Lemma wp_auto_default s :
  is_Some (netdev_default s) →
  wp (netdev_auto_change_default d) (λ _ s', netdev_list s' = netdev_list s ∧
    is_Some (netdev_default s')) s.
Proof.
  intros [def Hd]. unfold netdev_auto_change_default. apply wp_bind, wp_gets. rewrite Hd.
  destruct (d =? def)%nat; [|by apply wp_ret; rewrite Hd].
  apply wp_bind, wp_gets. destruct (first_by_flags 0 (netdev_list s) NETDEV_FLAG_LINK_UP) as [j|] eqn:E;
    [|by apply wp_ret; rewrite Hd].
  apply first_by_flags_lt in E. destruct (lookup_lt_is_Some_2 (netdev_list s) j) as [n Hn]; [lia|].
  cbn. apply wp_bind, wp_modify. apply wp_bind. unfold wp, get_netdev. cbn. rewrite Hn.
  destruct (ops_set_default n); cbn; eauto.
Qed.

Lemma wp_upd f (s : netstate) n (Q : netstate → Prop) :
  netdev_list s !! d = Some n → Q (s <| netdev_list := <[d := f n]> (netdev_list s) |>) →
  wp (upd_netdev d f) (λ _, Q) s.
Proof. intros Hn HQ. apply wp_modify. by rewrite (list_alter_insert f _ d n). Qed.

(** Status, link and DHCP calls: the interface [n] gets the flag, its addresses stay. *)
Definition same_addresses (n n' : netdev) : Prop := n' = n <| flags := flags n' |>.

Definition now (s s' : netstate) (n : netdev) (v : bool * bool * bool * bool) : Prop :=
  ∃ n', becomes d n' s s' ∧ same_addresses n n' ∧ view n' = v.

Lemma now_refl s n : netdev_list s !! d = Some n → is_Some (netdev_default s) → now s s n (view n).
Proof.
  intros Hn Hd. exists n. split_and!; [split; [|done]|by destruct n|done].
  by rewrite list_insert_id.
Qed.

Lemma wp_set_status s n up :
  netdev_list s !! d = Some n → is_Some (netdev_default s) →
  wp (netdev_low_level_set_status d up)
    (λ _ s', let '(u, l, i, h) := view n in now s s' n (up, l, i, h)) s.
Proof.
  intros Hn Hd. pose proof (view_set n) as Hv. destruct (view n) as [[[u l] i] h] eqn:Ev.
  destruct Hv as (V1 & _ & _ & V4 & _). assert (u = netdev_is_up n) as Hu by (unfold view in Ev; congruence).
  assert (d < length (netdev_list s))%nat as Hlt by by eapply lookup_lt_Some.
  unfold netdev_low_level_set_status. apply wp_bind. eapply wp_get_netdev; [done|].
  destruct (Bool.eqb (netdev_is_up n) up) eqn:Eq.
  { apply Bool.eqb_prop in Eq. apply wp_ret. rewrite <- Eq, <- Hu, <- Ev. by apply now_refl. }
  apply wp_bind. destruct up.
  - eapply wp_upd; [done|]. eapply wp_callback; [cbn; by apply list_lookup_insert_eq|..];
      intros; by exists (set_flag NETDEV_FLAG_UP n).
  - apply wp_bind. eapply wp_upd; [done|]. eapply wp_mono; [by apply wp_auto_default|].
    intros _ s' [Hl Hdef]. cbn in Hl.
    eapply wp_callback; [rewrite Hl; by apply list_lookup_insert_eq|..];
      intros; by exists (clear_flag NETDEV_FLAG_UP n).
Qed.

Lemma wp_set_link_status s n up :
  netdev_list s !! d = Some n → is_Some (netdev_default s) →
  wp (netdev_low_level_set_link_status d up)
    (λ _ s', let '(u, l, i, h) := view n in
             now s s' n (u, up, if Bool.eqb l up then i else i && up, h)) s.
Proof.
  intros Hn Hd. pose proof (view_set n) as Hv. destruct (view n) as [[[u l] i] h] eqn:Ev.
  destruct Hv as (_ & V2 & _ & _ & V5 & _).
  assert (l = netdev_is_link_up n) as Hl by (unfold view in Ev; congruence).
  assert (d < length (netdev_list s))%nat as Hlt by by eapply lookup_lt_Some.
  unfold netdev_low_level_set_link_status. apply wp_bind. eapply wp_get_netdev; [done|].
  rewrite <- Hl. destruct (Bool.eqb l up) eqn:Eq.
  { apply Bool.eqb_prop in Eq. apply wp_ret. rewrite <- Eq, <- Ev. by apply now_refl. }
  apply wp_bind. destruct up.
  - rewrite andb_true_r. apply wp_bind. eapply wp_upd; [done|]. destruct (_ && _).
    all: (apply wp_ret || apply wp_modify); (eapply wp_callback; [cbn; by apply list_lookup_insert_eq|..]);
      intros; by exists (set_flag NETDEV_FLAG_LINK_UP n).
  - rewrite andb_false_r. apply wp_bind. eapply wp_upd; [done|]. apply wp_bind.
    eapply wp_upd; [cbn; by apply list_lookup_insert_eq|]. cbn. rewrite list_insert_insert_eq.
    eapply wp_mono; [by apply wp_auto_default|]. intros _ s' [Hl' Hdef]. cbn in Hl'.
    eapply wp_callback; [rewrite Hl'; by apply list_lookup_insert_eq|..];
      intros; by exists (clear_flag NETDEV_FLAG_INTERNET_UP (clear_flag NETDEV_FLAG_LINK_UP n)).
Qed.

Lemma wp_set_dhcp s n on :
  netdev_list s !! d = Some n → is_Some (netdev_default s) →
  wp (netdev_low_level_set_dhcp_status d on)
    (λ _ s', let '(u, l, i, h) := view n in now s s' n (u, l, i, on)) s.
Proof.
  intros Hn Hd. pose proof (view_set n) as Hv. destruct (view n) as [[[u l] i] h] eqn:Ev.
  destruct Hv as (_ & _ & V3 & _ & _ & V6).
  assert (h = netdev_is_dhcp_enabled n) as Hh by (unfold view in Ev; congruence).
  assert (d < length (netdev_list s))%nat as Hlt by by eapply lookup_lt_Some.
  unfold netdev_low_level_set_dhcp_status. apply wp_bind. eapply wp_get_netdev; [done|].
  destruct (Bool.eqb (netdev_is_dhcp_enabled n) on) eqn:Eq.
  { apply Bool.eqb_prop in Eq. apply wp_ret. rewrite <- Eq, <- Hh, <- Ev. by apply now_refl. }
  apply wp_bind. eapply wp_upd; [done|]. eapply wp_callback; [cbn; by apply list_lookup_insert_eq|..];
    intros; destruct on;
    [by exists (set_flag NETDEV_FLAG_DHCP n)|by exists (clear_flag NETDEV_FLAG_DHCP n)
    |by exists (set_flag NETDEV_FLAG_DHCP n)|by exists (clear_flag NETDEV_FLAG_DHCP n)].
Qed.

(** The address call changes that address only. *)
Lemma wp_set_ipaddr s n addr :
  netdev_list s !! d = Some n → is_Some (netdev_default s) →
  wp (netdev_low_level_set_ipaddr d addr) (λ _, becomes d (n <| ip_addr := addr |>) s) s.
Proof.
  intros Hn Hd. assert (d < length (netdev_list s))%nat as Hlt by by eapply lookup_lt_Some.
  unfold netdev_low_level_set_ipaddr. apply wp_bind. eapply wp_get_netdev; [done|]. case_if.
  { apply wp_ret. subst addr. split; [|done].
    rewrite (list_insert_id _ d); [done|]. rewrite Hn. by destruct n. }
  apply wp_bind. eapply wp_upd; [done|]. apply wp_bind. destruct (_ && _).
  all: (apply wp_ret || apply wp_modify); (eapply wp_callback; [cbn; by apply list_lookup_insert_eq|..]);
    intros; done.
Qed.

Lemma wp_set_dns s n num addr :
  netdev_list s !! d = Some n → is_Some (netdev_default s) →
  wp (netdev_low_level_set_dns_server d num addr)
    (λ _ s', ∃ n', becomes d n' s s' ∧ view n' = view n) s.
Proof.
  intros Hn Hd. assert (d < length (netdev_list s))%nat as Hlt by by eapply lookup_lt_Some.
  assert (becomes d n s s) as Hid by (split; [by rewrite list_insert_id|done]).
  unfold netdev_low_level_set_dns_server. apply wp_bind. eapply wp_get_netdev; [done|].
  destruct (existsb _ _); [apply wp_ret; eauto|]. destruct (num <? _)%nat; [|apply wp_ret; eauto].
  apply wp_bind. eapply wp_upd; [done|]. eapply wp_callback; [cbn; by apply list_lookup_insert_eq|..];
    intros; (eexists; split; [by split|by destruct n]).
Qed.
End status.
