(* ===== verification/AtDevice.v ===== *)
(** The modem as a network device: applications/at_device_a9g.c.

    [device] is the state the functions of the file share: the AT client and its
    environment, the network interfaces, [is_init], the pins and the threads started.
    The initialisation runs in a thread of its own with local variables [init]; its macro
    [AT_SEND_CMD] leaves the attempt with "goto __exit", so an attempt is a computation
    in [attempt], where [None] is that jump.  The pins, the clock, the creation of
    threads and the set-up of the client (AtInit.v: [at_client_init] and [at_client_get], which
    may fault) are the interface [Board]; [patience] bounds the
    polls of a pin the model follows. *)

From S2P Require Import Prelude CLib Event AtClient AtSocket AtParser Netdev.

Class Board (W : Type) : Type := {
  rt_pin_read : Z → W → Z * W;
  rt_pin_write : Z → Z → W → W;
  rt_pin_mode : Z → Z → W → W;
  rt_tick_get : W → Z;
  rt_thread_create : W → bool * W;
  at_client_init : W → res bool * W }.

Definition PIN_LOW := 0.
Definition PIN_HIGH := 1.
Definition PIN_MODE_OUTPUT := 0.
Definition PIN_MODE_INPUT := 1.
Definition A9G_WAIT_CONNECT_TIME := 5000.
Definition CSTT_CHINA_MOBILE : cstr := bytes "AT+CSTT=" ++ [34] ++ bytes "CMNET" ++ [34].
Definition CSTT_CHINA_UNICOM : cstr := bytes "AT+CSTT=" ++ [34] ++ bytes "UNINET" ++ [34].
Definition CSTT_CHINA_TELECOM : cstr := bytes "AT+CSTT=" ++ [34] ++ bytes "CTNET" ++ [34].
Definition A9G_IEMI_RESP_SIZE := 32.
Definition A9G_IPADDR_RESP_SIZE := 32.
Definition A9G_NETDEV_HWADDR_LEN := 8.
Definition A9G_IEMI_LEN := 15.
Definition IP_ADDR_SIZE_MAX := 16.
Definition A9G_LINK_STATUS_OK := 1.
Definition A9G_LINK_RESP_SIZE := 128.
Definition A9G_LINK_RESP_TIMO := 3 * RT_TICK_PER_SECOND.
Definition A9G_LINK_DELAY_TIME := 30 * RT_TICK_PER_SECOND.
Definition a9g_DNS_RESP_LEN := 8.
Definition A9G_NETDEV_MTU := 1500.
Definition INIT_RETRY := 5%nat.
Definition CPIN_RETRY := 10%nat.
Definition CSQ_RETRY := 10%nat.
Definition CREG_RETRY := 10%nat.
Definition CGREG_RETRY := 20%nat.

Definition A9G_INFO_RESP_TIMO := rt_tick_from_millisecond 300.

(** The threads this file starts. *)
Inductive thread : Type := InitThread | LinkThread.

Record device (W : Type) : Type := MkDevice {
  client : world W;
  net : netstate;
  netdev_of : option nat;
  is_init : bool;
  power_pin : Z;
  power_status_pin : Z;
  threads : list thread;
  urc_tables : option (list (list (at_urc (W := W)))) }.
Arguments MkDevice {W}.
Arguments client {W}. Arguments net {W}. Arguments netdev_of {W}. Arguments is_init {W}.
Arguments power_pin {W}. Arguments power_status_pin {W}. Arguments threads {W}.
Arguments urc_tables {W}.
#[global] Instance device_eta {W} : Eta (device W) :=
  λ d, MkDevice (client d) (net d) (netdev_of d) (is_init d) (power_pin d)
    (power_status_pin d) (threads d) (urc_tables d).

(** The local variables of the initialisation: [parsed_data] is the string its ten bytes
    hold, [qimux] is [None] until a number is stored. *)
Record init (W : Type) : Type := MkInit {
  dev : device W;
  ini_resp : at_response;
  parsed_data : cstr;
  qimux : option Z;
  ini_result : Z }.
Arguments MkInit {W}.
Arguments dev {W}. Arguments ini_resp {W}. Arguments parsed_data {W}.
Arguments qimux {W}. Arguments ini_result {W}.
#[global] Instance init_eta {W} : Eta (init W) :=
  λ i, MkInit (dev i) (ini_resp i) (parsed_data i) (qimux i) (ini_result i).

(** A computation on a part of the state. *)
Definition zoom {S T A} (get : S → T) (put : T → S → S) (m : io T A) : io S A := λ s,
  match m (get s) with Ret (a, t) => Ret (a, put t s) | Fault f => Fault f end.

Section device.
Context {W : Type} `{Modem W, Board W}.
Variable patience : nat.

Definition on_client {A} : io (world W) A → io (device W) A :=
  zoom client (λ c d, d <| client := c |>).
Definition on_net {A} : io netstate A → io (device W) A := zoom net (λ n d, d <| net := n |>).
Definition on_board {A} (f : W → A * W) : io (device W) A := on_client (on_modem f).
Definition mdelay (ms : Z) : io (device W) unit := on_client (rt_thread_mdelay ms).

(** * Calls of the AT client this file adds *)

Definition at_resp_get_line (resp : at_response) (resp_line : Z) : option cstr :=
  if (Z.of_nat (length (lines resp)) <? resp_line) || (resp_line <=? 0) then None
  else lines resp !! Z.to_nat (resp_line - 1).

Definition at_resp_parse_line_args (resp : at_response) (resp_line : Z)
    (expr : list directive) : res (Z * list scanned) :=
  match at_resp_get_line resp resp_line with
  | None => Ret (-1, [])
  | Some l => sscanf l expr
  end.

(** "AT" is sent until a response ends or [tmo] ticks are over. *)
Fixpoint wait_loop (fuel : nat) (start tmo resp_tmo : Z) : io (world W) Z :=
  match fuel with
  | O => io_fault Blocked
  | S fuel =>
      now ← on_modem (λ m, (rt_tick_get m, m));
      if tmo <? u32 (now - start) then mret (- RT_ETIMEOUT)
      else
        uart_write (bytes "AT" ++ CRLF) ;;
        a ← take_notice resp_tmo;
        if notice a then
          modify (λ w, w <| resp_status := ans_status a |>) ;; mret RT_EOK
        else wait_loop fuel start tmo resp_tmo
  end.

(** Each round without a response takes [resp_tmo] ticks or more. *)
Definition wait_fuel (tmo resp_tmo : Z) : nat := S (S (Z.to_nat (tmo / resp_tmo))).

Definition at_client_obj_wait_connect (timeout : Z) : io (world W) Z :=
  let tmo := rt_tick_from_millisecond timeout in
  let resp_tmo := rt_tick_from_millisecond 300 in
  resp ← at_create_resp 64 0 resp_tmo;
  match resp with
  | None => mret (- RT_ENOMEM)
  | Some resp =>
      rt_mutex_take ;;
      start ← on_modem (λ m, (rt_tick_get m, m));
      result ← wait_loop (wait_fuel tmo resp_tmo) start tmo resp_tmo;
      at_delete_resp resp ;;
      rt_mutex_release ;;
      mret result
  end.

(** * Power *)

Fixpoint wait_pin (fuel : nat) (pin level : Z) : io (device W) unit :=
  match fuel with
  | O => io_fault Blocked
  | S fuel =>
      v ← on_board (rt_pin_read pin);
      if v =? level then mdelay 10 ;; wait_pin fuel pin level else mret tt
  end.

Definition pin_write (pin level : Z) : io (device W) unit :=
  on_board (λ m, (tt, rt_pin_write pin level m)).

Definition a9g_power_on : io (device W) unit :=
  p ← gets power_pin; s ← gets power_status_pin;
  if (p =? -1) || (s =? -1) then mret tt
  else
    v ← on_board (rt_pin_read s);
    if v =? PIN_HIGH then mret tt
    else
      pin_write p PIN_HIGH ;;
      wait_pin patience s PIN_LOW ;;
      pin_write p PIN_LOW.

Definition a9g_power_off : io (device W) unit :=
  p ← gets power_pin; s ← gets power_status_pin;
  if (p =? -1) || (s =? -1) then mret tt
  else
    v ← on_board (rt_pin_read s);
    if v =? PIN_LOW then mret tt
    else
      pin_write p PIN_HIGH ;;
      wait_pin patience s PIN_HIGH ;;
      pin_write p PIN_LOW.

(** * The interface of the modem *)

(** The array [iemi] holding the text [t]. *)
Definition iemi_at (t : cstr) (j : nat) : Z := nth j t 0.

Definition hwaddr_of_iemi (t : cstr) : list Z :=
  map (λ i, let j := (2 * i)%nat in
        u8 (if negb (Z.of_nat j =? A9G_IEMI_LEN - 1)
            then (iemi_at t j - 48) * 10 + (iemi_at t (S j) - 48)
            else iemi_at t j - 48))
    (seq 0 (Z.to_nat A9G_NETDEV_HWADDR_LEN)).

(** The text a conversion stored in an array of [size] bytes. *)
Definition stored_text (size : Z) (vs : list scanned) : res cstr :=
  match vs with
  | SText t :: _ => if Z.of_nat (length t) <? size then Ret t else Fault OutOfBounds
  | _ => Ret []
  end.

(** The address of the modem, asked with the response object [resp]. *)
Definition set_ip_address (nd : nat) (resp : at_response) : io (device W) (Z * at_response) :=
  resp ← on_client (at_resp_set_info resp A9G_IPADDR_RESP_SIZE 2 A9G_INFO_RESP_TIMO);
  r ← on_client (at_obj_exec_cmd (Some resp) (bytes "AT+CIFSR"));
  let resp := default resp r.2 in
  if r.1 <? 0 then mret (- RT_ERROR, resp)
  else
    v ← lift (at_resp_parse_line_args_by_kw resp (bytes ".") [GetStr]);
    ipaddr ← lift (stored_text IP_ADDR_SIZE_MAX v.2);
    if v.1 <=? 0 then mret (- RT_ERROR, resp)
    else
      addr ← lift (match netdev_ip4addr_aton ipaddr with
                   | Some addr => Ret addr
                   | None => Fault Uninitialised
                   end);
      on_net (netdev_low_level_set_ipaddr nd addr) ;;
      mret (RT_EOK, resp).

(** The hardware address, made of the digits of the IMEI. *)
Definition set_hwaddr (nd : nat) (resp : at_response) : io (device W) (Z * at_response) :=
  r ← on_client (at_obj_exec_cmd (Some resp) (bytes "AT+GSN"));
  let resp := default resp r.2 in
  if r.1 <? 0 then mret (- RT_ERROR, resp)
  else
    v ← lift (at_resp_parse_line_args resp 2 [GetStr]);
    iemi ← lift (stored_text A9G_IEMI_LEN v.2);
    if v.1 <=? 0 then mret (- RT_ERROR, resp)
    else
      on_net (upd_netdev nd (λ n, n <| hwaddr_len := A9G_NETDEV_HWADDR_LEN |>
                                    <| hwaddr := hwaddr_of_iemi iemi |>)) ;;
      mret (RT_EOK, resp).

Definition a9g_netdev_set_info (nd : nat) : io (device W) Z :=
  found ← gets (λ d, device_found (client d));
  if negb found then mret (- RT_ERROR)
  else
    on_net (netdev_low_level_set_status nd true) ;;
    on_net (netdev_low_level_set_link_status nd true) ;;
    on_net (netdev_low_level_set_dhcp_status nd true) ;;
    resp ← on_client (at_create_resp A9G_IEMI_RESP_SIZE 0 A9G_INFO_RESP_TIMO);
    match resp with
    | None => mret (- RT_ENOMEM)
    | Some resp =>
        r ← set_hwaddr nd resp;
        r ← (if r.1 =? RT_EOK then set_ip_address nd r.2 else mret r);
        on_client (at_delete_resp r.2) ;;
        mret r.1
    end.

(** [link_status] after the conversion: it stays -1 when the line does not name it. *)
Definition status_of (vs : list scanned) : Z := match vs with [_; SInt z] => z | _ => -1 end.

(** One round of the link thread. *)
Definition check_link_status (nd : nat) (resp : at_response) : io (device W) at_response :=
  r ← on_client (at_obj_exec_cmd (Some resp) (bytes "AT+CREG?"));
  let resp := default resp r.2 in
  if r.1 <? 0 then mdelay A9G_LINK_DELAY_TIME ;; mret resp
  else
    v ← lift (at_resp_parse_line_args_by_kw resp (bytes "+CREG:")
                (lits (bytes "+CREG:") ++ [Blank; IntD] ++ lits (bytes ",") ++ [IntD]));
    let link_status := status_of v.2 in
    up ← gets (λ d, netdev_is_link_up <$> netdev_list (net d) !! nd);
    match up with
    | None => io_fault NullDeref
    | Some up =>
        (if negb (Bool.eqb (A9G_LINK_STATUS_OK =? link_status) up)
         then on_net (netdev_low_level_set_link_status nd (A9G_LINK_STATUS_OK =? link_status))
         else mret tt) ;;
        mdelay A9G_LINK_DELAY_TIME ;;
        mret resp
    end.

Fixpoint check_link_rounds (n : nat) (nd : nat) (resp : at_response) : io (device W) at_response :=
  match n with
  | O => mret resp
  | S n => resp ← check_link_status nd resp; check_link_rounds n nd resp
  end.

(** [n] rounds of the thread, or its end when it has no device or memory. *)
Definition check_link_status_entry (n nd : nat) : io (device W) unit :=
  found ← gets (λ d, device_found (client d));
  if negb found then mret tt
  else
    resp ← on_client (at_create_resp A9G_LINK_RESP_SIZE 0 A9G_LINK_RESP_TIMO);
    match resp with
    | None => mret tt
    | Some resp => check_link_rounds n nd resp ;; mret tt
    end.

Definition start_thread (t : thread) : io (device W) bool :=
  tid ← on_board rt_thread_create;
  if tid : bool then modify (λ d, d <| threads := threads d ++ [t] |>) ;; mret true
  else mret false.

Definition a9g_netdev_check_link_status (nd : option nat) : io (device W) Z :=
  match nd with
  | None => mret (- RT_ERROR)
  | Some _ => start_thread LinkThread ;; mret RT_EOK
  end.

Definition a9g_net_init : io (device W) Z :=
  tid ← start_thread InitThread;
  mret (if tid : bool then RT_EOK else - RT_ERROR).

Definition a9g_netdev_set_up (nd : nat) : io (device W) Z :=
  found ← gets (λ d, device_found (client d));
  if negb found then mret (- RT_ERROR)
  else
    i ← gets is_init;
    if i : bool then mret RT_EOK
    else
      a9g_net_init ;;
      modify (λ d, d <| is_init := true |>) ;;
      on_net (netdev_low_level_set_status nd true) ;;
      mret RT_EOK.

Definition a9g_netdev_set_down (nd : nat) : io (device W) Z :=
  found ← gets (λ d, device_found (client d));
  if negb found then mret (- RT_ERROR)
  else
    i ← gets is_init;
    if negb i then mret RT_EOK
    else
      a9g_power_off ;;
      modify (λ d, d <| is_init := false |>) ;;
      on_net (netdev_low_level_set_status nd false) ;;
      mret RT_EOK.

Definition a9g_netdev_set_dns_server (nd dns_num : nat) (dns_server : Z) : io (device W) Z :=
  found ← gets (λ d, device_found (client d));
  if negb found then mret (- RT_ERROR)
  else
    resp ← on_client (at_create_resp a9g_DNS_RESP_LEN 0 (rt_tick_from_millisecond 300));
    match resp with
    | None => mret (- RT_ENOMEM)
    | Some resp =>
        text ← lift (netdev_ip4addr_ntoa dns_server);
        match text with
        | None => io_fault NullDeref
        | Some text =>
            r ← on_client (at_obj_exec_cmd (Some resp) (bytes "AT+CDNSCFG=" ++ [34] ++ text ++ [34]));
            result ← (if r.1 <? 0 then mret (- RT_ERROR)
                      else on_net (netdev_low_level_set_dns_server nd dns_num dns_server) ;; mret RT_EOK);
            on_client (at_delete_resp (default resp r.2)) ;;
            mret result
        end
    end.

(** [recv_num] is passed by value, zero: a number stored goes through a null pointer.
    The result, and [ip] afterwards. *)
Definition a9g_ping_domain_resolve (name ip : cstr) : io (device W) (Z * cstr) :=
  resp ← on_client (at_create_resp 512 0 (14 * RT_TICK_PER_SECOND));
  match resp with
  | None => mret (- RT_ENOMEM, ip)
  | Some resp =>
      r ← on_client (at_obj_exec_cmd (Some resp) (bytes "AT+CGACT=1,1"));
      let resp := default resp r.2 in
      if r.1 <? 0 then on_client (at_delete_resp resp) ;; mret (- RT_ERROR, ip)
      else
        r ← on_client (at_obj_exec_cmd (Some resp) (bytes "AT+CDNSGIP=" ++ [34] ++ name ++ [34]));
        let resp := default resp r.2 in
        mdelay 10 ;;
        v ← lift (at_resp_parse_line_args_by_kw resp (bytes "+CDNSGIP:")
              (lits (bytes "+CDNSGIP:(") ++ [IntD] ++ lits (bytes "),") ++ lits [34; 40] ++
               [GetStr] ++ lits [41; 34; 44; 34; 40] ++ [GetStr] ++ lits [41; 34; 44]));
        match v.2 with
        | _ :: _ => io_fault NullDeref
        | [] =>
            (if v.1 <? 0 then mdelay 100 else mret tt) ;;
            mdelay 100 ;;
            on_client (at_delete_resp resp) ;;
            mret (RT_EOK, ip)
        end
  end.

(** [rt_calloc], the socket layer's family and the registration. *)
Definition a9g_netdev_add (netdev_name : cstr) : io (device W) (option nat) :=
  ok ← on_client (rt_calloc 68);
  if ok : bool then
    nd ← on_net (netdev_register
           (MkNetdev [] 0 0 0 [] 0 (replicate NETDEV_HWADDR_MAX_LEN 0) 0 A9G_NETDEV_MTU
              false false false) netdev_name);
    mret (Some nd)
  else mret None.

(** * Initialisation *)

Abbreviation attempt A := (io (init W) (option A)).
Definition continue {A} (m : io (init W) A) : attempt A := a ← m; mret (Some a).
Definition goto_exit {A} (result : Z) : attempt A :=
  modify (λ i, i <| ini_result := result |>) ;; mret None.
Definition and_then {A B} (m : attempt A) (k : A → attempt B) : attempt B :=
  r ← m; match r with Some a => k a | None => mret None end.
Notation "x '←!' m ; k" := (and_then m (λ x, k)) (at level 20, m at level 100, k at level 200).
Notation "m ';!' k" := (and_then m (λ _, k)) (at level 100, k at level 200, right associativity).

Definition on_dev {A} : io (device W) A → io (init W) A := zoom dev (λ d i, i <| dev := d |>).
Definition wait (ms : Z) : attempt unit := continue (on_dev (mdelay ms)).

(** The command with the response object of the thread, and its error code. *)
Definition exec (line_num tmo : Z) (cmd : cstr) : io (init W) Z :=
  resp ← gets ini_resp;
  resp ← on_dev (on_client (at_resp_set_info resp 128 line_num (rt_tick_from_millisecond tmo)));
  r ← on_dev (on_client (at_obj_exec_cmd (Some resp) cmd));
  modify (λ i, i <| ini_resp := default resp r.2 |>) ;;
  mret r.1.

Definition AT_SEND_CMD (line_num tmo : Z) (cmd : cstr) : attempt unit :=
  r ← exec line_num tmo cmd;
  if r <? 0 then goto_exit (- RT_ERROR) else mret (Some tt).

(** [at_resp_parse_line_args_by_kw] into [parsed_data], an array of ten bytes. *)
Definition parse_text (kw : cstr) (expr : list directive) : io (init W) unit :=
  resp ← gets ini_resp;
  v ← lift (at_resp_parse_line_args_by_kw resp kw expr);
  match v.2 with
  | [] => mret tt
  | _ => t ← lift (stored_text 10 v.2); modify (λ i, i <| parsed_data := t |>)
  end.
(** ... and into [qimux]. *)
Definition parse_number (kw : cstr) (expr : list directive) : io (init W) unit :=
  resp ← gets ini_resp;
  v ← lift (at_resp_parse_line_args_by_kw resp kw expr);
  match v.2 with
  | SInt z :: _ => modify (λ i, i <| qimux := Some z |>)
  | _ => mret tt
  end.
Definition parsed_is (t : cstr) : io (init W) bool := gets (λ i, str_eq (parsed_data i) t).
Definition qimux_is_0 : io (init W) bool :=
  q ← gets qimux;
  match q with Some z => mret (z =? 0) | None => io_fault Uninitialised end.

(** [for (i = lo; i < lo + n; i++) { body; wait }], where [body] says whether the loop is
    left by [break]; the value is whether it was. *)
Fixpoint for_break (n : nat) (lo : Z) (pause : Z → Z) (body : attempt bool) : attempt bool :=
  match n with
  | O => mret (Some false)
  | S n =>
      stop ←! body;
      if stop : bool then mret (Some true)
      else wait (pause lo) ;! for_break n (lo + 1) pause body
  end.
Definition a_second (i : Z) : Z := 1000.

Definition cpin_loop : attempt bool :=
  for_break CPIN_RETRY 0 a_second (
    AT_SEND_CMD 2 (10 * 1000) (bytes "AT+CCID") ;!
    resp ←! continue (gets ini_resp);
    mret (Some (bool_decide (is_Some (at_resp_get_line_by_kw resp (bytes "+CCID:")))))).

(** [for (i = 0; i <= 30; i++) { i++; ... }] *)
Fixpoint rst_loop (fuel : nat) (i : Z) : attempt unit :=
  match fuel with
  | O => io_fault Blocked
  | S fuel => if i <=? 30 then wait 1000 ;! rst_loop fuel (i + 1 + 1) else mret (Some tt)
  end.

Definition creg_loop : attempt bool :=
  for_break CREG_RETRY 0 (λ i, 1000 + 500 * (i + 1)) (
    AT_SEND_CMD 0 300 (bytes "AT+CREG?") ;!
    continue (parse_text (bytes "+CREG:") (lits (bytes "+CREG:") ++ [Blank; GetStr])) ;!
    home ←! continue (parsed_is (bytes "1,1"));
    roaming ←! continue (parsed_is (bytes "1,5"));
    mret (Some ((home : bool) || (roaming : bool)))).

(** The attachment is asked for until the modem agrees; the error is ignored. *)
Definition cgatt_loop (cmd : cstr) : attempt unit :=
  for_break INIT_RETRY 0 a_second (
    r ←! continue (exec 0 (10 * 1000) cmd);
    mret (Some (r =? RT_EOK))) ;!
  mret (Some tt).

Definition cmd_cgdcont : cstr :=
  bytes "AT+CGDCONT=1," ++ [34] ++ bytes "IP" ++ [34; 44; 34] ++ bytes "CMNET" ++ [34].

Definition cgreg_loop : attempt bool :=
  for_break CGREG_RETRY 0 a_second (
    cgatt_loop (bytes "AT+CGATT=1") ;!
    AT_SEND_CMD 0 1000 cmd_cgdcont ;!
    wait 10 ;!
    AT_SEND_CMD 0 (5 * 1000) (bytes "AT+CGACT=1,1") ;!
    wait 10 ;!
    continue (parse_text (bytes "OK") [GetStr]) ;!
    continue (parsed_is (bytes "OK"))).

Definition csq_loop : attempt bool :=
  for_break CSQ_RETRY 0 a_second (
    AT_SEND_CMD 0 300 (bytes "AT+CSQ") ;!
    continue (parse_text (bytes "+CSQ:") (lits (bytes "+CSQ:") ++ [Blank; GetStr])) ;!
    none ←! continue (parsed_is (bytes "99,99"));
    mret (Some (negb none))).

Definition check (ok : attempt bool) : attempt unit :=
  b ←! ok;
  if b : bool then mret (Some tt) else goto_exit (- RT_ERROR).

(** The access point of the operator. *)
Definition set_operator : attempt unit :=
  AT_SEND_CMD 0 300 (bytes "AT+COPS?") ;!
  continue (parse_text (bytes "+COPS:")
    (lits (bytes "+COPS:") ++ [Blank; SkipSet 34; Lit 34; GetSet 34])) ;!
  mobile ←! continue (parsed_is (bytes "CHINA MOBILE"));
  unicom ←! continue (parsed_is (bytes "CHN-UNICOM"));
  telecom ←! continue (parsed_is (bytes "CHN-CT"));
  if mobile : bool then AT_SEND_CMD 0 300 CSTT_CHINA_MOBILE
  else if unicom : bool then AT_SEND_CMD 0 300 CSTT_CHINA_UNICOM
  else if telecom : bool then AT_SEND_CMD 0 300 CSTT_CHINA_TELECOM
  else mret (Some tt).

(** A query answered by a number, and the command sent when it is 0. *)
Definition turn_on (query : cstr) (kw : cstr) (expr : list directive) (tmo : Z) (cmd : cstr)
    : attempt unit :=
  AT_SEND_CMD 0 300 query ;!
  continue (parse_number kw expr) ;!
  off ←! continue qimux_is_0;
  if off : bool then AT_SEND_CMD 0 tmo cmd else mret (Some tt).

Definition startup : attempt unit :=
  wait 500 ;!
  continue (on_dev a9g_power_on) ;!
  wait 1000 ;!
  r ←! continue (on_dev (on_client (at_client_obj_wait_connect A9G_WAIT_CONNECT_TIME)));
  if negb (r =? 0) then goto_exit (- RT_ETIMEOUT) else mret (Some tt).

(** The body of the loop up to the label. *)
Definition init_attempt : attempt unit :=
  continue (modify (λ i, i <| parsed_data := [] |>)) ;!
  startup ;!
  AT_SEND_CMD 0 300 (bytes "ATE0") ;!
  AT_SEND_CMD 5 300 (bytes "ATI") ;!
  check cpin_loop ;!
  AT_SEND_CMD 0 300 (bytes "AT+RST=1") ;!
  rst_loop 31 0 ;!
  wait 1000 ;!
  check creg_loop ;!
  cgatt_loop (bytes "AT+CGATT=0") ;!
  check cgreg_loop ;!
  check csq_loop ;!
  turn_on (bytes "AT+CIPMUX?") (bytes "+CIPMUX:") (lits (bytes "+CIPMUX:") ++ [IntD])
    (1 * 1000) (bytes "AT+CIPMUX=1") ;!
  set_operator ;!
  AT_SEND_CMD 2 300 (bytes "AT+CIFSR") ;!
  resp ←! continue (gets ini_resp);
  (if bool_decide (is_Some (at_resp_get_line_by_kw resp (bytes "ERROR")))
   then goto_exit (- RT_ERROR) else mret (Some tt)) ;!
  turn_on (bytes "AT+GPS?") (bytes "+GPS:") (lits (bytes "+GPS:") ++ [Blank; IntD])
    300 (bytes "AT+GPS=1") ;!
  continue (modify (λ i, i <| ini_result := RT_EOK |>)).

Fixpoint init_loop (retry_num : nat) : io (init W) unit :=
  match retry_num with
  | O => mret tt
  | S retry_num =>
      init_attempt ;;
      result ← gets ini_result;
      if result =? RT_EOK then mret tt
      else
        on_dev a9g_power_off ;;
        on_dev (mdelay 1000) ;;
        init_loop retry_num
  end.

(** What the thread leaves behind. *)
Definition init_done (nd : nat) (result : Z) : io (device W) unit :=
  if result =? RT_EOK then
    modify (λ d, d <| is_init := true |>) ;;
    a9g_netdev_set_info nd ;;
    a9g_netdev_check_link_status (Some nd) ;;
    mret tt
  else
    modify (λ d, d <| is_init := false |>) ;;
    on_net (netdev_low_level_set_status nd false).

Definition a9g_init_thread_entry (nd : nat) : io (device W) unit :=
  resp ← on_client (at_create_resp 128 0 (rt_tick_from_millisecond 300));
  match resp with
  | None => mret tt
  | Some resp =>
      d ← gets id;
      match init_loop INIT_RETRY (MkInit d resp [] None RT_EOK) with
      | Fault f => io_fault f
      | Ret (_, i) =>
          modify (λ _, dev i) ;;
          on_client (at_delete_resp (ini_resp i)) ;;
          init_done nd (ini_result i)
      end
  end.

(** * Registration *)

Definition urc_func (data : cstr) : io (world W) unit := mret tt.
Definition urc_table_device : list at_urc := [(bytes "READY", CRLF, Some urc_func)].

Definition set_urc_table (table : list at_urc) : io (device W) Z :=
  tables ← gets urc_tables;
  r ← on_client (at_obj_set_urc_table tables table);
  modify (λ d, d <| urc_tables := r.2 |>) ;;
  mret r.1.

Definition a9g_socket_init : io (device W) Z := set_urc_table urc_table ;; mret RT_EOK.

Definition a9g_init (device_name : cstr) : io (device W) Z :=
  found ← on_board at_client_init;
  found ← lift found;
  if negb found then mret (- RT_ERROR)
  else
    set_urc_table urc_table_device ;;
    a9g_socket_init ;;
    nd ← a9g_netdev_add device_name;
    modify (λ d, d <| netdev_of := nd |>) ;;
    match nd with
    | None => mret (- RT_ERROR)
    | Some nd =>
        p ← gets power_pin; s ← gets power_status_pin;
        (if negb (p =? -1) && negb (s =? -1) then
           on_board (λ m, (tt, rt_pin_mode p PIN_MODE_OUTPUT m)) ;;
           on_board (λ m, (tt, rt_pin_mode s PIN_MODE_INPUT m))
         else mret tt) ;;
        a9g_netdev_set_up nd
    end.

Definition a9g_deinit : io (device W) Z :=
  nd ← gets netdev_of;
  match nd with None => io_fault NullDeref | Some nd => a9g_netdev_set_down nd end.

Definition a9g_control (cmd : Z) : Z := - RT_ERROR.

(** The interface calls of the kernel on this device (netdev.c). *)
Definition netdev_set_up (nd : nat) : io (device W) Z :=
  n ← on_net (get_netdev nd);
  if netdev_is_up n then mret RT_EOK else a9g_netdev_set_up nd.
Definition netdev_set_down (nd : nat) : io (device W) Z :=
  n ← on_net (get_netdev nd);
  if negb (netdev_is_up n) then mret RT_EOK else a9g_netdev_set_down nd.
End device.
