(* ===== verification/AtDeviceSpec.v ===== *)
(** Correctness of the modem as a network device (AtDevice.v): what the initialisation
    sends and leaves behind, and when it ends. *)

From S2P Require Import Prelude CLib Event AtClient AtSocket AtSocketSpec.
From S2P Require Import AtEventSpec AtReceive AtParser Netdev NetdevSpec AtDevice.

(** * A modem that answers commands

    Each command is answered from a table, an unknown one with OK; a command it does not
    [hear] lets the caller wait. *)
Record station : Type := MkStation {
  replies : list (cstr * answer);
  last_cmd : cstr;
  ticks : Z }.

Definition reply_to (s : station) : answer :=
  match List.find (λ e, bool_decide (e.1 = last_cmd s)) (replies s) with
  | Some e => e.2
  | None => MkAnswer true AT_RESP_OK [bytes "OK"] []
  end.
Definition station_later (n : Z) (s : station) : station :=
  MkStation (replies s) (last_cmd s) (ticks s + n).
#[global] Instance station_modem : Modem station := {
  rt_malloc _ s := (true, s);
  rt_device_write t s :=
    (Z.of_nat (length t),
     if bool_decide (t = CRLF) then s else MkStation (replies s) t (ticks s));
  resp_notice tmo s :=
    let a := reply_to s in (a, station_later (if notice a then 0 else tmo) s);
  event_wait _ s := ([], s);
  at_client_getchar _ s := (None, s);
  rt_delay ms s := station_later ms s }.
#[global] Instance station_board : Board station := {
  rt_pin_read _ s := (0, s);
  rt_pin_write _ _ s := s;
  rt_pin_mode _ _ s := s;
  rt_tick_get s := u32 (ticks s);
  rt_thread_create s := (true, s);
  at_client_init s := (Ret true, s) }.

Definition ok_with (ls : list cstr) : answer := MkAnswer true AT_RESP_OK (ls ++ [bytes "OK"]) [].
Definition quoted (s : cstr) : cstr := [34] ++ s ++ [34].

(** The answers of a modem on a network; [operator] and [imei] are what it names. *)
Definition on_network (operator imei : cstr) : list (cstr * answer) :=
  [ (bytes "AT+CCID", ok_with [bytes "+CCID: 898600"]);
    (bytes "AT+CREG?", ok_with [bytes "+CREG: 1,1"]);
    (bytes "AT+CSQ", ok_with [bytes "+CSQ: 31,0"]);
    (bytes "AT+CIPMUX?", ok_with [bytes "+CIPMUX:0"]);
    (bytes "AT+COPS?", ok_with [bytes "+COPS: 0,2," ++ quoted operator]);
    (bytes "AT+GPS?", ok_with [bytes "+GPS: 1"]);
    (bytes "AT+GSN", ok_with [[]; imei]);
    (bytes "AT+CIFSR", ok_with [bytes "10.0.0.7"]) ].

Definition board (rs : list (cstr * answer)) : device station :=
  MkDevice (MkWorld false 0 0 0 1 10 (MkEvent 0 [] 0) true (replicate 8 None) 0 [] [] (MkStation rs [] 0))
    (MkNetstate [] None []) None false (-1) (-1) [] (Some []).

(** * Time passes *)

(** A wait for a response that ends without one takes its whole timeout, and writing to
    the serial line takes some time; a wait is shorter than half the range of the clock. *)
Class Clock (W : Type) `{Modem W, Board W} : Prop := {
  write_takes : ∀ t m, ∃ d, 0 <= d < 1073741824 ∧
    rt_tick_get (rt_device_write t m).2 = u32 (rt_tick_get m + d);
  timeout_takes : ∀ tmo m, 0 <= tmo < 1073741824 → notice (resp_notice tmo m).1 = false →
    ∃ d, tmo <= d < 2147483648 ∧ rt_tick_get (resp_notice tmo m).2 = u32 (rt_tick_get m + d) }.

#[export] Instance station_clock : Clock station.
Proof.
  assert (∀ t d, u32 (t + d) = u32 (u32 t + d)) as Hu
    by (intros; unfold u32; by rewrite Zplus_mod_idemp_l).
  split.
  - intros t m. exists 0. split; [lia|]. cbn. rewrite <- Hu, Z.add_0_r.
    by destruct (bool_decide (t = CRLF)).
  - intros tmo m Ht Hn. exists tmo. split; [lia|]. cbn in *. rewrite Hn. cbn. by rewrite <- Hu.
Qed.

Lemma wait_elapsed now start d : u32 (u32 (now + d) - start) = u32 (u32 (now - start) + d).
Proof. unfold u32. rewrite Zminus_mod_idemp_l, Zplus_mod_idemp_l. f_equal. lia. Qed.

(** * Languages of commands *)

(** A set of texts written, the texts of an attempt that was given up half-way, and one
    after the other. *)
Definition lang : Type := list cstr → Prop.
Definition starts (L : lang) : lang := λ ws, ∃ rest, L (ws ++ rest).
Definition after (L1 L2 : lang) : lang := λ ws, ∃ u v, ws = u ++ v ∧ L1 u ∧ L2 v.
Notation "L1 ⊙ L2" := (after L1 L2) (at level 39, right associativity).
Definition nothing : lang := λ ws, ws = [].
Definition one (cmd : cstr) : lang := λ ws, ws = command cmd.
Definition either (L1 L2 : lang) : lang := λ ws, L1 ws ∨ L2 ws.
Definition maybe (L : lang) : lang := either L nothing.
(** From [lo] to [hi] words of [L]. *)
Fixpoint times (k : nat) (L : lang) : lang :=
  match k with O => nothing | S k => L ⊙ times k L end.
Definition upto (n : nat) (L : lang) : lang := λ ws, ∃ k, (1 <= k <= n)%nat ∧ times k L ws.
Definition some_word (L : lang) : Prop := ∃ ws, L ws.

Lemma starts_self L ws : L ws → starts L ws.
Proof. exists []. by rewrite app_nil_r. Qed.

Lemma starts_first L1 L2 ws : some_word L2 → starts L1 ws → starts (L1 ⊙ L2) ws.
Proof.
  intros (v & Hv) (rest & Hr). exists (rest ++ v). rewrite app_assoc. unfold after. eauto.
Qed.

Lemma starts_second L1 L2 u v : L1 u → starts L2 v → starts (L1 ⊙ L2) (u ++ v).
Proof. intros Hu (rest & Hr). exists rest. exists u, (v ++ rest). by rewrite app_assoc. Qed.

Lemma some_word_one cmd : some_word (one cmd).
Proof. by exists (command cmd). Qed.
Lemma some_word_nothing : some_word nothing.
Proof. by exists []. Qed.
Lemma some_word_after L1 L2 : some_word L1 → some_word L2 → some_word (L1 ⊙ L2).
Proof. intros (u & Hu) (v & Hv). exists (u ++ v), u, v. done. Qed.
Lemma some_word_times k L : some_word L → some_word (times k L).
Proof. intros HL. induction k; cbn; [apply some_word_nothing|by apply some_word_after]. Qed.
Lemma some_word_upto n L : (0 < n)%nat → some_word L → some_word (upto n L).
Proof. intros Hn HL. destruct (some_word_times 1 L HL) as (ws & ?). exists ws, 1%nat. split; [lia|done]. Qed.
Lemma some_word_either L1 L2 : some_word L1 → some_word (either L1 L2).
Proof. intros (u & Hu). exists u. by left. Qed.
Create HintDb words.
Create HintDb attempts.
#[export] Hint Resolve some_word_one some_word_nothing some_word_after some_word_times
  some_word_either : words.
#[export] Hint Extern 1 (some_word (upto _ _)) => apply some_word_upto; [lia|] : words.

(** * What a part of the initialisation does *)

Section attempts.
Context {W : Type} `{Modem W, Board W}.

(** The client answers commands, the pins are not wired and the response object has its
    buffer. *)
Definition steady (i : init W) : Prop :=
  cli (client (dev i)) = false ∧ (power_pin (dev i) = -1 ∨ power_status_pin (dev i) = -1) ∧
  buf (ini_resp i) = true ∧ buf_size (ini_resp i) = 128.

(** Nothing but the client, the response object and the local variables changed. *)
Definition kept (i i' : init W) : Prop :=
  dev i' = (dev i) <| client := client (dev i') |> ∧
  buf (ini_resp i') = buf (ini_resp i) ∧ buf_size (ini_resp i') = buf_size (ini_resp i).

(** From every steady state [m] returns after writing a word that satisfies [Q], with as
    many blocks live as before, or stops with a fault of [P]. *)
Definition does {A} (P : fault → Prop) (m : io (init W) A) (Q : A → Z → lang) : Prop :=
  ∀ i, steady i →
  match m i with
  | Ret (a, i') => ∃ ws, run ws 0 (client (dev i)) (client (dev i')) ∧ kept i i' ∧
                         Q a (ini_result i') ws
  | Fault f => P f
  end.

(** An attempt that comes to its end writes a word of [L], one that is given up the
    beginning of a word, with an error as its result. *)
Definition follows {A} (P : fault → Prop) (m : io (init W) (option A)) (L : A → lang) : Prop :=
  does P m (λ a result ws, match a with
                           | Some a => L a ws
                           | None => result < 0 ∧ ∃ b, starts (L b) ws
                           end).

Lemma kept_steady i i' ws dh :
  steady i → kept i i' → run ws dh (client (dev i)) (client (dev i')) → steady i'.
Proof.
  intros (H1 & H2 & H3 & H4) (K1 & K2 & K3) (R1 & _ & _).
  assert (power_pin (dev i') = power_pin (dev i)) as Hp by (rewrite K1; done).
  assert (power_status_pin (dev i') = power_status_pin (dev i)) as Hs by (rewrite K1; done).
  unfold settings in R1. unfold steady. rewrite Hp, Hs, K2, K3. split_and!; [congruence|done..].
Qed.

Lemma kept_trans i1 i2 i3 : kept i1 i2 → kept i2 i3 → kept i1 i3.
Proof.
  intros (A1 & A2 & A3) (B1 & B2 & B3). split_and!; [|congruence..].
  rewrite B1, A1. done.
Qed.

Lemma acts_bind {A B} P (m : io (init W) A) (k : A → io (init W) B) Q Q' :
  does P m Q → (∀ a r ws, Q a r ws → does P (k a) (λ b r' ws', Q' b r' (ws ++ ws'))) →
  does P (mbind k m) Q'.
Proof.
  intros Hm Hk i Hi. specialize (Hm i Hi). unfold mbind, io_bind.
  destruct (m i) as [[a i1]|f]; [|done]. destruct Hm as (ws & Hr & Hkp & HQ).
  specialize (Hk a _ ws HQ i1 (kept_steady _ _ _ _ Hi Hkp Hr)).
  destruct (k a i1) as [[b i2]|f]; [|done]. destruct Hk as (ws' & Hr' & Hkp' & HQ').
  exists (ws ++ ws'). split_and!; [|by eapply kept_trans|done].
  replace 0 with (0 + 0) by lia. by eapply run_trans.
Qed.

Lemma acts_mono {A} P (m : io (init W) A) (Q Q' : A → Z → lang) :
  does P m Q → (∀ a r ws, Q a r ws → Q' a r ws) → does P m Q'.
Proof.
  intros Hm HQ i Hi. specialize (Hm i Hi). destruct (m i) as [[a i']|f]; [|done].
  destruct Hm as (ws & ? & ? & ?). eauto.
Qed.

Lemma kept_same i i' : dev i' = dev i → ini_resp i' = ini_resp i → kept i i'.
Proof. intros Hd Hr. split_and!; [|by rewrite Hr..]. rewrite Hd. by destruct (dev i). Qed.

Lemma kept_refl i : kept i i.
Proof. by apply kept_same. Qed.

Lemma acts_ret {A} P (a : A) (Q : A → Z → lang) : (∀ r, Q a r []) → does P (mret a) Q.
Proof. intros HQ i Hi. exists []. eauto using run_refl, kept_refl. Qed.

Lemma follows_and_then {A B} P (m : io (init W) (option A)) (k : A → io (init W) (option B)) L1 L2 L :
  follows P m L1 → (∀ a, follows P (k a) (L2 a)) →
  (∀ a b u v, L1 a u → L2 a b v → L b (u ++ v)) →
  (∀ a ws, starts (L1 a) ws → ∃ b, starts (L b) ws) →
  (∀ a b u v, L1 a u → starts (L2 a b) v → ∃ b, starts (L b) (u ++ v)) →
  follows P (and_then m k) L.
Proof.
  intros Hm Hk HL Hs1 Hs2 i Hi. specialize (Hm i Hi). unfold and_then, mbind, io_bind.
  destruct (m i) as [[[a|] i1]|f]; [| |done]; destruct Hm as (ws & Hr & Hkp & HQ).
  - specialize (Hk a i1 (kept_steady _ _ _ _ Hi Hkp Hr)).
    destruct (k a i1) as [[b i2]|f]; [|done]. destruct Hk as (ws' & Hr' & Hkp' & HQ').
    exists (ws ++ ws'). split_and!; [replace 0 with (0 + 0) by lia; by eapply run_trans
      |by eapply kept_trans|].
    destruct b as [b|]; [eauto|]. destruct HQ' as (Hneg & b & Hb). eauto.
  - cbn. destruct HQ as (Hneg & a & Ha). exists ws. split; [done|]. split; [done|]. eauto.
Qed.

(** The usual case: no value is handed on. *)
Lemma follows_seq {A B} P (m : io (init W) (option A)) (k : A → io (init W) (option B)) L1 L2 :
  follows P m (λ _, L1) → (∀ a, follows P (k a) (λ _, L2)) → some_word L2 → inhabited B →
  follows P (and_then m k) (λ _, L1 ⊙ L2).
Proof.
  intros Hm Hk Hw [b0]. eapply follows_and_then; [exact Hm|exact Hk|..].
  - intros ? ? u v Hu Hv. by exists u, v.
  - intros ? ws Hs. exists b0. by apply starts_first.
  - intros ? b u v Hu Hv. exists b. by apply starts_second.
Qed.

Lemma follows_ret {A} P (a : A) (L : A → lang) : L a [] → follows P (mret (Some a)) L.
Proof. intros HL. by apply acts_ret. Qed.

Lemma follows_mono {A} P (m : io (init W) (option A)) (L L' : A → lang) :
  follows P m L → (∀ a ws, L a ws → L' a ws) → follows P m L'.
Proof.
  intros Hm HL. eapply acts_mono; [exact Hm|]. intros [a|] r ws; [apply HL|].
  intros (Hr & a & rest & Ha). split; [done|]. exists a, rest. auto.
Qed.

(** A statement that only computes or stores. *)
Lemma follows_silent {A} P (m : io (init W) A) :
  does P m (λ _ _, nothing) → follows P (continue m) (λ _, nothing).
Proof.
  intros Hm. unfold follows, continue. eapply acts_bind; [exact Hm|].
  intros a r ws ->. apply acts_ret. done.
Qed.

Lemma follows_after_silent {A B} P (m : io (init W) (option A)) (k : A → io (init W) (option B)) L b0 :
  follows P m (λ _, nothing) → (∀ a, follows P (k a) L) → some_word (L b0) →
  follows P (and_then m k) L.
Proof.
  intros Hm Hk (w0 & Hw). eapply (follows_and_then P m k (λ _, nothing) (λ _, L)); [done|done|..].
  - by intros ? b u v -> Hv.
  - intros ? ws (rest & Hn). unfold nothing in Hn. apply app_eq_nil in Hn as [-> _].
    exists b0, w0. done.
  - intros ? b u v -> Hv. eauto.
Qed.

(** Values from a test; whichever is taken. *)
Lemma follows_if {A} P (b : bool) (m1 m2 : io (init W) (option A)) L :
  follows P m1 L → follows P m2 L → follows P (if b then m1 else m2) L.
Proof. by destruct b. Qed.

Lemma follows_goto_exit {A} P result (L : A → lang) (a : A) :
  result < 0 → some_word (L a) → follows P (goto_exit result) L.
Proof.
  intros Hneg (w0 & Hw) i Hi. unfold goto_exit, mbind, io_bind, modify. cbn. exists [].
  split_and!; [apply run_refl|by apply kept_same|done|]. by exists a, w0.
Qed.

(** ** Stores and conversions *)

Lemma does_gets {A} P (f : init W → A) : does P (gets f) (λ _ _, nothing).
Proof. intros i Hi. exists []. by split_and!; [apply run_refl|apply kept_refl|]. Qed.

Lemma acts_lift {A} (P : fault → Prop) (r : res A) :
  may_fault P (λ _, True) r → does P (lift r) (λ _ _, nothing).
Proof. intros Hr i Hi. unfold lift. destruct r; [|done]. exists [].
  by split_and!; [apply run_refl|apply kept_refl|]. Qed.

Lemma does_store P (f : init W → init W) :
  (∀ i, dev (f i) = dev i ∧ ini_resp (f i) = ini_resp i) → does P (modify f) (λ _ _, nothing).
Proof.
  intros Hf i Hi. destruct (Hf i) as [Hd Hr]. exists [].
  split_and!; [rewrite Hd; apply run_refl|by apply kept_same|done].
Qed.

(** A call of the client that writes [ws]. *)
Lemma does_client {A} P (m : io (world W) A) (Q : A → lang) :
  (∀ w, cli w = false → match m w with
     | Ret (a, w') => ∃ ws, run ws 0 w w' ∧ Q a ws
     | Fault f => P f end) →
  does P (on_dev (on_client m)) (λ a _, Q a).
Proof.
  intros Hm i Hi. specialize (Hm (client (dev i)) (proj1 Hi)).
  unfold on_dev, on_client, zoom. destruct (m (client (dev i))) as [[a w']|f]; [|done].
  destruct Hm as (ws & Hr & HQ). exists ws. split_and!; done.
Qed.

Lemma does_runs {A} P (m : io (world W) A) (Q : A → lang) :
  runs P m (λ a ws dh, dh = 0 ∧ Q a ws) → does P (on_dev (on_client m)) (λ a _, Q a).
Proof.
  intros Hm. apply does_client. intros w Hc. specialize (Hm w).
  destruct (m w) as [[a w']|f]; [|done]. destruct Hm as (ws & dh & Hr & -> & HQ). eauto.
Qed.

Lemma follows_wait P ms : follows P (wait ms) (λ _, nothing).
Proof.
  apply follows_silent, (does_runs _ _ (λ _, nothing)).
  eapply runs_mono; [apply runs_delay|]. intros _ ws dh [-> ->]. done.
Qed.

(** ** Commands *)

Lemma exec_open P resp cmd (w : world W) :
  (length cmd < 512)%nat → cli w = false →
  match at_obj_exec_cmd (Some resp) cmd w with
  | Ret (r, w') => run (command cmd) 0 w w' ∧ same_buffer (Some resp) r.2 ∧ (r.1 = RT_EOK ∨ r.1 < 0)
  | Fault f => P f
  end.
Proof.
  intros Hc Hcli. pose proof (runs_exec_locked P (Some resp) cmd Hc w) as Hr.
  unfold at_obj_exec_cmd, mbind, io_bind, gets. rewrite Hcli. cbn [andb].
  destruct (exec_locked _ _ w) as [[r w']|f]; [|done].
  destruct Hr as (ws & dh & Hrun & -> & Hsame & -> & Hr). split_and!; [done..|].
  destruct Hr as [?|[_ ?]]; auto.
Qed.

Lemma does_exec P n tmo cmd :
  (length cmd < 512)%nat →
  does P (exec n tmo cmd) (λ r _ ws, ws = command cmd ∧ (r = RT_EOK ∨ r < 0)).
Proof.
  intros Hc i Hi. destruct Hi as (Hcli & Hpins & Hbuf & Hsize).
  unfold exec, on_dev, on_client, zoom, at_resp_set_info, mbind, io_bind, gets, modify.
  rewrite Hsize. cbn -[at_obj_exec_cmd rt_tick_from_millisecond].
  match goal with |- context [at_obj_exec_cmd (Some ?r) _ ?w] =>
    pose proof (exec_open P r cmd w Hc Hcli) as Hr; destruct (at_obj_exec_cmd (Some r) cmd w)
      as [[[z o] w']|f] end; [|done].
  destruct Hr as (Hrun & Hsame & Hr). exists (command cmd). split_and!; [done| |done|done].
  destruct o as [r'|]; [|done]. injection Hsame as Hb Hs. cbn in Hb, Hs |- *.
  split_and!; cbn; [done|congruence..].
Qed.

Lemma follows_send P n tmo cmd :
  (length cmd < 512)%nat → follows P (AT_SEND_CMD n tmo cmd) (λ _, one cmd).
Proof.
  intros Hc i Hi. pose proof (does_exec P n tmo cmd Hc i Hi) as He. unfold AT_SEND_CMD, mbind, io_bind.
  destruct (exec n tmo cmd i) as [[r i1]|f]; [|done]. destruct He as (ws & Hrun & Hk & -> & Hr).
  case_if; cbn; exists (command cmd); (split; [done|]); [|done].
  split; [eapply kept_trans; [exact Hk|by apply kept_same]|].
  split; [done|]. exists tt. by apply starts_self.
Qed.

Lemma does_parse_text P kw expr :
  (∀ f, answer_fault f → P f) → does P (parse_text kw expr) (λ _ _, nothing).
Proof.
  intros HP. unfold parse_text. eapply acts_bind; [apply does_gets|]. intros resp ? ? ->.
  eapply acts_bind; [apply acts_lift|].
  { pose proof (parse_faults resp kw expr) as Hf.
    destruct (at_resp_parse_line_args_by_kw resp kw expr); [done|by apply HP]. }
  intros v ? ? ->. destruct (v.2) as [|s vs]; [by apply acts_ret|].
  eapply acts_bind; [apply acts_lift|].
  { destruct s; cbn; [done|]. case_if; [done|]. apply HP. by left. }
  intros t ? ? ->. eapply acts_mono; [by apply does_store|]. by intros ? ? ? ->.
Qed.

Lemma does_parse_number P kw expr :
  (∀ f, answer_fault f → P f) → does P (parse_number kw expr) (λ _ _, nothing).
Proof.
  intros HP. unfold parse_number. eapply acts_bind; [apply does_gets|]. intros resp ? ? ->.
  eapply acts_bind; [apply acts_lift|].
  { pose proof (parse_faults resp kw expr) as Hf.
    destruct (at_resp_parse_line_args_by_kw resp kw expr); [done|by apply HP]. }
  intros v ? ? ->. destruct (v.2) as [|[z|t] vs]; [by apply acts_ret|by apply does_store|by apply acts_ret].
Qed.

Lemma does_qimux (P : fault → Prop) : P Uninitialised → does P qimux_is_0 (λ _ _, nothing).
Proof.
  intros HP. unfold qimux_is_0. eapply acts_bind; [apply does_gets|]. intros [z|] ? ? ->.
  - by apply acts_ret.
  - by intros i Hi.
Qed.

(** ** Loops *)

Lemma times_snoc k L u v : times k L u → L v → times (S k) L (u ++ v).
Proof.
  revert u. induction k as [|k IH]; intros u; cbn.
  - intros -> Hv. exists v, []. rewrite app_nil_r. done.
  - intros (u1 & u2 & -> & H1 & H2) Hv. exists u1, (u2 ++ v). rewrite app_assoc. split_and!; [done..|].
    by apply IH.
Qed.

(** A loop left by [break] ran its body once or more; one that ran to its end, [n] times. *)
Definition rounds (n : nat) (L : lang) (stop : bool) : lang := λ ws,
  ∃ k, (k <= n)%nat ∧ times k L ws ∧ (stop = true → (1 <= k)%nat) ∧ (stop = false → k = n).

Lemma rounds_more n L stop u v :
  L u → starts (rounds n L stop) v → starts (rounds (S n) L stop) (u ++ v).
Proof.
  intros Hu (rest & k & Hk & Hw & H1 & H2). exists rest, (S k). split_and!; [lia| |lia|].
  - exists u, (v ++ rest). by rewrite app_assoc.
  - intros Hs. rewrite H2 by done. done.
Qed.

Lemma follows_for_break P n pause body L : ∀ lo,
  follows P body (λ _, L) → some_word L → follows P (for_break n lo pause body) (rounds n L).
Proof.
  induction n as [|n IH]; intros lo Hb (w0 & Hw0); cbn [for_break].
  { apply follows_ret. exists O. split_and!; [lia|done|done|done]. }
  eapply (follows_and_then _ _ _ (λ _, L)
    (λ stop b, if stop : bool then λ ws, b = true ∧ ws = [] else rounds n L b)); [exact Hb| | | |].
  - intros []; [by apply follows_ret|].
    apply (follows_after_silent _ _ _ (rounds n L) false); [apply follows_wait|intros _; apply IH; [done|by exists w0]|].
    assert (some_word (times n L)) as (w & Hw) by (apply some_word_times; by exists w0).
    assert (rounds n L false w) as Hr by (exists n; by split_and!).
    exact (ex_intro _ w Hr).
  - intros [] b u v Hu Hv.
    + destruct Hv as [-> ->]. exists 1%nat. split_and!; [lia| |lia|done].
      rewrite app_nil_r. exists u, []. by rewrite app_nil_r.
    + destruct (rounds_more n L b u v Hu (starts_self _ _ Hv)) as (rest & Hr).
      destruct Hv as (k & Hk & Hv & H1 & H2). exists (S k). split_and!; [lia|by exists u, v|lia|].
      intros Hs. by rewrite H2.
  - intros _ ws (rest & Hs). exists true, rest, 1%nat. split_and!; [lia| |lia|done].
    exists (ws ++ rest), []. by rewrite app_nil_r.
  - intros [] b u v Hu Hv.
    + destruct Hv as (rest & -> & Hv). apply app_eq_nil in Hv as [-> ->]. exists true, [], 1%nat.
      split_and!; [lia| |lia|done]. rewrite !app_nil_r. exists u, []. by rewrite app_nil_r.
    + exists b. by apply rounds_more.
Qed.

Lemma upto_rounds n L b ws : (0 < n)%nat → rounds n L b ws → upto n L ws.
Proof.
  intros Hn (k & Hk & Hw & H1 & H2). exists k. split; [|done].
  destruct b; [specialize (H1 eq_refl)|specialize (H2 eq_refl)]; lia.
Qed.

(** A loop whose outcome is looked at, or ignored: its body ran once or more. *)
Lemma follows_loop {A} P n pause body L lo (k : bool → io (init W) (option A)) :
  (0 < n)%nat → follows P body (λ _, L) → some_word L → inhabited A →
  (∀ stop, follows P (k stop) (λ _, nothing)) →
  follows P (and_then (for_break n lo pause body) k) (λ _, upto n L).
Proof.
  intros Hn Hb Hw [a0] Hk.
  eapply (follows_and_then _ _ _ _ (λ _ _, nothing)); [by apply follows_for_break|exact Hk|..].
  - intros b a u v Hu ->. rewrite app_nil_r. by eapply upto_rounds.
  - intros b ws (rest & Hs). exists a0, rest. by eapply upto_rounds.
  - intros b a u v Hu (rest & Hv). unfold nothing in Hv. apply app_eq_nil in Hv as [-> _]. exists a0.
    rewrite app_nil_r. by eapply starts_self, upto_rounds.
Qed.

Lemma follows_check P n pause body L lo :
  (0 < n)%nat → follows P body (λ _, L) → some_word L →
  follows P (check (for_break n lo pause body)) (λ _, upto n L).
Proof.
  intros Hn Hb Hw. apply follows_loop; [done|done|done|exact (inhabits tt)|]. intros [].
  - by apply follows_ret.
  - apply (follows_goto_exit _ _ _ tt); [done|apply some_word_nothing].
Qed.

(** The counter goes up twice a round: sixteen rounds. *)
Lemma follows_rst P fuel : ∀ i,
  i <= 32 → 33 - i < 2 * Z.of_nat fuel → follows P (rst_loop fuel i) (λ _, nothing).
Proof.
  induction fuel as [|fuel IH]; intros i Hi Hf; cbn [rst_loop]; [lia|]. case_if.
  - apply (follows_after_silent _ _ _ (λ _, nothing) tt); [apply follows_wait| |apply some_word_nothing].
    intros _. apply IH; lia.
  - by apply follows_ret.
Qed.

(** ** The steps of an attempt *)

Lemma follows_power P patience : follows P (continue (on_dev (a9g_power_on patience))) (λ _, nothing).
Proof.
  apply follows_silent. intros i (_ & Hpins & _).
  assert (on_dev (a9g_power_on patience) i = Ret (tt, i)) as ->.
  { unfold on_dev, zoom, a9g_power_on, mbind, io_bind, gets.
    destruct (power_pin (dev i) =? -1) eqn:E1; destruct (power_status_pin (dev i) =? -1) eqn:E2;
      bool_prop; try lia; cbn; by destruct i. }
  exists []. by split_and!; [apply run_refl|apply kept_refl|].
Qed.

Lemma power_off_idle patience (d : device W) :
  power_pin d = -1 ∨ power_status_pin d = -1 → a9g_power_off patience d = Ret (tt, d).
Proof.
  intros Hpins. unfold a9g_power_off, mbind, io_bind, gets.
  destruct (power_pin d =? -1) eqn:E1; destruct (power_status_pin d =? -1) eqn:E2;
    bool_prop; try lia; done.
Qed.

(** ** Waiting for the modem *)

Definition probe : lang := λ ws, ws = [bytes "AT" ++ CRLF].

Lemma take_notice_eq tmo (w : world W) : ∃ ev,
  take_notice tmo w = Ret ((resp_notice tmo (modem w)).1,
    w <| modem := (resp_notice tmo (modem w)).2 |> <| socket_event := ev |>).
Proof.
  unfold take_notice, on_modem, mbind, io_bind, modify.
  destruct (resp_notice tmo (modem w)) as [a m]. eexists. reflexivity.
Qed.

Lemma tick_eq (w : world W) : on_modem (λ m, (rt_tick_get m, m)) w = Ret (rt_tick_get (modem w), w).
Proof. by destruct w. Qed.

(** The rounds of the wait: after [k] of them at least [k] timeouts are over. *)
Lemma wait_loop_ends `{!Clock W} start tmo resp_tmo fuel : ∀ k (w : world W),
  0 < resp_tmo < 1073741824 → 0 <= tmo < 536870912 →
  let e := u32 (rt_tick_get (modem w) - start) in
  Z.of_nat k * resp_tmo <= e → Z.of_nat k <= tmo / resp_tmo + 1 →
  tmo / resp_tmo + 2 <= Z.of_nat (k + fuel) →
  match wait_loop fuel start tmo resp_tmo w with
  | Ret (r, w') => ∃ j ws, (j <= fuel)%nat ∧ times j probe ws ∧ run ws 0 w w' ∧
                    (r = RT_EOK ∧ (1 <= j)%nat ∨ r = - RT_ETIMEOUT)
  | Fault f => False
  end.
Proof.
  induction fuel as [|fuel IH]; intros k w Hr Ht e He Hk Hf; [lia|].
  cbn [wait_loop]. unfold mbind at 1, io_bind at 1. rewrite tick_eq. fold e. case_if.
  { exists O, []. split_and!; [lia|done|apply run_refl|by right]. }
  assert (Z.of_nat k <= tmo / resp_tmo) as Hk' by (apply Z.div_le_lower_bound; lia).
  unfold mbind at 1, io_bind at 1, uart_write, mbind at 1, io_bind at 1, modify at 1, on_modem.
  cbn [modem]. set (w1 := w <| written := _ |>).
  destruct (write_takes (bytes "AT" ++ CRLF) (modem w)) as (dw & Hdw & Htw).
  change (modem w1) with (modem w).
  destruct (rt_device_write (bytes "AT" ++ CRLF) (modem w)) as [n m1] eqn:Ew. cbn [snd] in Htw.
  set (w2 := w1 <| modem := m1 |>).
  assert (run [bytes "AT" ++ CRLF] 0 w w2) as Hrun1
    by (split_and!; [done|done|unfold w2, w1; cbn; lia]).
  unfold mbind at 1, io_bind at 1.
  destruct (take_notice_eq resp_tmo w2) as (ev & ->). change (modem w2) with m1.
  set (w3 := w2 <| modem := _ |> <| socket_event := ev |>).
  assert (run [] 0 w2 w3) as Hrun2
    by (split_and!; [done|by rewrite app_nil_r|unfold w3; cbn; lia]).
  destruct (notice (resp_notice resp_tmo m1).1) eqn:En.
  - cbn. exists 1%nat, [bytes "AT" ++ CRLF]. split_and!; [lia| | |left; split; [done|lia]].
    + by exists [bytes "AT" ++ CRLF], [].
    + destruct Hrun1 as (A1 & A2 & A3). split_and!; [exact A1|exact A2|exact A3].
  - destruct (timeout_takes resp_tmo m1 ltac:(lia) En) as (dn & Hdn & Htn).
    assert (u32 (rt_tick_get (modem w3) - start) = e + dw + dn) as He'.
    { change (modem w3) with (resp_notice resp_tmo m1).2. rewrite Htn, Htw, !wait_elapsed.
      fold e. rewrite (u32_small (e + dw)) by (unfold e, u32 in *; dlia).
      apply u32_small. unfold e, u32 in *. dlia. }
    specialize (IH (S k) w3 Hr Ht). cbv zeta in IH. rewrite He' in IH.
    specialize (IH ltac:(nia) ltac:(lia) ltac:(lia)).
    destruct (wait_loop fuel start tmo resp_tmo w3) as [[r w']|f]; [|done].
    destruct IH as (j & ws & Hj & Hws & Hrun3 & Hres). exists (S j), ([bytes "AT" ++ CRLF] ++ ws).
    split_and!; [lia|by exists [bytes "AT" ++ CRLF], ws| |].
    + replace 0 with (0 + (0 + 0)) by lia. eapply run_trans; [exact Hrun1|].
      change ws with ([] ++ ws). by eapply run_trans.
    + destruct Hres as [[-> ?]| ->]; [left; split; [done|lia]|by right].
Qed.

Definition connected (r : Z) : lang := λ ws,
  ∃ j, (j <= 18)%nat ∧ times j probe ws ∧ (r = RT_EOK ∧ (1 <= j)%nat ∨ r < 0).

Lemma wait_connect_ends `{!Clock W} (w : world W) :
  match at_client_obj_wait_connect A9G_WAIT_CONNECT_TIME w with
  | Ret (r, w') => ∃ ws, run ws 0 w w' ∧ connected r ws
  | Fault f => False
  end.
Proof.
  unfold at_client_obj_wait_connect, mbind at 1, io_bind at 1.
  pose proof (runs_create (λ _, False) 64 0 (rt_tick_from_millisecond 300) w) as Hc.
  destruct (at_create_resp 64 0 _ w) as [[r w1]|f]; [|done].
  destruct Hc as (ws & dh & Hrun & -> & Hr). destruct r as [resp|]; cycle 1.
  { subst dh. exists []. split; [done|]. exists O. split_and!; [lia|done|by right]. }
  destruct Hr as [-> ->].
  unfold mbind at 1, io_bind at 1, rt_mutex_take, modify at 1.
  set (w2 := w1 <| lock := lock w1 + 1 |>).
  unfold mbind at 1, io_bind at 1. rewrite tick_eq.
  unfold mbind at 1, io_bind at 1.
  set (start := rt_tick_get (modem w2)).
  pose proof (wait_loop_ends start 5000 300 (wait_fuel 5000 300) 0 w2) as Hl.
  change (rt_tick_from_millisecond A9G_WAIT_CONNECT_TIME) with 5000.
  change (rt_tick_from_millisecond 300) with 300.
  replace (u32 (rt_tick_get (modem w2) - start)) with 0 in Hl
    by (unfold start, u32; by rewrite Z.sub_diag).
  specialize (Hl ltac:(lia) ltac:(lia) ltac:(lia) ltac:(done) ltac:(done)).
  destruct (wait_loop _ start 5000 300 w2) as [[r w3]|f]; [|done].
  destruct Hl as (j & ws & Hj & Hws & Hrun2 & Hres).
  unfold mbind at 1, io_bind at 1.
  pose proof (runs_delete (λ _, False) (MkResp true 64 0 300 []) eq_refl w3) as Hd.
  destruct (at_delete_resp _ w3) as [[[] w4]|f]; [|done].
  destruct Hd as (ws' & dh & Hrun3 & -> & ->). cbn. exists ws. split.
  - pose proof (run_trans _ _ _ _ _ _ _ Hrun2 Hrun3) as (S2 & W2 & H2).
    destruct Hrun as (S1 & W1 & H1). rewrite app_nil_r in *. unfold settings in *.
    unfold w2 in S2, W2, H2. cbn in *. simplify_eq.
    split_and!; cbn; [unfold settings; cbn|by rewrite W2, W1|lia].
    assert (lock w4 - 1 = lock w) by lia. congruence.
  - exists j. split_and!; [done|done|]. destruct Hres as [?| ->]; [by left|by right].
Qed.

(** ** The whole attempt *)

Definition queries (query cmd : cstr) : lang := one query ⊙ maybe (one cmd).
Definition attach : lang := upto 5 (one (bytes "AT+CGATT=1")) ⊙ one cmd_cgdcont ⊙ one (bytes "AT+CGACT=1,1").
Definition operator : lang :=
  one (bytes "AT+COPS?") ⊙
  either (one CSTT_CHINA_MOBILE)
    (either (one CSTT_CHINA_UNICOM) (either (one CSTT_CHINA_TELECOM) nothing)).

(** The commands of a complete initialisation. *)
Definition session : lang :=
  upto 18 probe ⊙ one (bytes "ATE0") ⊙ one (bytes "ATI") ⊙
  upto 10 (one (bytes "AT+CCID")) ⊙ one (bytes "AT+RST=1") ⊙
  upto 10 (one (bytes "AT+CREG?")) ⊙ upto 5 (one (bytes "AT+CGATT=0")) ⊙
  upto 20 attach ⊙ upto 10 (one (bytes "AT+CSQ")) ⊙
  queries (bytes "AT+CIPMUX?") (bytes "AT+CIPMUX=1") ⊙ operator ⊙
  one (bytes "AT+CIFSR") ⊙ queries (bytes "AT+GPS?") (bytes "AT+GPS=1").

Lemma follows_skip {A B} P (m : io (init W) (option A)) (k : A → io (init W) (option B)) L :
  follows P m (λ _, nothing) → (∀ a, follows P (k a) (λ _, L)) → some_word L → inhabited B →
  follows P (and_then m k) (λ _, L).
Proof. intros ? ? ? [b]. by apply (follows_after_silent P m k (λ _, L) b). Qed.

(** Silent statements after the last word. *)
Lemma follows_last {A B} P (m : io (init W) (option A)) (k : A → io (init W) (option B)) L :
  follows P m (λ _, L) → (∀ a, follows P (k a) (λ _, nothing)) → inhabited B →
  follows P (and_then m k) (λ _, L).
Proof.
  intros Hm Hk [b]. eapply (follows_and_then P m k (λ _, L) (λ _ _, nothing)); [done|done|..].
  - intros ? ? u v Hu ->. by rewrite app_nil_r.
  - intros ? ws Hs. by exists b.
  - intros ? ? u v Hu (rest & Hv). unfold nothing in Hv. apply app_eq_nil in Hv as [-> _].
    exists b. rewrite app_nil_r. by apply starts_self.
Qed.

(** Values of a computation that does nothing else. *)
Lemma follows_parsed P t : follows P (continue (parsed_is t)) (λ _, nothing).
Proof. apply follows_silent, does_gets. Qed.

End attempts.

Lemma some_word_attach : some_word attach.
Proof. unfold attach. auto with words. Qed.
Lemma some_word_maybe cmd : some_word (maybe (one cmd)).
Proof. unfold maybe. auto with words. Qed.
Lemma some_word_operator : some_word operator.
Proof. unfold operator. auto with words. Qed.
Lemma some_word_probes : some_word (upto 18 probe).
Proof. apply some_word_upto; [lia|]. by exists [bytes "AT" ++ CRLF]. Qed.
#[export] Hint Resolve some_word_attach some_word_maybe some_word_operator some_word_probes : words.
Lemma some_word_queries query cmd : some_word (queries query cmd).
Proof. unfold queries. auto with words. Qed.
#[export] Hint Resolve some_word_queries : words.

(** A silent statement, one after the last word, a word. *)
Ltac skip := apply follows_skip; [auto with attempts|intros ?|auto 40 with words|repeat constructor].
Ltac silent := repeat skip; auto with attempts.
Ltac last := apply follows_last; [|intros ?; silent|repeat constructor].
Ltac send := apply follows_send; cbn; lia.
Ltac word := apply follows_seq; [|intros ?|auto 40 with words|repeat constructor].

Section faults.
Context {W : Type} `{Modem W, Board W}.
Variable P : fault → Prop.
Hypothesis Hparse : ∀ f, answer_fault f → P f.
Hypothesis Huninit : P Uninitialised.

Lemma follows_parse_text kw expr : follows (W := W) P (continue (parse_text kw expr)) (λ _, nothing).
Proof. by apply follows_silent, does_parse_text. Qed.
Lemma follows_parse_number kw expr : follows (W := W) P (continue (parse_number kw expr)) (λ _, nothing).
Proof. by apply follows_silent, does_parse_number. Qed.
Lemma follows_qimux : follows (W := W) P (continue qimux_is_0) (λ _, nothing).
Proof. by apply follows_silent, does_qimux. Qed.
Lemma follows_resp : follows (W := W) P (continue (gets ini_resp)) (λ _, nothing).
Proof. apply follows_silent, does_gets. Qed.
Lemma follows_done {A} (a : A) : follows (W := W) P (mret (Some a)) (λ _, nothing).
Proof. by apply follows_ret. Qed.

#[local] Hint Resolve follows_parse_text follows_parse_number follows_qimux follows_resp
  follows_done follows_wait follows_parsed : attempts.

Lemma follows_exec_any n tmo cmd :
  (length cmd < 512)%nat → follows (W := W) P (continue (exec n tmo cmd)) (λ _, one cmd).
Proof.
  intros Hc. unfold follows, continue. eapply acts_bind; [by apply does_exec|].
  intros r ? ws (-> & _). apply acts_ret. intros _. rewrite app_nil_r. done.
Qed.

Lemma follows_cpin : follows (W := W) P (check cpin_loop) (λ _, upto 10 (one (bytes "AT+CCID"))).
Proof. apply follows_check; [unfold CPIN_RETRY; lia|last; send|auto with words]. Qed.

Lemma follows_creg : follows (W := W) P (check creg_loop) (λ _, upto 10 (one (bytes "AT+CREG?"))).
Proof. apply follows_check; [unfold CREG_RETRY; lia|last; send|auto with words]. Qed.

Lemma follows_csq : follows (W := W) P (check csq_loop) (λ _, upto 10 (one (bytes "AT+CSQ"))).
Proof. apply follows_check; [unfold CSQ_RETRY; lia|last; send|auto with words]. Qed.

Lemma follows_cgatt cmd : (length cmd < 512)%nat → follows (W := W) P (cgatt_loop cmd) (λ _, upto 5 (one cmd)).
Proof.
  intros Hc. apply follows_loop; [unfold INIT_RETRY; lia| |auto with words|repeat constructor|auto with attempts].
  last. by apply follows_exec_any.
Qed.

Lemma follows_cgreg : follows (W := W) P (check cgreg_loop) (λ _, upto 20 attach).
Proof.
  apply follows_check; [unfold CGREG_RETRY; lia| |auto with words]. unfold attach.
  word; [apply follows_cgatt; cbn; lia|]. word; [send|]. skip. last. send.
Qed.

Lemma follows_maybe_send (b : bool) n tmo cmd :
  (length cmd < 512)%nat →
  follows (W := W) P (if b then AT_SEND_CMD n tmo cmd else mret (Some tt)) (λ _, maybe (one cmd)).
Proof.
  intros Hc. destruct b; [|apply follows_ret; by right].
  eapply follows_mono; [by apply follows_send|]. intros ? ws Hw. by left.
Qed.

Lemma follows_turn_on query kw expr tmo cmd :
  (length query < 512)%nat → (length cmd < 512)%nat →
  follows (W := W) P (turn_on query kw expr tmo cmd) (λ _, queries query cmd).
Proof.
  intros Hq Hc. unfold turn_on, queries. word; [by apply follows_send|]. do 2 skip.
  by apply follows_maybe_send.
Qed.

Lemma follows_operator : follows (W := W) P set_operator (λ _, operator).
Proof.
  unfold set_operator, operator. word; [send|]. skip.
  skip. rename a1 into mobile. skip. rename a1 into unicom. skip. rename a1 into telecom.
  destruct mobile; [eapply follows_mono; [send|]; intros ? ws Hw; by left|].
  destruct unicom; [eapply follows_mono; [send|]; intros ? ws Hw; by right; left|].
  destruct telecom; [eapply follows_mono; [send|]; intros ? ws Hw; by right; right; left|].
  apply follows_ret. by right; right; right.
Qed.

Lemma follows_startup `{!Clock W} patience : follows (W := W) P (startup patience) (λ _, upto 18 probe).
Proof.
  pose proof some_word_probes as Hw. unfold startup. apply follows_skip; [apply follows_wait|intros _|done|repeat constructor].
  apply follows_skip; [apply follows_power|intros _|done|repeat constructor].
  apply follows_skip; [apply follows_wait|intros _|done|repeat constructor].
  assert (follows (W := W) P (continue (on_dev (on_client (at_client_obj_wait_connect A9G_WAIT_CONNECT_TIME))))
            connected) as Hc.
  { unfold follows, continue. eapply acts_bind; [apply (does_client _ _ connected)|].
    - intros w _. pose proof (wait_connect_ends w) as He.
      destruct (at_client_obj_wait_connect _ w) as [[r w']|f]; [exact He|done].
    - intros r ? ws Hr. apply acts_ret. intros _. by rewrite app_nil_r. }
  assert (∀ r ws, connected r ws → r = RT_EOK → upto 18 probe ws) as Hup.
  { intros r ws (j & Hj & Hws & [[_ H1]|Hneg]) Hr; [by exists j|]. subst r. done. }
  assert (∀ r ws, connected r ws → starts (upto 18 probe) ws) as Hst.
  { intros r ws (j & Hj & Hws & _). destruct (decide (1 <= j)%nat).
    - apply starts_self. by exists j.
    - assert (j = O) as -> by lia. rewrite Hws. destruct Hw as (w0 & Hw0). by exists w0. }
  intros i Hi. specialize (Hc i Hi). unfold and_then, mbind, io_bind.
  destruct (continue _ i) as [[[r|] i1]|f]; [| |done]; destruct Hc as (ws & Hrun & Hk & HQ).
  - case_if; cbn; exists ws; (split; [done|]).
    + split; [eapply kept_trans; [exact Hk|by apply kept_same]|]. split; [done|]. exists tt. eauto.
    + split; [done|]. apply (Hup r); [done|]. unfold RT_EOK. lia.
  - cbn. exists ws. split; [done|]. split; [done|]. destruct HQ as (Hneg & r & rest & Hr).
    split; [done|]. destruct (Hst _ _ Hr) as (rest' & Hr'). exists tt, (rest ++ rest').
    by rewrite app_assoc.
Qed.
End faults.

#[export] Hint Resolve follows_parse_text follows_parse_number follows_qimux follows_resp
  follows_done follows_wait follows_parsed : attempts.

(** * The initialisation *)

(** A conversion that does not fit its destination or a number never read. *)
Definition parse_fault (f : fault) : Prop := answer_fault f ∨ f = Uninitialised.

(** Up to [n] attempts: those before the last were given up; [ok] says how the last went. *)
Inductive tries : nat → bool → lang :=
  | tries_none : tries 0 false []
  | tries_ok n ws : session ws → tries (S n) true ws
  | tries_fail n ok u v : starts session u → tries n ok v → tries (S n) ok (u ++ v).

Section initialisation.
Context {W : Type} `{Modem W, Board W} `{!Clock W}.
Variable patience : nat.

Lemma and_then_zero {A B} (m : io (init W) (option A)) (k : A → io (init W) (option B)) :
  (∀ a i b i', k a i = Ret (Some b, i') → ini_result i' = RT_EOK) →
  ∀ i b i', and_then m k i = Ret (Some b, i') → ini_result i' = RT_EOK.
Proof.
  intros Hk i b i'. unfold and_then, mbind, io_bind.
  destruct (m i) as [[[a|] i1]|f]; [eauto|done|done].
Qed.

Lemma attempt_zero i b i' : init_attempt patience i = Ret (Some b, i') → ini_result i' = RT_EOK.
Proof.
  unfold init_attempt. revert i b i'. do 18 (apply and_then_zero; intros ?).
  intros i b i'. cbn. by intros [= <- <-].
Qed.

Lemma follows_attempt : follows parse_fault (init_attempt patience) (λ _, session).
Proof.
  assert (∀ f, answer_fault f → parse_fault f) as Hp by (intros; by left).
  assert (parse_fault Uninitialised) as Hu by by right.
  unfold init_attempt, session.
  apply follows_skip; [apply follows_silent; by apply does_store|intros _|auto 30 with words|repeat constructor].
  word; [by apply follows_startup|]. word; [send|]. word; [send|].
  word; [apply follows_cpin|]. word; [send|].
  apply follows_skip; [apply follows_rst; lia|intros _|auto 30 with words|repeat constructor].
  skip. word; [by apply follows_creg|]. word; [apply follows_cgatt; cbn; lia|].
  word; [by apply follows_cgreg|]. word; [by apply follows_csq|].
  word; [apply follows_turn_on; [done|done|cbn; lia|cbn; lia]|].
  word; [by apply follows_operator|]. word; [send|]. skip.
  apply follows_skip; [|intros _|auto with words|repeat constructor].
  { case_if; [|by apply follows_ret]. apply (follows_goto_exit _ _ _ tt); [done|auto with words]. }
  last. { apply follows_turn_on; [done|done|cbn; lia|cbn; lia]. }
  apply follows_silent. by apply does_store.
Qed.

Lemma on_dev_result {A} (m : io (device W) A) i a i' :
  on_dev m i = Ret (a, i') → ini_result i' = ini_result i.
Proof. unfold on_dev, zoom. destruct (m (dev i)) as [[b d]|f]; [|done]. by intros [= <- <-]. Qed.

(** The loop of attempts: each but the last is given up. *)
Lemma init_loop_tries n : ∀ i, steady i →
  match init_loop patience n i with
  | Ret (_, i') => ∃ ok ws, run ws 0 (client (dev i)) (client (dev i')) ∧ kept i i' ∧
      tries n ok ws ∧
      (if ok : bool then ini_result i' = RT_EOK
       else ini_result i' < 0 ∨ n = O ∧ ini_result i' = ini_result i)
  | Fault f => parse_fault f
  end.
Proof.
  induction n as [|n IH]; intros i Hi; cbn [init_loop].
  { exists false, []. split_and!; [apply run_refl|apply kept_refl|constructor|by right]. }
  pose proof (follows_attempt i Hi) as Ha. unfold mbind at 1, io_bind at 1.
  destruct (init_attempt patience i) as [[[[]|] i1]|f] eqn:E; [| |done];
    destruct Ha as (ws & Hrun & Hk & HQ).
  - apply attempt_zero in E. unfold mbind, io_bind, gets. rewrite E. cbn.
    exists true, ws. split_and!; [done|done|by constructor|done].
  - destruct HQ as (Hneg & [] & Hs). unfold mbind at 1, io_bind at 1, gets at 1.
    assert ((ini_result i1 =? RT_EOK) = false) as -> by (unfold RT_EOK; lia).
    pose proof (kept_steady _ _ _ _ Hi Hk Hrun) as Hi1. destruct Hi1 as (Hc & Hp & Hb).
    unfold mbind at 1, io_bind at 1, on_dev at 1, zoom at 1. rewrite power_off_idle by done.
    assert (i1 <| dev := dev i1 |> = i1) as -> by (by destruct i1).
    unfold mbind at 1, io_bind at 1.
    pose proof (follows_wait parse_fault 1000 i1 (conj Hc (conj Hp Hb))) as Hw.
    unfold wait, continue, mbind, io_bind in Hw.
    destruct (on_dev (mdelay 1000) i1) as [[[] i2]|f] eqn:Ed; [|done]. apply on_dev_result in Ed.
    cbn in Hw.
    destruct Hw as (ws' & Hrun' & Hk' & ->).
    specialize (IH i2 (kept_steady _ _ _ _ (conj Hc (conj Hp Hb)) Hk' Hrun')).
    destruct (init_loop patience n i2) as [[[] i3]|f]; [|done].
    destruct IH as (ok & ws3 & Hrun3 & Hk3 & Ht & Hres). exists ok, (ws ++ ws3). split_and!.
    + replace 0 with (0 + (0 + 0)) by lia. eapply run_trans; [exact Hrun|].
      change ws3 with ([] ++ ws3). by eapply run_trans.
    + eapply kept_trans; [exact Hk|]. by eapply kept_trans.
    + by constructor.
    + destruct ok; [done|]. left. destruct Hres as [?|[_ ->]]; [done|]. by rewrite Ed.
Qed.
End initialisation.

(** * Functions of the device *)

(** From [s], [m] returns a value and a state with [Q], or stops with a fault of [P]. *)
Definition wpf {S A} (P : fault → Prop) (m : io S A) (Q : A → S → Prop) (s : S) : Prop :=
  match m s with Ret (a, s') => Q a s' | Fault f => P f end.

Section rules.
Context {S A B : Type}.
Variable P : fault → Prop.

Lemma wpf_bind (m : io S A) (k : A → io S B) Q s :
  wpf P m (λ a s', wpf P (k a) Q s') s → wpf P (mbind k m) Q s.
Proof. unfold wpf, mbind, io_bind. by destruct (m s) as [[a s']|f]. Qed.

Lemma wpf_mono (m : io S A) (Q Q' : A → S → Prop) s :
  wpf P m Q s → (∀ a s', Q a s' → Q' a s') → wpf P m Q' s.
Proof. unfold wpf. intros Hm HQ. destruct (m s) as [[a s']|f]; [by apply HQ|done]. Qed.

Lemma wpf_ret (a : A) (Q : A → S → Prop) s : Q a s → wpf P (mret a) Q s.
Proof. done. Qed.
Lemma wpf_gets (f : S → A) (Q : A → S → Prop) s : Q (f s) s → wpf P (gets f) Q s.
Proof. done. Qed.
Lemma wpf_modify (f : S → S) (Q : unit → S → Prop) s : Q tt (f s) → wpf P (modify f) Q s.
Proof. done. Qed.
Lemma wpf_lift (r : res A) (Q : A → S → Prop) s :
  may_fault P (λ a, Q a s) r → wpf P (lift r) Q s.
Proof. unfold wpf, lift. by destruct r. Qed.
End rules.
