(* ===== verification/AtDeviceAnswers.v ===== *)
(** A modem whose answers the driver can read (AtDevice.v): no conversion of the
    initialisation overflows its array, and no number is read before it was stored. *)

From S2P Require Import Prelude CLib Event AtClient AtSocket AtSocketSpec.
From S2P Require Import AtEventSpec AtReceive AtParser Netdev NetdevSpec AtDevice AtDeviceSpec.

(** * What the driver reads *)

Definition parse_lines (ls : list cstr) (kw : cstr) (fmt : list directive) : res (Z * list scanned) :=
  match line_by_kw ls kw with None => Ret (-1, []) | Some l => sscanf l fmt end.

(** The text scanned from the line with [kw], if there is one, has fewer than [size] bytes. *)
Definition text_fits (kw : cstr) (fmt : list directive) (size : Z) (ls : list cstr) : Prop :=
  match parse_lines ls kw fmt with
  | Ret (_, SText t :: _) => Z.of_nat (length t) < size
  | Ret _ => True
  | Fault _ => False
  end.
(** The number scanned, if there is one, is an [int]; there is one. *)
Definition number_fits (kw : cstr) (fmt : list directive) (ls : list cstr) : Prop :=
  match parse_lines ls kw fmt with Ret _ => True | Fault _ => False end.
Definition number_there (kw : cstr) (fmt : list directive) (ls : list cstr) : Prop :=
  match parse_lines ls kw fmt with Ret (_, SInt _ :: _) => True | _ => False end.
(** The word in the second line has fewer than 15 bytes. *)
Definition imei_fits (ls : list cstr) : Prop :=
  match ls !! 1%nat with
  | None => True
  | Some l => match sscanf l [GetStr] with
              | Ret (_, SText t :: _) => Z.of_nat (length t) < A9G_IEMI_LEN
              | Ret _ => True
              | Fault _ => False
              end
  end.
(** The word in the line with a point is an address. *)
Definition address_valid (ls : list cstr) : Prop :=
  match parse_lines ls (bytes ".") [GetStr] with
  | Ret (n, SText t :: _) => Z.of_nat (length t) < IP_ADDR_SIZE_MAX ∧ is_Some (netdev_ip4addr_aton t)
  | Ret (n, _) => n <= 0
  | Fault _ => False
  end.

Lemma imei_read resp : imei_fits (lines resp) →
  may_fault (λ _, False) (λ v, ∃ t, stored_text A9G_IEMI_LEN v.2 = Ret t) (at_resp_parse_line_args resp 2 [GetStr]).
Proof.
  unfold imei_fits, at_resp_parse_line_args, at_resp_get_line. intros Hf.
  destruct (Z.ltb_spec (Z.of_nat (length (lines resp))) 2) as [Hl|Hl]; [cbn; eauto|].
  cbn [orb Z.leb Z.compare]. change (Z.to_nat (2 - 1)) with 1%nat.
  destruct (lines resp !! 1%nat) as [l|]; [|cbn; eauto]. destruct (sscanf l [GetStr]) as [[r vs]|]; [|done]. cbn.
  destruct vs as [|[z|t] vs]; cbn; [eauto..|]. decide_if (Z.of_nat (length t) <? A9G_IEMI_LEN) true. eauto.
Qed.

Lemma address_read resp : address_valid (lines resp) →
  may_fault (λ _, False) (λ v, ∃ t, stored_text IP_ADDR_SIZE_MAX v.2 = Ret t ∧
    (0 < v.1 → is_Some (netdev_ip4addr_aton t))) (at_resp_parse_line_args_by_kw resp (bytes ".") [GetStr]).
Proof.
  unfold address_valid. change (at_resp_parse_line_args_by_kw resp (bytes ".") [GetStr])
    with (parse_lines (lines resp) (bytes ".") [GetStr]).
  destruct (parse_lines _ _ _) as [[r vs]|]; [|done]. cbn. intros Hf.
  destruct vs as [|[z|t] vs]; cbn; [exists []; split; [done|lia]..|].
  destruct Hf as [Hl Ht]. decide_if (Z.of_nat (length t) <? IP_ADDR_SIZE_MAX) true. eauto.
Qed.

(** The queries of the initialisation, each with what its answer has to be like. *)
Definition cipmux_format := lits (bytes "+CIPMUX:") ++ [IntD].
Definition queries_read : list (cstr * (list cstr → Prop)) :=
  [ (bytes "AT+CREG?", text_fits (bytes "+CREG:") (lits (bytes "+CREG:") ++ [Blank; GetStr]) 10);
    (bytes "AT+CGACT=1,1", text_fits (bytes "OK") [GetStr] 10);
    (bytes "AT+CSQ", text_fits (bytes "+CSQ:") (lits (bytes "+CSQ:") ++ [Blank; GetStr]) 10);
    (bytes "AT+CIPMUX?", number_there (bytes "+CIPMUX:") cipmux_format);
    (bytes "AT+COPS?", text_fits (bytes "+COPS:")
       (lits (bytes "+COPS:") ++ [Blank; SkipSet 34; Lit 34; GetSet 34]) 10);
    (bytes "AT+GPS?", number_fits (bytes "+GPS:") (lits (bytes "+GPS:") ++ [Blank; IntD]));
    (bytes "AT+GSN", imei_fits);
    (bytes "AT+CIFSR", address_valid) ].

(** The lines of a positive answer to the command [cmd]. *)
Definition asked {W} `{Modem W} (cmd : cstr) (m : W) : W :=
  (rt_device_write CRLF (rt_device_write cmd m).2).2.
Definition answered {W} `{Modem W} (cmd : cstr) (ls : list cstr) : Prop :=
  ∃ tmo m, let a := (resp_notice tmo (asked cmd m)).1 in
    notice a = true ∧ ans_status a = AT_RESP_OK ∧ ls = ans_lines a.

Class Answers (W : Type) `{Modem W} : Prop := {
  answers_read : ∀ q, q ∈ queries_read → ∀ ls, answered q.1 ls → q.2 ls }.

(** * The attempts *)

(** Not one of the faults of an answer. *)
Definition no_parse_fault (f : fault) : Prop := ¬ parse_fault f.

(** A query of the list. *)
Ltac listed := unfold queries_read; repeat (first [apply list_elem_of_here|apply list_elem_of_further]).

Section calm.
Context {W : Type} `{Modem W, Board W} `{!Answers W}.
Abbreviation np := no_parse_fault.

(** [m] does not stop with a fault of an answer; a value satisfies [Q]. *)
Definition att {A} (m : io (init W) (option A)) (Q : A → init W → Prop) (i : init W) : Prop :=
  wpf np m (λ r i', match r with Some a => Q a i' | None => steady i' end) i.

Lemma att_then {A B} (m : io (init W) (option A)) (k : A → io (init W) (option B)) Q i :
  att m (λ a i', att (k a) Q i') i → att (and_then m k) Q i.
Proof.
  intros Hm. unfold att, and_then. apply wpf_bind. eapply wpf_mono; [exact Hm|].
  intros [a|] i' Ha; [exact Ha|by apply wpf_ret].
Qed.
Lemma att_continue {A} (m : io (init W) A) Q i : wpf np m Q i → att (continue m) Q i.
Proof. intros Hm. apply wpf_bind. eapply wpf_mono; [exact Hm|]. intros a i' Ha. by apply wpf_ret. Qed.
Lemma att_mono {A} (m : io (init W) (option A)) (Q Q' : A → init W → Prop) i :
  att m Q i → (∀ a i', Q a i' → Q' a i') → att m Q' i.
Proof. intros Hm HQ. eapply wpf_mono; [exact Hm|]. intros [a|] i' Ha; [by apply HQ|done]. Qed.

(** What never faults keeps the state steady. *)
Lemma follows_steady {A} (m : io (init W) (option A)) L i :
  follows (λ _, False) m L → steady i → att m (λ _ i', steady i') i.
Proof.
  intros Hm Hi. specialize (Hm i Hi). unfold att, wpf. destruct (m i) as [[a i']|]; [|done].
  destruct Hm as (ws & Hrun & Hk & _). assert (steady i') as Hs by (by eapply kept_steady). by destruct a.
Qed.

Lemma on_dev_steady {A} (m : io (device W) A) L i Q :
  does (λ _, False) (on_dev m) L → steady i →
  (∀ a i', steady i' → qimux i' = qimux i → ini_resp i' = ini_resp i → Q a i') → wpf np (on_dev m) Q i.
Proof.
  intros Hm Hi HQ. specialize (Hm i Hi). unfold wpf in *. unfold on_dev, zoom in *.
  destruct (m (dev i)) as [[a d]|]; [|done]. destruct Hm as (ws & Hrun & Hk & _).
  apply HQ; [by eapply kept_steady|done|done].
Qed.

Lemma att_wait ms Q i : steady i →
  (∀ i', steady i' → qimux i' = qimux i → ini_resp i' = ini_resp i → Q tt i') → att (wait ms) Q i.
Proof.
  intros Hi HQ. apply att_continue. eapply (on_dev_steady _ (λ _ _, nothing)); [|done|by intros []; apply HQ].
  apply (does_runs _ _ (λ _, nothing)). eapply runs_mono; [apply runs_delay|]. intros _ ws dh [-> ->]. done.
Qed.

(** ** Commands *)

(** The lines of a positive answer to a command. *)
Lemma exec_lines resp cmd (w : world W) r w' :
  (length cmd < 512)%nat → cli w = false → at_obj_exec_cmd (Some resp) cmd w = Ret (r, w') → 0 <= r.1 →
  ∃ resp', r.2 = Some resp' ∧ answered cmd (lines resp').
Proof.
  intros Hc Hcli. unfold at_obj_exec_cmd, exec_locked, at_vprintfln, uart_write, take_notice, on_modem,
    mbind, io_bind, gets, modify, AT_CMD_MAX_LEN. rewrite Hcli. cbn [andb].
  decide_if (Z.of_nat (length cmd) <? 512) true. cbn.
  destruct (rt_device_write cmd (modem w)) as [n1 m1] eqn:E1. cbn.
  destruct (rt_device_write CRLF m1) as [n2 m2] eqn:E2. cbn.
  destruct (resp_notice (timeout resp) m2) as [a m3] eqn:E3. cbn.
  destruct (notice a) eqn:En; cbn.
  - destruct (Z.eqb_spec (ans_status a) AT_RESP_OK) as [Es|Es]; cbn; intros [= <- <-]; [|cbn; unfold RT_ERROR; lia].
    intros _. eexists. split; [done|]. exists (timeout resp), (modem w).
    unfold asked. rewrite E1. cbn [snd]. rewrite E2. cbn [snd]. rewrite E3. done.
  - intros [= <- <-]. cbn. unfold RT_ETIMEOUT. lia.
Qed.

Lemma exec_answered n tmo cmd Q i :
  (length cmd < 512)%nat → steady i →
  (∀ r i', steady i' → qimux i' = qimux i → (0 <= r → answered cmd (lines (ini_resp i'))) → Q r i') →
  wpf np (exec n tmo cmd) Q i.
Proof.
  intros Hc Hi HQ. pose proof (does_exec (λ _, False) n tmo cmd Hc i Hi) as Hd.
  unfold wpf. destruct (exec n tmo cmd i) as [[r i']|] eqn:E; [|done].
  destruct Hd as (ws & Hrun & Hk & _ & Hr). destruct Hi as (Hcli & Hpins & Hbuf & Hsize).
  unfold exec, on_dev, on_client, zoom, at_resp_set_info, mbind, io_bind, gets, modify in E.
  rewrite Hsize in E. cbn -[at_obj_exec_cmd rt_tick_from_millisecond] in E.
  match type of E with context [at_obj_exec_cmd (Some ?x) _ ?w] =>
    destruct (at_obj_exec_cmd (Some x) cmd w) as [[[z o] w']|f] eqn:Ex; [|done];
    pose proof (exec_lines x cmd w (z, o) w' Hc Hcli Ex) as Hl end.
  cbn in E, Hl. injection E as <- <-. apply HQ.
  - eapply kept_steady; [|exact Hk|exact Hrun]. by split_and!.
  - done.
  - intros Hz. destruct (Hl Hz) as (resp' & -> & Ha). exact Ha.
Qed.

Lemma att_send n tmo cmd (Q : unit → init W → Prop) i :
  (length cmd < 512)%nat → steady i →
  (∀ i', steady i' → qimux i' = qimux i → answered cmd (lines (ini_resp i')) → Q tt i') →
  att (AT_SEND_CMD n tmo cmd) Q i.
Proof.
  intros Hc Hi HQ. apply wpf_bind. apply exec_answered; [done..|]. intros r i' Hs Hq Ha.
  destruct (Z.ltb_spec r 0); [|apply wpf_ret, HQ; auto].
  apply wpf_bind, wpf_modify, wpf_ret. done.
Qed.

(** ** Conversions *)

Lemma parse_resp resp kw fmt : at_resp_parse_line_args_by_kw resp kw fmt = parse_lines (lines resp) kw fmt.
Proof. done. Qed.

Lemma att_text cmd kw fmt (Q : unit → init W → Prop) i :
  (cmd, text_fits kw fmt 10) ∈ queries_read → answered cmd (lines (ini_resp i)) → steady i →
  (∀ i', steady i' → qimux i' = qimux i → Q tt i') → att (continue (parse_text kw fmt)) Q i.
Proof.
  intros Hin Ha Hi HQ. apply att_continue, wpf_bind, wpf_gets, wpf_bind, wpf_lift.
  pose proof (answers_read _ Hin _ Ha) as Hf. cbn in Hf. unfold text_fits in Hf. rewrite parse_resp.
  destruct (parse_lines _ kw fmt) as [[r vs]|]; [|done]. cbn. destruct vs as [|v vs].
  - apply wpf_ret. by apply HQ.
  - assert (∃ t, stored_text 10 (v :: vs) = Ret t) as [t Ht].
    { destruct v as [z|t]; cbn; [eauto|]. decide_if (Z.of_nat (length t) <? 10) true. eauto. }
    apply wpf_bind, wpf_lift. rewrite Ht. apply wpf_modify. by apply HQ.
Qed.

Lemma att_number kw fmt (Q : unit → init W → Prop) i :
  number_fits kw fmt (lines (ini_resp i)) → steady i →
  (∀ i', steady i' → is_Some (qimux i') ∨ qimux i' = qimux i ∧ ¬ number_there kw fmt (lines (ini_resp i)) →
     Q tt i') →
  att (continue (parse_number kw fmt)) Q i.
Proof.
  intros Hf Hi HQ. apply att_continue, wpf_bind, wpf_gets, wpf_bind, wpf_lift. rewrite parse_resp.
  unfold number_fits, number_there in *. destruct (parse_lines _ kw fmt) as [[r vs]|]; [|done]. cbn.
  destruct vs as [|[z|t] vs]; [apply wpf_ret|apply wpf_modify|apply wpf_ret]; apply HQ; try done;
    [right; split; [done|by intros []]|by left; eexists|right; split; [done|by intros []]].
Qed.

Lemma att_qimux (Q : bool → init W → Prop) i :
  is_Some (qimux i) → (∀ b, Q b i) → att (continue qimux_is_0) Q i.
Proof.
  intros [z Hz] HQ. apply att_continue, wpf_bind, wpf_gets. rewrite Hz. by apply wpf_ret.
Qed.

Lemma att_gets {A} (f : init W → A) Q i : Q (f i) i → att (continue (gets f)) Q i.
Proof. intros HQ. by apply att_continue, wpf_gets. Qed.

(** ** Parts of an attempt *)

Definition calm {A} (m : io (init W) (option A)) : Prop := ∀ i, steady i → att m (λ _ i', steady i') i.

Lemma calm_then {A B} (m : io (init W) (option A)) (k : A → io (init W) (option B)) :
  calm m → (∀ a, calm (k a)) → calm (and_then m k).
Proof. intros Hm Hk i Hi. apply att_then. eapply att_mono; [by apply Hm|]. intros a i' Hi'. by apply Hk. Qed.
Lemma calm_ret {A} (a : A) : calm (mret (Some a)).
Proof. intros i Hi. exact Hi. Qed.
Lemma calm_gets {A} (f : init W → A) : calm (continue (gets f)).
Proof. intros i Hi. by apply att_gets. Qed.
Lemma calm_wait ms : calm (wait ms).
Proof. intros i Hi. by apply att_wait. Qed.
Lemma calm_send n tmo cmd : (length cmd < 512)%nat → calm (AT_SEND_CMD n tmo cmd).
Proof. intros Hc i Hi. by apply att_send. Qed.
Lemma calm_exit {A} r : calm (A := A) (goto_exit r).
Proof. intros i Hi. exact Hi. Qed.
Lemma calm_if {A} (b : bool) (m1 m2 : io (init W) (option A)) : calm m1 → calm m2 → calm (if b then m1 else m2).
Proof. by destruct b. Qed.
Lemma calm_store f : (∀ i, steady i → steady (f i)) → calm (continue (modify f)).
Proof. intros Hf i Hi. by apply att_continue, wpf_modify, Hf. Qed.
Lemma calm_follows {A} (m : io (init W) (option A)) L : follows (λ _, False) m L → calm m.
Proof. intros Hm i Hi. by eapply follows_steady. Qed.

Lemma calm_parsed t : calm (continue (parsed_is t)).
Proof. apply calm_gets. Qed.

#[local] Hint Resolve calm_parsed calm_ret calm_gets calm_wait calm_exit calm_if : attempts.

Lemma calm_for_break n lo pause body : calm body → calm (for_break n lo pause body).
Proof.
  intros Hb. revert lo. induction n as [|n IH]; intros lo; cbn [for_break]; [auto with attempts|].
  apply calm_then; [done|]. intros []; [auto with attempts|]. apply calm_then; auto with attempts.
Qed.
Lemma calm_check ok : calm ok → calm (check ok).
Proof. intros Hok. apply calm_then; [done|]. intros []; auto with attempts. Qed.

(** A query and its text. *)
Lemma calm_ask {A} n tmo cmd kw fmt (k : unit → io (init W) (option A)) :
  (length cmd < 512)%nat → (cmd, text_fits kw fmt 10) ∈ queries_read → (∀ a, calm (k a)) →
  calm (and_then (AT_SEND_CMD n tmo cmd) (λ _, and_then (continue (parse_text kw fmt)) k)).
Proof.
  intros Hc Hin Hk i Hi. apply att_then, att_send; [done..|]. intros i1 Hi1 _ Ha.
  apply att_then. eapply att_text; [done..|]. intros i2 Hi2 _. by apply Hk.
Qed.

Ltac parsed := repeat (apply calm_then; [auto with attempts|intros ?]); auto with attempts.

Lemma calm_cpin : calm (check cpin_loop).
Proof. apply calm_check, calm_for_break, calm_then; [apply calm_send; cbn; lia|intros []; parsed]. Qed.
Lemma calm_creg : calm (check creg_loop).
Proof. apply calm_check, calm_for_break, calm_ask; [cbn; lia|listed|intros []; parsed]. Qed.
Lemma calm_csq : calm (check csq_loop).
Proof. apply calm_check, calm_for_break, calm_ask; [cbn; lia|listed|intros []; parsed]. Qed.
Lemma calm_cgatt cmd : (length cmd < 512)%nat → calm (cgatt_loop cmd).
Proof.
  intros Hc. apply calm_then; [|auto with attempts]. apply calm_for_break, calm_then; [|auto with attempts].
  intros i Hi. apply att_continue, exec_answered; [done..|]. auto.
Qed.
Lemma calm_cgreg : calm (check cgreg_loop).
Proof.
  apply calm_check, calm_for_break. apply calm_then; [apply calm_cgatt; cbn; lia|intros []].
  apply calm_then; [apply calm_send; cbn; lia|intros []]. apply calm_then; [auto with attempts|intros []].
  intros i Hi. apply att_then, att_send; [cbn; lia|done|]. intros i1 Hi1 _ Ha.
  apply att_then, att_wait; [done|]. intros i2 Hi2 _ Hr. rewrite <- Hr in Ha.
  apply att_then. eapply att_text; [listed|exact Ha|done|]. intros i3 Hi3 _. by apply calm_parsed.
Qed.
Lemma calm_startup `{!Clock W} patience : calm (startup patience).
Proof. by eapply calm_follows, follows_startup. Qed.

(** ** The whole attempt *)

(** From the answer to AT+CIPMUX? on, there is a number. *)
Definition has_number (i : init W) : Prop := steady i ∧ is_Some (qimux i).

Lemma att_maybe_send (b : bool) n tmo cmd i : (length cmd < 512)%nat → has_number i →
  att (if b then AT_SEND_CMD n tmo cmd else mret (Some tt)) (λ _ i', has_number i') i.
Proof.
  intros Hc [Hi Hq]. destruct b; [|by split]. apply att_send; [done..|].
  intros i' Hi' Hq' _. split; [done|by rewrite Hq'].
Qed.

Lemma att_cipmux i : steady i →
  att (turn_on (bytes "AT+CIPMUX?") (bytes "+CIPMUX:") cipmux_format (1 * 1000) (bytes "AT+CIPMUX=1"))
    (λ _ i', has_number i') i.
Proof.
  intros Hi. apply att_then, att_send; [cbn; lia|done|]. intros i1 Hi1 _ Ha.
  assert (number_there (bytes "+CIPMUX:") cipmux_format (lines (ini_resp i1))) as Hn.
  { apply (answers_read (bytes "AT+CIPMUX?", number_there (bytes "+CIPMUX:") cipmux_format)); [listed|exact Ha]. }
  apply att_then, att_number; [|done|].
  { unfold number_there, number_fits in *. by destruct (parse_lines _ _ _) as [[? ?]|]. }
  intros i2 Hi2 [Hq|[_ []]]; [|done]. apply att_then, att_qimux; [done|]. intros b.
  apply att_maybe_send; [cbn; lia|by split].
Qed.

Lemma att_gps i : has_number i →
  att (turn_on (bytes "AT+GPS?") (bytes "+GPS:") (lits (bytes "+GPS:") ++ [Blank; IntD]) 300 (bytes "AT+GPS=1"))
    (λ _ i', has_number i') i.
Proof.
  intros [Hi Hq]. apply att_then, att_send; [cbn; lia|done|]. intros i1 Hi1 Hq1 Ha.
  apply att_then, att_number; [|done|].
  { by apply (answers_read (bytes "AT+GPS?", number_fits (bytes "+GPS:") (lits (bytes "+GPS:") ++ [Blank; IntD])));
      [listed|]. }
  intros i2 Hi2 Hor. assert (is_Some (qimux i2)) as Hq2.
  { destruct Hor as [?|[E _]]; [done|]. by rewrite E, Hq1. }
  apply att_then, att_qimux; [done|]. intros b. apply att_maybe_send; [cbn; lia|by split].
Qed.

Lemma att_operator i : has_number i → att set_operator (λ _ i', has_number i') i.
Proof.
  intros [Hi Hq]. apply att_then, att_send; [cbn; lia|done|]. intros i1 Hi1 Hq1 Ha.
  apply att_then. eapply att_text; [listed|exact Ha|done|]. intros i2 Hi2 Hq2.
  assert (has_number i2) as Hn by (split; [done|by rewrite Hq2, Hq1]).
  do 3 (apply att_then, att_gets).
  repeat (case_if; [apply (att_maybe_send true); [cbn; lia|done]|]). done.
Qed.

Lemma calm_attempt `{!Clock W} patience : calm (init_attempt patience).
Proof.
  unfold init_attempt. apply calm_then; [by apply calm_store|intros _].
  apply calm_then; [by apply calm_startup|intros _].
  do 2 (apply calm_then; [apply calm_send; cbn; lia|intros _]). apply calm_then; [apply calm_cpin|intros _].
  apply calm_then; [apply calm_send; cbn; lia|intros _].
  apply calm_then; [eapply calm_follows, follows_rst; lia|intros _]. apply calm_then; [apply calm_wait|intros _].
  apply calm_then; [apply calm_creg|intros _]. apply calm_then; [apply calm_cgatt; cbn; lia|intros _].
  apply calm_then; [apply calm_cgreg|intros _]. apply calm_then; [apply calm_csq|intros _].
  intros i Hi. apply att_then. eapply att_mono; [by apply att_cipmux|]. intros [] i1 Hi1.
  apply att_then. eapply att_mono; [by apply att_operator|]. intros [] i2 [Hi2 Hq2].
  apply att_then, att_send; [cbn; lia|done|]. intros i3 Hi3 Hq3 _. apply att_then, att_gets, att_then.
  case_if; [done|]. apply att_then. eapply att_mono; [apply att_gps; split; [done|by rewrite Hq3]|].
  intros [] i4 [Hi4 _]. by apply att_continue, wpf_modify.
Qed.

Lemma calm_loop `{!Clock W} patience n i : steady i → wpf np (init_loop patience n) (λ _ i', steady i') i.
Proof.
  revert i. induction n as [|n IH]; intros i Hi; cbn [init_loop]; [by apply wpf_ret|].
  apply wpf_bind. eapply wpf_mono; [by apply calm_attempt|]. intros r i1 Hi1.
  assert (steady i1) as Hs by (by destruct r). clear Hi1. apply wpf_bind, wpf_gets.
  case_if; [by apply wpf_ret|]. apply wpf_bind.
  assert (on_dev (a9g_power_off patience) i1 = Ret (tt, i1)) as Eo.
  { unfold on_dev, zoom. rewrite power_off_idle by apply Hs. by destruct i1. }
  unfold wpf at 1. rewrite Eo. apply wpf_bind.
  pose proof (calm_wait 1000 i1 Hs) as Hw. unfold att, wait, continue in Hw.
  unfold wpf, mbind, io_bind in Hw |- *. destruct (on_dev (mdelay 1000) i1) as [[[] i2]|]; [|done].
  by apply IH.
Qed.
End calm.
