(* ===== verification/AtDeviceInit.v ===== *)
(** What the initialisation thread of the modem (AtDevice.v) leaves behind, for every modem
    and for one whose answers the driver can read. *)

From S2P Require Import Prelude CLib Event AtClient AtSocket AtSocketSpec.
From S2P Require Import AtEventSpec AtReceive AtParser Netdev NetdevSpec AtDevice AtDeviceSpec AtDeviceAnswers.

Section functions.
Context {W : Type} `{Modem W, Board W}.

(** Everything but the client and the interfaces is the same; [ws] was written and [dh]
    more blocks are live. *)
Definition same (ws : list cstr) (dh : Z) (d d' : device W) : Prop :=
  run ws dh (client d) (client d') ∧ d' = d <| client := client d' |> <| net := net d' |>.

Lemma same_refl d : same [] 0 d d.
Proof. split; [apply run_refl|by destruct d]. Qed.
Lemma same_trans ws ws' dh dh' d1 d2 d3 :
  same ws dh d1 d2 → same ws' dh' d2 d3 → same (ws ++ ws') (dh + dh') d1 d3.
Proof. intros [R1 E1] [R2 E2]. split; [by eapply run_trans|]. rewrite E2, E1. done. Qed.
Lemma same_cli ws dh d d' : same ws dh d d' → cli (client d') = cli (client d).
Proof. intros [(Hs & _) _]. unfold settings in Hs. congruence. Qed.
Lemma same_found ws dh d d' : same ws dh d d' → device_found (client d') = device_found (client d).
Proof. intros [(Hs & _) _]. unfold settings in Hs. congruence. Qed.

Lemma wpf_on_net {A} P (m : io netstate A) Q (d : device W) :
  wp m (λ a s', Q a (d <| net := s' |>)) (net d) → wpf P (on_net m) Q d.
Proof. unfold wp, wpf, on_net, zoom. by destruct (m (net d)) as [[a s']|]. Qed.

Lemma wpf_on_client {A} P (m : io (world W) A) (R : A → list cstr → Z → Prop) Q (d : device W) :
  runs P m R →
  (∀ a ws dh w', run ws dh (client d) w' → R a ws dh → Q a (d <| client := w' |>)) →
  wpf P (on_client m) Q d.
Proof.
  intros Hm HQ. specialize (Hm (client d)). unfold wpf, on_client, zoom.
  destruct (m (client d)) as [[a w']|f]; [|done]. destruct Hm as (ws & dh & ? & ?). eauto.
Qed.

Lemma wpf_exec P resp cmd Q (d : device W) :
  (length cmd < 512)%nat → cli (client d) = false →
  (∀ z resp' w', run (command cmd) 0 (client d) w' → z = RT_EOK ∨ z < 0 →
     buf resp' = buf resp → buf_size resp' = buf_size resp →
     Q (z, Some resp') (d <| client := w' |>)) →
  wpf P (on_client (at_obj_exec_cmd (Some resp) cmd)) Q d.
Proof.
  intros Hc Hcli HQ. pose proof (exec_open P resp cmd (client d) Hc Hcli) as He.
  unfold wpf, on_client, zoom. destruct (at_obj_exec_cmd _ cmd (client d)) as [[[z o] w']|f]; [|done].
  destruct He as (Hrun & Hsame & Hz). destruct o as [resp'|]; [|done].
  injection Hsame as Hb Hs. by apply HQ.
Qed.

Lemma stored_text_faults P size v :
  (∀ f, answer_fault f → P f) → may_fault P (λ _, True) (stored_text size v).
Proof.
  intros HP. destruct v as [|[z|t] vs]; cbn; [done|done|]. case_if; [done|]. apply HP. by left.
Qed.

Lemma parse_line_faults resp n expr :
  may_fault answer_fault (λ _, True) (at_resp_parse_line_args resp n expr).
Proof.
  unfold at_resp_parse_line_args. destruct (at_resp_get_line resp n); [apply scanf_faults|done].
Qed.

Lemma wpf_parse {A} (P : fault → Prop) (r : res A) (Q : A → device W → Prop) d :
  (∀ f, answer_fault f → P f) → may_fault answer_fault (λ _, True) r →
  (∀ a, r = Ret a → Q a d) → wpf P (lift r) Q d.
Proof. intros HP Hr HQ. apply wpf_lift. destruct r; [by apply HQ|by apply HP]. Qed.

(** A command and the answer to it. *)
Lemma wpf_exec_read P resp cmd Q (d : device W) :
  (length cmd < 512)%nat → cli (client d) = false →
  (∀ z resp' w', run (command cmd) 0 (client d) w' → z = RT_EOK ∨ z < 0 →
     (0 <= z → answered cmd (lines resp')) → buf resp' = buf resp → buf_size resp' = buf_size resp →
     Q (z, Some resp') (d <| client := w' |>)) →
  wpf P (on_client (at_obj_exec_cmd (Some resp) cmd)) Q d.
Proof.
  intros Hc Hcli HQ. pose proof (exec_open P resp cmd (client d) Hc Hcli) as He.
  unfold wpf, on_client, zoom. destruct (at_obj_exec_cmd _ cmd (client d)) as [[[z o] w']|f] eqn:E; [|done].
  destruct He as (Hrun & Hsame & Hz). destruct o as [resp'|]; [|done].
  injection Hsame as Hb Hs. apply HQ; [done..| |done|done].
  intros Hz0. destruct (exec_lines _ _ _ _ _ Hc Hcli E Hz0) as (? & [= <-] & Ha). done.
Qed.

(** ** Answers that can be read, or faults that are allowed *)

Variable P : fault → Prop.
Hypothesis readable : (∀ f, parse_fault f → P f) ∨ Answers W.

Lemma may_fault_weaken {A} (P1 P2 : fault → Prop) (R : A → Prop) (m : res A) :
  may_fault P1 R m → (∀ f, P1 f → P2 f) → may_fault P2 R m.
Proof. destruct m; cbn; auto. Qed.

Lemma wpf_read {A} (r : res A) (R : A → Prop) (Q : A → device W → Prop) d :
  may_fault parse_fault (λ _, True) r → (Answers W → may_fault (λ _, False) R r) →
  (∀ a, (Answers W → R a) → Q a d) → wpf P (lift r) Q d.
Proof.
  intros Hr Ha HQ. apply wpf_lift. destruct r as [a|f]; [apply HQ; exact Ha|]. cbn in *.
  destruct readable as [HP|HA]; [by apply HP|]. by destruct (Ha HA).
Qed.

Lemma set_hwaddr_does nd resp (d : device W) n :
  netdev_list (net d) !! nd = Some n → is_Some (netdev_default (net d)) → cli (client d) = false →
  wpf P (set_hwaddr nd resp) (λ r d', same (command (bytes "AT+GSN")) 0 d d' ∧
    buf r.2 = buf resp ∧ buf_size r.2 = buf_size resp ∧
    ∃ n', becomes nd n' (net d) (net d') ∧ view n' = view n ∧
      (r.1 = RT_EOK ∧ hwaddr_len n' = A9G_NETDEV_HWADDR_LEN ∨ r.1 < 0 ∧ n' = n)) d.
Proof.
  intros Hn Hdef Hcli. unfold set_hwaddr. apply wpf_bind, wpf_exec_read; [cbn; lia|done|].
  intros z resp' w' Hrun Hz Hans Hb Hs. cbn [fst snd default].
  assert (becomes nd n (net d) (net (d <| client := w' |>))) as Hid.
  { split; [|done]. cbn. by rewrite (list_insert_id _ nd). }
  case_if; [apply wpf_ret; split_and!; [done..|exists n; split_and!; [done|done|right]]; by split|].
  assert (Answers W → imei_fits (lines resp')) as Hfits.
  { intros HA. apply (answers_read (bytes "AT+GSN", imei_fits)); [listed|apply Hans; lia]. }
  apply wpf_bind. eapply (wpf_read _ (λ v, ∃ t, stored_text A9G_IEMI_LEN v.2 = Ret t)).
  { eapply may_fault_weaken; [apply parse_line_faults|by left]. }
  { intros HA. apply imei_read, Hfits, HA. }
  intros v Hv. apply wpf_bind. eapply (wpf_read _ (λ _, True)).
  { by apply stored_text_faults; left. }
  { intros HA. by destruct (Hv HA) as [t ->]. }
  intros t _.
  case_if; [apply wpf_ret; split_and!; [done..|exists n; split_and!; [done|done|right]]; by split|].
  apply wpf_bind, wpf_on_net. eapply wp_upd; [done|]. apply wpf_ret.
  split_and!; [done..|].
  exists (n <| hwaddr_len := A9G_NETDEV_HWADDR_LEN |> <| hwaddr := hwaddr_of_iemi t |>).
  split_and!; [by split|by destruct n|by left].
Qed.

Lemma set_ip_address_does nd resp (d : device W) n :
  netdev_list (net d) !! nd = Some n → is_Some (netdev_default (net d)) → cli (client d) = false →
  buf resp = true → buf_size resp = A9G_IPADDR_RESP_SIZE →
  wpf P (set_ip_address nd resp) (λ r d', same (command (bytes "AT+CIFSR")) 0 d d' ∧
    buf r.2 = true ∧ ∃ n', becomes nd n' (net d) (net d') ∧ view n' = view n) d.
Proof.
  intros Hn Hdef Hcli Hb Hs. unfold set_ip_address. apply wpf_bind.
  eapply wpf_on_client; [rewrite <- Hs; apply runs_set_info|].
  intros resp1 ws dh w1 Hrun1 (-> & -> & Hb1 & Hs1).
  apply wpf_bind, wpf_exec_read; [cbn; lia| |].
  { destruct Hrun1 as (Hset & _). unfold settings in Hset. cbn. congruence. }
  intros z resp2 w2 Hrun2 Hz Hans Hb2 _. cbn [fst snd default].
  pose proof (run_trans _ _ _ _ _ _ _ Hrun1 Hrun2) as Hrun. cbn in Hrun.
  assert (buf resp2 = true) as Hb' by congruence.
  set (d2 := d <| client := w1 |> <| client := w2 |>).
  assert (becomes nd n (net d) (net d2)) as Hid by (split; [cbn; by rewrite (list_insert_id _ nd)|done]).
  assert (same (command (bytes "AT+CIFSR")) 0 d d2) as Hd2 by by split.
  case_if; [apply wpf_ret; split_and!; [done|done|by exists n]|].
  assert (Answers W → address_valid (lines resp2)) as Hvalid.
  { intros HA. apply (answers_read (bytes "AT+CIFSR", address_valid)); [listed|apply Hans; lia]. }
  apply wpf_bind. eapply (wpf_read _ (λ v, ∃ t, stored_text IP_ADDR_SIZE_MAX v.2 = Ret t ∧
    (0 < v.1 → is_Some (netdev_ip4addr_aton t)))).
  { eapply may_fault_weaken; [apply parse_faults|by left]. }
  { intros HA. apply address_read, Hvalid, HA. }
  intros v Hv. apply wpf_bind. eapply (wpf_read _ (λ t, 0 < v.1 → is_Some (netdev_ip4addr_aton t))).
  { by apply stored_text_faults; left. }
  { intros HA. by destruct (Hv HA) as (t & -> & ?). }
  intros t Ht.
  case_if; [apply wpf_ret; split_and!; [done|done|by exists n]|].
  apply wpf_bind. eapply (wpf_read _ (λ _, True)).
  { destruct (netdev_ip4addr_aton t); [done|by right]. }
  { intros HA. destruct (Ht HA) as [addr ->]; [lia|done]. }
  intros addr _.
  apply wpf_bind, wpf_on_net. eapply wp_mono; [by apply wp_set_ipaddr|].
  intros ? s' Hs'. apply wpf_ret. split_and!; [by split|done|].
  exists (n <| ip_addr := addr |>). split_and!; [done|by destruct n].
Qed.

(** The calls that ask the modem who and where it is. *)
Definition info : lang := λ ws,
  ws = [] ∨ ws = command (bytes "AT+GSN") ∨
  ws = command (bytes "AT+GSN") ++ command (bytes "AT+CIFSR").

Lemma becomes_trans nd n1 n2 s1 s2 s3 :
  becomes nd n1 s1 s2 → becomes nd n2 s2 s3 → becomes nd n2 s1 s3.
Proof. intros [H1 _] [H2 H3]. split; [|done]. by rewrite H2, H1, list_insert_insert_eq. Qed.

Lemma becomes_at nd n n' s s' :
  netdev_list s !! nd = Some n → becomes nd n' s s' →
  netdev_list s' !! nd = Some n' ∧ is_Some (netdev_default s').
Proof.
  intros Hn [-> Hd]. split; [|done]. apply list_lookup_insert_eq. by eapply lookup_lt_Some.
Qed.

(** The interface [n] has come up. *)
Definition brought_up (nd : nat) (d d' : device W) : Prop :=
  ∃ n', becomes nd n' (net d) (net d') ∧ netdev_is_up n' = true ∧ netdev_is_link_up n' = true.

Lemma set_info_does nd (d : device W) n :
  netdev_list (net d) !! nd = Some n → is_Some (netdev_default (net d)) →
  cli (client d) = false → device_found (client d) = true →
  wpf P (a9g_netdev_set_info nd)
    (λ r d', ∃ ws, same ws 0 d d' ∧ info ws ∧ brought_up nd d d') d.
Proof.
  intros Hn Hdef Hcli Hdev. unfold a9g_netdev_set_info. apply wpf_bind, wpf_gets. rewrite Hdev.
  cbn [negb]. destruct (view n) as [[[u l] i] h] eqn:Ev.
  apply wpf_bind, wpf_on_net. eapply wp_mono; [by apply wp_set_status|].
  rewrite Ev. intros _ s1 (n1 & B1 & _ & V1). destruct (becomes_at _ _ _ _ _ Hn B1) as [Hn1 Hd1].
  apply wpf_bind, wpf_on_net. eapply wp_mono; [by apply wp_set_link_status|].
  rewrite V1. intros _ s2 (n2 & B2 & _ & V2). destruct (becomes_at _ _ _ _ _ Hn1 B2) as [Hn2 Hd2].
  apply wpf_bind, wpf_on_net. eapply wp_mono; [by apply wp_set_dhcp|].
  rewrite V2. intros _ s3 (n3 & B3 & _ & V3). destruct (becomes_at _ _ _ _ _ Hn2 B3) as [Hn3 Hd3].
  pose proof (becomes_trans _ _ _ _ _ _ (becomes_trans _ _ _ _ _ _ B1 B2) B3) as B.
  assert (∀ n', view n' = view n3 → netdev_is_up n' = true ∧ netdev_is_link_up n' = true) as Hup.
  { intros n' Hv. rewrite V3 in Hv. unfold view in Hv. by simplify_eq. }
  apply wpf_bind. eapply wpf_on_client; [apply runs_create|].
  intros resp ws dh w1 Hrun1 (-> & Hresp). destruct resp as [resp|]; cycle 1.
  { subst dh. apply wpf_ret. exists []. split_and!; [by split|by left|]. exists n3.
    split_and!; [done|by apply Hup..]. }
  destruct Hresp as [-> ->]. set (d4 := d <| net := _ |> <| net := _ |> <| net := s3 |> <| client := w1 |>).
  assert (same [] 2 d d4) as Hd4 by by split.
  apply wpf_bind. eapply wpf_mono; [apply (set_hwaddr_does nd _ d4 n3); try done|].
  { by rewrite (same_cli _ _ _ _ Hd4). }
  cbn [buf buf_size]. intros [r resp1] d5 (H5 & Hb1 & Hs1 & n5 & B5 & V5 & Hr). cbn [fst snd] in *.
  destruct (becomes_at _ _ _ _ _ Hn3 B5 : _ ∧ _) as [Hn5 Hd5].
  pose proof (becomes_trans _ _ _ _ _ _ B B5) as B'. pose proof (same_trans _ _ _ _ _ _ _ Hd4 H5) as S5.
  assert (∀ ws dh d6 n6 (r : Z * at_response), same ws dh d5 d6 → becomes nd n6 (net d5) (net d6) →
    view n6 = view n3 → dh = 0 → buf r.2 = true →
    info (command (bytes "AT+GSN") ++ ws) →
    wpf P (on_client (at_delete_resp r.2) ;; mret r.1)
      (λ r d', ∃ ws, same ws 0 d d' ∧ info ws ∧ brought_up nd d d') d6) as Hend.
  { intros ws dh d6 n6 r6 S6 B6 V6 -> Hb6 Hi. apply wpf_bind.
    eapply wpf_on_client; [by apply runs_delete|]. intros [] ws7 dh7 w7 Hrun7 [-> ->].
    apply wpf_ret. exists (command (bytes "AT+GSN") ++ ws). split_and!; [|done|].
    - pose proof (same_trans _ _ _ _ _ _ _ S5 S6) as S7. split; [|by rewrite (proj2 S7)].
      pose proof (run_trans _ _ _ _ _ _ _ (proj1 S7) Hrun7) as R7. rewrite app_nil_r in R7.
      exact R7.
    - exists n6. split_and!; [by eapply becomes_trans|by apply Hup..]. }
  apply wpf_bind. destruct (r =? RT_EOK) eqn:Er.
  - eapply wpf_mono; [apply (set_ip_address_does nd _ d5 n5); try done|].
    { rewrite (same_cli _ _ _ _ S5). done. }
    intros [r6 resp6] d6 (S6 & Hb6 & n6 & B6 & V6). eapply Hend; [done..|congruence|done|done|].
    by right; right.
  - apply wpf_ret. eapply (Hend [] 0 d5 n5); [apply same_refl|split; [by rewrite list_insert_id|done]
      |done|done|done|]. right; left. by rewrite app_nil_r.
Qed.

(** What no thread changes. *)
Definition hardware (d : device W) :=
  (power_pin d, power_status_pin d, netdev_of d, urc_tables d).

(** What the thread leaves behind when an attempt succeeded, and when none did. *)
Lemma init_done_does nd result (d : device W) n :
  netdev_list (net d) !! nd = Some n → is_Some (netdev_default (net d)) →
  cli (client d) = false → device_found (client d) = true →
  wpf P (init_done nd result) (λ _ d',
    let ok := result =? RT_EOK in
    ∃ ws, run ws 0 (client d) (client d') ∧ hardware d' = hardware d ∧ info ws ∧
      (ok = false → ws = []) ∧ is_init d' = ok ∧
      (threads d' = threads d ∨ ok = true ∧ threads d' = threads d ++ [LinkThread]) ∧
      ∃ n', becomes nd n' (net d) (net d') ∧ netdev_is_up n' = ok) d.
Proof.
  intros Hn Hdef Hcli Hdev. unfold init_done. destruct (result =? RT_EOK); cbv zeta.
  - apply wpf_bind, wpf_modify, wpf_bind.
    eapply wpf_mono; [by apply (set_info_does nd _ n)|].
    intros r d2 (ws & [Hrun Hd2] & Hi & n' & Hb & Hup & _). cbn in Hrun.
    apply wpf_bind. unfold a9g_netdev_check_link_status, start_thread, wpf, mbind, io_bind.
    unfold on_board, on_client, zoom, on_modem. destruct (rt_thread_create (modem (client d2))) as [[] m].
    all: cbn; exists ws; (split; [destruct Hrun as (R1 & R2 & R3); split_and!; [exact R1|exact R2|exact R3]|]).
    all: split_and!; [by rewrite Hd2|done|done|by rewrite Hd2| |by exists n'].
    + right. split; [done|]. by rewrite Hd2.
    + left. by rewrite Hd2.
  - apply wpf_bind, wpf_modify, wpf_on_net. eapply wp_mono; [by apply wp_set_status|].
    destruct (view n) as [[[u l] i] h] eqn:Ev. intros _ s' (n' & Hb & _ & Hv).
    exists []. split_and!; [apply run_refl|done|by left|done|done|by left|].
    exists n'. split; [done|]. unfold view in Hv. by simplify_eq.
Qed.
End functions.

(** Memory for the first response object: its structure and its buffer. *)
Definition has_memory {W} `{Modem W} (w : world W) : bool :=
  let '(ok, m) := rt_malloc 24 (modem w) in ok && (rt_malloc 128 m).1.

Lemma create_memory {W} `{Modem W} num tmo (w : world W) r w' :
  at_create_resp 128 num tmo w = Ret (r, w') → has_memory w = bool_decide (is_Some r).
Proof.
  unfold at_create_resp, has_memory, rt_calloc, rt_free, on_modem, mbind, io_bind, modify.
  destruct (rt_malloc 24 (modem w)) as [[] m1]; cbn; [|by intros [= <- <-]].
  destruct (rt_malloc 128 m1) as [[] m2]; cbn; by intros [= <- <-].
Qed.

Lemma init_loop_outcome {W} `{Modem W, Board W} `{!Clock W} (P : fault → Prop) patience n i :
  (∀ f, parse_fault f → P f) ∨ Answers W → steady i →
  wpf P (init_loop patience n) (λ _ i', ∃ ok ws, run ws 0 (client (dev i)) (client (dev i')) ∧ kept i i' ∧
    tries n ok ws ∧
    (if ok : bool then ini_result i' = RT_EOK else ini_result i' < 0 ∨ n = O ∧ ini_result i' = ini_result i)) i.
Proof.
  intros Hread Hi. pose proof (init_loop_tries patience n i Hi) as Ht. unfold wpf.
  destruct (init_loop patience n i) as [[[] i']|f] eqn:E; [exact Ht|].
  destruct Hread as [HP|HA]; [by apply HP|]. pose proof (calm_loop patience n i Hi) as Hc.
  unfold wpf in Hc. rewrite E in Hc. by destruct Hc.
Qed.

Lemma init_thread_does {W} `{Modem W, Board W} `{!Clock W} (P : fault → Prop) patience nd (d : device W) n :
  (∀ f, parse_fault f → P f) ∨ Answers W →
  cli (client d) = false → device_found (client d) = true →
  power_pin d = -1 ∨ power_status_pin d = -1 →
  netdev_list (net d) !! nd = Some n → is_Some (netdev_default (net d)) →
  wpf P (a9g_init_thread_entry patience nd) (λ _ d',
    settings (client d') = settings (client d) ∧ heap (client d') = heap (client d) ∧
    hardware d' = hardware d ∧
    (has_memory (client d) = false ∧
       written (client d') = written (client d) ∧ is_init d' = is_init d ∧ net d' = net d ∧
       threads d' = threads d ∨
     has_memory (client d) = true ∧ ∃ ok ws asked, tries 5 ok ws ∧ info asked ∧ (ok = false → asked = []) ∧
       written (client d') = written (client d) ++ ws ++ asked ∧ is_init d' = ok ∧
       (threads d' = threads d ∨ ok = true ∧ threads d' = threads d ++ [LinkThread]) ∧
       ∃ n', becomes nd n' (net d) (net d') ∧ netdev_is_up n' = ok)) d.
Proof.
  intros Hread Hcli Hdev Hpins Hn Hdef. unfold a9g_init_thread_entry.
  apply wpf_bind. unfold wpf at 1, on_client, zoom.
  pose proof (runs_create (λ _, False) 128 0 (rt_tick_from_millisecond 300) (client d)) as Hcreate.
  destruct (at_create_resp 128 0 (rt_tick_from_millisecond 300) (client d)) as [[resp w1]|] eqn:Ecreate; [|done].
  destruct Hcreate as (ws & dh & Hrun1 & -> & Hr). apply create_memory in Ecreate.
  rewrite Ecreate. destruct resp as [resp|]; cycle 1.
  { subst dh. destruct Hrun1 as (R1 & R2 & R3). apply wpf_ret. cbn. rewrite app_nil_r in R2.
    split_and!; [done|lia|done|by left]. }
  rewrite bool_decide_true by (by eexists).
  destruct Hr as [-> ->]. set (d1 := d <| client := w1 |>). apply wpf_bind, wpf_gets.
  assert (cli w1 = false) as Hcli1 by (destruct Hrun1 as (Hs & _); unfold settings in Hs; congruence).
  pose proof (init_loop_outcome P patience INIT_RETRY (MkInit d1 (MkResp true 128 0
    (rt_tick_from_millisecond 300) []) [] None RT_EOK) Hread (conj Hcli1 (conj Hpins (conj eq_refl eq_refl)))) as Hl.
  change (id d1) with d1. unfold wpf in Hl.
  destruct (init_loop _ _ _) as [[[] i]|f]; [|exact Hl].
  destruct Hl as (ok & ws & Hrun2 & (Hd2 & Hb & _) & Ht & Hres). cbn [dev ini_resp] in *.
  apply wpf_bind, wpf_modify, wpf_bind. eapply wpf_on_client; [by apply runs_delete|].
  intros [] ws3 dh3 w3 Hrun3 [-> ->].
  pose proof (run_trans _ _ _ _ _ _ _ (run_trans _ _ _ _ _ _ _ Hrun1 Hrun2) Hrun3) as Hrun.
  cbn [app] in Hrun. rewrite app_nil_r in Hrun.
  assert ((ini_result i =? RT_EOK) = ok) as Hok.
  { destruct ok; [by apply Z.eqb_eq|]. apply Z.eqb_neq. unfold RT_EOK.
    destruct Hres as [?|[? _]]; [lia|done]. }
  set (d3 := (dev i) <| client := w3 |>).
  assert (d3 = d <| client := w3 |>) as Hd3 by (unfold d3; by rewrite Hd2).
  eapply wpf_mono; [apply (init_done_does P Hread nd _ d3 n); rewrite ?Hd3; try done|].
  - cbn. destruct Hrun as (Hs & _). unfold settings in Hs. congruence.
  - cbn. destruct Hrun as (Hs & _). unfold settings in Hs. congruence.
  - intros [] d4 (asked & Hrun4 & Hhw & Hi & Hno & Hini & Hth & n' & Hb' & Hup). rewrite Hok, Hd3 in *.
    cbn in Hrun4. pose proof (run_trans _ _ _ _ _ _ _ Hrun Hrun4) as (R1 & R2 & R3).
    split_and!; [done|lia|done|]. right. split; [done|]. exists ok, ws, asked.
    split_and!; [done|done|done|by rewrite R2|done|done|by exists n'].
Qed.

(** What the thread leaves behind: with [nd] the interface, and memory for its first
    response object, the attempts and what came of them; without memory, nothing. *)
Definition init_left {W} `{Modem W} (nd : nat) (d d' : device W) : Prop :=
  settings (client d') = settings (client d) ∧ heap (client d') = heap (client d) ∧
  if has_memory (client d) then
    ∃ ok ws asked, tries 5 ok ws ∧ info asked ∧ (ok = false → asked = []) ∧
      written (client d') = written (client d) ++ ws ++ asked ∧ is_init d' = ok ∧
      (threads d' = threads d ∨ ok = true ∧ threads d' = threads d ++ [LinkThread]) ∧
      ∃ n', becomes nd n' (net d) (net d') ∧ netdev_is_up n' = ok
  else
    written (client d') = written (client d) ∧ is_init d' = is_init d ∧ net d' = net d ∧ threads d' = threads d.

(** C19. The initialisation of the modem ends, whatever the modem answers, when the client
    takes commands, a pin that would switch the modem on is not wired and there is a
    default interface.  Either it comes to its end.  Then, with memory for the first
    response object, there were at most five attempts, each a beginning of the session of
    commands, the last the whole session if and only if it succeeded; the memory of the
    response objects is free again and the settings of the client are as before; [is_init]
    and the status of the interface say whether an attempt succeeded; only then the modem
    is asked for its identity and address and a link thread may be started.  Without that
    memory nothing changes at all.  Or it stops with one of three faults: a text of an
    answer does not fit the array it is scanned into (an operator of ten bytes, any
    identity of fifteen digits), a number does not fit an [int], or a number or an address
    is used that no answer held.  When the answers to the eight queries it reads are such
    that this cannot happen, it does come to its end. *)
Theorem a9g_init_thread_outcome {W} `{Modem W, Board W} `{!Clock W} patience nd (d : device W) n :
  cli (client d) = false → device_found (client d) = true →
  power_pin d = -1 ∨ power_status_pin d = -1 →
  netdev_list (net d) !! nd = Some n → is_Some (netdev_default (net d)) →
  wpf parse_fault (a9g_init_thread_entry patience nd) (λ _, init_left nd d) d ∧
  (Answers W → wp (a9g_init_thread_entry patience nd) (λ _, init_left nd d) d).
Proof.
  intros Hcli Hdev Hpins Hn Hdef.
  assert (∀ P : fault → Prop, (∀ f, parse_fault f → P f) ∨ Answers W →
    wpf P (a9g_init_thread_entry patience nd) (λ _, init_left nd d) d) as Hall.
  { intros P HP. eapply wpf_mono; [by apply (init_thread_does P patience nd d n)|].
    intros _ d' (H1 & H2 & _ & [[Hm Hr]|[Hm Hr]]); split; try done; rewrite Hm; by split. }
  split; [apply Hall; by left|]. intros HA. specialize (Hall (λ _, False) (or_intror HA)).
  unfold wp, wpf in *. by destruct (a9g_init_thread_entry patience nd d) as [[[] d']|].
Qed.

(** * A modem whose answers can be read

    It names the operator "CHN-CT" and an identity of fourteen digits. *)
Record mobile : Type := MkMobile { last_asked : cstr; clock : Z }.
Definition mobile_answers := on_network (bytes "CHN-CT") (bytes "86000000000001").
Definition mobile_reply (s : mobile) : answer := reply_to (MkStation mobile_answers (last_asked s) (clock s)).
Definition mobile_later (n : Z) (s : mobile) : mobile := MkMobile (last_asked s) (clock s + n).
#[global] Instance mobile_modem : Modem mobile := {
  rt_malloc _ s := (true, s);
  rt_device_write t s :=
    (Z.of_nat (length t), if bool_decide (t = CRLF) then s else MkMobile t (clock s));
  resp_notice tmo s := let a := mobile_reply s in (a, mobile_later (if notice a then 0 else tmo) s);
  event_wait _ s := ([], s);
  at_client_getchar _ s := (None, s);
  rt_delay ms s := mobile_later ms s }.
#[global] Instance mobile_board : Board mobile := {
  rt_pin_read _ s := (0, s);
  rt_pin_write _ _ s := s;
  rt_pin_mode _ _ s := s;
  rt_tick_get s := u32 (clock s);
  rt_thread_create s := (true, s);
  at_client_init s := (Ret true, s) }.
#[export] Instance mobile_clock : Clock mobile.
Proof.
  assert (∀ t d, u32 (t + d) = u32 (u32 t + d)) as Hu
    by (intros; unfold u32; by rewrite Zplus_mod_idemp_l).
  split.
  - intros t m. exists 0. split; [lia|]. cbn. rewrite <- Hu, Z.add_0_r. by destruct (bool_decide (t = CRLF)).
  - intros tmo m Ht Hn. exists tmo. split; [lia|]. cbn in *. rewrite Hn. cbn. by rewrite <- Hu.
Qed.
#[export] Instance mobile_readable : Answers mobile.
Proof.
  split. intros q Hq ls (tmo & m & _ & _ & ->). unfold queries_read in Hq.
  repeat (apply elem_of_cons in Hq as [->|Hq]); [vm_compute; done || (split; [done|by eexists])..|].
  by apply elem_of_nil in Hq.
Qed.

Definition fresh {W} (m : W) : device W :=
  MkDevice (MkWorld false 0 0 0 1 10 (MkEvent 0 [] 0) true (replicate 8 None) 0 [] [] m)
    (MkNetstate [MkNetdev (bytes "a9g0") 0 0 0 [0; 0] 0 [] 0 1500 false false false] (Some 0%nat) [])
    None false (-1) (-1) [] (Some []).
Definition mobile_on : device mobile := fresh (MkMobile [] 0).

Lemma a9g_init_thread_outcome_witness :
  let d := mobile_on in
  cli (client d) = false ∧ device_found (client d) = true ∧
  (power_pin d = -1 ∨ power_status_pin d = -1) ∧ is_Some (netdev_default (net d)) ∧ has_memory (client d) = true ∧
  Answers mobile ∧ wp (a9g_init_thread_entry 0 0) (λ _, init_left 0 d) d.
Proof.
  intros d. assert (power_pin d = -1 ∨ power_status_pin d = -1) as H1 by by left.
  assert (is_Some (netdev_default (net d))) as H2 by by eexists.
  split; [reflexivity|]. split; [reflexivity|]. split; [exact H1|]. split; [exact H2|]. split; [reflexivity|].
  split; [exact mobile_readable|].
  exact (proj2 (a9g_init_thread_outcome 0 0 d _ eq_refl eq_refl H1 eq_refl H2) mobile_readable).
Defined.

(** Evaluated: a modem on a network comes up at the first attempt; one without a SIM card
    is asked five times ten times and stays down. *)
Example station_comes_up :
  match a9g_init_thread_entry 0 0 (fresh (MkStation mobile_answers [] 0)) with
  | Ret (_, d') => is_init d' = true ∧ netdev_is_up <$> netdev_list (net d') !! 0%nat = Some true ∧
                   ip_addr <$> netdev_list (net d') !! 0%nat = Some (10 + 7 * 16777216)
  | Fault _ => False
  end.
Proof. vm_compute. done. Qed.
Example station_without_sim :
  match a9g_init_thread_entry 0 0 (fresh (MkStation [] [] 0)) with
  | Ret (_, d') => is_init d' = false ∧ length (written (client d')) = 125%nat
  | Fault _ => False
  end.
Proof. vm_compute. done. Qed.
