(* ===== verification/AtDeviceLife.v ===== *)
(** The modem as a network device over its whole life (AtDevice.v): the status of the
    interface through every order of its calls and threads, the link thread, and the texts
    of the modem that do not fit the variables they are stored in. *)

From S2P Require Import Prelude CLib Event AtClient AtSocket AtSocketSpec.
From S2P Require Import AtEventSpec AtReceive AtParser Netdev NetdevSpec AtDevice AtDeviceSpec AtDeviceAnswers AtDeviceInit.

(** * Words in a line *)

Definition word_text (t : cstr) : Prop := t ≠ [] ∧ Forall (λ c, isspace c = false) t.
Definition blank_after (rest : cstr) : Prop := rest = [] ∨ isspace (peek rest) = true.

Lemma stops_blank rest : blank_after rest → stops (λ c, negb (isspace c)) rest = true.
Proof.
  intros [->|Hr]; [done|]. destruct rest as [|c rest]; [done|]. cbn in *. by rewrite Hr.
Qed.

Lemma scanf_word fmt t rest n conv :
  word_text t → blank_after rest →
  scanf (GetStr :: fmt) (t ++ rest) n conv =
    ('(r, vs) ← scanf fmt rest (n + 1) true; Ret (r, SText t :: vs)).
Proof.
  intros [Hne Ht] Hrest. cbn [scanf].
  assert (skip_while isspace (t ++ rest) = t ++ rest) as ->.
  { destruct t as [|c t]; [done|]. inversion Ht as [|? ? Hc _]; subst. cbn. by rewrite Hc. }
  assert (Forall (λ c, negb (isspace c) = true) t) as Ht'.
  { eapply Forall_impl; [exact Ht|]. by intros c ->. }
  destruct (t ++ rest) as [|c q] eqn:E; [by destruct t|]. rewrite <- E.
  rewrite skip_while_app, take_while_app by (done || by apply stops_blank). done.
Qed.

(** A text up to a stop character. *)
Lemma scanf_until fmt stop t rest n conv :
  t ≠ [] → Forall (λ c, c ≠ stop) t →
  scanf (GetSet stop :: fmt) (t ++ stop :: rest) n conv =
    ('(r, vs) ← scanf fmt (stop :: rest) (n + 1) true; Ret (r, SText t :: vs)) ∧
  scanf (SkipSet stop :: fmt) (t ++ stop :: rest) n conv = scanf fmt (stop :: rest) n true.
Proof.
  intros Hne Ht.
  assert (Forall (λ c, negb (c =? stop) = true) t) as Ht'.
  { eapply Forall_impl; [exact Ht|]. cbn. intros c Hc. by apply negb_true_iff, Z.eqb_neq. }
  assert (stops (λ c, negb (c =? stop)) (stop :: rest) = true) as Hs by (cbn; by rewrite Z.eqb_refl).
  cbn [scanf]. destruct (t ++ stop :: rest) as [|c q] eqn:E; [by destruct t|]. rewrite <- E.
  rewrite skip_while_app, take_while_app by done. by destruct t.
Qed.

(** * The identity of the modem *)

Section identity.
Context {W : Type} `{Modem W, Board W}.

(** The eight bytes of the hardware address of the digits [t]: a byte is the number two
    digits make; a digit without a second one and the places without digits read zeros of
    the array in their place, and the last byte stands for a fifteenth digit that is not
    there. *)
Record digit_pairs (t : cstr) (h : list Z) : Prop := {
  dp_length : length h = 8%nat;
  dp_pair i a b : t !! (2 * i)%nat = Some a → t !! (2 * i + 1)%nat = Some b →
    isdigit a = true → isdigit b = true → h !! i = Some (dec [a; b]);
  dp_odd i a : t !! (2 * i)%nat = Some a → length t = (2 * i + 1)%nat → isdigit a = true →
    h !! i = Some ((10 * dec [a] + 208) mod 256);
  dp_none i : (length t <= 2 * i < 14)%nat → h !! i = Some 240;
  dp_last : h !! 7%nat = Some 208 }.

Lemma hwaddr_byte t i : (i < 8)%nat → hwaddr_of_iemi t !! i =
  Some (u8 (if negb (Z.of_nat (2 * i) =? 14) then (iemi_at t (2 * i) - 48) * 10 + (iemi_at t (S (2 * i)) - 48)
            else iemi_at t (2 * i) - 48)).
Proof.
  intros Hi. unfold hwaddr_of_iemi. change (Z.to_nat A9G_NETDEV_HWADDR_LEN) with 8%nat.
  rewrite (list_lookup_fmap _ (seq 0 8)), lookup_seq_lt by exact Hi. done.
Qed.

Lemma iemi_there t j c : t !! j = Some c → iemi_at t j = c.
Proof. intros Hc. unfold iemi_at. by apply nth_lookup_Some. Qed.
Lemma iemi_beyond t j : (length t <= j)%nat → iemi_at t j = 0.
Proof. intros Hj. unfold iemi_at. by apply nth_overflow. Qed.

Lemma digit_pairs_of t : (length t < 15)%nat → digit_pairs t (hwaddr_of_iemi t).
Proof.
  intros Hl. assert (∀ c, isdigit c = true → 0 <= c - 48 <= 9) as Hdig
    by (unfold isdigit; intros c Hc; bool_prop; lia).
  split; [by unfold hwaddr_of_iemi; rewrite length_map|intros i a b Ha Hb Hda Hdb
    |intros i a Ha Hodd Hda|intros i Hi|].
  - pose proof (lookup_lt_Some _ _ _ Hb). apply Hdig in Hda, Hdb.
    rewrite hwaddr_byte, (iemi_there _ _ _ Ha) by lia.
    rewrite (iemi_there t (S (2 * i)) b) by (by replace (S (2 * i)) with (2 * i + 1)%nat by lia).
    decide_if (Z.of_nat (2 * i) =? 14) false. cbn [negb]. rewrite u8_small by (unfold is_byte; lia).
    change (dec [a; b]) with ((0 * 10 + (a - 48)) * 10 + (b - 48)). by f_equal.
  - apply Hdig in Hda. rewrite hwaddr_byte, (iemi_there _ _ _ Ha), (iemi_beyond t (S (2 * i))) by lia.
    decide_if (Z.of_nat (2 * i) =? 14) false. cbn [negb].
    change (dec [a]) with (0 * 10 + (a - 48)). f_equal. unfold u8. dlia.
  - rewrite hwaddr_byte, (iemi_beyond t (2 * i)), (iemi_beyond t (S (2 * i))) by lia.
    by decide_if (Z.of_nat (2 * i) =? 14) false.
  - rewrite hwaddr_byte, (iemi_beyond t (2 * 7)) by lia. done.
Qed.

(** C37. The hardware address.  When the modem answers the query for its number with OK and
    the word [t] on the second line, a word of up to 14 characters becomes the address:
    two decimal digits make a byte, a last digit alone is taken with a zero byte for the
    second, and so are the places after it; nothing else of the interface or the device
    changes.  Any longer word overflows the array [iemi], so the 15 digits every modem has
    fault. *)
Theorem hwaddr_of_modem nd resp (d : device W) n resp' w' first t rest more :
  netdev_list (net d) !! nd = Some n →
  at_obj_exec_cmd (Some resp) (bytes "AT+GSN") (client d) = Ret ((RT_EOK, Some resp'), w') →
  lines resp' = first :: (t ++ rest) :: more → word_text t → blank_after rest →
  ((length t < 15)%nat → ∃ h, digit_pairs t h ∧
     set_hwaddr nd resp d = Ret ((RT_EOK, resp'), d <| client := w' |> <| net := (net d) <| netdev_list :=
       <[nd := n <| hwaddr_len := 8 |> <| hwaddr := h |>]> (netdev_list (net d)) |> |>)) ∧
  ((15 <= length t)%nat → set_hwaddr nd resp d = Fault OutOfBounds).
Proof.
  intros Hn Hexec Hlines Ht Hrest.
  assert (at_resp_parse_line_args resp' 2 [GetStr] = Ret (1, [SText t])) as Hscan.
  { unfold at_resp_parse_line_args, at_resp_get_line. rewrite Hlines.
    assert ((Z.of_nat (length (first :: (t ++ rest) :: more)) <? 2) || (2 <=? 0) = false) as ->
      by (apply orb_false_iff; split; [apply Z.ltb_ge; cbn [length]; lia|done]).
    change ((first :: (t ++ rest) :: more) !! Z.to_nat (2 - 1)) with (Some (t ++ rest)).
    unfold sscanf. by rewrite scanf_word. }
  assert (set_hwaddr nd resp d = if Z.of_nat (length t) <? 15 then
      Ret ((RT_EOK, resp'), d <| client := w' |> <| net := (net d) <| netdev_list :=
        <[nd := n <| hwaddr_len := 8 |> <| hwaddr := hwaddr_of_iemi t |>]> (netdev_list (net d)) |> |>)
    else Fault OutOfBounds) as ->.
  { unfold set_hwaddr, mbind, io_bind, on_client, zoom. rewrite Hexec. cbn [fst snd default].
    change (RT_EOK <? 0) with false. cbv iota. unfold lift, id. rewrite Hscan. cbn [fst snd stored_text].
    change A9G_IEMI_LEN with 15. case_if; [|done].
    cbn. by rewrite (list_alter_insert _ _ _ n). }
  split; intros Hl.
  - exists (hwaddr_of_iemi t). split; [by apply digit_pairs_of|].
    by decide_if (Z.of_nat (length t) <? 15) true.
  - by decide_if (Z.of_nat (length t) <? 15) false.
Qed.

(** The name of the operator, read into ten bytes. *)
Definition cops_line (pre name rest : cstr) : cstr :=
  bytes "+COPS: " ++ pre ++ 34 :: name ++ 34 :: rest.

Lemma cops_scan pre name rest :
  pre ≠ [] → isspace (peek pre) = false → Forall (λ c, c ≠ 34) pre →
  name ≠ [] → Forall (λ c, c ≠ 34) name →
  sscanf (cops_line pre name rest)
    (lits (bytes "+COPS:") ++ [Blank; SkipSet 34; Lit 34; GetSet 34]) = Ret (1, [SText name]).
Proof.
  intros Hp Hpb Hp34 Hn Hn34. unfold sscanf, cops_line.
  change (bytes "+COPS: " ++ pre ++ 34 :: name ++ 34 :: rest) with
    (bytes "+COPS:" ++ 32 :: (pre ++ 34 :: name ++ 34 :: rest)).
  rewrite scanf_lits. cbn [scanf skip_while]. change (isspace 32) with true. cbv iota.
  assert (skip_while isspace (pre ++ 34 :: name ++ 34 :: rest) = pre ++ 34 :: name ++ 34 :: rest) as ->.
  { destruct pre as [|c pre]; [done|]. cbn in *. by rewrite Hpb. }
  destruct (scanf_until [Lit 34; GetSet 34] 34 pre (name ++ 34 :: rest) 0 false Hp Hp34) as [_ E].
  cbn [scanf] in E |- *. rewrite E. rewrite Z.eqb_refl.
  destruct (scanf_until [] 34 name rest 0 true Hn Hn34) as [E' _]. cbn [scanf] in E'. by rewrite E'.
Qed.

Lemma str_eq_length (a b : cstr) : length a ≠ length b → str_eq a b = false.
Proof. intros Hl. apply bool_decide_eq_false_2. by intros ->. Qed.

Lemma and_then_eq {A B} (m : io (init W) (option A)) (k : A → io (init W) (option B)) i a i1 :
  m i = Ret (Some a, i1) → and_then m k i = k a i1.
Proof. intros E. unfold and_then, mbind, io_bind. by rewrite E. Qed.

Lemma continue_eq {A} (m : io (init W) A) i a i1 :
  m i = Ret (a, i1) → continue m i = Ret (Some a, i1).
Proof. intros E. unfold continue, mbind, io_bind. by rewrite E. Qed.

Lemma send_eq n tmo cmd i i1 :
  exec n tmo cmd i = Ret (RT_EOK, i1) → AT_SEND_CMD n tmo cmd i = Ret (Some tt, i1).
Proof. intros E. unfold AT_SEND_CMD, mbind, io_bind. by rewrite E. Qed.

(** The operator.  Once the modem has answered the query with OK and a line that names
    the operator, a name of ten characters or more overflows [parsed_data]; a shorter one
    is stored, and only "CHN-CT" sets an access point.  "CHINA MOBILE" and "CHN-UNICOM",
    the other two names the code compares with, have twelve and ten characters: their
    access points are never set. *)
Theorem operator_name (i i1 : init W) pre name rest :
  exec 0 300 (bytes "AT+COPS?") i = Ret (RT_EOK, i1) →
  at_resp_get_line_by_kw (ini_resp i1) (bytes "+COPS:") = Some (cops_line pre name rest) →
  pre ≠ [] → isspace (peek pre) = false → Forall (λ c, c ≠ 34) pre →
  name ≠ [] → Forall (λ c, c ≠ 34) name →
  set_operator i =
    if 9 <? Z.of_nat (length name) then Fault OutOfBounds
    else if str_eq name (bytes "CHN-CT")
    then AT_SEND_CMD 0 300 CSTT_CHINA_TELECOM (i1 <| parsed_data := name |>)
    else Ret (Some tt, i1 <| parsed_data := name |>).
Proof.
  intros Hexec Hline Hp Hpb Hp34 Hn Hn34.
  unfold set_operator. rewrite (and_then_eq _ _ _ _ _ (send_eq _ _ _ _ _ Hexec)).
  assert (parse_text (bytes "+COPS:") (lits (bytes "+COPS:") ++ [Blank; SkipSet 34; Lit 34; GetSet 34]) i1 =
    if 9 <? Z.of_nat (length name) then Fault OutOfBounds
    else Ret (tt, i1 <| parsed_data := name |>)) as Hparse.
  { unfold parse_text, mbind, io_bind, gets, lift, modify, at_resp_parse_line_args_by_kw.
    rewrite Hline, cops_scan by done. cbn [snd stored_text].
    destruct (Z.ltb_spec 9 (Z.of_nat (length name))).
    - by decide_if (Z.of_nat (length name) <? 10) false.
    - by decide_if (Z.of_nat (length name) <? 10) true. }
  destruct (9 <? Z.of_nat (length name)) eqn:El.
  { unfold and_then at 1, mbind at 1, io_bind at 1.
    assert (∀ m : io (init W) unit, m i1 = Fault OutOfBounds → continue m i1 = Fault OutOfBounds) as Hf
      by (intros m E; unfold continue, mbind, io_bind; by rewrite E).
    by rewrite (Hf _ Hparse). }
  apply Z.ltb_ge in El. rewrite (and_then_eq _ _ _ _ _ (continue_eq _ _ _ _ Hparse)).
  set (i2 := i1 <| parsed_data := name |>).
  rewrite (and_then_eq _ _ i2 (str_eq name (bytes "CHINA MOBILE")) i2) by done.
  rewrite (and_then_eq _ _ i2 (str_eq name (bytes "CHN-UNICOM")) i2) by done.
  rewrite (and_then_eq _ _ i2 (str_eq name (bytes "CHN-CT")) i2) by done.
  rewrite (str_eq_length name (bytes "CHINA MOBILE")), (str_eq_length name (bytes "CHN-UNICOM"))
    by (cbn; lia).
  by destruct (str_eq name (bytes "CHN-CT")).
Qed.
End identity.

(** A modem asked for its number, and one asked for its operator. *)
Definition named (imei : cstr) : device station := fresh (MkStation (on_network (bytes "CHN-CT") imei) [] 0).
Definition numbered : device station := named (bytes "867959033005999").
Definition gsn_answer : at_response :=
  MkResp true 32 0 300 [[]; bytes "867959033005999"; bytes "OK"].
Definition after_gsn : world station :=
  Eval vm_compute in
  match at_obj_exec_cmd (Some (MkResp true 32 0 300 [])) (bytes "AT+GSN") (client numbered) with
  | Ret (_, w) => w
  | Fault _ => client numbered
  end.
Definition registering : init station :=
  MkInit (fresh (MkStation (on_network (bytes "CHINA MOBILE") []) [] 0)) (MkResp true 128 0 300 []) [] None 0.
Definition after_cops : init station :=
  Eval vm_compute in
  match exec 0 300 (bytes "AT+COPS?") registering with Ret (_, i) => i | Fault _ => registering end.

Lemma hwaddr_of_modem_witness :
  at_obj_exec_cmd (Some (MkResp true 32 0 300 [])) (bytes "AT+GSN") (client numbered) =
    Ret ((RT_EOK, Some gsn_answer), after_gsn) ∧
  set_hwaddr 0 (MkResp true 32 0 300 []) numbered = Fault OutOfBounds.
Proof.
  assert (word_text (bytes "867959033005999")) as Ht.
  { split; [discriminate|]. repeat (apply Forall_cons_2; [reflexivity|]). apply Forall_nil_2. }
  assert (at_obj_exec_cmd (Some (MkResp true 32 0 300 [])) (bytes "AT+GSN") (client numbered) =
    Ret ((RT_EOK, Some gsn_answer), after_gsn)) as Hexec by (vm_compute; reflexivity).
  split; [exact Hexec|].
  refine (proj2 (hwaddr_of_modem 0 _ numbered _ _ _ [] (bytes "867959033005999") [] [bytes "OK"]
    eq_refl Hexec eq_refl Ht (or_introl eq_refl)) _). cbn. lia.
Defined.

Lemma operator_name_witness :
  exec 0 300 (bytes "AT+COPS?") registering = Ret (RT_EOK, after_cops) ∧
  set_operator registering = Fault OutOfBounds.
Proof.
  assert (Forall (λ c, c ≠ 34) (bytes "0,2,")) as H1
    by (repeat (apply Forall_cons_2; [discriminate|]); apply Forall_nil_2).
  assert (Forall (λ c, c ≠ 34) (bytes "CHINA MOBILE")) as H2
    by (repeat (apply Forall_cons_2; [discriminate|]); apply Forall_nil_2).
  assert (exec 0 300 (bytes "AT+COPS?") registering = Ret (RT_EOK, after_cops)) as Hexec
    by (vm_compute; reflexivity).
  assert (bytes "0,2," ≠ []) as H3 by discriminate.
  assert (bytes "CHINA MOBILE" ≠ []) as H4 by discriminate.
  split; [exact Hexec|].
  exact (operator_name registering after_cops (bytes "0,2,") (bytes "CHINA MOBILE") []
    Hexec eq_refl H3 eq_refl H1 H4 H2).
Defined.

(** * The link thread *)

Section link.
Context {W : Type} `{Modem W, Board W}.

(** The answer to a poll of the link: registration mode and status. *)
Definition creg_line (mode status : Z) (rest : cstr) : cstr :=
  bytes "+CREG:" ++ 32 :: (print_d mode ++ 44 :: print_d status ++ rest).

Lemma creg_scan mode status rest :
  INT32_MIN <= mode <= INT32_MAX → INT32_MIN <= status <= INT32_MAX → stops isdigit rest = true →
  sscanf (creg_line mode status rest)
    (lits (bytes "+CREG:") ++ [Blank; IntD] ++ lits (bytes ",") ++ [IntD]) =
  Ret (2, [SInt mode; SInt status]).
Proof.
  intros Hm Hs Hr. unfold sscanf, creg_line. rewrite scanf_lits.
  change ([Blank; IntD] ++ lits (bytes ",") ++ [IntD]) with (Blank :: [IntD; Lit 44; IntD]).
  change (scanf (Blank :: ?fmt) (32 :: ?s) ?a ?b) with (scanf fmt (skip_while isspace s) a b).
  assert (skip_while isspace (print_d mode ++ 44 :: print_d status ++ rest) =
          print_d mode ++ 44 :: print_d status ++ rest) as ->.
  { destruct (print_d_spec mode Hm) as (ds & -> & Hne & Hds & _).
    destruct (mode <? 0); [done|]. destruct ds as [|c ds]; [done|].
    apply Forall_cons in Hds as [Hc _]. cbn. by rewrite digit_not_space. }
  rewrite scanf_int by done. rewrite scanf_lit, scanf_int by done. done.
Qed.

Lemma wp_on_net {A} (m : io netstate A) Q (d : device W) :
  wp m (λ a s', Q a (d <| net := s' |>)) (net d) → wp (on_net m) Q d.
Proof. unfold wp, on_net, zoom. by destruct (m (net d)) as [[a s']|]. Qed.

Lemma wp_on_client_known {A} (m : io (world W) A) a w' Q (d : device W) :
  m (client d) = Ret (a, w') → Q a (d <| client := w' |>) → wp (on_client m) Q d.
Proof. intros E HQ. unfold wp, on_client, zoom. by rewrite E. Qed.

Lemma wp_mdelay ms Q (d : device W) :
  (∀ w', Q tt (d <| client := w' |>)) → wp (mdelay ms) Q d.
Proof. intros HQ. eapply wp_on_client_known; [reflexivity|apply HQ]. Qed.

(** The poll with the values the conversion stored. *)
Lemma poll_answered nd resp (d : device W) n resp' w' r vs :
  netdev_list (net d) !! nd = Some n → is_Some (netdev_default (net d)) →
  at_obj_exec_cmd (Some resp) (bytes "AT+CREG?") (client d) = Ret ((RT_EOK, Some resp'), w') →
  at_resp_parse_line_args_by_kw resp' (bytes "+CREG:")
    (lits (bytes "+CREG:") ++ [Blank; IntD] ++ lits (bytes ",") ++ [IntD]) = Ret (r, vs) →
  ∃ d' n', check_link_status nd resp d = Ret (resp', d') ∧ becomes nd n' (net d) (net d') ∧
    netdev_is_link_up n' = (status_of vs =? 1) ∧ netdev_is_up n' = netdev_is_up n.
Proof.
  intros Hn Hdef Hexec Hparse.
  assert (wp (check_link_status nd resp) (λ a d', a = resp' ∧ ∃ n', becomes nd n' (net d) (net d') ∧
    netdev_is_link_up n' = (status_of vs =? 1) ∧ netdev_is_up n' = netdev_is_up n) d) as Hwp.
  2:{ apply wp_run in Hwp as (a & d' & E & -> & n' & ?). eauto. }
  unfold check_link_status. apply wp_bind. eapply wp_on_client_known; [exact Hexec|].
  cbn [fst snd default]. change (RT_EOK <? 0) with false. cbv iota.
  apply wp_bind. eapply wp_lift; [exact Hparse|]. cbn [snd].
  apply wp_bind, wp_gets. cbn [net client]. change (net (d <| client := w' |>)) with (net d).
  rewrite Hn. cbn [fmap option_fmap option_map]. change A9G_LINK_STATUS_OK with 1.
  rewrite (Z.eqb_sym 1). set (ok := status_of vs =? 1).
  destruct (view n) as [[[u l] i] h] eqn:Ev.
  assert (u = netdev_is_up n ∧ l = netdev_is_link_up n) as [Hu Hl] by (unfold view in Ev; by simplify_eq).
  apply wp_bind. destruct (Bool.eqb ok (netdev_is_link_up n)) eqn:E; cbn [negb].
  - apply Bool.eqb_prop in E. apply wp_ret, wp_bind, wp_mdelay. intros w2. split; [done|].
    exists n. split_and!; [|done|done]. split; [|done]. cbn. by rewrite list_insert_id.
  - apply wp_on_net. eapply wp_mono; [by apply wp_set_link_status|].
    rewrite Ev. intros ? s' (n' & Hb & _ & Hv). apply wp_bind, wp_mdelay. intros w2.
    split; [done|]. exists n'. split_and!; [done|unfold view in Hv; by simplify_eq..].
Qed.

(** The link thread.  After every poll the modem answers with OK, the link of the
    interface is up exactly when the status in the answer is 1 (registered, home network),
    and down when the answer does not name a status; a poll without answer leaves the
    interface alone.  So the link comes up one poll after the modem registers, and goes
    down while it is roaming: status 5, which the initialisation accepts, is not 1. *)
Theorem link_follows_registration nd resp (d : device W) n z resp' w' :
  netdev_list (net d) !! nd = Some n → is_Some (netdev_default (net d)) →
  at_obj_exec_cmd (Some resp) (bytes "AT+CREG?") (client d) = Ret ((z, Some resp'), w') →
  z = RT_EOK ∨ z < 0 →
  (∀ mode status rest, z = RT_EOK →
     at_resp_get_line_by_kw resp' (bytes "+CREG:") = Some (creg_line mode status rest) →
     INT32_MIN <= mode <= INT32_MAX → INT32_MIN <= status <= INT32_MAX → stops isdigit rest = true →
     ∃ d' n', check_link_status nd resp d = Ret (resp', d') ∧ becomes nd n' (net d) (net d') ∧
       netdev_is_link_up n' = (status =? 1) ∧ netdev_is_up n' = netdev_is_up n) ∧
  (z = RT_EOK → at_resp_get_line_by_kw resp' (bytes "+CREG:") = None →
     ∃ d' n', check_link_status nd resp d = Ret (resp', d') ∧ becomes nd n' (net d) (net d') ∧
       netdev_is_link_up n' = false ∧ netdev_is_up n' = netdev_is_up n) ∧
  (z < 0 → ∃ d', check_link_status nd resp d = Ret (resp', d') ∧ net d' = net d).
Proof.
  intros Hn Hdef Hexec Hz. split_and!.
  - intros mode status rest -> Hline Hm Hs Hr.
    eapply (poll_answered nd resp d n resp' w' 2 [SInt mode; SInt status]); [done..|].
    unfold at_resp_parse_line_args_by_kw. rewrite Hline. by apply creg_scan.
  - intros -> Hline. eapply (poll_answered nd resp d n resp' w' (-1) []); [done..|].
    unfold at_resp_parse_line_args_by_kw. by rewrite Hline.
  - intros Hneg. unfold check_link_status, mbind, io_bind, on_client, zoom. rewrite Hexec.
    cbn [fst snd default]. decide_if (z <? 0) true. eexists. split; [reflexivity|done].
Qed.
End link.

(** A modem that roams. *)
Definition roaming : device station := fresh (MkStation [(bytes "AT+CREG?", ok_with [bytes "+CREG: 0,5"])] [] 0).
Definition link_resp : at_response := MkResp true 128 0 3000 [].
Definition link_answer : at_response := MkResp true 128 0 3000 [bytes "+CREG: 0,5"; bytes "OK"].
Definition after_poll : world station :=
  Eval vm_compute in
  match at_obj_exec_cmd (Some link_resp) (bytes "AT+CREG?") (client roaming) with
  | Ret (_, w) => w
  | Fault _ => client roaming
  end.

Lemma link_follows_registration_witness :
  at_obj_exec_cmd (Some link_resp) (bytes "AT+CREG?") (client roaming) =
    Ret ((RT_EOK, Some link_answer), after_poll) ∧
  ∃ d' n', check_link_status 0 link_resp roaming = Ret (link_answer, d') ∧
    becomes 0 n' (net roaming) (net d') ∧ netdev_is_link_up n' = false.
Proof.
  assert (at_obj_exec_cmd (Some link_resp) (bytes "AT+CREG?") (client roaming) =
    Ret ((RT_EOK, Some link_answer), after_poll)) as Hexec by (vm_compute; reflexivity).
  assert (is_Some (netdev_default (net roaming))) as Hd by by eexists.
  assert (INT32_MIN <= 0 <= INT32_MAX) as H1 by by split.
  assert (INT32_MIN <= 5 <= INT32_MAX) as H2 by by split.
  split; [exact Hexec|].
  destruct (link_follows_registration 0 link_resp roaming _ RT_EOK _ _ eq_refl Hd Hexec
    (or_introl eq_refl)) as [Hpoll _].
  destruct (Hpoll 0 5 [] eq_refl eq_refl H1 H2 eq_refl) as (d' & n' & E1 & E2 & E3 & _).
  exact (ex_intro _ d' (ex_intro _ n' (conj E1 (conj E2 E3)))).
Defined.

(** * The life of the interface *)

Section life.
Context {W : Type} `{Clock W}.
Variables (patience nd : nat).

(** The modem is registered as interface [nd], which is up exactly when [is_init] says so. *)
Definition registered (d : device W) : Prop :=
  cli (client d) = false ∧ device_found (client d) = true ∧
  (power_pin d = -1 ∨ power_status_pin d = -1) ∧ is_Some (netdev_default (net d)) ∧
  ∃ n, netdev_list (net d) !! nd = Some n ∧ netdev_is_up n = is_init d.

(** What happens to a registered device: the kernel's calls, the end of a thread the
    device started, a poll of a link thread, and anything outside. *)
Inductive dev_step : device W → device W → Prop :=
  | step_up d r d' : netdev_set_up nd d = Ret (r, d') → dev_step d d'
  | step_down d r d' : netdev_set_down patience nd d = Ret (r, d') → dev_step d d'
  | step_dns d num addr r d' :
      a9g_netdev_set_dns_server nd num addr d = Ret (r, d') → dev_step d d'
  | step_init d ts1 ts2 d' :
      threads d = ts1 ++ InitThread :: ts2 →
      a9g_init_thread_entry patience nd (d <| threads := ts1 ++ ts2 |>) = Ret (tt, d') →
      dev_step d d'
  | step_link d resp r d' :
      LinkThread ∈ threads d → buf resp = true →
      check_link_status nd resp d = Ret (r, d') → dev_step d d'
  | step_env d m flags : dev_step d (d <| client := (client d) <| modem := m |>
                                                      <| socket_event := flags |> |>).

(** What a step does to the client: only [cli], lookup and such settings matter. *)
Lemma registered_becomes d d' n' :
  registered d → settings (client d') = settings (client d) → hardware d' = hardware d →
  becomes nd n' (net d) (net d') → netdev_is_up n' = is_init d' → registered d'.
Proof.
  intros (Hc & Hf & Hp & Hd & n & Hn & Hu) Hs Hh Hb Hup. unfold settings in Hs.
  assert (power_pin d' = power_pin d ∧ power_status_pin d' = power_status_pin d) as [Hp1 Hp2]
    by (unfold hardware in Hh; split; congruence).
  destruct (becomes_at _ _ _ _ _ Hn Hb) as [Hn' Hd'].
  split_and!; [congruence|congruence|by rewrite Hp1, Hp2|done|eauto].
Qed.

Lemma becomes_same (d : device W) n : netdev_list (net d) !! nd = Some n → is_Some (netdev_default (net d)) →
  becomes nd n (net d) (net d : netstate).
Proof. intros Hn Hd. split; [by rewrite list_insert_id|done]. Qed.

(** A call of the client leaves a registered device registered. *)
Lemma registered_client d w' ws dh :
  registered d → run ws dh (client d) w' → registered (d <| client := w' |>).
Proof.
  intros Hr (Hs & _). pose proof Hr as (_ & _ & _ & Hd & n & Hn & Hu).
  eapply (registered_becomes d _ n); [done|done|done|exact (becomes_same d n Hn Hd)|done].
Qed.

Lemma registered_up d up : registered d →
  wpf (λ _, True) (on_net (netdev_low_level_set_status nd up)) (λ _ d',
    registered d') (d <| is_init := up |>).
Proof.
  intros Hr. pose proof Hr as (_ & _ & _ & Hd & n & Hn & Hu).
  apply wpf_on_net. eapply wp_mono; [by apply wp_set_status|].
  destruct (view n) as [[[u l] i] h]. intros ? s' (n' & Hb & _ & Hv).
  eapply (registered_becomes d _ n'); [done|done|done|exact Hb|]. unfold view in Hv. by simplify_eq.
Qed.

Lemma registered_a9g_up d : registered d → wpf (λ _, True) (a9g_netdev_set_up nd) (λ _, registered) d.
Proof.
  intros Hr. pose proof Hr as (_ & Hf & _). unfold a9g_netdev_set_up.
  apply wpf_bind, wpf_gets. rewrite Hf. cbn [negb].
  apply wpf_bind, wpf_gets. destruct (is_init d); [by apply wpf_ret|].
  apply wpf_bind. unfold a9g_net_init, start_thread, on_board.
  do 2 apply wpf_bind. eapply wpf_on_client; [apply runs_on_modem|].
  intros tid ws dh w' Hrun [-> ->]. pose proof (registered_client d w' _ _ Hr Hrun) as Hr1.
  set (d1 := d <| client := w' |>) in *.
  assert (∀ d2, registered d2 → wpf (λ _, True)
    (modify (λ d, d <| is_init := true |>) ;;
     on_net (netdev_low_level_set_status nd true) ;; mret RT_EOK) (λ _, registered) d2) as Hend.
  { intros d2 Hr2. apply wpf_bind, wpf_modify, wpf_bind.
    eapply wpf_mono; [by apply registered_up|]. intros ? d3 Hd3. by apply wpf_ret. }
  destruct tid.
  - apply wpf_bind, wpf_modify. do 2 apply wpf_ret. by apply Hend.
  - do 2 apply wpf_ret. by apply Hend.
Qed.

Lemma registered_set_up d : registered d → wpf (λ _, True) (netdev_set_up nd) (λ _, registered) d.
Proof.
  intros Hr. pose proof Hr as (_ & _ & _ & _ & n & Hn & _). unfold netdev_set_up.
  apply wpf_bind, wpf_on_net. eapply wp_get_netdev; [done|].
  assert (d <| net := net d |> = d) as -> by (by destruct d).
  destruct (netdev_is_up n); [by apply wpf_ret|by apply registered_a9g_up].
Qed.

Lemma registered_set_down d :
  registered d → wpf (λ _, True) (netdev_set_down patience nd) (λ _, registered) d.
Proof.
  intros Hr. pose proof Hr as (_ & Hf & Hp & _ & n & Hn & Hu). unfold netdev_set_down.
  apply wpf_bind, wpf_on_net. eapply wp_get_netdev; [done|].
  assert (d <| net := net d |> = d) as -> by (by destruct d).
  destruct (netdev_is_up n); cbn [negb]; [|by apply wpf_ret].
  unfold a9g_netdev_set_down. apply wpf_bind, wpf_gets. rewrite Hf. cbn [negb].
  apply wpf_bind, wpf_gets. rewrite <- Hu. cbn [negb]. apply wpf_bind.
  unfold wpf at 1. rewrite power_off_idle by done. apply wpf_bind, wpf_modify, wpf_bind.
  eapply wpf_mono; [by apply registered_up|]. intros ? d3 Hd3. by apply wpf_ret.
Qed.

Lemma registered_dns d num addr :
  registered d → wpf (λ _, True) (a9g_netdev_set_dns_server nd num addr) (λ _, registered) d.
Proof.
  intros Hr. pose proof Hr as (Hc & Hf & Hp & Hd & n & Hn & Hu). unfold a9g_netdev_set_dns_server.
  apply wpf_bind, wpf_gets. rewrite Hf. cbn [negb]. apply wpf_bind.
  eapply wpf_on_client; [apply runs_create|]. intros [resp|] ws dh w1 Hrun1 (-> & Hresp);
    [|apply wpf_ret; by eapply registered_client].
  destruct Hresp as [-> _]. pose proof (registered_client d w1 _ _ Hr Hrun1) as Hr1.
  set (d1 := d <| client := w1 |>) in *. apply wpf_bind, wpf_lift. rewrite ntoa_text. cbn [may_fault].
  apply wpf_bind. eapply wpf_on_client; [apply runs_exec|].
  { pose proof (dotted_length addr). rewrite !length_app. cbn [length].
    change (length (bytes "AT+CDNSCFG=")) with 11%nat. lia. }
  intros [z o] ws2 dh2 w2 Hrun2 (-> & Hsame & _). pose proof (registered_client d1 w2 _ _ Hr1 Hrun2) as Hr2.
  destruct o as [resp'|]; [|done]. injection Hsame as Hb _. cbn in Hb. cbn [fst snd default id].
  assert (∀ result d3, registered d3 → wpf (λ _, True) (on_client (at_delete_resp resp') ;; mret result)
    (λ _ : Z, registered) d3) as Hend.
  { intros result d3 Hr3. apply wpf_bind. eapply wpf_on_client; [by apply runs_delete|].
    intros [] ws' dh' w3 Hrun3 _. apply wpf_ret. by eapply registered_client. }
  apply wpf_bind. case_if; [apply wpf_ret; by apply Hend|].
  apply wpf_bind, wpf_on_net. set (d2 := d1 <| client := w2 |>) in *.
  pose proof Hr2 as (_ & _ & _ & Hd2 & n2 & Hn2 & Hu2).
  eapply wp_mono; [by apply wp_set_dns|]. intros ? s' (n3 & Hb3 & Hv3). apply wpf_ret, Hend.
  eapply (registered_becomes d2 _ n3); [done|done|done|exact Hb3|].
  change (netdev_is_up n3 = is_init d2). rewrite <- Hu2. unfold view in Hv3. by simplify_eq.
Qed.

Lemma registered_poll d resp :
  registered d → buf resp = true → wpf (λ _, True) (check_link_status nd resp) (λ _, registered) d.
Proof.
  intros Hr Hbuf. unfold check_link_status. apply wpf_bind.
  eapply wpf_on_client; [apply runs_exec; cbn; lia|].
  intros [z o] ws dh w2 Hrun2 _. pose proof (registered_client d w2 _ _ Hr Hrun2) as Hr2.
  set (d2 := d <| client := w2 |>) in *. cbn [fst snd]. set (resp' := default resp o).
  assert (∀ d3, registered d3 → wpf (λ _, True) (mdelay A9G_LINK_DELAY_TIME ;; mret resp')
    (λ _, registered) d3) as Hend.
  { intros d3 Hr3. apply wpf_bind. unfold mdelay. eapply wpf_on_client; [apply runs_delay|].
    intros [] ws' dh' w3 Hrun3 _. apply wpf_ret. by eapply registered_client. }
  case_if; [by apply Hend|]. apply wpf_bind, wpf_lift.
  destruct (at_resp_parse_line_args_by_kw _ _ _) as [v|f]; [|done]. cbn [may_fault].
  pose proof Hr2 as (_ & _ & _ & Hd2 & n & Hn & Hu).
  apply wpf_bind, wpf_gets. rewrite Hn. cbn [fmap option_fmap option_map].
  apply wpf_bind. destruct (negb _); [|by apply wpf_ret, Hend].
  apply wpf_on_net. eapply wp_mono; [by apply wp_set_link_status|].
  destruct (view n) as [[[u l] i] h] eqn:Ev. intros ? s' (n' & Hb & _ & Hv). apply Hend.
  eapply (registered_becomes d2 _ n'); [done|done|done|exact Hb|].
  change (netdev_is_up n' = is_init d2). rewrite <- Hu. unfold view in Hv, Ev. by simplify_eq.
Qed.

Lemma registered_init d :
  registered d → wpf parse_fault (a9g_init_thread_entry patience nd) (λ _, registered) d.
Proof.
  intros Hr. pose proof Hr as (Hc & Hf & Hp & Hd & n & Hn & Hu).
  eapply wpf_mono; [apply (init_thread_does parse_fault patience nd d n); [by left|done..]|].
  intros [] d' (Hs & _ & Hh & [(_ & _ & Hi & Hnet & _)|(_ & ok & ws & asked & _ & _ & _ & _ & Hi & _ & n' & Hb & Hup)]).
  - eapply (registered_becomes d d' n); [done..|rewrite Hnet; exact (becomes_same d n Hn Hd)|by rewrite Hi].
  - eapply (registered_becomes d d' n'); [done..|by rewrite Hi].
Qed.

Lemma registered_step d d' : registered d → dev_step d d' → registered d'.
Proof.
  intros Hr Hs. inversion Hs as [? r ? E|? r ? E|? num addr r ? E|? ts1 ts2 ? Hth E|? resp r ? Hth Hb E|? m ev]; subst.
  - pose proof (registered_set_up d Hr) as Hw. unfold wpf in Hw. by rewrite E in Hw.
  - pose proof (registered_set_down d Hr) as Hw. unfold wpf in Hw. by rewrite E in Hw.
  - pose proof (registered_dns d num addr Hr) as Hw. unfold wpf in Hw. by rewrite E in Hw.
  - set (d1 := d <| threads := ts1 ++ ts2 |>) in *. assert (registered d1) as Hr1 by exact Hr.
    pose proof (registered_init d1 Hr1) as Hw. unfold wpf in Hw.
    by rewrite E in Hw.
  - pose proof (registered_poll d resp Hr Hb) as Hw. unfold wpf in Hw. by rewrite E in Hw.
  - exact Hr.
Qed.
End life.

(** ** Registration *)

Section registration.
Context {W : Type} `{Clock W}.

(** The device before [a9g_init]. *)
Definition unregistered (d : device W) : Prop :=
  cli (client d) = false ∧ device_found (client d) = true ∧
  (power_pin d = -1 ∨ power_status_pin d = -1) ∧ is_init d = false ∧ netdev_of d = None ∧
  (netdev_list (net d) = [] ∨ is_Some (netdev_default (net d))).

Definition anything (f : fault) : Prop := True.

Lemma unregistered_client d w' ws dh :
  unregistered d → run ws dh (client d) w' → unregistered (d <| client := w' |>).
Proof.
  intros (Hc & Hf & Hrest) (Hs & _). unfold settings in Hs.
  split_and!; [cbn; congruence|cbn; congruence|apply Hrest..].
Qed.

Lemma runs_set_urc_table tables table :
  runs (W := W) anything (at_obj_set_urc_table tables table) (λ _ _ _, True).
Proof.
  unfold at_obj_set_urc_table. destruct tables as [[|t tables]|].
  - eapply runs_bind; [apply runs_calloc|]. intros [] ? ? _; by apply runs_ret.
  - eapply runs_bind; [apply runs_calloc|]. intros [] ? ? _; [|by apply runs_ret].
    eapply runs_bind; [apply runs_on_modem|]. intros ok ? ? _.
    eapply runs_bind; [apply runs_free|]. intros _ ? ? _. destruct ok; by apply runs_ret.
  - by intros w.
Qed.

Lemma unregistered_table d table :
  unregistered d → wpf anything (set_urc_table table) (λ _, unregistered) d.
Proof.
  intros Hd. unfold set_urc_table. apply wpf_bind, wpf_gets, wpf_bind.
  eapply wpf_on_client; [apply runs_set_urc_table|]. intros r ws dh w' Hrun _.
  apply wpf_bind, wpf_modify, wpf_ret. exact (unregistered_client d w' ws dh Hd Hrun).
Qed.

Lemma register_fresh d nm : unregistered d →
  wpf anything (on_net (netdev_register (MkNetdev [] 0 0 0 [] 0 (replicate NETDEV_HWADDR_MAX_LEN 0) 0
      A9G_NETDEV_MTU false false false) nm)) (λ nd d', registered nd d') d.
Proof.
  intros (Hc & Hf & Hp & Hi & _ & Hl). unfold wpf, on_net, zoom, netdev_register.
  destruct (RT_NAME_MAX <? length nm)%nat; [done|]. cbn.
  split_and!; [done|done|done|destruct (netdev_list (net d)); [by eexists|]; by destruct Hl|].
  eexists. split; [by apply list_lookup_middle|]. transitivity false; [reflexivity|by symmetry].
Qed.

Lemma init_registers d name : unregistered d →
  wpf anything (a9g_init name) (λ r d', r = RT_EOK → ∃ nd, registered nd d') d.
Proof.
  intros Hd. unfold a9g_init, on_board. apply wpf_bind.
  eapply wpf_on_client; [apply runs_on_modem|]. intros found ws dh w1 Hrun _.
  pose proof (unregistered_client d w1 _ _ Hd Hrun) as Hd1. set (d1 := d <| client := w1 |>) in *.
  destruct found as [[]|f]; [|by apply wpf_bind, wpf_lift, wpf_ret|by apply wpf_bind, wpf_lift].
  apply wpf_bind, wpf_lift. cbn [may_fault negb].
  apply wpf_bind. eapply wpf_mono; [by apply unregistered_table|]. intros ? d2 Hd2.
  unfold a9g_socket_init. do 2 apply wpf_bind.
  eapply wpf_mono; [by apply unregistered_table|]. intros ? d3 Hd3. apply wpf_ret.
  unfold a9g_netdev_add. do 2 apply wpf_bind.
  eapply wpf_on_client; [apply runs_calloc|]. intros ok ws' dh' w4 Hrun4 _.
  pose proof (unregistered_client d3 w4 _ _ Hd3 Hrun4) as Hd4. set (d4 := d3 <| client := w4 |>) in *.
  destruct ok; [|by apply wpf_ret, wpf_bind, wpf_modify, wpf_ret].
  apply wpf_bind. eapply wpf_mono; [by apply register_fresh|]. intros nd d5 Hd5.
  apply wpf_ret, wpf_bind, wpf_modify. set (d6 := d5 <| netdev_of := Some nd |>).
  assert (registered nd d6) as Hd6 by exact Hd5.
  apply wpf_bind, wpf_gets, wpf_bind, wpf_gets.
  pose proof Hd6 as (_ & _ & Hp & _). apply wpf_bind.
  assert (negb (power_pin d6 =? -1) && negb (power_status_pin d6 =? -1) = false) as ->
    by (destruct Hp as [-> | ->]; [done|apply andb_false_r]).
  apply wpf_ret. eapply wpf_mono; [by apply registered_a9g_up|]. intros ? d7 Hd7 _. by exists nd.
Qed.

Lemma registered_steps patience nd (d d' : device W) :
  registered nd d → rtc (dev_step patience nd) d d' → registered nd d'.
Proof.
  intros Hr Hsteps. revert Hr. induction Hsteps as [|x y z Hxy _ IH]; [done|]. intros Hx.
  apply IH. by eapply registered_step.
Qed.

(** C20. The interface and its driver agree.  Once [a9g_init] has returned success, through
    every sequence of whole calls of the kernel ([netdev_set_up], [netdev_set_down], the
    DNS call), runs of an initialisation thread, rounds of a link thread and anything the
    modem or other threads do to the modem and its event flags, in every order and number,
    the interface stays registered and is up exactly when [is_init] is set, and the client
    stays free for the next command. *)
Theorem modem_lifecycle patience name (d0 d1 : device W) :
  unregistered d0 → a9g_init name d0 = Ret (RT_EOK, d1) →
  ∃ nd, ∀ d, rtc (dev_step patience nd) d1 d →
    cli (client d) = false ∧ device_found (client d) = true ∧
    ∃ n, netdev_list (net d) !! nd = Some n ∧ netdev_is_up n = is_init d.
Proof.
  intros Hd0 E. pose proof (init_registers d0 name Hd0) as Hw. unfold wpf in Hw. rewrite E in Hw.
  destruct (Hw eq_refl) as (nd & Hr). exists nd. intros d Hsteps.
  by destruct (registered_steps patience nd d1 d Hr Hsteps) as (? & ? & _ & _ & ?).
Qed.
End registration.

Definition switched_on : device station := board (on_network (bytes "CHN-CT") (bytes "86000000000001")).
Definition attached : device station :=
  match a9g_init (bytes "a9g0") switched_on with Ret (_, d) => d | Fault _ => switched_on end.

(** A result of a call, from its value alone (the URC tables hold functions). *)
Lemma returns_value {A S} (r : res (A * S)) a dflt :
  match r with Ret (x, _) => Some x | Fault _ => None end = Some a →
  r = Ret (a, match r with Ret (_, d) => d | Fault _ => dflt end).
Proof. destruct r as [[x s]|f]; [|done]. by intros [= ->]. Qed.

Lemma modem_lifecycle_witness :
  unregistered switched_on ∧ a9g_init (bytes "a9g0") switched_on = Ret (RT_EOK, attached) ∧
  ∃ nd n, netdev_list (net attached) !! nd = Some n ∧ netdev_is_up n = true.
Proof.
  assert (unregistered switched_on) as H0
    by exact (conj eq_refl (conj eq_refl (conj (or_introl eq_refl)
      (conj eq_refl (conj eq_refl (or_introl eq_refl)))))).
  assert (a9g_init (bytes "a9g0") switched_on = Ret (RT_EOK, attached)) as H1.
  { apply returns_value. reflexivity. }
  split; [exact H0|]. split; [exact H1|].
  destruct (modem_lifecycle 0 (bytes "a9g0") switched_on attached H0 H1) as (nd & Hnd).
  destruct (Hnd attached (rtc_refl _ _)) as (_ & _ & n & Hn & Hu).
  exists nd, n. split; [exact Hn|]. rewrite Hu. reflexivity.
Defined.

(** Evaluated: the interface is up before the modem was asked anything, and an interface
    taken down while the initialisation is pending is up again when that ends. *)
Example up_before_the_modem :
  written (client attached) = [] ∧ threads attached = [InitThread] ∧
  netdev_is_up <$> netdev_list (net attached) !! 0%nat = Some true.
Proof. vm_compute. done. Qed.

Example down_is_undone :
  match netdev_set_down 0 0 attached with
  | Ret (r, d) => r = RT_EOK ∧ is_init d = false ∧
      match a9g_init_thread_entry 0 0 (d <| threads := [] |>) with
      | Ret (_, d') => is_init d' = true ∧ threads d' = [LinkThread]
      | Fault _ => False
      end
  | Fault _ => False
  end.
Proof. vm_compute. done. Qed.
