(* ===== verification/AtLayer.v ===== *)
(** The socket layer of the AT component, which the application calls:
    rt-thread/components/net/at/at_socket/at_socket.c.

    The sockets are the array of the device; those in use hang on [_socket_list] by their
    [next] links, and the number of a socket is its position on that list.  The driver
    behind the layer is the interface [SocketOps]: the operations of [sock->ops], the
    device lookup, the kernel's allocator and what arrives while a caller waits.

    [rt_slist_next(node)] is read after [node] was freed when a receive goes on to the
    next packet and when a socket is freed with packets.  [rt_free] leaves the contents of
    a block in place, and the model takes the link as it was; [stale_reads] counts these
    reads. *)

From S2P Require Import Prelude CLib Event AtClient AtSocket AtParser Netdev AtDevice.

Definition AT_SOCKET_MAGIC := 41216.
Definition AF_INET := 2.
Definition AF_AT := 45.
Definition SOCK_STREAM := 1.
Definition SOCK_DGRAM := 2.
Definition MSG_DONTWAIT := 8.

Inductive at_socket_state : Type :=
  | AT_SOCKET_NONE
  | AT_SOCKET_OPEN
  | AT_SOCKET_LISTEN
  | AT_SOCKET_CONNECT
  | AT_SOCKET_CLOSED.
#[global] Instance at_socket_state_eq_dec : EqDecision at_socket_state.
Proof. solve_decision. Defined.

Inductive at_event_t : Type := AT_EVENT_SEND | AT_EVENT_RECV | AT_EVENT_ERROR.

Record at_recv_pkt : Type := MkPkt {
  bfsz_totle : nat;
  bfsz_index : nat;
  pkt_buff : list Z }.
#[global] Instance at_recv_pkt_eta : Eta at_recv_pkt :=
  λ p, MkPkt (bfsz_totle p) (bfsz_index p) (pkt_buff p).

(** [recv_notice]: the count of the semaphore, [None] is the null pointer. *)
Record at_socket_t : Type := MkSock {
  magic : Z;
  descriptor : Z;
  sock_type : Z;
  sock_state : at_socket_state;
  recv_notice : option Z;
  recv_lock : bool;
  recvpkt_list : list at_recv_pkt;
  recv_timeout : Z;
  send_timeout : Z;
  rcvevent : Z;
  sendevent : Z;
  errevent : Z;
  next : option nat;
  user_data : Z }.
#[global] Instance at_socket_eta : Eta at_socket_t :=
  λ s, MkSock (magic s) (descriptor s) (sock_type s) (sock_state s) (recv_notice s) (recv_lock s)
    (recvpkt_list s) (recv_timeout s) (send_timeout s) (rcvevent s) (sendevent s) (errevent s)
    (next s) (user_data s).

(** Memory that [rt_memset] cleared. *)
Definition cleared_socket : at_socket_t :=
  MkSock 0 0 0 AT_SOCKET_NONE None false [] 0 0 0 0 0 None 0.

(** What happens to a socket while another thread waits: a callback of the driver. *)
Inductive arrival : Type :=
  | Received (idx : nat) (data : list Z)
  | ClosedByRemote (idx : nat).

Class SocketOps (D : Type) := {
  ops_connect : Z → cstr → Z → Z → io D Z;
  ops_closesocket : Z → io D Z;
  ops_send : Z → list Z → Z → io D Z;
  ops_set_event_cb : Z → option Z → io D unit;
  ops_device : D → bool;
  sys_calloc : io D bool;
  sys_free : io D unit;
  sys_delay : Z → io D unit;
  sem_wait : Z → D → option arrival * D }.

Record layer (D : Type) : Type := MkLayer {
  socks : list at_socket_t;
  socket_list : option nat;
  at_slock : bool;
  stale_reads : Z;
  drv : D }.
Arguments MkLayer {D}.
Arguments socks {D}. Arguments socket_list {D}. Arguments at_slock {D}.
Arguments stale_reads {D}. Arguments drv {D}.
#[global] Instance layer_eta {D} : Eta (layer D) :=
  λ l, MkLayer (socks l) (socket_list l) (at_slock l) (stale_reads l) (drv l).

Section layer.
Context {D : Type} `{SocketOps D}.
Variable patience : nat.

Definition on_drv {A} (m : io D A) : io (layer D) A := λ l,
  match m (drv l) with Ret (a, d) => Ret (a, l <| drv := d |>) | Fault f => Fault f end.

(** The members of [device->sockets[i]]. *)
Definition get_sock (i : nat) : io (layer D) at_socket_t := λ l,
  match socks l !! i with Some s => Ret (s, l) | None => Fault OutOfBounds end.
Definition upd_sock (i : nat) (f : at_socket_t → at_socket_t) : io (layer D) unit :=
  modify (λ l, l <| socks := alter f i (socks l) |>).

(** * The list of sockets *)

(** The nodes from [p] on; [None] when the links do not end within [fuel] nodes. *)
Fixpoint nodes (fuel : nat) (ss : list at_socket_t) (p : option nat) : option (list nat) :=
  match p with
  | None => Some []
  | Some i =>
      match fuel with
      | O => None
      | S fuel =>
          s ← ss !! i;
          l ← nodes fuel ss (next s);
          Some (i :: l)
      end
  end.

(** A list of different sockets is no longer than the array. *)
Definition linked : io (layer D) (list nat) := λ l,
  match nodes (length (socks l)) (socks l) (socket_list l) with
  | Some ids => Ret (ids, l)
  | None => Fault Blocked
  end.

(** [next] of the socket [p], or the head of the list. *)
Definition set_link (p : option nat) (n : option nat) : io (layer D) unit :=
  match p with
  | None => modify (λ l, l <| socket_list := n |>)
  | Some i => upd_sock i (λ s, s <| next := n |>)
  end.

Definition rt_slist_init (i : nat) : io (layer D) unit := set_link (Some i) None.
Definition rt_slist_append (i : nat) : io (layer D) unit :=
  ids ← linked;
  set_link (last ids) (Some i) ;;
  set_link (Some i) None.

Definition rt_slist_len : io (layer D) Z := ids ← linked; mret (Z.of_nat (length ids)).

(** The node before [i]: [None] when [i] is not on the list. *)
Fixpoint node_before (prev : option nat) (ids : list nat) (i : nat) : option (option nat) :=
  match ids with
  | [] => None
  | j :: ids => if (j =? i)%nat then Some prev else node_before (Some j) ids i
  end.
Definition rt_slist_remove (i : nat) : io (layer D) unit :=
  ids ← linked;
  match node_before None ids i with
  | None => mret tt
  | Some prev => s ← get_sock i; set_link prev (next s)
  end.

(** The loop of [at_get_socket]: an [int] is compared with a counter of type [size_t]. *)
Fixpoint find_socket (socket list_num : Z) (ids : list nat) : io (layer D) (option nat) :=
  match ids with
  | [] => mret None
  | i :: ids =>
      if u32 socket =? list_num then
        s ← get_sock i;
        if magic s =? AT_SOCKET_MAGIC then mret (Some i) else find_socket socket (list_num + 1) ids
      else find_socket socket (list_num + 1) ids
  end.
Definition at_get_socket (socket : Z) : io (layer D) (option nat) :=
  ids ← linked; find_socket socket 0 ids.

(** * Packets *)

Definition stale_read : io (layer D) unit :=
  modify (λ l, l <| stale_reads := stale_reads l + 1 |>).

Definition set_pkts (i : nat) (ps : list at_recv_pkt) : io (layer D) unit :=
  upd_sock i (λ s, s <| recvpkt_list := ps |>).

(** [ptr] stays with the packet, or is lost without memory for the packet. *)
Definition at_recvpkt_put (i : nat) (ptr : list Z) (len : nat) : io (layer D) nat :=
  ok ← on_drv sys_calloc;
  if ok : bool then
    upd_sock i (λ s, s <| recvpkt_list := recvpkt_list s ++ [MkPkt len 0 ptr] |>) ;;
    mret len
  else mret 0%nat.

Definition free_pkt : io (layer D) unit := on_drv sys_free ;; on_drv sys_free.

Fixpoint delete_pkts (ps : list at_recv_pkt) : io (layer D) unit :=
  match ps with
  | [] => mret tt
  | _ :: ps => free_pkt ;; stale_read ;; delete_pkts ps
  end.
Definition at_recvpkt_all_delete (i : nat) : io (layer D) unit :=
  s ← get_sock i; delete_pkts (recvpkt_list s).

(** The first packet, which is the one the callers delete. *)
Definition at_recvpkt_node_delete (i : nat) : io (layer D) unit :=
  upd_sock i (λ s, s <| recvpkt_list := tail (recvpkt_list s) |>) ;; free_pkt.

Definition rt_memcpy (src : list Z) (from n : nat) : res (list Z) :=
  if (from + n <=? length src)%nat then Ret (take n (drop from src)) else Fault OutOfBounds.

(** The loop from the packet [ps] starts with; [mem] is what was copied so far. *)
Fixpoint recvpkt_loop (i : nat) (ps : list at_recv_pkt) (len : nat) (mem : list Z)
    : io (layer D) (list Z) :=
  match ps with
  | [] => mret mem
  | pkt :: ps =>
      let page_pos := (bfsz_totle pkt - bfsz_index pkt)%nat in
      let want := (len - length mem)%nat in
      if (want <=? page_pos)%nat then
        data ← lift (rt_memcpy (pkt_buff pkt) (bfsz_index pkt) want);
        let pkt := pkt <| bfsz_index := (bfsz_index pkt + want)%nat |> in
        set_pkts i (pkt :: ps) ;;
        (if (bfsz_index pkt =? bfsz_totle pkt)%nat then at_recvpkt_node_delete i else mret tt) ;;
        mret (mem ++ data)
      else
        data ← lift (rt_memcpy (pkt_buff pkt) (bfsz_index pkt) page_pos);
        at_recvpkt_node_delete i ;;
        stale_read ;;
        recvpkt_loop i ps len (mem ++ data)
  end.
Definition at_recvpkt_get (i : nat) (len : nat) : io (layer D) (list Z) :=
  s ← get_sock i; recvpkt_loop i (recvpkt_list s) len [].

(** * Events *)

Definition at_do_event_changes (i : nat) (event : at_event_t) (is_plus : bool) : io (layer D) unit :=
  let down e := if e =? 0 then e else u16 (e - 1) in
  upd_sock i (λ s,
    match event with
    | AT_EVENT_SEND => s <| sendevent := if is_plus then 1 else 0 |>
    | AT_EVENT_RECV => s <| rcvevent := if is_plus then u16 (rcvevent s + 1) else down (rcvevent s) |>
    | AT_EVENT_ERROR => s <| errevent := if is_plus then u16 (errevent s + 1) else down (errevent s) |>
    end).
Definition at_do_event_clean (i : nat) (event : at_event_t) : io (layer D) unit :=
  upd_sock i (λ s,
    match event with
    | AT_EVENT_SEND => s <| sendevent := 0 |>
    | AT_EVENT_RECV => s <| rcvevent := 0 |>
    | AT_EVENT_ERROR => s <| errevent := 0 |>
    end).

(** * Opening *)

Fixpoint free_index (ss : list at_socket_t) : nat :=
  match ss with
  | [] => 0
  | s :: ss => if magic s =? 0 then 0 else S (free_index ss)
  end.

Definition make_lock : io (layer D) bool :=
  made ← gets at_slock;
  if made : bool then mret true
  else
    ok ← on_drv sys_calloc;
    if ok : bool then modify (λ l, l <| at_slock := true |>) ;; mret true else mret false.

Definition alloc_socket_by_device : io (layer D) (option nat) :=
  ok ← make_lock;
  if negb ok then mret None
  else
    idx ← gets (λ l, free_index (socks l));
    n ← gets (λ l, length (socks l));
    if (idx =? n)%nat then mret None
    else
      rt_slist_init idx ;;
      rt_slist_append idx ;;
      len ← rt_slist_len;
      upd_sock idx (λ s, s <| descriptor := len - 1 |> <| user_data := Z.of_nat idx |>
        <| magic := AT_SOCKET_MAGIC |> <| sock_state := AT_SOCKET_NONE |> <| rcvevent := 0 |>
        <| sendevent := 0 |> <| errevent := 0 |> <| recvpkt_list := [] |>) ;;
      ok ← on_drv sys_calloc;
      upd_sock idx (λ s, s <| recv_notice := if ok : bool then Some 0 else None |>) ;;
      if negb ok then mret None
      else
        ok ← on_drv sys_calloc;
        upd_sock idx (λ s, s <| recv_lock := ok |>) ;;
        if negb ok then on_drv sys_free ;; mret None else mret (Some idx).

Definition alloc_socket : io (layer D) (option nat) :=
  found ← gets (λ l, ops_device (drv l));
  if found : bool then alloc_socket_by_device else mret None.

Definition at_socket (domain type protocol : Z) : io (layer D) Z :=
  rt_assert ((domain =? AF_AT) || (domain =? AF_INET)) ;;
  let open socket_type :=
    sock ← alloc_socket;
    match sock with
    | None => mret (-1)
    | Some i =>
        upd_sock i (λ s, s <| sock_type := socket_type |> <| sock_state := AT_SOCKET_OPEN |>) ;;
        s ← get_sock i;
        mret (descriptor s)
    end in
  if type =? SOCK_STREAM then open AT_SOCKET_TCP
  else if type =? SOCK_DGRAM then open AT_SOCKET_UDP
  else mret (-1).

(** * Closing *)

(** The socket at the position [descriptor] leaves the list, whichever it is. *)
Definition unlink (i : nat) : io (layer D) unit :=
  s ← get_sock i;
  ids ← linked;
  match (if descriptor s <? 0 then None else ids !! Z.to_nat (descriptor s)) with
  | Some j => rt_slist_remove j
  | None => mret tt
  end.

Definition free_socket (i : nat) : io (layer D) unit :=
  s ← get_sock i;
  (if bool_decide (is_Some (recv_notice s)) then on_drv sys_free else mret tt) ;;
  (if recv_lock s then on_drv sys_free else mret tt) ;;
  (match recvpkt_list s with [] => mret tt | _ => at_recvpkt_all_delete i end) ;;
  unlink i ;;
  upd_sock i (λ _, cleared_socket).

Definition at_shutdown (socket : Z) : io (layer D) Z :=
  sock ← at_get_socket socket;
  match sock with
  | None => mret (-1)
  | Some i =>
      s ← get_sock i;
      upd_sock i (λ s, s <| sock_state := AT_SOCKET_CLOSED |>) ;;
      result ← (if bool_decide (sock_state s = AT_SOCKET_CLOSED) then mret 0
                else on_drv (ops_closesocket (user_data s)));
      free_socket i ;;
      mret (if result =? 0 then 0 else -1)
  end.
Definition at_closesocket (socket : Z) : io (layer D) Z :=
  on_drv (sys_delay 100) ;;
  at_shutdown socket.

(** * The callbacks of the driver *)

Definition at_recv_notice_cb : Z := 1.
Definition at_closed_notice_cb : Z := 2.

(** [rt_sem_release] on the semaphore of the socket. *)
Definition release_notice (i : nat) : io (layer D) unit :=
  s ← get_sock i;
  match recv_notice s with
  | None => io_fault NullDeref
  | Some n => upd_sock i (λ s, s <| recv_notice := Some (n + 1) |>)
  end.

Definition recv_notice_cb (i : nat) (buff : list Z) (bfsz : nat) : io (layer D) unit :=
  s ← get_sock i;
  if negb (magic s =? AT_SOCKET_MAGIC) then mret tt
  else
    at_recvpkt_put i buff bfsz ;;
    release_notice i ;;
    at_do_event_changes i AT_EVENT_RECV true.

Definition closed_notice_cb (i : nat) : io (layer D) unit :=
  s ← get_sock i;
  if negb (magic s =? AT_SOCKET_MAGIC) then mret tt
  else
    at_do_event_changes i AT_EVENT_RECV true ;;
    at_do_event_changes i AT_EVENT_ERROR true ;;
    upd_sock i (λ s, s <| sock_state := AT_SOCKET_CLOSED |>) ;;
    release_notice i.

Definition arrive (a : arrival) : io (layer D) unit :=
  match a with
  | Received i data => recv_notice_cb i data (length data)
  | ClosedByRemote i => closed_notice_cb i
  end.

(** * Connecting *)

Definition HTONS_PORT (x : Z) : Z :=
  u16 (Z.lor (Z.shiftl (Z.land x 255) 8) (Z.shiftr (Z.land x 65280) 8)).

(** A [sockaddr_in]: port and address in network order. *)
Record sockaddr : Type := MkAddr { sin_port : Z; sin_addr : Z }.

Definition ipaddr_to_ipstr (name : sockaddr) : cstr :=
  let a := sin_addr name in
  print_d (u8 a) ++ [46] ++ print_d (u8 (Z.shiftr a 8)) ++ [46] ++
  print_d (u8 (Z.shiftr a 16)) ++ [46] ++ print_d (u8 (Z.shiftr a 24)).

(** The driver connects the socket [i]; its callbacks are set afterwards. *)
Definition connect_socket (i : nat) (name : sockaddr) : io (layer D) bool :=
  s ← get_sock i;
  r ← on_drv (ops_connect (user_data s) (ipaddr_to_ipstr name) (HTONS_PORT (sin_port name)) (sock_type s));
  if r <? 0 then mret false
  else
    upd_sock i (λ s, s <| sock_state := AT_SOCKET_CONNECT |>) ;;
    on_drv (ops_set_event_cb AT_SOCKET_EVT_RECV (Some at_recv_notice_cb)) ;;
    on_drv (ops_set_event_cb AT_SOCKET_EVT_CLOSED (Some at_closed_notice_cb)) ;;
    mret true.

Definition at_connect (socket : Z) (name : sockaddr) : io (layer D) Z :=
  sock ← at_get_socket socket;
  match sock with
  | None => mret (-1)
  | Some i =>
      s ← get_sock i;
      ok ← (if bool_decide (sock_state s = AT_SOCKET_OPEN) then connect_socket i name else mret false);
      (if negb (ok : bool) then at_do_event_changes i AT_EVENT_ERROR true else mret tt) ;;
      at_do_event_changes i AT_EVENT_SEND true ;;
      mret (if (ok : bool) then 0 else -1)
  end.

(** * Receiving *)

(** [rt_sem_take] and what arrives while it waits: whether it took the semaphore. *)
Fixpoint sem_take (fuel : nat) (i : nat) (tmo : Z) : io (layer D) bool :=
  s ← get_sock i;
  match recv_notice s with
  | None => io_fault NullDeref
  | Some n =>
      if 0 <? n then upd_sock i (λ s, s <| recv_notice := Some (n - 1) |>) ;; mret true
      else
        match fuel with
        | O => io_fault Blocked
        | S fuel =>
            a ← on_drv (λ d, Ret (sem_wait tmo d));
            match a with
            | None => mret false
            | Some a => arrive a ;; sem_take fuel i tmo
            end
        end
  end.

(** The blocking loop: the result and the data. *)
Fixpoint recv_wait (fuel : nat) (i : nat) (len : nat) (tmo : Z) : io (layer D) (Z * list Z) :=
  match fuel with
  | O => io_fault Blocked
  | S fuel =>
      taken ← sem_take patience i tmo;
      if negb taken then mret (-1, [])
      else
        s ← get_sock i;
        if bool_decide (sock_state s = AT_SOCKET_CONNECT) then
          data ← at_recvpkt_get i len;
          match data with [] => recv_wait fuel i len tmo | _ => mret (0, data) end
        else mret (0, [])
  end.

(** The code after [__exit]. *)
Definition recv_exit (i : nat) (result : Z) (data : list Z) : io (layer D) (Z * list Z) :=
  match data with
  | [] => at_do_event_changes i AT_EVENT_ERROR true ;; mret (result, [])
  | _ =>
      at_do_event_changes i AT_EVENT_RECV false ;;
      s ← get_sock i;
      (match recvpkt_list s with
       | [] => at_do_event_clean i AT_EVENT_RECV
       | _ => at_do_event_changes i AT_EVENT_RECV true
       end) ;;
      mret (Z.of_nat (length data), data)
  end.

(** The result and the bytes written to [mem]. *)
Definition at_recvfrom (socket : Z) (len : nat) (flags : Z) (from : option sockaddr)
    : io (layer D) (Z * list Z) :=
  if (len =? 0)%nat then mret (-1, [])
  else
    sock ← at_get_socket socket;
    match sock with
    | None => mret (-1, [])
    | Some i =>
        s ← get_sock i;
        ok ← (match from with
              | Some name =>
                  if (sock_type s =? AT_SOCKET_UDP) && bool_decide (sock_state s = AT_SOCKET_OPEN)
                  then connect_socket i name else mret true
              | None => mret true
              end);
        if negb ok then recv_exit i (-1) []
        else
          data ← at_recvpkt_get i len;
          match data with
          | _ :: _ => recv_exit i 0 data
          | [] =>
              s ← get_sock i;
              match sock_state s with
              | AT_SOCKET_CLOSED => recv_exit i 0 []
              | AT_SOCKET_NONE | AT_SOCKET_LISTEN => recv_exit i (-1) []
              | AT_SOCKET_OPEN | AT_SOCKET_CONNECT =>
                  if negb (Z.land flags MSG_DONTWAIT =? 0) then recv_exit i 0 []
                  else
                    let tmo := if recv_timeout s =? 0 then RT_WAITING_FOREVER
                               else rt_tick_from_millisecond (recv_timeout s) in
                    r ← recv_wait patience i len tmo;
                    recv_exit i r.1 r.2
              end
          end
    end.
Definition at_recv (s : Z) (len : nat) (flags : Z) : io (layer D) (Z * list Z) :=
  at_recvfrom s len flags None.

(** * Sending *)

Definition at_sendto (socket : Z) (data : list Z) (flags : Z) (to : option sockaddr)
    : io (layer D) Z :=
  match data with
  | [] => mret (-1)
  | _ =>
      sock ← at_get_socket socket;
      match sock with
      | None => mret (-1)
      | Some i =>
          let fail := at_do_event_changes i AT_EVENT_ERROR true ;; mret (-1) in
          let send :=
            s ← get_sock i;
            n ← on_drv (ops_send (user_data s) data (sock_type s));
            if n <? 0 then fail else mret n in
          s ← get_sock i;
          if sock_type s =? AT_SOCKET_TCP then
            match sock_state s with
            | AT_SOCKET_CLOSED => mret 0
            | AT_SOCKET_CONNECT | AT_SOCKET_OPEN => send
            | AT_SOCKET_NONE | AT_SOCKET_LISTEN => fail
            end
          else if sock_type s =? AT_SOCKET_UDP then
            match to with
            | Some name =>
                if bool_decide (sock_state s = AT_SOCKET_OPEN) then
                  ok ← connect_socket i name;
                  if ok : bool then send else fail
                else send
            | None => send
            end
          else fail
      end
  end.
Definition at_send (socket : Z) (data : list Z) (flags : Z) : io (layer D) Z :=
  at_sendto socket data flags None.
End layer.

(** * The modem behind the layer *)

(** What arrives for the sockets while a thread waits for a semaphore. *)
Class Arrivals (W : Type) := { sem_arrival : Z → W → option arrival * W }.

Section driver.
Context {W : Type} `{Modem W, Board W, Arrivals W}.

(** [a9g_socket_ops]; the interface of the modem is the only one of its family. *)
#[global] Instance a9g_socket_ops : SocketOps (device W) := {
  ops_connect socket ip port type := on_client (a9g_socket_connect socket (Some ip) port type true);
  ops_closesocket socket := on_client (a9g_socket_close socket);
  ops_send socket buff type := on_client (a9g_socket_send socket buff type);
  ops_set_event_cb event cb := on_client (a9g_socket_set_event_cb event cb);
  ops_device d := device_found (client d) && existsb netdev_is_up (netdev_list (net d));
  sys_calloc := on_client (rt_calloc 32);
  sys_free := on_client rt_free;
  sys_delay ms := mdelay ms;
  sem_wait tmo d :=
    let '(a, m) := sem_arrival tmo (modem (client d)) in
    (a, d <| client := (client d) <| modem := m |> |>) }.

(** The call of a callback the driver recorded. *)
Definition dispatch (n : notified) : io (layer (device W)) unit :=
  let i := Z.to_nat (cb_socket n) in
  if cb n =? at_recv_notice_cb then
    match cb_buff n with
    | None => io_fault AssertFailed
    | Some buff =>
        rt_assert (cb_event n =? AT_SOCKET_EVT_RECV) ;;
        recv_notice_cb i buff (Z.to_nat (cb_bfsz n))
    end
  else if cb n =? at_closed_notice_cb then
    rt_assert (cb_event n =? AT_SOCKET_EVT_CLOSED) ;;
    closed_notice_cb i
  else mret tt.
End driver.
