(* ===== verification/AtLayerSpec.v ===== *)
(** What the socket layer (AtLayer.v) promises: the list of sockets and their numbers, and
    a socket as a byte stream.

    [seg ss p l q] is the list segment of the links from [p] to [q] through the sockets
    [l]; [DriverLaws] is what the layer relies on in its driver, which the modem of
    AtSocket.v meets. *)

From S2P Require Import Prelude CLib Event AtClient AtSocket AtSocketSpec.
From S2P Require Import AtParser Netdev AtDevice AtLayer.

(** * Links *)

Fixpoint seg (ss : list at_socket_t) (p : option nat) (l : list nat) (q : option nat) : Prop :=
  match l with
  | [] => p = q
  | i :: l => p = Some i ∧ ∃ s, ss !! i = Some s ∧ seg ss (next s) l q
  end.

Lemma seg_app ss p l1 l2 q :
  seg ss p (l1 ++ l2) q ↔ ∃ r, seg ss p l1 r ∧ seg ss r l2 q.
Proof.
  revert p. induction l1 as [|i l1 IH]; intros p; cbn [seg app].
  - split; [by eauto|]. by intros (r & -> & ?).
  - split.
    + intros (-> & s & Hs & (r & H1 & H2)%IH). eauto 7.
    + intros (r & (-> & s & Hs & H1) & H2). split; [done|]. exists s. split; [done|].
      apply IH. eauto.
Qed.

(** A change of a socket that is not on the segment, or keeps its link. *)
Lemma seg_alter ss p l q f i :
  i ∉ l ∨ (∀ s, next (f s) = next s) → seg ss p l q → seg (alter f i ss) p l q.
Proof.
  intros Hi. revert p. induction l as [|j l IH]; intros p; cbn [seg]; [done|].
  intros (-> & s & Hs & Hl). split; [done|].
  assert (i ∉ l ∨ (∀ s, next (f s) = next s)) as Hi'.
  { destruct Hi as [Hi|Hi]; [left|by right]. by apply not_elem_of_cons in Hi as []. }
  destruct (decide (i = j)) as [->|Hne].
  - destruct Hi as [Hi|Hi]; [by apply not_elem_of_cons in Hi as []|].
    exists (f s). rewrite list_lookup_alter_eq, Hs. split; [done|]. rewrite Hi. by apply IH.
  - exists s. rewrite list_lookup_alter_ne by done. split; [done|]. by apply IH.
Qed.

Definition relink (ss : list at_socket_t) (p q : option nat) : list at_socket_t :=
  match p with None => ss | Some t => alter (λ s, s <| next := q |>) t ss end.

(** The end of a segment moved from [q] to [q']. *)
Lemma seg_relink ss hd l q q' :
  NoDup l → seg ss hd l q →
  seg (relink ss (last l) q') (match l with [] => q' | _ => hd end) l q'.
Proof.
  intros Hl. destruct l as [|i l] using rev_ind; [done|]. rewrite last_snoc. cbn [relink].
  apply NoDup_app in Hl as (_ & Hi & _). intros (r & H1 & H2)%seg_app.
  assert (i ∉ l) as Hn by (intros ?; by eapply Hi, list_elem_of_singleton).
  apply seg_app. exists r. split.
  - destruct l; cbn [app]; [by apply seg_alter; [left|]|]. apply seg_alter; [by left|done].
  - cbn [seg] in *. destruct H2 as (-> & s & Hs & _). split; [done|].
    eexists. by rewrite list_lookup_alter_eq, Hs.
Qed.

Lemma seg_in ss p l q i : seg ss p l q → i ∈ l → is_Some (ss !! i).
Proof.
  revert p. induction l as [|j l IH]; intros p; [set_solver|].
  intros (-> & s & Hs & Hl) [->|Hi]%elem_of_cons; [by eexists|by eapply IH].
Qed.

Lemma seg_nodes ss p l fuel : seg ss p l None → (length l <= fuel)%nat → nodes fuel ss p = Some l.
Proof.
  revert p fuel. induction l as [|i l IH]; intros p fuel; cbn [seg].
  - intros -> _. by destruct fuel.
  - intros (-> & s & Hs & Hl) Hf. destruct fuel as [|fuel]; [cbn in Hf; lia|].
    cbn [nodes]. rewrite Hs. cbn [mbind option_bind]. rewrite (IH _ fuel Hl) by (cbn in Hf; lia). done.
Qed.

Lemma seg_length ss p l q : seg ss p l q → NoDup l → (length l <= length ss)%nat.
Proof.
  intros Hs Hl. transitivity (length (seq 0 (length ss))); [|by rewrite length_seq].
  apply submseteq_length, NoDup_submseteq; [done|].
  intros i Hi. apply (seg_in _ _ _ _ _ Hs) in Hi as [s Hi]. apply lookup_lt_Some in Hi.
  apply elem_of_seq. lia.
Qed.

Lemma before_last prev l1 i l2 :
  i ∉ l1 → node_before prev (l1 ++ i :: l2) i =
    Some (match l1 with [] => prev | _ => last l1 end).
Proof.
  revert prev. induction l1 as [|j l1 IH]; intros prev Hi; cbn [app node_before].
  - by rewrite Nat.eqb_refl.
  - destruct (Nat.eqb_spec j i) as [->|_]; [exfalso; set_solver|].
    rewrite IH by set_solver. by destruct l1.
Qed.

(** * The list of a layer *)

(** A socket without its link. *)
Definition body (s : at_socket_t) : at_socket_t := s <| next := None |>.

Lemma body_field {A} (f : at_socket_t → A) s s' :
  (∀ s, f (body s) = f s) → body s = body s' → f s = f s'.
Proof. intros Hf Hb. rewrite <- (Hf s), <- (Hf s'). by rewrite Hb. Qed.

Section list.
Context {D : Type} `{SocketOps D}.
Implicit Types l : layer D.

Definition linked_as l (ids : list nat) : Prop := seg (socks l) (socket_list l) ids None ∧ NoDup ids.

(** The same but for the links. *)
Definition relinked l l' : Prop :=
  body <$> socks l' = body <$> socks l ∧ at_slock l' = at_slock l ∧
  stale_reads l' = stale_reads l ∧ drv l' = drv l.

Lemma relinked_lookup l l' i s :
  relinked l l' → socks l !! i = Some s → ∃ s', socks l' !! i = Some s' ∧ body s' = body s.
Proof.
  intros (Hb & _) Hs. assert ((body <$> socks l') !! i = Some (body s)) as Hl.
  { by rewrite Hb, list_lookup_fmap, Hs. }
  rewrite list_lookup_fmap in Hl. destruct (socks l' !! i) as [s'|]; [|done].
  exists s'. split; [done|]. by apply (inj Some).
Qed.

Lemma relinked_trans l1 l2 l3 : relinked l1 l2 → relinked l2 l3 → relinked l1 l3.
Proof. intros (? & ? & ? & ?) (? & ? & ? & ?). split_and!; congruence. Qed.

Lemma relinked_back l l' i s' :
  relinked l l' → socks l' !! i = Some s' →
  ∃ s, socks l !! i = Some s ∧ magic s' = magic s ∧ user_data s' = user_data s ∧
    recvpkt_list s' = recvpkt_list s.
Proof.
  intros (? & ? & ? & ?) Hs'. destruct (relinked_lookup l' l i s') as (s & Hs & Hb);
    [by split_and!|done|].
  exists s. split; [done|]. split_and!; by apply (body_field _ s' s).
Qed.

Lemma relinked_length l l' : relinked l l' → length (socks l') = length (socks l).
Proof. intros (Hb & _). apply (f_equal length) in Hb. by rewrite !length_fmap in Hb. Qed.

Lemma body_relink ss p q : body <$> relink ss p q = body <$> ss.
Proof.
  destruct p as [t|]; [|done]. cbn [relink]. apply list_eq. intros i.
  rewrite !list_lookup_fmap. destruct (decide (i = t)) as [->|].
  - rewrite list_lookup_alter_eq. by destruct (ss !! t).
  - by rewrite list_lookup_alter_ne.
Qed.

Lemma linked_length l ids : linked_as l ids → (length ids <= length (socks l))%nat.
Proof. intros [Hs Hn]. by eapply seg_length. Qed.

Lemma wp_linked l ids Q : linked_as l ids → Q ids l → wp linked Q l.
Proof.
  intros Hl HQ. unfold wp, linked. pose proof (linked_length _ _ Hl). destruct Hl as [Hs _].
  by rewrite (seg_nodes _ _ _ _ Hs).
Qed.

Lemma wp_get_sock l i s Q : socks l !! i = Some s → Q s l → wp (get_sock i) Q l.
Proof. intros Hs HQ. unfold wp, get_sock. by rewrite Hs. Qed.

Lemma wp_drv {A} (m : io D A) R (Q : A → layer D → Prop) l :
  wp m R (drv l) →
  (∀ a d, R a d → Q a (MkLayer (socks l) (socket_list l) (at_slock l) (stale_reads l) d)) →
  wp (on_drv m) Q l.
Proof. unfold wp, on_drv. destruct (m (drv l)) as [[a d]|]; [|done]. intros HR HQ. exact (HQ a d HR). Qed.

Lemma wp_set_link l p q Q :
  Q tt (MkLayer (relink (socks l) p q) (match p with None => q | Some _ => socket_list l end)
          (at_slock l) (stale_reads l) (drv l)) →
  wp (set_link p q) Q l.
Proof. by destruct p, l. Qed.

Lemma wp_append l ids i Q :
  linked_as l ids → i ∉ ids → is_Some (socks l !! i) →
  (∀ l', relinked l l' → linked_as l' (ids ++ [i]) → Q tt l') → wp (rt_slist_append i) Q l.
Proof.
  intros Hl Hi [s Hs] HQ. unfold rt_slist_append. apply wp_bind. eapply wp_linked; [done|].
  destruct Hl as [Hl Hn]. apply wp_bind, wp_set_link, wp_set_link, HQ.
  - split_and!; [|done..]. cbn [socks]. by rewrite !body_relink.
  - split; [|apply NoDup_app; split_and!; [done| |apply NoDup_singleton]].
    2:{ intros j Hj ->%list_elem_of_singleton. done. }
    cbn [socks socket_list relink]. apply seg_app. exists (Some i). split.
    + apply seg_alter; [by left|].
      pose proof (seg_relink _ _ _ _ (Some i) Hn Hl) as Hr.
      destruct ids as [|j ids _] using rev_ind; [done|]. rewrite last_snoc in *. cbn [relink] in *.
      by destruct ids.
    + cbn [seg]. split; [done|].
      assert (is_Some (relink (socks l) (last ids) (Some i) !! i)) as [s' Hs'].
      { destruct (last ids); [|by eexists]. cbn [relink]. apply lookup_lt_is_Some.
        rewrite length_alter. by eapply lookup_lt_Some. }
      exists (s' <| next := None |>). by rewrite list_lookup_alter_eq, Hs'.
Qed.

Lemma wp_remove l ids1 i ids2 Q :
  linked_as l (ids1 ++ i :: ids2) →
  (∀ l', relinked l l' → linked_as l' (ids1 ++ ids2) → Q tt l') → wp (rt_slist_remove i) Q l.
Proof.
  intros Hl HQ. unfold rt_slist_remove. apply wp_bind. eapply wp_linked; [done|].
  destruct Hl as [Hl Hn]. pose proof Hn as Hn0. apply NoDup_app in Hn as (Hn1 & Hd & Hn2).
  assert (i ∉ ids1) as Hi by (intros ?; eapply Hd; [done|by left]).
  rewrite before_last by done.
  apply seg_app in Hl as (r & H1 & H2). cbn [seg] in H2. destruct H2 as (-> & s & Hs & H2).
  apply wp_bind. eapply wp_get_sock; [done|]. apply wp_set_link, HQ.
  - split_and!; [|done..]. cbn [socks]. by rewrite body_relink.
  - split; [|eapply NoDup_app; apply NoDup_cons in Hn2 as [? ?]; split_and!; [done|set_solver|done]].
    cbn [socks socket_list]. apply seg_app. exists (next s).
    pose proof (seg_relink _ _ _ _ (next s) Hn1 H1) as Hr.
    split; [by destruct ids1 as [|j ids1]; [|destruct (last (j :: ids1)) eqn:E; [|by rewrite last_None in E]]|].
    destruct ids1 as [|j ids1]; [done|]. destruct (last (j :: ids1)) as [t|] eqn:E; [|done].
    cbn [relink]. apply seg_alter; [|done]. left. apply last_Some_elem_of in E.
    intros Ht. eapply Hd; [exact E|by right].
Qed.
End list.

(** * Sockets in use *)

Definition pkt_ok (p : at_recv_pkt) : Prop :=
  (bfsz_index p <= bfsz_totle p)%nat ∧ (bfsz_totle p <= length (pkt_buff p))%nat.

(** A socket in use: its index is the driver's number of it. *)
Definition live (i : nat) (s : at_socket_t) : Prop :=
  magic s = AT_SOCKET_MAGIC ∧ user_data s = Z.of_nat i ∧ Forall pkt_ok (recvpkt_list s).

Section sockets.
Context {D : Type} `{SocketOps D}.
Implicit Types l : layer D.

(** The sockets in use are those on the list, and no others. *)
Definition in_use l (ids : list nat) : Prop :=
  linked_as l ids ∧ (length (socks l) <= 8)%nat ∧
  ∀ i s, socks l !! i = Some s → if decide (i ∈ ids) then live i s else magic s = 0.

(** Moreover each has its position for its number. *)
Definition numbered l (ids : list nat) : Prop :=
  in_use l ids ∧ ∀ k i s, ids !! k = Some i → socks l !! i = Some s → descriptor s = Z.of_nat k.

(** The socket a number stands for. *)
Definition at_position (ids : list nat) (socket : Z) : option nat :=
  if 0 <=? socket then ids !! Z.to_nat socket else None.

Lemma in_use_live l ids i : in_use l ids → i ∈ ids → ∃ s, socks l !! i = Some s ∧ live i s.
Proof.
  intros ((Hl & _) & _ & Hs) Hi. destruct (seg_in _ _ _ _ _ Hl Hi) as [s Hi'].
  exists s. split; [done|]. specialize (Hs _ _ Hi'). by destruct (decide (i ∈ ids)).
Qed.

Lemma wp_find l ids socket n Q :
  Forall (λ i, ∃ s, socks l !! i = Some s ∧ magic s = AT_SOCKET_MAGIC) ids →
  Q (if n <=? u32 socket then ids !! Z.to_nat (u32 socket - n) else None) l →
  wp (find_socket socket n ids) Q l.
Proof.
  revert n. induction ids as [|i ids IH]; intros n Hi HQ; cbn [find_socket].
  { apply wp_ret. by destruct (n <=? u32 socket). }
  apply Forall_cons in Hi as [(s & Hs & Hm) Hi].
  destruct (Z.eqb_spec (u32 socket) n) as [E|E].
  - apply wp_bind. eapply wp_get_sock; [done|]. rewrite Hm, Z.eqb_refl. apply wp_ret.
    by rewrite E, Z.leb_refl, Z.sub_diag in HQ.
  - apply IH; [done|]. revert HQ.
    destruct (Z.leb_spec n (u32 socket)), (Z.leb_spec (n + 1) (u32 socket)); [|lia|lia|done].
    by replace (Z.to_nat (u32 socket - n)) with (S (Z.to_nat (u32 socket - (n + 1)))) by lia.
Qed.

Lemma wp_at_get_socket l ids socket Q :
  in_use l ids → INT32_MIN <= socket <= INT32_MAX → Q (at_position ids socket) l →
  wp (at_get_socket socket) Q l.
Proof.
  intros Hu Hr HQ. pose proof Hu as (Hl & Hn & _). unfold at_get_socket. apply wp_bind.
  eapply wp_linked; [done|]. apply wp_find.
  { apply Forall_forall. intros i Hi. destruct (in_use_live _ _ _ Hu Hi) as (s & ? & ? & _). eauto. }
  pose proof (linked_length _ _ Hl) as Hlen. unfold at_position in HQ.
  unfold u32, INT32_MIN, INT32_MAX in *. rewrite Z.sub_0_r.
  assert (0 <= socket mod 4294967296) by dlia. decide_if (0 <=? socket mod 4294967296) true.
  destruct (Z.leb_spec 0 socket); [by rewrite Z.mod_small by lia|].
  rewrite lookup_ge_None_2; [done|]. dlia.
Qed.

(** Changes that keep the invariants. *)
Lemma in_use_relinked l l' ids ids' :
  in_use l ids → relinked l l' → linked_as l' ids' →
  (∀ i s', socks l' !! i = Some s' → i ∈ ids ↔ i ∈ ids') → in_use l' ids'.
Proof.
  intros (_ & Hn & Hs) Hr Hl' Hi. split_and!; [done| |].
  - by rewrite (relinked_length _ _ Hr).
  - intros i s' Hs'. destruct (relinked_back _ _ _ _ Hr Hs') as (s & Hi' & Hm & Hd & Hp).
    specialize (Hs _ _ Hi'). specialize (Hi _ _ Hs'). unfold live in *. rewrite Hm, Hd, Hp.
    destruct (decide (i ∈ ids)), (decide (i ∈ ids')); tauto.
Qed.

(** A change of the socket [i]. *)
Lemma linked_as_alter l ids f i :
  (∀ s, next (f s) = next s) → linked_as l ids → linked_as (l <| socks := alter f i (socks l) |>) ids.
Proof. intros Hf [Hl Hn]. split; [|done]. apply seg_alter; [by right|done]. Qed.

Lemma in_use_alter l ids f i :
  in_use l ids → (∀ s, next (f s) = next s) →
  (∀ s, socks l !! i = Some s → if decide (i ∈ ids) then live i s → live i (f s) else magic (f s) = 0) →
  in_use (l <| socks := alter f i (socks l) |>) ids.
Proof.
  intros (Hl & Hn & Hs) Hf Hi. split_and!; [by apply linked_as_alter|cbn; by rewrite length_alter|].
  intros j s'. cbn [socks]. intros Hj. change (alter f i (socks l) !! j = Some s') in Hj.
  destruct (decide (j = i)) as [->|Hne].
  - rewrite list_lookup_alter_eq in Hj. destruct (socks l !! i) as [s|] eqn:E; [|done].
    cbn in Hj. simplify_eq. specialize (Hi _ eq_refl). specialize (Hs _ _ E).
    destruct (decide (i ∈ ids)); auto.
  - rewrite list_lookup_alter_ne in Hj by done. by apply Hs.
Qed.

Lemma in_use_drv l ids d : in_use l ids → in_use (l <| drv := d |>) ids.
Proof. done. Qed.

(** The socket [i] leaves the list and is cleared. *)
Lemma in_use_removed l l' ids1 i ids2 :
  in_use l (ids1 ++ i :: ids2) → relinked l l' → linked_as l' (ids1 ++ ids2) →
  in_use (l' <| socks := alter (λ _, cleared_socket) i (socks l') |>) (ids1 ++ ids2).
Proof.
  intros ((_ & Hnd) & Hn & Hs) Hr [Hl' Hnd'].
  assert (i ∉ ids1 ++ ids2) as Hi by 
    (by rewrite <- Permutation_middle in Hnd; apply NoDup_cons in Hnd as []).
  split_and!; [split; [apply seg_alter; [by left|done]|done]| |].
  - cbn. rewrite length_alter. by rewrite (relinked_length _ _ Hr).
  - intros j s' Hj. change (alter (λ _, cleared_socket) i (socks l') !! j = Some s') in Hj.
    destruct (decide (j = i)) as [->|Hne].
    + rewrite list_lookup_alter_eq in Hj. destruct (socks l' !! i); [|done].
      cbn in Hj. injection Hj as <-. by rewrite decide_False.
    + rewrite list_lookup_alter_ne in Hj by done.
      destruct (relinked_back _ _ _ _ Hr Hj) as (s & Hj' & Hm & Hd & Hp).
      specialize (Hs _ _ Hj'). unfold live in *. rewrite Hm, Hd, Hp.
      assert (j ∈ ids1 ++ i :: ids2 ↔ j ∈ ids1 ++ ids2) as Hiff
        by (rewrite !elem_of_app, elem_of_cons; tauto).
      destruct (decide (j ∈ ids1 ++ i :: ids2)), (decide (j ∈ ids1 ++ ids2)); tauto.
Qed.

(** The socket [i], which was free, joins the list. *)
Lemma in_use_added l l' ids i f :
  in_use l ids → i ∉ ids → relinked l l' → linked_as l' (ids ++ [i]) →
  (∀ s, next (f s) = next s) → (∀ s, magic s = 0 → live i (f s)) →
  in_use (l' <| socks := alter f i (socks l') |>) (ids ++ [i]).
Proof.
  intros (_ & Hn & Hs) Hi Hr Hl' Hf Hlive.
  split_and!; [by apply linked_as_alter| |].
  - cbn. rewrite length_alter. by rewrite (relinked_length _ _ Hr).
  - intros j s' Hj. change (alter f i (socks l') !! j = Some s') in Hj.
    destruct (decide (j = i)) as [->|Hne].
    + rewrite list_lookup_alter_eq in Hj. destruct (socks l' !! i) as [s2|] eqn:E; [|done].
      cbn in Hj. injection Hj as <-. destruct (relinked_back _ _ _ _ Hr E) as (s & Hs1 & Hm & _).
      specialize (Hs _ _ Hs1). rewrite decide_False in Hs by done.
      rewrite decide_True by (apply elem_of_app; right; by left). apply Hlive. congruence.
    + rewrite list_lookup_alter_ne in Hj by done.
      destruct (relinked_back _ _ _ _ Hr Hj) as (s & Hs1 & Hm & Hd & Hp). specialize (Hs _ _ Hs1).
      unfold live in *. rewrite Hm, Hd, Hp.
      assert (j ∈ ids ++ [i] ↔ j ∈ ids) as Hiff
        by (rewrite elem_of_app, list_elem_of_singleton; tauto).
      destruct (decide (j ∈ ids)), (decide (j ∈ ids ++ [i])); tauto.
Qed.
End sockets.

(** * What the driver promises *)

Class DriverLaws (D : Type) `{SocketOps D} := {
  blocks : D → Z;
  calloc_law d : wp sys_calloc (λ ok d', blocks d' = blocks d + Z.b2z ok ∧ ops_device d' = ops_device d) d;
  free_law d : wp sys_free (λ _ d', blocks d' = blocks d - 1 ∧ ops_device d' = ops_device d) d;
  delay_law n d : wp (sys_delay n) (λ _ d', blocks d' = blocks d ∧ ops_device d' = ops_device d) d;
  close_law socket d : 0 <= socket < 8 →
    wp (ops_closesocket socket) (λ _ d', blocks d' = blocks d ∧ ops_device d' = ops_device d) d;
  connect_law socket ip port type d :
    0 <= socket < 8 → (length ip <= 15)%nat → 0 <= port < 65536 →
    wp (ops_connect socket ip port type) (λ _ d', blocks d' = blocks d ∧ ops_device d' = ops_device d) d;
  send_law socket data type d : 0 <= socket < 8 →
    wp (ops_send socket data type) (λ _ d', blocks d' = blocks d ∧ ops_device d' = ops_device d) d;
  set_event_cb_law event cb d :
    wp (ops_set_event_cb event cb) (λ _ d', blocks d' = blocks d ∧ ops_device d' = ops_device d) d }.

Section operations.
Context {D : Type} `{DriverLaws D}.
Implicit Types l : layer D.

(** Driver and counter change, the sockets do not: [n] blocks are freed, [t] links of freed
    packets read. *)
Definition frees (n t : Z) (m : io (layer D) unit) : Prop :=
  ∀ l, wp m (λ _ l', ∃ d, l' = MkLayer (socks l) (socket_list l) (at_slock l) (stale_reads l + t) d ∧
    blocks d = blocks (drv l) - n) l.

Lemma frees_bind n1 t1 n2 t2 m1 m2 :
  frees n1 t1 m1 → frees n2 t2 m2 → frees (n1 + n2) (t1 + t2) (m1 ;; m2).
Proof.
  intros H1 H2 l. apply wp_bind. eapply wp_mono; [apply H1|].
  intros [] l1 (d1 & -> & Hd1). eapply wp_mono; [apply H2|].
  intros [] l2 (d2 & -> & Hd2). cbn in *. exists d2. split; [|lia]. f_equal. lia.
Qed.

Lemma frees_nothing : frees 0 0 (mret tt).
Proof. intros l. apply wp_ret. exists (drv l). split; [|lia]. destruct l. cbn. f_equal. lia. Qed.

Lemma frees_one : frees 1 0 (on_drv sys_free).
Proof.
  intros l. eapply wp_drv; [apply free_law|]. intros [] d [Hd _]. exists d. split; [|done].
  by rewrite Z.add_0_r.
Qed.

Lemma frees_pkt : frees 2 0 free_pkt.
Proof. apply (frees_bind 1 0 1 0); apply frees_one. Qed.

Lemma frees_stale : frees 0 1 stale_read.
Proof. intros l. apply wp_modify. exists (drv l). split; [by destruct l|lia]. Qed.

Lemma frees_pkts ps : frees (2 * Z.of_nat (length ps)) (Z.of_nat (length ps)) (delete_pkts ps).
Proof.
  induction ps as [|p ps IH]; [apply frees_nothing|]. cbn [delete_pkts length].
  replace (2 * Z.of_nat (S (length ps))) with (2 + (0 + 2 * Z.of_nat (length ps))) by lia.
  replace (Z.of_nat (S (length ps))) with (0 + (1 + Z.of_nat (length ps))) by lia.
  apply frees_bind; [apply frees_pkt|]. apply frees_bind; [apply frees_stale|done].
Qed.

(** The blocks a socket owns: semaphore, lock, and two for each packet. *)
Definition owned (s : at_socket_t) : Z :=
  Z.b2z (bool_decide (is_Some (recv_notice s))) + Z.b2z (recv_lock s) +
  2 * Z.of_nat (length (recvpkt_list s)).

Lemma frees_if (b : bool) : frees (Z.b2z b) 0 (if b then on_drv sys_free else mret tt).
Proof. destruct b; [apply frees_one|apply frees_nothing]. Qed.

(** What is left when the socket [i] is closed. *)
Definition removed l l' (ids : list nat) (i : nat) (s : at_socket_t) : Prop :=
  in_use l' ids ∧ socks l' !! i = Some cleared_socket ∧
  (∀ j sj, j ≠ i → socks l !! j = Some sj → ∃ sj', socks l' !! j = Some sj' ∧ body sj' = body sj) ∧
  blocks (drv l') = blocks (drv l) - owned s.

Lemma wp_unlink l ids1 i ids2 s Q :
  in_use l (ids1 ++ i :: ids2) → socks l !! i = Some s → descriptor s = Z.of_nat (length ids1) →
  (∀ l', relinked l l' → linked_as l' (ids1 ++ ids2) → Q tt l') → wp (unlink i) Q l.
Proof.
  intros (Hl & _) Hs Hd HQ. unfold unlink. apply wp_bind. eapply wp_get_sock; [done|].
  apply wp_bind. eapply wp_linked; [done|]. decide_if (descriptor s <? 0) false.
  rewrite Hd, Nat2Z.id, list_lookup_middle by done. by eapply wp_remove.
Qed.

Lemma wp_free_socket l ids1 i ids2 s :
  in_use l (ids1 ++ i :: ids2) → socks l !! i = Some s → descriptor s = Z.of_nat (length ids1) →
  wp (free_socket i) (λ _ l', removed l l' (ids1 ++ ids2) i s) l.
Proof.
  intros Hu Hs Hd. unfold free_socket. apply wp_bind. eapply wp_get_sock; [done|].
  apply wp_bind. eapply wp_mono; [apply frees_if|]. intros [] ? (d1 & -> & Hd1).
  apply wp_bind. eapply wp_mono; [apply frees_if|]. intros [] ? (d2 & -> & Hd2).
  apply wp_bind. cbn [socks socket_list at_slock stale_reads drv] in *.
  eapply wp_mono with (P := λ _ l', ∃ d t, l' = MkLayer (socks l) (socket_list l) (at_slock l) t d ∧
    blocks d = blocks d2 - 2 * Z.of_nat (length (recvpkt_list s))).
  { assert (∀ Q l', socks l' !! i = Some s → wp (delete_pkts (recvpkt_list s)) Q l' →
      wp (match recvpkt_list s with [] => mret tt | _ => at_recvpkt_all_delete i end) Q l') as Hm.
    { intros Q l' Hl' HQ. destruct (recvpkt_list s) eqn:E; [done|]. apply wp_bind.
      eapply wp_get_sock; [done|]. by rewrite E. }
    apply Hm; [done|]. eapply wp_mono; [apply frees_pkts|]. intros [] ? (d & -> & Hd3). eauto. }
  intros [] ? (d3 & t & -> & Hd3). apply wp_bind. eapply wp_unlink; [exact Hu|done|done|].
  intros l' Hr Hl'. apply wp_modify.
  assert (is_Some (socks l' !! i)) as [s' Hs'].
  { destruct (relinked_lookup _ _ _ _ Hr Hs) as (s' & ? & _). by eexists. }
  split_and!.
  - refine (in_use_removed _ l' ids1 i ids2 _ Hr Hl'). exact Hu.
  - change (alter (λ _, cleared_socket) i (socks l') !! i = Some cleared_socket).
    by rewrite list_lookup_alter_eq, Hs'.
  - intros j sj Hne Hj. change (∃ sj', alter (λ _, cleared_socket) i (socks l') !! j = Some sj' ∧ body sj' = body sj).
    rewrite list_lookup_alter_ne by done. by eapply relinked_lookup.
  - destruct Hr as (_ & _ & _ & Hdrv). change (blocks (drv l') = blocks (drv l) - owned s).
    rewrite Hdrv. cbn [drv]. unfold owned. lia.
Qed.

(** Both ways of closing, from the number to the cleared socket. *)
Lemma wp_shutdown l ids1 i ids2 s k :
  in_use l (ids1 ++ i :: ids2) → socks l !! i = Some s → descriptor s = Z.of_nat (length ids1) →
  k = Z.of_nat (length ids1) →
  wp (at_shutdown k) (λ _ l', removed l l' (ids1 ++ ids2) i s) l.
Proof.
  intros Hu Hs Hd ->. pose proof Hu as (Hl & Hn & _).
  pose proof (linked_length _ _ Hl) as Hlen. rewrite length_app in Hlen. cbn [length] in Hlen.
  unfold at_shutdown. apply wp_bind. eapply wp_at_get_socket; [done|unfold INT32_MIN, INT32_MAX; lia|].
  unfold at_position. decide_if (0 <=? Z.of_nat (length ids1)) true.
  rewrite Nat2Z.id, list_lookup_middle by done. apply wp_bind. eapply wp_get_sock; [done|].
  assert (i ∈ ids1 ++ i :: ids2) as Hi by (apply elem_of_app; right; by left).
  destruct (in_use_live _ _ _ Hu Hi) as (s0 & Hs0 & _ & Hud & _). assert (s0 = s) as -> by congruence.
  apply wp_bind, wp_modify. set (f := λ s0, s0 <| sock_state := AT_SOCKET_CLOSED |>).
  set (l1 := l <| socks := alter f i (socks l) |>).
  assert (in_use l1 (ids1 ++ i :: ids2)) as Hu1.
  { apply in_use_alter; [done|done|]. intros s1 Hs1. by rewrite decide_True. }
  assert (socks l1 !! i = Some (f s)) as Hs1
    by (change (socks l1) with (alter f i (socks l)); by rewrite list_lookup_alter_eq, Hs).
  apply wp_bind. eapply wp_mono with (P := λ _ l', ∃ d, l' = MkLayer (socks l1) (socket_list l1) (at_slock l1)
    (stale_reads l1) d ∧ blocks d = blocks (drv l)).
  { destruct (bool_decide _); [apply wp_ret; by exists (drv l)|].
    eapply wp_drv; [apply close_law|].
    - rewrite Hud. apply lookup_lt_Some in Hs. lia.
    - intros r d [Hb _]. by exists d. }
  intros r ? (d & -> & Hb). apply wp_bind.
  eapply wp_mono; [by apply (wp_free_socket _ ids1 i ids2 (f s))|].
  intros [] l' (H1 & H2 & H3 & H4). apply wp_ret. split_and!; [done|done| |].
  - intros j sj Hne Hj. apply H3; [done|].
    change (alter f i (socks l) !! j = Some sj). by rewrite list_lookup_alter_ne.
  - rewrite H4. cbn [drv]. by rewrite Hb.
Qed.

Lemma free_index_spec ss :
  free_index ss = length ss ∨ ∃ s, ss !! free_index ss = Some s ∧ magic s = 0.
Proof.
  induction ss as [|s ss IH]; [by left|]. cbn [free_index]. destruct (Z.eqb_spec (magic s) 0).
  - right. by exists s.
  - destruct IH as [IH|IH]; [left; cbn; lia|by right].
Qed.

(** A socket [i] with contents [s] after the sockets [ids] of [l]. *)
Definition added l l' (ids : list nat) (i : nat) (s : at_socket_t) : Prop :=
  in_use l' (ids ++ [i]) ∧ socks l' !! i = Some s ∧
  ∀ j sj, j ≠ i → socks l !! j = Some sj → ∃ sj', socks l' !! j = Some sj' ∧ body sj' = body sj.

Lemma added_numbered l l' ids i s :
  numbered l ids → i ∉ ids → added l l' ids i s → descriptor s = Z.of_nat (length ids) →
  numbered l' (ids ++ [i]).
Proof.
  intros [Hu Hk] Hi (Hu' & Hs & Ho) Hd. split; [done|]. intros k j sj Hj Hsj.
  apply lookup_app_Some in Hj as [Hj|[Hlen Hj]].
  - assert (j ≠ i) as Hne by (intros ->; by apply Hi, list_elem_of_lookup; eauto).
    destruct (in_use_live l ids j Hu) as (sj0 & Hsj0 & _); [apply list_elem_of_lookup; eauto|].
    destruct (Ho _ _ Hne Hsj0) as (sj' & Hsj' & Hb). assert (sj' = sj) as -> by congruence.
    rewrite (body_field descriptor _ _ (λ _, eq_refl) Hb). by eapply Hk.
  - apply list_lookup_singleton_Some in Hj as [Hz <-]. assert (sj = s) as -> by congruence.
    rewrite Hd. f_equal. lia.
Qed.

Lemma added_upd l l' ids i s f Q :
  added l l' ids i s → (∀ s, next (f s) = next s) → live i (f s) →
  (∀ l2, added l l2 ids i (f s) → drv l2 = drv l' → Q tt l2) → wp (upd_sock i f) Q l'.
Proof.
  intros (Hu & Hs & Ho) Hf Hl HQ. apply wp_modify, HQ; [|done]. split_and!.
  - apply in_use_alter; [done..|]. intros s' Hs'. assert (s' = s) as -> by congruence.
    rewrite decide_True; [done|]. apply elem_of_app. right. by left.
  - change (alter f i (socks l') !! i = Some (f s)). by rewrite list_lookup_alter_eq, Hs.
  - intros j sj Hne Hj. destruct (Ho _ _ Hne Hj) as (sj' & Hsj' & Hb). exists sj'. split; [|done].
    change (alter f i (socks l') !! j = Some sj'). by rewrite list_lookup_alter_ne.
Qed.

Lemma added_calloc l l' ids i s (Q : bool → layer D → Prop) :
  added l l' ids i s → (∀ ok l2, added l l2 ids i s → Q ok l2) → wp (on_drv sys_calloc) Q l'.
Proof.
  intros Ha HQ. eapply wp_drv; [apply calloc_law|]. intros ok d _. by apply HQ.
Qed.

(** The free socket [i] joins the list. *)
Lemma wp_join {A} l ids i g (rest : io (layer D) A) Q :
  let f := g (Z.of_nat (length ids) + 1) in
  in_use l ids → i ∉ ids → is_Some (socks l !! i) → (∀ s, next (f s) = next s) →
  (∀ s, magic s = 0 → live i (f s)) →
  (∀ l' s, added l l' ids i (f s) → wp rest Q l') →
  wp (rt_slist_init i ;; rt_slist_append i ;; len ← rt_slist_len; upd_sock i (g len) ;; rest) Q l.
Proof.
  intros f Hu Hi [s Hs] Hf Hlive HQ. pose proof Hu as ((Hl & Hn) & _).
  apply wp_bind, wp_set_link. cbn [relink].
  set (l1 := MkLayer _ _ _ _ _).
  assert (linked_as l1 ids) as Hl1 by (split; [apply seg_alter; [by left|done]|done]).
  assert (relinked l l1) as Hr1 by (split_and!; [apply (body_relink (socks l) (Some i) None)|done..]).
  apply wp_bind. eapply wp_append; [exact Hl1|done| |].
  { destruct (relinked_lookup _ _ _ _ Hr1 Hs) as (s1 & ? & _). by eexists. }
  intros l2 Hr2 Hl2. pose proof (relinked_trans _ _ _ Hr1 Hr2) as Hr.
  apply wp_bind, wp_bind. eapply wp_linked; [done|]. apply wp_ret, wp_bind, wp_modify.
  rewrite length_app. cbn [length]. rewrite Nat2Z.inj_add. change (Z.of_nat 1) with 1. fold f.
  destruct (relinked_lookup _ _ _ _ Hr Hs) as (s2 & Hs2 & _). apply (HQ _ s2). split_and!.
  - by apply (in_use_added l).
  - change (alter f i (socks l2) !! i = Some (f s2)). by rewrite list_lookup_alter_eq, Hs2.
  - intros j sj Hne Hj. change (∃ sj', alter f i (socks l2) !! j = Some sj' ∧ body sj' = body sj).
    rewrite list_lookup_alter_ne by done. by eapply relinked_lookup.
Qed.

(** An entry that an allocation left half way, and that nobody owns. *)
Definition broken (s : at_socket_t) : Prop := recv_notice s = None ∨ recv_lock s = false.
Definition others_kept l l' (i : nat) : Prop :=
  ∀ j sj, j ≠ i → socks l !! j = Some sj → ∃ sj', socks l' !! j = Some sj' ∧ body sj' = body sj.

(** The new socket, and what is left without memory for it. *)
Definition opened (ids : list nat) l (r : Z) l' : Prop :=
  (r = -1 ∧ (numbered l' ids ∧ socks l' = socks l ∨
     ∃ i s, (i ∉ ids) ∧ numbered l' (ids ++ [i]) ∧ socks l' !! i = Some s ∧ broken s ∧ others_kept l l' i)) ∨
  (∃ i s, (i ∉ ids) ∧ numbered l' (ids ++ [i]) ∧ others_kept l l' i ∧ r = Z.of_nat (length ids) ∧ socks l' !! i = Some s ∧
    sock_state s = AT_SOCKET_OPEN ∧ sock_type s = AT_SOCKET_TCP ∧ recvpkt_list s = [] ∧
    recv_notice s = Some 0 ∧ recv_lock s = true).

(** Allocation, up to the state the caller sets, with any numbers ... *)
Definition taken (ids : list nat) l (sock : option nat) l' : Prop :=
  match sock with
  | None => in_use l' ids ∧ socks l' = socks l ∨
      ∃ i s, (i ∉ ids) ∧ added l l' ids i s ∧ descriptor s = Z.of_nat (length ids) ∧ broken s
  | Some i => (i ∉ ids) ∧ ∃ s, added l l' ids i s ∧ descriptor s = Z.of_nat (length ids) ∧
      recvpkt_list s = [] ∧ recv_notice s = Some 0 ∧ recv_lock s = true
  end.
(** ... and with the numbers in order. *)
Definition allocated (ids : list nat) l (sock : option nat) l' : Prop :=
  match sock with
  | None => numbered l' ids ∧ socks l' = socks l ∨
      ∃ i s, (i ∉ ids) ∧ numbered l' (ids ++ [i]) ∧ socks l' !! i = Some s ∧ broken s ∧ others_kept l l' i
  | Some i => (i ∉ ids) ∧ ∃ s, added l l' ids i s ∧ descriptor s = Z.of_nat (length ids) ∧
      recvpkt_list s = [] ∧ recv_notice s = Some 0 ∧ recv_lock s = true
  end.

Lemma wp_make_lock l (Q : bool → layer D → Prop) :
  (∀ ok b d, Q ok (MkLayer (socks l) (socket_list l) b (stale_reads l) d)) → wp make_lock Q l.
Proof.
  intros HQ. unfold make_lock. apply wp_bind, wp_gets. destruct (at_slock l) eqn:E.
  - apply wp_ret. destruct l as [ss hd b t d]. cbn in *. subst b. apply HQ.
  - apply wp_bind. eapply wp_drv; [apply calloc_law|]. intros [] d _; [|by apply wp_ret].
    apply wp_bind, wp_modify, wp_ret, HQ.
Qed.

Lemma wp_take l ids : in_use l ids → wp alloc_socket_by_device (taken ids l) l.
Proof.
  intros Hu. unfold alloc_socket_by_device. apply wp_bind, wp_make_lock. intros ok b d.
  set (l0 := MkLayer _ _ _ _ _). assert (in_use l0 ids) as Hu0 by exact Hu.
  destruct ok; cbn [negb]; [|apply wp_ret; by left].
  apply wp_bind, wp_gets, wp_bind, wp_gets. change (socks l0) with (socks l).
  destruct (Nat.eqb_spec (free_index (socks l)) (length (socks l))) as [E|E]; [apply wp_ret; by left|].
  destruct (free_index_spec (socks l)) as [?|(s0 & Hs0 & Hm0)]; [done|].
  set (i := free_index (socks l)) in *.
  assert (i ∉ ids) as Hi.
  { intros Hin. destruct (in_use_live _ _ _ Hu Hin) as (s & Hs & Hmag & _).
    assert (s = s0) as -> by congruence. by rewrite Hm0 in Hmag. }
  eapply wp_join; [exact Hu0|done|by eexists|done|by intros; split_and!|].
  intros l1 s Ha. apply wp_bind. eapply added_calloc; [exact Ha|]. intros ok1 l2 Ha2.
  apply wp_bind. eapply added_upd; [exact Ha2|done|by split_and!|]. intros l3 Ha3 _.
  destruct ok1; cbn [negb].
  2:{ apply wp_ret. right. eexists i, _. split; [done|]. split; [exact Ha3|]. split; [cbn; lia|by left]. }
  apply wp_bind. eapply added_calloc; [exact Ha3|]. intros ok2 l4 Ha4.
  apply wp_bind. eapply added_upd; [exact Ha4|done|by split_and!|]. intros l5 Ha5 _.
  destruct ok2; cbn [negb].
  - apply wp_ret. split; [done|]. eexists. split; [exact Ha5|]. split_and!; [cbn; lia|done..].
  - apply wp_bind. eapply wp_drv; [apply free_law|]. intros [] d6 _. apply wp_ret. right.
    eexists i, _. split; [done|]. split; [exact Ha5|]. split; [cbn; lia|by right].
Qed.

Lemma wp_alloc l ids : numbered l ids → wp alloc_socket_by_device (allocated ids l) l.
Proof.
  intros Hnum. eapply wp_mono; [by apply wp_take, Hnum|]. intros [i|] l'; [done|].
  intros [[Hu Hs]|(i & s & Hi & Ha & Hd & Hb)].
  - left. split; [|done]. split; [done|]. rewrite Hs. apply Hnum.
  - right. exists i, s. split; [done|]. split; [by eapply added_numbered|]. by destruct Ha as (_ & ? & ?).
Qed.

Lemma wp_at_socket l ids protocol :
  numbered l ids → wp (at_socket AF_INET SOCK_STREAM protocol) (opened ids l) l.
Proof.
  intros Hnum. unfold at_socket. apply wp_bind, wp_ret. cbn [Z.eqb SOCK_STREAM Pos.eqb].
  apply wp_bind. unfold alloc_socket. eapply wp_mono with (P := allocated ids l).
  { apply wp_bind, wp_gets. destruct (ops_device (drv l)); [by apply wp_alloc|apply wp_ret; by left]. }
  intros [i|] l1; [|intros Ha; apply wp_ret; by left].
  intros (Hi & s & Ha & Hd & Hp & Hn & Hk). apply wp_bind.
  eapply added_upd; [exact Ha|done| |].
  { pose proof Ha as (Hu & Hs & _). destruct (in_use_live _ _ i Hu) as (s' & Hs' & Hl);
      [apply elem_of_app; right; by left|]. by assert (s' = s) as -> by congruence. }
  intros l2 Ha2 _. apply wp_bind. pose proof Ha2 as (_ & Hs2 & _). eapply wp_get_sock; [exact Hs2|].
  apply wp_ret. right. exists i. eexists. split; [done|]. split; [by eapply added_numbered|].
  split; [exact (proj2 (proj2 Ha2))|]. split; [exact Hd|]. split; [exact Hs2|]. by split_and!.
Qed.
End operations.

(** * The properties of the numbers *)

Lemma get_socket {D} `{DriverLaws D} (l : layer D) ids socket :
  in_use l ids → INT32_MIN <= socket <= INT32_MAX →
  at_get_socket socket l = Ret (at_position ids socket, l).
Proof.
  intros Hu Hr. assert (wp (at_get_socket socket) (λ r l', r = at_position ids socket ∧ l' = l) l) as Hw
    by (by eapply wp_at_get_socket).
  by apply wp_run in Hw as (r & l' & -> & -> & ->).
Qed.

(** The closing of a socket in use by its number. *)
Lemma wp_closesocket {D} `{DriverLaws D} (l : layer D) ids k i s :
  numbered l ids → ids !! k = Some i → socks l !! i = Some s →
  wp (at_closesocket (Z.of_nat k)) (λ _ l', removed l l' (delete k ids) i s ∧
    (S k = length ids → numbered l' (delete k ids))) l.
Proof.
  intros Hnum Hi Hs. pose proof Hnum as [Hu Hk]. pose proof (Hk _ _ _ Hi Hs) as Hd.
  pose proof (lookup_lt_Some _ _ _ Hi) as Hlt.
  rewrite <- (take_drop_middle _ _ _ Hi) in Hu.
  assert (length (take k ids) = k) as Hlen by (rewrite length_take; lia).
  rewrite delete_take_drop. unfold at_closesocket. apply wp_bind.
  eapply wp_drv; [apply delay_law|]. intros [] d [Hb _].
  eapply wp_mono; [eapply (wp_shutdown _ (take k ids) i (drop (S k) ids) s);
    [exact Hu|exact Hs|by rewrite Hlen|by rewrite Hlen]|].
  intros r l' (H1 & H2 & H3 & H4). split.
  - split_and!; [done|done|done|]. rewrite H4. cbn [drv]. by rewrite Hb.
  - intros Hlast. split; [done|]. intros k' j sj Hj Hsj.
    rewrite (drop_ge ids) in Hj by lia. rewrite app_nil_r in Hj.
    pose proof (lookup_lt_Some _ _ _ Hj) as Hlt'. rewrite lookup_take_lt in Hj by lia.
    assert (j ≠ i) as Hne.
    { intros ->. destruct Hu as ((_ & Hn) & _). rewrite (take_drop_middle _ _ _ Hi) in Hn.
      pose proof (NoDup_lookup _ _ _ _ Hn Hj Hi). lia. }
    destruct (in_use_live l ids j (proj1 Hnum)) as (sj0 & Hsj0 & _); [apply list_elem_of_lookup; eauto|].
    destruct (H3 _ _ Hne Hsj0) as (sj' & Hsj' & Hb'). assert (sj' = sj) as -> by congruence.
    rewrite (body_field descriptor _ _ (λ _, eq_refl) Hb'). by eapply Hk.
Qed.

(** C23. A socket number is a position.  With every socket in use at its own position,
    [at_get_socket] finds a socket exactly for the positions of the list.  [at_socket]
    returns the next position, with an open socket that holds nothing, or -1; it keeps
    the positions, but may leave an entry nobody owns behind when memory runs out, one
    without its semaphore or its lock; the other sockets stay as they are.
    Closing a socket always ends, frees every block the socket owns and leaves the other
    sockets as they are; but each socket opened after it answers to the number below its
    own from then on, and only the closing of the last socket keeps the numbers. *)
Theorem socket_numbers {D} `{DriverLaws D} (l : layer D) ids :
  numbered l ids →
  (∀ socket, INT32_MIN <= socket <= INT32_MAX →
     at_get_socket socket l = Ret (at_position ids socket, l)) ∧
  (∀ protocol, wp (at_socket AF_INET SOCK_STREAM protocol) (opened ids l) l) ∧
  (∀ k i s, ids !! k = Some i → socks l !! i = Some s →
     wp (at_closesocket (Z.of_nat k)) (λ r l', removed l l' (delete k ids) i s ∧
       (∀ socket, INT32_MIN <= socket <= INT32_MAX →
          at_get_socket socket l' = Ret (at_position (delete k ids) socket, l')) ∧
       (S k = length ids → numbered l' (delete k ids))) l).
Proof.
  intros Hnum. split_and!; [intros; apply get_socket; [apply Hnum|done]|intros protocol; by apply wp_at_socket|].
  intros k i s Hi Hs. eapply wp_mono; [by apply wp_closesocket|]. intros r l' [Hrem Hlast].
  split; [done|]. split; [|done]. intros socket Hr. apply get_socket; [apply Hrem|done].
Qed.

(** * The modem as a driver *)

Section modem.
Context {W : Type} `{Modem W, Board W, Arrivals W}.

Lemma client_law {A} (m : io (world W) A) (n : A → Z) (d : device W) :
  wp m (λ a w', device_found w' = device_found (client d) ∧ heap w' = heap (client d) + n a) (client d) →
  wp (on_client m) (λ a d', heap (client d') = heap (client d) + n a ∧ ops_device d' = ops_device d) d.
Proof.
  intros Hm. unfold wp, on_client, zoom in *.
  destruct (m (client d)) as [[a w']|f]; [|done]. destruct Hm as [Hd Hh].
  split; [exact Hh|]. cbn. by rewrite Hd.
Qed.

Lemma modem_law {A} (m : io (world W) A) (n : A → Z) (d : device W) :
  runs (λ _, False) m (λ a _ dh, dh = n a) →
  wp (on_client m) (λ a d', heap (client d') = heap (client d) + n a ∧ ops_device d' = ops_device d) d.
Proof.
  intros Hm. apply client_law. specialize (Hm (client d)). unfold wp.
  destruct (m (client d)) as [[a w']|f]; [|done]. destruct Hm as (ws & dh & (Hs & _ & Hh) & ->).
  unfold settings in Hs. split; [congruence|done].
Qed.

(** ... that keeps the memory. *)
Lemma modem_keeps {A} (m : io (world W) A) (R : A → list cstr → Z → Prop) (d : device W) :
  runs (λ _, False) m R → (∀ a ws dh, R a ws dh → dh = 0) →
  wp (on_client m) (λ _ d', heap (client d') = heap (client d) ∧ ops_device d' = ops_device d) d.
Proof.
  intros Hm HR. eapply wp_mono; [apply (modem_law m (λ _, 0))|].
  - eapply runs_mono; [exact Hm|exact HR].
  - intros a d' [Hh Ho]. split; [lia|done].
Qed.

Lemma modem_sends socket data type (d : device W) : 0 <= socket < 8 →
  wp (on_client (a9g_socket_send socket data type))
    (λ _ d', heap (client d') = heap (client d) ∧ ops_device d' = ops_device d) d.
Proof.
  intros Hs. eapply wp_mono; [apply (client_law _ (λ _, 0))|].
  - destruct (socket_sends socket data type (client d)) as (r & w' & ws & E & _ & Hh & _ & _ & Hd);
      [unfold INT32_MIN, INT32_MAX; lia|].
    unfold wp. rewrite E. split; [done|lia].
  - intros a d' [Hh Ho]. split; [lia|done].
Qed.

#[export] Program Instance a9g_driver_laws : DriverLaws (device W) := {
  blocks d := heap (client d) }.
Next Obligation.
  intros d. apply (modem_law (rt_calloc 32) Z.b2z). eapply runs_mono; [apply runs_calloc|].
  by intros [] ws dh [_ ->].
Qed.
Next Obligation.
  intros d. eapply wp_mono; [apply (modem_law rt_free (λ _, -1))|].
  - eapply runs_mono; [apply runs_free|]. by intros ? ? ? [_ ->].
  - intros a d' [Hh Ho]. split; [lia|done].
Qed.
Next Obligation. intros n d. eapply modem_keeps; [apply runs_delay|]. by intros ? ? ? [_ ->]. Qed.
Next Obligation.
  intros socket d Hs. eapply modem_keeps; [by apply runs_close|]. by intros ? ? ? [-> _].
Qed.
Next Obligation.
  intros socket ip port type d Hs Hip Hport. eapply modem_keeps; [apply runs_connect|].
  - unfold AT_DEVICE_A9G_SOCKETS_NUM. lia.
  - lia.
  - unfold INT32_MAX. lia.
  - by intros ? ? ? [-> _].
Qed.
Next Obligation. intros. by apply modem_sends. Qed.
Next Obligation.
  intros event cb d. eapply wp_mono; [apply (client_law _ (λ _, 0))|].
  - unfold a9g_socket_set_event_cb. case_if; [apply wp_modify|apply wp_ret]; (split; [done|cbn; lia]).
  - intros a d' [Hh Ho]. split; [lia|done].
Qed.
End modem.
