(* ===== verification/AtStream.v ===== *)
(** A socket as a byte stream (AtLayer.v): what the callbacks of the driver put in and the
    receive calls take out, against a first-in first-out queue of bytes. *)

From S2P Require Import Prelude CLib Event AtClient AtSocket AtSocketSpec.
From S2P Require Import AtParser Netdev AtDevice AtDeviceSpec AtLayer AtLayerSpec.

(** The bytes of a packet nobody has received, and those of a list of packets. *)
Definition unread (p : at_recv_pkt) : list Z :=
  drop (bfsz_index p) (take (bfsz_totle p) (pkt_buff p)).
Definition queued (ps : list at_recv_pkt) : list Z := concat (unread <$> ps).

(** How many packets a request for [len] bytes goes past. *)
Fixpoint passed (len : nat) (ps : list at_recv_pkt) : nat :=
  match ps with
  | [] => 0
  | p :: ps =>
      let n := (bfsz_totle p - bfsz_index p)%nat in
      if (len <=? n)%nat then 0 else S (passed (len - n) ps)
  end.

Lemma unread_length p : pkt_ok p → length (unread p) = (bfsz_totle p - bfsz_index p)%nat.
Proof. intros [H1 H2]. unfold unread. rewrite length_drop, length_take. lia. Qed.

Lemma unread_take p n : pkt_ok p → (n <= bfsz_totle p - bfsz_index p)%nat →
  rt_memcpy (pkt_buff p) (bfsz_index p) n = Ret (take n (unread p)).
Proof.
  intros [H1 H2] Hn. unfold rt_memcpy, unread.
  assert ((bfsz_index p + n <=? length (pkt_buff p))%nat = true) as -> by (apply Nat.leb_le; lia).
  f_equal. rewrite skipn_firstn_comm, take_take. f_equal. lia.
Qed.

Lemma alter_ext {A} (f g : A → A) i (l : list A) :
  (∀ x, l !! i = Some x → f x = g x) → alter f i l = alter g i l.
Proof.
  intros Hfg. apply list_eq. intros j. destruct (decide (j = i)) as [->|].
  - rewrite !list_lookup_alter_eq. destruct (l !! i) as [x|]; [|done]. cbn. by rewrite Hfg.
  - by rewrite !list_lookup_alter_ne.
Qed.

Section stream.
Context {D : Type} `{DriverLaws D}.
Implicit Types l : layer D.

Definition with_pkts (ps : list at_recv_pkt) (s : at_socket_t) : at_socket_t :=
  s <| recvpkt_list := ps |>.

(** The packets of the socket [i] of [l] are now [ps]; driver and counter changed. *)
Definition repacked l (i : nat) (ps : list at_recv_pkt) (t : Z) (d : D) : layer D :=
  MkLayer (alter (with_pkts ps) i (socks l)) (socket_list l) (at_slock l) t d.

Lemma repacked_twice l i ps t d ps' t' d' :
  repacked (repacked l i ps t d) i ps' t' d' = repacked l i ps' t' d'.
Proof. unfold repacked. cbn [socks socket_list at_slock]. by rewrite list_alter_alter_eq. Qed.

Lemma repacked_at l i s ps t d :
  socks l !! i = Some s → socks (repacked l i ps t d) !! i = Some (with_pkts ps s).
Proof. intros Hs. cbn. by rewrite list_lookup_alter_eq, Hs. Qed.

Lemma repacked_same l i s :
  socks l !! i = Some s → repacked l i (recvpkt_list s) (stale_reads l) (drv l) = l.
Proof.
  intros Hs. unfold repacked. destruct l as [ss hd b t d]. cbn in *. f_equal.
  apply list_eq. intros j. destruct (decide (j = i)) as [->|].
  - rewrite list_lookup_alter_eq, Hs. by destruct s.
  - by rewrite list_lookup_alter_ne.
Qed.

Lemma wp_node_delete l i s p ps Q :
  socks l !! i = Some s → recvpkt_list s = p :: ps →
  (∀ d, blocks d = blocks (drv l) - 2 → Q tt (repacked l i ps (stale_reads l) d)) →
  wp (at_recvpkt_node_delete i) Q l.
Proof.
  intros Hs Hp HQ. unfold at_recvpkt_node_delete. apply wp_bind, wp_modify.
  eapply wp_mono; [apply frees_pkt|]. intros [] ? (d & -> & Hd).
  assert (alter (λ s, s <| recvpkt_list := tail (recvpkt_list s) |>) i (socks l) =
          alter (with_pkts ps) i (socks l)) as Ha.
  { apply alter_ext. intros s' Hs'. assert (s' = s) as -> by congruence.
    unfold with_pkts. by rewrite Hp. }
  rewrite Z.add_0_r.
  assert (Q tt (MkLayer (alter (with_pkts ps) i (socks l)) (socket_list l) (at_slock l) (stale_reads l) d))
    as HQ' by (by apply HQ).
  by rewrite <- Ha in HQ'.
Qed.

(** One call of [at_recvpkt_get]. *)
Definition received (ps : list at_recv_pkt) (len : nat) l (i : nat) (data : list Z) l' : Prop :=
  ∃ ps' d, l' = repacked l i ps' (stale_reads l + Z.of_nat (passed len ps)) d ∧
    data = take len (queued ps) ∧ queued ps' = drop len (queued ps) ∧ Forall pkt_ok ps' ∧
    blocks d = blocks (drv l) - 2 * (Z.of_nat (length ps) - Z.of_nat (length ps')).

(** What is wanted lies within the first packet. *)
Lemma wp_recvpkt_within i len p ps mem l s : socks l !! i = Some s → recvpkt_list s = p :: ps →
  pkt_ok p → Forall pkt_ok ps → (length mem < len)%nat → (len - length mem <= bfsz_totle p - bfsz_index p)%nat →
  wp (recvpkt_loop i (p :: ps) len mem) (λ all l', ∃ data, all = mem ++ data ∧
    received (p :: ps) (len - length mem) l i data l') l.
Proof.
  intros Hs Hps Hp Hok Hlen Hle. cbn [recvpkt_loop]. pose proof (unread_length p Hp) as Hul.
  set (n := (bfsz_totle p - bfsz_index p)%nat) in *. set (want := (len - length mem)%nat) in *.
  destruct (Nat.leb_spec want n) as [Hw|Hw]; [|lia].
  apply wp_bind. eapply wp_lift; [apply unread_take; [done|lia]|].
  set (p' := p <| bfsz_index := (bfsz_index p + want)%nat |>).
  apply wp_bind, wp_modify. fold (with_pkts (p' :: ps)).
  change (l <| socks := alter (with_pkts (p' :: ps)) i (socks l) |>)
    with (repacked l i (p' :: ps) (stale_reads l) (drv l)).
  assert (passed want (p :: ps) = 0%nat) as Hpass by (cbn; fold n; by destruct (Nat.leb_spec want n); [|lia]).
  assert (take want (queued (p :: ps)) = take want (unread p)) as Htake
    by (cbn; rewrite take_app_le by lia; done).
  assert (drop want (queued (p :: ps)) = drop want (unread p) ++ queued ps) as Hdrop
    by (cbn; rewrite drop_app_le by lia; done).
  destruct Hp as [Hp1 Hp2].
  assert (unread p' = drop want (unread p)) as Hup
    by (unfold unread; cbn; by rewrite drop_drop).
  cbn [bfsz_index bfsz_totle]. apply wp_bind.
  change (bfsz_index p') with (bfsz_index p + want)%nat. change (bfsz_totle p') with (bfsz_totle p).
  destruct (Nat.eqb_spec (bfsz_index p + want) (bfsz_totle p)) as [E|E].
  - eapply wp_node_delete; [by apply repacked_at|done|]. intros d Hd. rewrite repacked_twice.
    apply wp_ret. exists (take want (unread p)). split; [done|]. exists ps, d.
    rewrite Hpass, Htake, Hdrop. split_and!; [cbn; by rewrite Z.add_0_r|done| |done|cbn in *; lia].
    by rewrite drop_ge by lia.
  - apply wp_ret, wp_ret. exists (take want (unread p)). split; [done|]. exists (p' :: ps), (drv l).
    rewrite Hpass, Htake, Hdrop. split_and!; [by rewrite Z.add_0_r|done| | |cbn [length]; lia].
    + change (unread p' ++ queued ps = drop want (unread p) ++ queued ps). by rewrite Hup.
    + apply Forall_cons. split; [|done]. split; cbn; [lia|done].
Qed.

Lemma wp_recvpkt i len : ∀ ps mem l s,
  socks l !! i = Some s → recvpkt_list s = ps → Forall pkt_ok ps → (length mem < len)%nat →
  wp (recvpkt_loop i ps len mem) (λ all l', ∃ data, all = mem ++ data ∧
    received ps (len - length mem) l i data l') l.
Proof.
  induction ps as [|p ps IH]; intros mem l s Hs Hps Hok Hlen.
  { cbn [recvpkt_loop]. apply wp_ret. exists []. split; [by rewrite app_nil_r|]. exists [], (drv l).
    pose proof (repacked_same l i s Hs) as E. rewrite Hps in E.
    split_and!; [|cbn; by rewrite take_nil|cbn; by rewrite drop_nil|done|cbn; lia].
    cbn [passed]. rewrite Z.add_0_r. by rewrite E. }
  apply Forall_cons in Hok as [Hp Hok]. pose proof (unread_length p Hp) as Hul.
  destruct (Nat.le_gt_cases (len - length mem) (bfsz_totle p - bfsz_index p)) as [Hle|Hgt];
    [by eapply wp_recvpkt_within|]. cbn [recvpkt_loop].
  set (n := (bfsz_totle p - bfsz_index p)%nat) in *. set (want := (len - length mem)%nat) in *.
  destruct (Nat.leb_spec want n) as [Hw|Hw]; [lia|].
  apply wp_bind. eapply wp_lift; [apply unread_take; [done|lia]|].
  rewrite take_ge by lia. apply wp_bind. eapply wp_node_delete; [exact Hs|exact Hps|]. intros d Hd.
  apply wp_bind, wp_modify. change ((repacked l i ps (stale_reads l) d) <| stale_reads := _ |>)
    with (repacked l i ps (stale_reads l + 1) d).
  eapply wp_mono.
  - apply (IH _ _ (with_pkts ps s)); [by apply repacked_at|done|done|rewrite length_app; lia].
  - intros all l' (data & -> & ps' & d' & -> & -> & Hq & Hok' & Hb).
    exists (unread p ++ take (want - n) (queued ps)).
    rewrite length_app, Hul. replace (len - (length mem + n))%nat with (want - n)%nat by lia.
    rewrite length_app, Hul in Hq. replace (len - (length mem + n))%nat with (want - n)%nat in Hq by lia.
    split; [by rewrite app_assoc|]. exists ps', d'. split_and!.
    + rewrite (repacked_twice l i). cbn [passed]. fold n.
      destruct (Nat.leb_spec want n); [lia|]. unfold repacked. cbn. f_equal. lia.
    + cbn. rewrite take_app_ge by lia. by rewrite Hul.
    + cbn. rewrite drop_app_ge by lia. by rewrite Hul.
    + done.
    + cbn in *. lia.
Qed.

(** The semaphore and the lock of a socket are there, or not, as before. *)
Definition same_health (s s' : at_socket_t) : Prop :=
  (is_Some (recv_notice s) ↔ is_Some (recv_notice s')) ∧ recv_lock s' = recv_lock s.

Lemma same_health_trans s1 s2 s3 : same_health s1 s2 → same_health s2 s3 → same_health s1 s3.
Proof. intros [H1 H2] [H3 H4]. split; [by rewrite H1|congruence]. Qed.

(** [l'] is [l] but for the socket [i], which is [s'] for [s] and still what it was to
    everyone else. *)
Definition touched l l' (ids : list nat) (i : nat) (s s' : at_socket_t) : Prop :=
  in_use l' ids ∧ socks l' !! i = Some s' ∧ sock_state s' = sock_state s ∧
  descriptor s' = descriptor s ∧
  same_health s s' ∧
  ∀ j, j ≠ i → socks l' !! j = socks l !! j.

Lemma touched_refl l ids i s : in_use l ids → socks l !! i = Some s → touched l l ids i s s.
Proof. done. Qed.

Lemma touched_trans l1 l2 l3 ids i s1 s2 s3 :
  touched l1 l2 ids i s1 s2 → touched l2 l3 ids i s2 s3 → touched l1 l3 ids i s1 s3.
Proof.
  intros (_ & _ & H1 & H2 & H3 & H4) (H1' & H2' & H3' & H4' & H5' & H6').
  split_and!; [done|done|congruence|congruence|by eapply same_health_trans|].
  intros j Hj. rewrite H6', H4 by done. done.
Qed.

Lemma touched_drv l l' ids i s s' d t :
  touched l l' ids i s s' →
  touched l (MkLayer (socks l') (socket_list l') (at_slock l') t d) ids i s s'.
Proof. done. Qed.

Lemma touched_alter l l' ids i s s' f :
  i ∈ ids → touched l l' ids i s s' → (∀ s, next (f s) = next s) →
  magic (f s') = magic s' → user_data (f s') = user_data s' → Forall pkt_ok (recvpkt_list (f s')) →
  sock_state (f s') = sock_state s' → descriptor (f s') = descriptor s' → same_health s' (f s') →
  touched l (l' <| socks := alter f i (socks l') |>) ids i s (f s').
Proof.
  intros Hi (Hu & Hs & Hst & Hde & Hno & Ho) Hn Hm Hd Hp Hst' Hde' Hno'. split_and!.
  - apply in_use_alter; [done..|]. intros s1 Hs1. assert (s1 = s') as -> by congruence.
    rewrite decide_True by done. intros (H1 & H2 & _). split_and!; congruence.
  - change (alter f i (socks l') !! i = Some (f s')). by rewrite list_lookup_alter_eq, Hs.
  - congruence.
  - congruence.
  - by eapply same_health_trans.
  - intros j Hj. change (alter f i (socks l') !! j = socks l !! j). rewrite list_lookup_alter_ne by done.
    by apply Ho.
Qed.

(** The event counters and the semaphore do not matter to the stream. *)
Lemma wp_event l l' ids i s s' ev plus Q :
  i ∈ ids → touched l l' ids i s s' → Forall pkt_ok (recvpkt_list s') →
  (∀ l2 s2, touched l l2 ids i s s2 → recvpkt_list s2 = recvpkt_list s' → drv l2 = drv l' → Q tt l2) →
  wp (at_do_event_changes i ev plus) Q l'.
Proof.
  intros Hi Ht Hok HQ. unfold at_do_event_changes, at_do_event_clean, upd_sock. apply wp_modify.
  match goal with |- context [alter ?g i _] => set (f := g) end.
  apply (HQ _ (f s')); [|by destruct ev|done].
  apply touched_alter; try done; by destruct ev.
Qed.

Lemma wp_clean l l' ids i s s' ev Q :
  i ∈ ids → touched l l' ids i s s' → Forall pkt_ok (recvpkt_list s') →
  (∀ l2 s2, touched l l2 ids i s s2 → recvpkt_list s2 = recvpkt_list s' → drv l2 = drv l' → Q tt l2) →
  wp (at_do_event_clean i ev) Q l'.
Proof.
  intros Hi Ht Hok HQ. unfold at_do_event_changes, at_do_event_clean, upd_sock. apply wp_modify.
  match goal with |- context [alter ?g i _] => set (f := g) end.
  apply (HQ _ (f s')); [|by destruct ev|done]. apply touched_alter; try done; by destruct ev.
Qed.

Lemma wp_recv_exit l l' ids i s s' result data :
  i ∈ ids → touched l l' ids i s s' → Forall pkt_ok (recvpkt_list s') →
  wp (recv_exit i result data) (λ r l2, ∃ s2, touched l l2 ids i s s2 ∧
    recvpkt_list s2 = recvpkt_list s' ∧ drv l2 = drv l' ∧
    r = (if decide (data = []) then result else Z.of_nat (length data), data)) l'.
Proof.
  intros Hi Ht Hok. unfold recv_exit. destruct data as [|c data].
  - apply wp_bind. eapply wp_event; [done..|]. intros l2 s2 Ht2 Hp2 Hd2. apply wp_ret.
    exists s2. split_and!; done.
  - apply wp_bind. eapply wp_event; [done..|]. intros l2 s2 Ht2 Hp2 Hd2.
    apply wp_bind. eapply wp_get_sock; [apply Ht2|]. rewrite <- Hp2 in Hok. apply wp_bind.
    destruct (recvpkt_list s2) eqn:E2.
    + eapply wp_clean; [done|exact Ht2|by rewrite E2|].
      intros l3 s3 Ht3 Hp3 Hd3. apply wp_ret. exists s3. split_and!; [done|congruence|congruence|done].
    + eapply wp_event; [done|exact Ht2|by rewrite E2|].
      intros l3 s3 Ht3 Hp3 Hd3. apply wp_ret. exists s3. split_and!; [done|congruence|congruence|done].
Qed.

(** The value of a receive call: the number of bytes, or an error without any. *)
Definition recv_value (r : Z * list Z) : Prop := r.1 = Z.of_nat (length r.2) ∨ r.1 = -1 ∧ r.2 = [].

Lemma wp_at_recv patience l ids socket i s len :
  in_use l ids → INT32_MIN <= socket <= INT32_MAX → at_position ids socket = Some i →
  socks l !! i = Some s →
  wp (at_recv patience socket len MSG_DONTWAIT) (λ r l', recv_value r ∧
    ∃ s', touched l l' ids i s s' ∧ r.2 = take len (queued (recvpkt_list s)) ∧
      queued (recvpkt_list s') = drop len (queued (recvpkt_list s)) ∧
      blocks (drv l') = blocks (drv l) -
        2 * (Z.of_nat (length (recvpkt_list s)) - Z.of_nat (length (recvpkt_list s')))) l.
Proof.
  intros Hu Hr Hi Hs. unfold at_recv, at_recvfrom. destruct (Nat.eqb_spec len 0) as [->|Hlen].
  { apply wp_ret. split; [by right|]. exists s. split_and!; [done|done|done|cbn; lia]. }
  assert (i ∈ ids) as Hin.
  { unfold at_position in Hi. destruct (0 <=? socket); [|done]. apply list_elem_of_lookup. eauto. }
  destruct (in_use_live _ _ _ Hu Hin) as (s0 & Hs0 & _ & _ & Hok). assert (s0 = s) as -> by congruence.
  apply wp_bind. eapply wp_at_get_socket; [done..|]. rewrite Hi.
  apply wp_bind. eapply wp_get_sock; [done|]. apply wp_bind, wp_ret. cbn [negb].
  apply wp_bind, wp_bind. eapply wp_get_sock; [done|].
  eapply wp_mono; [by eapply (wp_recvpkt i len _ [] l s); [| | |cbn; lia]|].
  intros all l1 (data & -> & ps' & d & -> & -> & Hq & Hok' & Hb). cbn [length] in *.
  rewrite Nat.sub_0_r in *. cbn [app].
  set (l1 := repacked _ _ _ _ _). set (s1 := with_pkts ps' s).
  assert (touched l l1 ids i s s1) as Ht.
  { assert (touched l (l <| socks := alter (with_pkts ps') i (socks l) |>) ids i s s1) as Ht
      by (apply touched_alter; done). exact Ht. }
  assert (∀ result, result = 0 ∨ result = -1 →
    wp (recv_exit i result (take len (queued (recvpkt_list s)))) (λ r l', recv_value r ∧
    ∃ s', touched l l' ids i s s' ∧ r.2 = take len (queued (recvpkt_list s)) ∧
      queued (recvpkt_list s') = drop len (queued (recvpkt_list s)) ∧
      blocks (drv l') = blocks (drv l) -
        2 * (Z.of_nat (length (recvpkt_list s)) - Z.of_nat (length (recvpkt_list s')))) l1) as Hexit.
  { intros result Hres. eapply wp_mono; [by apply (wp_recv_exit l l1 ids i s s1)|].
    intros r l2 (s2 & Ht2 & Hp2 & Hd2 & ->). cbn [fst snd]. split.
    - destruct (decide _) as [->|]; [|by left]. destruct Hres as [-> | ->]; [by left|by right].
    - exists s2. rewrite Hp2, Hd2. by split_and!. }
  destruct (take len (queued (recvpkt_list s))) as [|c data] eqn:E; [|apply Hexit; by left].
  apply wp_bind. eapply wp_get_sock; [apply Ht|].
  change (sock_state s1) with (sock_state s).
  destruct (sock_state s); [apply Hexit; by right|apply Hexit; by left|apply Hexit; by right
    |apply Hexit; by left..].
Qed.

Lemma queued_app ps data : queued (ps ++ [MkPkt (length data) 0 data]) = queued ps ++ data.
Proof.
  unfold queued. rewrite fmap_app, concat_app. cbn. unfold unread. cbn.
  by rewrite app_nil_r, drop_0, take_ge by done.
Qed.

Lemma wp_release l l' ids i s s' Q :
  i ∈ ids → touched l l' ids i s s' → Forall pkt_ok (recvpkt_list s') → is_Some (recv_notice s') →
  (∀ l2 s2, touched l l2 ids i s s2 → recvpkt_list s2 = recvpkt_list s' → drv l2 = drv l' → Q tt l2) →
  wp (release_notice i) Q l'.
Proof.
  intros Hi Ht Hok [n Hn] HQ. unfold release_notice. apply wp_bind. eapply wp_get_sock; [apply Ht|].
  rewrite Hn. apply wp_modify. eapply HQ; [by eapply touched_alter|done|done].
Qed.

(** Data arrive: they are queued, or lost without memory. *)
Lemma wp_recv_notice l ids i s data :
  i ∈ ids → in_use l ids → socks l !! i = Some s → is_Some (recv_notice s) →
  wp (recv_notice_cb i data (length data)) (λ _ l', ∃ (m : bool) s', touched l l' ids i s s' ∧
    queued (recvpkt_list s') = (if m then queued (recvpkt_list s) ++ data else queued (recvpkt_list s)) ∧
    length (recvpkt_list s') = (length (recvpkt_list s) + if m then 1 else 0)%nat ∧
    blocks (drv l') = blocks (drv l) + Z.b2z m) l.
Proof.
  intros Hi Hu Hs Hno. unfold recv_notice_cb. apply wp_bind. eapply wp_get_sock; [done|].
  destruct (in_use_live _ _ _ Hu Hi) as (s0 & Hs0 & Hm & _ & Hok). assert (s0 = s) as -> by congruence.
  rewrite Hm, Z.eqb_refl. cbn [negb]. apply wp_bind. unfold at_recvpkt_put. apply wp_bind.
  eapply wp_drv; [apply calloc_law|]. intros m d [Hb _]. set (l0 := MkLayer _ _ _ _ _).
  eapply wp_mono with (P := λ _ l1, ∃ s1, touched l l1 ids i s s1 ∧ drv l1 = d ∧ is_Some (recv_notice s1) ∧
    Forall pkt_ok (recvpkt_list s1) ∧ recvpkt_list s1 =
      (if m then recvpkt_list s ++ [MkPkt (length data) 0 data] else recvpkt_list s)).
  { assert (touched l l0 ids i s s) as Ht by exact (touched_refl l ids i s Hu Hs).
    destruct m; [|apply wp_ret; exists s; by split_and!].
    apply wp_bind, wp_modify, wp_ret.
    assert (Forall pkt_ok (recvpkt_list s ++ [MkPkt (length data) 0 data])) as Hok'.
    { apply Forall_app. split; [done|]. apply Forall_singleton. split; cbn; lia. }
    eexists. split; [by apply (touched_alter l l0 ids i s s)|]. by split_and!. }
  intros ? l1 (s1 & Ht1 & <- & Hn1 & Hok1 & Hp1). apply wp_bind.
  eapply wp_release; [done|exact Ht1|done|done|]. intros l2 s2 Ht2 Hp2 Hd2. rewrite <- Hp2 in Hok1.
  eapply wp_event; [done|exact Ht2|done|]. intros l3 s3 Ht3 Hp3 Hd3. exists m, s3.
  rewrite Hp3, Hp2, Hp1, Hd3, Hd2, Hb. split_and!; [done| | |done].
  - destruct m; [by rewrite queued_app|done].
  - destruct m; [by rewrite length_app|lia].
Qed.

(** * Streams *)

Inductive stream_op : Type := Arrive (data : list Z) | Recv (len : nat).

(** The driver's callbacks for the socket [i] and receive calls on its number, in any order:
    the values of the calls. *)
Fixpoint stream (patience i : nat) (socket : Z) (ops : list stream_op) : io (layer D) (list (Z * list Z)) :=
  match ops with
  | [] => mret []
  | Arrive data :: ops => recv_notice_cb i data (length data) ;; stream patience i socket ops
  | Recv len :: ops =>
      r ← at_recv patience socket len MSG_DONTWAIT;
      rs ← stream patience i socket ops;
      mret (r :: rs)
  end.
End stream.

(** A queue of bytes: what arrives joins its end when there is memory for it ([memory] says
    so for each arrival), a call takes from its front. *)
Fixpoint fifo (q : list Z) (ops : list stream_op) (memory : list bool) : list (list Z) * list Z :=
  match ops, memory with
  | [], _ => ([], q)
  | Arrive data :: ops, m :: memory => fifo (if m : bool then q ++ data else q) ops memory
  | Arrive _ :: ops, [] => fifo q ops []
  | Recv len :: ops, _ => let r := fifo (drop len q) ops memory in (take len q :: r.1, r.2)
  end.

Fixpoint arrived (ops : list stream_op) (memory : list bool) : list (list Z) :=
  match ops, memory with
  | [], _ => []
  | Arrive data :: ops, m :: memory => (if m : bool then [data] else []) ++ arrived ops memory
  | Arrive _ :: ops, [] => arrived ops []
  | Recv _ :: ops, _ => arrived ops memory
  end.

(** The order is kept and nothing is lost on the way. *)
Lemma fifo_order q ops memory :
  concat (fifo q ops memory).1 ++ (fifo q ops memory).2 = q ++ concat (arrived ops memory).
Proof.
  revert q memory. induction ops as [|[data|len] ops IH]; intros q memory.
  - by rewrite app_nil_r.
  - destruct memory as [|[] memory]; cbn; rewrite IH; [done| |done]. by rewrite <- app_assoc.
  - replace (fifo q (Recv len :: ops) memory) with
      (take len q :: (fifo (drop len q) ops memory).1, (fifo (drop len q) ops memory).2)
      by (by destruct memory).
    replace (arrived (Recv len :: ops) memory) with (arrived ops memory) by (by destruct memory).
    cbn [fst snd concat]. rewrite <- app_assoc, IH, app_assoc. by rewrite take_drop.
Qed.

(** C21. A socket is a queue of bytes.  Through every sequence of arrivals for a socket in
    use and non-blocking receive calls on its number, no call fails; each call returns the
    number of bytes it got, or an error and none, and gets the bytes a first-in first-out
    queue would give it, an arrival being lost as a whole when there is no memory for its
    packet.  What was received and what is still queued are together what arrived, in
    order.  The other sockets are not touched, and every packet that was read to its end is
    freed with its buffer. *)
Theorem socket_stream {D} `{DriverLaws D} patience (l : layer D) ids socket i s ops :
  in_use l ids → INT32_MIN <= socket <= INT32_MAX → at_position ids socket = Some i →
  socks l !! i = Some s → is_Some (recv_notice s) →
  wp (stream patience i socket ops) (λ rs l', ∃ memory s',
    Forall recv_value rs ∧ (rs.*2, queued (recvpkt_list s')) = fifo (queued (recvpkt_list s)) ops memory ∧
    concat rs.*2 ++ queued (recvpkt_list s') = queued (recvpkt_list s) ++ concat (arrived ops memory) ∧
    touched l l' ids i s s' ∧
    blocks (drv l') + 2 * (Z.of_nat (length (recvpkt_list s)) - Z.of_nat (length (recvpkt_list s'))) +
      Z.of_nat (length (arrived ops memory)) = blocks (drv l)) l.
Proof.
  intros Hu Hr Hi Hs Hno.
  assert (i ∈ ids) as Hin.
  { unfold at_position in Hi. destruct (0 <=? socket); [|done]. apply list_elem_of_lookup. eauto. }
  eapply wp_mono with (P := λ rs l', ∃ memory s', Forall recv_value rs ∧
    (rs.*2, queued (recvpkt_list s')) = fifo (queued (recvpkt_list s)) ops memory ∧ touched l l' ids i s s' ∧
    blocks (drv l') + 2 * (Z.of_nat (length (recvpkt_list s)) - Z.of_nat (length (recvpkt_list s'))) +
      Z.of_nat (length (arrived ops memory)) = blocks (drv l)).
  2:{ intros rs l' (memory & s' & Hv & Hf & Ht & Hb). exists memory, s'. split_and!; [done|done| |done|done].
      pose proof (fifo_order (queued (recvpkt_list s)) ops memory) as Ho. by rewrite <- Hf in Ho. }
  revert l s Hu Hs Hno. induction ops as [|[data|len] ops IH]; intros l s Hu Hs Hno; cbn [stream].
  - apply wp_ret. exists [], s. split_and!; [done..|cbn; lia].
  - apply wp_bind. eapply wp_mono; [by apply (wp_recv_notice l ids i s)|].
    intros [] l1 (m & s1 & Ht1 & Hq1 & Hlen1 & Hb1).
    eapply wp_mono; [apply (IH l1 s1); [apply Ht1|apply Ht1|by apply Ht1]|].
    intros rs l' (memory & s' & Hv & Hf & Ht & Hb). exists (m :: memory), s'. split_and!.
    + done.
    + cbn [fifo]. by rewrite <- Hq1.
    + by eapply touched_trans.
    + cbn [arrived]. rewrite length_app. destruct m; cbn [length Z.b2z] in *; lia.
  - apply wp_bind. eapply wp_mono; [by apply (wp_at_recv patience l ids socket i s)|].
    intros r l1 (Hv1 & s1 & Ht1 & Hd1 & Hq1 & Hb1). apply wp_bind.
    eapply wp_mono; [apply (IH l1 s1); [apply Ht1|apply Ht1|by apply Ht1]|].
    intros rs l' (memory & s' & Hv & Hf & Ht & Hb). apply wp_ret. exists memory, s'. split_and!.
    + by apply Forall_cons.
    + replace (fifo (queued (recvpkt_list s)) (Recv len :: ops) memory) with
        (take len (queued (recvpkt_list s)) ::
           (fifo (drop len (queued (recvpkt_list s))) ops memory).1,
         (fifo (drop len (queued (recvpkt_list s))) ops memory).2) by (by destruct memory).
      rewrite <- Hq1, <- Hf. cbn [fmap list_fmap fst snd]. by rewrite Hd1.
    + by eapply touched_trans.
    + replace (arrived (Recv len :: ops) memory) with (arrived ops memory) by (by destruct memory). lia.
Qed.

(** * Concrete runs *)

#[export] Instance station_arrivals : Arrivals station := { sem_arrival _ s := (None, s) }.

(** The board with its interface up, and layers with no and with one open socket. *)
Definition online : device station :=
  (board []) <| net := MkNetstate [MkNetdev (bytes "a9g0") 0 0 0 [0; 0] 0 [] 1 1500 false false false]
                         (Some 0%nat) [] |>.
Definition no_sockets : layer (device station) :=
  MkLayer (replicate 8 cleared_socket) None false 0 online.
Definition tcp_socket (state : at_socket_state) : at_socket_t :=
  MkSock AT_SOCKET_MAGIC 0 AT_SOCKET_TCP state (Some 0) true [] 0 0 0 0 0 None 0.
Definition one_socket : layer (device station) :=
  MkLayer (tcp_socket AT_SOCKET_CONNECT :: replicate 7 cleared_socket) (Some 0%nat) true 0 online.

Lemma one_socket_numbered : numbered one_socket [0%nat].
Proof.
  split.
  - split_and!; [split; [cbn; eauto|apply NoDup_singleton]|cbn; lia|].
    intros i s Hs. change (socks one_socket) with (tcp_socket AT_SOCKET_CONNECT :: replicate 7 cleared_socket) in Hs.
    destruct i as [|i]; cbn in Hs.
    + injection Hs as <-. rewrite decide_True by (by left). by split_and!.
    + change (replicate 7 cleared_socket !! i = Some s) in Hs. apply lookup_replicate in Hs as [-> _].
      by rewrite decide_False by (by intros ?%list_elem_of_singleton).
  - intros [|k] i s Hk Hs; [|done]. injection Hk as <-. by injection Hs as <-.
Qed.

Lemma no_sockets_numbered : numbered no_sockets [].
Proof.
  split; [|by intros [|k] i s].
  split_and!; [split; [done|apply NoDup_nil_2]|cbn; lia|].
  intros i s Hs. apply (lookup_replicate 8) in Hs as [-> _]. by rewrite decide_False by (apply not_elem_of_nil).
Qed.

Lemma socket_stream_witness :
  let ops := [Arrive [1; 2; 3]; Recv 2; Arrive [4]; Recv 5] in
  in_use one_socket [0%nat] ∧ at_position [0%nat] 0 = Some 0%nat ∧
  wp (stream 0 0 0 ops) (λ rs l', ∃ memory s', (rs.*2, queued (recvpkt_list s')) = fifo [] ops memory) one_socket.
Proof.
  intros ops. pose proof (proj1 one_socket_numbered) as Hu.
  assert (INT32_MIN <= 0 <= INT32_MAX) as Hr by (split; discriminate).
  split; [exact Hu|]. split; [reflexivity|].
  refine (wp_mono _ _ _ _ (socket_stream 0 one_socket [0%nat] 0 0 (tcp_socket AT_SOCKET_CONNECT) ops
    Hu Hr eq_refl eq_refl (ex_intro _ 0 eq_refl)) _).
  intros rs l' (memory & s' & _ & Hf & _). exists memory, s'. exact Hf.
Defined.

Lemma socket_numbers_witness :
  numbered one_socket [0%nat] ∧ at_get_socket 0 one_socket = Ret (Some 0%nat, one_socket) ∧
  at_get_socket 1 one_socket = Ret (None, one_socket).
Proof.
  destruct (socket_numbers one_socket [0%nat] one_socket_numbered) as (Hget & _).
  split; [exact one_socket_numbered|]. split.
  - apply (Hget 0). split; discriminate.
  - apply (Hget 1). split; discriminate.
Defined.

(** Evaluated: a call that takes the bytes of a packet and asks for more goes on through the
    link of the packet it just freed, also when there is no other. *)
Example two_packets :
  match stream 0 0 0 [Arrive [1; 2; 3]; Arrive [4; 5]; Recv 4; Recv 4] one_socket with
  | Ret (rs, l) => rs = [(4, [1; 2; 3; 4]); (1, [5])] ∧ stale_reads l = 2
  | Fault _ => False
  end.
Proof. vm_compute. done. Qed.

(** A poll that finds nothing is counted as an error of the socket. *)
Example empty_poll :
  match at_recv 0 0 4 MSG_DONTWAIT one_socket with
  | Ret (r, l) => r = (0, []) ∧ errevent <$> socks l !! 0%nat = Some 1
  | Fault _ => False
  end.
Proof. vm_compute. done. Qed.

(** Three sockets, of which the first is closed: the number of the second is that of the
    third now.  Closing what was the second empties the list, and the third socket is out
    of reach for good, its memory with it. *)
Example renumbered :
  match (at_socket AF_INET SOCK_STREAM 0 ;; at_socket AF_INET SOCK_STREAM 0 ;;
         at_socket AF_INET SOCK_STREAM 0 ;; at_closesocket 0 ;;
         a ← at_get_socket 0; b ← at_get_socket 1; c ← at_get_socket 2;
         r ← at_closesocket 0;
         d ← at_get_socket 0; e ← at_get_socket 1;
         mret ([a; b; c; d; e], r)) no_sockets with
  | Ret ((found, r), l) =>
      found = [Some 1; Some 2; None; None; None]%nat ∧ r = 0 ∧
      magic <$> socks l !! 2%nat = Some AT_SOCKET_MAGIC
  | Fault _ => False
  end.
Proof. vm_compute. done. Qed.
