(* ===== verification/AtNames.v ===== *)
(** Host names, socket options and binding of the socket layer
    (rt-thread/components/net/at/at_socket/at_socket.c).

    The text of an address is built in an array of 16 characters and read up to its
    terminator; a read past the array is a fault.  The device lookups and the name queries
    of the driver are the interface [NameOps]. *)

From S2P Require Import Prelude CLib Event AtClient AtSocket AtParser Netdev AtDevice AtLayer.

Definition EAI_NONAME := 200.
Definition EAI_SERVICE := 201.
Definition EAI_FAIL := 202.
Definition EAI_MEMORY := 203.
Definition EAI_FAMILY := 204.
Definition AI_NUMERICHOST := 4.
Definition DNS_MAX_NAME_LENGTH := 256%nat.
Definition AF_UNSPEC := 0.
Definition SOL_SOCKET := 4095.
Definition SO_SNDTIMEO := 4101.
Definition SO_RCVTIMEO := 4102.
Definition IPPROTO_TCP := 6.
Definition SIZEOF_ADDRINFO := 32.
Definition SIZEOF_SOCKADDR := 16.

Class NameOps (D : Type) := {
  first_initialized : D → bool;
  ops_domain_resolve : cstr → list Z → io D (Z * list Z) }.

Definition isalpha (c : Z) : bool :=
  ((65 <=? c) && (c <=? 90)) || ((97 <=? c) && (c <=? 122)).

(** * Addresses as text *)

(** [*p] in an array. *)
Definition deref (p : list Z) : res Z :=
  match p with c :: _ => Ret c | [] => Fault OutOfBounds end.

Fixpoint jump_space (p : list Z) : res (list Z) :=
  match p with
  | [] => Fault OutOfBounds
  | c :: q => if isspace c then jump_space q else Ret p
  end.
Fixpoint atol_digits (total : Z) (p : list Z) : res Z :=
  match p with
  | [] => Fault OutOfBounds
  | c :: q => if isdigit c then atol_digits (u32 (10 * total + (c - 48))) q else Ret total
  end.
Definition ipstr_atol (nptr : list Z) : res Z :=
  p ← jump_space nptr;
  c ← deref p;
  if (c =? 45) || (c =? 43) then
    total ← atol_digits 0 (drop 1 p);
    Ret (if c =? 45 then u32 (- total) else total)
  else atol_digits 0 p.

(** [strchr(p, '.')]. *)
Fixpoint find_dot (p : list Z) : res (option (list Z)) :=
  match p with
  | [] => Fault OutOfBounds
  | c :: q => if c =? 46 then Ret (Some p) else if c =? NUL then Ret None else find_dot q
  end.

(** The bytes from the position [4 - n] on. *)
Fixpoint ip_bytes (n : nat) (ipstr : list Z) : res (list Z) :=
  match n with
  | O => Ret []
  | S n =>
      v ← ipstr_atol ipstr;
      dot ← find_dot ipstr;
      match dot with
      | None => Ret (u8 v :: replicate n 0)
      | Some p => rest ← ip_bytes n (drop 1 p); Ret (u8 v :: rest)
      end
  end.

(** [*(uint32_t * ) ipBytes]. *)
Fixpoint le_number (bs : list Z) : Z :=
  match bs with [] => 0 | b :: bs => b + 256 * le_number bs end.
Definition ipstr_to_u32 (ipstr : list Z) : res Z := bs ← ip_bytes 4 ipstr; Ret (le_number bs).

(** [strncpy(ip_str, name, strlen(name))]: no terminator is written. *)
Definition overwrite (ip_str : list Z) (name : cstr) : res (list Z) :=
  if (length name <=? length ip_str)%nat then Ret (name ++ drop (length name) ip_str)
  else Fault OutOfBounds.

(** The loop up to the first letter. *)
Fixpoint letter_index (name : cstr) : nat :=
  match name with [] => 0 | c :: q => if isalpha c then 0 else S (letter_index q) end.
Definition has_letter (name : cstr) : bool := (letter_index name <? length name)%nat.

(** * Names *)

Record hostent : Type := MkHostent {
  h_name : cstr;
  h_addrtype : Z;
  h_length : Z;
  h_addr_list : list Z }.

Record sockaddr_in : Type := MkSockaddrIn {
  sin_len : Z;
  sin_family : Z;
  sin : sockaddr }.

Inductive addrinfo : Type := MkAddrinfo {
  ai_flags : Z;
  ai_family : Z;
  ai_socktype : Z;
  ai_protocol : Z;
  ai_addrlen : Z;
  ai_addr : sockaddr_in;
  ai_canonname : option cstr;
  ai_next : option addrinfo }.

Definition HARD_CODED : list Z := bytes "106.15.83.29" ++ replicate 4 NUL.

(** What [at_getaddrinfo] finds for a name: a return value, or [addr], uninitialised when
    nothing is stored. *)
Definition lookup_address (nodename : option cstr) (numeric : bool) (family : Z)
    : res (Z + option Z) :=
  match nodename with
  | None => Ret (inr None)
  | Some name =>
      if numeric then
        match netdev_ip4addr_aton name with
        | None => Ret (inl EAI_NONAME)
        | Some addr =>
            if (family =? AF_AT) || (family =? AF_INET) then Ret (inl EAI_NONAME)
            else Ret (inr (Some addr))
        end
      else
        ip_str ← (if has_letter name then Ret HARD_CODED else overwrite HARD_CODED name);
        addr ← ipstr_to_u32 ip_str;
        Ret (inr (Some addr))
  end.

Definition sizeof_result (nodename : option cstr) : res (option Z) :=
  let total_size := SIZEOF_ADDRINFO + SIZEOF_SOCKADDR in
  match nodename with
  | None => Ret (Some total_size)
  | Some name =>
      let namelen := length name in
      if (DNS_MAX_NAME_LENGTH <? namelen)%nat then Ret None
      else
        let size := u32 (total_size + Z.of_nat namelen + 1) in
        if total_size <? size then Ret (Some size) else Fault AssertFailed
  end.

(** The port, the flags and the family of the hints. *)
Definition service_port (servname : option cstr) : option Z :=
  match servname with
  | None => Some 0
  | Some s => let p := fst (strtol s) in if (p <=? 0) || (65535 <? p) then None else Some p
  end.
Definition hint_family (hints : option addrinfo) : option Z :=
  match hints with
  | None => Some 0
  | Some h =>
      let f := ai_family h in
      if negb (f =? AF_AT) && negb (f =? AF_INET) && negb (f =? AF_UNSPEC) then None else Some f
  end.
Definition numeric_host (hints : option addrinfo) : bool :=
  match hints with None => false | Some h => negb (Z.land (ai_flags h) AI_NUMERICHOST =? 0) end.

Section names.
Context {D : Type} `{SocketOps D, NameOps D}.

(** The returned record is the static [s_hostent]. *)
Definition at_gethostbyname (name : option cstr) : io (layer D) (option hostent) :=
  match name with
  | None => mret None
  | Some name =>
      device ← gets (λ l, first_initialized (drv l));
      if negb device then mret None
      else
        ipstr ← (if has_letter name then
                   r ← on_drv (ops_domain_resolve name (replicate 16 NUL));
                   mret (if r.1 <? 0 then None else Some r.2)
                 else ip ← lift (overwrite (replicate 16 NUL) name); mret (Some ip));
        match ipstr with
        | None => mret None
        | Some ipstr =>
            addr ← lift (ipstr_to_u32 ipstr);
            mret (Some (MkHostent (take DNS_MAX_NAME_LENGTH name) AF_AT 4 [addr]))
        end
  end.

(** [res]: whether the caller passed a place for the result; the result and [*res]. *)
Definition at_getaddrinfo (nodename servname : option cstr) (hints : option addrinfo) (res : bool)
    : io (layer D) (Z * option addrinfo) :=
  if negb res then mret (EAI_FAIL, None)
  else
    device ← gets (λ l, first_initialized (drv l));
    if negb device then mret (EAI_FAIL, None)
    else if bool_decide (nodename = None) && bool_decide (servname = None) then mret (EAI_NONAME, None)
    else
      match hint_family hints with
      | None => mret (EAI_FAMILY, None)
      | Some family =>
          match service_port servname with
          | None => mret (EAI_SERVICE, None)
          | Some port_nr =>
              found ← lift (lookup_address nodename (numeric_host hints) family);
              match found with
              | inl e => mret (e, None)
              | inr addr =>
                  total_size ← lift (sizeof_result nodename);
                  match total_size with
                  | None => mret (EAI_FAIL, None)
                  | Some total_size =>
                      rt_assert (total_size <=? SIZEOF_ADDRINFO + SIZEOF_SOCKADDR
                                                + Z.of_nat DNS_MAX_NAME_LENGTH + 1) ;;
                      ok ← on_drv sys_calloc;
                      if negb ok then mret (EAI_MEMORY, None)
                      else
                        match addr with
                        | None => io_fault Uninitialised
                        | Some addr =>
                            let sa := MkSockaddrIn SIZEOF_SOCKADDR AF_INET
                                        (MkAddr (htons (u16 port_nr)) addr) in
                            let hint (f : addrinfo → Z) := match hints with Some h => f h | None => 0 end in
                            mret (0, Some (MkAddrinfo 0 AF_INET (hint ai_socktype) (hint ai_protocol)
                                             SIZEOF_SOCKADDR sa nodename None))
                        end
                  end
              end
          end
      end.

Fixpoint at_freeaddrinfo_from (ai : addrinfo) : io (layer D) unit :=
  match ai with
  | MkAddrinfo _ _ _ _ _ _ _ next =>
      on_drv sys_free ;;
      match next with Some ai => at_freeaddrinfo_from ai | None => mret tt end
  end.
Definition at_freeaddrinfo (ai : option addrinfo) : io (layer D) unit :=
  match ai with Some ai => at_freeaddrinfo_from ai | None => mret tt end.

(** * Options *)

(** [struct timeval] of the C library of the board: two numbers of type [long]. *)
Record timeval : Type := MkTimeval { tv_sec : Z; tv_usec : Z }.

Definition timeval_of (timeout : Z) : timeval :=
  MkTimeval (i32 (u32 timeout / 1000)) (i32 (u32 (u32 timeout mod 1000 * 1000))).
Definition timeout_of (t : timeval) : res Z :=
  ms ← chk32 (tv_sec t * 1000);
  chk32 (ms + Z.quot (tv_usec t) 1000).

(** The result and what is stored at [optval]; [args]: neither pointer is null. *)
Definition at_getsockopt (socket level optname : Z) (args : bool) : io (layer D) (Z * option timeval) :=
  if negb args then mret (-1, None)
  else
    sock ← at_get_socket socket;
    match sock with
    | None => mret (-1, None)
    | Some i =>
        s ← get_sock i;
        if level =? SOL_SOCKET then
          if optname =? SO_RCVTIMEO then mret (0, Some (timeval_of (recv_timeout s)))
          else if optname =? SO_SNDTIMEO then mret (0, Some (timeval_of (send_timeout s)))
          else mret (-1, None)
        else mret (-1, None)
    end.

Definition at_setsockopt (socket level optname : Z) (optval : option timeval) : io (layer D) Z :=
  match optval with
  | None => mret (-1)
  | Some t =>
      sock ← at_get_socket socket;
      match sock with
      | None => mret (-1)
      | Some i =>
          if level =? SOL_SOCKET then
            if optname =? SO_RCVTIMEO then
              tmo ← lift (timeout_of t);
              upd_sock i (λ s, s <| recv_timeout := tmo |>) ;; mret 0
            else if optname =? SO_SNDTIMEO then
              tmo ← lift (timeout_of t);
              upd_sock i (λ s, s <| send_timeout := tmo |>) ;; mret 0
            else mret (-1)
          else if level =? IPPROTO_TCP then mret 0
          else mret (-1)
      end
  end.

(** * Binding *)

(** The address of the device of the layer, and [at_device_get_by_ipaddr]. *)
Variable local_ipaddr : D → Z.
Variable at_device_get_by_ipaddr : Z → D → bool.

Definition at_bind (socket : Z) (name : sockaddr) : io (layer D) Z :=
  sock ← at_get_socket socket;
  match sock with
  | None => mret (-1)
  | Some i =>
      s ← get_sock i;
      local ← gets (λ l, local_ipaddr (drv l));
      if sin_addr name =? local then mret 0
      else
        r ← at_closesocket socket;
        if r <? 0 then mret (-1)
        else
          new_device ← gets (λ l, at_device_get_by_ipaddr (sin_addr name) (drv l));
          if negb new_device then mret (-1)
          else
            new_sock ← alloc_socket_by_device;
            match new_sock with
            | None => mret (-1)
            | Some j =>
                upd_sock j (λ n, n <| sock_type := sock_type s |> <| sock_state := AT_SOCKET_OPEN |>) ;;
                mret 0
            end
  end.
End names.

(** The modem; [at_device_get_first_initialized] finds it or not. *)
#[global] Instance a9g_name_ops {W} `{Modem W, Board W} : NameOps (device W) := {
  first_initialized d := device_found (client d);
  ops_domain_resolve name ip := on_client (a9g_domain_resolve name ip) }.
