(* ===== verification/AtNamesSpec.v ===== *)
(** What the name functions of the socket layer (AtNames.v) return: which address a text or
    a name stands for, in [at_gethostbyname] and in [at_getaddrinfo], which reads the text
    over a fixed one; the time limits and the binding of a socket. *)

From S2P Require Import Prelude CLib Event AtClient AtSocket AtSocketSpec AtReceive AtParser.
From S2P Require Import Netdev NetdevSpec AtDevice AtDeviceSpec AtLayer AtLayerSpec AtStream AtNames.

(** * Reading a text *)

Definition no_stop (c : Z) : Prop := c ≠ 46 ∧ c ≠ NUL.
(** A character that is not a digit is the first. *)
Definition ends (p : list Z) : Prop := ∃ c q, p = c :: q ∧ isdigit c = false.

Lemma digit_no_stop c : isdigit c = true → no_stop c.
Proof. unfold isdigit, no_stop, NUL. intros H. bool_prop. lia. Qed.

Lemma atol_digits_dec ds rest : ∀ v,
  Forall (λ c, isdigit c = true) ds → ends rest → 0 <= v → dec_acc v ds < 4294967296 →
  atol_digits v (ds ++ rest) = Ret (dec_acc v ds).
Proof.
  induction ds as [|c ds IH]; intros v Hd Hr Hv Hb.
  - destruct Hr as (c & q & -> & Hc). cbn. by rewrite Hc.
  - inversion_clear Hd as [|?? Hc Hd']. cbn [app atol_digits dec_acc foldl]. rewrite Hc.
    change (dec_acc v (c :: ds)) with (dec_acc (v * 10 + (c - 48)) ds) in *.
    assert (0 <= c - 48) by (unfold isdigit in Hc; bool_prop; lia).
    pose proof (dec_acc_le (v * 10 + (c - 48)) ds ltac:(lia) Hd').
    replace (10 * v + (c - 48)) with (v * 10 + (c - 48)) by lia.
    rewrite u32_small by lia. by apply IH; [..|lia|].
Qed.

Lemma ipstr_atol_dec ds rest :
  ds ≠ [] → Forall (λ c, isdigit c = true) ds → ends rest → dec ds < 4294967296 →
  ipstr_atol (ds ++ rest) = Ret (dec ds).
Proof.
  intros Hn Hd Hr Hb. pose proof (atol_digits_dec ds rest 0 Hd Hr ltac:(lia) Hb) as Ha.
  destruct ds as [|c ds]; [done|]. inversion_clear Hd as [|?? Hc _].
  unfold isdigit in Hc. bool_prop. unfold ipstr_atol. cbn [app jump_space].
  assert (isspace c = false) as -> by (unfold isspace; apply orb_false_iff; split; lia).
  rewrite res_bind_ret. cbn [deref]. rewrite res_bind_ret.
  decide_if ((c =? 45) || (c =? 43)) false. exact Ha.
Qed.

Lemma find_dot_skip ds rest : Forall no_stop ds → find_dot (ds ++ rest) = find_dot rest.
Proof.
  induction 1 as [|c ds [H1 H2] _ IH]; [done|]. cbn [app find_dot].
  by rewrite (proj2 (Z.eqb_neq c 46) H1), (proj2 (Z.eqb_neq c NUL) H2).
Qed.

(** A part that a point follows, and the last part. *)
Lemma ip_bytes_part n ds rest bs :
  ds ≠ [] → Forall (λ c, isdigit c = true) ds → dec ds < 4294967296 →
  ip_bytes n rest = Ret bs → ip_bytes (S n) (ds ++ 46 :: rest) = Ret (u8 (dec ds) :: bs).
Proof.
  intros Hn Hd Hb Hrest. cbn [ip_bytes]. rewrite ipstr_atol_dec by (done || by eexists _, _).
  rewrite res_bind_ret, find_dot_skip by (eapply Forall_impl; [exact Hd|apply digit_no_stop]).
  cbn [find_dot Z.eqb Pos.eqb]. rewrite res_bind_ret. change (drop 1 (46 :: rest)) with rest. by rewrite Hrest, res_bind_ret.
Qed.

Lemma ip_bytes_last ds rest r :
  ds ≠ [] → Forall (λ c, isdigit c = true) ds → dec ds < 4294967296 → ends rest →
  find_dot rest = Ret r → ip_bytes 1 (ds ++ rest) = Ret [u8 (dec ds)].
Proof.
  intros Hn Hd Hb Hr Hf. cbn [ip_bytes]. rewrite ipstr_atol_dec by done.
  rewrite res_bind_ret, find_dot_skip by (eapply Forall_impl; [exact Hd|apply digit_no_stop]).
  rewrite Hf, res_bind_ret. destruct r as [p|]; [|done]. by rewrite res_bind_ret.
Qed.

(** The bytes after the text in the array continue its last number. *)
Definition continued (b : Z) (more : list Z) : Z := u8 (b * 10 ^ Z.of_nat (length more) + dec more).
Definition address_read (a : Z) (more : list Z) : Z :=
  le_number [u8 a; u8 (Z.shiftr a 8); u8 (Z.shiftr a 16); continued (u8 (Z.shiftr a 24)) more].

Lemma ipstr_to_u32_dotted a more rest r :
  Forall (λ c, isdigit c = true) more → (length more <= 6)%nat → ends rest → find_dot rest = Ret r →
  ipstr_to_u32 (dotted a ++ more ++ rest) = Ret (address_read a more).
Proof.
  intros Hm Hl Hr Hf. unfold dotted.
  destruct (octet_text (u8 a)) as (D0 & V0 & _ & _ & c0 & q0 & N0 & _); [apply u8_byte|].
  destruct (octet_text (u8 (Z.shiftr a 8))) as (D1 & V1 & _ & _ & c1 & q1 & N1 & _); [apply u8_byte|].
  destruct (octet_text (u8 (Z.shiftr a 16))) as (D2 & V2 & _ & _ & c2 & q2 & N2 & _); [apply u8_byte|].
  destruct (octet_text (u8 (Z.shiftr a 24))) as (D3 & V3 & _ & _ & c3 & q3 & N3 & _); [apply u8_byte|].
  pose proof (u8_byte a). pose proof (u8_byte (Z.shiftr a 8)). pose proof (u8_byte (Z.shiftr a 16)).
  pose proof (u8_byte (Z.shiftr a 24)). unfold is_byte in *.
  assert (dec (print_d (u8 (Z.shiftr a 24)) ++ more) < 4294967296) as Hb.
  { rewrite dec_app, V3. pose proof (dec_bounds more Hm).
    assert (10 ^ Z.of_nat (length more) <= 10 ^ 6) by (apply Z.pow_le_mono_r; lia). nia. }
  repeat (rewrite <- app_assoc; cbn [app]). unfold ipstr_to_u32.
  rewrite (ip_bytes_part 3 _ _ [u8 (Z.shiftr a 8); u8 (Z.shiftr a 16);
    continued (u8 (Z.shiftr a 24)) more]);
    [by rewrite res_bind_ret, V0, (u8_small (u8 a)) by done|by rewrite N0|done|lia|].
  rewrite (ip_bytes_part 2 _ _ [u8 (Z.shiftr a 16); continued (u8 (Z.shiftr a 24)) more]);
    [by rewrite V1, (u8_small (u8 (Z.shiftr a 8))) by done|by rewrite N1|done|lia|].
  rewrite (ip_bytes_part 1 _ _ [continued (u8 (Z.shiftr a 24)) more]);
    [by rewrite V2, (u8_small (u8 (Z.shiftr a 16))) by done|by rewrite N2|done|lia|].
  rewrite app_assoc. erewrite ip_bytes_last; [unfold continued; by rewrite dec_app, V3|..].
  - by rewrite N3.
  - by apply Forall_app.
  - done.
  - done.
  - exact Hf.
Qed.

Lemma le_octets a : 0 <= a < 4294967296 → le_number (octets a) = a.
Proof. intros Ha. pose proof (octets_sum a Ha). cbn [le_number octets]. lia. Qed.

Lemma address_exact a : 0 <= a < 4294967296 → address_read a [] = a.
Proof.
  intros Ha. rewrite <- (le_octets a Ha) at 2. unfold address_read, octets, continued.
  cbn [length Z.of_nat]. rewrite Z.pow_0_r, Z.mul_1_r. change (dec []) with 0.
  by rewrite Z.add_0_r, (u8_small (u8 _)) by apply u8_byte.
Qed.

(** ** Texts in arrays *)

Lemma has_letter_existsb name : has_letter name = existsb isalpha name.
Proof.
  unfold has_letter. induction name as [|c q IH]; [done|]. cbn [letter_index existsb length].
  destruct (isalpha c); [done|]. exact IH.
Qed.

Lemma isalpha_digit c : isdigit c = true → isalpha c = false.
Proof. unfold isdigit, isalpha. intros H. bool_prop. apply orb_false_iff. split; lia. Qed.

Lemma dotted_no_letter a : has_letter (dotted a) = false.
Proof.
  assert (∀ b, is_byte b → existsb isalpha (print_d b) = false) as Hp.
  { intros b Hb. destruct (octet_text b Hb) as (Hd & _). induction Hd as [|c q Hc _ IH]; [done|].
    cbn [existsb]. by rewrite isalpha_digit. }
  rewrite has_letter_existsb. unfold dotted. do 3 (rewrite existsb_app; cbn [existsb]).
  by rewrite !Hp by apply u8_byte.
Qed.

(** What [strncpy] without a terminator leaves of the fixed address behind a text. *)
Definition stale (n : nat) : list Z := take_while isdigit (drop n HARD_CODED).

Lemma stale_rest n : (n <= 15)%nat →
  Forall (λ c, isdigit c = true) (stale n) ∧ (length (stale n) <= 6)%nat ∧
  ∃ rest r, drop n HARD_CODED = stale n ++ rest ∧ ends rest ∧ find_dot rest = Ret r.
Proof.
  intros Hn. split; [apply take_while_Forall|].
  assert ((length (stale n) <= 6)%nat ∧ ends (skip_while isdigit (drop n HARD_CODED)) ∧
    ∃ r, find_dot (skip_while isdigit (drop n HARD_CODED)) = Ret r) as (H1 & H2 & r & H3).
  { do 16 (destruct n as [|n];
      [split; [vm_compute; lia|]; split; [by vm_compute; eauto|by eexists]|]). lia. }
  split; [done|]. exists (skip_while isdigit (drop n HARD_CODED)), r. split; [|done].
  symmetry. apply take_skip_while.
Qed.

Lemma read_hard_coded a :
  mbind ipstr_to_u32 (overwrite HARD_CODED (dotted a)) =
    Ret (address_read a (stale (length (dotted a)))).
Proof.
  pose proof (dotted_length a) as Hl. unfold overwrite. change (length HARD_CODED) with 16%nat.
  rewrite (proj2 (Nat.leb_le (length (dotted a)) 16)) by lia. rewrite res_bind_ret.
  destruct (stale_rest (length (dotted a)) Hl) as (Hd & Hl6 & rest & r & -> & Hr & Hf).
  by eapply ipstr_to_u32_dotted.
Qed.

Lemma zeros_rest n : ends (replicate (S n) NUL) ∧ find_dot (replicate (S n) NUL) = Ret None.
Proof. split; [by eexists _, _|done]. Qed.

Lemma read_zeros a n : 0 <= a < 4294967296 → ipstr_to_u32 (dotted a ++ replicate (S n) NUL) = Ret a.
Proof.
  intros Ha. destruct (zeros_rest n) as [Hr Hf].
  pose proof (ipstr_to_u32_dotted a [] (replicate (S n) NUL) _ ltac:(constructor) ltac:(cbn; lia) Hr Hf) as E.
  cbn [app] in E. by rewrite E, address_exact.
Qed.

Lemma read_text a :
  0 <= a < 4294967296 → mbind ipstr_to_u32 (overwrite (replicate 16 NUL) (dotted a)) = Ret a.
Proof.
  intros Ha. pose proof (dotted_length a) as Hl. unfold overwrite. rewrite length_replicate.
  rewrite (proj2 (Nat.leb_le (length (dotted a)) 16)) by lia. rewrite res_bind_ret, drop_replicate.
  replace (16 - length (dotted a))%nat with (S (15 - length (dotted a))) by lia. by apply read_zeros.
Qed.

(** A terminated text of any characters is read within the array. *)
Lemma atol_digits_total p v : NUL ∈ p → ∃ z, atol_digits v p = Ret z.
Proof.
  revert v. induction p as [|c q IH]; intros v Hp; [by apply not_elem_of_nil in Hp|].
  cbn [atol_digits]. destruct (isdigit c) eqn:E; [|by eexists]. apply IH.
  apply elem_of_cons in Hp as [<-|?]; done.
Qed.

Lemma ipstr_atol_total p : NUL ∈ p → ∃ z, ipstr_atol p = Ret z.
Proof.
  intros Hp. unfold ipstr_atol. induction p as [|c q IH]; [by apply not_elem_of_nil in Hp|].
  cbn [jump_space]. destruct (isspace c) eqn:E.
  { apply IH. apply elem_of_cons in Hp as [<-|?]; done. }
  rewrite res_bind_ret. cbn [deref]. rewrite res_bind_ret. destruct ((c =? 45) || (c =? 43)) eqn:E2.
  - destruct (atol_digits_total q 0) as [z Hz].
    { apply elem_of_cons in Hp as [<-|?]; done. }
    change (drop 1 (c :: q)) with q. rewrite Hz, res_bind_ret. by eexists.
  - by apply atol_digits_total.
Qed.

Lemma find_dot_total p : NUL ∈ p →
  find_dot p = Ret None ∨ ∃ q, find_dot p = Ret (Some (46 :: q)) ∧ NUL ∈ q.
Proof.
  induction p as [|c q IH]; intros Hp; [by apply not_elem_of_nil in Hp|]. cbn [find_dot].
  destruct (Z.eqb_spec c 46) as [->|H1].
  { right. exists q. split; [done|]. by apply elem_of_cons in Hp as [?|?]. }
  destruct (Z.eqb_spec c NUL) as [->|H2]; [by left|]. apply IH.
  apply elem_of_cons in Hp as [<-|?]; done.
Qed.

Lemma ip_bytes_total n : ∀ p, NUL ∈ p →
  ∃ bs, ip_bytes n p = Ret bs ∧ length bs = n ∧ Forall is_byte bs.
Proof.
  induction n as [|n IH]; intros p Hp; cbn [ip_bytes]; [by eexists|].
  destruct (ipstr_atol_total p Hp) as [z ->]. rewrite res_bind_ret.
  destruct (find_dot_total p Hp) as [->|(q & -> & Hq)]; rewrite res_bind_ret.
  - eexists. split; [done|]. cbn [length]. rewrite length_replicate. split; [done|].
    constructor; [apply u8_byte|]. by apply Forall_replicate.
  - destruct (IH q Hq) as (bs & Hbs & Hl & Hb). change (drop 1 (46 :: q)) with q.
    rewrite Hbs, res_bind_ret. eexists. split; [done|]. cbn [length]. split; [by f_equal|].
    constructor; [apply u8_byte|done].
Qed.

Lemma ipstr_to_u32_total p : NUL ∈ p → ∃ a, ipstr_to_u32 p = Ret a ∧ 0 <= a < 4294967296.
Proof.
  intros Hp. destruct (ip_bytes_total 4 p Hp) as (bs & Hbs & Hl & Hb). unfold ipstr_to_u32.
  rewrite Hbs, res_bind_ret. eexists. split; [done|].
  destruct bs as [|b0 [|b1 [|b2 [|b3 [|]]]]]; try done.
  repeat match goal with H : Forall _ (_ :: _) |- _ => inversion_clear H end.
  unfold is_byte in *. cbn [le_number]. lia.
Qed.

(** * [at_getaddrinfo] *)

Section getaddrinfo.
Context {D : Type} `{DriverLaws D, NameOps D}.
Implicit Types l : layer D.
Variables (servname : option cstr) (hints : option addrinfo) (port : Z).

(** The result for an address: a block with the address, the port and the types of the
    hints, or [EAI_MEMORY]; the sockets stay, and freeing the result gives the block back. *)
Definition result_of (nodename : option cstr) (addr : Z) : addrinfo :=
  MkAddrinfo 0 AF_INET (match hints with Some h => ai_socktype h | None => 0 end)
    (match hints with Some h => ai_protocol h | None => 0 end) SIZEOF_SOCKADDR
    (MkSockaddrIn SIZEOF_SOCKADDR AF_INET (MkAddr (htons (u16 port)) addr)) nodename None.

Definition answers l (nodename : option cstr) (addr : Z) : Prop :=
  wp (at_getaddrinfo nodename servname hints true)
    (λ r l', ∃ ok : bool,
       r = (if ok then (0, Some (result_of nodename addr)) else (EAI_MEMORY, None)) ∧
       socks l' = socks l ∧ socket_list l' = socket_list l ∧
       blocks (drv l') = blocks (drv l) + Z.b2z ok ∧
       wp (at_freeaddrinfo r.2) (λ _ l2, blocks (drv l2) = blocks (drv l)) l') l.

Lemma wp_lookup l name addr :
  first_initialized (drv l) = true →
  hint_family hints ≠ None → service_port servname = Some port →
  (∀ f, hint_family hints = Some f →
     lookup_address (Some name) (numeric_host hints) f = Ret (inr (Some addr))) →
  (length name <= 256)%nat → answers l (Some name) addr.
Proof using.
  intros Hdev Hf Hp Hlook Hlen. unfold answers, at_getaddrinfo. cbn [negb].
  apply wp_bind, wp_gets. rewrite Hdev. cbn [negb]. rewrite bool_decide_false by done. cbn [andb].
  destruct (hint_family hints) as [f|]; [|done]. rewrite Hp.
  apply wp_bind. eapply wp_lift; [by apply Hlook|]. apply wp_bind. eapply wp_lift.
  { unfold sizeof_result. rewrite (proj2 (Nat.ltb_ge _ _)) by (unfold DNS_MAX_NAME_LENGTH; lia).
    rewrite u32_small by (unfold SIZEOF_ADDRINFO, SIZEOF_SOCKADDR; lia).
    rewrite (proj2 (Z.ltb_lt _ _)) by (unfold SIZEOF_ADDRINFO, SIZEOF_SOCKADDR; lia). done. }
  cbn beta iota. apply wp_bind. unfold rt_assert.
  rewrite (proj2 (Z.leb_le _ _)) by (unfold DNS_MAX_NAME_LENGTH; lia). apply wp_ret, wp_bind.
  eapply wp_drv; [apply calloc_law|]. intros ok d [Hb _]. destruct ok; cbn [negb]; apply wp_ret;
    [exists true|exists false].
  - split_and!; [done..|]. cbn. apply wp_bind. eapply wp_drv; [apply free_law|].
    intros [] d2 [Hb2 _]. apply wp_ret. cbn in *. lia.
  - split_and!; [done..|]. apply wp_ret. cbn in *. lia.
Qed.
End getaddrinfo.

(** Name lookup.  With a modem, a family and a service that are accepted,
    [at_getaddrinfo] resolves nothing: every name with a letter in it is the one address
    106.15.83.29, which is what a socket connected to it is given.  The text of an address
    is read over that fixed text without a terminator: the first three numbers are those of
    the text, the last goes on with the digits of the fixed text behind it, so only texts of
    nine or at least twelve characters, are read as what they say.  A numeric lookup gives
    the address only to callers that do not ask for its family.  The result is one block,
    which [at_freeaddrinfo] gives back.  Without a name, for a loopback address, the address
    is read uninitialised. *)
Theorem at_getaddrinfo_address {D} `{DriverLaws D, NameOps D} servname hints port family (l : layer D) :
  first_initialized (drv l) = true →
  hint_family hints = Some family → service_port servname = Some port →
  (numeric_host hints = false → ∃ fixed,
     ipaddr_to_ipstr (MkAddr (htons (u16 port)) fixed) = bytes "106.15.83.29" ∧
     ∀ name, has_letter name = true → (length name <= 256)%nat →
       answers servname hints port l (Some name) fixed) ∧
  (∀ a, 0 <= a < 4294967296 →
     let n := length (dotted a) in
     if numeric_host hints then
       if (family =? AF_AT) || (family =? AF_INET)
       then at_getaddrinfo (Some (dotted a)) servname hints true l = Ret ((EAI_NONAME, None), l)
       else answers servname hints port l (Some (dotted a)) a
     else
       answers servname hints port l (Some (dotted a)) (address_read a (stale n)) ∧
       (n = 9%nat ∨ (12 <= n)%nat → address_read a (stale n) = a)) ∧
  (servname ≠ None →
     match at_getaddrinfo None servname hints true l with
     | Fault f => f = Uninitialised
     | Ret (r, _) => r = (EAI_MEMORY, None)
     end).
Proof.
  intros Hdev Hf Hp. split_and!.
  - intros Hn. exists (106 + 15 * 256 + 83 * 65536 + 29 * 16777216). split; [by vm_compute|].
    intros name Hl Hlen. apply wp_lookup; [done|by rewrite Hf|done| |done].
    intros f _. unfold lookup_address. rewrite Hn, Hl. reflexivity.
  - intros a Ha n. pose proof (dotted_length a) as Hlen.
    destruct (numeric_host hints) eqn:Hn.
    + pose proof (aton_dotted a [] Ha (or_introl eq_refl)) as Haton. rewrite app_nil_r in Haton.
      destruct ((family =? AF_AT) || (family =? AF_INET)) eqn:Efam.
      * unfold at_getaddrinfo, mbind, io_bind, gets. cbn [negb]. rewrite Hdev. cbn [negb].
        rewrite bool_decide_false by done. cbn [andb]. rewrite Hf, Hp, Hn.
        unfold lookup_address. by rewrite Haton, Efam.
      * apply wp_lookup; [done|by rewrite Hf|done| |lia]. intros f Hf'.
        assert (f = family) as -> by congruence. unfold lookup_address. by rewrite Hn, Haton, Efam.
    + split.
      * apply wp_lookup; [done|by rewrite Hf|done| |lia]. intros f _. unfold lookup_address.
        rewrite Hn, dotted_no_letter. pose proof (read_hard_coded a) as E.
        destruct (overwrite HARD_CODED (dotted a)) as [s|]; [|done]. cbn in E |- *. by rewrite E.
      * intros H12. rewrite <- (address_exact a Ha) at 2. f_equal. fold n in Hlen.
        clearbody n. destruct H12 as [->|H12]; [done|].
        do 4 (destruct (decide (n = 12)%nat) as [->|]; [done|]; destruct (decide (n = 13)%nat) as [->|]; [done|];
          destruct (decide (n = 14)%nat) as [->|]; [done|]; destruct (decide (n = 15)%nat) as [->|]; [done|]). lia.
  - intros Hs. unfold at_getaddrinfo, mbind, io_bind, gets. cbn [negb]. rewrite Hdev. cbn [negb].
    rewrite (bool_decide_false (servname = None)) by done. rewrite andb_false_r, Hf, Hp. cbn [lookup_address].
    unfold lift. cbn.
    change (rt_assert _ l) with (@Ret (() * layer D) (tt, l)). cbn beta iota.
    destruct (on_drv sys_calloc l) as [[ok l']|f] eqn:E.
    + by destruct ok.
    + exfalso. pose proof (wp_drv sys_calloc _ (λ _ _, True) l (calloc_law (drv l)) (λ _ _ _, I)) as Hw.
      unfold wp in Hw. by rewrite E in Hw.
Qed.

(** A caller that looks for 10.0.0.1 gets 10.0.0.13, one that looks for example.com the
    fixed address. *)
Definition found_as (text : string) (r : Z * option addrinfo) : Prop :=
  r = (EAI_MEMORY, None) ∨ ∃ ai, r = (0, Some ai) ∧ ipaddr_to_ipstr (sin (ai_addr ai)) = bytes text.

Lemma at_getaddrinfo_address_witness :
  let http := Some (bytes "80") in
  wp (at_getaddrinfo (Some (bytes "10.0.0.1")) http None true) (λ r _, found_as "10.0.0.13" r) no_sockets ∧
  wp (at_getaddrinfo (Some (bytes "example.com")) http None true) (λ r _, found_as "106.15.83.29" r) no_sockets.
Proof.
  intros http.
  pose proof (at_getaddrinfo_address (D := device station) http None 80 0 no_sockets) as H.
  destruct (H eq_refl eq_refl eq_refl) as (H1 & H2 & _). clear H.
  split.
  - assert (0 <= 16777226 < 4294967296) as Ha by lia. destruct (H2 16777226 Ha) as [H _].
    change (dotted 16777226) with (bytes "10.0.0.1") in H. unfold answers in H.
    refine (wp_mono _ _ _ _ H _). intros r l' ([] & -> & _); [right|by left].
    eexists. split; [reflexivity|]. by vm_compute.
  - destruct (H1 eq_refl) as (fixed & Hf & H).
    assert (length (bytes "example.com") <= 256)%nat as Hl by (vm_compute; lia).
    specialize (H (bytes "example.com") eq_refl Hl). unfold answers in H.
    refine (wp_mono _ _ _ _ H _). intros r l' ([] & -> & _); [right|by left]. eexists. split; [reflexivity|]. exact Hf.
Defined.

(** * [at_gethostbyname] *)

(** [at_gethostbyname] gives every address back that its text denotes.  For a name
    with a letter in it the modem is asked at most five times: the call returns the address
    the modem's text denotes, or, five times without an answer, reports 0.0.0.0 as the
    address of the name; memory, settings and sockets are as before.  A name without a
    letter that is longer than its buffer is written past it. *)
Theorem at_gethostbyname_address {W} `{Modem W, Board W, Arrivals W} (l : layer (device W)) :
  device_found (client (drv l)) = true →
  (∀ a t, 0 <= a < 4294967296 → netdev_ip4addr_ntoa a = Ret (Some t) →
     at_gethostbyname (Some t) l = Ret (Some (MkHostent t AF_AT 4 [a]), l)) ∧
  (∀ name, has_letter name = true → (length name <= 400)%nat →
     match at_gethostbyname (Some name) l with
     | Fault f => answer_fault f
     | Ret (r, l') =>
         socks l' = socks l ∧ socket_list l' = socket_list l ∧
         settings (client (drv l')) = settings (client (drv l)) ∧
         heap (client (drv l')) = heap (client (drv l)) ∧
         ∃ k, (k <= 5)%nat ∧
           written (client (drv l')) = written (client (drv l)) ++ concat (replicate k (query name)) ∧
           (r = None ∨
            ∃ addr, r = Some (MkHostent (take DNS_MAX_NAME_LENGTH name) AF_AT 4 [addr]) ∧
              (k = 5%nat ∧ addr = 0 ∨
               ∃ t, (8 <= length t <= 15)%nat ∧ ipstr_to_u32 (t ++ replicate (16 - length t) NUL) = Ret addr ∧
                 ∀ a, 0 <= a < 4294967296 → t = dotted a → addr = a))
     end) ∧
  (∀ name, has_letter name = false → (16 < length name)%nat →
     at_gethostbyname (Some name) l = Fault OutOfBounds).
Proof.
  intros Hdev. split_and!.
  - intros a t Ha. rewrite ntoa_text. intros [= <-].
    unfold at_gethostbyname, mbind, io_bind, gets. cbn [first_initialized a9g_name_ops]. rewrite Hdev.
    cbn [negb]. rewrite dotted_no_letter. pose proof (read_text a Ha) as E. pose proof (dotted_length a).
    unfold lift. destruct (overwrite (replicate 16 NUL) (dotted a)) as [s|]; [|done].
    change (ipstr_to_u32 s = Ret a) in E.
    unfold mret, io_ret. rewrite E. rewrite firstn_all2; [done|]. unfold DNS_MAX_NAME_LENGTH. lia.
  - intros name Hl Hlen. unfold at_gethostbyname, mbind, io_bind, gets.
    cbn [first_initialized ops_domain_resolve a9g_name_ops]. rewrite Hdev. cbn [negb]. rewrite Hl.
    pose proof (runs_domain_resolve name (replicate 16 NUL) Hlen (client (drv l))) as Hrun.
    unfold on_drv, on_client, zoom. unfold mbind, io_bind in Hrun |- *.
    destruct (a9g_domain_resolve name (replicate 16 NUL) (client (drv l))) as [[r w']|f]; [|done].
    destruct Hrun as (ws & dh & (Hs & Hw & Hh) & Hd & k & Hk & -> & Hr). subst dh.
    unfold lift, mret, io_ret. destruct Hr as [[Hr _]|Hr].
    { rewrite (proj2 (Z.ltb_lt _ _) Hr). split_and!; [done..|cbn; lia|]. exists k. split_and!; [done..|by left]. }
    assert (∃ addr, r.1 = RT_EOK ∧ ipstr_to_u32 r.2 = Ret addr ∧ (k = 5%nat ∧ addr = 0 ∨
      ∃ t, (8 <= length t <= 15)%nat ∧ ipstr_to_u32 (t ++ replicate (16 - length t) NUL) = Ret addr ∧
        ∀ a, 0 <= a < 4294967296 → t = dotted a → addr = a)) as (addr & -> & Ha & Ht).
    { destruct Hr as [[-> ->]|(t & -> & Hlt & _)]; [by exists 0; eauto|].
      replace (16 - length t)%nat with (S (15 - length t)) by lia.
      destruct (ipstr_to_u32_total (t ++ replicate (S (15 - length t)) NUL)) as (addr & Ha & _);
        [apply elem_of_app; right; by left|].
      exists addr. split_and!; [done..|]. right. exists t.
      replace (16 - length t)%nat with (S (15 - length t)) by lia. split; [lia|]. split; [done|].
      intros a Hr ->. rewrite read_zeros in Ha by done. congruence. }
    cbn [RT_EOK Z.ltb Z.compare]. rewrite Ha. split_and!; [done..|cbn; lia|].
    exists k. split_and!; [done..|]. right. by exists addr.
  - intros name Hl Hlen. unfold at_gethostbyname, mbind, io_bind, gets.
    cbn [first_initialized a9g_name_ops]. rewrite Hdev. cbn [negb]. rewrite Hl. unfold overwrite, lift.
    rewrite length_replicate. by rewrite (proj2 (Nat.leb_gt _ _) Hlen).
Qed.

Lemma at_gethostbyname_address_witness :
  device_found (client (drv no_sockets)) = true ∧
  at_gethostbyname (Some (bytes "47.100.28.6")) no_sockets =
    Ret (Some (MkHostent (bytes "47.100.28.6") AF_AT 4 [102523951]), no_sockets).
Proof.
  assert (device_found (client (drv no_sockets)) = true) as H by reflexivity. split; [exact H|].
  assert (0 <= 102523951 < 4294967296) as Ha by lia.
  apply (proj1 (at_gethostbyname_address no_sockets H)); [exact Ha|reflexivity].
Defined.

(** * Options *)

Section options.
Context {D : Type} `{DriverLaws D, NameOps D}.

Lemma timeout_of_small t :
  0 <= tv_sec t → 0 <= tv_usec t < 1000000 → tv_sec t * 1000 + tv_usec t / 1000 <= INT32_MAX →
  timeout_of t = Ret (tv_sec t * 1000 + tv_usec t / 1000).
Proof using.
  clear. unfold INT32_MAX. intros Hs Hu Hmax. assert (0 <= tv_usec t / 1000 < 1000) by dlia.
  unfold timeout_of. rewrite chk32_ok by (unfold INT32_MIN, INT32_MAX; lia).
  rewrite res_bind_ret, Z.quot_div_nonneg by lia. apply chk32_ok. unfold INT32_MIN, INT32_MAX. lia.
Qed.

Lemma timeval_of_timeout t :
  0 <= tv_sec t → 0 <= tv_usec t < 1000000 → tv_sec t * 1000 + tv_usec t / 1000 <= INT32_MAX →
  timeval_of (tv_sec t * 1000 + tv_usec t / 1000) = MkTimeval (tv_sec t) (tv_usec t / 1000 * 1000).
Proof using.
  clear. unfold INT32_MAX. intros Hs Hu Hmax. assert (0 <= tv_usec t / 1000 < 1000) by dlia.
  unfold timeval_of. rewrite (u32_small (_ + _)) by lia.
  replace ((tv_sec t * 1000 + tv_usec t / 1000) / 1000) with (tv_sec t) by dlia.
  replace ((tv_sec t * 1000 + tv_usec t / 1000) mod 1000) with (tv_usec t / 1000) by dlia.
  rewrite u32_small by lia. f_equal; apply i32_small; unfold INT32_MIN, INT32_MAX; lia.
Qed.

(** A time limit that is set is got back in whole milliseconds, up to the 24 days an [int]
    holds. *)
Lemma socket_timeouts (l : layer D) ids socket i optname t :
  in_use l ids → INT32_MIN <= socket <= INT32_MAX → at_position ids socket = Some i →
  optname = SO_RCVTIMEO ∨ optname = SO_SNDTIMEO →
  0 <= tv_sec t → 0 <= tv_usec t < 1000000 → tv_sec t * 1000 + tv_usec t / 1000 <= INT32_MAX →
  wp (r ← at_setsockopt socket SOL_SOCKET optname (Some t);
      g ← at_getsockopt socket SOL_SOCKET optname true; mret (r, g))
    (λ r l', r = (0, (0, Some (MkTimeval (tv_sec t) (tv_usec t / 1000 * 1000)))) ∧ in_use l' ids) l.
Proof.
  intros Hu Hr Hi Ho Hs Hus Hmax.
  assert (i ∈ ids) as Hin.
  { unfold at_position in Hi. destruct (0 <=? socket); [|done]. apply list_elem_of_lookup. eauto. }
  destruct (in_use_live l ids i Hu Hin) as (s & Hsi & Hlive).
  set (f := λ s, if optname =? SO_RCVTIMEO then s <| recv_timeout := tv_sec t * 1000 + tv_usec t / 1000 |>
                 else s <| send_timeout := tv_sec t * 1000 + tv_usec t / 1000 |>).
  assert (in_use (l <| socks := alter f i (socks l) |>) ids) as Hu'.
  { apply in_use_alter; [done|intros s'; unfold f; by destruct (_ =? _)|]. intros s' _.
    rewrite decide_True by done. intros Hl'. unfold f. by destruct (_ =? _). }
  assert ((alter f i (socks l)) !! i = Some (f s)) as Hfs by by rewrite list_lookup_alter_eq, Hsi.
  apply wp_bind. unfold at_setsockopt. apply wp_bind. eapply wp_at_get_socket; [done..|]. rewrite Hi.
  cbn [SOL_SOCKET Z.eqb Pos.eqb].
  assert (∀ Q : Z → layer D → Prop, Q 0 (l <| socks := alter f i (socks l) |>) →
    wp (if optname =? SO_RCVTIMEO
        then tmo ← lift (timeout_of t); upd_sock i (λ s, s <| recv_timeout := tmo |>) ;; mret 0
        else if optname =? SO_SNDTIMEO
        then tmo ← lift (timeout_of t); upd_sock i (λ s, s <| send_timeout := tmo |>) ;; mret 0
        else mret (-1)) Q l) as Hset.
  { intros Q HQ. destruct Ho as [->| ->]; cbn [SO_RCVTIMEO SO_SNDTIMEO Z.eqb Pos.eqb];
      (apply wp_bind; eapply wp_lift; [by apply timeout_of_small|]; apply wp_bind, wp_modify, wp_ret; exact HQ). }
  apply Hset. apply wp_bind. unfold at_getsockopt. cbn [negb]. apply wp_bind.
  eapply wp_at_get_socket; [exact Hu'|done|]. rewrite Hi. apply wp_bind. eapply wp_get_sock; [exact Hfs|].
  unfold f. destruct Ho as [->| ->]; cbn [SOL_SOCKET SO_RCVTIMEO SO_SNDTIMEO Z.eqb Pos.eqb];
    apply wp_ret, wp_ret; (split; [cbn; by rewrite timeval_of_timeout|exact Hu']).
Qed.

(** * Binding *)

Variable local_ipaddr : D → Z.
Variable at_device_get_by_ipaddr : Z → D → bool.

(** The socket [k] is closed and another one opened at the end of the list: whom the number
    [k] stands for then. *)
Definition rebound (l : layer D) (ids : list nat) (k : nat) (s : at_socket_t) (r : Z) (l' : layer D) : Prop :=
  (r = -1 ∧ ∃ ids', in_use l' (delete k ids ++ ids')) ∨
  (r = 0 ∧ ∃ j sj, (j ∉ delete k ids) ∧ in_use l' (delete k ids ++ [j]) ∧ socks l' !! j = Some sj ∧
     sock_state sj = AT_SOCKET_OPEN ∧ sock_type sj = sock_type s ∧
     descriptor sj = Z.of_nat (length ids) - 1 ∧
     at_get_socket (Z.of_nat k) l' = Ret (if decide (S k = length ids) then Some j else ids !! S k, l')).

Lemma lookup_moved {A} (ids : list A) (k : nat) j : (k < length ids)%nat →
  (delete k ids ++ [j]) !! k = if decide (S k = length ids) then Some j else ids !! S k.
Proof using.
  clear. intros Hk. assert (length (delete k ids) = (length ids - 1)%nat) as Hl.
  { apply length_delete, lookup_lt_is_Some. done. }
  destruct (decide (S k = length ids)) as [E|E].
  - rewrite lookup_app_r by lia. by replace (k - length (delete k ids))%nat with 0%nat by lia.
  - rewrite lookup_app_l by lia. by rewrite list_lookup_delete_ge by lia.
Qed.

Lemma wp_bind_other (l : layer D) ids k i s name :
  numbered l ids → ids !! k = Some i → socks l !! i = Some s → sin_addr name ≠ local_ipaddr (drv l) →
  wp (at_bind local_ipaddr at_device_get_by_ipaddr (Z.of_nat k) name) (rebound l ids k s) l.
Proof.
  intros Hnum Hk Hs Hne. pose proof (lookup_lt_Some _ _ _ Hk) as Hlt.
  pose proof (proj1 Hnum) as Hu. pose proof Hu as (Hl & H8 & _). pose proof (linked_length _ _ Hl) as Hlen.
  assert (INT32_MIN <= Z.of_nat k <= INT32_MAX) as Hr by (unfold INT32_MIN, INT32_MAX; lia).
  unfold at_bind. apply wp_bind. eapply wp_at_get_socket; [done..|].
  unfold at_position. rewrite (proj2 (Z.leb_le _ _)), Nat2Z.id, Hk by lia.
  apply wp_bind. eapply wp_get_sock; [done|]. apply wp_bind, wp_gets.
  rewrite (proj2 (Z.eqb_neq _ _) Hne). apply wp_bind.
  eapply wp_mono; [by eapply wp_closesocket|]. intros r l1 [(Hu1 & _) _].
  assert (∀ l', in_use l' (delete k ids) → rebound l ids k s (-1) l') as Hfail.
  { intros l' Hu'. left. split; [done|]. exists []. by rewrite app_nil_r. }
  case_if; [by apply wp_ret, Hfail|]. apply wp_bind, wp_gets.
  destruct (at_device_get_by_ipaddr _ _); cbn [negb]; [|by apply wp_ret, Hfail].
  apply wp_bind. eapply wp_mono; [by apply wp_take|]. intros [j|] l2.
  2: { intros [[Hu2 _]|(j & sj & _ & (Hu2 & _) & _)]; apply wp_ret; [by apply Hfail|].
       left. split; [done|]. by exists [j]. }
  intros (Hj & sj & Ha & Hd & _). apply wp_bind. eapply added_upd; [exact Ha|done| |].
  { pose proof Ha as (Hu2 & Hs2 & _). destruct (in_use_live _ _ j Hu2) as (s' & Hs' & Hlive);
      [apply elem_of_app; right; by left|]. by assert (s' = sj) as -> by congruence. }
  intros l3 (Hu3 & Hs3 & _) _. apply wp_ret. right. split; [done|]. exists j. eexists.
  split; [done|]. split; [exact Hu3|]. split; [exact Hs3|]. split_and!; [done|done| |].
  - cbn. rewrite Hd, length_delete by (by apply lookup_lt_is_Some). lia.
  - rewrite (get_socket _ _ _ Hu3 Hr). do 2 f_equal. unfold at_position.
    rewrite (proj2 (Z.leb_le _ _)), Nat2Z.id by lia. by apply lookup_moved.
Qed.
End options.

(** Binding.  A socket bound to the address of its device stays as it is.  Bound to
    another one it is closed, and when a device with that address is found a new socket of
    the same type is opened in its place at the end of the list; its number is not
    returned.  The caller's number stands for it only when the socket was the last one
    opened, and otherwise for the socket opened after the caller's. *)
Theorem at_bind_renumbers {D} `{DriverLaws D} local lookup (l : layer D) ids k i s name :
  numbered l ids → ids !! k = Some i → socks l !! i = Some s →
  (sin_addr name = local (drv l) → at_bind local lookup (Z.of_nat k) name l = Ret (0, l)) ∧
  (sin_addr name ≠ local (drv l) →
   wp (at_bind local lookup (Z.of_nat k) name) (rebound l ids k s) l).
Proof.
  intros Hnum Hk Hs. split; [|by eapply wp_bind_other]. intros Hn.
  pose proof (lookup_lt_Some _ _ _ Hk) as Hlt. pose proof (proj1 Hnum) as Hu.
  pose proof Hu as (Hl & H8 & _). pose proof (linked_length _ _ Hl) as Hlen.
  unfold at_bind, mbind, io_bind. rewrite (get_socket l ids) by (done || unfold INT32_MIN, INT32_MAX; lia).
  unfold at_position. rewrite (proj2 (Z.leb_le _ _)), Nat2Z.id, Hk by lia.
  unfold get_sock, gets. rewrite Hs. by rewrite Hn, Z.eqb_refl.
Qed.

Lemma at_bind_renumbers_witness :
  let name := MkAddr 0 5 in
  numbered one_socket [0%nat] ∧
  at_bind (λ _, 5) (λ _ _, true) 0 name one_socket = Ret (0, one_socket) ∧
  wp (at_bind (λ _, 7) (λ _ _, true) 0 name) (rebound one_socket [0%nat] 0 (tcp_socket AT_SOCKET_CONNECT)) one_socket.
Proof.
  intros name. pose proof one_socket_numbered as Hn. split; [exact Hn|].
  pose proof (λ local, at_bind_renumbers local (λ _ _, true) one_socket [0%nat] 0 0
    (tcp_socket AT_SOCKET_CONNECT) name Hn eq_refl eq_refl) as H. split.
  - exact (proj1 (H (λ _, 5)) eq_refl).
  - apply (proj2 (H (λ _, 7))). discriminate.
Defined.
