(* ===== verification/ClientServer.v ===== *)
(** The cloud client: applications/client_server.c.  One TCP connection, kept in the global
    [g_socket_id], opened, used and closed by the shell command [a9g] through the socket
    layer (AtLayer.v). *)

From S2P Require Import Prelude CLib Event AtClient AtSocket AtParser Netdev AtDevice AtLayer.

Definition IPPROTO_IP := 0.
Definition SERVER : cstr := bytes "47.100.28.6".
Definition SERVER_PORT := 8086.

Record app (D : Type) : Type := MkApp {
  sockets : layer D;
  g_socket_id : Z;
  console : list cstr }.
Arguments MkApp {D}.
Arguments sockets {D}. Arguments g_socket_id {D}. Arguments console {D}.
#[global] Instance app_eta {D} : Eta (app D) :=
  λ a, MkApp (sockets a) (g_socket_id a) (console a).

Section client.
Context {D : Type} `{SocketOps D}.
Variable patience : nat.

Definition on_layer {A} : io (layer D) A → io (app D) A :=
  zoom sockets (λ l a, a <| sockets := l |>).
Definition rt_kprintf (text : cstr) : io (app D) unit :=
  modify (λ a, a <| console := console a ++ [text] |>).
Definition rt_thread_delay (tick : Z) : io (app D) unit := on_layer (on_drv (sys_delay tick)).

Definition socket_create : io (app D) Z := on_layer (at_socket AF_INET SOCK_STREAM IPPROTO_IP).

Definition socket_connect (socket_id : Z) (remote_addr : cstr) (remote_port : Z) : io (app D) Z :=
  r ← on_layer (at_connect socket_id (MkAddr (htons remote_port) (netdev_ipaddr_addr remote_addr)));
  mret (if 0 =? r then RT_EOK else RT_ERROR).

Definition socket_close (socket_id : Z) : io (app D) Z :=
  r ← on_layer (at_closesocket socket_id);
  mret (if 0 =? r then RT_EOK else RT_ERROR).

Definition socket_send (socket_id : Z) (data_buf : list Z) : io (app D) Z :=
  on_layer (at_send socket_id data_buf 0).

Definition socket_receive (socket_id : Z) (data_len : nat) : io (app D) (Z * list Z) :=
  on_layer (at_recv patience socket_id data_len MSG_DONTWAIT).

(** The string an array holds, for the conversion %s: a fault without a terminator. *)
Definition array_text (a : list Z) : res cstr :=
  if bool_decide (NUL ∈ a) then Ret (take_while (λ c, negb (c =? NUL)) a) else Fault OutOfBounds.

(** A round of the receiving thread; [data_ptr] is zero at its beginning and end. *)
Definition receive_round : io (app D) unit :=
  g ← gets g_socket_id;
  r ← socket_receive g 384;
  (if 0 <? r.1 then
     let data_ptr := r.2 ++ replicate (384 - length r.2) NUL in
     text ← lift (array_text data_ptr);
     rt_kprintf (CRLF ++ bytes "Socket receive data is:" ++ CRLF ++ text ++ CRLF)
   else mret tt) ;;
  rt_thread_delay 1.

Fixpoint receive_aliot_http_process_thread (rounds : nat) : io (app D) unit :=
  match rounds with
  | O => mret tt
  | S rounds => receive_round ;; receive_aliot_http_process_thread rounds
  end.

Definition connect_aliot_http_device : io (app D) unit :=
  g ← gets g_socket_id;
  (if 0 <=? g then socket_close g ;; mret tt else mret tt) ;;
  socket_id ← socket_create;
  modify (λ a, a <| g_socket_id := socket_id |>) ;;
  if 0 <=? socket_id then
    r ← socket_connect socket_id SERVER SERVER_PORT;
    if RT_EOK =? r then rt_thread_delay 500 else mret tt
  else mret tt.

Definition disconnect_aliot_http_device : io (app D) unit :=
  g ← gets g_socket_id;
  r ← socket_close g;
  if RT_EOK =? r then rt_thread_delay 500 else mret tt.

Definition usage : list cstr :=
  map (λ t, t ++ [LF])
    [bytes "Usage:";
     bytes "a9g connect   - a9g connect to aliot http server";
     bytes "a9g post      - a9g post data stream to aliot http server";
     bytes "a9g get       - a9g get data stream from aliot http server";
     bytes "a9g close   " ++ [9] ++ bytes "- a9g close connection"].

Fixpoint print_all (texts : list cstr) : io (app D) unit :=
  match texts with
  | [] => mret tt
  | t :: texts => rt_kprintf t ;; print_all texts
  end.

(** The array [str] with its terminator. *)
Definition hello : list Z := bytes "hello RT-Thread" ++ [NUL].

Definition a9g (argv : list cstr) : io (app D) unit :=
  match argv with
  | _ :: cmd :: _ =>
      if str_eq cmd (bytes "connect") then connect_aliot_http_device
      else if str_eq cmd (bytes "post") then
        g ← gets g_socket_id;
        socket_send g hello ;;
        mret tt
      else if str_eq cmd (bytes "get") then mret tt
      else if str_eq cmd (bytes "close") then disconnect_aliot_http_device
      else rt_kprintf (bytes "Unknown command. Please enter 'a9g' for help" ++ [LF])
  | _ => print_all usage
  end.
End client.
