(* ===== verification/ClientSpec.v ===== *)
(** The cloud client over its whole life (ClientServer.v, AtLayer.v): the one socket it has
    through every sequence of its commands and of what the network does. *)

From S2P Require Import Prelude CLib Event AtClient AtSocket AtSocketSpec.
From S2P Require Import AtParser Netdev NetdevSpec AtDevice AtDeviceSpec AtLayer AtLayerSpec AtStream ClientServer.

(** * Operations that keep the numbers *)

Section numbers.
Context {D : Type} `{DriverLaws D}.
Implicit Types l : layer D.

(** A change of a socket in use that is invisible to the list. *)
Definition invisible_at (f : at_socket_t → at_socket_t) (s : at_socket_t) : Prop :=
  descriptor (f s) = descriptor s ∧ magic (f s) = magic s ∧ user_data (f s) = user_data s ∧
  (Forall pkt_ok (recvpkt_list s) → Forall pkt_ok (recvpkt_list (f s))) ∧ same_health s (f s).
Definition invisible (f : at_socket_t → at_socket_t) : Prop :=
  ∀ s, next (f s) = next s ∧ invisible_at f s.

(** Every entry has its semaphore and its lock, or not, as before. *)
Definition same_entries l l' : Prop :=
  ∀ j s, socks l !! j = Some s → ∃ s', socks l' !! j = Some s' ∧ same_health s s'.

Lemma same_entries_refl l : same_entries l l.
Proof. intros j s Hs. by exists s. Qed.

Lemma same_entries_trans l1 l2 l3 : same_entries l1 l2 → same_entries l2 l3 → same_entries l1 l3.
Proof.
  intros H1 H2 j s Hs. destruct (H1 j s Hs) as (s' & Hs' & Hh). destruct (H2 j s' Hs') as (s2 & Hs2 & Hh2).
  exists s2. split; [done|]. by eapply same_health_trans.
Qed.

(** The numbers [ids], with the entries as they are in [l]. *)
Definition numbered_as l (ids : list nat) l' : Prop := numbered l' ids ∧ same_entries l l'.

Lemma numbered_as_refl l ids : numbered l ids → numbered_as l ids l.
Proof. intros Hl. split; [done|apply same_entries_refl]. Qed.

Lemma numbered_alter l ids i f :
  i ∈ ids → (∀ s, next (f s) = next s) → (∀ s, socks l !! i = Some s → invisible_at f s) →
  numbered l ids → numbered_as l ids (l <| socks := alter f i (socks l) |>).
Proof.
  intros Hi Hx Hf [Hu Hk]. split; [split|].
  - apply in_use_alter; [done|exact Hx|]. intros s Hs. rewrite decide_True by done.
    intros (H1 & H2 & H3). destruct (Hf s Hs) as (_ & Hm & Hd & Hp & _). split_and!; [congruence|congruence|auto].
  - intros k j s' Hj Hs'. change (alter f i (socks l) !! j = Some s') in Hs'.
    destruct (decide (j = i)) as [->|Hne].
    + rewrite list_lookup_alter_eq in Hs'. destruct (socks l !! i) as [s|] eqn:E; [|done].
      cbn in Hs'. injection Hs' as <-. rewrite (proj1 (Hf s eq_refl)). by eapply Hk.
    + rewrite list_lookup_alter_ne in Hs' by done. by eapply Hk.
  - intros j s Hj. change (∃ s', alter f i (socks l) !! j = Some s' ∧ same_health s s').
    destruct (decide (j = i)) as [->|Hne].
    + exists (f s). split; [by rewrite list_lookup_alter_eq, Hj|by apply Hf].
    + exists s. by rewrite list_lookup_alter_ne.
Qed.

Lemma numbered_in_use l ids i s :
  numbered l ids → socks l !! i = Some s → magic s = AT_SOCKET_MAGIC → i ∈ ids.
Proof.
  intros [(_ & _ & Hs) _] Hi Hm. specialize (Hs _ _ Hi). destruct (decide (i ∈ ids)); [done|].
  by rewrite Hm in Hs.
Qed.

(** [m] ends with the numbers and entries as they were, or with a fault that satisfies
    [P]. *)
Definition keeps {A} (P : fault → Prop) (ids : list nat) (m : io (layer D) A) : Prop :=
  ∀ l, numbered l ids → wpf P m (λ _, numbered_as l ids) l.

Lemma keeps_bind {A B} P ids (m : io (layer D) A) (k : A → io (layer D) B) :
  keeps P ids m → (∀ a, keeps P ids (k a)) → keeps P ids (mbind k m).
Proof.
  intros Hm Hk l Hl. apply wpf_bind. eapply wpf_mono; [by apply Hm|]. intros a l' [Hl' He].
  eapply wpf_mono; [by apply Hk|]. intros b l2 [Hl2 He2]. split; [done|]. by eapply same_entries_trans.
Qed.

Lemma keeps_from {A} P ids (m : io (layer D) A) l l1 :
  keeps P ids m → numbered_as l ids l1 → wpf P m (λ _, numbered_as l ids) l1.
Proof.
  intros Hm [Hl He]. eapply wpf_mono; [by apply Hm|]. intros a l2 [Hl2 He2]. split; [done|].
  by eapply same_entries_trans.
Qed.

(** The state of the driver below does not matter. *)
Lemma numbered_as_drv l ids d : numbered l ids → numbered_as l ids (l <| drv := d |>).
Proof. intros Hl. split; [done|]. intros j s Hs. by exists s. Qed.

Lemma keeps_ret {A} P ids (a : A) : keeps P ids (mret a).
Proof. intros l Hl. by apply numbered_as_refl. Qed.

Lemma keeps_if {A} P ids (b : bool) (m1 m2 : io (layer D) A) :
  keeps P ids m1 → keeps P ids m2 → keeps P ids (if b then m1 else m2).
Proof. by destruct b. Qed.

Lemma keeps_upd P ids i f : i ∈ ids → invisible f → keeps P ids (upd_sock i f).
Proof. intros Hi Hf l Hl. apply wpf_modify. apply numbered_alter; [done|apply Hf|intros; apply Hf|done]. Qed.

Lemma wp_keeps {A} P (m : io (layer D) A) Q l : wp m Q l → wpf P m Q l.
Proof. unfold wp, wpf. by destruct (m l) as [[a l']|]. Qed.

Lemma keeps_drv {A} P ids (m : io D A) (R : A → D → D → Prop) :
  (∀ d, wp m (λ a d', R a d d') d) → keeps P ids (on_drv m).
Proof. intros Hm l Hl. apply wp_keeps. eapply wp_drv; [apply Hm|]. intros a d _. by apply numbered_as_drv. Qed.

(** The contents of a socket in use. *)
Lemma keeps_get {A} P ids i (k : at_socket_t → io (layer D) A) :
  i ∈ ids → (∀ s, live i s → keeps P ids (k s)) → keeps P ids (s ← get_sock i; k s).
Proof.
  intros Hi Hk l Hl. destruct (in_use_live _ _ _ (proj1 Hl) Hi) as (s & Hs & Hlive).
  apply wpf_bind, wp_keeps. eapply wp_get_sock; [done|]. by apply Hk.
Qed.

Lemma keeps_event P ids i ev plus : i ∈ ids → keeps P ids (at_do_event_changes i ev plus).
Proof. intros Hi. apply keeps_upd; [done|]. intros s. by destruct ev. Qed.
Lemma keeps_clean P ids i ev : i ∈ ids → keeps P ids (at_do_event_clean i ev).
Proof. intros Hi. apply keeps_upd; [done|]. intros s. by destruct ev. Qed.

Lemma live_data ids l i s : numbered l ids → live i s → i ∈ ids → 0 <= user_data s < 8.
Proof.
  intros [(Hl & Hn & _) _] (_ & -> & _) Hi. destruct Hl as [Hl _].
  destruct (seg_in _ _ _ _ _ Hl Hi) as [s' Hs']. apply lookup_lt_Some in Hs'. lia.
Qed.

Lemma keeps_connect P ids i name : i ∈ ids → keeps P ids (connect_socket i name).
Proof.
  intros Hi. unfold connect_socket. apply keeps_get; [done|]. intros s Hs l Hl.
  apply wpf_bind, wp_keeps. eapply wp_drv; [apply connect_law|].
  - by eapply live_data.
  - exact (dotted_length (sin_addr name)).
  - unfold HTONS_PORT, u16. apply Z.mod_pos_bound. lia.
  - intros r d _. case_if; [apply wpf_ret; by apply numbered_as_drv|].
    assert (keeps P ids (upd_sock i (λ s, s <| sock_state := AT_SOCKET_CONNECT |>) ;;
      on_drv (ops_set_event_cb AT_SOCKET_EVT_RECV (Some at_recv_notice_cb)) ;;
      on_drv (ops_set_event_cb AT_SOCKET_EVT_CLOSED (Some at_closed_notice_cb)) ;; mret true)) as Hk.
    { apply keeps_bind; [by apply keeps_upd|]. intros _.
      do 2 (apply keeps_bind; [eapply keeps_drv; intros; eapply wp_mono; [apply set_event_cb_law|by intros; exact I]|];
        intros _). apply keeps_ret. }
    eapply keeps_from; [exact Hk|]. by apply numbered_as_drv.
Qed.

(** From a number to the socket. *)
Lemma keeps_find {A} P ids socket (k : option nat → io (layer D) A) :
  INT32_MIN <= socket <= INT32_MAX → keeps P ids (k None) → (∀ i, i ∈ ids → keeps P ids (k (Some i))) →
  keeps P ids (sock ← at_get_socket socket; k sock).
Proof.
  intros Hr Hn Hk l Hl. apply wpf_bind. unfold wpf. rewrite (get_socket _ _ _ (proj1 Hl) Hr).
  unfold at_position. destruct (0 <=? socket); [|by apply Hn].
  destruct (ids !! Z.to_nat socket) as [i|] eqn:E; [|by apply Hn].
  apply Hk; [|done]. apply list_elem_of_lookup. eauto.
Qed.

Lemma keeps_at_connect P ids socket name :
  INT32_MIN <= socket <= INT32_MAX → keeps P ids (at_connect socket name).
Proof.
  intros Hr. apply keeps_find; [done|apply keeps_ret|]. intros i Hi.
  apply keeps_get; [done|]. intros s Hs. apply keeps_bind.
  { destruct (bool_decide _); [by apply keeps_connect|apply keeps_ret]. }
  intros ok. apply keeps_bind; [apply keeps_if; [by apply keeps_event|apply keeps_ret]|]. intros _.
  apply keeps_bind; [by apply keeps_event|]. intros _. apply keeps_ret.
Qed.

Lemma keeps_at_send P ids socket data flags :
  INT32_MIN <= socket <= INT32_MAX → keeps P ids (at_send socket data flags).
Proof.
  intros Hr. unfold at_send, at_sendto. destruct data as [|c data]; [apply keeps_ret|].
  apply keeps_find; [done|apply keeps_ret|]. intros i Hi.
  assert (keeps P ids (at_do_event_changes i AT_EVENT_ERROR true ;; mret (-1))) as Hfail.
  { apply keeps_bind; [by apply keeps_event|]. intros _. apply keeps_ret. }
  assert (keeps P ids (s ← get_sock i; n ← on_drv (ops_send (user_data s) (c :: data) (sock_type s));
    if n <? 0 then at_do_event_changes i AT_EVENT_ERROR true ;; mret (-1) else mret n)) as Hsend.
  { apply keeps_get; [done|]. intros s Hs l Hl. apply wpf_bind, wp_keeps.
    eapply wp_drv; [apply send_law; by eapply live_data|]. intros n d _.
    apply (numbered_as_drv _ _ d) in Hl. case_if; [by eapply keeps_from|by apply wpf_ret]. }
  apply keeps_get; [done|]. intros s Hs. apply keeps_if.
  - destruct (sock_state s); [exact Hfail|exact Hsend|exact Hfail|exact Hsend|apply keeps_ret].
  - apply keeps_if; [exact Hsend|exact Hfail].
Qed.

Lemma touched_numbered l l' ids i s s' :
  numbered l ids → socks l !! i = Some s → touched l l' ids i s s' → numbered_as l ids l'.
Proof.
  intros [Hu Hk] Hs (Hu' & Hs' & _ & Hd & Hh & Ho). split; [split; [done|]; intros k j sj Hj Hsj|].
  - destruct (decide (j = i)) as [->|Hne].
    + assert (sj = s') as -> by congruence. rewrite Hd. by eapply Hk.
    + rewrite Ho in Hsj by done. by eapply Hk.
  - intros j sj Hj. destruct (decide (j = i)) as [->|Hne].
    + exists s'. split; [done|]. by assert (sj = s) as -> by congruence.
    + exists sj. by rewrite Ho.
Qed.

Lemma keeps_at_recv P patience ids socket len :
  INT32_MIN <= socket <= INT32_MAX → keeps P ids (at_recv patience socket len MSG_DONTWAIT).
Proof.
  intros Hr l Hl. destruct (at_position ids socket) as [i|] eqn:E.
  - assert (i ∈ ids) as Hi.
    { unfold at_position in E. destruct (0 <=? socket); [|done]. apply list_elem_of_lookup. eauto. }
    destruct (in_use_live _ _ _ (proj1 Hl) Hi) as (s & Hs & _).
    apply wp_keeps. eapply wp_mono; [by eapply wp_at_recv; [apply Hl|..]|].
    intros r l' (_ & s' & Ht & _). by eapply touched_numbered.
  - unfold at_recv, at_recvfrom. destruct (len =? 0)%nat; [apply wpf_ret; by apply numbered_as_refl|].
    apply wpf_bind. unfold wpf. rewrite (get_socket _ _ _ (proj1 Hl) Hr), E. by apply numbered_as_refl.
Qed.

(** What the driver's callbacks do: a socket lost without memory has no semaphore, and a
    number the device does not have is no socket. *)
Definition arrival_fault (f : fault) : Prop := f = OutOfBounds ∨ f = NullDeref.

Lemma keeps_arrive ids a : keeps arrival_fault ids (arrive a).
Proof.
  assert (∀ i, i ∈ ids → keeps arrival_fault ids (release_notice i)) as Hrel.
  { intros i Hi l Hl. destruct (in_use_live _ _ _ (proj1 Hl) Hi) as (s & Hs & _).
    apply wpf_bind, wp_keeps. eapply wp_get_sock; [done|]. destruct (recv_notice s) eqn:E; [|by right].
    apply wpf_modify. apply numbered_alter; [done|done| |done]. intros s' Hs'.
    assert (s' = s) as -> by congruence. split_and!; [done..|]. split; [cbn; by rewrite E|done]. }
  assert (∀ i (m : io (layer D) unit), (i ∈ ids → keeps arrival_fault ids m) →
    keeps arrival_fault ids (s ← get_sock i; if negb (magic s =? AT_SOCKET_MAGIC) then mret tt else m)) as Hm.
  { intros i m Hm l Hl. apply wpf_bind. unfold wpf at 1, get_sock.
    destruct (socks l !! i) as [s|] eqn:E; [|by left].
    destruct (Z.eqb_spec (magic s) AT_SOCKET_MAGIC) as [E1|_]; cbn [negb]; [|by apply keeps_ret].
    apply Hm; [|done]. by eapply numbered_in_use. }
  destruct a as [i data|i]; apply Hm; intros Hi.
  - apply keeps_bind.
    { unfold at_recvpkt_put. apply keeps_bind; [eapply keeps_drv; apply calloc_law|].
      intros ok. apply keeps_if; [|apply keeps_ret].
      apply keeps_bind; [|intros _; apply keeps_ret]. apply keeps_upd; [done|].
      intros s. split; [done|]. do 3 (split; [done|]). split; [|done]. intros Hok. apply Forall_app. split; [done|].
      apply Forall_singleton. split; cbn; lia. }
    intros _. apply keeps_bind; [by apply Hrel|]. intros _. by apply keeps_event.
  - apply keeps_bind; [by apply keeps_event|]. intros _.
    apply keeps_bind; [by apply keeps_event|]. intros _.
    apply keeps_bind; [by apply keeps_upd|]. intros _. by apply Hrel.
Qed.

(** * The client *)

(** The entry [i] has its semaphore and its lock, or lacks one of them. *)
Definition complete l (i : nat) : Prop := ∃ s, socks l !! i = Some s ∧ ¬ broken s.
Definition incomplete l (i : nat) : Prop := ∃ s, socks l !! i = Some s ∧ broken s.

(** The client holds the last socket of the list, by its number ... *)
Definition holding (a : app D) (lost : list nat) : Prop :=
  ∃ i, numbered (sockets a) (lost ++ [i]) ∧ complete (sockets a) i ∧ g_socket_id a = Z.of_nat (length lost).
(** ... or none: its number is -1, or one beyond the list. *)
Definition idle (a : app D) (lost : list nat) : Prop :=
  numbered (sockets a) lost ∧ (g_socket_id a = -1 ∨ g_socket_id a = Z.of_nat (length lost)).

(** [lost] are entries nobody owns, left by allocations that failed half way: each of them
    lacks its semaphore or its lock. *)
Definition client_ok (a : app D) : Prop :=
  ∃ lost, Forall (incomplete (sockets a)) lost ∧ (holding a lost ∨ idle a lost).

(** What an entry lacks, it lacks in a state with the same entries. *)
Lemma broken_health s s' : same_health s s' → broken s ↔ broken s'.
Proof.
  intros [Hn Hl]. unfold broken. rewrite Hl, !eq_None_not_Some. by rewrite Hn.
Qed.
Lemma complete_same l l' i : same_entries l l' → complete l i → complete l' i.
Proof.
  intros He (s & Hs & Hb). destruct (He i s Hs) as (s' & Hs' & Hh). exists s'. split; [done|].
  by rewrite <- (broken_health s s' Hh).
Qed.
Lemma incomplete_same l l' lost : same_entries l l' → Forall (incomplete l) lost → Forall (incomplete l') lost.
Proof.
  intros He Hl. eapply Forall_impl; [exact Hl|]. intros i (s & Hs & Hb). destruct (He i s Hs) as (s' & Hs' & Hh).
  exists s'. split; [done|]. by rewrite <- (broken_health s s' Hh).
Qed.

(** Only the entry [i], which is not among [lost], changed its contents. *)
Lemma incomplete_others l l' lost i :
  i ∉ lost → others_kept l l' i → Forall (incomplete l) lost → Forall (incomplete l') lost.
Proof.
  intros Hi Ho Hl. rewrite Forall_forall in Hl |- *. intros j Hj. destruct (Hl j Hj) as (s & Hs & Hb).
  assert (j ≠ i) as Hne by (by intros ->). destruct (Ho j s Hne Hs) as (s' & Hs' & Hbody).
  exists s'. split; [done|]. unfold broken.
  by rewrite (body_field recv_notice _ _ (λ _, eq_refl) Hbody), (body_field recv_lock _ _ (λ _, eq_refl) Hbody).
Qed.

Lemma numbered_fresh l lost i : numbered l (lost ++ [i]) → i ∉ lost.
Proof.
  intros [((_ & Hn) & _) _] Hin. apply NoDup_app in Hn as (_ & Hd & _). apply (Hd i Hin). by left.
Qed.

Lemma wpf_layer {A} P (m : io (layer D) A) (R : A → layer D → Prop) Q (a : app D) :
  wpf P m R (sockets a) → (∀ r l, R r l → Q r (a <| sockets := l |>)) → wpf P (on_layer m) Q a.
Proof. unfold wpf, on_layer, zoom. destruct (m (sockets a)) as [[r l]|f]; auto. Qed.

Lemma client_range (a : app D) lost : holding a lost ∨ idle a lost →
  INT32_MIN <= g_socket_id a <= INT32_MAX ∧ (length lost <= 8)%nat.
Proof.
  intros Ha. assert (length lost <= 8)%nat as Hl.
  { destruct Ha as [(i & Hn & _)|[Hn _]]; pose proof (linked_length _ _ (proj1 (proj1 Hn))) as Hlen;
      pose proof (proj1 (proj2 (proj1 Hn))); [rewrite length_app in Hlen; cbn in Hlen|]; lia. }
  split; [|done]. unfold INT32_MIN, INT32_MAX.
  destruct Ha as [(i & _ & _ & ->)|[_ [-> | ->]]]; lia.
Qed.

(** A call that keeps the numbers, on the number of the client. *)
Lemma client_keeps {A} P (m : io (layer D) A) (a : app D) :
  client_ok a → (∀ ids, keeps P ids m) → wpf P (on_layer m) (λ _, client_ok) a.
Proof.
  intros (lost & Hlost & [(i & Hn & Hc & Hg)|[Hn Hg]]) Hm; (eapply wpf_layer; [by eapply Hm|]);
    intros r l [Hl He]; exists lost; (split; [by eapply incomplete_same|]).
  - left. exists i. split; [done|]. split; [by eapply complete_same|done].
  - right. by split.
Qed.

(** Closing leaves the client without a socket. *)
Lemma client_close P (a : app D) lost :
  Forall (incomplete (sockets a)) lost → holding a lost ∨ idle a lost →
  wpf P (socket_close (g_socket_id a)) (λ _ a', Forall (incomplete (sockets a')) lost ∧ idle a' lost ∧
    g_socket_id a' = g_socket_id a) a.
Proof.
  intros Hlost Ha. pose proof (client_range a lost Ha) as [Hr Hlen]. unfold socket_close. apply wpf_bind.
  eapply (wpf_layer _ _ (λ _ l', numbered l' lost ∧ Forall (incomplete l') lost)).
  - destruct Ha as [(i & Hn & _ & ->)|[Hn Hg]]; apply wp_keeps.
    + destruct (in_use_live _ _ i (proj1 Hn)) as (s & Hs & _); [apply elem_of_app; right; by left|].
      eapply wp_mono; [apply (wp_closesocket _ (lost ++ [i]) (length lost) i s); [done| |done]|].
      * by rewrite lookup_app_r, Nat.sub_diag by lia.
      * intros r l' [(_ & _ & Ho & _) Hk]. rewrite length_app in Hk. cbn in Hk.
        assert (delete (length lost) (lost ++ [i]) = lost) as Hd
          by (rewrite delete_take_drop, take_app_length, drop_ge by (rewrite length_app; cbn; lia); by rewrite app_nil_r).
        rewrite Hd in Hk. split; [apply Hk; lia|]. eapply incomplete_others; [by eapply numbered_fresh|exact Ho|done].
    + unfold at_closesocket. apply wp_bind. eapply wp_drv; [apply delay_law|]. intros [] d _.
      unfold at_shutdown. apply wp_bind. eapply wp_at_get_socket; [exact (proj1 Hn)|done|].
      assert (at_position lost (g_socket_id a) = None) as ->.
      { unfold at_position. destruct Hg as [-> | ->]; [done|]. case_if; [|done].
        rewrite Nat2Z.id. by apply lookup_ge_None_2. }
      by apply wp_ret.
  - intros r l [Hl Hc]. apply wpf_ret. split; [done|]. split; [|done]. split; [done|].
    change (g_socket_id (a <| sockets := l |>)) with (g_socket_id a).
    destruct Ha as [(i & _ & _ & ->)|[_ Hg]]; [by right|done].
Qed.

Lemma wp_sockets {A} P (m : io (layer D) A) Q (a : app D) :
  wp m (λ r l, Q r (a <| sockets := l |>)) (sockets a) → wpf P (on_layer m) Q a.
Proof. unfold wp, wpf, on_layer, zoom. by destruct (m (sockets a)) as [[r l]|f]. Qed.

(** What the client is after [at_socket], whose result is its number. *)
Lemma connected_ok l (a : app D) lost :
  Forall (incomplete l) lost → opened lost l (g_socket_id a) (sockets a) → client_ok a.
Proof.
  intros Hf [[Hg [[Hn Hs]|(i & s & Hi & Hn & Hs & Hb & Ho)]]|(i & s & Hi & Hn & Ho & Hg & Hs & Hopen)].
  - exists lost. split; [|right; split; [done|by left]]. eapply Forall_impl; [exact Hf|].
    intros i (s & Hi & Hb). exists s. by rewrite Hs.
  - exists (lost ++ [i]). split; [|right; split; [done|by left]]. apply Forall_app. split.
    + by eapply incomplete_others.
    + apply Forall_singleton. by exists s.
  - exists lost. split; [by eapply incomplete_others|]. left. exists i. split; [done|]. split; [|done].
    exists s. split; [done|]. destruct Hopen as (_ & _ & _ & Hrn & Hrl). intros [Hb|Hb]; congruence.
Qed.

Lemma client_connect P (a : app D) : client_ok a → wpf P connect_aliot_http_device (λ _, client_ok) a.
Proof.
  intros (lost & Hlost & Ha). unfold connect_aliot_http_device. apply wpf_bind, wpf_gets, wpf_bind.
  eapply wpf_mono with (Q := λ _ a', numbered (sockets a') lost ∧ Forall (incomplete (sockets a')) lost).
  { case_if.
    - apply wpf_bind. eapply wpf_mono; [by apply client_close|]. intros r a' (Hf & [Hn _] & _). by apply wpf_ret.
    - apply wpf_ret. destruct Ha as [(i & _ & _ & Hg)|[Hn _]]; [rewrite Hg in *; lia|done]. }
  intros _ a1 [Hn Hf]. apply wpf_bind. unfold socket_create. apply wp_sockets.
  eapply wp_mono; [by apply (wp_at_socket _ lost)|]. intros r l Ho. apply wpf_bind, wpf_modify.
  set (a2 := (a1 <| sockets := l |>) <| g_socket_id := r |>).
  assert (client_ok a2 ∧ INT32_MIN <= r <= INT32_MAX) as [Hok Hr].
  { assert (client_ok a2) as Hok.
    { by apply (connected_ok (sockets a1) a2 lost). }
    split; [done|]. destruct Hok as (lost' & _ & Hok). exact (proj1 (client_range a2 lost' Hok)). }
  destruct (0 <=? r); [|by apply wpf_ret]. unfold socket_connect. do 2 apply wpf_bind.
  eapply wpf_mono; [apply client_keeps; [exact Hok|]; intros ids; by apply keeps_at_connect|].
  intros z a3 Ha3. apply wpf_ret. case_if; [|by apply wpf_ret].
  apply client_keeps; [done|]. intros ids. eapply keeps_drv. intros d.
  eapply wp_mono; [apply delay_law|]. by intros; exact I.
Qed.

Lemma client_delay P tick (a : app D) : client_ok a → wpf P (rt_thread_delay tick) (λ _, client_ok) a.
Proof.
  intros Ha. apply client_keeps; [done|]. intros ids. eapply keeps_drv. intros d.
  eapply wp_mono; [apply delay_law|]. by intros; exact I.
Qed.

Lemma client_print P ts (a : app D) : client_ok a → wpf P (print_all ts) (λ _, client_ok) a.
Proof.
  revert a. induction ts as [|t ts IH]; intros a Ha; [by apply wpf_ret|].
  apply wpf_bind, wpf_modify. by apply IH.
Qed.

(** Every shell command ends, whatever its arguments. *)
Lemma client_command P argv (a : app D) : client_ok a → wpf P (a9g argv) (λ _, client_ok) a.
Proof.
  intros Ha. unfold a9g. destruct argv as [|c0 [|cmd argv]]; [by apply client_print..|].
  case_if; [by apply client_connect|]. case_if.
  { apply wpf_bind, wpf_gets, wpf_bind. unfold socket_send.
    eapply wpf_mono; [apply client_keeps; [done|]; intros ids; apply keeps_at_send|].
    - destruct Ha as (lost & _ & Ha). by apply (client_range a lost).
    - intros r a' Ha'. by apply wpf_ret. }
  case_if; [by apply wpf_ret|]. case_if; [|by apply wpf_modify].
  unfold disconnect_aliot_http_device. destruct Ha as (lost & Hlost & Ha).
  apply wpf_bind, wpf_gets, wpf_bind. eapply wpf_mono; [by apply client_close|].
  intros r a' (Hf & Hi & _). assert (client_ok a') as Ha' by (exists lost; split; [done|by right]).
  case_if; [by apply client_delay|by apply wpf_ret].
Qed.

Lemma client_round patience (a : app D) :
  client_ok a → wpf arrival_fault (receive_round patience) (λ _, client_ok) a.
Proof.
  intros Ha. unfold receive_round. apply wpf_bind, wpf_gets, wpf_bind. unfold socket_receive.
  eapply wpf_mono; [apply client_keeps; [done|]; intros ids; apply keeps_at_recv|].
  - destruct Ha as (lost & _ & Ha). by apply (client_range a lost).
  - intros r a' Ha'. apply wpf_bind.
    eapply wpf_mono with (Q := λ _, client_ok); [|intros _ a2 Ha2; by apply client_delay].
    case_if; [|by apply wpf_ret]. apply wpf_bind, wpf_lift.
    unfold array_text. destruct (bool_decide _); [|by left]. cbn [may_fault]. by apply wpf_modify.
Qed.

(** What happens to the client: a shell command, a round of the receiving thread, a
    callback of the driver. *)
Inductive client_event : Type :=
  | Shell (argv : list cstr)
  | Round
  | Incoming (a : arrival).

Definition client_step (patience : nat) (e : client_event) : io (app D) unit :=
  match e with
  | Shell argv => a9g argv
  | Round => receive_round patience
  | Incoming a => on_layer (arrive a)
  end.
Fixpoint client_life (patience : nat) (es : list client_event) : io (app D) unit :=
  match es with
  | [] => mret tt
  | e :: es => client_step patience e ;; client_life patience es
  end.
End numbers.

(** C22. The client has at most one socket, and its number.  From a client without a socket,
    through every sequence of shell commands with any arguments, rounds of the receiving
    thread and callbacks of the driver, the client holds the last socket of the list, one
    with its semaphore and its lock, under the number in [g_socket_id], or none; every other
    entry of the list lacks its semaphore or its lock, as only a failed allocation leaves it.
    Shell commands always end.  The faults on the way are those of a callback for a number
    the device does not have or for an entry without a semaphore, and a received block of
    384 bytes without a zero, which is printed as a string. *)
Theorem client_socket {D} `{DriverLaws D} patience (a : app D) es :
  client_ok a →
  (∀ argv, wp (a9g argv) (λ _, client_ok) a) ∧
  wpf arrival_fault (client_life patience es) (λ _, client_ok) a.
Proof.
  intros Ha. split.
  { intros argv. pose proof (client_command (λ _, False) argv a Ha) as Hw.
    unfold wp, wpf in *. by destruct (a9g argv a) as [[r a']|]. }
  revert a Ha. induction es as [|e es IH]; intros a Ha; [by apply wpf_ret|].
  apply wpf_bind. eapply wpf_mono with (Q := λ _, client_ok); [|intros r a' Ha'; by apply IH].
  destruct e as [argv| |x]; [by apply client_command|by apply client_round|].
  apply client_keeps; [done|]. intros ids. apply keeps_arrive.
Qed.

(** * Concrete runs *)

Definition client_off : app (device station) := MkApp no_sockets (-1) [].
Definition cmd (text : string) : client_event := Shell [bytes "a9g"; bytes text].

Lemma client_socket_witness :
  client_ok client_off ∧ wp (a9g [bytes "a9g"; bytes "connect"]) (λ _, client_ok) client_off ∧
  wpf arrival_fault (client_life 0 [cmd "connect"; Incoming (Received 0 [65]); Round; cmd "close"; cmd "close"])
    (λ _, client_ok) client_off.
Proof.
  assert (client_ok client_off) as H0.
  { exists []. split; [constructor|]. right. split; [exact no_sockets_numbered|by left]. }
  split; [exact H0|].
  destruct (client_socket 0 client_off [cmd "connect"; Incoming (Received 0 [65]); Round; cmd "close"; cmd "close"] H0)
    as [Hc Hl].
  split; [exact (Hc _)|exact Hl].
Defined.

(** Evaluated: the modem does not answer the connect, the socket stays open, "post" sends
    its 16 bytes all the same, and "close" keeps the number. *)
Example post_unconnected :
  match client_life 0 [cmd "connect"; cmd "post"; cmd "close"] client_off with
  | Ret (_, a) => g_socket_id a = 0 ∧ hello ∈ written (client (drv (sockets a))) ∧ length hello = 16%nat ∧
                  socket_list (sockets a) = None
  | Fault _ => False
  end.
Proof. vm_compute. split; [done|]. split; [|done]. repeat (first [by left|right]). Qed.

(** Another thread opens a socket after the client closed its own: it gets the number the
    client still has, and the client's next "close" is that socket's end. *)
Example closes_another :
  match (client_life 0 [cmd "connect"; cmd "close"] ;;
         other ← on_layer (at_socket AF_INET SOCK_STREAM 0);
         client_life 0 [cmd "close"] ;;
         found ← on_layer (at_get_socket other);
         mret (other, found)) client_off with
  | Ret ((other, found), _) => other = 0 ∧ found = None
  | Fault _ => False
  end.
Proof. vm_compute. done. Qed.

(** What the server sent is printed as a string: up to its first zero, and beyond the array
    when the 384 bytes hold none. *)
Example prints_to_the_zero :
  match client_life 0 [Incoming (Received 0 [65; 66; 0; 67]); Round] (MkApp one_socket 0 []) with
  | Ret (_, a) => console a = [CRLF ++ bytes "Socket receive data is:" ++ CRLF ++ [65; 66] ++ CRLF]
  | Fault _ => False
  end.
Proof. vm_compute. done. Qed.
Example prints_beyond :
  client_life 0 [Incoming (Received 0 (replicate 400 65)); Round] (MkApp one_socket 0 []) = Fault OutOfBounds.
Proof. vm_compute. done. Qed.
