(* ===== verification/Serial.v ===== *)
(** The serial port of the kernel in interrupt mode (components/drivers/serial/serial.c and
    the device calls of src/device.c): the receive buffer, which the interrupt fills and a
    thread empties, and the opening of the port.

    The configuration of the hardware, [ops->configure], and the allocator are parameters,
    and so is reading in the two modes that do not use the buffer.  The interrupt gets the
    characters [ops->getc] returns before -1; it answers whether the callback of the
    owner is called and with which length.  Sections with interrupts disabled are single
    steps. *)

From S2P Require Import Prelude Event.

Definition RT_EIO := 8.
Definition RT_DEVICE_FLAG_STANDALONE := 8.
Definition RT_DEVICE_FLAG_ACTIVATED := 16.
Definition RT_DEVICE_FLAG_STREAM := 64.
Definition RT_DEVICE_FLAG_INT_RX := 256.
Definition RT_DEVICE_FLAG_DMA_RX := 512.
Definition RT_DEVICE_FLAG_INT_TX := 1024.
Definition RT_DEVICE_FLAG_DMA_TX := 2048.
Definition RT_DEVICE_OFLAG_RDWR := 3.
Definition RT_DEVICE_OFLAG_OPEN := 8.
Definition RT_DEVICE_OFLAG_CLOSE := 0.

(** * The receive buffer *)

Record rt_serial_rx_fifo : Type := MkFifo {
  buffer : list Z; put_index : Z; get_index : Z; is_full : bool }.

(** [buffer[i] = c] and [buffer[i]]. *)
Definition set_byte (b : list Z) (i c : Z) : res (list Z) :=
  if (0 <=? i) && (i <? Z.of_nat (length b)) then Ret (<[Z.to_nat i := u8 c]> b)
  else Fault OutOfBounds.
Definition byte_at (b : list Z) (i : Z) : res Z :=
  if (0 <=? i) && (i <? Z.of_nat (length b)) then Ret (nth (Z.to_nat i) b 0)
  else Fault OutOfBounds.

(** [index += 1; if (index >= bufsz) index = 0;] on an rt_uint16_t. *)
Definition next_index (bufsz i : Z) : Z :=
  let i := u16 (i + 1) in if bufsz <=? i then 0 else i.

(** One character of the loop of the interrupt. *)
Definition fifo_put (bufsz : Z) (f : rt_serial_rx_fifo) (ch : Z) : res rt_serial_rx_fifo :=
  b ← set_byte (buffer f) (put_index f) ch;
  let put := next_index bufsz (put_index f) in
  Ret (if put =? get_index f then MkFifo b put (next_index bufsz (get_index f)) true
       else MkFifo b put (get_index f) (is_full f)).

(** One turn of the loop of [_serial_int_rx]; [None]: there is no data. *)
Definition fifo_get (bufsz : Z) (f : rt_serial_rx_fifo) : res (option (Z * rt_serial_rx_fifo)) :=
  if (get_index f =? put_index f) && negb (is_full f) then Ret None
  else
    ch ← byte_at (buffer f) (get_index f);
    Ret (Some (Z.land ch 255,
               MkFifo (buffer f) (put_index f) (next_index bufsz (get_index f)) false)).

Fixpoint _serial_int_rx (bufsz : Z) (f : rt_serial_rx_fifo) (length : nat) :
    res (list Z * rt_serial_rx_fifo) :=
  match length with
  | O => Ret ([], f)
  | S length =>
      r ← fifo_get bufsz f;
      match r with
      | None => Ret ([], f)
      | Some (ch, f) =>
          '(data, f) ← _serial_int_rx bufsz f length;
          Ret (ch :: data, f)
      end
  end.

Definition rx_length (bufsz : Z) (f : rt_serial_rx_fifo) : Z :=
  if get_index f <=? put_index f then put_index f - get_index f
  else bufsz - (get_index f - put_index f).

Fixpoint fifo_puts (bufsz : Z) (f : rt_serial_rx_fifo) (chars : list Z) : res rt_serial_rx_fifo :=
  match chars with
  | [] => Ret f
  | ch :: chars => f ← fifo_put bufsz f ch; fifo_puts bufsz f chars
  end.

(** * The device *)

Inductive serial_rx_t : Type :=
  | RxNull
  | RxFifo (f : rt_serial_rx_fifo)
  | RxDma.
Inductive serial_tx_t : Type := TxNull | TxFifo | TxDma.

Record serial_configure : Type := MkConfigure { baud_rate : Z; bufsz : Z }.

Record rt_serial_device : Type := MkSerial {
  dev_flag : Z; open_flag : Z; ref_count : Z; rx_indicate : bool;
  config : serial_configure; serial_rx : serial_rx_t; serial_tx : serial_tx_t;
  rx_irq : bool }.
#[global] Instance rt_serial_device_eta : Eta rt_serial_device := λ s,
  MkSerial (dev_flag s) (open_flag s) (ref_count s) (rx_indicate s) (config s)
    (serial_rx s) (serial_tx s) (rx_irq s).

(** RT_SERIAL_EVENT_RX_IND: [Some n] when [rx_indicate] is called with the length [n].
    Without a buffer the assertion fails (the structure of the DMA mode is not a buffer
    either). *)
Definition rt_hw_serial_isr (s : rt_serial_device) (chars : list Z) :
    res (option Z * rt_serial_device) :=
  match serial_rx s with
  | RxFifo f =>
      f ← fifo_puts (bufsz (config s)) f chars;
      let n := rx_length (bufsz (config s)) f in
      Ret (if rx_indicate s && negb (n =? 0) then Some n else None,
           s <| serial_rx := RxFifo f |>)
  | _ => Fault AssertFailed
  end.

Section device.
(** [ops->configure], by the number of the call; the two allocations of an opening; the
    other modes of reading. *)
Variable configure : nat → bool.
Variable rt_malloc : nat → bool.
Variable other_read : rt_serial_device → nat → res (list Z * rt_serial_device).

Definition rt_device_set_rx_indicate (s : rt_serial_device) : Z * rt_serial_device :=
  (RT_EOK, s <| rx_indicate := true |>).

Definition rt_serial_init (k : nat) (s : rt_serial_device) : Z * rt_serial_device :=
  (if configure k then RT_EOK else - RT_ERROR,
   s <| serial_rx := RxNull |> <| serial_tx := TxNull |>).

(** The interrupt of the receiver is enabled by [RT_DEVICE_CTRL_SET_INT]. *)
Definition open_rx (oflag : Z) (s : rt_serial_device) : res rt_serial_device :=
  match serial_rx s with
  | RxNull =>
      let fifo := RxFifo (MkFifo (replicate (Z.to_nat (bufsz (config s))) 0) 0 0 false) in
      if flag oflag RT_DEVICE_FLAG_INT_RX then
        if rt_malloc 0 then
          Ret (s <| serial_rx := fifo |>
                 <| open_flag := Z.lor (open_flag s) RT_DEVICE_FLAG_INT_RX |>
                 <| rx_irq := true |>)
        else Fault AssertFailed
      else if flag oflag RT_DEVICE_FLAG_DMA_RX then
        if rt_malloc 0 then
          Ret (s <| serial_rx := if bufsz (config s) =? 0 then RxDma else fifo |>
                 <| open_flag := Z.lor (open_flag s) RT_DEVICE_FLAG_DMA_RX |>)
        else Fault AssertFailed
      else Ret s
  | _ =>
      Ret (if flag oflag RT_DEVICE_FLAG_INT_RX then
             s <| open_flag := Z.lor (open_flag s) RT_DEVICE_FLAG_INT_RX |>
           else if flag oflag RT_DEVICE_FLAG_DMA_RX then
             s <| open_flag := Z.lor (open_flag s) RT_DEVICE_FLAG_DMA_RX |>
           else s)
  end.

Definition open_tx (oflag : Z) (s : rt_serial_device) : res rt_serial_device :=
  match serial_tx s with
  | TxNull =>
      if flag oflag RT_DEVICE_FLAG_INT_TX then
        if rt_malloc 1 then
          Ret (s <| serial_tx := TxFifo |>
                 <| open_flag := Z.lor (open_flag s) RT_DEVICE_FLAG_INT_TX |>)
        else Fault AssertFailed
      else if flag oflag RT_DEVICE_FLAG_DMA_TX then
        if rt_malloc 1 then
          Ret (s <| serial_tx := TxDma |>
                 <| open_flag := Z.lor (open_flag s) RT_DEVICE_FLAG_DMA_TX |>)
        else Fault AssertFailed
      else Ret s
  | _ =>
      Ret (if flag oflag RT_DEVICE_FLAG_INT_TX then
             s <| open_flag := Z.lor (open_flag s) RT_DEVICE_FLAG_INT_TX |>
           else if flag oflag RT_DEVICE_FLAG_DMA_TX then
             s <| open_flag := Z.lor (open_flag s) RT_DEVICE_FLAG_DMA_TX |>
           else s)
  end.

(** A mode is asked for that the device does not have. *)
Definition lacks (oflag mode : Z) (s : rt_serial_device) : bool :=
  flag oflag mode && negb (flag (dev_flag s) mode).

Definition rt_serial_open (s : rt_serial_device) (oflag : Z) : res (Z * rt_serial_device) :=
  if lacks oflag RT_DEVICE_FLAG_DMA_RX s || lacks oflag RT_DEVICE_FLAG_DMA_TX s
     || lacks oflag RT_DEVICE_FLAG_INT_RX s || lacks oflag RT_DEVICE_FLAG_INT_TX s
  then Ret (- RT_EIO, s)
  else
    let stream_flag := if flag oflag RT_DEVICE_FLAG_STREAM || flag (open_flag s) RT_DEVICE_FLAG_STREAM
                       then RT_DEVICE_FLAG_STREAM else 0 in
    let s := s <| open_flag := Z.land oflag 255 |> in
    s ← open_rx oflag s;
    s ← open_tx oflag s;
    Ret (RT_EOK, s <| open_flag := Z.lor (open_flag s) stream_flag |>).

(** [rt_device_open]; [ref_count] is an rt_uint8_t. *)
Definition rt_device_open (k : nat) (s : rt_serial_device) (oflag : Z) :
    res (Z * rt_serial_device) :=
  let '(result, s) :=
    if flag (dev_flag s) RT_DEVICE_FLAG_ACTIVATED then (RT_EOK, s)
    else
      let '(result, s) := rt_serial_init k s in
      if result =? RT_EOK
      then (RT_EOK, s <| dev_flag := Z.lor (dev_flag s) RT_DEVICE_FLAG_ACTIVATED |>)
      else (result, s) in
  if negb (result =? RT_EOK) then Ret (result, s)
  else if flag (dev_flag s) RT_DEVICE_FLAG_STANDALONE && flag (open_flag s) RT_DEVICE_OFLAG_OPEN
  then Ret (- RT_EBUSY, s)
  else
    '(result, s) ← rt_serial_open s oflag;
    if negb (result =? RT_EOK) then Ret (result, s)
    else
      let s := s <| open_flag := Z.lor (open_flag s) RT_DEVICE_OFLAG_OPEN |>
                 <| ref_count := u8 (ref_count s + 1) |> in
      if ref_count s =? 0 then Fault AssertFailed else Ret (result, s).

(** [rt_device_control] with RT_DEVICE_CTRL_CONFIG; of an open port the hardware is
    configured as well, and the result of that is ignored. *)
Definition rt_serial_control (s : rt_serial_device) (c : serial_configure) :
    Z * rt_serial_device :=
  if negb (bufsz c =? bufsz (config s)) && negb (ref_count s =? 0) then (RT_EBUSY, s)
  else (RT_EOK, s <| config := c |>).

(** The characters read, as many as [rt_device_read] returns. *)
Definition rt_serial_read (s : rt_serial_device) (size : nat) : res (list Z * rt_serial_device) :=
  match size with
  | O => Ret ([], s)
  | _ =>
      if flag (open_flag s) RT_DEVICE_FLAG_INT_RX then
        match serial_rx s with
        | RxFifo f =>
            '(data, f) ← _serial_int_rx (bufsz (config s)) f size;
            Ret (data, s <| serial_rx := RxFifo f |>)
        | _ => Fault AssertFailed
        end
      else other_read s size
  end.

Definition rt_device_read (s : rt_serial_device) (size : nat) : res (list Z * rt_serial_device) :=
  if ref_count s =? 0 then Ret ([], s) else rt_serial_read s size.

(** [rt_free] of the receive structure and CLR_INT; a port in neither mode has none. *)
Definition close_rx (s : rt_serial_device) : res rt_serial_device :=
  let mode := if flag (open_flag s) RT_DEVICE_FLAG_INT_RX then RT_DEVICE_FLAG_INT_RX
              else if flag (open_flag s) RT_DEVICE_FLAG_DMA_RX then RT_DEVICE_FLAG_DMA_RX else 0 in
  if mode =? 0 then Ret s
  else match serial_rx s with
  | RxNull => Fault AssertFailed
  | _ => Ret (s <| serial_rx := RxNull |> <| open_flag := Z.ldiff (open_flag s) mode |>
                <| rx_irq := false |>)
  end.

Definition close_tx (s : rt_serial_device) : res rt_serial_device :=
  let mode := if flag (open_flag s) RT_DEVICE_FLAG_INT_TX then RT_DEVICE_FLAG_INT_TX
              else if flag (open_flag s) RT_DEVICE_FLAG_DMA_TX then RT_DEVICE_FLAG_DMA_TX else 0 in
  if mode =? 0 then Ret s
  else match serial_tx s with
  | TxNull => Fault AssertFailed
  | _ => Ret (s <| serial_tx := TxNull |> <| open_flag := Z.ldiff (open_flag s) mode |>)
  end.

Definition rt_serial_close (s : rt_serial_device) : res (Z * rt_serial_device) :=
  if 1 <? ref_count s then Ret (RT_EOK, s)
  else s ← close_rx s; s ← close_tx s; Ret (RT_EOK, s).

Definition rt_device_close (s : rt_serial_device) : res (Z * rt_serial_device) :=
  if ref_count s =? 0 then Ret (- RT_ERROR, s)
  else
    let s := s <| ref_count := ref_count s - 1 |> in
    if negb (ref_count s =? 0) then Ret (RT_EOK, s)
    else
      '(result, s) ← rt_serial_close s;
      Ret (result, if result =? RT_EOK then s <| open_flag := RT_DEVICE_OFLAG_CLOSE |> else s).

(** * Writing *)

(** [_serial_poll_tx]: the characters that go out, in the order of [ops->putc]. *)
Definition _serial_poll_tx (stream : bool) (data : list Z) : list Z :=
  data ≫= λ c, if (c =? 10) && stream then [13; c] else [c].

(** [stm32_putc] of the driver waits until the character is out; its result is never -1. *)
Definition stm32_putc (c : Z) : Z * list Z := (1, [c]).

(** [_serial_int_tx]; nobody ends the wait after a refused character, as the driver does
    not raise RT_SERIAL_EVENT_TX_DONE. *)
Fixpoint _serial_int_tx (data : list Z) : res (list Z) :=
  match data with
  | [] => Ret []
  | c :: data =>
      let '(r, sent) := stm32_putc c in
      if r =? -1 then Fault Blocked else rest ← _serial_int_tx data; Ret (sent ++ rest)
  end.

(** [rt_serial_write]; [ops->dma_transmit] of this driver is null. *)
Definition rt_serial_write (s : rt_serial_device) (data : list Z) : res (list Z) :=
  match data with
  | [] => Ret []
  | _ =>
      if flag (open_flag s) RT_DEVICE_FLAG_INT_TX then
        match serial_tx s with TxNull => Fault AssertFailed | _ => _serial_int_tx data end
      else if flag (open_flag s) RT_DEVICE_FLAG_DMA_TX then Fault NullDeref
      else Ret (_serial_poll_tx (flag (open_flag s) RT_DEVICE_FLAG_STREAM) data)
  end.

(** [rt_device_write]: the size returned and the characters. *)
Definition rt_device_write (s : rt_serial_device) (data : list Z) : res (Z * list Z) :=
  if ref_count s =? 0 then Ret (0, [])
  else out ← rt_serial_write s data; Ret (Z.of_nat (length data), out).

End device.
