(* ===== verification/SerialSpec.v ===== *)
(** The receive buffer (Serial.v) as a queue that keeps the last [bufsz - 1] characters. *)

From S2P Require Import Prelude Event Serial.

(** The last [k] elements of a list. *)
Definition keep {A} (k : nat) (l : list A) : list A := drop (length l - k) l.

Lemma keep_all {A} k (l : list A) : (length l <= k)%nat → keep k l = l.
Proof. intros H. unfold keep. by replace (length l - k)%nat with 0%nat by lia. Qed.

Lemma keep_length {A} k (l : list A) : length (keep k l) = (length l `min` k)%nat.
Proof. unfold keep. rewrite length_drop. lia. Qed.

Lemma keep_keep_app {A} k (l m : list A) : keep k (keep k l ++ m) = keep k (l ++ m).
Proof.
  unfold keep. rewrite !length_app, length_drop.
  destruct (decide (length l <= k)%nat) as [H|H].
  { replace (length l - k)%nat with 0%nat by lia. by rewrite Nat.sub_0_r. }
  rewrite <- drop_app_le by lia. rewrite drop_drop. f_equal. lia.
Qed.

(** Indices one step around the buffer. *)
Lemma wrap_cases size x : - size <= x < 2 * size →
  x mod size = x ∧ 0 <= x < size ∨ x mod size = x - size ∧ size <= x
  ∨ x mod size = x + size ∧ x < 0.
Proof.
  intros H. destruct (decide (x < 0)); [right; right|destruct (decide (x < size)); [left|right; left]].
  - split; [|done]. rewrite <- (Z.mod_add x 1) by lia. rewrite Z.mod_small; lia.
  - split; [|lia]. apply Z.mod_small. lia.
  - split; [|lia]. rewrite <- (Z.mod_add x (-1)) by lia. rewrite Z.mod_small; lia.
Qed.

Ltac wraps :=
  repeat match goal with
  | |- context [?x mod ?size] =>
      lazymatch x with context [_ mod _] => fail | _ => idtac end;
      destruct (wrap_cases size x ltac:(lia)) as [[-> ?]|[[-> ?]|[-> ?]]]
  end; try lia.

(** [n] characters from the index [g] on, around the end of the buffer. *)
Definition ring (size : Z) (b : list Z) (g : Z) (n : nat) : list Z :=
  (λ i : nat, nth (Z.to_nat ((g + Z.of_nat i) mod size)) b 0) <$> seq 0 n.

Definition fill (size : Z) (f : rt_serial_rx_fifo) : nat :=
  Z.to_nat ((put_index f - get_index f) mod size).
Definition content (size : Z) (f : rt_serial_rx_fifo) : list Z :=
  ring size (buffer f) (get_index f) (fill size f).

(** The invariant: two equal indices mean that there is nothing. *)
Record fifo_ok (size : Z) (f : rt_serial_rx_fifo) : Prop := {
  ok_size : 2 <= size < 65536;
  ok_length : Z.of_nat (length (buffer f)) = size;
  ok_put : 0 <= put_index f < size;
  ok_get : 0 <= get_index f < size;
  ok_empty : put_index f = get_index f → is_full f = false;
  ok_bytes : Forall is_byte (buffer f) }.

Lemma ring_length size b g n : length (ring size b g n) = n.
Proof. unfold ring. by rewrite length_fmap, length_seq. Qed.

Lemma ring_cons size b g n :
  2 <= size → 0 <= g < size →
  ring size b g (S n) = nth (Z.to_nat g) b 0 :: ring size b ((g + 1) mod size) n.
Proof.
  intros Hs Hg. unfold ring. cbn [seq fmap list_fmap].
  rewrite Z.add_0_r, (Z.mod_small g) by lia. f_equal.
  rewrite <- fmap_S_seq, <- list_fmap_compose. apply list_fmap_ext. intros ? i _. cbn.
  rewrite Z.add_mod_idemp_l by lia. do 3 f_equal. lia.
Qed.

Lemma ring_snoc size b g n c :
  2 <= size → 0 <= g < size → Z.of_nat (length b) = size → Z.of_nat n < size →
  ring size (<[Z.to_nat ((g + Z.of_nat n) mod size) := c]> b) g (S n) = ring size b g n ++ [c].
Proof.
  intros Hs Hg Hb Hn. unfold ring. rewrite seq_S, fmap_app. cbn [fmap list_fmap Nat.add]. f_equal.
  - apply list_fmap_ext. intros i ? [-> Hi]%lookup_seq. cbn.
    rewrite !nth_lookup, list_lookup_insert_ne; [done|].
    intros E. apply Z2Nat.inj in E; [|apply Z.mod_pos_bound; lia..].
    revert E. wraps.
  - f_equal. rewrite nth_lookup, list_lookup_insert_eq; [done|].
    pose proof (Z.mod_pos_bound (g + Z.of_nat n) size). lia.
Qed.

Lemma next_index_mod size i : 2 <= size < 65536 → 0 <= i < size → next_index size i = (i + 1) mod size.
Proof.
  intros Hs Hi. unfold next_index. rewrite u16_small by lia. case_if.
  - replace (i + 1) with size by lia. by rewrite Z.mod_same by lia.
  - by rewrite Z.mod_small by lia.
Qed.

Lemma fill_put size f :
  fifo_ok size f → (get_index f + Z.of_nat (fill size f)) mod size = put_index f.
Proof. intros []. unfold fill. rewrite Z2Nat.id by (apply Z.mod_pos_bound; lia). wraps. Qed.

Lemma fill_lt size f : fifo_ok size f → Z.of_nat (fill size f) < size.
Proof. intros []. unfold fill. rewrite Z2Nat.id; pose proof (Z.mod_pos_bound (put_index f - get_index f) size); lia. Qed.

Lemma content_length size f : length (content size f) = fill size f.
Proof. apply ring_length. Qed.

Lemma content_lt size f : fifo_ok size f → Z.of_nat (length (content size f)) < size.
Proof. rewrite content_length. apply fill_lt. Qed.

Lemma content_nil size f : fifo_ok size f → content size f = [] ↔ put_index f = get_index f.
Proof.
  intros Hf. rewrite <- length_zero_iff_nil, content_length. pose proof (fill_put _ _ Hf) as E.
  destruct Hf. split; intros H.
  - rewrite H, Z.add_0_r, Z.mod_small in E by lia. done.
  - unfold fill. by rewrite H, Z.sub_diag.
Qed.

(** Writing a character. *)
Lemma fifo_put_content size f c :
  fifo_ok size f →
  ∃ f', fifo_put size f c = Ret f' ∧ fifo_ok size f' ∧
    content size f' = keep (Z.to_nat (size - 1)) (content size f ++ [u8 c]).
Proof.
  intros Hf. pose proof (fill_lt _ _ Hf) as Hn. pose proof (fill_put _ _ Hf) as Hp.
  pose proof Hf as [Hs Hb Hput Hget He Hbytes].
  unfold fifo_put, set_byte.
  replace ((0 <=? put_index f) && (put_index f <? Z.of_nat (length (buffer f)))) with true
    by (symmetry; apply andb_true_iff; rewrite Z.leb_le, Z.ltb_lt; lia).
  rewrite res_bind_ret, !next_index_mod by lia.
  pose proof (ring_snoc size (buffer f) (get_index f) (fill size f) (u8 c)) as Hsn.
  rewrite Hp in Hsn. specialize (Hsn ltac:(lia) Hget Hb Hn).
  assert (∀ b', length (<[Z.to_nat (put_index f) := b']> (buffer f)) = length (buffer f)) as Hl
    by (intros; apply length_insert).
  case_if.
  - eexists. split; [done|]. split.
    { split; cbn; try rewrite Hl; try lia; try (apply Z.mod_pos_bound; lia);
        try (by apply Forall_insert; [|apply u8_byte]).
      intros H. exfalso. revert H E. wraps. }
    unfold content at 1. unfold fill at 1. cbn [buffer get_index put_index].
    assert (fill size f = Z.to_nat (size - 1)) as Hfill.
    { unfold fill. f_equal. revert E. wraps. }
    replace (Z.to_nat (((put_index f + 1) mod size - (get_index f + 1) mod size) mod size))
      with (fill size f) by (rewrite Hfill; f_equal; revert E; wraps).
    unfold content. rewrite <- Hsn, ring_cons by lia. unfold keep. cbn [length].
    rewrite ring_length, Hfill.
    by replace (S (Z.to_nat (size - 1)) - Z.to_nat (size - 1))%nat with 1%nat by lia.
  - eexists. split; [done|]. split.
    { split; cbn; try rewrite Hl; try lia; try (apply Z.mod_pos_bound; lia).
      by apply Forall_insert; [|apply u8_byte]. }
    unfold content at 1. unfold fill at 1. cbn [buffer get_index put_index].
    replace (Z.to_nat (((put_index f + 1) mod size - get_index f) mod size)) with (S (fill size f))
      by (unfold fill; revert E; wraps).
    rewrite Hsn, keep_all; [done|]. rewrite length_app, content_length. cbn [length].
    unfold fill. revert E. wraps.
Qed.

Lemma fifo_puts_content size f chars :
  fifo_ok size f →
  ∃ f', fifo_puts size f chars = Ret f' ∧ fifo_ok size f' ∧
    content size f' = keep (Z.to_nat (size - 1)) (content size f ++ (u8 <$> chars)).
Proof.
  revert f. induction chars as [|c chars IH]; intros f Hf; cbn [fifo_puts].
  - exists f. split_and!; [done..|]. rewrite app_nil_r, keep_all; [done|].
    pose proof (content_lt _ _ Hf). lia.
  - destruct (fifo_put_content size f c Hf) as (f1 & -> & Hf1 & E1).
    destruct (IH f1 Hf1) as (f2 & H2 & Hf2 & E2). exists f2. split_and!; [done..|].
    rewrite E2, E1, keep_keep_app, <- app_assoc. done.
Qed.

(** Reading a character. *)
Lemma fifo_get_content size f :
  fifo_ok size f →
  match content size f with
  | [] => fifo_get size f = Ret None
  | c :: rest => ∃ f', fifo_get size f = Ret (Some (c, f')) ∧ fifo_ok size f' ∧
                   content size f' = rest
  end.
Proof.
  intros Hf. pose proof (content_nil _ _ Hf) as Hnil. pose proof Hf as [Hs Hb Hput Hget He Hbytes].
  unfold fifo_get. destruct (content size f) as [|c rest] eqn:Ec.
  - destruct Hnil as [Hnil _]. specialize (Hnil eq_refl). rewrite He by done.
    by rewrite Hnil, Z.eqb_refl.
  - assert (put_index f ≠ get_index f) as Hne by (intros E; by apply Hnil in E).
    decide_if (get_index f =? put_index f) false. cbn [andb].
    unfold byte_at. replace ((0 <=? get_index f) && (get_index f <? Z.of_nat (length (buffer f)))) with true
      by (symmetry; apply andb_true_iff; rewrite Z.leb_le, Z.ltb_lt; lia).
    rewrite res_bind_ret, next_index_mod by lia.
    assert (fill size f = S (Z.to_nat ((put_index f - (get_index f + 1) mod size) mod size))) as Hfill
      by (unfold fill; revert Hne; wraps).
    revert Ec. unfold content at 1. rewrite Hfill, ring_cons by lia. intros [= <- <-].
    assert (is_byte (nth (Z.to_nat (get_index f)) (buffer f) 0)) as Hbyte.
    { rewrite Forall_forall in Hbytes. apply Hbytes, list_elem_of_In, nth_In. lia. }
    change 255 with (Z.ones 8). rewrite Z.land_ones by lia.
    rewrite (Z.mod_small (nth _ _ _)) by (unfold is_byte in Hbyte; lia).
    eexists. split_and!; [done| |done].
    split; cbn; try lia; try (apply Z.mod_pos_bound; lia); done.
Qed.

Lemma rx_length_content size f :
  fifo_ok size f → rx_length size f = Z.of_nat (length (content size f)).
Proof.
  intros []. rewrite content_length. unfold rx_length, fill.
  rewrite Z2Nat.id by (apply Z.mod_pos_bound; lia). case_if; wraps.
Qed.

(** * Opening and closing *)

Lemma flag_testbit x k : 0 <= k → flag x (2 ^ k) = Z.testbit x k.
Proof.
  intros Hk. unfold flag. destruct (Z.testbit x k) eqn:E.
  - apply negb_true_iff, Z.eqb_neq. intros H. apply (f_equal (λ z, Z.testbit z k)) in H.
    by rewrite Z.land_spec, E, Z.pow2_bits_true, Z.bits_0 in H.
  - apply negb_false_iff, Z.eqb_eq. apply Z.bits_inj'. intros i Hi.
    rewrite Z.land_spec, Z.bits_0. destruct (Z.eq_dec i k) as [->|]; [by rewrite E|].
    rewrite Z.pow2_bits_false by done. apply andb_false_r.
Qed.

(** The four modes are single bits. *)
Lemma mode_bits x :
  flag x RT_DEVICE_FLAG_INT_RX = Z.testbit x 8 ∧ flag x RT_DEVICE_FLAG_DMA_RX = Z.testbit x 9 ∧
  flag x RT_DEVICE_FLAG_INT_TX = Z.testbit x 10 ∧ flag x RT_DEVICE_FLAG_DMA_TX = Z.testbit x 11.
Proof.
  split_and!; [apply (flag_testbit x 8)|apply (flag_testbit x 9)|apply (flag_testbit x 10)|apply (flag_testbit x 11)]; lia.
Qed.

(** Nobody has the port open. *)
Definition closed (s : rt_serial_device) : Prop :=
  ref_count s = 0 ∧
  (flag (dev_flag s) RT_DEVICE_FLAG_ACTIVATED = true → serial_rx s = RxNull ∧ serial_tx s = TxNull).

(** The structures of the two directions exist exactly when their mode is set. *)
Record modes_ok (s : rt_serial_device) : Prop := {
  rx_mode : serial_rx s = RxNull ↔ Z.testbit (open_flag s) 8 = false ∧ Z.testbit (open_flag s) 9 = false;
  tx_mode : serial_tx s = TxNull ↔ Z.testbit (open_flag s) 10 = false ∧ Z.testbit (open_flag s) 11 = false }.


Lemma lor_bit x k i : 0 <= k → 0 <= i → Z.testbit (Z.lor x (2 ^ k)) i = Z.testbit x i || (i =? k).
Proof.
  intros Hk Hi. rewrite Z.lor_spec. f_equal. destruct (Z.eqb_spec i k) as [->|].
  - by apply Z.pow2_bits_true.
  - apply Z.pow2_bits_false. lia.
Qed.

Section open_close.
Context (configure rt_malloc : nat → bool).

Lemma open_rx_null oflag s : serial_rx s = RxNull →
  match open_rx rt_malloc oflag s with
  | Fault _ => True
  | Ret s' => s' = s ∨ ∃ r k irq, r ≠ RxNull ∧ (k = 8 ∨ k = 9) ∧
      s' = s <| serial_rx := r |> <| open_flag := Z.lor (open_flag s) (2 ^ k) |> <| rx_irq := irq |>
  end.
Proof.
  intros Hr. unfold open_rx. rewrite Hr. repeat case_if; auto; right.
  - by eexists _, 8, true; split; [|split; [left|reflexivity]].
  - exists RxDma, 9, (rx_irq s). split; [done|]. split; [by right|]. by destruct s.
  - eexists (RxFifo _), 9, (rx_irq s). split; [done|]. split; [by right|]. by destruct s.
Qed.

Lemma open_tx_null oflag s : serial_tx s = TxNull →
  match open_tx rt_malloc oflag s with
  | Fault _ => True
  | Ret s' => s' = s ∨ ∃ r k, r ≠ TxNull ∧ (k = 10 ∨ k = 11) ∧
      s' = s <| serial_tx := r |> <| open_flag := Z.lor (open_flag s) (2 ^ k) |>
  end.
Proof.
  intros Hr. unfold open_tx. rewrite Hr. repeat case_if; auto; right.
  - by eexists _, 10; split; [|split; [left|reflexivity]].
  - by eexists _, 11; split; [|split; [right|reflexivity]].
Qed.

Lemma modes_lor s x : modes_ok s → (∀ i, 8 <= i < 12 → Z.testbit x i = false) →
  modes_ok (s <| open_flag := Z.lor (open_flag s) x |>).
Proof.
  intros [Hr Ht] Hx. split; cbn -[Z.testbit Z.lor]; rewrite !Z.lor_spec, !Hx, !orb_false_r by lia; done.
Qed.

Lemma rt_serial_open_modes s oflag : serial_rx s = RxNull → serial_tx s = TxNull →
  match rt_serial_open rt_malloc s oflag with
  | Ret (r, s') => r = RT_EOK → modes_ok s' ∧ config s' = config s ∧ ref_count s' = ref_count s
  | Fault _ => True
  end.
Proof.
  intros Hr Ht. unfold rt_serial_open. case_if; [done|].
  set (s0 := s <| open_flag := _ |>).
  assert (∀ i, 8 <= i < 12 → Z.testbit (open_flag s0) i = false) as Hb.
  { intros i Hi. cbn -[Z.testbit Z.land]. rewrite Z.land_spec. change 255 with (Z.ones 8). rewrite Z.ones_spec_high by lia.
    apply andb_false_r. }
  pose proof (open_rx_null oflag s0 Hr) as Hrx.
  destruct (open_rx rt_malloc oflag s0) as [s1|]; [|done]. cbn [mbind res_bind].
  assert (modes_ok s1 ∧ serial_tx s1 = TxNull ∧ config s1 = config s ∧ ref_count s1 = ref_count s ∧
    ∀ i, 10 <= i < 12 → Z.testbit (open_flag s1) i = false) as (Hm1 & Ht1 & Hc1 & Hn1 & Hb1).
  { destruct Hrx as [->|(r & k & irq & Hne & Hk & ->)].
    - split_and!; try done; [split; [split; auto using Hb with lia|split; auto with lia]|intros; apply Hb; lia].
      all: intros _; split; apply Hb; lia.
    - split_and!; try done; [split; cbn -[s0 Z.testbit Z.lor Z.pow]|].
      + rewrite !lor_bit, !Hb by lia. destruct Hk as [-> | ->]; (split; [by intros ?|by intros []]).
      + rewrite !lor_bit, !Hb by lia. destruct Hk as [-> | ->]; (split; [by intros ?|by intros []]).
      + intros i Hi. cbn -[s0 Z.testbit Z.lor Z.pow]. rewrite lor_bit, Hb by lia. cbn. apply Z.eqb_neq. lia. }
  pose proof (open_tx_null oflag s1 Ht1) as Htx.
  destruct (open_tx rt_malloc oflag s1) as [s2|]; [|done]. intros _.
  assert (modes_ok s2 ∧ config s2 = config s ∧ ref_count s2 = ref_count s) as (Hm2 & Hc2 & Hn2).
  { destruct Htx as [->|(r & k & Hne & Hk & ->)]; [done|]. split_and!; try done.
    destruct Hm1 as [Hm1 _]. split; cbn -[Z.testbit Z.lor Z.pow].
    - rewrite Hm1, !lor_bit by lia. destruct Hk as [-> | ->]; cbn; by rewrite !orb_false_r.
    - rewrite !lor_bit, !Hb1 by lia. destruct Hk as [-> | ->]; (split; [by intros ?|by intros []]). }
  split; [|done]. apply modes_lor; [done|]. intros i Hi. case_if; [|apply Z.bits_0].
  change RT_DEVICE_FLAG_STREAM with (2 ^ 6). apply Z.pow2_bits_false. lia.
Qed.

Lemma close_rx_ok s :
  (serial_rx s = RxNull ↔ Z.testbit (open_flag s) 8 = false ∧ Z.testbit (open_flag s) 9 = false) →
  ∃ op irq, close_rx s = Ret (s <| serial_rx := RxNull |> <| open_flag := op |> <| rx_irq := irq |>) ∧
    (∀ i, 10 <= i → Z.testbit op i = Z.testbit (open_flag s) i) ∧ (serial_rx s ≠ RxNull → irq = false).
Proof.
  intros Hr. destruct (mode_bits (open_flag s)) as (H8 & H9 & _ & _). unfold close_rx. rewrite H8, H9.
  assert (∀ k i, k < 10 <= i → 0 <= k → Z.testbit (Z.ldiff (open_flag s) (2 ^ k)) i = Z.testbit (open_flag s) i) as Hd.
  { intros k i Hi Hk. rewrite Z.ldiff_spec, Z.pow2_bits_false by lia. apply andb_true_r. }
  destruct (Z.testbit (open_flag s) 8) eqn:E8; [|destruct (Z.testbit (open_flag s) 9) eqn:E9].
  - destruct (serial_rx s) eqn:E; [exfalso; destruct (proj1 Hr eq_refl); done|..]; (eexists _, _; split; [reflexivity|]);
      (split; [intros i Hi; by apply (Hd 8)|done]).
  - destruct (serial_rx s) eqn:E; [exfalso; destruct (proj1 Hr eq_refl); done|..]; (eexists _, _; split; [reflexivity|]);
      (split; [intros i Hi; by apply (Hd 9)|done]).
  - exists (open_flag s), (rx_irq s). rewrite (proj2 Hr (conj eq_refl eq_refl)). split; [|done].
    assert (serial_rx s = RxNull) by by apply Hr. cbn. destruct s. cbn in *. by subst.
Qed.

Lemma close_tx_ok s :
  (serial_tx s = TxNull ↔ Z.testbit (open_flag s) 10 = false ∧ Z.testbit (open_flag s) 11 = false) →
  ∃ op, close_tx s = Ret (s <| serial_tx := TxNull |> <| open_flag := op |>).
Proof.
  intros Ht. destruct (mode_bits (open_flag s)) as (_ & _ & H10 & H11). unfold close_tx. rewrite H10, H11.
  destruct (Z.testbit (open_flag s) 10) eqn:E8; [|destruct (Z.testbit (open_flag s) 11) eqn:E9].
  - destruct (serial_tx s) eqn:E; [exfalso; destruct (proj1 Ht eq_refl); done|..]; by eexists.
  - destruct (serial_tx s) eqn:E; [exfalso; destruct (proj1 Ht eq_refl); done|..]; by eexists.
  - exists (open_flag s). assert (serial_tx s = TxNull) by by apply Ht. cbn. destruct s. cbn in *. by subst.
Qed.

(** Opening takes a port nobody has open to one that is in use once, and closing it again
    frees what the opening allocated and stops the receive interrupt; a port that is open
    more than once stays as it is but for the count. *)
Lemma serial_close n s : modes_ok s → ref_count s = n → 0 < n →
  if n =? 1 then
    ∃ s', rt_device_close s = Ret (RT_EOK, s') ∧ closed s' ∧ serial_rx s' = RxNull ∧ serial_tx s' = TxNull ∧
      open_flag s' = 0 ∧ config s' = config s ∧ (serial_rx s ≠ RxNull → rx_irq s' = false)
  else rt_device_close s = Ret (RT_EOK, s <| ref_count := n - 1 |>).
Proof.
  intros [Hr Ht] <- Hn. unfold rt_device_close.
  decide_if (ref_count s =? 0) false.
  set (s1 := s <| ref_count := ref_count s - 1 |>).
  assert (ref_count s1 = ref_count s - 1) as H1 by done. rewrite H1.
  destruct (ref_count s =? 1) eqn:E; bool_prop.
  2: { by decide_if (ref_count s - 1 =? 0) false. }
  decide_if (ref_count s - 1 =? 0) true. cbn [negb]. unfold rt_serial_close.
  decide_if (1 <? ref_count s1) false.
  destruct (close_rx_ok s1 Hr) as (op & irq & E1 & Hop & Hirq).
  rewrite E1. cbn [mbind res_bind].
  match goal with |- context [close_tx ?s2] => destruct (close_tx_ok s2) as (op2 & E2) end.
  { cbn -[Z.testbit]. rewrite !Hop by lia. exact Ht. }
  rewrite E2. eexists. split; [reflexivity|].
  split_and!; try done. split; [cbn; lia|done].
Qed.

Lemma serial_open k s oflag s' : closed s →
  rt_device_open configure rt_malloc k s oflag = Ret (RT_EOK, s') →
  modes_ok s' ∧ ref_count s' = 1 ∧ config s' = config s.
Proof.
  intros [Hc Hact]. unfold rt_device_open.
  destruct (if flag (dev_flag s) _ then _ else _) as [r s1] eqn:E1.
  destruct (negb (r =? RT_EOK)) eqn:Er; [by intros [= ->]|].
  assert (serial_rx s1 = RxNull ∧ serial_tx s1 = TxNull ∧ ref_count s1 = 0 ∧ config s1 = config s) as (Hr & Ht & Hn & Hcf).
  { destruct (flag (dev_flag s) _); [injection E1 as <- <-; by destruct (Hact eq_refl)|].
    unfold rt_serial_init in E1. destruct (_ =? RT_EOK); injection E1 as <- <-; done. }
  case_if; [by intros [= ]|].
  pose proof (rt_serial_open_modes s1 oflag Hr Ht) as Hopen.
  destruct (rt_serial_open rt_malloc s1 oflag) as [[r2 s2]|]; [|done]. cbn [mbind res_bind].
  destruct (negb (r2 =? RT_EOK)) eqn:Er2; [intros [= -> ->]; done|]. bool_prop. subst r2.
  destruct (Hopen eq_refl) as (Hm & Hc2 & Hn2). rewrite Hn2, Hn in *.
  change (u8 (0 + 1)) with 1. cbn [ref_count]. intros [= <-].
  split; [|split; [done|by rewrite <- Hcf]].
  destruct (modes_lor s2 RT_DEVICE_OFLAG_OPEN Hm) as [Ha Hb]; [|by split].
  intros i Hi. change RT_DEVICE_OFLAG_OPEN with (2 ^ 3). apply Z.pow2_bits_false. lia.
Qed.
Lemma serial_open_close k s oflag s' : closed s →
  rt_device_open configure rt_malloc k s oflag = Ret (RT_EOK, s') →
  ∃ s'', rt_device_close s' = Ret (RT_EOK, s'') ∧ closed s'' ∧ serial_rx s'' = RxNull ∧
    serial_tx s'' = TxNull ∧ open_flag s'' = 0 ∧ config s'' = config s.
Proof.
  intros Hc Ho. destruct (serial_open k s oflag s' Hc Ho) as (Hm & Hn & Hcf).
  destruct (serial_close 1 s' Hm Hn eq_refl) as (s2 & H & ? & ? & ? & ? & Hc2 & _).
  exists s2. split_and!; try done. congruence.
Qed.
End open_close.

(** * A port open in interrupt mode *)

Record receiving (size : Z) (s : rt_serial_device) (f : rt_serial_rx_fifo) : Prop := {
  rc_mode : flag (open_flag s) RT_DEVICE_FLAG_INT_RX = true;
  rc_ref : ref_count s ≠ 0;
  rc_irq : rx_irq s = true;
  rc_size : bufsz (config s) = size;
  rc_rx : serial_rx s = RxFifo f;
  rc_fifo : fifo_ok size f }.

Lemma receiving_fifo size s f f' :
  receiving size s f → fifo_ok size f' → receiving size (s <| serial_rx := RxFifo f' |>) f'.
Proof. intros [] ?. by split. Qed.

(** The interrupt, and the length its callback is told. *)
Lemma isr_receiving size s f chars : receiving size s f →
  ∃ f', receiving size (s <| serial_rx := RxFifo f' |>) f' ∧
    content size f' = keep (Z.to_nat (size - 1)) (content size f ++ (u8 <$> chars)) ∧
    rt_hw_serial_isr s chars =
      Ret (if rx_indicate s && negb (Z.of_nat (length (content size f')) =? 0)
           then Some (Z.of_nat (length (content size f'))) else None,
           s <| serial_rx := RxFifo f' |>).
Proof.
  intros Hs. pose proof Hs as [_ _ _ Hsz Hrx Hf].
  destruct (fifo_puts_content size f chars Hf) as (f' & Hputs & Hf' & Hc).
  exists f'. split_and!; [by apply (receiving_fifo size s f)|done|].
  unfold rt_hw_serial_isr. by rewrite Hrx, Hsz, Hputs, res_bind_ret, rx_length_content.
Qed.

(** The buffer as an opening allocates it. *)
Definition blank_fifo (size : Z) : rt_serial_rx_fifo :=
  MkFifo (replicate (Z.to_nat size) 0) 0 0 false.

Lemma blank_fifo_ok size : 2 <= size < 65536 →
  fifo_ok size (blank_fifo size) ∧ content size (blank_fifo size) = [].
Proof.
  intros H. split; [|done].
  split; cbn [buffer put_index get_index is_full blank_fifo]; [done| |lia|lia|done|].
  - rewrite length_replicate. lia.
  - apply Forall_replicate. by unfold is_byte.
Qed.

(** A registered port that nobody has open for reading. *)
Record openable (size : Z) (s : rt_serial_device) : Prop := {
  ob_flag : flag (dev_flag s) RT_DEVICE_FLAG_INT_RX = true;
  ob_alone : flag (dev_flag s) RT_DEVICE_FLAG_STANDALONE = false;
  ob_rx : serial_rx s = RxNull;
  ob_ref : 0 <= ref_count s < 255;
  ob_size : bufsz (config s) = size;
  ob_range : 2 <= size < 65536 }.

Lemma flag_lor_l x y m : flag x m = true → flag (Z.lor x y) m = true.
Proof.
  unfold flag. rewrite !negb_true_iff, !Z.eqb_neq. intros H E. apply H.
  rewrite Z.land_lor_distr_l in E. by apply Z.lor_eq_0_iff in E as [? _].
Qed.

(** Opening for reading in interrupt mode: O_RDONLY or O_RDWR of a file. *)
Lemma serial_open_receiving rt_malloc s oflag r s' :
  serial_rx s = RxNull → flag (dev_flag s) RT_DEVICE_FLAG_INT_RX = true → oflag = 257 ∨ oflag = 259 →
  rt_serial_open rt_malloc s oflag = Ret (r, s') →
  flag (open_flag s') RT_DEVICE_FLAG_INT_RX = true ∧ rx_irq s' = true ∧
  serial_rx s' = RxFifo (blank_fifo (bufsz (config s))) ∧
  config s' = config s ∧ ref_count s' = ref_count s ∧ rx_indicate s' = rx_indicate s.
Proof.
  intros Hrx Hf Hof. unfold rt_serial_open.
  assert (lacks oflag RT_DEVICE_FLAG_DMA_RX s || lacks oflag RT_DEVICE_FLAG_DMA_TX s
    || lacks oflag RT_DEVICE_FLAG_INT_RX s || lacks oflag RT_DEVICE_FLAG_INT_TX s = false) as ->.
  { unfold lacks. rewrite Hf. by destruct Hof as [-> | ->]. }
  assert (∀ s2, open_tx rt_malloc oflag s2 = Ret s2) as Hotx.
  { intros s2. unfold open_tx. destruct (serial_tx s2); by destruct Hof as [-> | ->]. }
  set (s0 := s <| open_flag := _ |>). unfold open_rx. replace (serial_rx s0) with RxNull by done.
  assert (flag oflag RT_DEVICE_FLAG_INT_RX = true) as -> by by destruct Hof as [-> | ->].
  destruct (rt_malloc 0%nat); [|done]. cbn [mbind res_bind]. rewrite Hotx.
  intros [= _ <-]. split_and!; try done. cbn -[Z.lor Z.land flag].
  apply flag_lor_l. rewrite Z.lor_comm. by apply flag_lor_l.
Qed.

Lemma open_receiving configure rt_malloc k size s oflag s' : openable size s →
  oflag = 257 ∨ oflag = 259 →
  rt_device_open configure rt_malloc k s oflag = Ret (RT_EOK, s') →
  receiving size s' (blank_fifo size) ∧ rx_indicate s' = rx_indicate s.
Proof.
  intros [Hf Ha Hrx Hn <- Hr] Hof. unfold rt_device_open.
  destruct (if flag (dev_flag s) RT_DEVICE_FLAG_ACTIVATED then _ else _) as [r s1] eqn:E1.
  destruct (negb (r =? RT_EOK)) eqn:Er; [by intros [= -> _]|].
  assert (serial_rx s1 = RxNull ∧ ref_count s1 = ref_count s ∧ config s1 = config s ∧
    flag (dev_flag s1) RT_DEVICE_FLAG_INT_RX = true ∧ flag (dev_flag s1) RT_DEVICE_FLAG_STANDALONE = false ∧
    rx_indicate s1 = rx_indicate s) as (Hrx1 & Hn1 & Hcf & Hf1 & Ha1 & <-).
  { destruct (flag (dev_flag s) RT_DEVICE_FLAG_ACTIVATED); [by injection E1 as <- <-|].
    unfold rt_serial_init in E1. destruct (_ =? RT_EOK); injection E1 as <- <-; split_and!; try done.
    - by apply flag_lor_l.
    - revert Ha. unfold flag. cbn -[Z.land Z.lor]. rewrite Z.land_lor_distr_l.
      change (Z.land RT_DEVICE_FLAG_ACTIVATED RT_DEVICE_FLAG_STANDALONE) with 0. rewrite Z.lor_0_r. auto. }
  rewrite Ha1. cbn [andb].
  destruct (rt_serial_open rt_malloc s1 oflag) as [[r2 s2]|] eqn:Eo; [|done]. cbn [mbind res_bind].
  destruct (serial_open_receiving _ _ _ _ _ Hrx1 Hf1 Hof Eo) as (Hm & Hi & Hx & Hc & Hn2 & <-). rewrite Hcf in Hx, Hc.
  destruct (negb (r2 =? RT_EOK)) eqn:Er2; [by intros [= -> _]|]. bool_prop. subst r2.
  set (s3 := s2 <| open_flag := _ |> <| ref_count := _ |>).
  assert (ref_count s3 = ref_count s + 1) as Hn3.
  { cbn. rewrite Hn2, Hn1. unfold u8. rewrite Z.mod_small; lia. }
  rewrite Hn3. decide_if (ref_count s + 1 =? 0) false. intros [= <-]. split; [|done].
  split; [by apply flag_lor_l|lia|done|exact (f_equal bufsz Hc)|done|exact (proj1 (blank_fifo_ok _ Hr))].
Qed.
