(* ===== verification/Sem.v ===== *)
(** The semaphore of the kernel (rt-thread/src/ipc.c).  Every operation runs with
    interrupts disabled; [rt_sem_take] is split where the calling thread suspends. *)

From S2P Require Import Prelude Event.

Record rt_semaphore : Type := MkSem {
  sem_value : Z;
  sem_suspended : list rt_thread;
  sem_flag : Z }.
#[global] Instance rt_semaphore_eta : Eta rt_semaphore :=
  λ s, MkSem (sem_value s) (sem_suspended s) (sem_flag s).

Definition rt_sem_create (value flag : Z) : res rt_semaphore :=
  if value <? 65536 then Ret (MkSem (u16 value) [] flag) else Fault AssertFailed.

Inductive take_outcome : Type :=
  | Taken (s : rt_semaphore)
  | NotTaken (err : Z)
  | TakeSuspended (s : rt_semaphore).

Definition rt_sem_take (s : rt_semaphore) (self prio time : Z) : take_outcome :=
  if 0 <? sem_value s then Taken (s <| sem_value := sem_value s - 1 |>)
  else if time =? 0 then NotTaken (- RT_ETIMEOUT)
  else
    TakeSuspended (s <| sem_suspended :=
      rt_ipc_list_suspend (sem_suspended s) (MkThread self prio 0 0) (sem_flag s) |>).

(** The thread resumed, if one was suspended; the value is an rt_uint16_t. *)
Definition rt_sem_release (s : rt_semaphore) : rt_semaphore * option rt_thread :=
  match sem_suspended s with
  | t :: q => (s <| sem_suspended := q |>, Some t)
  | [] => (s <| sem_value := u16 (sem_value s + 1) |>, None)
  end.

(** RT_IPC_CMD_RESET: all suspended threads are resumed, with an error. *)
Definition rt_sem_reset (s : rt_semaphore) (value : Z) : rt_semaphore * list rt_thread :=
  (s <| sem_suspended := [] |> <| sem_value := u16 value |>, sem_suspended s).

(** [rt_thread_timeout] *)
Definition sem_timeout (s : rt_semaphore) (self : Z) : rt_semaphore :=
  s <| sem_suspended := List.filter (λ t, negb (tid t =? self)) (sem_suspended s) |>.
