(* ===== verification/Mutex.v ===== *)
(** The mutex of the kernel (rt-thread/src/ipc.c): recursive, handed over to the first
    thread of its queue, with priority inheritance.

    A world is one mutex and the current priorities of the threads.  Every operation runs
    with interrupts disabled; [rt_mutex_take] is split where the calling thread suspends.
    The retry after a signal is left out: signals are not configured. *)

From S2P Require Import Prelude Event.

Record rt_mutex : Type := MkMutex {
  mutex_value : Z;
  original_priority : Z;
  hold : Z;
  owner : option Z;
  mutex_waiting : list rt_thread;
  mutex_flag : Z }.
#[global] Instance rt_mutex_eta : Eta rt_mutex := λ m,
  MkMutex (mutex_value m) (original_priority m) (hold m) (owner m) (mutex_waiting m) (mutex_flag m).

Record threads : Type := MkThreads { mutex : rt_mutex; priority : Z → Z }.
#[global] Instance threads_eta : Eta threads := λ w, MkThreads (mutex w) (priority w).

Definition rt_mutex_create (flag : Z) : rt_mutex := MkMutex 1 255 0 None [] flag.

(** RT_THREAD_CTRL_CHANGE_PRIORITY, an rt_uint8_t. *)
Definition change_priority (t p : Z) : io threads unit :=
  modify (λ w, w <| priority := λ u, if u =? t then u8 p else priority w u |>).
Definition set_mutex (f : rt_mutex → rt_mutex) : io threads unit :=
  modify (λ w, w <| mutex := f (mutex w) |>).

Inductive mutex_outcome : Type :=
  | MutexTaken
  | MutexFailed (err : Z)
  | MutexSuspended
  | MutexReleased (resumed : option Z).

(** [hold] is an rt_uint8_t, [mutex_value] an rt_uint16_t. *)
Definition rt_mutex_take (self time : Z) : io threads mutex_outcome :=
  m ← gets mutex;
  if bool_decide (owner m = Some self) then
    set_mutex (λ m, m <| hold := u8 (hold m + 1) |>) ;;
    mret MutexTaken
  else if 0 <? mutex_value m then
    p ← gets (λ w, priority w self);
    set_mutex (λ m, m <| mutex_value := u16 (mutex_value m - 1) |> <| owner := Some self |>
                      <| original_priority := p |> <| hold := u8 (hold m + 1) |>) ;;
    mret MutexTaken
  else if time =? 0 then mret (MutexFailed (- RT_ETIMEOUT))
  else match owner m with
  | None => io_fault NullDeref
  | Some o =>
      p ← gets (λ w, priority w self);
      po ← gets (λ w, priority w o);
      (if p <? po then change_priority o p else mret tt) ;;
      set_mutex (λ m, m <| mutex_waiting :=
        rt_ipc_list_suspend (mutex_waiting m) (MkThread self p 0 0) (mutex_flag m) |>) ;;
      mret MutexSuspended
  end.

Definition rt_mutex_release (self : Z) : io threads mutex_outcome :=
  m ← gets mutex;
  if bool_decide (owner m = Some self) then
    set_mutex (λ m, m <| hold := u8 (hold m - 1) |>) ;;
    h ← gets (λ w, hold (mutex w));
    if h =? 0 then
      p ← gets (λ w, priority w self);
      (if negb (original_priority m =? p) then change_priority self (original_priority m)
       else mret tt) ;;
      match mutex_waiting m with
      | t :: q =>
          p ← gets (λ w, priority w (tid t));
          set_mutex (λ m, m <| owner := Some (tid t) |> <| original_priority := p |>
                            <| hold := u8 (hold m + 1) |> <| mutex_waiting := q |>) ;;
          mret (MutexReleased (Some (tid t)))
      | [] =>
          set_mutex (λ m, m <| mutex_value := u16 (mutex_value m + 1) |> <| owner := None |>
                            <| original_priority := 255 |>) ;;
          mret (MutexReleased None)
      end
    else mret (MutexReleased None)
  else mret (MutexFailed (- RT_ERROR)).

(** [rt_thread_timeout] of a thread that waits. *)
Definition mutex_timeout (self : Z) : io threads mutex_outcome :=
  set_mutex (λ m, m <| mutex_waiting :=
    List.filter (λ t, negb (tid t =? self)) (mutex_waiting m) |>) ;;
  mret (MutexFailed (- RT_ETIMEOUT)).

(** * Several threads *)

Inductive mutex_action : Type := Take (self time : Z) | Release (self : Z) | Timeout (self : Z).
Definition actor (a : mutex_action) : Z :=
  match a with Take t _ | Release t | Timeout t => t end.

(** A thread that waits does nothing but time out. *)
Definition mutex_act (a : mutex_action) : io threads (option mutex_outcome) :=
  m ← gets mutex;
  let waits := existsb (λ t, tid t =? actor a) (mutex_waiting m) in
  match a, waits with
  | Take t time, false => r ← rt_mutex_take t time; mret (Some r)
  | Release t, false => r ← rt_mutex_release t; mret (Some r)
  | Timeout t, true => r ← mutex_timeout t; mret (Some r)
  | _, _ => mret None
  end.

Fixpoint mutex_run (acts : list mutex_action) : io threads (list (option mutex_outcome)) :=
  match acts with
  | [] => mret []
  | a :: acts => r ← mutex_act a; rs ← mutex_run acts; mret (r :: rs)
  end.
