(* ===== verification/MutexSpec.v ===== *)
(** The mutex (Mutex.v) refines a lock with an owner, a depth and a queue, and keeps the
    priorities of the threads as priority inheritance promises. *)

From Stdlib Require Import Sorting.Sorted.
From S2P Require Import Prelude Event Mutex.

Section lock.
(** The priorities the threads are given, and the order of the queue. *)
Context (base : Z → Z) (order : Z).

(** * The lock *)

Record lock : Type := MkLock { holder : option (Z * nat); waiters : list Z }.

Fixpoint insert_prio (t : Z) (q : list Z) : list Z :=
  match q with
  | [] => [t]
  | u :: q => if base t <? base u then t :: u :: q else u :: insert_prio t q
  end.
Definition enqueue (t : Z) (q : list Z) : list Z :=
  if order =? RT_IPC_FLAG_FIFO then q ++ [t] else insert_prio t q.

Definition lock_take (l : lock) (t time : Z) : mutex_outcome * lock :=
  match holder l with
  | None => (MutexTaken, MkLock (Some (t, 1%nat)) (waiters l))
  | Some (o, d) =>
      if t =? o then (MutexTaken, MkLock (Some (o, S d)) (waiters l))
      else if time =? 0 then (MutexFailed (- RT_ETIMEOUT), l)
      else (MutexSuspended, MkLock (holder l) (enqueue t (waiters l)))
  end.

Definition lock_release (l : lock) (t : Z) : mutex_outcome * lock :=
  match holder l with
  | Some (o, S d) =>
      if t =? o then
        match d, waiters l with
        | S _, _ => (MutexReleased None, MkLock (Some (o, d)) (waiters l))
        | O, u :: q => (MutexReleased (Some u), MkLock (Some (u, 1%nat)) q)
        | O, [] => (MutexReleased None, MkLock None [])
        end
      else (MutexFailed (- RT_ERROR), l)
  | _ => (MutexFailed (- RT_ERROR), l)
  end.

Definition lock_act (l : lock) (a : mutex_action) : option mutex_outcome * lock :=
  match a, existsb (Z.eqb (actor a)) (waiters l) with
  | Take t time, false => let '(r, l) := lock_take l t time in (Some r, l)
  | Release t, false => let '(r, l) := lock_release l t in (Some r, l)
  | Timeout t, true =>
      (Some (MutexFailed (- RT_ETIMEOUT)), MkLock (holder l) (List.filter (λ u, negb (u =? t)) (waiters l)))
  | _, _ => (None, l)
  end.

Definition depth (l : lock) : nat := match holder l with Some (_, d) => d | None => 0 end.

(** The results and the lock after all actions; [None] when the owner takes it more than
    255 times. *)
Fixpoint lock_run (acts : list mutex_action) (l : lock) : option (list (option mutex_outcome) * lock) :=
  match acts with
  | [] => Some ([], l)
  | a :: acts =>
      let '(r, l) := lock_act l a in
      if (255 <? depth l)%nat then None
      else match lock_run acts l with Some (rs, l) => Some (r :: rs, l) | None => None end
  end.

(** * Refinement *)

Definition queued (t : rt_thread) : Prop := current_priority t = base (tid t).

(** What the owner runs at: its own priority or a better one, and with a queue in order of
    priority no waiting thread has a better one. *)
Record boosted (o : Z) (q : list Z) (p : Z) : Prop := {
  boost_base : 0 <= p <= base o;
  boost_waiting : order ≠ RT_IPC_FLAG_FIFO → Forall (λ u, p <= base u) q }.

Record refines (l : lock) (w : threads) : Prop := {
  ref_flag : mutex_flag (mutex w) = order;
  ref_owner : owner (mutex w) = fst <$> holder l;
  ref_value : mutex_value (mutex w) = match holder l with Some _ => 0 | None => 1 end;
  ref_hold : hold (mutex w) = Z.of_nat (depth l);
  ref_original : original_priority (mutex w) = match holder l with Some (o, _) => base o | None => 255 end;
  ref_depth : match holder l with Some (_, d) => (1 <= d <= 255)%nat | None => waiters l = [] end;
  ref_queue : tid <$> mutex_waiting (mutex w) = waiters l;
  ref_queued : Forall queued (mutex_waiting (mutex w));
  ref_sorted : order ≠ RT_IPC_FLAG_FIFO → StronglySorted (λ t u, base t <= base u) (waiters l);
  ref_others : ∀ t, fst <$> holder l ≠ Some t → priority w t = base t;
  ref_boosted : ∀ o d, holder l = Some (o, d) → boosted o (waiters l) (priority w o);
  ref_apart : ∀ o d, holder l = Some (o, d) → o ∉ waiters l;
  ref_nodup : NoDup (waiters l) }.

Hypothesis base_u8 : ∀ t, 0 <= base t < 256.

(** ** The queue *)

Lemma insert_tids t q : Forall queued q →
  tid <$> insert_by_priority (MkThread t (base t) 0 0) q = insert_prio t (tid <$> q).
Proof.
  induction 1 as [|u q Hu Hq IH]; [done|]. cbn. rewrite <- Hu. cbn.
  destruct (_ <? _); [done|]. cbn. by rewrite <- IH.
Qed.

Lemma insert_prio_in t u q : u ∈ insert_prio t q ↔ u = t ∨ u ∈ q.
Proof.
  induction q as [|v q IH]; cbn; [rewrite list_elem_of_singleton; set_solver|].
  destruct (_ <? _); set_solver.
Qed.

Lemma insert_prio_sorted t q : StronglySorted (λ t u, base t <= base u) q →
  StronglySorted (λ t u, base t <= base u) (insert_prio t q).
Proof.
  induction 1 as [|u q Hs IH Hu]; cbn; [by repeat constructor|].
  destruct (_ <? _) eqn:E; bool_prop.
  - constructor; [by constructor|]. constructor; [lia|].
    eapply Forall_impl; [exact Hu|]. cbn. lia.
  - constructor; [done|]. apply Forall_forall. intros v Hv. apply insert_prio_in in Hv as [->|Hv]; [done|].
    rewrite Forall_forall in Hu. by apply Hu.
Qed.

Lemma insert_prio_nodup t q : t ∉ q → NoDup q → NoDup (insert_prio t q).
Proof.
  intros Ht. induction 1 as [|u q Hu Hq IH]; cbn; [repeat constructor; set_solver|].
  destruct (_ <? _); repeat constructor; rewrite ?insert_prio_in; try set_solver.
Qed.

Lemma enqueue_in t u q : u ∈ enqueue t q ↔ u = t ∨ u ∈ q.
Proof. unfold enqueue. destruct (_ =? _); [set_solver|apply insert_prio_in]. Qed.

Lemma enqueue_nodup t q : t ∉ q → NoDup q → NoDup (enqueue t q).
Proof.
  intros Ht Hq. unfold enqueue. destruct (_ =? _); [|by apply insert_prio_nodup].
  apply NoDup_app. split_and!; [done|set_solver|repeat constructor; set_solver].
Qed.

Lemma suspend_tids t q : Forall queued q →
  tid <$> rt_ipc_list_suspend q (MkThread t (base t) 0 0) order = enqueue t (tid <$> q).
Proof.
  intros Hq. unfold rt_ipc_list_suspend, enqueue. destruct (_ =? _); [by rewrite fmap_app|by apply insert_tids].
Qed.

Lemma suspend_queued t q : Forall queued q →
  Forall queued (rt_ipc_list_suspend q (MkThread t (base t) 0 0) order).
Proof.
  intros Hq. unfold rt_ipc_list_suspend. destruct (_ =? _).
  - apply Forall_app. split; [done|]. by repeat constructor.
  - apply Forall_forall. intros u Hu. apply insert_by_priority_in in Hu as [->|Hu]; [done|].
    rewrite Forall_forall in Hq. by apply Hq.
Qed.

Lemma enqueue_sorted t q : order ≠ RT_IPC_FLAG_FIFO →
  StronglySorted (λ t u, base t <= base u) q → StronglySorted (λ t u, base t <= base u) (enqueue t q).
Proof.
  intros Ho Hq. unfold enqueue. replace (order =? RT_IPC_FLAG_FIFO) with false by (symmetry; by apply Z.eqb_neq).
  by apply insert_prio_sorted.
Qed.

Lemma filter_sorted (f : Z → bool) q :
  StronglySorted (λ t u, base t <= base u) q → StronglySorted (λ t u, base t <= base u) (List.filter f q).
Proof.
  induction 1 as [|u q Hs IH Hu]; cbn; [constructor|]. destruct (f u); [|done]. constructor; [done|].
  rewrite Forall_forall in Hu |- *. intros v Hv. apply Hu, list_elem_of_In.
  by apply list_elem_of_In, filter_In in Hv as [? _].
Qed.

Lemma filter_tids (f : Z → bool) q :
  tid <$> List.filter (λ t, f (tid t)) q = List.filter f (tid <$> q).
Proof. induction q as [|t q IH]; cbn; [done|]. destruct (f (tid t)); cbn; by rewrite <- IH. Qed.

Lemma waits_tids t q : existsb (λ u, tid u =? t) q = existsb (Z.eqb t) (tid <$> q).
Proof. induction q as [|u q IH]; cbn; [done|]. by rewrite IH, Z.eqb_sym. Qed.

Lemma waits_in t q : existsb (Z.eqb t) q = false → t ∉ q.
Proof.
  intros H Hin. assert (existsb (Z.eqb t) q = true); [|congruence].
  apply existsb_exists. exists t. split; [by apply list_elem_of_In|apply Z.eqb_refl].
Qed.

Lemma boosted_mono o p q q' : (∀ u, u ∈ q' → u ∈ q) → boosted o q p → boosted o q' p.
Proof.
  intros Hsub [Hb Hw]. split; [done|]. intros Ho. specialize (Hw Ho). rewrite Forall_forall in *. auto.
Qed.

(** ** Each operation *)

Abbreviation implements m r l' := (wp m (λ r' w', r' = r ∧ refines l' w')).

Lemma take_refines l w t time : refines l w → t ∉ waiters l →
  (depth (lock_take l t time).2 <= 255)%nat →
  implements (rt_mutex_take t time) (lock_take l t time).1 (lock_take l t time).2 w.
Proof.
  intros [Hf Ho Hv Hh Hor Hd Hq Hqd Hs Hp Hb Ha Hn] Ht Hlim.
  destruct w as [[v op h ow q fl] pr]. cbn in *. subst fl v h op ow.
  unfold rt_mutex_take. apply wp_bind, wp_gets. cbn [owner mutex_value mutex].
  destruct l as [[[o d]|] ws]; cbn in *; subst ws.
  - revert Hlim. destruct (Z.eqb_spec t o) as [->|Hne]; intros Hlim; cbn in Hlim.
    + rewrite bool_decide_true by done. apply wp_bind, wp_modify, wp_ret. split; [done|].
      split; cbn; try done; [|lia|..].
      * unfold u8. rewrite Z.mod_small; lia.
      * intros o' d' [= <- <-]. by eapply Hb.
      * intros o' d' [= <- <-]. by eapply Ha.
    + rewrite bool_decide_false by congruence. cbn [Z.ltb Z.compare].
      destruct (time =? 0); [apply wp_ret; by split; [|split]|].
      apply wp_bind, wp_gets, wp_bind, wp_gets. cbn [priority].
      assert (pr t = base t) as Ept by (apply Hp; congruence). rewrite Ept.
      destruct (Hb o d eq_refl) as [Hpo Hw].
      set (pr' := λ u, if u =? o then Z.min (base t) (pr o) else pr u).
      apply wp_bind. eapply (wp_mono _ (λ _ w', ∃ pr2, (∀ u, pr2 u = pr' u) ∧
        w' = MkThreads (MkMutex 0 (base o) (Z.of_nat d) (Some o) q order) pr2)).
      { pose proof (base_u8 t). case_if.
        - apply wp_modify. eexists. split; [|reflexivity]. intros u. unfold pr'. cbn.
          destruct (u =? o); [|done]. unfold u8. rewrite Z.mod_small; lia.
        - apply wp_ret. eexists. split; [|reflexivity]. intros u. unfold pr'.
          destruct (Z.eqb_spec u o) as [->|]; [|done]. lia. }
      intros _ w' (pr2 & Hpr & ->). apply wp_bind, wp_modify, wp_ret. split; [done|].
      split; cbn; try done.
      * by apply suspend_tids.
      * by apply suspend_queued.
      * intros. by apply enqueue_sorted, Hs.
      * intros u Hu. rewrite Hpr. unfold pr'. destruct (Z.eqb_spec u o) as [->|]; [done|by apply Hp].
      * intros o' d' [= <- <-]. rewrite Hpr. unfold pr'. rewrite Z.eqb_refl. pose proof (base_u8 t).
        split; [lia|]. intros Hord. apply Forall_forall. intros u Hu%enqueue_in.
        destruct Hu as [->|Hu]; [lia|]. specialize (Hw Hord). rewrite Forall_forall in Hw.
        specialize (Hw u Hu). lia.
      * intros o' d' [= <- <-] Hin%enqueue_in. destruct Hin as [->|Hin]; [done|]. by eapply Ha.
      * by apply enqueue_nodup.
  - rewrite bool_decide_false by done. cbn [Z.ltb Z.compare]. apply wp_bind, wp_gets, wp_bind, wp_modify, wp_ret.
    split; [done|]. pose proof (base_u8 t). assert (pr t = base t) as Ept by by apply Hp.
    split; cbn; try done.
    + intros u _. by apply Hp.
    + intros o d [= <- <-]. rewrite Ept. by split; [lia|].
    + intros o d _. apply not_elem_of_nil.
Qed.

Lemma release_refines l w t : refines l w → t ∉ waiters l →
  implements (rt_mutex_release t) (lock_release l t).1 (lock_release l t).2 w.
Proof.
  intros [Hf Ho Hv Hh Hor Hd Hq Hqd Hs Hp Hb Ha Hn] Ht.
  destruct w as [[v op h ow q fl] pr]. cbn in *. subst fl v h op ow.
  unfold rt_mutex_release. apply wp_bind, wp_gets. cbn [owner mutex hold original_priority mutex_waiting].
  unfold lock_release. destruct l as [[[o d]|] ws]; cbn [holder waiters depth fmap option_fmap option_map fst snd] in *; subst ws.
  2: { rewrite bool_decide_false by done. apply wp_ret. by split. }
  destruct d as [|d]; [lia|]. destruct (Z.eqb_spec t o) as [->|Hne].
  2: { rewrite bool_decide_false by congruence. apply wp_ret. by split. }
  rewrite bool_decide_true by done. apply wp_bind, wp_modify, wp_bind, wp_gets. cbn [hold mutex].
  match goal with |- wp _ _ ?w => set (w1 := w) end.
  assert (hold (mutex w1) = Z.of_nat d) as -> by (cbn; unfold u8; rewrite Z.mod_small; lia).
  destruct d as [|d].
  2: { decide_if (Z.of_nat (S d) =? 0) false. apply wp_ret. split; [done|].
       split; cbn; try done; [unfold u8; rewrite Z.mod_small; lia|lia|..].
       - intros o' d' [= <- <-]. by eapply Hb.
       - intros o' d' [= <- <-]. by eapply Ha. }
  cbn [Z.of_nat Z.eqb]. destruct (Hb o 1%nat eq_refl) as [Hpo Hw].
  apply wp_bind, wp_gets.
  set (pr' := λ u, if u =? o then base o else pr u).
  assert (∀ u, pr' u = base u) as Hbase.
  { intros u. unfold pr'. destruct (Z.eqb_spec u o) as [->|]; [done|]. apply Hp. congruence. }
  apply wp_bind. eapply (wp_mono _ (λ _ w', ∃ pr2, (∀ u, pr2 u = pr' u) ∧
    w' = MkThreads (mutex w1) pr2)).
  { pose proof (base_u8 o). case_if.
    - apply wp_modify. eexists. split; [|reflexivity]. intros u. unfold pr'. cbn.
      destruct (u =? o); [|done]. unfold u8. rewrite Z.mod_small; lia.
    - apply wp_ret. eexists. split; [|reflexivity]. intros u. unfold pr'. cbn in *.
      destruct (Z.eqb_spec u o) as [->|]; [|done]. lia. }
  intros _ w' (pr2 & Hpr & ->). destruct q as [|u q]; cbn [fmap list_fmap tid].
  - apply wp_bind, wp_modify, wp_ret. split; [done|]. split; cbn; try done.
    intros u _. by rewrite Hpr, Hbase.
  - apply wp_bind, wp_gets, wp_bind, wp_modify, wp_ret. split; [done|].
    cbn [fmap list_fmap] in *. inversion_clear Hn as [|?? Hu Hn']. inversion_clear Hqd as [|?? Hqu Hqd'].
    pose proof (base_u8 (tid u)). split; cbn; try done.
    + by rewrite Hpr, Hbase.
    + intros Hord. specialize (Hs Hord). by inversion_clear Hs.
    + intros u' _. by rewrite Hpr, Hbase.
    + intros o' d' [= <- <-]. rewrite Hpr, Hbase. split; [lia|]. intros Hord. specialize (Hs Hord).
      by inversion_clear Hs.
    + by intros o' d' [= <- <-].
Qed.

Lemma timeout_refines l w t : refines l w →
  implements (mutex_timeout t) (MutexFailed (- RT_ETIMEOUT))
    (MkLock (holder l) (List.filter (λ u, negb (u =? t)) (waiters l))) w.
Proof.
  intros [Hf Ho Hv Hh Hor Hd Hq Hqd Hs Hp Hb Ha Hn]. apply wp_bind, wp_modify, wp_ret. split; [done|].
  assert (∀ u, u ∈ List.filter (λ u, negb (u =? t)) (waiters l) → u ∈ waiters l) as Hsub.
  { intros u Hu. apply list_elem_of_In, filter_In in Hu as [Hu _]. by apply list_elem_of_In. }
  destruct w as [m pr]. cbn in *. split; cbn; try done.
  - destruct (holder l) as [[]|]; [done|]. by rewrite Hd.
  - by rewrite <- Hq, (filter_tids (λ u, negb (u =? t))).
  - rewrite Forall_forall in *. intros u Hu. apply Hqd. apply list_elem_of_In.
    by apply list_elem_of_In, filter_In in Hu as [? _].
  - intros. by apply filter_sorted, Hs.
  - intros o d E. eapply boosted_mono; [exact Hsub|by eapply Hb].
  - intros o d E Hin. by eapply Ha, Hsub.
  - revert Hn. clear. induction 1 as [|u q Hu Hq IH]; cbn; [constructor|]. destruct (u =? t); cbn; [done|].
    constructor; [|done]. intros Hin. apply Hu. by apply list_elem_of_In, filter_In in Hin as [?%list_elem_of_In _].
Qed.

Lemma act_refines l w a : refines l w → (depth (lock_act l a).2 <= 255)%nat →
  implements (mutex_act a) (lock_act l a).1 (lock_act l a).2 w.
Proof.
  intros Hr Hlim. unfold mutex_act. apply wp_bind, wp_gets. rewrite waits_tids, (ref_queue _ _ Hr).
  unfold lock_act in *. destruct a as [t time|t|t]; cbn [actor] in *;
    destruct (existsb (Z.eqb t) (waiters l)) eqn:E; try (apply wp_ret; by split).
  - apply wp_bind. pose proof (take_refines l w t time Hr (waits_in _ _ E)) as H.
    destruct (lock_take l t time) as [r l']. cbn in *.
    eapply wp_mono; [by apply H|]. cbn beta. intros ? w' [-> Hr']. by apply wp_ret.
  - apply wp_bind. pose proof (release_refines l w t Hr (waits_in _ _ E)) as H.
    destruct (lock_release l t) as [r l']. cbn in *.
    eapply wp_mono; [by apply H|]. cbn beta. intros ? w' [-> Hr']. by apply wp_ret.
  - apply wp_bind. eapply wp_mono; [by apply timeout_refines|]. cbn beta. intros ? w' [-> Hr'].
    by apply wp_ret.
Qed.

Lemma run_refines acts : ∀ l w rs l', refines l w → lock_run acts l = Some (rs, l') →
  implements (mutex_run acts) rs l' w.
Proof.
  induction acts as [|a acts IH]; intros l w rs l' Hr; cbn [lock_run mutex_run].
  { intros [= <- <-]. by apply wp_ret. }
  pose proof (act_refines l w a Hr) as Ha. destruct (lock_act l a) as [r l1]. cbn [fst snd] in Ha.
  destruct (255 <? depth l1)%nat eqn:E; [done|]. apply Nat.ltb_ge in E.
  destruct (lock_run acts l1) as [[rs1 l2]|] eqn:E2; [|done]. intros [= <- <-].
  apply wp_bind. eapply wp_mono; [by apply Ha|]. cbn beta. intros ? w1 [-> Hr1].
  apply wp_bind. eapply wp_mono; [by eapply IH|]. cbn beta. intros ? w2 [-> Hr2]. by apply wp_ret.
Qed.

(** A release changes no priority but that of its thread. *)
Lemma act_priorities t w :
  match mutex_act (Release t) w with
  | Ret (_, w') => ∀ u, u ≠ t → priority w' u = priority w u
  | Fault _ => True
  end.
Proof.
  unfold mutex_act, mbind, io_bind, gets. cbn [actor]. destruct (existsb _ _); [done|].
  unfold rt_mutex_release, mbind, io_bind, gets. destruct (bool_decide _); [|done].
  unfold set_mutex, modify. cbn beta iota. destruct (_ =? 0); [|done].
  destruct (negb _); cbn beta iota; unfold change_priority, modify, mret, io_ret; cbn beta iota;
    destruct (mutex_waiting _) as [|u q]; cbn; try done.
  all: intros v Hv; by rewrite (proj2 (Z.eqb_neq _ _) Hv).
Qed.

Lemma mutex_run_app acts a w :
  mutex_run (acts ++ [a]) w =
    match mutex_run acts w with
    | Ret (rs, w1) => match mutex_act a w1 with
                      | Ret (r, w2) => Ret (rs ++ [r], w2)
                      | Fault f => Fault f
                      end
    | Fault f => Fault f
    end.
Proof.
  revert w. induction acts as [|b acts IH]; intros w; cbn [mutex_run app]; unfold mbind, io_bind in *.
  - unfold mret, io_ret. by destruct (mutex_act a w) as [[]|].
  - destruct (mutex_act b w) as [[r w1]|]; [|done]. rewrite IH.
    destruct (mutex_run acts w1) as [[rs w2]|]; [|done]. unfold mret, io_ret. by destruct (mutex_act a w2) as [[]|].
Qed.

(** At a hand-over the priority of the new owner stays its own. *)
Lemma hand_over l w a b q c : refines l w →
  holder l = Some (a, 1%nat) → waiters l = b :: q → c ∈ q → base c < base b →
  wp (mutex_act (Release a)) (λ _ w', owner (mutex w') = Some b ∧
    (tid <$> mutex_waiting (mutex w')) = q ∧ priority w' c < priority w' b) w.
Proof.
  intros Hr Hh Hq Hc Hlt. pose proof (ref_apart _ _ Hr a 1%nat Hh) as Ha. rewrite Hq in Ha.
  pose proof (ref_nodup _ _ Hr) as Hn. rewrite Hq in Hn. inversion_clear Hn as [|?? Hbq _].
  assert (lock_act l (Release a) = (Some (MutexReleased (Some b)), MkLock (Some (b, 1%nat)) q)) as Hl.
  { unfold lock_act, lock_release. cbn [actor]. rewrite Hh, Hq, Z.eqb_refl.
    destruct (existsb (Z.eqb a) (b :: q)) eqn:E; [|done]. exfalso. apply Ha.
    apply existsb_exists in E as (x & Hx & ->%Z.eqb_eq). by apply list_elem_of_In. }
  pose proof (act_refines l w (Release a) Hr) as H. rewrite Hl in H. specialize (H ltac:(cbn; lia)).
  pose proof (act_priorities a w) as Hp. unfold wp in *.
  destruct (mutex_act (Release a) w) as [[r w']|]; [|done]. destruct H as [_ Hr'].
  split; [apply Hr'|]. split; [apply Hr'|].
  assert (c ≠ a ∧ b ≠ a) as [Hca Hba] by (split; intros ->; apply Ha; [by right|by left]).
  assert (priority w c = base c ∧ priority w b = base b) as [Ec Eb]
    by (split; apply (ref_others _ _ Hr); rewrite Hh; cbn; congruence).
  by rewrite (Hp c Hca), (Hp b Hba), Ec, Eb.
Qed.

Definition free_lock : lock := MkLock None [].
Definition fresh_mutex : threads := MkThreads (rt_mutex_create order) base.

Lemma fresh_refines : refines free_lock fresh_mutex.
Proof. split; cbn; try done; [intros _; constructor|constructor]. Qed.
End lock.

(** C24.  The mutex of the kernel is a recursive lock with an owner, a depth and a queue:
    through every sequence of calls, hand-overs and timeouts of any number of threads that
    nests at most 255 deep, its calls return what those of the lock would, so that only the
    owner ever gets or releases it and a waiting thread is resumed as its owner.  Every
    thread that does not own it runs at its own priority, the owner at its own or a better
    one; and when the queue is in order of priority, never at a worse one than a thread
    that waits.  In order of arrival, which the AT client and the socket layer choose, the
    last point is lost at a hand-over: a thread that waits behind the new owner waits at a
    better priority than the owner runs at. *)
Theorem mutex_refines_lock base order acts rs l :
  (∀ t, 0 <= base t < 256) → lock_run base order acts free_lock = Some (rs, l) →
  wp (mutex_run acts) (λ rs' w, rs' = rs ∧
    owner (mutex w) = (fst <$> holder l) ∧ (tid <$> mutex_waiting (mutex w)) = waiters l ∧
    (∀ t, owner (mutex w) ≠ Some t → priority w t = base t) ∧
    (∀ o, owner (mutex w) = Some o → (o ∉ waiters l) ∧ 0 <= priority w o <= base o ∧
      (order ≠ RT_IPC_FLAG_FIFO → Forall (λ u, priority w o <= base u) (waiters l))))
    (fresh_mutex base order) ∧
  (∀ a b q c, holder l = Some (a, 1%nat) → waiters l = b :: q → c ∈ q → base c < base b →
    wp (mutex_run (acts ++ [Release a])) (λ _ w, owner (mutex w) = Some b ∧
      (tid <$> mutex_waiting (mutex w)) = q ∧ priority w c < priority w b) (fresh_mutex base order)).
Proof.
  intros Hbase Hrun. split.
  - eapply wp_mono; [by eapply run_refines; [|apply fresh_refines|exact Hrun]|]. cbn beta.
    intros rs' w [-> Hr]. split; [done|]. split; [apply Hr|]. split; [apply Hr|].
    rewrite (ref_owner _ _ _ _ Hr). split; [apply Hr|]. intros o Ho.
    destruct (holder l) as [[o' d]|] eqn:E; [|done]. injection Ho as ->.
    destruct (ref_boosted _ _ _ _ Hr o d E) as [Hp Hw]. split; [|by split].
    by apply (ref_apart _ _ _ _ Hr o d).
  - intros a b q c Hh Hw Hc Hlt.
    pose proof (run_refines base order Hbase acts _ _ _ _ (fresh_refines base order) Hrun) as Hw1.
    unfold wp in Hw1 |- *. rewrite mutex_run_app.
    destruct (mutex_run acts (fresh_mutex base order)) as [[rs1 w]|]; [|done]. destruct Hw1 as [-> Hr].
    pose proof (hand_over base order Hbase l w a b q c Hr Hh Hw Hc Hlt) as H. unfold wp in H.
    by destruct (mutex_act (Release a) w) as [[r w2]|].
Qed.

(** Two threads at priorities 20 and 15 and one at 5, a queue in order of arrival. *)
Definition three (t : Z) : Z := if t =? 1 then 20 else if t =? 2 then 15 else 5.
Definition contend : list mutex_action :=
  [Take 1 0; Take 1 0; Take 2 RT_WAITING_FOREVER; Take 3 RT_WAITING_FOREVER; Release 2; Release 3; Release 1].

Lemma mutex_refines_lock_witness :
  wp (mutex_run contend) (λ _ w, priority w 1 = 5 ∧ owner (mutex w) = Some 1) (fresh_mutex three RT_IPC_FLAG_FIFO) ∧
  wp (mutex_run (contend ++ [Release 1])) (λ _ w, owner (mutex w) = Some 2 ∧ priority w 3 < priority w 2)
    (fresh_mutex three RT_IPC_FLAG_FIFO).
Proof.
  assert (∀ t, 0 <= three t < 256) as Hb.
  { intros t. unfold three. destruct (t =? 1), (t =? 2); lia. }
  destruct (mutex_refines_lock three RT_IPC_FLAG_FIFO contend _ _ Hb eq_refl) as [_ H].
  split; [by vm_compute|].
  eapply wp_mono; [apply (H 1 2 [3] 3); [reflexivity|reflexivity|by left|done]|].
  cbn beta. intros r w (Ho & _ & Hp). by split.
Defined.
