(* ===== verification/Poll.v ===== *)
(** [poll] (components/dfs/src/poll.c) with the file table it takes its files from
    (fd_get, fd_put of dfs.c).

    One thread is in [poll]; everything else it shares with interrupts and other threads.
    [place] says where the thread stands, and a step is one section it runs with interrupts
    disabled or one access to what it shares; a section [Get] or [Put] is a call of [fd_get]
    or [fd_put], with the mutex [fslock] around it (Mutex.v).  A file is the mask its [poll]
    operation computes and its wait queue.  Between the steps, events come up at files and
    go away, the timer of the thread expires and other threads use the mutex.

    A node of the poll table is known by its place in the array [fds]. *)

From S2P Require Import Prelude Event Mutex WaitQueue.

Definition DFS_FD_OFFSET := 3.

Record pollfd : Type := MkPollfd { fd : Z; events : Z; revents : Z }.
#[global] Instance pollfd_eta : Eta pollfd := λ f, MkPollfd (fd f) (events f) (revents f).

(** [pollable]: the file has a [poll] operation. *)
Record file : Type := MkFile {
  pollable : bool;
  ready : Z;
  queue : rt_wqueue;
  ref_count : Z }.
#[global] Instance file_eta : Eta file := λ f, MkFile (pollable f) (ready f) (queue f) (ref_count f).

(** The file an entry of the array is at, while it is visited. *)
Inductive section : Type :=
  | Get (n num : nat) (found : bool)
  | Put (n num : nat) (mask : Z).

Inductive poll_place : Type :=
  | Scan (n num : nat)
  | Lock (s : section)
  | LockWait (s : section)
  | Locked (s : section)
  | Unlock (s : section)
  | Adding (n num : nat)
  | Masking (n num : nat)
  | Deciding (num : nat)
  | PollAsleep
  | PollWoken
  | Teardown (num : nat)
  | Polled (num : nat).

(** [triggered], [proc] and [nodes] are the poll table, the newest node first; [timer] is
    the timer of the thread. *)
Record poller : Type := MkPoller {
  fds : list pollfd;
  files : gmap Z file;
  fslock : threads;
  triggered : bool;
  proc : bool;
  nodes : list nat;
  istimeout : bool;
  timer : bool;
  place : poll_place }.
#[global] Instance poller_eta : Eta poller := λ p,
  MkPoller (fds p) (files p) (fslock p) (triggered p) (proc p) (nodes p) (istimeout p) (timer p) (place p).

Section poll.
(** The thread; the time limit; the file the console is at, and the size of the table;
    whether the allocation of each node succeeds. *)
Variables (self msec stdio_console maxfd : Z).
Variable rt_malloc : nat → bool.

Definition goto (pl : poll_place) : io poller unit := modify (λ p, p <| place := pl |>).
Definition set_file (i : Z) (f : file) : io poller unit :=
  modify (λ p, p <| files := <[i := f]> (files p) |>).

(** An operation of the mutex. *)
Definition on_fslock {A} (m : io threads A) : io poller A := λ p,
  match m (fslock p) with
  | Ret (a, w) => Ret (a, p <| fslock := w |>)
  | Fault f => Fault f
  end.

(** The entry of a descriptor in the table. *)
Definition fd_index (d : Z) : option Z :=
  let d := if (0 <=? d) && (d <=? 2) then stdio_console else d in
  let i := d - DFS_FD_OFFSET in
  if (i <? 0) || (maxfd <=? i) then None else Some i.

(** [req->_key] *)
Definition poll_key (f : pollfd) : Z := Z.lor (events f) (Z.lor POLLERR POLLHUP).

(** The end of [do_pollfd] and of the turn of the loop in [poll_do]. *)
Definition store (n num : nat) (mask : Z) : io poller unit :=
  modify (λ p, p <| fds := alter (λ f, f <| revents := mask |>) n (fds p) |>) ;;
  if mask =? 0 then goto (Scan (S n) num)
  else modify (λ p, p <| proc := false |>) ;; goto (Scan (S n) (S num)).

(** * Waking *)

(** [rt_thread_resume]: wherever the thread is suspended. *)
Definition resume_poller : io poller unit := λ p,
  match place p with
  | PollAsleep => Ret (tt, p <| place := PollWoken |> <| timer := false |>)
  | LockWait s =>
      let w := fslock p in
      let w := w <| mutex := (mutex w) <| mutex_waiting :=
        List.filter (λ t, negb (tid t =? self)) (mutex_waiting (mutex w)) |> |> in
      Ret (tt, p <| fslock := w |> <| place := Locked s |>)
  | _ => Ret (tt, p)
  end.

(** Events come up at a file: they are in its mask, and its queue is woken with them. *)
Definition raise (i bits : Z) : io poller unit :=
  o ← gets (λ p, files p !! i);
  match o with
  | None => mret tt
  | Some f =>
      let '(q, woken) := rt_wqueue_wakeup (queue f) bits in
      set_file i (f <| ready := Z.lor (ready f) bits |> <| queue := q |>) ;;
      match woken with
      | None => mret tt
      | Some n =>
          (match wakeup n with
           | WakePoll => modify (λ p, p <| triggered := true |>)
           | WakeDefault => mret tt
           end) ;;
          if polling_thread n =? self then resume_poller else mret tt
      end
  end.

(** Another thread takes what was there. *)
Definition clear (i bits : Z) : io poller unit :=
  o ← gets (λ p, files p !! i);
  match o with
  | None => mret tt
  | Some f => set_file i (f <| ready := Z.ldiff (ready f) bits |>)
  end.

Definition timer_expires : io poller unit :=
  modify (λ p, match place p with
               | PollAsleep => if timer p then p <| place := PollWoken |> <| timer := false |> else p
               | _ => p
               end).

(** Another thread at the mutex; a release may hand it over to the thread in [poll]. *)
Definition other_locks (a : mutex_action) : io poller unit :=
  if actor a =? self then mret tt
  else
    r ← on_fslock (mutex_act a);
    pl ← gets place;
    match r, pl with
    | Some (MutexReleased (Some t)), LockWait s => if t =? self then goto (Locked s) else mret tt
    | _, _ => mret tt
    end.

(** * The thread *)

(** [poll_do] with the array read so far, and the first part of [do_pollfd]. *)
Definition scan (n num : nat) : io poller unit :=
  o ← gets (λ p, fds p !! n);
  match o with
  | None => modify (λ p, p <| proc := false |>) ;; goto (Deciding num)
  | Some f =>
      if fd f <? 0 then store n num 0
      else
        match fd_index (fd f) with
        | None => store n num POLLNVAL
        | Some _ => goto (Lock (Get n num false))
        end
  end.

(** [dfs_lock]: any result but -RT_EBUSY and RT_EOK fails the assertion. *)
Definition dfs_lock (s : section) : io poller unit :=
  r ← on_fslock (rt_mutex_take self RT_WAITING_FOREVER);
  match r with
  | MutexTaken => goto (Locked s)
  | MutexSuspended => goto (LockWait s)
  | _ => io_fault AssertFailed
  end.

Definition entry (n : nat) : io poller (option (pollfd * Z)) :=
  gets (λ p, f ← fds p !! n; i ← fd_index (fd f); Some (f, i)).

(** What [fd_get] and [fd_put] do under the mutex. *)
Definition in_section (s : section) : io poller unit :=
  match s with
  | Get n num _ =>
      e ← entry n;
      match e with
      | None => goto (Unlock (Get n num false))
      | Some (_, i) =>
          o ← gets (λ p, files p !! i);
          match o with
          | None => goto (Unlock (Get n num false))
          | Some f =>
              set_file i (f <| ref_count := ref_count f + 1 |>) ;; goto (Unlock (Get n num true))
          end
      end
  | Put n num mask =>
      e ← entry n;
      match e with
      | None => goto (Unlock (Put n num mask))
      | Some (_, i) =>
          o ← gets (λ p, files p !! i);
          match o with
          | None => goto (Unlock (Put n num mask))
          | Some f =>
              (if ref_count f - 1 =? 0 then modify (λ p, p <| files := delete i (files p) |>)
               else set_file i (f <| ref_count := ref_count f - 1 |>)) ;;
              goto (Unlock (Put n num mask))
          end
      end
  end.

(** [dfs_unlock], which ignores the result, and what comes after it. *)
Definition dfs_unlock (s : section) : io poller unit :=
  on_fslock (rt_mutex_release self) ;;
  match s with
  | Get n num false => store n num POLLNVAL
  | Get n num true =>
      e ← entry n;
      o ← gets (λ p, match e with Some (_, i) => files p !! i | None => None end);
      match e, o with
      | Some (f, _), Some fl =>
          if pollable fl then goto (Adding n num)
          else goto (Lock (Put n num (Z.land POLLMASK_DEFAULT (poll_key f))))
      | _, _ => io_fault NullDeref
      end
  | Put n num mask => store n num mask
  end.

(** [rt_poll_add] and [_poll_add]: without room for a node there is none. *)
Definition rt_poll_add (n num : nat) : io poller unit :=
  e ← entry n;
  o ← gets (λ p, match e with Some (_, i) => files p !! i | None => None end);
  pr ← gets proc;
  match e, o with
  | Some (f, i), Some fl =>
      (if pr && rt_malloc n then
         set_file i (fl <| queue := rt_wqueue_add (queue fl) (MkNode (Z.of_nat n) self (poll_key f) WakePoll) |>) ;;
         modify (λ p, p <| nodes := n :: nodes p |>)
       else mret tt) ;;
      goto (Masking n num)
  | _, _ => io_fault NullDeref
  end.

Definition read_mask (n num : nat) : io poller unit :=
  e ← entry n;
  o ← gets (λ p, match e with Some (_, i) => files p !! i | None => None end);
  match e, o with
  | Some (f, _), Some fl => goto (Lock (Put n num (Z.land (ready fl) (poll_key f))))
  | _, _ => io_fault NullDeref
  end.

(** The end of [poll_wait_timeout]. *)
Definition waited : io poller unit :=
  t ← gets triggered;
  (if t : bool then mret tt else modify (λ p, p <| istimeout := true |>)) ;;
  goto (Scan 0 0).

(** [timeout] is an rt_int32_t. *)
Definition timeout : Z := let t := rt_tick_from_millisecond msec in if 2147483648 <=? t then t - 4294967296 else t.

Definition decide_wait (num : nat) : io poller unit :=
  over ← gets istimeout;
  t ← gets triggered;
  if negb (num =? 0)%nat || over then goto (Teardown num)
  else if negb (timeout =? 0) && negb t then
    modify (λ p, p <| timer := 0 <? timeout |>) ;; goto PollAsleep
  else waited.

(** One node of [poll_teardown]. *)
Definition teardown (num : nat) : io poller unit :=
  l ← gets nodes;
  match l with
  | [] => goto (Polled num)
  | n :: l =>
      e ← entry n;
      (match e with
       | Some (_, i) =>
           o ← gets (λ p, files p !! i);
           match o with
           | Some fl => set_file i (fl <| queue := rt_wqueue_remove (queue fl) (Z.of_nat n) |>)
           | None => mret tt
           end
       | None => mret tt
       end) ;;
      modify (λ p, p <| nodes := l |>)
  end.

Definition poll_step : io poller unit :=
  pl ← gets place;
  match pl with
  | Scan n num => scan n num
  | Lock s => dfs_lock s
  | LockWait _ => mret tt
  | Locked s => in_section s
  | Unlock s => dfs_unlock s
  | Adding n num => rt_poll_add n num
  | Masking n num => read_mask n num
  | Deciding num => decide_wait num
  | PollAsleep => mret tt
  | PollWoken => waited
  | Teardown num => teardown num
  | Polled _ => mret tt
  end.

Inductive poll_action : Type :=
  | PollStep
  | Raise (i bits : Z)
  | Clear (i bits : Z)
  | TimerExpires
  | OtherLocks (a : mutex_action).

Definition poll_act (a : poll_action) : io poller unit :=
  match a with
  | PollStep => poll_step
  | Raise i bits => raise i bits
  | Clear i bits => clear i bits
  | TimerExpires => timer_expires
  | OtherLocks a => other_locks a
  end.

Fixpoint poll_run (acts : list poll_action) : io poller unit :=
  match acts with [] => mret tt | a :: acts => poll_act a ;; poll_run acts end.

(** [poll] up to its loop. *)
Definition poll (l : list pollfd) (table : gmap Z file) (w : threads) : poller :=
  MkPoller l table w false (negb (msec =? 0)) [] (msec =? 0) false (Scan 0 0).
End poll.
