(* ===== verification/PollSpec.v ===== *)
(** [poll] (Poll.v): with memory for its nodes it never sleeps on an event it was asked for,
    and what it returns; and the two ways in which a wake-up goes wrong. *)

From S2P Require Import Prelude Event Mutex WaitQueue Poll.

Section poll.
Variables (self msec stdio_console maxfd : Z).
Variable rt_malloc : nat → bool.
(** What the array asks for: descriptors and events. *)
Variable asked : list (Z * Z).

Abbreviation step := (poll_step self msec stdio_console maxfd rt_malloc).
Abbreviation act := (poll_act self msec stdio_console maxfd rt_malloc).
Abbreviation run := (poll_run self msec stdio_console maxfd rt_malloc).

(** * What is there *)

(** What matters of a file, but for the references to it. *)
Definition view (fs : gmap Z file) (i : Z) : option (bool * Z * rt_wqueue) :=
  (λ f, (pollable f, ready f, queue f)) <$> fs !! i.

Definition at_index (n : nat) : option Z :=
  a ← asked !! n; if a.1 <? 0 then None else fd_index stdio_console maxfd a.1.
Definition key (n : nat) : Z :=
  match asked !! n with Some a => Z.lor a.2 (Z.lor POLLERR POLLHUP) | None => 0 end.
Definition node (n : nat) : rt_wqueue_node := MkNode (Z.of_nat n) self (key n) WakePoll.

(** The mask an entry of the array would get now. *)
Definition event_now (fs : gmap Z file) (n : nat) : Z :=
  match asked !! n with
  | None => 0
  | Some a =>
      if a.1 <? 0 then 0
      else match fd_index stdio_console maxfd a.1 with
           | None => POLLNVAL
           | Some i =>
               match view fs i with
               | None => POLLNVAL
               | Some (pl, rd, _) => Z.land (if pl : bool then rd else POLLMASK_DEFAULT) (key n)
               end
           end
  end.

Definition registered (fs : gmap Z file) (n : nat) : Prop :=
  ∀ i rd q, at_index n = Some i → view fs i = Some (true, rd, q) → node n ∈ waiting_list q.

Definition calm (fs : gmap Z file) (n : nat) : Prop := event_now fs n = 0 ∧ registered fs n.

Lemma calm_ext fs fs' n : (∀ i, view fs' i = view fs i) → calm fs n → calm fs' n.
Proof.
  intros H [He Hr]. split.
  - rewrite <- He. unfold event_now. destruct (asked !! n); [|done]. case_if; [done|].
    destruct (fd_index _ _ _); [|done]. cbn. by rewrite H.
  - intros i rd q. rewrite H. apply Hr.
Qed.

(** The entries that have a result, among the first [n]. *)
Definition hits (p : poller) (n : nat) : nat :=
  length (List.filter (λ f, negb (revents f =? 0)) (take n (fds p))).

(** * The invariant *)

(** The thread has no reason to sleep, or it has all the nodes it needs. *)
Definition watching (p : poller) (n : nat) : Prop :=
  istimeout p = true ∨ triggered p = true ∨
  proc p = true ∧ ∀ m, (m < n)%nat → calm (files p) m.

Definition scanning (p : poller) (n num : nat) : Prop :=
  (n <= length asked)%nat ∧ num = hits p n ∧ (num = 0%nat → watching p n).

(** At an entry with a descriptor in the table. *)
Definition visiting (p : poller) (n num : nat) : Prop :=
  (n < length asked)%nat ∧ is_Some (at_index n) ∧ scanning p n num.

Definition held (p : poller) (n : nat) : Prop :=
  ∃ i v, at_index n = Some i ∧ view (files p) i = Some v.
Definition held_pollable (p : poller) (n : nat) : Prop :=
  ∃ i rd q, at_index n = Some i ∧ view (files p) i = Some (true, rd, q).

(** The entry has got its mask. *)
Definition masked (p : poller) (n num : nat) (mask : Z) : Prop :=
  visiting p n num ∧ (num = 0%nat → mask = 0 → watching p (S n)).

Definition section_ok (p : poller) (s : section) : Prop :=
  match s with
  | Get n num _ => visiting p n num
  | Put n num mask => masked p n num mask ∧ held p n
  end.

Definition all_calm (p : poller) : Prop := ∀ m, (m < length asked)%nat → calm (files p) m.

Definition place_ok (p : poller) : Prop :=
  match place p with
  | Scan n num => scanning p n num
  | Lock s | LockWait s | Locked s => section_ok p s
  | Unlock (Get n num found) => visiting p n num ∧ (found = true → held p n)
  | Unlock (Put n num mask) => masked p n num mask
  | Adding n num => visiting p n num ∧ held_pollable p n
  | Masking n num =>
      visiting p n num ∧ held_pollable p n ∧
      (num = 0%nat → watching p n ∧ (istimeout p = true ∨ triggered p = true ∨ registered (files p) n))
  | Deciding num =>
      proc p = false ∧ num = hits p (length asked) ∧
      (num = 0%nat → istimeout p = true ∨ triggered p = true ∨ all_calm p)
  | PollAsleep => proc p = false ∧ triggered p = false ∧ istimeout p = false ∧ all_calm p
  | PollWoken => proc p = false ∧ istimeout p = false
  | Teardown num => num = hits p (length asked) ∧ (num = 0%nat → istimeout p = true)
  | Polled num => num = hits p (length asked) ∧ (num = 0%nat → istimeout p = true) ∧ nodes p = []
  end.

(** The entry whose file the thread has a reference to. *)
Definition holding (pl : poll_place) : option nat :=
  match pl with
  | Unlock (Get n _ true) | Adding n _ | Masking n _
  | Lock (Put n _ _) | LockWait (Put n _ _) | Locked (Put n _ _) => Some n
  | _ => None
  end.
Definition own_refs (pl : poll_place) (i : Z) : Z :=
  if bool_decide (holding pl ≫= at_index = Some i) then 1 else 0.

Definition mutex_ok (m : rt_mutex) : Prop :=
  owner m = None ∧ mutex_value m = 1 ∨ owner m ≠ None ∧ mutex_value m = 0.

(** Everything but what the place says, for a thread at [pl]. *)
Record based (p : poller) (pl : poll_place) : Prop := {
  bs_asked : (λ f, (fd f, events f)) <$> fds p = asked;
  bs_nodes : ∀ i f nd, files p !! i = Some f → nd ∈ waiting_list (queue f) →
    ∃ n, nd = node n ∧ at_index n = Some i ∧ n ∈ nodes p;
  bs_refs : ∀ i f, files p !! i = Some f → own_refs pl i + 1 <= ref_count f;
  bs_mutex : mutex_ok (mutex (fslock p));
  bs_owner : ∀ s, pl = LockWait s → owner (mutex (fslock p)) ≠ Some self }.

Definition poll_ok (p : poller) : Prop := based p (place p) ∧ place_ok p.

(** ** Moving on *)

Lemma own_refs_none pl i : holding pl = None → own_refs pl i = 0.
Proof. intros H. unfold own_refs. by rewrite H. Qed.

Lemma own_refs_nonneg pl i : 0 <= own_refs pl i.
Proof. unfold own_refs. by case_if. Qed.

(** From one place to another with the same reference. *)
Lemma based_move p pl pl' : based p pl → (∀ i, own_refs pl' i <= own_refs pl i) →
  (∀ s, pl' ≠ LockWait s) → based p pl'.
Proof.
  intros [? ? Hr ? ?] Hle Hl. split; try done.
  - intros i f Hi. specialize (Hr i f Hi). specialize (Hle i). lia.
  - intros s ->. by destruct (Hl s).
Qed.

Lemma own_refs_le pl pl' i : holding pl' = None ∨ holding pl' = holding pl → own_refs pl' i <= own_refs pl i.
Proof.
  intros [H|H].
  - rewrite own_refs_none by done. apply own_refs_nonneg.
  - unfold own_refs. by rewrite H.
Qed.

Lemma goto_ok p pl pl' : based p pl → holding pl' = None ∨ holding pl' = holding pl →
  (∀ s, pl' ≠ LockWait s) → place_ok (p <| place := pl' |>) → wp (goto pl') (λ _, poll_ok) p.
Proof.
  intros Hb Hh Hl Hp. apply wp_modify. split; [|done].
  assert (based p pl') as [] by (eapply based_move; [exact Hb| |done]; intros; by apply own_refs_le). by split.
Qed.

Lemma asked_length p pl : based p pl → length (fds p) = length asked.
Proof. intros Hb. rewrite <- (bs_asked _ _ Hb). by rewrite length_fmap. Qed.

Lemma asked_lookup p pl n f : based p pl → fds p !! n = Some f → asked !! n = Some (fd f, events f).
Proof. intros Hb Hn. rewrite <- (bs_asked _ _ Hb), list_lookup_fmap, Hn. done. Qed.

Lemma key_asked p pl n f : based p pl → fds p !! n = Some f → poll_key f = key n.
Proof. intros Hb Hn. unfold key. by rewrite (asked_lookup _ _ _ _ Hb Hn). Qed.

(** The entry of the array, for a descriptor in the table. *)
Lemma entry_at p pl n i : based p pl → at_index n = Some i →
  ∃ f, fds p !! n = Some f ∧ fd_index stdio_console maxfd (fd f) = Some i ∧ poll_key f = key n ∧
    (f ← fds p !! n; i ← fd_index stdio_console maxfd (fd f); Some (f, i)) = Some (f, i).
Proof.
  intros Hb H. pose proof H as H0. unfold at_index in H. rewrite <- (bs_asked _ _ Hb), list_lookup_fmap in H.
  destruct (fds p !! n) as [f|] eqn:E; [|done]. cbn in H. destruct (fd f <? 0); [done|].
  exists f. split_and!; [done|done|by eapply key_asked|]. cbn. by rewrite H.
Qed.

Lemma hits_store p n mask f : fds p !! n = Some f →
  hits (p <| fds := alter (λ f, f <| revents := mask |>) n (fds p) |>) (S n) =
    (hits p n + if (mask =? 0)%Z then 0 else 1)%nat.
Proof.
  intros Hn. unfold hits. cbn [fds].
  change (fds (p <| fds := alter (λ f, f <| revents := mask |>) n (fds p) |>))
    with (alter (λ f, f <| revents := mask |>) n (fds p)).
  rewrite (take_S_r _ n (f <| revents := mask |>)); [|rewrite list_lookup_alter_eq, Hn; reflexivity].
  rewrite take_alter, decide_False by lia. rewrite List.filter_app, length_app. cbn. by destruct (mask =? 0).
Qed.

Lemma store_ok p pl n num mask : based p pl → holding pl = None → (n < length asked)%nat →
  scanning p n num → (num = 0%nat → mask = 0 → watching p (S n)) →
  wp (store n num mask) (λ _, poll_ok) p.
Proof.
  intros Hb Hh Hn (_ & Hnum & _) Hw.
  destruct (lookup_lt_is_Some_2 (fds p) n) as [f Hf]; [by rewrite (asked_length _ _ Hb)|].
  pose proof (hits_store p n mask f Hf) as Hhit.
  unfold store. apply wp_bind, wp_modify. set (p1 := p <| fds := _ |>) in *.
  assert (based p1 pl) as Hb1.
  { destruct Hb as [Ha ? ? ? ?]. split; try done. cbn. rewrite <- Ha.
    apply list_eq. intros m. rewrite !list_lookup_fmap. destruct (decide (m = n)) as [->|Hm].
    - rewrite list_lookup_alter_eq, Hf. done.
    - by rewrite list_lookup_alter_ne. }
  revert Hhit. destruct (mask =? 0) eqn:E; intros Hhit; bool_prop.
  - apply (goto_ok p1 pl _ Hb1); [by left|done|]. split; [lia|]. split; [|intros H; by apply Hw].
    rewrite Hnum. symmetry. etransitivity; [exact Hhit|]. lia.
  - apply wp_bind, wp_modify. assert (based (p1 <| proc := false |>) pl) as Hb2 by by destruct Hb1.
    apply (goto_ok _ pl _ Hb2); [by left|done|]. split; [lia|]. split; [|done].
    rewrite Hnum. symmetry. etransitivity; [exact Hhit|]. lia.
Qed.

(** ** The thread *)

Lemma scan_ok p n num : based p (Scan n num) → scanning p n num →
  wp (scan stdio_console maxfd n num) (λ _, poll_ok) p.
Proof.
  intros Hb Hs. pose proof Hs as (Hn & Hnum & Hw). pose proof (asked_length _ _ Hb) as Hlen.
  unfold scan. apply wp_bind, wp_gets. destruct (fds p !! n) as [f|] eqn:Ef.
  - assert (n < length asked)%nat as Hlt by (rewrite <- Hlen; by eapply lookup_lt_Some).
    pose proof (asked_lookup _ _ _ _ Hb Ef) as Ha. destruct (fd f <? 0) eqn:E.
    + apply (store_ok _ (Scan n num)); [done..|]. intros H0 _. destruct (Hw H0) as [?|[?|[Hp Hc]]]; [by left|by right; left|].
      right; right. split; [done|]. intros m Hm. destruct (decide (m = n)) as [->|]; [|apply Hc; lia].
      split; [unfold event_now; by rewrite Ha; cbn; rewrite E|].
      intros i rd q Hi. unfold at_index in Hi. rewrite Ha in Hi. cbn in Hi. by rewrite E in Hi.
    + destruct (fd_index stdio_console maxfd (fd f)) as [i|] eqn:Ei; [|by apply (store_ok _ (Scan n num))].
      apply (goto_ok _ (Scan n num)); [done|by left|done|]. split_and!; [done| |done].
      unfold at_index. rewrite Ha. cbn. rewrite E, Ei. by eexists.
  - assert (n = length asked) as -> by (apply lookup_ge_None in Ef; lia).
    apply wp_bind, wp_modify. apply (goto_ok _ (Scan (length asked) num)); [by destruct Hb|by left|done|].
    split; [done|]. split; [done|]. intros H0. destruct (Hw H0) as [?|[?|[_ Hc]]]; [by left|by right; left|by right; right].
Qed.

(** The mutex, for any thread. *)
Lemma mutex_take_ok w t time : mutex_ok (mutex w) →
  wp (rt_mutex_take t time) (λ r w', mutex_ok (mutex w') ∧
    (r = MutexTaken ∧ owner (mutex w') = Some t ∨
     (r = MutexSuspended ∨ time = 0 ∧ r = MutexFailed (- RT_ETIMEOUT)) ∧
     owner (mutex w') = owner (mutex w) ∧ owner (mutex w) ≠ Some t)) w.
Proof.
  intros Hm. unfold rt_mutex_take. apply wp_bind, wp_gets. case_bool_decide as Ho.
  - apply wp_bind, wp_modify, wp_ret. split; [|by left; split; [|cbn]].
    destruct Hm as [[H _]|[_ H]]; [congruence|]. right. cbn. by rewrite Ho.
  - destruct Hm as [[Hn Hv]|[Hn Hv]]; rewrite Hv; cbn [Z.ltb Z.compare].
    + apply wp_bind, wp_gets, wp_bind, wp_modify, wp_ret. split; [|by left]. right. split; [done|]. cbn. by rewrite ?Hv.
    + destruct (time =? 0) eqn:Et; bool_prop.
      { apply wp_ret. split; [by right|]. right. split; [by right|done]. }
      destruct (owner (mutex w)) as [o|] eqn:Eo; [|done]. apply wp_bind, wp_gets, wp_bind, wp_gets, wp_bind.
      eapply (wp_mono _ (λ _ w', mutex w' = mutex w)).
      { case_if; [by apply wp_modify|by apply wp_ret]. }
      intros _ w' E. apply wp_bind, wp_modify, wp_ret. cbn. rewrite E. split; [right; cbn; by rewrite Eo, Hv|].
      right. split; [by left|done].
Qed.

Lemma mutex_release_ok w t : mutex_ok (mutex w) →
  wp (rt_mutex_release t) (λ r w', mutex_ok (mutex w') ∧
    (owner (mutex w) ≠ Some t → owner (mutex w') = owner (mutex w)) ∧
    match r with
    | MutexReleased (Some u) => owner (mutex w') = Some u
    | _ => owner (mutex w') = owner (mutex w) ∨ owner (mutex w') = None
    end) w.
Proof.
  intros Hm. unfold rt_mutex_release. apply wp_bind, wp_gets. case_bool_decide as Ho.
  2: { apply wp_ret. split_and!; [done|done|by left]. }
  assert (mutex_value (mutex w) = 0) as Hv by (destruct Hm as [[? _]|[_ ?]]; congruence).
  apply wp_bind, wp_modify, wp_bind, wp_gets. case_if.
  2: { apply wp_ret. split_and!; [right; cbn; by rewrite Ho, Hv|done|by left]. }
  apply wp_bind, wp_gets, wp_bind.
  eapply (wp_mono _ (λ _ w', owner (mutex w') = Some t ∧ mutex_value (mutex w') = 0)).
  { case_if; [by apply wp_modify|by apply wp_ret]. }
  intros _ w' [E1 E2]. rewrite Ho. destruct (mutex_waiting (mutex w)) as [|u q].
  - apply wp_bind, wp_modify, wp_ret. split_and!; [left; cbn; by rewrite E2|done|by right].
  - apply wp_bind, wp_gets, wp_bind, wp_modify, wp_ret. split_and!; [right; cbn; by rewrite E2|done|done].
Qed.

Lemma wp_on_fslock {A} (m : io threads A) (Q : A → poller → Prop) p :
  wp m (λ a w, Q a (p <| fslock := w |>)) (fslock p) → wp (on_fslock m) Q p.
Proof. unfold wp, on_fslock. by destruct (m (fslock p)) as [[]|]. Qed.

Lemma lock_ok p s : based p (Lock s) → section_ok p s → wp (dfs_lock self s) (λ _, poll_ok) p.
Proof.
  intros [Ha Hn Hr Hm _] Hs. unfold dfs_lock. apply wp_bind, wp_on_fslock.
  eapply wp_mono; [by apply mutex_take_ok|]. intros r w (Hm' & Hr'). cbn beta.
  assert (∀ pl, holding pl = holding (Lock s) → place_ok (p <| fslock := w |> <| place := pl |>) →
    (∀ s', pl = LockWait s' → owner (mutex w) ≠ Some self) →
    wp (goto pl) (λ _, poll_ok) (p <| fslock := w |>)) as Hgo.
  { intros pl Hh Hpl Hown. apply wp_modify. split; [|exact Hpl]. split; try done.
    intros i f Hi. cbn. unfold own_refs. rewrite Hh. by apply Hr. }
  destruct Hr' as [[-> _]|([->|[? _]] & E & Hne)]; [| |done]; apply Hgo; try done.
  intros _ _. by rewrite E.
Qed.

(** ** Changes around the thread *)

(** What may change at the files, and when the thread is triggered, without the thread
    going anywhere. *)
Record around (p p' : poller) : Prop := {
  ar_fds : fds p' = fds p;
  ar_over : istimeout p' = istimeout p;
  ar_proc : proc p' = proc p;
  ar_nodes : nodes p' = nodes p;
  ar_place : place p' = place p;
  ar_files : ∀ i v, view (files p) i = Some v → ∃ v', view (files p') i = Some v' ∧ v'.1.1 = v.1.1;
  ar_calm : triggered p' = true ∧ place p ≠ PollAsleep ∨
    triggered p' = triggered p ∧ ∀ n, registered (files p) n → registered (files p') n ∧
      (event_now (files p) n = 0 → event_now (files p') n = 0) }.

Lemma around_held p p' n : around p p' → held p n → held p' n.
Proof. intros Har (i & v & Hi & Hv). destruct (ar_files _ _ Har i v Hv) as (v' & Hv' & _). by exists i, v'. Qed.

Lemma around_pollable p p' n : around p p' → held_pollable p n → held_pollable p' n.
Proof.
  intros Har (i & rd & q & Hi & Hv). destruct (ar_files _ _ Har i _ Hv) as ([[pl rd'] q'] & Hv' & E).
  cbn in E. subst. by exists i, rd', q'.
Qed.

Lemma around_calm p p' n : around p p' → calm (files p) n → triggered p' = true ∨ calm (files p') n.
Proof.
  intros Har [He Hr]. destruct (ar_calm _ _ Har) as [[? _]|[_ H]]; [by left|].
  destruct (H n Hr) as [Hr' He']. right. split; [by apply He'|done].
Qed.

Lemma around_triggered p p' : around p p' → triggered p = true → triggered p' = true.
Proof. intros Har H. destruct (ar_calm _ _ Har) as [[? _]|[-> _]]; done. Qed.

Lemma around_all_calm p p' n : around p p' → (∀ m, (m < n)%nat → calm (files p) m) →
  triggered p' = true ∨ ∀ m, (m < n)%nat → calm (files p') m.
Proof.
  intros Har H. destruct (triggered p') eqn:E; [by left|]. right. intros m Hm.
  destruct (around_calm _ _ m Har (H m Hm)) as [|]; [congruence|done].
Qed.

Lemma around_watching p p' n : around p p' → watching p n → watching p' n.
Proof.
  intros Har [H|[H|[Hp H]]].
  - left. by rewrite (ar_over _ _ Har).
  - right; left. by eapply around_triggered.
  - destruct (around_all_calm _ _ n Har H) as [?|?]; [by right; left|]. right; right.
    by rewrite (ar_proc _ _ Har).
Qed.

Lemma around_scanning p p' n num : around p p' → scanning p n num → scanning p' n num.
Proof.
  intros Har (? & Hnum & Hw). split_and!; [done| |intros; by eapply around_watching, Hw].
  unfold hits. by rewrite (ar_fds _ _ Har).
Qed.

Lemma around_visiting p p' n num : around p p' → visiting p n num → visiting p' n num.
Proof. intros Har (? & ? & ?). split_and!; try done. by eapply around_scanning. Qed.

Lemma around_masked p p' n num mask : around p p' → masked p n num mask → masked p' n num mask.
Proof.
  intros Har [Hv Hw]. split; [by eapply around_visiting|]. intros. by eapply around_watching, Hw.
Qed.

Lemma around_section p p' s : around p p' → section_ok p s → section_ok p' s.
Proof.
  intros Har. destruct s; cbn; [by apply around_visiting|].
  intros [H ?]. split; [by eapply around_masked|by eapply around_held].
Qed.

Lemma around_hits p p' n : around p p' → hits p' n = hits p n.
Proof. intros Har. unfold hits. by rewrite (ar_fds _ _ Har). Qed.

Lemma around_place p p' : around p p' → place_ok p → place_ok p'.
Proof.
  intros Har. unfold place_ok. rewrite (ar_place _ _ Har). destruct (place p) eqn:Epl.
  - by apply around_scanning.
  - by apply around_section.
  - by apply around_section.
  - by apply around_section.
  - destruct s; [|by apply around_masked]. intros [? ?]. split; [by eapply around_visiting|].
    intros. eapply around_held; eauto.
  - intros [? ?]. split; [by eapply around_visiting|by eapply around_pollable].
  - intros (? & ? & Hw). split_and!; [by eapply around_visiting|by eapply around_pollable|].
    intros Hz. destruct (Hw Hz) as [? Hr]. split; [by eapply around_watching|].
    rewrite (ar_over _ _ Har). destruct Hr as [?|[?|Hr]]; [by left|right; left; by eapply around_triggered|].
    destruct (ar_calm _ _ Har) as [[? _]|[_ Hrc]]; [by right; left|]. right; right. by apply Hrc.
  - rewrite (around_hits _ _ _ Har), (ar_over _ _ Har), (ar_proc _ _ Har). intros (? & ? & Hw). split_and!; [done..|]. intros Hz.
    destruct (Hw Hz) as [?|[?|Hc]]; [by left|right; left; by eapply around_triggered|].
    right. by eapply around_all_calm.
  - rewrite (ar_over _ _ Har), (ar_proc _ _ Har). destruct (ar_calm _ _ Har) as [[_ Hne]|[-> Hrc]]; [by rewrite Epl in Hne|].
    intros (? & ? & ? & Hc). split_and!; [done..|]. intros m Hm. destruct (Hc m Hm) as [He Hr].
    destruct (Hrc m Hr) as [Hr' He']. split; [by apply He'|done].
  - by rewrite (ar_over _ _ Har), (ar_proc _ _ Har).
  - by rewrite (around_hits _ _ _ Har), (ar_over _ _ Har).
  - by rewrite (around_hits _ _ _ Har), (ar_over _ _ Har), (ar_nodes _ _ Har).
Qed.

(** Nothing that a mask or a wake-up depends on. *)
Lemma around_view p p' : fds p' = fds p → istimeout p' = istimeout p → proc p' = proc p →
  nodes p' = nodes p → place p' = place p → triggered p' = triggered p →
  (∀ i, view (files p') i = view (files p) i) → around p p'.
Proof.
  intros ? ? ? ? ? ? Hv. split; try done.
  - intros i v Hi. exists v. by rewrite Hv.
  - right. split; [done|]. intros n Hr. split.
    + intros i rd q Hi. rewrite Hv. by apply Hr.
    + intros He. unfold event_now in *. destruct (asked !! n); [|done]. case_if; [done|].
      destruct (fd_index _ _ _); [|done]. by rewrite Hv.
Qed.

Lemma view_insert fs i f f' j : fs !! i = Some f →
  pollable f' = pollable f → ready f' = ready f → queue f' = queue f → view (<[i := f']> fs) j = view fs j.
Proof.
  intros Hi H1 H2 H3. unfold view. destruct (decide (i = j)) as [<-|Hn].
  - rewrite lookup_insert_eq, Hi. cbn. by rewrite H1, H2, H3.
  - by rewrite lookup_insert_ne.
Qed.

(** ** In the section *)

Lemma wp_entry p pl n i Q : based p pl → at_index n = Some i →
  (∀ f, poll_key f = key n → Q (Some (f, i)) p) → wp (entry stdio_console maxfd n) Q p.
Proof.
  intros Hb Hi H. destruct (entry_at _ _ _ _ Hb Hi) as (f & _ & _ & Hk & E).
  unfold entry. apply wp_gets. cbv beta. rewrite E. by apply H.
Qed.

Lemma view_some fs i v : view fs i = Some v → ∃ f, fs !! i = Some f ∧ (pollable f, ready f, queue f) = v.
Proof. unfold view. destruct (fs !! i) as [f|]; [|done]. intros [= <-]. by exists f. Qed.

(** The references, when the file of the entry gets or loses one. *)
Lemma based_refs p pl pl' n i f k : based p pl → at_index n = Some i → files p !! i = Some f →
  own_refs pl' i + 1 <= k → (∀ j, j ≠ i → own_refs pl' j <= own_refs pl j) → (∀ s, pl' ≠ LockWait s) →
  based (p <| files := <[i := f <| ref_count := k |>]> (files p) |>) pl'.
Proof.
  intros [Ha Hn Hr Hm _] _ Hf Hk Hj Hl. split; try done.
  - intros j fj nd. cbn. destruct (decide (i = j)) as [<-|Hne].
    + rewrite lookup_insert_eq. intros [= <-]. cbn. by apply Hn.
    + rewrite lookup_insert_ne by done. apply Hn.
  - intros j fj. cbn. destruct (decide (i = j)) as [<-|Hne].
    + rewrite lookup_insert_eq. by intros [= <-].
    + rewrite lookup_insert_ne by done. intros Hfj. specialize (Hr _ _ Hfj). specialize (Hj j). cbn in *.
      assert (j ≠ i) by congruence. specialize (Hj ltac:(done)). lia.
  - intros s ->. by destruct (Hl s).
Qed.

Lemma own_refs_at pl n i : holding pl = Some n → at_index n = Some i →
  own_refs pl i = 1 ∧ ∀ j, j ≠ i → own_refs pl j = 0.
Proof.
  intros Hh Hi. unfold own_refs. rewrite Hh. cbn. rewrite Hi. split; [by rewrite bool_decide_true|].
  intros j Hj. rewrite bool_decide_false; [done|congruence].
Qed.

Lemma section_step_ok p s : based p (Locked s) → section_ok p s →
  wp (in_section stdio_console maxfd s) (λ _, poll_ok) p.
Proof.
  intros Hb Hs.
  assert (∀ i f k pl', files p !! i = Some f → place_ok (p <| place := pl' |>) →
    (∀ s', pl' ≠ LockWait s') →
    based (p <| files := <[i := f <| ref_count := k |>]> (files p) |>) pl' →
    wp (set_file i (f <| ref_count := k |>) ;; goto pl') (λ _, poll_ok) p) as Hset.
  { intros i f k pl' Hf Hpl Hl Hb'. apply wp_bind, wp_modify, wp_modify. split; [by destruct Hb'|].
    eapply around_place; [|exact Hpl]. apply around_view; try done. intros j. cbn. by eapply view_insert. }
  destruct s as [n num found|n num mask]; cbn [in_section section_ok] in *.
  - pose proof Hs as (Hlt & [i Hi] & Hsc). apply wp_bind. eapply wp_entry; [done..|]. intros e _.
    apply wp_bind, wp_gets. destruct (files p !! i) as [f|] eqn:Ef.
    2: { eapply goto_ok; [done|by left|done|]. by split. }
    pose proof (bs_refs _ _ Hb i f Ef) as Hr. rewrite own_refs_none in Hr by done.
    apply Hset; [done| |done|].
    + split; [done|]. intros _. exists i, (pollable f, ready f, queue f). split; [done|]. unfold view. cbn.
      by rewrite Ef.
    + destruct (own_refs_at (Unlock (Get n num true)) n i eq_refl Hi) as [E1 E2].
      eapply based_refs; [exact Hb|done..|rewrite E1; lia| |done].
      intros j Hj. rewrite E2 by done. apply own_refs_nonneg.
  - destruct Hs as [Hmk (i & v & Hi & Hv)]. apply wp_bind. eapply wp_entry; [done..|]. intros e _.
    apply wp_bind, wp_gets. destruct (view_some _ _ _ Hv) as (f & Ef & _). rewrite Ef.
    pose proof (bs_refs _ _ Hb i f Ef) as Hr.
    destruct (own_refs_at (Locked (Put n num mask)) n i eq_refl Hi) as [E1 E2]. rewrite E1 in Hr.
    decide_if (ref_count f - 1 =? 0) false. apply Hset; [done|done|done|].
    eapply based_refs; [exact Hb|done..|rewrite own_refs_none by done; lia| |done].
    intros j Hj. rewrite own_refs_none by done. apply own_refs_nonneg.
Qed.

Lemma unlock_ok p s : based p (Unlock s) → place_ok (p <| place := Unlock s |>) →
  wp (dfs_unlock self stdio_console maxfd s) (λ _, poll_ok) p.
Proof.
  intros Hb Hpl. unfold dfs_unlock. apply wp_bind, wp_on_fslock.
  eapply wp_mono; [by apply mutex_release_ok, Hb|]. intros r w (Hm & _). cbn beta.
  set (p1 := p <| fslock := w |>).
  assert (based p1 (Unlock s)) as Hb1 by by destruct Hb.
  assert (place_ok (p1 <| place := Unlock s |>)) as Hpl1.
  { eapply around_place; [|exact Hpl]. by apply around_view. }
  clear Hb Hpl. clearbody p1. clear r w Hm p. destruct s as [n num found|n num mask].
  2: { destruct Hpl1 as [(Hlt & Hi & Hsc) Hw]. by apply (store_ok _ _ _ _ _ Hb1). }
  destruct Hpl1 as [(Hlt & Hi & Hsc) Hheld]. destruct found; [|by apply (store_ok _ _ _ _ _ Hb1)].
  destruct (Hheld eq_refl) as (i & v & Hi' & Hv). apply wp_bind. eapply wp_entry; [done..|]. intros f Hk.
  apply wp_bind, wp_gets. destruct (view_some _ _ _ Hv) as (fl & Ef & Ev). cbn in Ef. rewrite Ef.
  subst v. cbn in Hv. destruct (pollable fl) eqn:Epo; (eapply goto_ok; [exact Hb1|by right|done|]).
  - split; [done|]. by exists i, (ready fl), (queue fl).
  - split; [|by exists i, (false, ready fl, queue fl)]. split; [done|]. intros Hz Hmask.
    destruct Hsc as (_ & _ & Hw). destruct (Hw Hz) as [?|[?|[Hp Hc]]]; [by left|by right; left|].
    right; right. split; [done|]. intros m Hm. destruct (decide (m = n)) as [->|]; [|apply Hc; lia].
    split.
    + unfold event_now. unfold at_index in Hi'. destruct (asked !! n) as [a|]; [|done]. cbn in Hi'.
      destruct (a.1 <? 0); [done|]. rewrite Hi'. cbn. rewrite Hv, <- Hk. exact Hmask.
    + intros j rd q Hj. rewrite Hi' in Hj. injection Hj as <-. cbn. by rewrite Hv.
Qed.

(** ** At the file *)

(** The mask of an entry, by the file it is at. *)
Lemma event_at fs n i pl rd q : at_index n = Some i → view fs i = Some (pl, rd, q) →
  event_now fs n = Z.land (if pl : bool then rd else POLLMASK_DEFAULT) (key n).
Proof.
  unfold at_index, event_now. intros Hi Hv. destruct (asked !! n) as [a|]; [|done]. cbn in Hi.
  destruct (a.1 <? 0); [done|]. by rewrite Hi, Hv.
Qed.

(** One file changes: what it announces stays calm, and no node leaves its queue. *)
Lemma around_file p i f f' : files p !! i = Some f → pollable f' = pollable f →
  (∀ n, node n ∈ waiting_list (queue f) →
     Z.land (ready f) (key n) = 0 → Z.land (ready f') (key n) = 0) →
  (∀ nd, nd ∈ waiting_list (queue f) → nd ∈ waiting_list (queue f')) →
  around p (p <| files := <[i := f']> (files p) |>).
Proof.
  intros Hf Hpo Hrd Hq.
  assert (∀ j, view (<[i := f']> (files p)) j =
    if decide (i = j) then Some (pollable f, ready f', queue f') else view (files p) j) as Hv.
  { intros j. unfold view. case_decide as E.
    - subst. rewrite lookup_insert_eq. cbn. by rewrite Hpo.
    - by rewrite lookup_insert_ne. }
  assert (view (files p) i = Some (pollable f, ready f, queue f)) as Hvi by (unfold view; by rewrite Hf).
  split; try done; cbn.
  - intros j v Hj. rewrite Hv. case_decide as E; [|by exists v]. subst.
    rewrite Hvi in Hj. injection Hj as <-. by eexists.
  - right. split; [done|]. intros n Hr. split.
    + intros j rd q Hj. rewrite Hv. case_decide as E; [|by apply Hr]. subst j. intros [= Hp <- <-].
      apply Hq. apply (Hr i (ready f)); [done|]. by rewrite Hvi, Hp.
    + unfold event_now. destruct (asked !! n) as [a|] eqn:Ea; [|done]. destruct (a.1 <? 0) eqn:E0; [done|].
      destruct (fd_index _ _ _) as [j|] eqn:Ej; [|done].
      assert (at_index n = Some j) as Hj by (unfold at_index; rewrite Ea; cbn; by rewrite E0).
      rewrite Hv. case_decide as E; [|done]. subst j. rewrite Hvi. destruct (pollable f) eqn:Hp; [|done].
      apply (Hrd n). apply (Hr i (ready f)); [done|exact Hvi].
Qed.

(** The files other than one of which only the queue changes. *)
Lemma based_file p pl i f f' l : based p pl → files p !! i = Some f → ref_count f' = ref_count f →
  (∀ nd, nd ∈ waiting_list (queue f') → ∃ n, nd = node n ∧ at_index n = Some i ∧ n ∈ l) →
  (∀ j fj nd, j ≠ i → files p !! j = Some fj → nd ∈ waiting_list (queue fj) →
     ∃ n, nd = node n ∧ at_index n = Some j ∧ n ∈ l) →
  based (p <| files := <[i := f']> (files p) |> <| nodes := l |>) pl.
Proof.
  intros [Ha Hn Hr Hm Ho] Hf Hk Hi Hj. split; try done; cbn.
  - intros j fj nd. destruct (decide (i = j)) as [<-|Hne].
    + rewrite lookup_insert_eq. intros [= <-]. apply Hi.
    + rewrite lookup_insert_ne by done. by apply Hj.
  - intros j fj. destruct (decide (i = j)) as [<-|Hne].
    + rewrite lookup_insert_eq. intros [= <-]. rewrite Hk. by apply Hr.
    + rewrite lookup_insert_ne by done. by apply Hr.
Qed.

Hypothesis rt_malloc_ok : ∀ n, rt_malloc n = true.

Lemma poll_add_ok p n num : based p (Adding n num) → place p = Adding n num → place_ok p →
  wp (rt_poll_add self stdio_console maxfd rt_malloc n num) (λ _, poll_ok) p.
Proof.
  intros Hb Hpl Hok. pose proof Hok as Hok0. unfold place_ok in Hok. rewrite Hpl in Hok.
  destruct Hok as [Hvis (i & rd & q & Hi & Hv)]. unfold rt_poll_add.
  apply wp_bind. eapply wp_entry; [done..|]. intros f Hk.
  destruct (view_some _ _ _ Hv) as (fl & Ef & [= Hpo <- <-]).
  apply wp_bind, wp_gets, wp_bind, wp_gets. rewrite Ef, rt_malloc_ok. destruct (proc p) eqn:Ep; cbn [andb].
  - apply wp_bind, wp_bind, wp_modify, wp_modify. rewrite Hk.
    set (f' := fl <| queue := _ |>). set (p1 := p <| files := <[i := f']> (files p) |>).
    assert (∀ nd, nd ∈ waiting_list (queue f') ↔ nd ∈ waiting_list (queue fl) ∨ nd = node n) as Hq.
    { intros nd. cbn. rewrite elem_of_app, list_elem_of_singleton. done. }
    assert (around p p1) as Har by (apply (around_file p i fl f' Ef eq_refl); [done|]; intros; apply Hq; by left).
    pose proof (around_place _ _ Har Hok0) as Hok1. unfold place_ok in Hok1.
    replace (place p1) with (Adding n num) in Hok1 by (symmetry; exact Hpl). destruct Hok1 as [Hvis1 Hheld1].
    eapply (goto_ok _ (Adding n num)); [|by right|done|].
    + apply (based_file p _ i fl f'); [done..| |].
      * intros nd [Hnd | ->]%Hq; [|exists n; split_and!; [done|done|by left]].
        destruct (bs_nodes _ _ Hb i fl nd Ef Hnd) as (m & ? & ? & ?). exists m. split_and!; [done|done|by right].
      * intros j fj nd Hj Hfj Hnd. destruct (bs_nodes _ _ Hb j fj nd Hfj Hnd) as (m & ? & ? & ?).
        exists m. split_and!; [done|done|by right].
    + split; [exact Hvis1|]. split; [exact Hheld1|]. intros Hz. split; [by apply Hvis1|]. right; right.
      intros j rd' q' Hj. rewrite Hi in Hj. injection Hj as <-. cbn. unfold view.
      rewrite lookup_insert_eq. intros [= _ <- <-]. apply Hq. by right.
  - apply wp_bind, wp_ret. eapply goto_ok; [exact Hb|by right|done|].
    split; [exact Hvis|]. split; [by exists i, (ready fl), (queue fl)|]. intros Hz.
    destruct Hvis as (_ & _ & _ & _ & Hw). specialize (Hw Hz). split; [exact Hw|].
    destruct Hw as [?|[?|[Hp _]]]; [by left|by right; left|congruence].
Qed.

Lemma mask_ok p n num : based p (Masking n num) → place p = Masking n num → place_ok p →
  wp (read_mask stdio_console maxfd n num) (λ _, poll_ok) p.
Proof.
  intros Hb Hpl Hok. unfold place_ok in Hok. rewrite Hpl in Hok.
  destruct Hok as (Hvis & (i & rd & q & Hi & Hv) & Hw). unfold read_mask.
  apply wp_bind. eapply wp_entry; [done..|]. intros f Hk.
  destruct (view_some _ _ _ Hv) as (fl & Ef & [= Hpo <- <-]).
  apply wp_bind, wp_gets. rewrite Ef. eapply goto_ok; [exact Hb|by right|done|].
  split; [|by exists i, (true, ready fl, queue fl)]. split; [exact Hvis|]. intros Hz Hmask.
  destruct (Hw Hz) as [[?|[?|[Hp Hc]]] Hr]; [by left|by right; left|].
  destruct Hr as [?|[?|Hr]]; [by left|by right; left|]. right; right. split; [done|].
  intros m Hm. destruct (decide (m = n)) as [->|]; [|apply Hc; lia]. split; [|exact Hr].
  rewrite (event_at _ n i true (ready fl) (queue fl)) by done. by rewrite <- Hk.
Qed.

Lemma waited_ok p pl : based p pl → holding pl = None → istimeout p = false →
  wp waited (λ _, poll_ok) p.
Proof.
  intros Hb Hh Hover. unfold waited. apply wp_bind, wp_gets, wp_bind.
  assert (∀ p', based p' pl → istimeout p' = true ∨ triggered p' = true →
    wp (goto (Scan 0 0)) (λ _, poll_ok) p') as Hgo.
  { intros p' Hb' Hw. eapply goto_ok; [done|by left|done|]. split; [lia|]. split; [done|].
    intros _. destruct Hw; [by left|by right; left]. }
  destruct (triggered p) eqn:E.
  - apply wp_ret. apply Hgo; [done|by right].
  - apply wp_modify. apply Hgo; [by destruct Hb|by left].
Qed.

Lemma decide_ok p num : based p (Deciding num) → place p = Deciding num → place_ok p →
  wp (decide_wait msec num) (λ _, poll_ok) p.
Proof.
  intros Hb Hpl Hok. unfold place_ok in Hok. rewrite Hpl in Hok. destruct Hok as (Hproc & Hnum & Hw).
  unfold decide_wait. apply wp_bind, wp_gets, wp_bind, wp_gets. cbv beta.
  destruct (istimeout p) eqn:Eo; [rewrite orb_true_r; eapply goto_ok; [done|by left|done|by split]|].
  rewrite orb_false_r. destruct (num =? 0)%nat eqn:E0; cbn [negb].
  2: { eapply goto_ok; [done|by left|done|]. split; [done|]. apply Nat.eqb_neq in E0. by intros ->. }
  apply Nat.eqb_eq in E0. destruct (negb (timeout msec =? 0)); cbn [andb].
  2: { by apply (waited_ok _ (Deciding num)). }
  destruct (triggered p) eqn:Et; cbn [negb]; [by apply (waited_ok _ (Deciding num))|].
  apply wp_bind, wp_modify. eapply (goto_ok _ (Deciding num)); [by destruct Hb|by left|done|].
  split; [done|]. split; [done|]. split; [done|]. destruct (Hw E0) as [?|[?|?]]; congruence || done.
Qed.

Lemma entry_none p pl n : based p pl →
  (f ← fds p !! n; i ← fd_index stdio_console maxfd (fd f); Some (f, i)) = @None (pollfd * Z) →
  at_index n = None.
Proof.
  intros Hb E. destruct (at_index n) as [i|] eqn:Hi; [|done].
  destruct (entry_at _ _ _ _ Hb Hi) as (f & _ & _ & _ & E'). congruence.
Qed.

Lemma entry_index p pl n f i : based p pl →
  (f ← fds p !! n; i ← fd_index stdio_console maxfd (fd f); Some (f, i)) = Some (f, i) →
  ∀ j, at_index n = Some j → j = i.
Proof. intros Hb E j Hj. destruct (entry_at _ _ _ _ Hb Hj) as (f' & _ & _ & _ & E'). congruence. Qed.

Lemma node_inj n m : node n = node m → n = m.
Proof. intros [= E _]. lia. Qed.

Lemma teardown_ok p num : based p (Teardown num) → place p = Teardown num → place_ok p →
  wp (teardown stdio_console maxfd num) (λ _, poll_ok) p.
Proof.
  intros Hb Hpl Hok. unfold place_ok in Hok. rewrite Hpl in Hok.
  unfold teardown. apply wp_bind, wp_gets. destruct (nodes p) as [|n l] eqn:En.
  { eapply goto_ok; [done|by left|done|]. by destruct Hok. }
  assert (∀ p', fds p' = fds p → istimeout p' = istimeout p → place p' = place p →
    based p' (Teardown num) → poll_ok p') as Hsame.
  { intros p' H1 H2 H3 Hb'. unfold poll_ok, place_ok, hits. rewrite H3, Hpl, H1, H2. by split. }
  assert (∀ j fj nd, files p !! j = Some fj → nd ∈ waiting_list (queue fj) → node_id nd ≠ Z.of_nat n →
    ∃ m, nd = node m ∧ at_index m = Some j ∧ m ∈ l) as Hrest.
  { intros j fj nd Hfj Hnd Hne. destruct (bs_nodes _ _ Hb j fj nd Hfj Hnd) as (m & -> & Hm & Hin).
    rewrite En in Hin. apply elem_of_cons in Hin as [->|Hin]; [done|by exists m]. }
  assert (∀ i, (∀ j, at_index n = Some j → j = i) → ∀ j fj nd, j ≠ i → files p !! j = Some fj →
    nd ∈ waiting_list (queue fj) → ∃ m, nd = node m ∧ at_index m = Some j ∧ m ∈ l) as Hother.
  { intros i Hi j fj nd Hne Hfj Hnd. apply (Hrest j fj); [done..|].
    destruct (bs_nodes _ _ Hb j fj nd Hfj Hnd) as (m & -> & Hm & Hin). intros E. cbn in E.
    apply Nat2Z.inj in E as ->. apply Hne. by apply Hi. }
  assert (∀ i, (∀ j, at_index n = Some j → j = i) → files p !! i = None →
    poll_ok (p <| nodes := l |>)) as Hnone.
  { intros i Hi Hf. apply Hsame; try done. destruct Hb as [Ha Hn Hr Hm Ho]. split; try done.
    intros j fj nd Hfj Hnd. apply (Hother i Hi j fj); [|done..]. intros ->. cbn in Hfj. congruence. }
  unfold entry. apply wp_bind, wp_gets. cbv beta.
  destruct (f ← fds p !! n; i ← fd_index stdio_console maxfd (fd f); Some (f, i)) as [[f i]|] eqn:Ee.
  - pose proof (entry_index _ _ _ _ _ Hb Ee) as Hi. apply wp_bind, wp_bind, wp_gets.
    destruct (files p !! i) as [fl|] eqn:Ef.
    + apply wp_modify, wp_modify. apply Hsame; try done. apply (based_file p _ i fl); [done..| |].
      * intros nd [Hin Hid]%list_elem_of_In%filter_In. apply negb_true_iff, Z.eqb_neq in Hid.
        apply (Hrest i fl); [done| |done]. by apply list_elem_of_In.
      * intros j fj nd Hne. by apply (Hother i Hi).
    + apply wp_ret, wp_modify. by apply (Hnone i).
  - apply wp_bind, wp_ret, wp_modify. pose proof (entry_none _ _ _ Hb Ee) as Hi.
    apply Hsame; try done. destruct Hb as [Ha Hn Hr Hm Ho]. split; try done.
    intros j fj nd Hfj Hnd. apply (Hother (j + 1)) with fj; [by rewrite Hi|lia|done..].
Qed.

Lemma step_ok p : poll_ok p → wp step (λ _, poll_ok) p.
Proof.
  intros [Hb Hok]. unfold poll_step. apply wp_bind, wp_gets. destruct (place p) eqn:Hpl.
  - apply scan_ok; [done|]. unfold place_ok in Hok. by rewrite Hpl in Hok.
  - apply lock_ok; [done|]. unfold place_ok in Hok. by rewrite Hpl in Hok.
  - apply wp_ret. split; [by rewrite Hpl|done].
  - apply section_step_ok; [done|]. unfold place_ok in Hok. by rewrite Hpl in Hok.
  - apply unlock_ok; [done|]. unfold place_ok in *. by rewrite Hpl in Hok.
  - by apply poll_add_ok.
  - by apply mask_ok.
  - by apply decide_ok.
  - apply wp_ret. split; [by rewrite Hpl|done].
  - apply (waited_ok _ PollWoken); [done..|]. unfold place_ok in Hok. rewrite Hpl in Hok. by destruct Hok.
  - by apply teardown_ok.
  - apply wp_ret. split; [by rewrite Hpl|done].
Qed.

(** ** Everything else *)

Lemma wake_first_none k l l' : wake_first k l = (l', None) → l' = l ∧ ∀ nd, nd ∈ l → wakes k nd = false.
Proof.
  revert l'. induction l as [|n l IH]; intros l'; cbn; [intros [= <-]; split; [done|]; intros nd Hnd; by apply elem_of_nil in Hnd|].
  destruct (wakes k n) eqn:E; [done|]. destruct (wake_first k l) as [l1 o]. intros [= <- ->].
  destruct (IH l1 eq_refl) as [-> H]. split; [done|]. intros nd [->|Hnd]%elem_of_cons; auto.
Qed.

Lemma wake_first_some k l l' nd : wake_first k l = (l', Some nd) →
  nd ∈ l ∧ wakes k nd = true ∧ ∀ x, x ∈ l' → x ∈ l.
Proof.
  revert l'. induction l as [|n l IH]; intros l'; cbn; [done|].
  destruct (wakes k n) eqn:E.
  - intros [= <- <-]. split_and!; [by left|done|]. intros x Hx. by right.
  - destruct (wake_first k l) as [l1 o]. intros [= <- ->]. destruct (IH l1 eq_refl) as (? & ? & H).
    split_and!; [by right|done|]. intros x [->|Hx]%elem_of_cons; [by left|right; by apply H].
Qed.

Lemma around_woken p p' : fds p' = fds p → istimeout p' = istimeout p → proc p' = proc p →
  nodes p' = nodes p → place p' = place p → triggered p' = true → place p ≠ PollAsleep →
  (∀ i v, view (files p) i = Some v → ∃ v', view (files p') i = Some v' ∧ v'.1.1 = v.1.1) → around p p'.
Proof. intros. by split; auto. Qed.

Lemma resume_ok p : based p (place p) → place_ok p ∨ place p = PollAsleep ∧ proc p = false ∧ istimeout p = false →
  wp (resume_poller self) (λ _, poll_ok) p.
Proof.
  intros Hb Hok. unfold wp, resume_poller. destruct (place p) eqn:Hpl;
    try (destruct Hok as [Hok|[? _]]; [by split; [rewrite Hpl|]|done]).
  - destruct Hok as [Hok|[? _]]; [|done]. split.
    + destruct Hb as [Ha Hn Hr Hm Ho]. split; try done; cbn.
    + unfold place_ok in *. rewrite Hpl in Hok. cbn. eapply (around_section (p <| place := Locked s |>)); [|exact Hok].
      by apply around_view.
  - split.
    + destruct Hb as [Ha Hn Hr Hm Ho]. by split.
    + destruct Hok as [Hok|[_ Hok]]; [|exact Hok]. unfold place_ok in *. rewrite Hpl in Hok.
      by destruct Hok as (? & _ & ? & _).
Qed.

Lemma raise_ok p i bits : poll_ok p → wp (raise self i bits) (λ _, poll_ok) p.
Proof.
  intros [Hb Hok]. unfold raise. apply wp_bind, wp_gets. destruct (files p !! i) as [f|] eqn:Ef; [|by apply wp_ret].
  unfold rt_wqueue_wakeup. destruct (wake_first bits (waiting_list (queue f))) as [l o] eqn:Ew.
  apply wp_bind, wp_modify. set (f' := f <| ready := _ |> <| queue := _ |>).
  set (p1 := p <| files := <[i := f']> (files p) |>).
  assert (∀ x, x ∈ l → x ∈ waiting_list (queue f)) as Hsub.
  { destruct o as [nd|]; [by apply (wake_first_some _ _ _ _ Ew)|]. by apply wake_first_none in Ew as [-> _]. }
  assert (based p1 (place p)) as Hb1.
  { apply (based_file p _ i f f' (nodes p)); [done..| |].
    - intros nd Hnd. apply (bs_nodes _ _ Hb i f); [done|]. by apply Hsub.
    - intros j fj nd _. apply (bs_nodes _ _ Hb). }
  destruct o as [nd|].
  - destruct (wake_first_some _ _ _ _ Ew) as (Hin & _ & _).
    destruct (bs_nodes _ _ Hb i f nd Ef Hin) as (n & -> & _ & _). cbn [wakeup node polling_thread].
    rewrite Z.eqb_refl. apply wp_bind, wp_modify. apply resume_ok; [by destruct Hb1|].
    assert (place p = PollAsleep ∨ place p ≠ PollAsleep) as [E|E] by (destruct (place p); auto).
    + right. split; [exact E|]. unfold place_ok in Hok. rewrite E in Hok. by destruct Hok as (? & _ & ? & _).
    + left. eapply around_place; [|exact Hok]. apply around_woken; try done.
      intros j v Hj. cbn. unfold view in *. destruct (decide (i = j)) as [<-|Hne].
      * rewrite lookup_insert_eq. rewrite Ef in Hj. injection Hj as <-. by eexists.
      * rewrite lookup_insert_ne by done. by exists v.
  - apply wake_first_none in Ew as [-> Hnw]. apply wp_ret. split; [exact Hb1|].
    eapply around_place; [|exact Hok]. apply (around_file p i f f' Ef eq_refl); [|done].
    intros n Hn Hz. specialize (Hnw _ Hn). cbn in Hnw. apply orb_false_iff in Hnw as [_ Hnw].
    apply negb_false_iff, Z.eqb_eq in Hnw. cbn -[Z.land Z.lor]. by rewrite Z.land_lor_distr_l, Hz, Hnw.
Qed.

Lemma ldiff_calm a b k : Z.land a k = 0 → Z.land (Z.ldiff a b) k = 0.
Proof.
  intros Hz. apply Z.bits_inj'. intros j Hj. apply (f_equal (λ z, Z.testbit z j)) in Hz.
  rewrite !Z.land_spec, ?Z.ldiff_spec, Z.bits_0 in *.
  destruct (Z.testbit a j), (Z.testbit k j); cbn in *; try done. by rewrite andb_false_r.
Qed.

Lemma clear_ok p i bits : poll_ok p → wp (clear i bits) (λ _, poll_ok) p.
Proof.
  intros [Hb Hok]. unfold clear. apply wp_bind, wp_gets. destruct (files p !! i) as [f|] eqn:Ef; [|by apply wp_ret].
  apply wp_modify. set (f' := f <| ready := _ |>). split.
  - apply (based_file p _ i f f' (nodes p)); [done..| |].
    + intros nd Hnd. by apply (bs_nodes _ _ Hb i f).
    + intros j fj nd _. apply (bs_nodes _ _ Hb).
  - eapply around_place; [|exact Hok]. apply (around_file p i f f' Ef eq_refl); [|done].
    intros n _. apply ldiff_calm.
Qed.

Lemma timer_ok p : poll_ok p → wp timer_expires (λ _, poll_ok) p.
Proof.
  intros [Hb Hok]. apply wp_modify. destruct (place p) eqn:Hpl; try (by split; [rewrite Hpl|]).
  destruct (timer p); [|by split; [rewrite Hpl|]]. split; [by destruct Hb|].
  unfold place_ok in Hok. rewrite Hpl in Hok. by destruct Hok as (? & _ & ? & _).
Qed.

Lemma mutex_act_ok w a : mutex_ok (mutex w) → actor a ≠ self →
  wp (mutex_act a) (λ r w', mutex_ok (mutex w') ∧ (owner (mutex w) ≠ Some self →
    match r with
    | Some (MutexReleased (Some t)) => owner (mutex w') = Some t
    | _ => owner (mutex w') ≠ Some self
    end)) w.
Proof.
  intros Hm Ha. unfold mutex_act. apply wp_bind, wp_gets.
  destruct a as [t time|t|t]; cbn [actor] in *; destruct (existsb _ _); try (by apply wp_ret).
  - apply wp_bind. eapply wp_mono; [by apply mutex_take_ok|]. intros r w' (Hm' & Hr). cbn beta.
    apply wp_ret. split; [done|]. intros Ho.
    destruct Hr as [[-> ->]|([->|[_ ->]] & -> & _)]; [congruence|done..].
  - apply wp_bind. eapply wp_mono; [by apply mutex_release_ok|]. intros r w' (Hm' & Hne & Hr). cbn beta.
    apply wp_ret. split; [done|]. intros Ho.
    destruct r as [|e| |[u|]]; [..|done|]; by destruct Hr as [-> | ->].
Qed.

Lemma others_ok p a : poll_ok p → wp (other_locks self a) (λ _, poll_ok) p.
Proof.
  intros [Hb Hok]. unfold other_locks. destruct (actor a =? self) eqn:Ea; bool_prop; [by apply wp_ret|].
  apply wp_bind, wp_on_fslock. eapply wp_mono; [apply mutex_act_ok; [apply Hb|done]|].
  intros r w (Hm & Hr). cbn beta. apply wp_bind, wp_gets. set (p1 := p <| fslock := w |>).
  assert (place_ok p1) as Hok1 by (eapply around_place; [|exact Hok]; by apply around_view).
  assert ((∀ s, place p = LockWait s → owner (mutex w) ≠ Some self) → poll_ok p1) as Hstay.
  { intros Hn. split; [|done]. destruct Hb as [? ? ? _ _]. by split. }
  assert ((∀ s, place p ≠ LockWait s) → poll_ok p1) as Haway by (intros Hn; apply Hstay; intros s E; by destruct (Hn s)).
  change (place p1) with (place p). destruct (place p) eqn:Hpl.
  3: { pose proof (bs_owner _ _ Hb s eq_refl) as Hne. specialize (Hr Hne).
       destruct r as [[|e| |[u|]]|]; try (apply wp_ret, Hstay; by intros ? _).
       destruct (Z.eqb_spec u self) as [->|Hu].
       - apply wp_modify. split.
         + destruct Hb as [? ? Hrf _ _]. by split.
         + unfold place_ok in *. replace (place p1) with (LockWait s) in Hok1 by (symmetry; exact Hpl). exact Hok1.
       - apply wp_ret, Hstay. intros ? _. rewrite Hr. congruence. }
  all: destruct r as [[|e| |[u|]]|]; apply wp_ret, Haway; by intros ?.
Qed.

Lemma act_ok p a : poll_ok p → wp (act a) (λ _, poll_ok) p.
Proof.
  intros Hp. destruct a; cbn [poll_act];
    [by apply step_ok|by apply raise_ok|by apply clear_ok|by apply timer_ok|by apply others_ok].
Qed.

Lemma run_ok acts : ∀ p, poll_ok p → wp (run acts) (λ _, poll_ok) p.
Proof.
  induction acts as [|a acts IH]; intros p Hp; cbn [poll_run]; [by apply wp_ret|].
  apply wp_bind. eapply wp_mono; [by apply act_ok|]. intros [] p'. apply IH.
Qed.

(** * A scan that nobody disturbs *)

Definition free_mutex (fl : Z) : rt_mutex := MkMutex 1 255 0 None [] fl.
Definition unlocked (p : poller) : Prop := ∃ fl, mutex (fslock p) = free_mutex fl.

Lemma take_free w fl : mutex w = free_mutex fl →
  ∃ w', rt_mutex_take self RT_WAITING_FOREVER w = Ret (MutexTaken, w') ∧
    rt_mutex_release self w' = Ret (MutexReleased None, w).
Proof.
  destruct w as [m pr]. cbn. intros ->. eexists. split; [reflexivity|].
  unfold rt_mutex_release, mbind, io_bind, gets, set_mutex, modify. cbn -[u8 u16].
  rewrite bool_decide_true by done. cbn -[u8 u16]. change (u8 (u8 (0 + 1) - 1)) with 0.
  rewrite ?Z.eqb_refl. cbn -[u8 u16]. by rewrite ?Z.eqb_refl.
Qed.

Lemma run_step k p p1 : step p = Ret (tt, p1) →
  run (replicate (S k) PollStep) p = run (replicate k PollStep) p1.
Proof. intros E. cbn [replicate poll_run poll_act]. unfold mbind, io_bind. by rewrite E. Qed.

Lemma poll_run_app acts acts' p p1 : run acts p = Ret (tt, p1) → run (acts ++ acts') p = run acts' p1.
Proof.
  revert p. induction acts as [|a acts IH]; intros p; cbn [app poll_run]; [by intros [= <-]|].
  unfold mbind, io_bind. destruct (act a p) as [[[] p2]|]; [|done]. apply IH.
Qed.

(** The state with [fslock], [files] and the place changed. *)
Definition moved (p : poller) (w : threads) (fs : gmap Z file) (pl : poll_place) : poller :=
  MkPoller (fds p) fs w (triggered p) (proc p) (nodes p) (istimeout p) (timer p) pl.

Lemma run_lock k p w' s pl : rt_mutex_take self RT_WAITING_FOREVER (fslock p) = Ret (MutexTaken, w') →
  place p = Lock s → in_section stdio_console maxfd s (moved p w' (files p) (Locked s)) = Ret (tt, pl) →
  run (replicate (S (S k)) PollStep) p = run (replicate k PollStep) pl.
Proof.
  intros Et Epl Es. rewrite (run_step _ _ (moved p w' (files p) (Locked s))).
  - apply run_step. unfold poll_step, mbind, io_bind, gets. cbn. exact Es.
  - unfold poll_step, mbind, io_bind, gets. rewrite Epl. unfold dfs_lock, on_fslock, mbind, io_bind. by rewrite Et.
Qed.

(** What a visit of an entry leaves. *)
Definition stored (p : poller) (n num : nat) (mask : Z) : poller :=
  MkPoller (alter (λ f, f <| revents := mask |>) n (fds p)) (files p) (fslock p) (triggered p)
    (if mask =? 0 then proc p else false) (nodes p) (istimeout p) (timer p)
    (Scan (S n) (if mask =? 0 then num else S num)).

Lemma store_eq p n num mask : store n num mask p = Ret (tt, stored p n num mask).
Proof. unfold store, stored, mbind, io_bind, modify. by destruct (mask =? 0). Qed.

Lemma entry_eq p q n e : (f ← fds p !! n; i ← fd_index stdio_console maxfd (fd f); Some (f, i)) = Some e →
  fds q = fds p → entry stdio_console maxfd n q = Ret (Some e, q).
Proof. intros He Hq. unfold entry, gets. by rewrite Hq, He. Qed.

Lemma run_put k p n num mask i f fe : unlocked p →
  (f ← fds p !! n; i ← fd_index stdio_console maxfd (fd f); Some (f, i)) = Some (fe, i) →
  files p !! i = Some f → 1 <= ref_count f →
  run (replicate (S (S (S k))) PollStep)
    (moved p (fslock p) (<[i := f <| ref_count := ref_count f + 1 |>]> (files p)) (Lock (Put n num mask))) =
  run (replicate k PollStep) (stored p n num mask).
Proof.
  intros [fl Hl] He Hf Hr. destruct (take_free _ _ Hl) as (w' & Et & Er).
  set (f1 := f <| ref_count := ref_count f + 1 |>).
  rewrite (run_lock _ _ w' (Put n num mask) (moved p w' (files p) (Unlock (Put n num mask)))); [|done..|].
  - rewrite (run_step _ _ (stored p n num mask)); [done|].
    unfold poll_step, mbind, io_bind, gets. cbn [place moved]. unfold dfs_unlock, on_fslock, mbind, io_bind.
    cbn [fslock moved]. rewrite Er. exact (store_eq (moved p (fslock p) (files p) (Unlock (Put n num mask))) n num mask).
  - unfold in_section, mbind, io_bind. rewrite (entry_eq p _ n _ He) by done.
    unfold gets, moved. cbn [files]. rewrite lookup_insert_eq. fold f1.
    assert (ref_count f1 - 1 = ref_count f) as -> by (cbn; lia).
    decide_if (ref_count f =? 0) false.
    unfold set_file, goto, modify. cbn. rewrite insert_insert_eq.
    assert (<[i := f1 <| ref_count := ref_count f |>]> (files p) = files p) as ->; [|done].
    apply insert_id. rewrite Hf. f_equal. by destruct f.
Qed.

(** A step that looks up the file of the entry and goes on. *)
Lemma run_add k p n num i fe f w :
  (f ← fds p !! n; i ← fd_index stdio_console maxfd (fd f); Some (f, i)) = Some (fe, i) →
  proc p = false → let fs := <[i := f]> (files p) in
  run (replicate (S (S k)) PollStep) (moved p w fs (Adding n num)) =
  run (replicate k PollStep) (moved p w fs (Lock (Put n num (Z.land (ready f) (poll_key fe))))).
Proof.
  intros He Hproc fs. rewrite (run_step _ _ (moved p w fs (Masking n num))).
  - apply run_step. unfold poll_step, mbind, io_bind, gets, read_mask. cbn [place moved].
    unfold mbind, io_bind. rewrite (entry_eq p _ n _ He) by done. unfold gets, moved, fs. cbn [files].
    by rewrite lookup_insert_eq.
  - unfold poll_step, mbind, io_bind, gets, rt_poll_add. cbn [place moved].
    unfold mbind, io_bind. rewrite (entry_eq p _ n _ He) by done. unfold gets, moved, fs. cbn [files proc].
    by rewrite lookup_insert_eq, Hproc.
Qed.

(** One entry, when no nodes are added any more. *)
Lemma run_entry p n num : poll_ok p → unlocked p → proc p = false → place p = Scan n num →
  (n < length asked)%nat →
  ∃ j, (j <= 9)%nat ∧ ∀ k, run (replicate (j + k) PollStep) p =
    run (replicate k PollStep) (stored p n num (event_now (files p) n)).
Proof.
  intros [Hb _] Hfree Hproc Hpl Hn. pose proof Hfree as [flg Hl].
  destruct (lookup_lt_is_Some_2 (fds p) n) as [fe Hfe]; [by rewrite (asked_length _ _ Hb)|].
  pose proof (asked_lookup _ _ _ _ Hb Hfe) as Ha. pose proof (key_asked _ _ _ _ Hb Hfe) as Hk.
  assert (∀ r, scan stdio_console maxfd n num p = r → step p = r) as Hscan.
  { intros r <-. unfold poll_step, mbind, io_bind, gets. by rewrite Hpl. }
  unfold event_now. rewrite Ha. cbn [fst]. destruct (fd fe <? 0) eqn:E0.
  { exists 1%nat. split; [lia|]. intros k. apply run_step, Hscan. unfold scan, mbind, io_bind, gets.
    rewrite Hfe, E0. apply store_eq. }
  destruct (fd_index stdio_console maxfd (fd fe)) as [i|] eqn:Ei.
  2: { exists 1%nat. split; [lia|]. intros k. apply run_step, Hscan. unfold scan, mbind, io_bind, gets.
    rewrite Hfe, E0, Ei. apply store_eq. }
  assert ((f ← fds p !! n; i ← fd_index stdio_console maxfd (fd f); Some (f, i)) = Some (fe, i)) as He
    by (rewrite Hfe; cbn; by rewrite Ei).
  destruct (take_free _ _ Hl) as (w' & Et & Er).
  assert (∀ k found fs, in_section stdio_console maxfd (Get n num false) (moved p w' (files p) (Locked (Get n num false)))
      = Ret (tt, moved p w' fs (Unlock (Get n num found))) →
    run (replicate (S (S (S k))) PollStep) p =
    run (replicate k PollStep) (moved p w' fs (Unlock (Get n num found)))) as Hget.
  { intros k found fs Es. rewrite (run_step _ _ (moved p (fslock p) (files p) (Lock (Get n num false)))).
    - eapply (run_lock _ _ w'); [exact Et|done|exact Es].
    - apply Hscan. unfold scan, mbind, io_bind, gets. by rewrite Hfe, E0, Ei. }
  unfold view. destruct (files p !! i) as [f|] eqn:Ef; cbn [fmap option_fmap option_map].
  2: { exists 4%nat. split; [lia|]. intros k. cbn [Nat.add]. rewrite (Hget _ false (files p)).
    - apply run_step. unfold poll_step, dfs_unlock, on_fslock, mbind, io_bind, gets, moved. cbn [place fslock].
      rewrite Er. apply (store_eq (moved p (fslock p) (files p) (Unlock (Get n num false)))).
    - unfold in_section, mbind, io_bind. rewrite (entry_eq p _ n _ He) by done. unfold gets, moved. cbn [files].
      by rewrite Ef. }
  pose proof (bs_refs _ _ Hb i f Ef) as Hr. rewrite Hpl, own_refs_none in Hr by done.
  set (f1 := f <| ref_count := ref_count f + 1 |>). set (fs := <[i := f1]> (files p)).
  assert (∀ k pl, (if pollable f then pl = Adding n num
                   else pl = Lock (Put n num (Z.land POLLMASK_DEFAULT (key n)))) →
    run (replicate (S (S (S (S k)))) PollStep) p = run (replicate k PollStep) (moved p (fslock p) fs pl)) as Hgot.
  { intros k pl Hpl'. rewrite (Hget _ true fs).
    - apply run_step. unfold poll_step, mbind, io_bind, gets. cbn [place moved].
      unfold dfs_unlock, on_fslock, mbind, io_bind. cbn [fslock moved].
      rewrite Er, (entry_eq p _ n _ He) by done. unfold gets. cbn [files].
      assert (fs !! i = Some f1) as Ef1 by apply lookup_insert_eq.
      match goal with |- context [files ?q !! i] => change (files q) with fs end. rewrite Ef1.
      change (pollable f1) with (pollable f). rewrite Hk. by destruct (pollable f); rewrite Hpl'.
    - unfold in_section, mbind, io_bind. rewrite (entry_eq p _ n _ He) by done. unfold gets, moved. cbn [files].
      by rewrite Ef. }
  destruct (pollable f).
  - exists 9%nat. split; [lia|]. intros k. cbn [Nat.add]. rewrite (Hgot _ _ eq_refl).
    unfold fs. rewrite (run_add _ p n num i fe f1), Hk by done.
    by apply (run_put _ p n num _ i f fe).
  - exists 7%nat. split; [lia|]. intros k. cbn [Nat.add]. rewrite (Hgot _ _ eq_refl).
    by apply (run_put _ p n num _ i f fe).
Qed.

Lemma run_ret acts p : poll_ok p → ∃ q, run acts p = Ret (tt, q) ∧ poll_ok q.
Proof.
  intros Hp. pose proof (run_ok acts p Hp) as H. unfold wp in H.
  destruct (run acts p) as [[[] q]|]; [by exists q|done].
Qed.

(** The rest of a scan: what it finds. *)
Lemma run_scan d : ∀ p n num, (length asked - n)%nat = d → poll_ok p → unlocked p → proc p = false →
  place p = Scan n num →
  ∃ j q, (j <= 9 * d + 1)%nat ∧ run (replicate j PollStep) p = Ret (tt, q) ∧ poll_ok q ∧
    nodes q = nodes p ∧ ∃ num', place q = Deciding num' ∧ (num <= num')%nat ∧
    (∀ m, (n <= m < length asked)%nat → event_now (files p) m ≠ 0 → (0 < num')%nat).
Proof.
  induction d as [|d IH]; intros p n num Hd Hp Hfree Hproc Hpl.
  - assert (fds p !! n = None) as Hn.
    { apply lookup_ge_None. destruct Hp as [Hb _]. rewrite (asked_length _ _ Hb). lia. }
    destruct (run_ret [PollStep] p Hp) as (q & Hq & Hqok). exists 1%nat, q.
    assert (q = p <| proc := false |> <| place := Deciding num |>) as ->.
    { revert Hq. cbn [poll_run poll_act]. unfold poll_step, scan, mbind, io_bind, gets. rewrite Hpl, Hn. by intros [= <-]. }
    split_and!; [lia|exact Hq|done|done|]. exists num. split_and!; [done|lia|]. intros m Hm. lia.
  - assert (n < length asked)%nat as Hn by lia.
    destruct (run_entry p n num Hp Hfree Hproc Hpl Hn) as (j & Hj & Hrun).
    set (p1 := stored p n num (event_now (files p) n)) in *.
    destruct (run_ret (replicate j PollStep) p Hp) as (q1 & Hq1 & Hok1).
    assert (q1 = p1) as ->. { pose proof (Hrun 0%nat) as E. rewrite Nat.add_0_r, Hq1 in E. by injection E. }
    assert (proc p1 = false) as Hproc1 by (cbn; case_if; done).
    destruct (IH p1 (S n) (if event_now (files p) n =? 0 then num else S num) ltac:(lia) Hok1 Hfree Hproc1 eq_refl)
      as (j' & q & Hj' & Hq & Hok & Hnodes & num' & Hplq & Hle & Hfound).
    exists (j + j')%nat, q. rewrite Hrun. split_and!; [lia|done|done|done|]. exists num'. split_and!; [done| |].
    + revert Hle. case_if; lia.
    + intros m Hm He. destruct (decide (m = n)) as [->|].
      * revert Hle. case_if; [done|lia].
      * apply (Hfound m); [lia|exact He].
Qed.

Lemma run_teardown l : ∀ p num, nodes p = l → poll_ok p → place p = Teardown num →
  ∃ q, run (replicate (S (length l)) PollStep) p = Ret (tt, q) ∧ place q = Polled num.
Proof.
  induction l as [|n l IH]; intros p num Hl Hp Hpl.
  - exists (p <| place := Polled num |>). split; [|done].
    cbn [replicate length poll_run poll_act]. unfold poll_step, teardown, mbind, io_bind, gets. by rewrite Hpl, Hl.
  - destruct (run_ret [PollStep] p Hp) as (q & Hq & Hok).
    assert (place q = Teardown num ∧ nodes q = l) as [Hplq Hlq].
    { revert Hq. cbn [poll_run poll_act]. unfold poll_step, teardown, entry, mbind, io_bind, gets.
      rewrite Hpl, Hl. destruct (option_bind _ _ _ _) as [[f i]|]; [destruct (files p !! i)|]; by intros [= <-]. }
    destruct (IH q num Hlq Hok Hplq) as (q' & Hq' & Hend). exists q'. split; [|done].
    change (replicate (S (length (n :: l))) PollStep) with ([PollStep] ++ replicate (S (length l)) PollStep).
    by rewrite (poll_run_app _ _ _ _ Hq).
Qed.

(** A thread that has been woken with an event there returns it. *)
Lemma run_woken p m : poll_ok p → unlocked p → place p = PollWoken →
  (m < length asked)%nat → event_now (files p) m ≠ 0 →
  ∃ j q num, (j <= 9 * length asked + length (nodes p) + 4)%nat ∧
    run (replicate j PollStep) p = Ret (tt, q) ∧ place q = Polled (S num).
Proof.
  intros Hp Hfree Hpl Hm He. pose proof Hp as [_ Hok]. unfold place_ok in Hok. rewrite Hpl in Hok.
  destruct Hok as [Hproc _]. destruct (run_ret [PollStep] p Hp) as (p1 & Hq1 & Hok1).
  assert (unlocked p1 ∧ proc p1 = false ∧ place p1 = Scan 0 0 ∧ nodes p1 = nodes p ∧ files p1 = files p)
    as (Hfree1 & Hproc1 & Hpl1 & Hn1 & Hf1).
  { revert Hq1. cbn [poll_run poll_act]. unfold poll_step, waited, mbind, io_bind, gets. rewrite Hpl.
    destruct (triggered p); intros [= <-]; by split_and!. }
  destruct (run_scan _ p1 0 0 eq_refl Hok1 Hfree1 Hproc1 Hpl1) as (j2 & p2 & Hj2 & Hq2 & Hok2 & Hn2 & num & Hpl2 & _ & Hfound).
  destruct num as [|num]; [specialize (Hfound m ltac:(lia) ltac:(by rewrite Hf1)); lia|].
  destruct (run_ret [PollStep] p2 Hok2) as (p3 & Hq3 & Hok3).
  assert (place p3 = Teardown (S num) ∧ nodes p3 = nodes p2) as [Hpl3 Hn3].
  { revert Hq3. cbn [poll_run poll_act]. unfold poll_step, decide_wait, mbind, io_bind, gets. rewrite Hpl2.
    cbn. by intros [= <-]. }
  destruct (run_teardown (nodes p2) p3 (S num) Hn3 Hok3 Hpl3) as (p4 & Hq4 & Hpl4).
  exists (1 + (j2 + (1 + S (length (nodes p2)))))%nat, p4, num. rewrite Hn2, Hn1. rewrite Nat.sub_0_r in Hj2.
  split; [lia|]. split; [|done]. rewrite !replicate_add.
  rewrite (poll_run_app _ _ _ _ Hq1), (poll_run_app _ _ _ _ Hq2), (poll_run_app _ _ _ _ Hq3). by rewrite Hn2, Hn1 in Hq4.
Qed.

Lemma wake_first_hit k l nd : nd ∈ l → wakes k nd = true → ∃ l' nd', wake_first k l = (l', Some nd').
Proof.
  intros Hin Hw. induction l as [|n l IH]; [by apply elem_of_nil in Hin|].
  apply elem_of_cons in Hin as [->|Hin]; cbn; [rewrite Hw; by exists l, n|].
  destruct (wakes k n); [by exists l, n|]. destruct (IH Hin) as (l' & nd' & ->). by exists (n :: l'), nd'.
Qed.

(** An event that comes up wakes the thread. *)
Lemma raise_wakes p m i f bits : poll_ok p → place p = PollAsleep → (m < length asked)%nat →
  at_index m = Some i → files p !! i = Some f → pollable f = true → Z.land bits (key m) ≠ 0 →
  ∃ q, raise self i bits p = Ret (tt, q) ∧ poll_ok q ∧ place q = PollWoken ∧ fslock q = fslock p ∧
    nodes q = nodes p ∧ event_now (files q) m ≠ 0.
Proof.
  intros Hp Hpl Hm Hi Hf Hpo Hbits. pose proof Hp as [Hb Hok]. unfold place_ok in Hok. rewrite Hpl in Hok.
  destruct Hok as (_ & _ & _ & Hc). destruct (Hc m Hm) as [_ Hr].
  assert (node m ∈ waiting_list (queue f)) as Hin.
  { apply (Hr i (ready f)); [done|]. unfold view. by rewrite Hf, <- Hpo. }
  assert (wakes bits (node m) = true) as Hw.
  { cbn. apply orb_true_iff. right. by apply negb_true_iff, Z.eqb_neq. }
  destruct (wake_first_hit _ _ _ Hin Hw) as (l & nd & El).
  destruct (wake_first_some _ _ _ _ El) as (Hnd & _ & _).
  destruct (bs_nodes _ _ Hb i f nd Hf Hnd) as (n & -> & _ & _).
  pose proof (raise_ok p i bits Hp) as Hq. unfold wp in Hq.
  assert (∀ q, raise self i bits p = Ret (tt, q) → place q = PollWoken ∧ fslock q = fslock p ∧ nodes q = nodes p ∧
    files q = <[i := f <| ready := Z.lor (ready f) bits |> <| queue := MkWqueue RT_WQ_FLAG_WAKEUP l |>]> (files p)) as Hall.
  { intros q. unfold raise, rt_wqueue_wakeup, mbind, io_bind, gets. rewrite Hf, El. cbn [wakeup polling_thread node].
    rewrite Z.eqb_refl. unfold set_file, modify, resume_poller. cbn. rewrite Hpl. cbn. intros [= <-]. done. }
  destruct (raise self i bits p) as [[[] q]|] eqn:E; [|done].
  destruct (Hall q eq_refl) as (H1 & H2 & H3 & H4). exists q. split_and!; [done..|].
  rewrite (event_at _ m i true (Z.lor (ready f) bits) (MkWqueue RT_WQ_FLAG_WAKEUP l)); [|done|].
  - rewrite Z.land_lor_distr_l. intros [_ ?]%Z.lor_eq_0_iff. done.
  - rewrite H4. unfold view. rewrite lookup_insert_eq. cbn. by rewrite Hpo.
Qed.

(** * A wake-up that finds nothing *)

(** In a scan that has found nothing. *)
Definition spinning (pl : poll_place) : Prop :=
  match pl with
  | Scan _ num | Adding _ num | Masking _ num | Deciding num => num = 0%nat
  | Lock (Get _ num _) | LockWait (Get _ num _) | Locked (Get _ num _) => num = 0%nat
  | Unlock (Get _ num found) => num = 0%nat ∧ found = true
  | Lock (Put _ num mask) | LockWait (Put _ num mask) | Locked (Put _ num mask) | Unlock (Put _ num mask) =>
      num = 0%nat ∧ mask = 0
  | PollWoken => True
  | PollAsleep | Teardown _ | Polled _ => False
  end.

Record spin_state (p : poller) : Prop := {
  sp_triggered : triggered p = true;
  sp_over : istimeout p = false;
  sp_calm : ∀ n, event_now (files p) n = 0 }.
Definition spins (p : poller) : Prop := spin_state p ∧ spinning (place p).

Lemma event_ext fs fs' n : (∀ i, (λ v, v.1) <$> view fs' i = (λ v, v.1) <$> view fs i) →
  event_now fs' n = event_now fs n.
Proof.
  intros H. unfold event_now. destruct (asked !! n) as [a|]; [|done]. case_if; [done|].
  destruct (fd_index _ _ _) as [i|]; [|done]. specialize (H i).
  destruct (view fs i) as [[[pl rd] q]|], (view fs' i) as [[[pl' rd'] q']|]; try done. by injection H as <- <-.
Qed.

Lemma spin_goto p pl : spin_state p → spinning pl → wp (goto pl) (λ _, spins) p.
Proof. intros [? ? ?] H. apply wp_modify. by split. Qed.

Lemma spin_store p n : spin_state p → wp (store n 0 0) (λ _, spins) p.
Proof. intros [? ? ?]. unfold store. apply wp_bind, wp_modify. by apply spin_goto. Qed.

Lemma spin_file p i f f' : spin_state p → files p !! i = Some f → pollable f' = pollable f → ready f' = ready f →
  spin_state (p <| files := <[i := f']> (files p) |>).
Proof.
  intros [? ? Hc] Hf H1 H2. split; [done..|]. intros n. cbn. rewrite <- (Hc n). apply event_ext. intros j.
  unfold view. destruct (decide (i = j)) as [<-|Hne]; [|by rewrite lookup_insert_ne].
  rewrite lookup_insert_eq, Hf. cbn. by rewrite H1, H2.
Qed.

(** The file of an entry that has nothing to announce. *)
Lemma spin_entry p pl n i : spin_state p → based p pl → at_index n = Some i → (n < length asked)%nat →
  ∃ f, files p !! i = Some f ∧ Z.land (if pollable f then ready f else POLLMASK_DEFAULT) (key n) = 0.
Proof.
  intros [_ _ Hc] Hb Hi Hn. specialize (Hc n). unfold at_index in Hi. unfold event_now in Hc.
  destruct (asked !! n) as [a|]; [|done]. cbn in Hi. destruct (a.1 <? 0); [done|]. rewrite Hi in Hc.
  unfold view in Hc. destruct (files p !! i) as [f|] eqn:Ef; [|done]. by exists f.
Qed.

Lemma spin_waited p : spin_state p → wp waited (λ _, spins) p.
Proof.
  intros Hp. unfold waited. apply wp_bind, wp_gets, wp_bind. rewrite (sp_triggered _ Hp).
  apply wp_ret. by apply spin_goto.
Qed.

Lemma spin_fslock p w : spin_state p → spin_state (p <| fslock := w |>).
Proof. by intros []. Qed.

Lemma spin_unlock p n s : spin_state p → based p (Unlock s) → spinning (Unlock s) →
  (∃ i, at_index n = Some i) → (n < length asked)%nat →
  match s with Get m _ _ => m = n | Put m _ _ => m = n end →
  wp (dfs_unlock self stdio_console maxfd s) (λ _, spins) p.
Proof.
  intros Hp Hb Hs [i Hi] Hn Hm. unfold dfs_unlock. apply wp_bind, wp_on_fslock.
  eapply wp_mono; [by apply mutex_release_ok, Hb|]. intros r w (Hmx & _). cbn beta.
  apply (spin_fslock _ w) in Hp. set (p1 := p <| fslock := w |>) in *.
  assert (based p1 (Unlock s)) as Hb1 by by destruct Hb.
  destruct (spin_entry p1 _ n i Hp Hb1 Hi Hn) as (f & Ef & Hmask). cbn [spinning] in Hs.
  destruct s as [m num found|m num mask]; destruct Hs as [-> ->]; subst m.
  - apply wp_bind. eapply wp_entry; [done..|]. intros fe Hk. apply wp_bind, wp_gets. rewrite Ef.
    destruct (pollable f); [by apply spin_goto|]. apply spin_goto; [done|]. by rewrite Hk.
  - by apply spin_store.
Qed.

Definition at_file (p : poller) (n : nat) : Prop :=
  ∃ i f, at_index n = Some i ∧ (n < length asked)%nat ∧ files p !! i = Some f ∧
    Z.land (if pollable f then ready f else POLLMASK_DEFAULT) (key n) = 0.

Lemma spin_section p s : spin_state p → based p (Locked s) → spinning (Locked s) →
  at_file p (match s with Get n _ _ | Put n _ _ => n end) →
  wp (in_section stdio_console maxfd s) (λ _, spins) p.
Proof.
  intros Hp Hb Hs (i & f & Hi & Hn & Ef & _). cbn [spinning] in Hs.
  destruct s as [n num found|n num mask]; cbn [in_section];
    apply wp_bind; (eapply wp_entry; [done..|]; intros fe _); apply wp_bind, wp_gets; rewrite Ef.
  - apply wp_bind, wp_modify. apply spin_goto; [by eapply spin_file|done].
  - pose proof (bs_refs _ _ Hb i f Ef) as Hr.
    destruct (own_refs_at (Locked (Put n num mask)) n i eq_refl Hi) as [E1 _]. rewrite E1 in Hr.
    decide_if (ref_count f - 1 =? 0) false. apply wp_bind, wp_modify. apply spin_goto; [by eapply spin_file|done].
Qed.

Lemma spin_add p n : spin_state p → based p (Adding n 0) → at_file p n →
  wp (rt_poll_add self stdio_console maxfd rt_malloc n 0) (λ _, spins) p.
Proof.
  intros Hp Hb (i & f & Hi & Hn & Ef & _). unfold rt_poll_add.
  apply wp_bind. eapply wp_entry; [done..|]. intros fe _. apply wp_bind, wp_gets, wp_bind, wp_gets. rewrite Ef.
  apply wp_bind. case_if.
  - apply wp_bind, wp_modify, wp_modify. apply spin_goto; [|done].
    set (f' := f <| queue := _ |>). destruct (spin_file p i f f' Hp Ef eq_refl eq_refl). by split.
  - apply wp_ret. by apply spin_goto.
Qed.

Lemma spin_scan p n : spin_state p → based p (Scan n 0) → wp (scan stdio_console maxfd n 0) (λ _, spins) p.
Proof.
  intros Hp Hb. unfold scan. apply wp_bind, wp_gets. destruct (fds p !! n) as [f|] eqn:Ef.
  - pose proof (asked_lookup _ _ _ _ Hb Ef) as Ha. destruct (fd f <? 0) eqn:E0; [by apply spin_store|].
    pose proof (sp_calm _ Hp n) as Hc. unfold event_now in Hc. rewrite Ha in Hc. cbn [fst] in Hc. rewrite E0 in Hc.
    destruct (fd_index _ _ _); [|done]. by apply spin_goto.
  - apply wp_bind, wp_modify. apply spin_goto; [by destruct Hp|done].
Qed.

Lemma spin_step p : poll_ok p → spins p → wp step (λ _, spins) p.
Proof.
  intros [Hb Hok] [Hp Hs]. unfold poll_step. apply wp_bind, wp_gets. unfold place_ok in Hok.
  assert (∀ n num, visiting p n num → at_file p n) as Hvis.
  { intros n num (Hn & [i Hi] & _). destruct (spin_entry p _ n i Hp Hb Hi Hn) as (f & ? & ?). by exists i, f. }
  destruct (place p) as [n num|s|s|s|s|n num|n num|num| | |num|num] eqn:Hpl; cbn [spinning] in Hs; try done.
  - subst num. by apply spin_scan.
  - unfold dfs_lock. apply wp_bind, wp_on_fslock. eapply wp_mono; [by apply mutex_take_ok, Hb|].
    intros r w (_ & Hr). cbn beta. apply (spin_fslock _ w) in Hp.
    destruct Hr as [[-> _]|([->|[? _]] & _)]; [| |done]; by apply spin_goto.
  - apply wp_ret. split; [done|by rewrite Hpl].
  - apply spin_section; [done..|]. destruct s; [by eapply Hvis|]. destruct Hok as [[Hv _] _]. by eapply Hvis.
  - destruct s as [n num found|n num mask]; destruct Hok as [Hv _];
      destruct (Hvis n num Hv) as (i & f & Hi & Hn & _); by apply (spin_unlock p n); [..|exists i| |].
  - subst num. apply spin_add; [done..|]. destruct Hok as [Hv _]. by eapply Hvis.
  - destruct Hok as (Hv & (i & rd & q & Hi & Hvw) & _). destruct (Hvis n num Hv) as (i' & f & Hi' & Hn & Ef & Hmask).
    rewrite Hi in Hi'. injection Hi' as <-. unfold view in Hvw. rewrite Ef in Hvw. injection Hvw as Hpo _ _.
    rewrite Hpo in Hmask. unfold read_mask. apply wp_bind. eapply wp_entry; [done..|]. intros fe Hk.
    apply wp_bind, wp_gets. rewrite Ef, Hk, Hmask. by apply spin_goto.
  - subst num. unfold decide_wait. apply wp_bind, wp_gets, wp_bind, wp_gets.
    rewrite (sp_over _ Hp), (sp_triggered _ Hp). cbn [Nat.eqb negb orb andb]. rewrite andb_false_r. by apply spin_waited.
  - by apply spin_waited.
Qed.

(** Whatever else happens, short of an event. *)
Definition no_event (a : poll_action) : bool := match a with Raise _ _ => false | _ => true end.

Lemma spin_act p a : poll_ok p → spins p → no_event a = true → wp (act a) (λ _, spins) p.
Proof.
  intros Hok [Hp Hs] Ha. destruct a as [|i bits|i bits| |a]; cbn [poll_act]; [by apply spin_step|done|..].
  - unfold clear. apply wp_bind, wp_gets. destruct (files p !! i) as [f|] eqn:Ef; [|by apply wp_ret].
    pose proof (clear_ok p i bits Hok) as Hc. apply wp_modify. split; [|done].
    destruct Hp as [? ? Hcalm]. split; [done..|]. intros n. specialize (Hcalm n). cbn -[Z.ldiff].
    unfold event_now in *. destruct (asked !! n) as [a|]; [|done]. case_if; [done|].
    destruct (fd_index _ _ _) as [j|]; [|done]. unfold view in *. destruct (decide (i = j)) as [<-|Hne].
    + rewrite lookup_insert_eq. rewrite Ef in Hcalm. cbn -[Z.land Z.ldiff] in *. destruct (pollable f); [|done].
      by apply ldiff_calm.
    + by rewrite lookup_insert_ne.
  - apply wp_modify. destruct (place p) eqn:Hpl; by split; [|rewrite ?Hpl].
  - unfold other_locks. case_if; [by apply wp_ret|]. apply wp_bind, wp_on_fslock.
    eapply wp_mono; [apply mutex_act_ok; [apply Hok|done]|]. intros r w _. cbn beta. apply wp_bind, wp_gets.
    apply (spin_fslock _ w) in Hp. assert (spins (p <| fslock := w |>)) as Hp1 by by split.
    change (place (p <| fslock := w |>)) with (place p).
    destruct (place p) as [| |s| | | | | | | | |]; destruct r as [[|e| |[u|]]|]; try (by apply wp_ret).
    destruct (u =? self); [|by apply wp_ret]. apply spin_goto; [done|]. by destruct s.
Qed.

Lemma spin_run acts : ∀ p, poll_ok p → spins p → forallb no_event acts = true →
  wp (run acts) (λ _ q, poll_ok q ∧ spins q) p.
Proof.
  induction acts as [|a acts IH]; intros p Hok Hp Ha; cbn [poll_run]; [by apply wp_ret|].
  apply andb_true_iff in Ha as [Ha Hacts]. apply wp_bind.
  eapply wp_mono; [eapply wp_conj; [by apply act_ok|by apply spin_act]|].
  intros [] q [? ?]. by apply IH.
Qed.

(** * A wake-up in the queue of the mutex *)

Lemma section_runs p s : wp (in_section stdio_console maxfd s) (λ _ q,
  (∃ s', place q = Unlock s') ∧ fslock q = fslock p) p.
Proof.
  assert (∀ q s', fslock q = fslock p →
    wp (goto (Unlock s')) (λ _ q, (∃ s', place q = Unlock s') ∧ fslock q = fslock p) q) as Hgo.
  { intros q s' Hq. apply wp_modify. split; [by eexists|exact Hq]. }
  destruct s as [n num found|n num mask]; cbn [in_section]; unfold entry;
    apply wp_bind, wp_gets; cbv beta;
    (destruct (option_bind _ _ _ _) as [[f i]|] || destruct (_ ≫= _) as [[f i]|]); try by apply Hgo.
  all: apply wp_bind, wp_gets; destruct (files p !! i) as [fl|]; [|by apply Hgo].
  - apply wp_bind, wp_modify. by apply Hgo.
  - apply wp_bind. case_if; apply wp_modify; by apply Hgo.
Qed.

Lemma raise_lock p m i f bits s : poll_ok p → place p = LockWait s →
  files p !! i = Some f → node m ∈ waiting_list (queue f) → Z.land bits (key m) ≠ 0 →
  wp (raise self i bits) (λ _ q, place q = Locked s ∧
    owner (mutex (fslock q)) = owner (mutex (fslock p))) p.
Proof.
  intros [Hb _] Hpl Hf Hin Hbits.
  assert (wakes bits (node m) = true) as Hw.
  { cbn. apply orb_true_iff. right. by apply negb_true_iff, Z.eqb_neq. }
  destruct (wake_first_hit _ _ _ Hin Hw) as (l & nd & El).
  destruct (wake_first_some _ _ _ _ El) as (Hnd & _ & _).
  destruct (bs_nodes _ _ Hb i f nd Hf Hnd) as (n & -> & _ & _).
  unfold raise, rt_wqueue_wakeup. apply wp_bind, wp_gets. rewrite Hf, El. cbn [wakeup polling_thread node].
  apply wp_bind, wp_modify, wp_bind, wp_modify. rewrite Z.eqb_refl. unfold wp, resume_poller. cbn.
  by rewrite Hpl.
Qed.
End poll.

(** * The theorems *)

Section theorems.
Variables (self msec stdio_console maxfd : Z) (rt_malloc : nat → bool).
Variables (l : list pollfd) (table : gmap Z file) (w : threads).

(** The files of the table are open and nobody waits for them. *)
Record poll_start : Prop := {
  ps_queues : ∀ i f, table !! i = Some f → waiting_list (queue f) = [];
  ps_refs : ∀ i f, table !! i = Some f → 1 <= ref_count f;
  ps_mutex : mutex_ok (mutex w) }.

Definition asks : list (Z * Z) := (λ f, (fd f, events f)) <$> l.

Abbreviation ok := (poll_ok self stdio_console maxfd asks).
Abbreviation run := (poll_run self msec stdio_console maxfd rt_malloc).
Abbreviation start := (poll msec l table w).
Abbreviation event_of := (event_now stdio_console maxfd asks).
Abbreviation index_of := (at_index stdio_console maxfd asks).

Hypothesis rt_malloc_ok : ∀ n, rt_malloc n = true.
Hypothesis started : poll_start.

Lemma start_ok : ok start.
Proof.
  destruct started as [Hq Hr Hm]. split.
  - split; try done; cbn.
    intros i f nd Hi. rewrite (Hq i f Hi). intros H. by apply elem_of_nil in H.
  - split; [lia|]. split; [done|]. intros _. unfold watching. cbn. destruct (msec =? 0); [by left|].
    right; right. split; [done|]. intros m Hm'. lia.
Qed.

Lemma reached_ok acts p : run acts start = Ret (tt, p) → ok p.
Proof.
  intros E. pose proof (run_ok self msec stdio_console maxfd rt_malloc asks rt_malloc_ok acts _ start_ok) as H.
  unfold wp in H. by rewrite E in H.
Qed.

(** C34.  [poll], when every allocation of a node succeeds ([rt_malloc_ok]: without memory a
    file is not waited for) and, at its start, the files are open and nobody waits for them
    ([poll_start]), for every interleaving of its steps with events that come and go, the
    timer and other threads at the mutex of the file table.  No step faults; it sleeps only
    while no file it was given has an event it was asked for; when it returns, the result
    is the number of entries that have one, it is 0 only after the time limit, and none of
    its nodes is left in a queue.  An event that comes up while it sleeps is returned, when
    nobody interferes, within nine steps for each entry and one for each node. *)
Theorem poll_no_lost_event acts :
  wp (run acts) (λ _ p,
    (place p = PollAsleep → ∀ n, event_of (files p) n = 0) ∧
    (∀ num, place p = Polled num →
       num = length (List.filter (λ f, negb (revents f =? 0)) (fds p)) ∧
       (num = 0%nat → istimeout p = true) ∧
       ∀ i f, files p !! i = Some f → waiting_list (queue f) = []) ∧
    (∀ m i f bits, place p = PollAsleep → unlocked p → index_of m = Some i →
       files p !! i = Some f → pollable f = true → Z.land bits (key asks m) ≠ 0 →
       ∃ j num, (j <= 9 * length l + length (nodes p) + 4)%nat ∧
         wp (run (Raise i bits :: replicate j PollStep)) (λ _ q, place q = Polled (S num)) p)) start.
Proof.
  eapply wp_mono; [apply (run_ok self msec stdio_console maxfd rt_malloc asks rt_malloc_ok acts _ start_ok)|].
  intros [] p Hp. cbn beta. pose proof Hp as [Hb Hok]. unfold place_ok in Hok.
  assert (length (fds p) = length asks) as Hlen by (by eapply asked_length). split_and!.
  - intros E n. rewrite E in Hok. destruct Hok as (_ & _ & _ & Hc).
    destruct (decide (n < length asks)%nat) as [Hn|Hn]; [by apply Hc|].
    unfold event_now. by rewrite lookup_ge_None_2 by lia.
  - intros num E. rewrite E in Hok. destruct Hok as (Hnum & Hover & Hnodes). split_and!; [|done|].
    + rewrite Hnum. unfold hits. by rewrite <- Hlen, firstn_all.
    + intros i f Hf. destruct (waiting_list (queue f)) as [|nd q] eqn:Eq; [done|].
      destruct (bs_nodes _ _ _ _ _ _ Hb i f nd Hf) as (n & _ & _ & Hin); [rewrite Eq; by left|].
      rewrite Hnodes in Hin. by apply elem_of_nil in Hin.
  - intros m i f bits Hpl Hfree Hi Hf Hpo Hbits.
    assert (m < length asks)%nat as Hm.
    { unfold at_index in Hi. destruct (asks !! m) eqn:E; [by eapply lookup_lt_Some|done]. }
    destruct (raise_wakes self stdio_console maxfd asks p m i f bits Hp Hpl Hm Hi Hf Hpo Hbits)
      as (q & Hq & Hok' & Hplq & Hlock & Hnq & He).
    assert (unlocked q) as Hfree' by (destruct Hfree as [fl ?]; exists fl; by rewrite Hlock).
    destruct (run_woken self msec stdio_console maxfd rt_malloc asks rt_malloc_ok q m Hok' Hfree' Hplq Hm He)
      as (j & q' & num & Hj & Hrun & Hend).
    exists j, num. unfold asks in Hj. rewrite length_fmap, Hnq in Hj. split; [exact Hj|].
    unfold wp. cbn [poll_run poll_act]. unfold mbind, io_bind. rewrite Hq, Hrun. exact Hend.
Qed.

(** C35.  A wake-up is never forgotten.  When [poll] has been woken for an event that another
    thread has taken before it looks, the table stays triggered: [poll] scans the files
    again and again, without ever sleeping and whatever its time limit, until some event
    comes up. *)
Theorem poll_spins acts acts' p :
  run acts start = Ret (tt, p) → place p = PollWoken → triggered p = true →
  (∀ n, event_of (files p) n = 0) → forallb no_event acts' = true →
  wp (run acts') (λ _ q, place q ≠ PollAsleep ∧ ∀ num, place q ≠ Polled num) p.
Proof.
  intros Hrun Hpl Ht Hc Hacts. pose proof (reached_ok acts p Hrun) as Hok.
  assert (spins stdio_console maxfd asks p) as Hs.
  { split; [|by rewrite Hpl]. destruct Hok as [_ Hok]. unfold place_ok in Hok. rewrite Hpl in Hok.
    destruct Hok as [_ ?]. by split. }
  eapply wp_mono; [by apply (spin_run self msec stdio_console maxfd rt_malloc asks rt_malloc_ok acts')|].
  cbn beta. intros _ q [_ [_ Hq]]. split; [|intros num]; intros E; by rewrite E in Hq.
Qed.

(** C36.  A wake-up reaches the thread wherever it is suspended.  When [poll] waits for the
    mutex of the file table with a node in the queue of a file, and an event comes up at
    that file, the thread leaves the queue of the mutex as if it had been given it: it goes
    through the section while the other thread still owns the mutex. *)
Theorem poll_breaks_lock acts p s o m i f bits :
  run acts start = Ret (tt, p) → place p = LockWait s → owner (mutex (fslock p)) = Some o →
  files p !! i = Some f → node self asks m ∈ waiting_list (queue f) → Z.land bits (key asks m) ≠ 0 →
  o ≠ self ∧
  wp (run [Raise i bits]) (λ _ q, place q = Locked s ∧ owner (mutex (fslock q)) = Some o) p ∧
  wp (run [Raise i bits; PollStep]) (λ _ q,
    (∃ s', place q = Unlock s') ∧ owner (mutex (fslock q)) = Some o) p.
Proof.
  intros Hrun Hpl Ho Hf Hin Hbits. pose proof (reached_ok acts p Hrun) as Hok.
  pose proof (raise_lock self stdio_console maxfd asks p m i f bits s Hok Hpl Hf Hin Hbits) as Hw.
  rewrite Ho in Hw. split_and!.
  - intros ->. destruct Hok as [Hb _]. by apply (bs_owner _ _ _ _ _ _ Hb s Hpl).
  - cbn [poll_run poll_act]. apply wp_bind. eapply wp_mono; [exact Hw|]. intros [] q Hq. by apply wp_ret.
  - cbn [poll_run poll_act]. apply wp_bind. eapply wp_mono; [exact Hw|]. intros [] q [Hq Hoq]. cbn beta.
    apply wp_bind. unfold poll_step. apply wp_bind, wp_gets. rewrite Hq.
    eapply wp_mono; [apply section_runs|]. intros [] r [Hr Hlk]. cbn beta. apply wp_ret.
    by rewrite Hlk.
Qed.
End theorems.

(** * At one file *)

Definition one_file : gmap Z file := {[0 := MkFile true 0 rt_wqueue_init 1]}.
Definition one_asked : list pollfd := [MkPollfd 3 POLLIN 0].
Definition free_lock : threads := MkThreads (rt_mutex_create 0) (λ _, 10).

Lemma one_file_start : poll_start one_file free_lock.
Proof.
  split; [| |by left]; intros i f H; unfold one_file in H; apply lookup_singleton_Some in H as [<- <-]; [done|cbn; lia].
Qed.


Definition run_one : list poll_action → io poller unit := poll_run 7 1000 0 8 (λ _, true).
Definition poll_one : poller := poll 1000 one_asked one_file free_lock.
Definition to_sleep : list poll_action := replicate 11 PollStep.

Lemma poll_no_lost_event_witness :
  wp (run_one to_sleep) (λ _ p, place p = PollAsleep ∧
    ∃ j num, (j <= 14)%nat ∧
      wp (run_one (Raise 0 POLLIN :: replicate j PollStep)) (λ _ q, place q = Polled (S num)) p) poll_one.
Proof.
  eapply wp_mono; [eapply wp_conj;
    [apply (poll_no_lost_event 7 1000 0 8 (λ _, true) one_asked one_file free_lock
              (λ _, eq_refl) one_file_start to_sleep)|]|].
  - instantiate (1 := λ _ p, place p = PollAsleep ∧ nodes p = [0%nat] ∧
      mutex (fslock p) = free_mutex 0 ∧
      ∃ f, files p !! 0 = Some f ∧ pollable f = true).
    vm_compute. split_and!; [done..|]. by eexists.
  - cbn beta. intros _ p ((_ & _ & Hlive) & Hpl & Hn & Hl & f & Hf & Hpo). split; [done|].
    destruct (Hlive 0%nat 0 f POLLIN Hpl) as (j & num & Hj & Hw); try done.
    + by exists 0.
    + exists j, num. rewrite Hn in Hj. by split.
Defined.

(** The event is taken by another thread before [poll] looks. *)
Definition taken_event : list poll_action := to_sleep ++ [Raise 0 POLLIN; Clear 0 POLLIN].

Lemma poll_spins_witness :
  ∃ p, run_one taken_event poll_one = Ret (tt, p) ∧
    wp (run_one (replicate 40 PollStep ++ [TimerExpires] ++ replicate 40 PollStep))
      (λ _ q, place q ≠ PollAsleep ∧ ∀ num, place q ≠ Polled num) p.
Proof.
  eexists. split; [by vm_compute|].
  apply (poll_spins 7 1000 0 8 (λ _, true) one_asked one_file free_lock (λ _, eq_refl) one_file_start
           taken_event); try by vm_compute.
  intros [|n]; by vm_compute.
Defined.

(** Another thread has the mutex when [poll] wants it for [fd_put]. *)
Definition blocked_put : list poll_action := replicate 6 PollStep ++ [OtherLocks (Take 3 (-1)); PollStep].

Lemma poll_breaks_lock_witness :
  ∃ p s, run_one blocked_put poll_one = Ret (tt, p) ∧ place p = LockWait s ∧
    wp (run_one [Raise 0 POLLIN; PollStep])
      (λ _ q, (∃ s', place q = Unlock s') ∧ owner (mutex (fslock q)) = Some 3) p.
Proof.
  do 2 eexists. split; [by vm_compute|]. split; [by cbn|].
  eapply (poll_breaks_lock 7 1000 0 8 (λ _, true) one_asked one_file free_lock (λ _, eq_refl) one_file_start
            blocked_put _ _ 3 0 0); [by vm_compute..| |by vm_compute].
  by left.
Defined.
