(* ===== verification/Heap.v ===== *)
(** The allocator of the kernel (rt-thread/src/mem.c), behind every [rt_malloc] of the
    firmware: a region of memory cut into blocks that lie one behind the other, each with a
    header that links it to its neighbours.

    Memory is what lies at the offsets from [heap_ptr]: the headers [heads] and the bytes
    [data].  A header written over bytes makes them indeterminate, and bytes written over a
    header destroy it; reading a header where none is left is a fault.  The pointers
    [heap_end] and [lfree] are offsets; [rt_size_t] is a 32-bit unsigned number.  The
    semaphore of the heap is its value.  The hooks are never set. *)

From stdpp Require Import gmap.
From S2P Require Import Prelude.

Definition HEAP_MAGIC := 7840.
Definition RT_ALIGN_SIZE := 4.
Definition MIN_SIZE := 12.
Definition SIZEOF_STRUCT_MEM := 12.

Definition RT_ALIGN (size : Z) : Z := Z.land (u32 (size + RT_ALIGN_SIZE - 1)) (Z.lnot (RT_ALIGN_SIZE - 1)).
Definition RT_ALIGN_DOWN (size : Z) : Z := Z.land size (Z.lnot (RT_ALIGN_SIZE - 1)).
Definition MIN_SIZE_ALIGNED := RT_ALIGN MIN_SIZE.

Record heap_mem : Type := MkMem {
  magic : Z;
  used : Z;
  next : Z;
  prev : Z }.
#[global] Instance heap_mem_eta : Eta heap_mem := λ m, MkMem (magic m) (used m) (next m) (prev m).

Record heap : Type := MkHeap {
  heap_ptr : Z;
  heap_end : Z;
  lfree : Z;
  mem_size_aligned : Z;
  used_mem : Z;
  max_mem : Z;
  heap_sem : Z;
  heads : gmap Z heap_mem;
  data : Z → option Z }.
#[global] Instance heap_eta : Eta heap := λ h,
  MkHeap (heap_ptr h) (heap_end h) (lfree h) (mem_size_aligned h) (used_mem h) (max_mem h)
    (heap_sem h) (heads h) (data h).

Definition rt_assert (b : bool) : io heap unit := if b then mret tt else io_fault AssertFailed.

(** * Memory *)

(** The headers that the [n] bytes at [lo] do not touch. *)
Definition outside (lo n q : Z) : bool := (q + SIZEOF_STRUCT_MEM <=? lo) || (lo + n <=? q).
Definition clobber (lo n : Z) (m : gmap Z heap_mem) : gmap Z heap_mem :=
  filter (λ qh, outside lo n qh.1 = true) m.
Definition within (lo n a : Z) : bool := (lo <=? a) && (a <? lo + n).

Definition get_mem (p : Z) : io heap heap_mem := λ h,
  match heads h !! p with Some m => Ret (m, h) | None => Fault Uninitialised end.
Definition set_mem (p : Z) (m : heap_mem) : io heap unit := modify (λ h,
  h <| heads := <[p := m]> (clobber p SIZEOF_STRUCT_MEM (heads h)) |>
    <| data := λ a, if within p SIZEOF_STRUCT_MEM a then None else data h a |>).
(** An assignment to a member. *)
Definition upd_mem (p : Z) (f : heap_mem → heap_mem) : io heap unit :=
  m ← get_mem p; modify (λ h, h <| heads := <[p := f m]> (heads h) |>).

(** The [n] bytes at the address [p]. *)
Definition store (p n : Z) (bytes : Z → option Z) : io heap unit := λ h,
  let lo := p - heap_ptr h in
  if n <=? 0 then Ret (tt, h)
  else if (lo <? 0) || (heap_end h + SIZEOF_STRUCT_MEM <? lo + n) then Fault OutOfBounds
  else Ret (tt, h <| heads := clobber lo n (heads h) |>
                  <| data := λ a, if within lo n a then bytes (a - lo) else data h a |>).
Definition rt_memset (p c n : Z) : io heap unit := store p n (λ _, Some c).
Definition rt_memcpy (dst src n : Z) : io heap unit :=
  bytes ← gets (λ h i, data h (src - heap_ptr h + i)); store dst n bytes.

Definition rt_sem_take : io heap unit :=
  v ← gets heap_sem;
  if 0 <? v then modify (λ h, h <| heap_sem := heap_sem h - 1 |>) else io_fault Blocked.
Definition rt_sem_release : io heap unit := modify (λ h, h <| heap_sem := heap_sem h + 1 |>).

(** * Operations *)

(** [None]: no room for the two headers, and the heap stays unset. *)
Definition rt_system_heap_init (begin_addr end_addr : Z) : option heap :=
  let begin_align := RT_ALIGN begin_addr in
  let end_align := RT_ALIGN_DOWN end_addr in
  if (2 * SIZEOF_STRUCT_MEM <? end_align) && (begin_align <=? end_align - 2 * SIZEOF_STRUCT_MEM) then
    let size := end_align - begin_align - 2 * SIZEOF_STRUCT_MEM in
    let last := size + SIZEOF_STRUCT_MEM in
    Some (MkHeap begin_align last 0 size 0 0 1
            (<[0 := MkMem HEAP_MAGIC 0 last 0]> (<[last := MkMem HEAP_MAGIC 1 last last]> ∅))
            (λ _, None))
  else None.

Definition set_lfree (p : Z) : io heap unit := modify (λ h, h <| lfree := p |>).

(** The block behind [mem] joins it when it is free ... *)
Definition plug_forward (mem : Z) : io heap unit :=
  e ← gets heap_end;
  m ← get_mem mem;
  let nmem := next m in
  n ← get_mem nmem;
  if negb (mem =? nmem) && (used n =? 0) && negb (nmem =? e) then
    lf ← gets lfree;
    (if lf =? nmem then set_lfree mem else mret tt) ;;
    upd_mem mem (λ m, m <| next := next n |>) ;;
    upd_mem (next n) (λ m, m <| prev := mem |>)
  else mret tt.
(** ... and [mem] the one before it. *)
Definition plug_backward (mem : Z) : io heap unit :=
  m ← get_mem mem;
  let pmem := prev m in
  p ← get_mem pmem;
  if negb (pmem =? mem) && (used p =? 0) then
    lf ← gets lfree;
    (if lf =? mem then set_lfree pmem else mret tt) ;;
    upd_mem pmem (λ p, p <| next := next m |>) ;;
    upd_mem (next m) (λ m, m <| prev := pmem |>)
  else mret tt.
Definition plug_holes (mem : Z) : io heap unit :=
  e ← gets heap_end;
  rt_assert (0 <=? mem) ;;
  rt_assert (mem <? e) ;;
  m ← get_mem mem;
  rt_assert (used m =? 0) ;;
  plug_forward mem ;;
  plug_backward mem.

(** The search from [ptr] on: a block that is free and large enough. *)
Fixpoint find_fit (fuel : nat) (ptr size : Z) : io heap (option Z) :=
  lim ← gets mem_size_aligned;
  if ptr <? u32 (lim - size) then
    match fuel with
    | O => io_fault Blocked
    | S fuel =>
        mem ← get_mem ptr;
        if (used mem =? 0) && (size <=? u32 (next mem - (ptr + SIZEOF_STRUCT_MEM))) then mret (Some ptr)
        else find_fit fuel (next mem) size
    end
  else mret None.

(** [while (lfree->used && lfree != heap_end)]. *)
Fixpoint next_free (fuel : nat) : io heap unit :=
  lf ← gets lfree;
  e ← gets heap_end;
  m ← get_mem lf;
  if negb (used m =? 0) && negb (lf =? e) then
    match fuel with
    | O => io_fault Blocked
    | S fuel => set_lfree (next m) ;; next_free fuel
    end
  else mret tt.

(** There are no more blocks than bytes. *)
Definition blocks_fuel : io heap nat := gets (λ h, Z.to_nat (heap_end h)).

Definition count_used (n : Z) : io heap unit := modify (λ h,
  let u := u32 (used_mem h + n) in
  h <| used_mem := u |> <| max_mem := if max_mem h <? u then u else max_mem h |>).

(** A header with [used = 0] at [ptr2], between [ptr] and the block behind it. *)
Definition split (ptr ptr2 : Z) : io heap unit :=
  mem ← get_mem ptr;
  set_mem ptr2 (MkMem HEAP_MAGIC 0 (next mem) ptr) ;;
  upd_mem ptr (λ m, m <| next := ptr2 |>) ;;
  lim ← gets mem_size_aligned;
  if negb (next mem =? lim + SIZEOF_STRUCT_MEM) then upd_mem (next mem) (λ m, m <| prev := ptr2 |>)
  else mret tt.

Definition take_block (ptr size : Z) : io heap unit :=
  mem ← get_mem ptr;
  if size + SIZEOF_STRUCT_MEM + MIN_SIZE_ALIGNED <=? u32 (next mem - (ptr + SIZEOF_STRUCT_MEM)) then
    split ptr (ptr + SIZEOF_STRUCT_MEM + size) ;;
    upd_mem ptr (λ m, m <| used := 1 |>) ;;
    count_used (size + SIZEOF_STRUCT_MEM)
  else
    upd_mem ptr (λ m, m <| used := 1 |>) ;;
    count_used (next mem - ptr).

(** The magic number, and [lfree] moves on when its block was taken. *)
Definition settle (fuel : nat) (ptr lf : Z) : io heap unit :=
  upd_mem ptr (λ m, m <| magic := HEAP_MAGIC |>) ;;
  (if ptr =? lf then
     next_free fuel ;;
     lf ← gets lfree;
     e ← gets heap_end;
     m ← get_mem lf;
     rt_assert ((lf =? e) || (used m =? 0))
   else mret tt).

Definition rt_malloc (size : Z) : io heap (option Z) :=
  if size =? 0 then mret None
  else
    let size := RT_ALIGN size in
    lim ← gets mem_size_aligned;
    if lim <? size then mret None
    else
      let size := if size <? MIN_SIZE_ALIGNED then MIN_SIZE_ALIGNED else size in
      rt_sem_take ;;
      lf ← gets lfree;
      fuel ← blocks_fuel;
      found ← find_fit fuel lf size;
      match found with
      | None => rt_sem_release ;; mret None
      | Some ptr =>
          take_block ptr size ;;
          settle fuel ptr lf ;;
          rt_sem_release ;;
          e ← gets heap_end;
          base ← gets heap_ptr;
          rt_assert (ptr + SIZEOF_STRUCT_MEM + size <=? e) ;;
          rt_assert ((base + ptr + SIZEOF_STRUCT_MEM) mod RT_ALIGN_SIZE =? 0) ;;
          rt_assert (Z.land (base + ptr) (RT_ALIGN_SIZE - 1) =? 0) ;;
          mret (Some (base + ptr + SIZEOF_STRUCT_MEM))
      end.

Definition in_heap (h : heap) (rmem : Z) : bool :=
  (heap_ptr h <=? rmem) && (rmem <? heap_ptr h + heap_end h).

Definition rt_free (rmem : option Z) : io heap unit :=
  match rmem with
  | None => mret tt
  | Some rmem =>
      rt_assert (Z.land rmem (RT_ALIGN_SIZE - 1) =? 0) ;;
      ok ← gets (λ h, in_heap h rmem);
      rt_assert ok ;;
      mem ← gets (λ h, rmem - SIZEOF_STRUCT_MEM - heap_ptr h);
      rt_sem_take ;;
      m ← get_mem mem;
      rt_assert (negb (used m =? 0)) ;;
      rt_assert (magic m =? HEAP_MAGIC) ;;
      upd_mem mem (λ m, m <| used := 0 |> <| magic := HEAP_MAGIC |>) ;;
      lf ← gets lfree;
      (if mem <? lf then set_lfree mem else mret tt) ;;
      modify (λ h, h <| used_mem := u32 (used_mem h - (next m - mem)) |>) ;;
      plug_holes mem ;;
      rt_sem_release
  end.

(** A block of [size] bytes keeps [newsize] of them. *)
Definition shrink (ptr size newsize : Z) : io heap unit :=
  modify (λ h, h <| used_mem := u32 (used_mem h - (size - newsize)) |>) ;;
  split ptr (ptr + SIZEOF_STRUCT_MEM + newsize) ;;
  plug_holes (ptr + SIZEOF_STRUCT_MEM + newsize).

(** The block moves to a new one. *)
Definition expand (p size newsize : Z) : io heap (option Z) :=
  nmem ← rt_malloc newsize;
  match nmem with
  | None => mret None
  | Some n =>
      rt_memcpy n p (if size <? newsize then size else newsize) ;;
      rt_free (Some p) ;;
      mret nmem
  end.

Definition rt_realloc (rmem : option Z) (newsize : Z) : io heap (option Z) :=
  let newsize := RT_ALIGN newsize in
  lim ← gets mem_size_aligned;
  if lim <? newsize then mret None
  else if newsize =? 0 then rt_free rmem ;; mret None
  else
    match rmem with
    | None => rt_malloc newsize
    | Some p =>
        rt_sem_take ;;
        ok ← gets (λ h, in_heap h p);
        if negb ok then rt_sem_release ;; mret rmem
        else
          ptr ← gets (λ h, p - SIZEOF_STRUCT_MEM - heap_ptr h);
          mem ← get_mem ptr;
          let size := u32 (next mem - ptr - SIZEOF_STRUCT_MEM) in
          if size =? newsize then rt_sem_release ;; mret rmem
          else if newsize + SIZEOF_STRUCT_MEM + MIN_SIZE <? size then
            shrink ptr size newsize ;;
            rt_sem_release ;;
            mret rmem
          else
            rt_sem_release ;;
            expand p size newsize
    end.

Definition rt_calloc (count size : Z) : io heap (option Z) :=
  p ← rt_malloc (u32 (count * size));
  match p with
  | None => mret None
  | Some a => rt_memset a 0 (u32 (count * size)) ;; mret p
  end.
