(* ===== verification/HeapBlocks.v ===== *)
(** The heap of mem.c as a list of blocks, used or free, with their sizes: the headers in
    memory link just these ([run]), and the used ones are what a program holds ([used_map]). *)

From stdpp Require Import gmap.
From S2P Require Import Prelude Heap.

(** * Blocks *)

Abbreviation block := (bool * Z)%type (only parsing).

Fixpoint total (bs : list block) : Z :=
  match bs with [] => 0 | (_, n) :: bs => 12 + n + total bs end.

(** The headers from [p] on; [pr] is the header before. *)
Fixpoint run (m : gmap Z heap_mem) (pr p : Z) (bs : list block) : Prop :=
  match bs with
  | [] => True
  | (u, n) :: bs =>
      m !! p = Some (MkMem HEAP_MAGIC (Z.b2z u) (p + 12 + n) pr) ∧ run m p (p + 12 + n) bs
  end.
Fixpoint before (pr p : Z) (bs : list block) : Z :=
  match bs with [] => pr | (_, n) :: bs => before p (p + 12 + n) bs end.

Definition sized (bs : list block) : Prop := Forall (λ b, 0 <= b.2 ∧ b.2 mod 4 = 0) bs.

(** No two free blocks side by side; [f]: the block before is free. *)
Fixpoint apart (f : bool) (bs : list block) : Prop :=
  match bs with [] => True | (u, _) :: bs => f && negb u = false ∧ apart (negb u) bs end.
Fixpoint ends_free (f : bool) (bs : list block) : bool :=
  match bs with [] => f | (u, _) :: bs => ends_free (negb u) bs end.

Fixpoint free_at (p : Z) (bs : list block) (q : Z) : Prop :=
  match bs with [] => False | (u, n) :: bs => (u = false ∧ q = p) ∨ free_at (p + 12 + n) bs q end.

(** The usable bytes of the used blocks, by their offset. *)
Fixpoint used_map (p : Z) (bs : list block) : gmap Z Z :=
  match bs with
  | [] => ∅
  | (u, n) :: bs => let m := used_map (p + 12 + n) bs in if u then <[p + 12 := n]> m else m
  end.
Fixpoint occupied (bs : list block) : Z :=
  match bs with [] => 0 | (u, n) :: bs => (if u then 12 + n else 0) + occupied bs end.

Lemma total_app b1 b2 : total (b1 ++ b2) = total b1 + total b2.
Proof. induction b1 as [|[u n] b1 IH]; cbn [total app]; lia. Qed.

Lemma total_pos bs : sized bs → 12 * Z.of_nat (length bs) <= total bs.
Proof. induction 1 as [|[u n] bs [H _] _ IH]; cbn [total length snd] in *; lia. Qed.

Lemma total_mod bs : sized bs → total bs mod 4 = 0.
Proof. induction 1 as [|[u n] bs [_ H] _ IH]; cbn [total snd] in *; [done|dlia]. Qed.

Lemma sized_app b1 b2 : sized (b1 ++ b2) ↔ sized b1 ∧ sized b2.
Proof. apply Forall_app. Qed.

Lemma run_app m pr p b1 b2 :
  run m pr p (b1 ++ b2) ↔ run m pr p b1 ∧ run m (before pr p b1) (p + total b1) b2.
Proof.
  revert pr p. induction b1 as [|[u n] b1 IH]; intros pr p; cbn [run app before total].
  - rewrite Z.add_0_r. tauto.
  - rewrite IH. replace (p + 12 + n + total b1) with (p + (12 + n + total b1)) by lia. tauto.
Qed.

Lemma before_snoc pr p b1 u n : before pr p (b1 ++ [(u, n)]) = p + total b1.
Proof.
  revert pr p. induction b1 as [|[v k] b1 IH]; intros pr p; cbn [before app total]; [lia|].
  rewrite IH. lia.
Qed.

Lemma apart_app f b1 b2 : apart f (b1 ++ b2) ↔ apart f b1 ∧ apart (ends_free f b1) b2.
Proof. revert f. induction b1 as [|[u n] b1 IH]; intros f; cbn; [tauto|]. rewrite IH. tauto. Qed.

Lemma apart_weaken bs : apart true bs → apart false bs.
Proof. destruct bs as [|[u n] bs]; cbn; tauto. Qed.

Lemma free_at_app p b1 b2 q : free_at p (b1 ++ b2) q ↔ free_at p b1 q ∨ free_at (p + total b1) b2 q.
Proof.
  revert p. induction b1 as [|[u n] b1 IH]; intros p; cbn [free_at app total].
  - rewrite Z.add_0_r. tauto.
  - rewrite IH. replace (p + 12 + n + total b1) with (p + (12 + n + total b1)) by lia. tauto.
Qed.

Lemma free_at_range p bs q : sized bs → free_at p bs q → p <= q ∧ q + 12 <= p + total bs.
Proof.
  intros Hs. revert p. induction Hs as [|[u n] bs [Hn _] Hs IH]; intros p; cbn [free_at total snd] in *; [done|].
  pose proof (total_pos bs Hs). intros [[_ ->]|H']; [lia|]. apply IH in H'. lia.
Qed.

Lemma occupied_app b1 b2 : occupied (b1 ++ b2) = occupied b1 + occupied b2.
Proof. induction b1 as [|[u n] b1 IH]; cbn [occupied app]; lia. Qed.

Lemma occupied_bounds bs : sized bs → 0 <= occupied bs <= total bs.
Proof. induction 1 as [|[u n] bs [H _] _ IH]; cbn [occupied total snd] in *; [lia|]. destruct u; lia. Qed.

(** ** Used blocks *)

Lemma used_map_range p bs q n : sized bs → used_map p bs !! q = Some n →
  p + 12 <= q ∧ q + n <= p + total bs ∧ 0 <= n ∧ (q - p) mod 4 = 0.
Proof.
  intros Hs. revert p. induction Hs as [|[u k] bs [Hk Hm] Hs IH]; intros p; cbn [used_map total snd] in *.
  { by rewrite lookup_empty. }
  pose proof (total_pos bs Hs). destruct u.
  - rewrite lookup_insert. destruct (decide (p + 12 = q)) as [<-|].
    + intros [= <-]. split_and!; [lia..|]. by replace (p + 12 - p) with 12 by lia.
    + intros H'. apply IH in H'. split_and!; [lia..|dlia].
  - intros H'. apply IH in H'. split_and!; [lia..|dlia].
Qed.

Lemma used_map_app p b1 b2 : sized (b1 ++ b2) →
  used_map p (b1 ++ b2) = used_map p b1 ∪ used_map (p + total b1) b2.
Proof.
  intros Hs. revert p. induction b1 as [|[u n] b1 IH]; intros p; cbn [used_map app total].
  - by rewrite Z.add_0_r, map_empty_union.
  - inversion_clear Hs as [|?? _ Hs']. rewrite IH by done.
    replace (p + 12 + n + total b1) with (p + (12 + n + total b1)) by lia.
    destruct u; [|done]. by rewrite insert_union_l.
Qed.

(** Different used blocks do not overlap. *)
Lemma used_map_disjoint p bs q1 n1 q2 n2 : sized bs →
  used_map p bs !! q1 = Some n1 → used_map p bs !! q2 = Some n2 → q1 ≠ q2 →
  q1 + n1 + 12 <= q2 ∨ q2 + n2 + 12 <= q1.
Proof.
  intros Hs. revert p. induction Hs as [|[u k] bs [Hk _] Hs IH]; intros p; cbn [used_map snd] in *.
  { by rewrite lookup_empty. }
  destruct u; [|by apply IH]. rewrite !lookup_insert.
  destruct (decide (p + 12 = q1)) as [<-|], (decide (p + 12 = q2)) as [<-|]; intros H1 H2 Hne;
    simplify_eq; [|..|by eapply IH].
  - apply used_map_range in H2; [lia|done].
  - apply used_map_range in H1; [lia|done].
Qed.

Lemma used_map_split p bs q n : sized bs → used_map p bs !! q = Some n →
  ∃ b1 b2, bs = b1 ++ (true, n) :: b2 ∧ q = p + total b1 + 12.
Proof.
  intros Hs. revert p. induction Hs as [|[u k] bs [Hk _] Hs IH]; intros p; cbn [used_map].
  { by rewrite lookup_empty. }
  assert (used_map (p + 12 + k) bs !! q = Some n →
    ∃ b1 b2, (u, k) :: bs = b1 ++ (true, n) :: b2 ∧ q = p + total b1 + 12) as Hrest.
  { intros (b1 & b2 & -> & ->)%IH. exists ((u, k) :: b1), b2. split; [done|]. cbn [total]. lia. }
  destruct u; [|done]. rewrite lookup_insert. destruct (decide (p + 12 = q)) as [<-|]; [|done].
  intros [= <-]. exists [], bs. split; [done|]. cbn [total]. lia.
Qed.

(** The used blocks around a piece of the list. *)
Lemma used_map_mid p b1 mid b2 : sized (b1 ++ mid ++ b2) →
  used_map p (b1 ++ mid ++ b2) =
    used_map (p + total b1) mid ∪ (used_map p b1 ∪ used_map (p + total b1 + total mid) b2).
Proof.
  intros Hs. rewrite used_map_app, used_map_app by (done || apply sized_app in Hs as [_ ?]; done).
  rewrite !map_union_assoc. f_equal. apply map_union_comm, map_disjoint_spec.
  apply sized_app in Hs as [H1 [H2 _]%sized_app].
  intros q x y Hx%used_map_range Hy%used_map_range; [lia|done|done].
Qed.

Lemma used_map_empty bs p : sized bs → apart false bs → used_map p bs = ∅ → bs ≠ [] →
  bs = [(false, total bs - 12)].
Proof.
  intros Hs Ha Hu Hne. destruct bs as [|[u n] bs]; [done|]. cbn in Hu.
  destruct u; [by apply insert_non_empty in Hu|]. destruct Ha as [_ Ha].
  destruct bs as [|[[] k] bs]; [|by cbn in Hu; apply insert_non_empty in Hu|by destruct Ha].
  cbn [total]. do 2 f_equal. lia.
Qed.

(** * Headers in memory *)

Lemma run_frame m m' pr p bs : sized bs → run m pr p bs →
  (∀ q h, p <= q → q + 12 <= p + total bs → m !! q = Some h → m' !! q = Some h) →
  run m' pr p bs.
Proof.
  intros Hs. revert pr p. induction Hs as [|[u n] bs [Hn _] Hs IH]; intros pr p; cbn [run total snd] in *; [done|].
  pose proof (total_pos bs Hs). intros [Hp Hr] Hf. split; [apply Hf; [lia|lia|done]|].
  apply IH; [done|]. intros q h Hq1 Hq2. apply Hf; lia.
Qed.

Lemma run_insert m pr p bs q h : sized bs → q < p ∨ p + total bs <= q →
  run m pr p bs → run (<[q := h]> m) pr p bs.
Proof.
  intros Hs Hq Hr. eapply run_frame; [done..|]. intros q' h' H1 H2 Hh. by rewrite lookup_insert_ne by lia.
Qed.

Lemma clobber_outside lo n m q h : q + 12 <= lo ∨ lo + n <= q → m !! q = Some h → clobber lo n m !! q = Some h.
Proof.
  intros Hq Hh. apply map_lookup_filter_Some. split; [done|]. unfold outside, SIZEOF_STRUCT_MEM.
  apply orb_true_iff. destruct Hq; [left|right]; apply Z.leb_le; cbn; lia.
Qed.

Lemma run_clobber m pr p bs lo n : sized bs → lo + n <= p ∨ p + total bs <= lo →
  run m pr p bs → run (clobber lo n m) pr p bs.
Proof.
  intros Hs Hq Hr. eapply run_frame; [done..|]. intros q h H1 H2. apply clobber_outside. lia.
Qed.

(** The blocks from [p] to the last header, at [e]. *)
Record tail_ok (m : gmap Z heap_mem) (pr p : Z) (bs : list block) (e : Z) : Prop := {
  tail_run : run m pr p bs;
  tail_end : p + total bs = e;
  tail_last : ∃ pr', m !! e = Some (MkMem HEAP_MAGIC 1 e pr') }.

Lemma tail_app m pr p b1 b2 e :
  tail_ok m pr p (b1 ++ b2) e ↔ run m pr p b1 ∧ tail_ok m (before pr p b1) (p + total b1) b2 e.
Proof.
  split.
  - intros [[H1 H2]%run_app He Hl]. split; [done|]. split; [done|rewrite total_app in He; lia|done].
  - intros [H1 [H2 He Hl]]. split; [by apply run_app|rewrite total_app; lia|done].
Qed.

Lemma tail_frame m m' pr p bs e : sized bs → tail_ok m pr p bs e →
  (∀ q h, p <= q → m !! q = Some h → m' !! q = Some h) → tail_ok m' pr p bs e.
Proof.
  intros Hs [Hr He [pr' Hl]] Hf. pose proof (total_pos bs Hs). split; [|done|].
  - eapply run_frame; [done..|]. intros q h Hq _. by apply Hf.
  - exists pr'. apply Hf; [lia|done].
Qed.

(** The first header of it. *)
Lemma tail_head m pr p bs e : tail_ok m pr p bs e →
  ∃ h, m !! p = Some h ∧
    match bs with [] => used h = 1 ∧ p = e | (u, n) :: _ => used h = Z.b2z u ∧ next h = p + 12 + n end.
Proof.
  intros [Hr He [pr' Hl]]. destruct bs as [|[u n] bs].
  - cbn in He. rewrite Z.add_0_r in He. subst e. eexists. split; [done|]. done.
  - destruct Hr as [Hp _]. eexists. split; [done|]. done.
Qed.

(** Its first header gets another predecessor. *)
Lemma tail_reprev m pr p bs e x h : sized bs → tail_ok m pr p bs e → m !! p = Some h →
  tail_ok (<[p := h <| prev := x |>]> m) x p bs e.
Proof.
  intros Hs [Hr He [pr' Hl]] Hp. destruct bs as [|[u n] bs].
  - cbn in He. rewrite Z.add_0_r in He. subst e. split; [done|cbn; lia|].
    exists x. rewrite lookup_insert_eq. by simplify_eq.
  - inversion_clear Hs as [|?? [Hn _] Hs']. destruct Hr as [Hp' Hr]. cbn [snd] in Hn.
    pose proof (total_pos bs Hs'). cbn [total] in He. split; [split| |].
    + rewrite lookup_insert_eq. by simplify_eq.
    + apply run_insert; [done|lia|done].
    + cbn [total]. lia.
    + exists pr'. rewrite lookup_insert_ne by lia. done.
Qed.
