(* ===== verification/HeapSpec.v ===== *)
(** What the operations of the allocator (Heap.v) do to the list of blocks: joining, cutting,
    searching and freeing, each as a rule for a heap in a given state. *)

From stdpp Require Import gmap.
From S2P Require Import Prelude Heap HeapBlocks.

(** * The heap *)

Record wf (h : heap) (bs : list block) : Prop := {
  wf_tail : tail_ok (heads h) 0 0 bs (heap_end h);
  wf_sized : sized bs;
  wf_size : heap_end h = mem_size_aligned h + 12;
  wf_room : 12 <= mem_size_aligned h;
  wf_base : 0 <= heap_ptr h ∧ heap_ptr h mod 4 = 0 ∧ heap_ptr h + heap_end h + 12 <= 4294967296 }.

(** Nothing but headers and [lfree] changes. *)
Definition moves (h h' : heap) : Prop := h' = h <| heads := heads h' |> <| lfree := lfree h' |>.

(** [lfree] is free, or the end of the heap, or below every free block: still so. *)
Record lf_keeps (h : heap) (bs : list block) (h' : heap) (bs' : list block) : Prop := {
  lf_free : free_at 0 bs (lfree h) → free_at 0 bs' (lfree h');
  lf_end : lfree h = heap_end h → lfree h' = heap_end h;
  lf_low : (∀ q, free_at 0 bs q → lfree h <= q) → ∀ q, free_at 0 bs' q → lfree h' <= q }.

Lemma moves_refl h : moves h h. Proof. by destruct h. Qed.
Lemma moves_trans h1 h2 h3 : moves h1 h2 → moves h2 h3 → moves h1 h3.
Proof. unfold moves. intros -> ->. by destruct h1, h3. Qed.
Lemma lf_keeps_refl h bs : lf_keeps h bs h bs. Proof. by split. Qed.

Lemma wp_get_mem p m (Q : heap_mem → heap → Prop) h :
  heads h !! p = Some m → Q m h → wp (get_mem p) Q h.
Proof. intros Hm HQ. unfold wp, get_mem. by rewrite Hm. Qed.

Lemma wp_upd_mem p f m (Q : () → heap → Prop) h :
  heads h !! p = Some m → Q tt (h <| heads := <[p := f m]> (heads h) |>) → wp (upd_mem p f) Q h.
Proof. intros Hm HQ. apply wp_bind. eapply wp_get_mem; [done|]. by apply wp_modify. Qed.

Lemma wp_assert b (Q : () → heap → Prop) h : b = true → Q tt h → wp (rt_assert b) Q h.
Proof. by intros ->. Qed.

(** The links of a well-formed heap around one of its blocks. *)
Lemma wf_split h b1 u n b2 : wf h (b1 ++ (u, n) :: b2) →
  run (heads h) 0 0 b1 ∧
  heads h !! total b1 = Some (MkMem HEAP_MAGIC (Z.b2z u) (total b1 + 12 + n) (before 0 0 b1)) ∧
  tail_ok (heads h) (total b1) (total b1 + 12 + n) b2 (heap_end h) ∧
  0 <= n ∧ n mod 4 = 0 ∧ sized b1 ∧ sized b2 ∧ 0 <= total b1 ∧
  total b1 + 12 + n + total b2 = heap_end h.
Proof.
  intros [Ht Hs _ _ _]. apply tail_app in Ht as [H1 [[Hh Hr] He Hl]]. cbn [Z.add] in *.
  apply sized_app in Hs as [Hs1 Hs2]. inversion_clear Hs2 as [|?? [Hn Hm] Hs2']. cbn [snd total] in *.
  pose proof (total_pos b1 Hs1). split_and!; try done; [|lia|lia]. split; [done|lia|done].
Qed.

(** ... and putting them together again. *)
Lemma wf_join h b1 u n b2 : run (heads h) 0 0 b1 →
  heads h !! total b1 = Some (MkMem HEAP_MAGIC (Z.b2z u) (total b1 + 12 + n) (before 0 0 b1)) →
  tail_ok (heads h) (total b1) (total b1 + 12 + n) b2 (heap_end h) →
  0 <= n → n mod 4 = 0 → sized b1 → sized b2 →
  heap_end h = mem_size_aligned h + 12 → 12 <= mem_size_aligned h →
  0 <= heap_ptr h ∧ heap_ptr h mod 4 = 0 ∧ heap_ptr h + heap_end h + 12 <= 4294967296 →
  wf h (b1 ++ (u, n) :: b2).
Proof.
  intros H1 Hh [Hr He Hl] Hn Hm Hs1 Hs2 Hsz Hroom Hb. split; [|by apply sized_app; split; [|constructor]|done..].
  apply tail_app. split; [done|]. split; [done|cbn [total]; lia|done].
Qed.

(** * Joining free blocks *)

(** Two free blocks become one. *)
Record joined (bs bs' : list block) : Prop := {
  joined_used : used_map 0 bs' = used_map 0 bs;
  joined_occupied : occupied bs' = occupied bs }.

Lemma joined_refl bs : joined bs bs. Proof. done. Qed.

Lemma joined_free b1 n k b2 : sized (b1 ++ (false, n) :: (false, k) :: b2) →
  joined (b1 ++ (false, n) :: (false, k) :: b2) (b1 ++ (false, n + 12 + k) :: b2).
Proof.
  intros Hs. pose proof Hs as [Hs1 Hs2]%sized_app. inversion_clear Hs2 as [|?? [Hn Hm] Hs3].
  inversion_clear Hs3 as [|?? [Hk Hl] Hs4]. cbn [snd] in *. split.
  - rewrite !used_map_app; [|done|].
    + cbn [used_map]. f_equal. f_equal. lia.
    + apply sized_app. split; [done|]. constructor; [|done]. cbn. split; [lia|dlia].
  - rewrite !occupied_app. done.
Qed.

Lemma free_at_join b1 n k b2 q :
  free_at 0 (b1 ++ (false, n) :: (false, k) :: b2) q ↔
  free_at 0 (b1 ++ (false, n + 12 + k) :: b2) q ∨ q = total b1 + 12 + n.
Proof.
  rewrite !free_at_app, !Z.add_0_l. cbn [free_at].
  replace (total b1 + 12 + (n + 12 + k)) with (total b1 + 12 + n + 12 + k) by lia.
  split.
  - intros [?|[?|[[_ ?]|?]]]; auto.
  - intros [[?|[?|?]]|?]; auto 6.
Qed.

(** [lfree] after the joint: the joined block, when it was either of the two. *)
Lemma lf_joined h h' b1 n k b2 : sized (b1 ++ (false, n) :: (false, k) :: b2) →
  total (b1 ++ (false, n) :: (false, k) :: b2) = heap_end h →
  lfree h' = (if lfree h =? total b1 + 12 + n then total b1 else lfree h) →
  lf_keeps h (b1 ++ (false, n) :: (false, k) :: b2) h' (b1 ++ (false, n + 12 + k) :: b2).
Proof.
  intros Hs Ht Hl. pose proof Hs as [Hs1 Hs2]%sized_app. inversion_clear Hs2 as [|?? [Hn _] Hs3].
  inversion_clear Hs3 as [|?? [Hk _] Hs4]. cbn [snd] in *.
  pose proof (total_pos b1 Hs1). pose proof (total_pos b2 Hs4).
  rewrite total_app in Ht. cbn [total] in Ht. split.
  - rewrite Hl, free_at_join. case_if.
    + intros _. apply free_at_app. right. cbn. auto.
    + by intros [?|?].
  - intros He. rewrite Hl. by decide_if (lfree h =? total b1 + 12 + n) false.
  - intros Hlow q Hq. assert (lfree h <= total b1).
    { apply Hlow, free_at_app. right. cbn. auto. }
    rewrite Hl. decide_if (lfree h =? total b1 + 12 + n) false. apply Hlow, free_at_join. by left.
Qed.

(** The headers of two neighbours, linked as one block. *)
Lemma wf_joined h b1 n k b2 m lf : wf h (b1 ++ (false, n) :: (false, k) :: b2) →
  let P := total b1 in let E := P + 12 + n + 12 + k in
  heads h !! E = Some m →
  wf (h <| lfree := lf |> <| heads :=
        <[E := m <| prev := P |>]> (<[P := MkMem HEAP_MAGIC 0 E (before 0 0 b1)]> (heads h)) |>)
     (b1 ++ (false, n + 12 + k) :: b2).
Proof.
  intros Hwf P E Hm. subst P E. destruct (wf_split _ _ _ _ _ Hwf) as (H1 & Hh & Ht & Hn & Hn4 & Hs1 & Hs2 & HP & Htot).
  destruct Hwf as [_ _ Hsz Hroom Hb]. inversion_clear Hs2 as [|?? [Hk Hk4] Hs2']. cbn [snd total] in *.
  pose proof (total_pos b2 Hs2'). destruct Ht as [[_ Hr] He [pr' Hl]]. cbn [total] in He.
  apply wf_join; cbn [field_update heads heap_end mem_size_aligned heap_ptr]; try done; [| | |lia|dlia].
  - apply run_insert; [done|lia|]. by apply run_insert; [done|lia|].
  - rewrite lookup_insert_ne by lia. rewrite lookup_insert_eq. do 2 f_equal. lia.
  - replace (total b1 + 12 + (n + 12 + k)) with (total b1 + 12 + n + 12 + k) by lia. eapply tail_reprev; [done| |].
    + eapply (tail_frame (heads h)); [done| |]. { split; [exact Hr|lia|eauto]. }
      intros q h' Hq Hq'. by rewrite lookup_insert_ne by lia.
    + by rewrite lookup_insert_ne by lia.
Qed.

Lemma wp_forward h b1 n b2 : wf h (b1 ++ (false, n) :: b2) →
  wp (plug_forward (total b1)) (λ _ h', ∃ n' b2', let bs' := b1 ++ (false, n') :: b2' in
    wf h' bs' ∧ moves h h' ∧ lf_keeps h (b1 ++ (false, n) :: b2) h' bs' ∧
    joined (b1 ++ (false, n) :: b2) bs' ∧ (apart false b2 → apart true b2')) h.
Proof.
  intros Hwf. pose proof Hwf as [_ Hs _ _ _].
  destruct (wf_split _ _ _ _ _ Hwf) as (H1 & Hh & Ht & Hn & Hn4 & Hs1 & Hs2 & HP & Htot).
  pose proof (tail_head _ _ _ _ _ Ht) as (m & Hm & Hmk).
  unfold plug_forward. apply wp_bind, wp_gets, wp_bind. eapply wp_get_mem; [exact Hh|].
  cbn [next]. apply wp_bind. eapply wp_get_mem; [exact Hm|].
  rewrite (proj2 (Z.eqb_neq _ _)) by lia. cbn [negb andb].
  destruct b2 as [|[[] k] b2].
  1,2: rewrite (proj1 Hmk); apply wp_ret; eexists n, _;
    split_and!; [exact Hwf|apply moves_refl|apply lf_keeps_refl|apply joined_refl|done].
  destruct Hmk as [Hu Hnx]. rewrite Hu, Hnx. cbn [Z.b2z Z.eqb andb].
  inversion_clear Hs2 as [|?? [Hk Hk4] Hs2']. cbn [snd total] in *. pose proof (total_pos b2 Hs2').
  rewrite (proj2 (Z.eqb_neq _ _)) by lia. cbn [negb].
  destruct Ht as [[_ Hr] He Hl]. cbn [total] in He.
  destruct (tail_head (heads h) (total b1 + 12 + n) (total b1 + 12 + n + 12 + k) b2 (heap_end h)) as (hx & Hx & _);
    [split; [done|lia|done]|].
  pose proof (wf_joined h b1 n k b2 hx (if lfree h =? total b1 + 12 + n then total b1 else lfree h) Hwf Hx) as Hj.
  apply wp_bind, wp_gets, wp_bind.
  apply (wp_mono _ (λ _ h', h' = h <| lfree := if lfree h =? total b1 + 12 + n then total b1 else lfree h |>)).
  { case_if; [by apply wp_modify|]. apply wp_ret. by destruct h. }
  intros _ ? ->. apply wp_bind. eapply wp_upd_mem; [exact Hh|]. eapply wp_upd_mem.
  { cbn. rewrite lookup_insert_ne by lia. exact Hx. }
  exists (n + 12 + k), b2. split; [exact Hj|]. split; [by destruct h|].
  split_and!; [|by apply joined_free|intros [_ Ha]; exact Ha].
  apply lf_joined; [done|apply Hwf|done].
Qed.

Lemma wp_backward h b1 n b2 : wf h (b1 ++ (false, n) :: b2) →
  wp (plug_backward (total b1)) (λ _ h', ∃ bs', wf h' bs' ∧ moves h h' ∧
    lf_keeps h (b1 ++ (false, n) :: b2) h' bs' ∧ joined (b1 ++ (false, n) :: b2) bs' ∧
    (apart false b1 → apart true b2 → apart false bs')) h.
Proof.
  intros Hwf. destruct (wf_split _ _ _ _ _ Hwf) as (H1 & Hh & Ht & Hn & Hn4 & Hs1 & Hs2 & HP & Htot).
  unfold plug_backward. apply wp_bind. eapply wp_get_mem; [exact Hh|]. cbn [prev next].
  destruct b1 as [|[u k] b1 _] using rev_ind.
  { apply wp_bind. cbn [before total]. eapply wp_get_mem; [exact Hh|]. cbn [Z.eqb negb andb].
    apply wp_ret. exists ((false, n) :: b2). split_and!; [exact Hwf|apply moves_refl|apply lf_keeps_refl|apply joined_refl|].
    intros _ Ha. by cbn. }
  rewrite <- app_assoc in Hwf |- *. cbn [app] in *. apply sized_app in Hs1 as [Hs1 Hkk].
  inversion_clear Hkk as [|?? [Hk Hk4] _]. cbn [snd] in *.
  rewrite total_app in *. cbn [total] in *. rewrite before_snoc, Z.add_0_l in *.
  destruct (wf_split _ _ _ _ _ Hwf) as (H1' & Hh' & _).
  pose proof (total_pos b1 Hs1). replace (total b1 + (12 + k + 0)) with (total b1 + 12 + k) in * by lia.
  apply wp_bind. eapply wp_get_mem; [exact Hh'|]. cbn [used].
  rewrite (proj2 (Z.eqb_neq _ _)) by lia. cbn [negb andb]. destruct u; cbn [Z.b2z Z.eqb].
  - apply wp_ret. eexists. split_and!; [exact Hwf|apply moves_refl|apply lf_keeps_refl|apply joined_refl|].
    intros [Ha _]%apart_app Hb. apply apart_app. split; [done|]. cbn. by rewrite andb_false_r.
  - destruct (tail_head _ _ _ _ _ Ht) as (hx & Hx & _).
    pose proof (wf_joined h b1 k n b2 hx (if lfree h =? total b1 + 12 + k then total b1 else lfree h) Hwf Hx) as Hj.
    apply wp_bind, wp_gets, wp_bind.
    apply (wp_mono _ (λ _ h', h' = h <| lfree := if lfree h =? total b1 + 12 + k then total b1 else lfree h |>)).
    { case_if; [by apply wp_modify|]. apply wp_ret. by destruct h. }
    intros _ ? ->. apply wp_bind. eapply wp_upd_mem; [exact Hh'|]. eapply wp_upd_mem.
    { cbn. rewrite lookup_insert_ne by lia. exact Hx. }
    eexists. split; [exact Hj|]. split; [by destruct h|]. pose proof (wf_sized _ _ Hwf) as Hs.
    split_and!; [|by apply joined_free|].
    + apply lf_joined; [done| |done]. destruct Hwf as [[_ He _] _ _ _ _]. exact He.
    + intros [Ha [Hb _]]%apart_app Hc. apply apart_app. split; [done|]. cbn in *.
      split; [|done]. by rewrite andb_true_r in *.
Qed.

Lemma lf_keeps_trans h1 bs1 h2 bs2 h3 bs3 : moves h1 h2 →
  lf_keeps h1 bs1 h2 bs2 → lf_keeps h2 bs2 h3 bs3 → lf_keeps h1 bs1 h3 bs3.
Proof.
  intros Hm [A1 B1 C1] [A2 B2 C2]. assert (heap_end h2 = heap_end h1) as He by by rewrite Hm.
  rewrite He in B2. split; auto.
Qed.

Lemma joined_trans bs1 bs2 bs3 : joined bs1 bs2 → joined bs2 bs3 → joined bs1 bs3.
Proof. intros [A1 B1] [A2 B2]. split; congruence. Qed.

Lemma wp_plug h b1 n b2 : wf h (b1 ++ (false, n) :: b2) → apart false b1 → apart false b2 →
  wp (plug_holes (total b1)) (λ _ h', ∃ bs', wf h' bs' ∧ moves h h' ∧
    lf_keeps h (b1 ++ (false, n) :: b2) h' bs' ∧ joined (b1 ++ (false, n) :: b2) bs' ∧
    apart false bs') h.
Proof.
  intros Hwf Ha1 Ha2. destruct (wf_split _ _ _ _ _ Hwf) as (_ & Hh & _ & Hn & _ & _ & Hs2 & HP & Htot).
  pose proof (total_pos b2 Hs2). unfold plug_holes. apply wp_bind, wp_gets.
  apply wp_bind, wp_assert; [apply Z.leb_le; lia|]. apply wp_bind, wp_assert; [apply Z.ltb_lt; lia|].
  apply wp_bind. eapply wp_get_mem; [exact Hh|]. apply wp_bind, wp_assert; [done|].
  apply wp_bind. eapply wp_mono; [by apply wp_forward|].
  intros _ h1 (n1 & b2' & Hwf1 & Hm1 & Hl1 & Hj1 & Hb2).
  eapply wp_mono; [by apply wp_backward|]. intros _ h2 (bs' & Hwf2 & Hm2 & Hl2 & Hj2 & Hb1).
  exists bs'. split_and!; [done|by eapply moves_trans|by eapply lf_keeps_trans|by eapply joined_trans|auto].
Qed.

(** * Cutting a block *)

(** A block keeps its first [s] bytes, the rest becomes a free block. *)
Lemma wp_split h b1 u n s b2 : wf h (b1 ++ (u, n) :: b2) → 0 <= s → s mod 4 = 0 → s + 12 <= n →
  let P := total b1 in
  wp (split P (P + SIZEOF_STRUCT_MEM + s)) (λ _ h', wf h' (b1 ++ (u, s) :: (false, n - 12 - s) :: b2) ∧
    h' = h <| heads := heads h' |> <| data := data h' |> ∧
    ∀ a, data h' a = if within (P + 12 + s) 12 a then None else data h a) h.
Proof.
  intros Hwf Hs Hs4 Hsn P. subst P. unfold SIZEOF_STRUCT_MEM.
  destruct (wf_split _ _ _ _ _ Hwf) as (H1 & Hh & Ht & Hn & Hn4 & Hs1 & Hs2 & HP & Htot).
  destruct (tail_head _ _ _ _ _ Ht) as (hx & Hx & _). pose proof (total_pos b2 Hs2).
  destruct Hwf as [_ _ Hsz Hroom Hb].
  set (P := total b1) in *. set (Q := P + 12 + s). set (E := P + 12 + n) in *.
  set (m1 := <[Q := MkMem HEAP_MAGIC 0 E P]> (clobber Q 12 (heads h))).
  set (m2 := <[P := MkMem HEAP_MAGIC (Z.b2z u) Q (before 0 0 b1)]> m1).
  assert (∀ q x, E <= q → heads h !! q = Some x → m2 !! q = Some x) as Hfar.
  { intros q x Hq Hqx. unfold m2, m1, Q, P, E in *. rewrite !lookup_insert_ne by lia.
    apply clobber_outside; [lia|done]. }
  assert (∀ m3, (∀ q x, E <= q → m2 !! q = Some x → q ≠ E → m3 !! q = Some x) →
    (∀ q, q < E → m3 !! q = m2 !! q) → tail_ok m3 Q E b2 (heap_end h) →
    wf (h <| heads := m3 |> <| data := λ a, if within Q 12 a then None else data h a |>)
       (b1 ++ (u, s) :: (false, n - 12 - s) :: b2)) as Hwf'.
  { intros m3 _ Hlow Ht3. apply wf_join; cbn [field_update heads heap_end mem_size_aligned heap_ptr]; try done.
    - eapply run_frame; [done|exact H1|]. intros q x Hq1 Hq2 Hqx. unfold m2, m1, P, Q, E in *.
      rewrite Hlow by lia. rewrite !lookup_insert_ne by lia. apply clobber_outside; [lia|done].
    - fold P. rewrite Hlow by (unfold E; lia). unfold m2. by rewrite lookup_insert_eq.
    - fold P. destruct Ht3 as [Hr3 He3 Hl3]. split; [split| |done].
      + fold Q. rewrite Hlow by (unfold Q, E; lia). unfold m2. rewrite lookup_insert_ne by (unfold Q; lia).
        unfold m1. rewrite lookup_insert_eq. cbn. do 2 f_equal. unfold E, Q. lia.
      + fold Q. replace (Q + 12 + (n - 12 - s)) with E by (unfold Q, E; lia). done.
      + cbn [total]. unfold E in *. lia.
    - apply Forall_cons. split; [cbn; split; [lia|dlia]|done]. }
  assert (tail_ok m2 P E b2 (heap_end h)) as Ht2 by (by eapply tail_frame).
  unfold split. apply wp_bind. eapply wp_get_mem; [exact Hh|]. cbn [next]. fold E Q.
  apply wp_bind, wp_modify, wp_bind. fold P.
  assert (m1 !! P = Some (MkMem HEAP_MAGIC (Z.b2z u) E (before 0 0 b1))) as Hm1.
  { unfold m1. rewrite lookup_insert_ne by (unfold Q; lia).
    apply clobber_outside; [unfold Q; lia|exact Hh]. }
  eapply wp_upd_mem; [exact Hm1|].
  apply wp_bind, wp_gets. cbn [field_update mem_size_aligned]. unfold SIZEOF_STRUCT_MEM. rewrite <- Hsz.
  destruct (Z.eqb_spec E (heap_end h)) as [HE|HE]; cbn [negb].
  - apply wp_ret. split; [|by split; [destruct h|]]. apply (Hwf' m2); [done|done|].
    (* the last header keeps its predecessor, which nobody reads *)
    destruct b2 as [|[v k] b2]; [|apply Forall_cons in Hs2 as [[? _] ?]; cbn in *; unfold E in *;
      pose proof (total_pos b2 ltac:(done)); lia].
    destruct Ht2 as [_ He Hl]. by split.
  - eapply wp_upd_mem. { cbn. by apply Hfar. }
    split; [|by split; [destruct h|]].
    apply (Hwf' (<[E := hx <| prev := Q |>]> m2)).
    + intros q x _ Hq Hne. by rewrite lookup_insert_ne.
    + intros q Hq. rewrite lookup_insert_ne by lia. done.
    + eapply tail_reprev; [done|exact Ht2|]. by apply Hfar.
Qed.

(** The used flag of a block. *)
Lemma wf_flag h b1 u n b2 v : wf h (b1 ++ (u, n) :: b2) →
  wf (h <| heads := <[total b1 := MkMem HEAP_MAGIC (Z.b2z v) (total b1 + 12 + n) (before 0 0 b1)]> (heads h) |>)
     (b1 ++ (v, n) :: b2).
Proof.
  intros Hwf. destruct (wf_split _ _ _ _ _ Hwf) as (H1 & Hh & Ht & Hn & Hn4 & Hs1 & Hs2 & HP & Htot).
  destruct Hwf as [_ _ Hsz Hroom Hb].
  apply wf_join; cbn [field_update heads heap_end mem_size_aligned heap_ptr]; try done.
  - by apply run_insert; [done|lia|].
  - by rewrite lookup_insert_eq.
  - eapply tail_frame; [done|exact Ht|]. intros q x Hq Hx. by rewrite lookup_insert_ne by lia.
Qed.

(** * Allocation *)

Lemma wp_find_fit h : ∀ fuel b1 b2 size, wf h (b1 ++ b2) → (length b2 <= fuel)%nat →
  12 <= size <= mem_size_aligned h →
  wp (find_fit fuel (total b1) size) (λ r h', h' = h ∧
    match r with
    | None => ∀ c1 n c2, b2 = c1 ++ (false, n) :: c2 → size <= n → c2 = [] ∧ n = size
    | Some q => ∃ c1 n c2, b2 = c1 ++ (false, n) :: c2 ∧ q = total (b1 ++ c1) ∧ size <= n
    end) h.
Proof.
  intros fuel. induction fuel as [|fuel IH]; intros b1 b2 size Hwf Hlen Hsz; cbn [find_fit];
    pose proof Hwf as [[_ Htot _] Hs Hend _ (Hb1 & _ & Hb2)]; rewrite total_app, Z.add_0_l in Htot;
    pose proof Hs as [Hs1 Hs2]%sized_app; pose proof (total_pos b1 Hs1); pose proof (total_pos b2 Hs2);
    apply wp_bind, wp_gets; rewrite u32_small by lia.
  1,2: destruct (total b1 <? mem_size_aligned h - size) eqn:E; bool_prop.
  - destruct b2; [cbn in *; lia|cbn in Hlen; lia].
  - apply wp_ret. split; [done|]. intros c1 n c2 -> Hn. rewrite total_app in *. cbn [total] in *.
    apply sized_app in Hs2 as [Hc1 Hc2]. inversion_clear Hc2 as [|?? _ Hc2'].
    pose proof (total_pos c1 Hc1). pose proof (total_pos c2 Hc2').
    destruct c2; [split; [done|]|]; cbn [length] in *; cbn in *; lia.
  - destruct b2 as [|[u n] b2]; [cbn in *; lia|].
    destruct (wf_split _ _ _ _ _ Hwf) as (_ & Hh & _ & Hn & _ & _ & Hs2' & _ & _).
    apply wp_bind. eapply wp_get_mem; [exact Hh|]. cbn [used next].
    rewrite u32_small by (unfold SIZEOF_STRUCT_MEM; cbn [total] in *; pose proof (total_pos b2 Hs2'); lia).
    replace (total b1 + 12 + n - (total b1 + SIZEOF_STRUCT_MEM)) with n by (unfold SIZEOF_STRUCT_MEM; lia).
    assert (wp (find_fit fuel (total b1 + 12 + n) size) (λ r h', h' = h ∧
      match r with
      | None => ∀ c1 k c2, b2 = c1 ++ (false, k) :: c2 → size <= k → c2 = [] ∧ k = size
      | Some q => ∃ c1 k c2, b2 = c1 ++ (false, k) :: c2 ∧ q = total ((b1 ++ [(u, n)]) ++ c1) ∧ size <= k
      end) h) as Hrec.
    { replace (total b1 + 12 + n) with (total (b1 ++ [(u, n)])) by (rewrite total_app; cbn; lia).
      apply IH; [by rewrite <- app_assoc|cbn in Hlen; lia|done]. }
    case_if.
    + destruct u; [done|]. apply wp_ret. split; [done|]. exists [], n, b2. rewrite app_nil_r. split_and!; [done..|lia].
    + eapply wp_mono; [exact Hrec|]. intros [q|] h' [-> Hr]; (split; [done|]).
      * destruct Hr as (c1 & k & c2 & -> & -> & Hk). exists ((u, n) :: c1), k, c2. by rewrite <- app_assoc.
      * intros c1 k c2 Hc Hk. destruct c1 as [|[v j] c1]; [|injection Hc as _ _ ->; by eapply Hr].
        exfalso. injection Hc as -> -> ->. cbn in E0. lia.
  - apply wp_ret. split; [done|]. intros c1 n c2 -> Hn. rewrite total_app in *. cbn [total] in *.
    apply sized_app in Hs2 as [Hc1 Hc2]. inversion_clear Hc2 as [|?? _ Hc2'].
    pose proof (total_pos c1 Hc1). pose proof (total_pos c2 Hc2').
    destruct c2; [split; [done|]|]; cbn [length] in *; cbn in *; lia.
Qed.

(** What allocation leaves of the free block it takes [s] bytes of. *)
Definition cut (s n : Z) : list block := if s + 24 <=? n then [(true, s); (false, n - 12 - s)] else [(true, n)].

Lemma cut_total s n : total (cut s n) = 12 + n.
Proof. unfold cut. destruct (_ <=? _); cbn; lia. Qed.

Lemma cut_used p s n rest :
  used_map p (cut s n ++ rest) = <[p + 12 := if s + 24 <=? n then s else n]> (used_map (p + 12 + n) rest).
Proof. unfold cut. destruct (_ <=? _); cbn; [|done]. do 2 f_equal. lia. Qed.

Lemma wp_take_block h b1 n s b2 : wf h (b1 ++ (false, n) :: b2) → 12 <= s <= n → s mod 4 = 0 →
  used_mem h = occupied (b1 ++ (false, n) :: b2) →
  wp (take_block (total b1) s) (λ _ h', wf h' (b1 ++ cut s n ++ b2) ∧
    used_mem h' = occupied (b1 ++ cut s n ++ b2) ∧
    heap_ptr h' = heap_ptr h ∧ heap_end h' = heap_end h ∧ mem_size_aligned h' = mem_size_aligned h ∧
    heap_sem h' = heap_sem h ∧ lfree h' = lfree h ∧
    ∀ a, a < total b1 + 12 ∨ total b1 + 12 + n <= a → data h' a = data h a) h.
Proof.
  intros Hwf Hs Hs4 Hu. destruct (wf_split _ _ _ _ _ Hwf) as (_ & Hh & _ & Hn & _ & Hs1 & Hs2 & HP & Htot).
  pose proof (total_pos b2 Hs2). pose proof Hwf as [_ _ Hsz _ (Hb1 & _ & Hb2)].
  pose proof (occupied_bounds b1 Hs1). pose proof (occupied_bounds b2 Hs2).
  rewrite occupied_app in Hu. cbn [occupied] in Hu.
  unfold take_block. apply wp_bind. eapply wp_get_mem; [exact Hh|]. cbn [next].
  change MIN_SIZE_ALIGNED with 12. unfold SIZEOF_STRUCT_MEM. rewrite u32_small by lia.
  replace (total b1 + 12 + n - (total b1 + 12)) with n by lia. replace (s + 12 + 12) with (s + 24) by lia.
  unfold cut. destruct (s + 24 <=? n) eqn:E; bool_prop.
  - apply wp_bind. eapply wp_mono; [apply (wp_split h b1 false n s b2); [done|lia|done|lia]|].
    intros _ h1 (Hwf1 & Hh1 & Hd1). destruct (wf_split _ _ _ _ _ Hwf1) as (_ & Hh1' & _).
    apply wp_bind. eapply wp_upd_mem; [exact Hh1'|]. apply wp_modify.
    pose proof (wf_flag _ _ _ _ _ true Hwf1) as [Hf1 Hf2 Hf3 Hf4 Hf5].
    assert (used_mem h1 = used_mem h ∧ heap_ptr h1 = heap_ptr h ∧ heap_end h1 = heap_end h ∧
      mem_size_aligned h1 = mem_size_aligned h ∧ heap_sem h1 = heap_sem h ∧ lfree h1 = lfree h)
      as (E1 & E2 & E3 & E4 & E5 & E6) by by rewrite Hh1.
    split; [by split|]. cbn. rewrite E1, E2, E3, E4, E5, E6, occupied_app, Hu. cbn. split_and!; try done.
    + rewrite u32_small by lia. lia.
    + intros a Ha. rewrite Hd1. unfold within. destruct (_ && _) eqn:Ew; [|done]. bool_prop. lia.
  - apply wp_bind. eapply wp_upd_mem; [exact Hh|]. apply wp_modify.
    pose proof (wf_flag _ _ _ _ _ true Hwf) as [Hf1 Hf2 Hf3 Hf4 Hf5].
    split; [by split|]. cbn. rewrite occupied_app, Hu. cbn. split_and!; try done.
    rewrite u32_small by lia. lia.
Qed.

Lemma wp_next_free h : ∀ fuel b1 b2, wf h (b1 ++ b2) → (length b2 <= fuel)%nat → lfree h = total b1 →
  wp (next_free fuel) (λ _ h', h' = h <| lfree := lfree h' |> ∧
    (lfree h' = heap_end h ∨ free_at 0 (b1 ++ b2) (lfree h')) ∧
    (∀ q, free_at (total b1) b2 q → lfree h' <= q) ∧
    ∃ m, heads h !! lfree h' = Some m ∧ (lfree h' = heap_end h ∨ used m = 0)) h.
Proof.
  intros fuel. revert h. induction fuel as [|fuel IH]; intros h b1 b2 Hwf Hlen Hlf; cbn [next_free];
    apply wp_bind, wp_gets, wp_bind, wp_gets; rewrite Hlf;
    pose proof Hwf as [Ht Hs _ _ _]; pose proof Hs as [Hs1 Hs2]%sized_app;
    apply tail_app in Ht as [_ Ht]; rewrite Z.add_0_l in Ht;
    destruct (tail_head _ _ _ _ _ Ht) as (m & Hm & Hmk); apply wp_bind; (eapply wp_get_mem; [exact Hm|]).
  - destruct b2; [|cbn in Hlen; lia]. destruct Hmk as [Hu He]. rewrite Hu, He, Z.eqb_refl, andb_false_r.
    apply wp_ret. split; [by destruct h|]. split; [left; by rewrite Hlf|]. split; [done|].
    exists m. rewrite Hlf. split; [done|by left].
  - destruct b2 as [|[u n] b2].
    { destruct Hmk as [Hu He]. rewrite Hu, He, Z.eqb_refl, andb_false_r.
      apply wp_ret. split; [by destruct h|]. split; [left; by rewrite Hlf|]. split; [done|].
      exists m. rewrite Hlf. split; [done|by left]. }
    destruct Hmk as [Hu He]. inversion_clear Hs2 as [|?? [Hn _] Hs2']. cbn [snd] in Hn.
    pose proof (total_pos b2 Hs2'). destruct Ht as [_ Hte _]. cbn [total] in Hte.
    rewrite Hu, (proj2 (Z.eqb_neq (total b1) (heap_end h))) by lia. destruct u; cbn [Z.b2z Z.eqb negb andb].
    + apply wp_bind, wp_modify. rewrite He.
      eapply wp_mono; [eapply (IH _ (b1 ++ [(true, n)]) b2)|].
      * rewrite <- app_assoc. destruct Hwf as [A1 A2 A3 A4 A5]. by split.
      * cbn in Hlen. lia.
      * cbn. rewrite total_app. cbn. lia.
      * intros _ h' (Hh' & Hor & Hlow & x & Hx & Hxu). cbn in *. rewrite <- app_assoc in Hor.
        split; [rewrite Hh'; by destruct h|]. split; [done|]. split; [|by exists x].
        intros q [[? _]|Hq]; [done|]. apply Hlow. rewrite total_app. cbn.
        by replace (total b1 + (12 + n + 0)) with (total b1 + 12 + n) by lia.
    + apply wp_ret. rewrite Hlf. split; [rewrite <- Hlf; by destruct h|]. split.
      { right. apply free_at_app. right. rewrite Z.add_0_l. cbn. auto. }
      split; [|exists m; split; [done|right; by rewrite Hu]].
      intros q Hq. apply free_at_range in Hq; [lia|]. constructor; [|done]. cbn.
      pose proof Hs as [_ Hs2]%sized_app. by inversion_clear Hs2.
Qed.

(** * The abstract state *)

Record state_of (low : bool) (h : heap) (U : gmap Z Z) (bs : list block) : Prop := {
  st_wf : wf h bs;
  st_apart : apart false bs;
  st_used : U = used_map 0 bs;
  st_positive : ∀ p n, U !! p = Some n → 0 < n;
  st_stats : used_mem h = occupied bs;
  st_sem : heap_sem h = 1;
  st_lfree : lfree h = heap_end h ∨ free_at 0 bs (lfree h);
  st_empty : U = ∅ → lfree h ≠ heap_end h;
  st_low : low = true → ∀ q, free_at 0 bs q → lfree h <= q }.

(** The heap holds the blocks [U]; [low]: and [lfree] is below every free block. *)
Definition heap_ok (low : bool) (h : heap) (U : gmap Z Z) : Prop := ∃ bs, state_of low h U bs.

(** Base, size and statistics of the region do not move, the bytes of the blocks [U] stay. *)
Record keeps (h h' : heap) (U : gmap Z Z) : Prop := {
  keeps_base : heap_ptr h' = heap_ptr h;
  keeps_end : heap_end h' = heap_end h;
  keeps_size : mem_size_aligned h' = mem_size_aligned h;
  keeps_data : ∀ p n a, U !! p = Some n → p <= a < p + n → data h' a = data h a }.

Lemma keeps_refl h U : keeps h h U. Proof. done. Qed.
Lemma keeps_trans h1 h2 h3 U1 U2 : U1 ⊆ U2 → keeps h1 h2 U1 → keeps h2 h3 U2 → keeps h1 h3 U1.
Proof.
  intros HU [A1 B1 C1 D1] [A2 B2 C2 D2]. split; [congruence..|]. intros p n a Hp Ha.
  rewrite (D2 p n a); [by eapply D1|by eapply lookup_weaken|done].
Qed.

Lemma state_disjoint low h U bs p n q m : state_of low h U bs → U !! p = Some n → U !! q = Some m → p ≠ q →
  p + n + 12 <= q ∨ q + m + 12 <= p.
Proof. intros [Hwf _ -> _ _ _ _ _ _] Hp Hq. eapply used_map_disjoint; [apply Hwf|done..]. Qed.

Lemma ldiff_3 x : Z.land x (Z.lnot 3) = x / 4 * 4.
Proof.
  rewrite <- Z.ldiff_land. change 3 with (Z.ones 2). rewrite Z.ldiff_ones_r by lia.
  rewrite Z.shiftl_mul_pow2, Z.shiftr_div_pow2 by lia. done.
Qed.

Lemma align_spec n : 0 <= n <= 4294967292 →
  RT_ALIGN n mod 4 = 0 ∧ n <= RT_ALIGN n < n + 4.
Proof.
  intros Hn. unfold RT_ALIGN, RT_ALIGN_SIZE. rewrite u32_small by lia.
  change (4 - 1) with 3. rewrite ldiff_3. split; dlia.
Qed.

Lemma land_3 x : Z.land x (RT_ALIGN_SIZE - 1) = x mod 4.
Proof. change (RT_ALIGN_SIZE - 1) with (Z.ones 2). rewrite Z.land_ones by lia. done. Qed.

Lemma free_at_split p bs q : free_at p bs q → ∃ b1 n b2, bs = b1 ++ (false, n) :: b2 ∧ q = p + total b1.
Proof.
  revert p. induction bs as [|[u n] bs IH]; intros p; cbn [free_at]; [done|].
  intros [[-> ->]|(b1 & k & b2 & -> & ->)%IH].
  - exists [], n, bs. split; [done|]. cbn. lia.
  - exists ((u, n) :: b1), k, b2. split; [done|]. cbn [total]. lia.
Qed.

(** The list from [lfree] on. *)
Lemma lfree_split low h U bs : state_of low h U bs → ∃ b1 b2, bs = b1 ++ b2 ∧ lfree h = total b1.
Proof.
  intros Hst. destruct (st_lfree _ _ _ _ Hst) as [He|(b1 & n & b2 & -> & Hq)%free_at_split].
  - exists bs, []. rewrite app_nil_r. split; [done|]. rewrite He.
    destruct (st_wf _ _ _ _ Hst) as [[_ Ht _] _ _ _ _]. lia.
  - exists b1, ((false, n) :: b2). split; [done|lia].
Qed.

(** Bytes outside a free block are not those of it. *)
Lemma used_outside_free b1 n b2 p k a : sized (b1 ++ (false, n) :: b2) →
  used_map 0 (b1 ++ (false, n) :: b2) !! p = Some k → p <= a < p + k →
  a < total b1 + 12 ∨ total b1 + 12 + n <= a.
Proof.
  intros Hs. rewrite used_map_app by done. apply sized_app in Hs as [Hs1 Hs2].
  inversion_clear Hs2 as [|?? _ Hs2']. cbn [used_map]. rewrite Z.add_0_l.
  intros [Hp|[_ Hp]]%lookup_union_Some_raw Ha; apply used_map_range in Hp; try done; lia.
Qed.

(** A free block, cut and taken: the abstract step. *)
Lemma used_map_take b1 n s b2 : sized (b1 ++ (false, n) :: b2) → sized (b1 ++ cut s n ++ b2) →
  used_map 0 (b1 ++ (false, n) :: b2) !! (total b1 + 12) = None ∧
  used_map 0 (b1 ++ cut s n ++ b2) =
    <[total b1 + 12 := if s + 24 <=? n then s else n]> (used_map 0 (b1 ++ (false, n) :: b2)).
Proof.
  intros Hs Hs'. rewrite !used_map_app by done. rewrite cut_used, Z.add_0_l. cbn [used_map].
  apply sized_app in Hs as [Hs1 Hs2]. inversion_clear Hs2 as [|?? [Hn _] Hs2']. cbn [snd] in Hn.
  assert (used_map 0 b1 !! (total b1 + 12) = None) as H1.
  { apply eq_None_not_Some. intros [k (?&?&?&?)%used_map_range]; [lia|done]. }
  assert (used_map (total b1 + 12 + n) b2 !! (total b1 + 12) = None) as H2.
  { apply eq_None_not_Some. intros [k (?&?&?&?)%used_map_range]; [lia|done]. }
  split; [by apply lookup_union_None|]. by rewrite insert_union_r.
Qed.

Lemma apart_cut b1 s n b2 : apart false (b1 ++ (false, n) :: b2) → apart false (b1 ++ cut s n ++ b2).
Proof.
  intros [H1 [H2 H3]]%apart_app. apply apart_app. split; [done|]. unfold cut.
  destruct (_ <=? _); cbn in *; rewrite ?andb_false_r; [done|]. split; [done|by apply apart_weaken].
Qed.

Lemma free_at_cut b1 s n b2 q : 
  free_at 0 (b1 ++ cut s n ++ b2) q → free_at 0 (b1 ++ (false, n) :: b2) q ∨ q = total b1 + 12 + s.
Proof.
  rewrite !free_at_app, Z.add_0_l. cbn [free_at]. unfold cut. destruct (_ <=? _); cbn [free_at total].
  - replace (total b1 + (12 + s + (12 + (n - 12 - s) + 0))) with (total b1 + 12 + n) by lia.
    intros [?|[[[? _]|[[_ ?]|[]]]|?]]; auto; done.
  - replace (total b1 + (12 + n + 0)) with (total b1 + 12 + n) by lia.
    intros [?|[[[? _]|[]]|?]]; auto; done.
Qed.

Lemma free_at_uncut b1 s n b2 q : free_at 0 (b1 ++ (false, n) :: b2) q → q ≠ total b1 →
  free_at 0 (b1 ++ cut s n ++ b2) q.
Proof.
  rewrite !free_at_app, cut_total, Z.add_0_l. cbn [free_at].
  replace (total b1 + (12 + n)) with (total b1 + 12 + n) by lia.
  intros [?|[[_ ?]|?]] Hq; auto; done.
Qed.

Lemma position_after l1 l2 b1 x b2 : sized (l1 ++ l2) → l1 ++ l2 = b1 ++ x :: b2 →
  total l1 <= total b1 → ∃ c1, b1 = l1 ++ c1 ∧ l2 = c1 ++ x :: b2.
Proof.
  intros Hs E Ht. apply app_eq_app in E as (k & [[-> E]|[-> E]]); [|by exists k].
  destruct k as [|[u n] k].
  - exists []. rewrite !app_nil_r. by split.
  - apply sized_app in Hs as [[_ Hs]%sized_app _]. inversion_clear Hs as [|?? [Hn _] Hk].
    pose proof (total_pos k Hk). rewrite total_app in Ht. cbn in *. lia.
Qed.

(** What a failing request says of the free blocks: only the last one can hold it, exactly. *)
Definition no_room (bs : list block) (size : Z) : Prop :=
  ∀ b1 n b2, bs = b1 ++ (false, n) :: b2 → Z.max 12 (RT_ALIGN size) <= n →
    b2 = [] ∧ n = Z.max 12 (RT_ALIGN size).

Lemma total_block h b1 u n b2 : wf h (b1 ++ (u, n) :: b2) → n <= mem_size_aligned h.
Proof.
  intros Hwf. destruct (wf_split _ _ _ _ _ Hwf) as (_ & _ & _ & _ & _ & _ & Hs2 & HP & Ht).
  pose proof (total_pos b2 Hs2). rewrite (wf_size _ _ Hwf) in Ht. lia.
Qed.

Lemma max_align size : 0 <= size <= 4294967292 →
  (if RT_ALIGN size <? MIN_SIZE_ALIGNED then MIN_SIZE_ALIGNED else RT_ALIGN size) = Z.max 12 (RT_ALIGN size) ∧
  Z.max 12 (RT_ALIGN size) mod 4 = 0 ∧ 12 <= Z.max 12 (RT_ALIGN size) ∧ size <= Z.max 12 (RT_ALIGN size).
Proof.
  intros Hs. destruct (align_spec size Hs) as [H4 Hb]. change MIN_SIZE_ALIGNED with 12.
  split_and!; [case_if; lia| |lia..]. destruct (Z.max_spec 12 (RT_ALIGN size)) as [[_ ->]|[_ ->]]; done.
Qed.

(** The state after the block at [total (b1 ++ c1)] is taken, before [lfree] moves on. *)
Lemma state_taken low h U b1 n s b2 h' : state_of low h U (b1 ++ (false, n) :: b2) →
  12 <= s <= n → wf h' (b1 ++ cut s n ++ b2) → used_mem h' = occupied (b1 ++ cut s n ++ b2) →
  heap_sem h' = 1 → heap_end h' = heap_end h →
  (lfree h' = heap_end h ∨ free_at 0 (b1 ++ cut s n ++ b2) (lfree h')) →
  (low = true → ∀ q, free_at 0 (b1 ++ cut s n ++ b2) q → lfree h' <= q) →
  let p := total b1 + 12 in
  U !! p = None ∧ state_of low h' (<[p := if s + 24 <=? n then s else n]> U) (b1 ++ cut s n ++ b2).
Proof.
  intros Hst Hs Hwf Hu Hsem He Hlf Hlow p. destruct Hst as [Hwf0 Ha0 -> Hpos _ _ _ _ _].
  destruct (used_map_take b1 n s b2) as [H1 H2]; [apply Hwf0|apply Hwf|]. split; [exact H1|].
  split; [exact Hwf|by apply apart_cut|by rewrite H2| |exact Hu|exact Hsem|by rewrite He| |exact Hlow].
  - intros q k. rewrite lookup_insert. case_decide; [|by apply Hpos]. intros [= <-].
    case_if; lia.
  - intros E. by apply insert_non_empty in E.
Qed.

Lemma cut_head s n : ∃ rest, cut s n = (true, if s + 24 <=? n then s else n) :: rest.
Proof. unfold cut. destruct (_ <=? _); eauto. Qed.

Lemma wp_settle low h0 h U l1 c1 n s c2 fuel : let b1 := l1 ++ c1 in
  state_of low h0 U (b1 ++ (false, n) :: c2) → lfree h0 = total l1 → 12 <= s →
  wf h (b1 ++ cut s n ++ c2) → lfree h = lfree h0 → heap_end h = heap_end h0 →
  (length (cut s n ++ c2) <= fuel)%nat →
  wp (settle fuel (total b1) (total l1)) (λ _ h', wf h' (b1 ++ cut s n ++ c2) ∧ moves h h' ∧
    (lfree h' = heap_end h0 ∨ free_at 0 (b1 ++ cut s n ++ c2) (lfree h')) ∧
    (low = true → ∀ q, free_at 0 (b1 ++ cut s n ++ c2) q → lfree h' <= q)) h.
Proof.
  intros b1 Hst Hlf Hs Hwf Hl He Hfuel. destruct Hst as [Hwf0 _ _ _ _ _ Hor _ Hlow].
  destruct (cut_head s n) as [rest Hcut]. rewrite Hcut in *. cbn [app] in *.
  destruct (wf_split _ _ _ _ _ Hwf) as (_ & Hh & _). pose proof (wf_flag _ _ _ _ _ true Hwf) as Hwf1.
  unfold settle. apply wp_bind. eapply wp_upd_mem; [exact Hh|].
  set (h1 := h <| heads := _ |>) in *.
  change (wf h1 (b1 ++ (true, if s + 24 <=? n then s else n) :: rest ++ c2)) in Hwf1.
  assert (∀ q, low = true → free_at 0 (b1 ++ (false, n) :: c2) q → total l1 <= q) as Hlow'.
  { intros q Ht Hq. rewrite <- Hlf. by apply Hlow. }
  assert (free_at 0 (b1 ++ (false, n) :: c2) (total b1)) as Hb1.
  { apply free_at_app. right. rewrite Z.add_0_l. cbn. auto. }
  destruct (Z.eqb_spec (total b1) (total l1)) as [Heq|Hne].
  - apply wp_bind. eapply wp_mono; [apply (wp_next_free h1 fuel b1 _ Hwf1 Hfuel)|].
    { change (lfree h1) with (lfree h). congruence. }
    intros _ h2 (Hh2 & Hor2 & Hlow2 & m & Hm & Hmu).
    assert (heads h2 = heads h1) as Ehd by by rewrite Hh2.
    assert (heap_end h2 = heap_end h) as Ee by by rewrite Hh2.
    apply wp_bind, wp_gets, wp_bind, wp_gets, wp_bind. eapply wp_get_mem; [by rewrite Ehd|].
    apply wp_assert.
    { apply orb_true_iff. rewrite Ee. change (heap_end h1) with (heap_end h) in Hmu.
      destruct Hmu as [->| ->]; [left|right]; by rewrite ?Z.eqb_refl. }
    split; [|split; [by rewrite Hh2; destruct h|split]].
    + rewrite Hh2. destruct Hwf1 as [A1 A2 A3 A4 A5]. by split.
    + by rewrite <- He.
    + intros Ht q [Hq|Hq]%free_at_app; [|by apply Hlow2; rewrite Z.add_0_l in Hq].
      exfalso. pose proof (free_at_range 0 b1 q) as Hrg. destruct Hrg as [_ Hr]; [|done|].
      { exact (proj1 (proj1 (sized_app _ _) (wf_sized _ _ Hwf0))). }
      assert (total l1 <= q) by (apply Hlow', free_at_app; auto). lia.
  - apply wp_ret. change (lfree h1) with (lfree h). rewrite Hl.
    split; [exact Hwf1|]. split; [by destruct h|]. split.
    + destruct Hor as [?|Hf]; [by left|right].
      pose proof (free_at_uncut b1 s n c2 _ Hf) as H. rewrite Hcut in H. apply H. congruence.
    + intros Ht q Hq. pose proof (free_at_cut b1 s n c2 q) as H. rewrite Hcut in H.
      destruct (H Hq) as [?| ->]; [by apply Hlow|].
      rewrite Hlf. pose proof (Hlow' _ Ht Hb1). lia.
Qed.

(** The free block behind [l1 ++ c1] is taken, with room for [size] bytes in its first [s]. *)
Lemma wp_malloc_found low h U l1 c1 n c2 size s : let b1 := l1 ++ c1 in let h1 := h <| heap_sem := heap_sem h - 1 |> in
  state_of low h U (b1 ++ (false, n) :: c2) → lfree h = total l1 → 12 <= s <= n → s mod 4 = 0 → size <= s →
  wp (take_block (total b1) s ;;
      settle (Z.to_nat (heap_end h1)) (total b1) (total l1) ;;
      rt_sem_release ;;
      e ← gets heap_end;
      base ← gets heap_ptr;
      rt_assert (total b1 + SIZEOF_STRUCT_MEM + s <=? e) ;;
      rt_assert ((base + total b1 + SIZEOF_STRUCT_MEM) mod RT_ALIGN_SIZE =? 0) ;;
      rt_assert (Z.land (base + total b1) (RT_ALIGN_SIZE - 1) =? 0) ;;
      mret (Some (base + total b1 + SIZEOF_STRUCT_MEM)))
    (λ r h', keeps h h' U ∧ match r with
       | None => False
       | Some a => ∃ p n, a = heap_ptr h + p ∧ U !! p = None ∧ size <= n ∧ heap_ok low h' (<[p := n]> U)
       end) h1.
Proof.
  intros b1 h1 Hst Hlf [Hs12 Hsn] Hs4 Hss. pose proof Hst as [Hwf _ HU _ Hu Hsem _ _ _].
  assert (wf h1 (b1 ++ (false, n) :: c2)) as Hwf1 by (destruct Hwf; by split).
  apply wp_bind. eapply wp_mono; [apply (wp_take_block h1 b1 n s c2); [exact Hwf1|lia|done|exact Hu]|].
  intros _ h2 (Hwf2 & Hu2 & Eb & Ee & Em & Es & El & Hd).
  assert (length (cut s n ++ c2) <= Z.to_nat (heap_end h1))%nat as Hfuel.
  { pose proof (wf_sized _ _ Hwf2) as [_ Hc]%sized_app. pose proof (total_pos _ Hc).
    destruct (wf_tail _ _ Hwf2) as [_ Ht2 _]. rewrite total_app in Ht2.
    pose proof (wf_sized _ _ Hwf2) as [Hc1 _]%sized_app. pose proof (total_pos _ Hc1). lia. }
  apply wp_bind. eapply wp_mono; [by eapply (wp_settle low h h2 U l1 c1 n s c2 _ Hst Hlf Hs12 Hwf2)|].
  intros _ h3 (Hwf3 & Hm3 & Hor3 & Hlow3).
  assert (heap_ptr h3 = heap_ptr h ∧ heap_end h3 = heap_end h ∧ mem_size_aligned h3 = mem_size_aligned h ∧
    heap_sem h3 = 0 ∧ used_mem h3 = used_mem h2 ∧ data h3 = data h2) as (E1 & E2 & E3 & E4 & E5 & E6).
  { rewrite Hm3. cbn. rewrite Eb, Ee, Em, Es. cbn. split_and!; try done. lia. }
  clear Hm3. apply wp_bind, wp_modify, wp_bind, wp_gets, wp_bind, wp_gets.
  set (h4 := h3 <| heap_sem := heap_sem h3 + 1 |>).
  change (heap_end h4) with (heap_end h3). change (heap_ptr h4) with (heap_ptr h3). rewrite E1, E2.
  pose proof (wf_base _ _ Hwf) as (_ & Hb4 & _). unfold SIZEOF_STRUCT_MEM.
  destruct (wf_split _ _ _ _ _ Hwf) as (_ & _ & _ & _ & _ & Hsb1 & Hsc2 & _ & Hte).
  pose proof (total_mod _ Hsb1) as Hm4. pose proof (total_pos _ Hsc2).
  apply wp_bind, wp_assert; [apply Z.leb_le; lia|].
  apply wp_bind, wp_assert; [apply Z.eqb_eq; unfold RT_ALIGN_SIZE; dlia|].
  apply wp_bind, wp_assert; [rewrite land_3; apply Z.eqb_eq; dlia|]. apply wp_ret.
  assert (wf h4 (b1 ++ cut s n ++ c2)) as Hwf4 by (destruct Hwf3; by split).
  destruct (state_taken low h U b1 n s c2 h4 Hst (conj Hs12 Hsn) Hwf4) as [Hnone Hst4]; try done.
  { change (used_mem h4) with (used_mem h3). congruence. } { cbn. lia. }
  split.
  - split; [done..|]. intros p k a Hp Hr. change (data h4) with (data h3). rewrite E6.
    rewrite HU in Hp. rewrite Hd; [done|]. eapply used_outside_free; [|done..]. apply Hwf.
  - exists (total b1 + 12), (if s + 24 <=? n then s else n). split; [lia|]. split; [done|].
    split; [case_if; lia|]. by eexists.
Qed.

Lemma wp_malloc low h U bs size : state_of low h U bs → 0 <= size <= 4294967292 →
  wp (rt_malloc size) (λ r h', keeps h h' U ∧
    match r with
    | None => state_of low h' U bs ∧ (low = true → size ≠ 0 → no_room bs size)
    | Some a => ∃ p n, a = heap_ptr h + p ∧ U !! p = None ∧ size <= n ∧ heap_ok low h' (<[p := n]> U)
    end) h.
Proof.
  intros Hst Hsize. destruct (max_align size Hsize) as (Hmax & Hs4 & Hs12 & Hss).
  pose proof Hst as [Hwf Ha HU _ Hu Hsem _ Hemp Hlow]. unfold rt_malloc.
  destruct (Z.eqb_spec size 0) as [->|Hsz0].
  { apply wp_ret. split; [apply keeps_refl|]. split; [done|]. by intros. }
  apply wp_bind, wp_gets. rewrite Hmax. destruct (mem_size_aligned h <? RT_ALIGN size) eqn:Ebig; bool_prop.
  { apply wp_ret. split; [apply keeps_refl|]. split; [done|]. intros _ _ b1 n b2 -> Hn.
    pose proof (total_block _ _ _ _ _ Hwf). lia. }
  set (s := Z.max 12 (RT_ALIGN size)) in *.
  assert (s <= mem_size_aligned h) as Hsm by (pose proof (wf_room _ _ Hwf); lia).
  destruct (lfree_split _ _ _ _ Hst) as (l1 & l2 & -> & Hlf).
  apply wp_bind. unfold rt_sem_take. apply wp_bind, wp_gets. rewrite Hsem. cbn [Z.ltb Z.compare].
  apply wp_modify. set (h1 := h <| heap_sem := heap_sem h - 1 |>).
  assert (wf h1 (l1 ++ l2)) as Hwf1 by (destruct Hwf; by split).
  apply wp_bind, wp_gets. change (lfree h1) with (lfree h). rewrite Hlf. apply wp_bind, wp_gets.
  pose proof Hwf1 as [[_ Htot _] Hsd _ _ _]. pose proof (total_pos _ Hsd). rewrite length_app in *.
  apply wp_bind. eapply wp_mono; [eapply (wp_find_fit h1 _ l1 l2 s Hwf1)|].
  { lia. } { split; [lia|exact Hsm]. }
  intros [ptr|] ? [-> Hfound].
  2: { apply wp_bind, wp_modify, wp_ret. split; [done|]. split.
       - destruct Hst as [A1 A2 A3 A4 A5 A6 A7 A8 A9]. split; try done; [by destruct A1; split|]. cbn. lia.
       - intros Hl _ b1 n b2 Hb Hn. destruct (position_after l1 l2 b1 (false, n) b2) as (c1 & -> & ->);
           [done|done| |by eapply Hfound].
         rewrite <- Hlf. apply Hlow; [done|]. rewrite Hb. apply free_at_app. right. rewrite Z.add_0_l. cbn. auto. }
  destruct Hfound as (c1 & n & c2 & -> & -> & Hsn). rewrite app_assoc in *.
  set (b1 := l1 ++ c1) in *.
  apply (wp_mono _ _ _ _ (wp_malloc_found low h U l1 c1 n c2 size s Hst Hlf (conj Hs12 Hsn) Hs4 Hss)).
  intros [a|] h' [Hk Hr]; [by split|done].
Qed.

(** * Freeing *)

Lemma used_map_free b1 n b2 : sized (b1 ++ (true, n) :: b2) →
  used_map 0 (b1 ++ (false, n) :: b2) = delete (total b1 + 12) (used_map 0 (b1 ++ (true, n) :: b2)).
Proof.
  intros Hs. pose proof Hs as [Hs1 Hs2]%sized_app. inversion_clear Hs2 as [|?? [Hn Hn4] Hs2']. cbn [snd] in *.
  rewrite !used_map_app; [|done|apply sized_app; split; [done|by constructor]].
  cbn [used_map]. rewrite !Z.add_0_l.
  assert (used_map 0 b1 !! (total b1 + 12) = None) as H1.
  { apply eq_None_not_Some. intros [k (?&?&?&?)%used_map_range]; [lia|done]. }
  assert (used_map (total b1 + 12 + n) b2 !! (total b1 + 12) = None) as H2.
  { apply eq_None_not_Some. intros [k (?&?&?&?)%used_map_range]; [lia|done]. }
  rewrite <- insert_union_r by done. rewrite delete_insert_eq, delete_id; [done|].
  by apply lookup_union_None.
Qed.

Lemma wp_free low h U bs p n : state_of low h U bs → U !! p = Some n →
  wp (rt_free (Some (heap_ptr h + p))) (λ _ h', heap_ok low h' (delete p U) ∧
    heap_ptr h' = heap_ptr h ∧ heap_end h' = heap_end h ∧ mem_size_aligned h' = mem_size_aligned h ∧
    data h' = data h) h.
Proof.
  intros [Hwf Ha HU Hpos Hu Hsem Hlf _ Hlow] Hp. pose proof (Hpos _ _ Hp) as Hn0. rewrite HU in Hp.
  apply used_map_split in Hp as (b1 & b2 & -> & ->); [|apply Hwf]. rewrite Z.add_0_l.
  destruct (wf_split _ _ _ _ _ Hwf) as (_ & Hh & _ & Hn & _ & Hs1 & Hs2 & HP & Htot).
  pose proof (total_pos b2 Hs2). pose proof (total_mod b1 Hs1). pose proof (wf_base _ _ Hwf) as (Hb & Hb4 & Hbe).
  pose proof (occupied_bounds _ Hs1). pose proof (occupied_bounds _ Hs2).
  unfold rt_free, in_heap. apply wp_bind, wp_assert; [rewrite land_3; apply Z.eqb_eq; dlia|].
  apply wp_bind, wp_gets, wp_bind, wp_assert.
  { apply andb_true_iff. split; [apply Z.leb_le|apply Z.ltb_lt]; lia. }
  apply wp_bind, wp_gets. unfold SIZEOF_STRUCT_MEM.
  replace (heap_ptr h + (total b1 + 12) - 12 - heap_ptr h) with (total b1) by lia.
  apply wp_bind. unfold rt_sem_take. apply wp_bind, wp_gets. rewrite Hsem. cbn [Z.ltb Z.compare].
  apply wp_modify. apply wp_bind. eapply wp_get_mem; [exact Hh|]. cbn [used magic next].
  apply wp_bind, wp_assert; [done|]. apply wp_bind, wp_assert; [done|].
  apply wp_bind. eapply wp_upd_mem; [exact Hh|]. pose proof (wf_flag _ _ _ _ _ false Hwf) as Hwf1.
  apply wp_bind, wp_gets, wp_bind.
  set (lf := if total b1 <? lfree h then total b1 else lfree h).
  match goal with |- wp _ _ ?x => set (h1 := x) end.
  change (lfree h1) with (lfree h).
  apply (wp_mono _ (λ _ h', h' = h1 <| lfree := lf |>)).
  { unfold lf. case_if; [by apply wp_modify|]. apply wp_ret. reflexivity. }
  intros _ ? ->. apply wp_bind, wp_modify. set (bs := b1 ++ (false, n) :: b2) in *.
  match goal with |- wp _ _ ?x => set (h2 := x) end.
  assert (wf h2 bs) as Hwf2 by (destruct Hwf1 as [A1 A2 A3 A4 A5]; by split).
  assert (∀ q, free_at 0 bs q ↔ q = total b1 ∨ free_at 0 (b1 ++ (true, n) :: b2) q) as Hfree.
  { intros q. unfold bs. rewrite !free_at_app, Z.add_0_l. cbn [free_at].
    split; [intros [?|[[_ ?]|?]]; auto|]. intros [?|[?|[[? _]|?]]]; auto; done. }
  assert (free_at 0 bs lf) as Hlf2.
  { apply Hfree. unfold lf. case_if; [by left|]. destruct Hlf as [Hlf|Hlf]; [lia|by right]. }
  apply apart_app in Ha as [Ha1 [_ Ha2]]. cbn [negb] in Ha2.
  apply wp_bind. eapply wp_mono; [by apply (wp_plug h2 b1 n b2)|].
  intros _ h3 (bs' & Hwf3 & Hm3 & [Hf3 _ Hlow3] & [Hus3 Hoc3] & Ha3). apply wp_modify.
  assert (heap_ptr h3 = heap_ptr h ∧ heap_end h3 = heap_end h ∧ mem_size_aligned h3 = mem_size_aligned h ∧
    data h3 = data h ∧ heap_sem h3 = 0 ∧ used_mem h3 = occupied bs') as (E1 & E2 & E3 & E4 & E5 & E6).
  { rewrite Hm3, Hoc3. cbn. split_and!; try done; [lia|]. rewrite Hu. unfold bs. rewrite !occupied_app. cbn.
    rewrite u32_small; lia. }
  split; [|by split_and!]. exists bs'. split; try done.
  - destruct Hwf3 as [A1 A2 A3 A4 A5]. by split.
  - rewrite Hus3, HU. unfold bs. by rewrite used_map_free by apply Hwf.
  - intros q k. rewrite lookup_delete. case_decide; [done|]. apply Hpos.
  - cbn. lia.
  - right. by apply Hf3.
  - intros _ Hend. change (lfree h3 = heap_end h3) in Hend. specialize (Hf3 Hlf2).
    apply free_at_range in Hf3; [|apply Hwf3]. destruct (wf_tail _ _ Hwf3) as [_ Ht3 _]. lia.
  - intros Ht q Hq. apply Hlow3; [|done]. intros q' Hq'%Hfree. change (lf <= q').
    destruct Hq' as [->|Hq']; [unfold lf; case_if; lia|]. specialize (Hlow Ht q' Hq').
    unfold lf. case_if; lia.
Qed.

(** * Writing to a block *)

Lemma wp_store low h U bs p n lo k f : state_of low h U bs → U !! p = Some n →
  p <= lo → lo + k <= p + n → 0 < k →
  wp (store (heap_ptr h + lo) k f) (λ _ h', state_of low h' U bs ∧
    h' = h <| heads := heads h' |> <| data := λ a, if within lo k a then f (a - lo) else data h a |>) h.
Proof.
  intros [Hwf Ha HU Hpos Hu Hsem Hlf Hemp Hlow] Hp Hlo Hhi Hk. pose proof Hp as Hp'. rewrite HU in Hp'.
  apply used_map_split in Hp' as (b1 & b2 & -> & ->); [|apply Hwf]. rewrite Z.add_0_l in *.
  destruct (wf_split _ _ _ _ _ Hwf) as (H1 & Hh & Ht & Hn & Hn4 & Hs1 & Hs2 & HP & Htot).
  pose proof (total_pos b2 Hs2). unfold wp, store. cbv beta zeta.
  replace (heap_ptr h + lo - heap_ptr h) with lo by lia.
  decide_if (k <=? 0) false. rewrite (proj2 (Z.ltb_ge lo 0)) by lia. unfold SIZEOF_STRUCT_MEM.
  rewrite (proj2 (Z.ltb_ge _ _)) by lia. cbn [orb]. split; [|by destruct h].
  split; try done. destruct Hwf as [_ _ Hsz Hroom Hb].
  apply wf_join; cbn [field_update heads heap_end mem_size_aligned heap_ptr]; try done.
  - apply run_clobber; [done|lia|done].
  - apply clobber_outside; [lia|done].
  - eapply tail_frame; [done|exact Ht|]. intros q x Hq. apply clobber_outside. lia.
Qed.

(** * Resizing *)

Lemma heap_ok_weaken low h U : heap_ok low h U → heap_ok false h U.
Proof. intros (bs & [? ? ? ? ? ? ? ? ?]). exists bs. by split. Qed.

Lemma used_map_shrink b1 n s b2 : sized (b1 ++ (true, n) :: b2) →
  sized (b1 ++ (true, s) :: (false, n - 12 - s) :: b2) →
  used_map 0 (b1 ++ (true, s) :: (false, n - 12 - s) :: b2) =
    <[total b1 + 12 := s]> (used_map 0 (b1 ++ (true, n) :: b2)).
Proof.
  intros Hs Hs'. rewrite !used_map_app by done. cbn [used_map]. rewrite !Z.add_0_l.
  replace (total b1 + 12 + s + 12 + (n - 12 - s)) with (total b1 + 12 + n) by lia.
  assert (used_map 0 b1 !! (total b1 + 12) = None) as H1.
  { apply eq_None_not_Some. apply sized_app in Hs as [Hs1 _].
    intros [k (?&?&?&?)%used_map_range]; [lia|done]. }
  by rewrite <- !insert_union_r, insert_insert_eq by done.
Qed.

(** The block [p] shrinks to [s] bytes where it is. *)
Lemma wp_shrink low h U bs p n s : state_of low h U bs → U !! p = Some n →
  0 < s → s mod 4 = 0 → s + 24 < n →
  wp (shrink (p - 12) n s ;; rt_sem_release)
    (λ _ h', heap_ok false h' (<[p := s]> U) ∧ keeps h h' (<[p := s]> U)) (h <| heap_sem := heap_sem h - 1 |>).
Proof.
  intros [Hwf Ha HU Hpos Hu Hsem Hlf _ _] Hp Hs0 Hs4 Hsn. pose proof Hp as Hp'. rewrite HU in Hp'.
  apply used_map_split in Hp' as (b1 & b2 & -> & ->); [|apply Hwf]. rewrite Z.add_0_l in *.
  replace (total b1 + 12 - 12) with (total b1) by lia.
  apply wp_bind. unfold shrink. apply wp_bind, wp_modify. match goal with |- wp _ _ ?x => set (h1 := x) end.
  assert (wf h1 (b1 ++ (true, n) :: b2)) as Hwf1 by (destruct Hwf; by split).
  destruct (wf_split _ _ _ _ _ Hwf) as (_ & _ & _ & Hn & Hn4 & Hs1 & Hs2 & HP & Htot).
  pose proof (total_pos b2 Hs2). pose proof (occupied_bounds _ Hs1). pose proof (occupied_bounds _ Hs2).
  pose proof (wf_base _ _ Hwf) as (Hb0 & _ & Hb).
  apply wp_bind. eapply wp_mono; [apply (wp_split h1 b1 true n s b2); [done|lia|done|lia]|].
  intros _ h2 (Hwf2 & Hh2 & Hd2).
  replace (total b1 + SIZEOF_STRUCT_MEM + s) with (total (b1 ++ [(true, s)]))
    by (rewrite total_app; unfold SIZEOF_STRUCT_MEM; cbn; lia).
  assert (b1 ++ (true, s) :: (false, n - 12 - s) :: b2 = (b1 ++ [(true, s)]) ++ (false, n - 12 - s) :: b2)
    as Eb by by rewrite <- app_assoc.
  apply apart_app in Ha as [Ha1 [_ Ha2]]. cbn [negb] in Ha2.
  rewrite Eb in Hwf2. eapply wp_mono; [apply (wp_plug h2 _ _ _ Hwf2)|]; [|done|].
  { apply apart_app. split; [done|]. cbn. by rewrite andb_false_r. }
  intros _ h3 (bs' & Hwf3 & Hm3 & [Hf3 He3 _] & [Hus3 Hoc3] & Ha3). apply wp_modify. rewrite <- Eb in *.
  assert (heap_ptr h3 = heap_ptr h ∧ heap_end h3 = heap_end h ∧ mem_size_aligned h3 = mem_size_aligned h ∧
    data h3 = data h2 ∧ heap_sem h3 = 0 ∧ used_mem h3 = occupied bs' ∧ lfree h2 = lfree h ∧ heap_end h2 = heap_end h)
    as (E1 & E2 & E3 & E4 & E5 & E6 & E7 & E8).
  { rewrite Hm3, Hoc3, Hh2. cbn. split_and!; try done; [lia|]. rewrite Hu, !occupied_app. cbn.
    rewrite u32_small; lia. }
  assert (used_map 0 bs' = <[total b1 + 12 := s]> U) as EU.
  { rewrite Hus3, HU. apply used_map_shrink; [apply Hwf|]. apply Hwf2. }
  assert (lfree h3 = heap_end h ∨ free_at 0 bs' (lfree h3)) as Hor.
  { destruct Hlf as [Hlf|Hlf]; [left|right].
    - rewrite <- E8. apply He3. congruence.
    - apply Hf3. rewrite E7. rewrite free_at_app in Hlf |- *. cbn [free_at] in *.
      destruct Hlf as [?|[[? _]|Hlf]]; [by left|done|]. right. right. right.
      by replace (0 + total b1 + 12 + s + 12 + (n - 12 - s)) with (0 + total b1 + 12 + n) by lia. }
  split.
  - exists bs'. split; try done.
    + destruct Hwf3 as [A1 A2 A3 A4 A5]. by split.
    + intros q k. rewrite <- EU, EU, lookup_insert. case_decide; [by intros [= <-]|apply Hpos].
    + cbn. lia.
    + change (lfree h3 = heap_end h3 ∨ free_at 0 bs' (lfree h3)). by rewrite E2.
    + intros E. by apply insert_non_empty in E.
  - split; [done..|]. intros q k a Hq Hr. change (data h3 a = data h a). rewrite E4, Hd2.
    unfold within. destruct (_ && _) eqn:E; [|done]. exfalso. bool_prop.
    rewrite lookup_insert in Hq. case_decide; [simplify_eq; lia|]. rewrite HU in *.
    pose proof (used_map_disjoint 0 _ _ _ _ _ (wf_sized _ _ Hwf) Hp Hq ltac:(done)). lia.
Qed.

Lemma wp_bind_inv {W A B} (m : io W A) (k : A → io W B) Q w :
  wp (mbind k m) Q w → wp m (λ a w', wp (k a) Q w') w.
Proof. unfold wp, mbind, io_bind. by destruct (m w) as [[a w']|]. Qed.

(** Copying a block of [n] bytes at [p] to one at [q]. *)
Lemma wp_copy low h U bs q m p k : state_of low h U bs → U !! q = Some m → 0 < k → k <= m →
  wp (rt_memcpy (heap_ptr h + q) (heap_ptr h + p) k) (λ _ h', state_of low h' U bs ∧
    h' = h <| heads := heads h' |> <| data := data h' |> ∧
    ∀ a, data h' a = if within q k a then data h (p + (a - q)) else data h a) h.
Proof.
  intros Hst Hq Hk Hkm. unfold rt_memcpy. apply wp_bind, wp_gets.
  eapply wp_mono; [eapply (wp_store low h U bs q m q k _ Hst Hq); lia|].
  intros _ h' [Hst' Hh']. assert (data h' = λ a, if within q k a then
    data h (heap_ptr h + p - heap_ptr h + (a - q)) else data h a) as Hd by by rewrite Hh'.
  split; [done|]. split; [rewrite Hh'; by destruct h|]. intros a. rewrite Hd.
  destruct (within q k a); [|done]. f_equal. lia.
Qed.

(** The block [p] of [n] bytes moves to one of at least [s]. *)
Lemma wp_expand low h U bs p n s : state_of low h U bs → U !! p = Some n → 0 < s <= 4294967292 →
  wp (expand (heap_ptr h + p) n s) (λ r h',
    match r with
    | None => heap_ok low h' U ∧ keeps h h' U
    | Some a => ∃ q m, a = heap_ptr h + q ∧ U !! q = None ∧ s <= m ∧
        heap_ok low h' (<[q := m]> (delete p U)) ∧ keeps h h' (delete p U) ∧
        ∀ i, 0 <= i < n → i < s → data h' (q + i) = data h (p + i)
    end) h.
Proof.
  intros Hst Hp Hs. pose proof (st_positive _ _ _ _ Hst _ _ Hp). unfold expand. apply wp_bind.
  eapply wp_mono; [apply (wp_malloc low h U bs s Hst); lia|]. intros [a|] h2 [[E1 E2 E3 E4] Hr].
  2: { destruct Hr as [Hst2 _]. apply wp_ret. split; [by eexists|by split]. }
  destruct Hr as (q & m & -> & Hq & Hsm & bs2 & Hst2). assert (q ≠ p) as Hqp by congruence.
  set (k := if n <? s then n else s). assert (0 < k <= m ∧ k <= n ∧ (s <= k ∨ k = n)) as (Hk & Hkn & Hkc).
  { unfold k. case_if; lia. }
  assert (<[q := m]> U !! q = Some m) as Hqm by by rewrite lookup_insert_eq.
  apply wp_bind. eapply wp_mono.
  { rewrite <- E1. eapply (wp_copy low h2 _ bs2 q m p k Hst2 Hqm); lia. }
  intros _ h3 (Hst3 & Hh3 & Hd3).
  assert (heap_ptr h3 = heap_ptr h ∧ heap_end h3 = heap_end h ∧ mem_size_aligned h3 = mem_size_aligned h)
    as (F1 & F2 & F3) by (rewrite Hh3; cbn; by rewrite E1, E2, E3).
  apply wp_bind. eapply wp_mono.
  { rewrite <- F1. eapply (wp_free low h3 _ bs2 p n Hst3). by rewrite lookup_insert_ne. }
  intros _ h4 (Hok4 & G1 & G2 & G3 & G4). apply wp_ret. exists q, m.
  rewrite delete_insert_ne in Hok4 by done. split_and!; [done..| |].
  - split; [congruence..|]. intros r j x Hr Hx. rewrite lookup_delete in Hr. case_decide; [done|].
    assert (<[q := m]> U !! r = Some j) as Hrj by by rewrite lookup_insert_ne by congruence.
    rewrite G4, Hd3. unfold within. destruct (_ && _) eqn:Ew; [|by apply (E4 r j)]. bool_prop.
    pose proof (state_disjoint _ _ _ _ _ _ _ _ Hst3 Hqm Hrj ltac:(congruence)). lia.
  - intros i Hi Hin. rewrite G4, Hd3. unfold within.
    rewrite (proj2 (Z.leb_le _ _)), (proj2 (Z.ltb_lt _ _)) by lia. cbn [andb].
    replace (p + (q + i - q)) with (p + i) by lia. apply (E4 p n); [done|lia].
Qed.

(** A block that keeps its place, with [s] bytes. *)
Lemma in_place h h' U p n s newsize : U !! p = Some n → newsize ≠ 0 → newsize <= s <= n →
  heap_ok false h' (<[p := s]> U) → keeps h h' (<[p := s]> U) →
  ∃ q m, heap_ptr h + p = heap_ptr h + q ∧ newsize ≠ 0 ∧ (q = p ∨ U !! q = None) ∧ newsize <= m ∧
    heap_ok false h' (<[q := m]> (delete p U)) ∧ keeps h h' (delete p U) ∧
    ∀ i, 0 <= i < n → i < newsize → data h' (q + i) = data h (p + i).
Proof.
  intros Hp Hnz Hs Hok [E1 E2 E3 E4]. exists p, s. split_and!; [done..|by left|lia| | |].
  - by rewrite insert_delete_eq.
  - split; [done..|]. intros q k x Hq Hr. rewrite lookup_delete in Hq. case_decide; [done|].
    apply (E4 q k); [by rewrite lookup_insert_ne|done].
  - intros i Hi Hin. apply (E4 p s); [by rewrite lookup_insert_eq|lia].
Qed.

Lemma wp_realloc low h U bs p n newsize : state_of low h U bs → U !! p = Some n →
  0 <= newsize <= 4294967292 →
  wp (rt_realloc (Some (heap_ptr h + p)) newsize) (λ r h',
    match r with
    | None => let U' := if newsize =? 0 then delete p U else U in heap_ok false h' U' ∧ keeps h h' U'
    | Some a => ∃ q m, a = heap_ptr h + q ∧ newsize ≠ 0 ∧ (q = p ∨ U !! q = None) ∧ newsize <= m ∧
        heap_ok false h' (<[q := m]> (delete p U)) ∧ keeps h h' (delete p U) ∧
        ∀ i, 0 <= i < n → i < newsize → data h' (q + i) = data h (p + i)
    end) h.
Proof.
  intros Hst Hp Hsize. destruct (align_spec newsize Hsize) as (Ha4 & Hal).
  pose proof Hst as [Hwf _ HU Hpos _ Hsem _ _ _]. pose proof (Hpos _ _ Hp) as Hn0.
  pose proof Hp as Hp'. rewrite HU in Hp'. apply used_map_split in Hp' as (b1 & b2 & Hbs & Hpb); [|apply Hwf].
  rewrite Z.add_0_l in Hpb.
  assert (wf h (b1 ++ (true, n) :: b2)) as Hwf0 by by rewrite <- Hbs.
  destruct (wf_split _ _ _ _ _ Hwf0) as (_ & Hh & _ & Hn & Hn4 & Hs1 & Hs2 & HP & Htot).
  pose proof (total_pos b2 Hs2). pose proof (wf_base _ _ Hwf) as (Hb0 & _ & Hbe).
  assert (heap_ok false h U) as Hok by (eapply heap_ok_weaken; by eexists).
  unfold rt_realloc. apply wp_bind, wp_gets. set (s := RT_ALIGN newsize) in *.
  destruct (mem_size_aligned h <? s) eqn:Ebig; bool_prop.
  { apply wp_ret. pose proof (wf_room _ _ Hwf). decide_if (newsize =? 0) false. split; [done|apply keeps_refl]. }
  destruct (Z.eqb_spec s 0) as [Es|Es].
  { assert (newsize = 0) as -> by lia. apply wp_bind. eapply wp_mono; [by eapply wp_free|].
    intros _ h' (Hok' & E1 & E2 & E3 & E4). apply wp_ret. split; [by eapply heap_ok_weaken|].
    split; [done..|]. intros. by rewrite E4. }
  assert (newsize ≠ 0) as Hnz.
  { intros ->. apply Es. subst s. by vm_compute. }
  apply wp_bind. unfold rt_sem_take. apply wp_bind, wp_gets. rewrite Hsem. cbn [Z.ltb Z.compare].
  apply wp_modify. set (h1 := h <| heap_sem := heap_sem h - 1 |>).
  apply wp_bind, wp_gets. unfold in_heap. change (heap_ptr h1) with (heap_ptr h). change (heap_end h1) with (heap_end h).
  rewrite (proj2 (Z.leb_le _ _)), (proj2 (Z.ltb_lt _ _)) by lia. cbn [andb negb].
  apply wp_bind, wp_gets. unfold SIZEOF_STRUCT_MEM. change (heap_ptr h1) with (heap_ptr h).
  replace (heap_ptr h + p - 12 - heap_ptr h) with (total b1) by lia.
  apply wp_bind. eapply wp_get_mem; [exact Hh|]. cbn [next].
  replace (total b1 + 12 + n - total b1 - 12) with n by lia. rewrite u32_small by lia.
  set (h1' := h1 <| heap_sem := heap_sem h1 + 1 |>).
  assert (state_of low h1' U bs) as Hst1.
  { destruct Hst as [A1 A2 A3 A4 A5 A6 A7 A8 A9]. split; try done; [|cbn; lia]. by destruct A1; split. }
  assert (heap_ok false h1' U) as Hok1 by (eapply heap_ok_weaken; by eexists).
  destruct (Z.eqb_spec n s) as [En|En].
  { apply wp_bind, wp_modify, wp_ret. eapply (in_place _ _ U p n n); [done|done|lia|by rewrite insert_id|by split]. }
  unfold MIN_SIZE. destruct (s + 12 + 12 <? n) eqn:Esh; bool_prop.
  { apply wp_bind. pose proof (wp_shrink low h U bs p n s Hst Hp ltac:(lia) Ha4 ltac:(lia)) as Hsh.
    replace (p - 12) with (total b1) in Hsh by lia. apply wp_bind_inv in Hsh.
    eapply wp_mono; [exact Hsh|]. intros ? h2 Hsh2. apply wp_bind. eapply wp_mono; [exact Hsh2|].
    intros _ h3 [Hok3 Hk3]. apply wp_ret. by eapply (in_place _ _ U p n s); [..|lia| |]. }
  apply wp_bind, wp_modify. pose proof (wf_size _ _ Hwf).
  eapply wp_mono; [by apply (wp_expand low h1' U bs p n s Hst1); [|lia]|]. intros [a|] h2 Hr.
  - destruct Hr as (q & m & -> & Hq & Hsm & Hok2 & [E1 E2 E3 E4] & Hd). exists q, m. split_and!; try done.
    + by right.
    + lia.
    + by eapply heap_ok_weaken.
    + intros i Hi Hin. apply Hd; lia.
  - destruct Hr as [Hok2 [E1 E2 E3 E4]]. decide_if (newsize =? 0) false. split; [by eapply heap_ok_weaken|done].
Qed.

Lemma wp_calloc low h U bs count size : state_of low h U bs → u32 (count * size) <= 4294967292 →
  wp (rt_calloc count size) (λ r h', keeps h h' U ∧
    match r with
    | None => heap_ok low h' U
    | Some a => ∃ p m, a = heap_ptr h + p ∧ U !! p = None ∧ u32 (count * size) <= m ∧
        heap_ok low h' (<[p := m]> U) ∧ ∀ i, 0 <= i < u32 (count * size) → data h' (p + i) = Some 0
    end) h.
Proof.
  intros Hst Hsize. assert (0 <= u32 (count * size)) by (unfold u32; dlia). set (n := u32 (count * size)) in *.
  unfold rt_calloc. fold n. apply wp_bind.
  eapply wp_mono; [apply (wp_malloc low h U bs n Hst); lia|]. intros [a|] h1 [Hk Hr].
  2: { apply wp_ret. split; [done|]. destruct Hr as [? _]. by eexists. }
  destruct Hr as (p & m & -> & Hp & Hn & bs1 & Hst1). apply wp_bind. destruct (Z.eq_dec n 0) as [E0|E0].
  { unfold rt_memset, wp, store. cbv zeta. rewrite E0. cbn. split; [done|]. exists p, m.
    split_and!; [done..|lia|by eexists|lia]. }
  rewrite <- (keeps_base _ _ _ Hk). unfold rt_memset.
  eapply wp_mono; [eapply (wp_store low h1 _ bs1 p m p n _ Hst1); [by rewrite lookup_insert_eq|lia..]|].
  intros _ h2 [Hst2 Hh2]. apply wp_ret.
  assert (data h2 = λ a, if within p n a then Some 0 else data h1 a) as Hd by by rewrite Hh2.
  split.
  - eapply keeps_trans; [done|exact Hk|]. rewrite Hh2. split; [done..|]. intros q k x Hq Hx. cbn.
    unfold within. destruct (_ && _) eqn:E; [|done]. bool_prop.
    assert (<[p := m]> U !! q = Some k) as Hq' by by rewrite lookup_insert_ne by congruence.
    pose proof (state_disjoint _ _ _ _ _ _ _ _ Hst1 (lookup_insert_eq U p m) Hq' ltac:(congruence)). lia.
  - exists p, m. split_and!; [by rewrite (keeps_base _ _ _ Hk)|done|done|by eexists|].
    intros i Hi. rewrite Hd. unfold within.
    by rewrite (proj2 (Z.leb_le _ _)), (proj2 (Z.ltb_lt _ _)) by lia.
Qed.
