(* ===== verification/HeapProgram.v ===== *)
(** The allocator (Heap.v) hands out what it promises: whatever a program allocates, resizes,
    writes and frees, its blocks lie apart, keep what is written to them and come back. *)

From stdpp Require Import gmap.
From S2P Require Import Prelude Heap HeapBlocks HeapSpec.

(** * Programs *)

Inductive heap_op : Type :=
  | OpMalloc (n : Z)
  | OpCalloc (count n : Z)
  | OpRealloc (a n : Z)
  | OpFree (a : Z)
  | OpWrite (a : Z) (i : nat) (b : Z).

(** What a program holds: its blocks by their address, each with as many bytes as it asked
    for; [None] is a byte of unknown content. *)
Abbreviation blocks := (gmap Z (list (option Z))) (only parsing).

Definition fresh (p : option Z) (l : list (option Z)) (H : blocks) : blocks :=
  match p with Some a => <[a := l]> H | None => H end.

(** A step of a program that frees, resizes and writes only what it holds. *)
Definition step (H : blocks) (o : heap_op) : io heap blocks :=
  match o with
  | OpMalloc n => p ← rt_malloc n; mret (fresh p (replicate (Z.to_nat n) None) H)
  | OpCalloc c n => p ← rt_calloc c n; mret (fresh p (replicate (Z.to_nat (u32 (c * n))) (Some 0)) H)
  | OpRealloc a n =>
      match H !! a with
      | None => mret H
      | Some l =>
          p ← rt_realloc (Some a) n;
          mret (if n =? 0 then delete a H
                else match p with
                     | None => H
                     | Some a' => <[a' := resize (Z.to_nat n) None l]> (delete a H)
                     end)
      end
  | OpFree a =>
      match H !! a with None => mret H | Some _ => rt_free (Some a) ;; mret (delete a H) end
  | OpWrite a i b =>
      match H !! a with
      | Some l => if bool_decide (i < length l)%nat
                  then store (a + Z.of_nat i) 1 (λ _, Some b) ;; mret (<[a := <[i := Some b]> l]> H)
                  else mret H
      | None => mret H
      end
  end.

Fixpoint steps (H : blocks) (os : list heap_op) : io heap blocks :=
  match os with [] => mret H | o :: os => H ← step H o; steps H os end.

(** No size so close to [2 ^ 32] that its rounding wraps. *)
Definition op_ok (o : heap_op) : bool :=
  match o with
  | OpMalloc n | OpRealloc _ n => (0 <=? n) && (n <=? 4294967292)
  | OpCalloc c n => u32 (c * n) <=? 4294967292
  | OpFree _ | OpWrite _ _ _ => true
  end.
Definition op_resizes (o : heap_op) : bool := match o with OpRealloc _ _ => true | _ => false end.

(** The bytes from [p] on are those of [l], where they are known. *)
Definition contents (h : heap) (p : Z) (l : list (option Z)) : Prop :=
  ∀ i b, l !! i = Some (Some b) → data h (p + Z.of_nat i) = Some b.

Record owns (base e : Z) (h : heap) (H : blocks) (U : gmap Z Z) : Prop := {
  own_base : heap_ptr h = base;
  own_end : heap_end h = e;
  own_block : ∀ a l, H !! a = Some l → ∃ n, U !! (a - base) = Some n ∧ Z.of_nat (length l) <= n ∧
    contents h (a - base) l;
  own_held : ∀ p, is_Some (U !! p) → is_Some (H !! (base + p)) }.
Definition holding (low : bool) (base e : Z) (h : heap) (H : blocks) : Prop :=
  ∃ U, heap_ok low h U ∧ owns base e h H U.

Lemma contents_keep h h' p l n U : U !! p = Some n → Z.of_nat (length l) <= n → keeps h h' U →
  contents h p l → contents h' p l.
Proof.
  intros Hp Hl Hk Hc i b Hi. rewrite (keeps_data _ _ _ Hk p n); [by apply Hc|done|].
  apply lookup_lt_Some in Hi. lia.
Qed.

Lemma owns_keeps base e h h' H U : owns base e h H U → keeps h h' U → owns base e h' H U.
Proof.
  intros [B E Hb Hh] Hk. split; [by rewrite (keeps_base _ _ _ Hk)|by rewrite (keeps_end _ _ _ Hk)| |done].
  intros a l Ha. destruct (Hb a l Ha) as (n & Hn & Hl & Hc). exists n. split_and!; [done..|].
  by eapply contents_keep.
Qed.

Lemma owns_delete base e h H U p : owns base e h H U → owns base e h (delete (base + p) H) (delete p U).
Proof.
  intros [B E Hb Hh]. split; [done..| |].
  - intros a l Ha. rewrite lookup_delete in Ha. case_decide; [done|].
    destruct (Hb a l Ha) as (n & Hn & Hl & Hc). exists n. by rewrite lookup_delete_ne by lia.
  - intros q. rewrite !lookup_delete. case_decide; [by intros [? ?]|]. case_decide; [lia|]. apply Hh.
Qed.

Lemma owns_insert base e h H U p m l : owns base e h H U → Z.of_nat (length l) <= m → contents h p l →
  owns base e h (<[base + p := l]> H) (<[p := m]> U).
Proof.
  intros [B E Hb Hh] Hm Hc. split; [done..| |].
  - intros a l' Ha. rewrite lookup_insert in Ha. case_decide.
    + injection Ha as <-. subst a. exists m. replace (base + p - base) with p by lia.
      by rewrite lookup_insert_eq.
    + destruct (Hb a l' Ha) as (n & Hn & Hl & Hc'). exists n.
      by rewrite lookup_insert_ne by lia.
  - intros q. rewrite !lookup_insert. case_decide; [subst; rewrite decide_True by done; eauto|].
    rewrite decide_False by lia. apply Hh.
Qed.

Lemma contents_none h p n : contents h p (replicate n None).
Proof. intros i b Hi. apply lookup_replicate in Hi as [? _]. done. Qed.

Lemma contents_resize h h' p q l k n : contents h p l → Z.of_nat (length l) <= k →
  (∀ i, 0 <= i < k → i < n → data h' (q + i) = data h (p + i)) →
  contents h' q (resize (Z.to_nat n) None l).
Proof.
  intros Hc Hl Hd i b Hi. pose proof (lookup_lt_Some _ _ _ Hi) as Hlt. rewrite length_resize in Hlt.
  destruct (decide (i < length l)%nat) as [Hil|Hil].
  - rewrite lookup_resize in Hi by done. rewrite Hd by lia. by apply Hc.
  - rewrite lookup_resize_new in Hi by lia. done.
Qed.

Lemma owns_at base e h H U a l : owns base e h H U → H !! a = Some l →
  ∃ p n, a = base + p ∧ U !! p = Some n ∧ Z.of_nat (length l) <= n ∧ contents h p l.
Proof.
  intros Hown Ha. destruct (own_block _ _ _ _ _ Hown a l Ha) as (n & ?). exists (a - base), n.
  split; [lia|done].
Qed.

(** ** One step *)

Lemma step_realloc base e h H a n : holding false base e h H → op_ok (OpRealloc a n) = true →
  wp (step H (OpRealloc a n)) (λ H' h', holding false base e h' H') h.
Proof.
  intros (U & [bs Hst] & Hown) [Hn0%Z.leb_le Hn1%Z.leb_le]%andb_true_iff. cbn [step].
  destruct (H !! a) as [l|] eqn:Ha; [|apply wp_ret; exists U; split; [by eexists|done]].
  destruct (owns_at _ _ _ _ _ _ _ Hown Ha) as (p & k & -> & Hk & Hl & Hc).
  pose proof (own_base _ _ _ _ _ Hown) as Hb.
  apply wp_bind. replace (Some (base + p)) with (Some (heap_ptr h + p)) by by rewrite Hb.
  eapply wp_mono; [by apply (wp_realloc false h U bs p k n)|].
  intros [a'|] h' Hr; apply wp_ret.
  - destruct Hr as (q & m & -> & Hn & _ & Hnm & Hok & Hks & Hd). rewrite (proj2 (Z.eqb_neq n 0)) by done.
    exists (<[q := m]> (delete p U)). split; [done|]. rewrite Hb. apply owns_insert.
    + eapply owns_keeps; [by apply owns_delete|done].
    + rewrite length_resize. lia.
    + by eapply contents_resize.
  - destruct Hr as [Hok Hks]. destruct (n =? 0).
    + exists (delete p U). split; [done|]. eapply owns_keeps; [by apply owns_delete|done].
    + exists U. split; [done|]. by eapply owns_keeps.
Qed.

Lemma step_free low base e h H a : holding low base e h H →
  wp (step H (OpFree a)) (λ H' h', holding low base e h' H') h.
Proof.
  intros (U & [bs Hst] & Hown). cbn [step].
  destruct (H !! a) as [l|] eqn:Ha; [|apply wp_ret; exists U; split; [by eexists|done]].
  destruct (owns_at _ _ _ _ _ _ _ Hown Ha) as (p & k & -> & Hk & _).
  pose proof (own_base _ _ _ _ _ Hown) as Hb.
  apply wp_bind. replace (Some (base + p)) with (Some (heap_ptr h + p)) by by rewrite Hb.
  eapply wp_mono; [by apply (wp_free low h U bs p k)|].
  intros _ h' (Hok & E1 & E2 & E3 & E4). apply wp_ret. exists (delete p U). split; [done|].
  eapply owns_keeps; [by apply owns_delete|]. split; [done..|]. intros. by rewrite E4.
Qed.

Lemma step_write low base e h H a i b : holding low base e h H →
  wp (step H (OpWrite a i b)) (λ H' h', holding low base e h' H') h.
Proof.
  intros (U & [bs Hst] & Hown). cbn [step].
  destruct (H !! a) as [l|] eqn:Ha; [|apply wp_ret; exists U; split; [by eexists|done]].
  case_bool_decide as Hi; [|apply wp_ret; exists U; split; [by eexists|done]].
  destruct (owns_at _ _ _ _ _ _ _ Hown Ha) as (p & k & -> & Hk & Hl & Hc).
  pose proof (own_base _ _ _ _ _ Hown) as Hb.
  apply wp_bind. replace (base + p + Z.of_nat i) with (heap_ptr h + (p + Z.of_nat i)) by lia.
  eapply wp_mono; [eapply (wp_store low h U bs p k (p + Z.of_nat i) 1 _ Hst Hk); lia|].
  intros _ h' [Hst' Hh']. apply wp_ret. exists U. split; [by eexists|].
  assert (data h' = λ x, if within (p + Z.of_nat i) 1 x then Some b else data h x) as Hd by by rewrite Hh'.
  assert (∀ x, x ≠ p + Z.of_nat i → data h' x = data h x) as Hne.
  { intros x Hx. rewrite Hd. unfold within. destruct (_ && _) eqn:E; [|done]. bool_prop. lia. }
  destruct Hown as [B E Hbl Hh]. split; [by rewrite Hh'|by rewrite Hh'| |].
  - intros a l' Ha'. rewrite lookup_insert in Ha'. case_decide as Hap.
    + injection Ha' as <-. subst a. exists k. replace (base + p - base) with p by lia.
      split; [done|]. split; [by rewrite length_insert|]. intros j c Hj.
      apply list_lookup_insert_Some in Hj as [(-> & Hcb & _)|[Hij Hj]].
      * rewrite Hd. unfold within. by rewrite (proj2 (Z.leb_le _ _)), (proj2 (Z.ltb_lt _ _)) by lia.
      * rewrite Hne by lia. by apply Hc.
    + destruct (Hbl a l' Ha') as (n & Hn & Hl' & Hc'). exists n. split_and!; [done..|].
      intros j c Hj. rewrite Hne; [by apply Hc'|]. intros Hx. apply lookup_lt_Some in Hj.
      destruct (state_disjoint _ _ _ _ _ _ _ _ Hst Hk Hn); lia.
  - intros q Hq. destruct (decide (p = q)) as [<-|]; [rewrite lookup_insert_eq; eauto|].
    rewrite lookup_insert_ne by lia. by apply Hh.
Qed.

Lemma wp_step_op low base e h H o : holding low base e h H → op_ok o = true →
  (low = true → op_resizes o = false) →
  wp (step H o) (λ H' h', holding low base e h' H') h.
Proof.
  intros Hhd Hok Hlow. destruct o as [n|c n|a n|a|a i b];
    [|..|by apply step_free|by apply step_write]; cbn [step op_ok op_resizes] in *.
  3: { assert (low = false) as -> by (destruct low; [by specialize (Hlow eq_refl)|done]).
       by apply step_realloc. }
  all: destruct Hhd as (U & [bs Hst] & Hown); pose proof (own_base _ _ _ _ _ Hown) as Hb; apply wp_bind.
  - apply andb_true_iff in Hok as [?%Z.leb_le ?%Z.leb_le].
    eapply wp_mono; [by apply (wp_malloc low h U bs)|].
    intros [a|] h' [Hk Hr]; apply wp_ret; cbn [fresh]; apply (owns_keeps _ _ _ h') in Hown; try done.
    + destruct Hr as (p & m & -> & Hp & Hn & Hok'). exists (<[p := m]> U). rewrite Hb. split; [done|].
      apply owns_insert; [done| |apply contents_none]. rewrite length_replicate. lia.
    + exists U. split; [|done]. destruct Hr as [? _]. by eexists.
  - apply Z.leb_le in Hok. eapply wp_mono; [by apply (wp_calloc low h U bs)|].
    assert (0 <= u32 (c * n)) by (unfold u32; dlia).
    intros [a|] h' [Hk Hr]; apply wp_ret; cbn [fresh]; apply (owns_keeps _ _ _ h') in Hown; try done.
    + destruct Hr as (p & m & -> & Hp & Hn & Hok' & Hz). exists (<[p := m]> U). rewrite Hb. split; [done|].
      apply owns_insert; [done|rewrite length_replicate; lia|].
      intros i b [[= ->] Hi]%lookup_replicate. apply Hz. lia.
    + by exists U.
Qed.

Lemma wp_steps low base e os : ∀ h H, holding low base e h H → forallb op_ok os = true →
  (low = true → existsb op_resizes os = false) →
  wp (steps H os) (λ H' h', holding low base e h' H') h.
Proof.
  induction os as [|o os IH]; intros h H Hhd Hok Hlow; cbn [steps forallb existsb] in *; [by apply wp_ret|].
  apply andb_true_iff in Hok as [Ho Hok]. apply wp_bind.
  assert (low = true → op_resizes o = false ∧ existsb op_resizes os = false) as Hl.
  { intros E. by apply orb_false_iff, Hlow. }
  eapply wp_mono; [apply wp_step_op; [done..|apply Hl]|]. intros H' h' Hhd'. apply IH; [done..|apply Hl].
Qed.

(** ** Whole programs *)

Lemma init_holds b e h : rt_system_heap_init b e = Some h → 0 <= b <= 4294967292 → e < 4294967296 →
  12 <= mem_size_aligned h →
  holding true (heap_ptr h) (heap_end h) h ∅ ∧ b <= heap_ptr h ∧ heap_ptr h + heap_end h + 12 <= e.
Proof.
  unfold rt_system_heap_init. destruct (_ && _) eqn:E; [|done]. intros [= <-] Hb He. cbn.
  unfold SIZEOF_STRUCT_MEM in *. bool_prop. destruct (align_spec b Hb) as (Hb4 & Hbr).
  unfold RT_ALIGN_DOWN, RT_ALIGN_SIZE in *. change (4 - 1) with 3 in *. rewrite !ldiff_3 in *.
  assert (e / 4 * 4 <= e) by dlia. assert (e / 4 * 4 mod 4 = 0) by dlia.
  set (e4 := e / 4 * 4) in *. set (b4 := RT_ALIGN b) in *. clearbody e4 b4. intros Hroom.
  split; [|lia]. set (n := e4 - b4 - 2 * 12) in *. exists ∅. split.
  - exists [(false, n)]. split; cbn [heads heap_end mem_size_aligned heap_ptr lfree used_mem heap_sem].
    + split; cbn [heads heap_end mem_size_aligned heap_ptr].
      * split; [split; [|done]|cbn; lia|].
        -- rewrite lookup_insert_eq. do 2 f_equal. lia.
        -- exists (n + 12). rewrite lookup_insert_ne by lia. by rewrite lookup_insert_eq.
      * constructor; [|done]. cbn. split; [lia|unfold n; dlia].
      * done.
      * lia.
      * split; [lia|]. split; [done|unfold n; lia].
    + done.
    + done.
    + done.
    + done.
    + done.
    + right. cbn. auto.
    + lia.
    + intros _ q Hq. cbn in Hq. destruct Hq as [[_ ->]|[]]. lia.
  - split; try done. intros p. rewrite lookup_empty. by intros [? ?].
Qed.

(** What a held block is, in the memory. *)
Lemma holding_blocks low base e h H : holding low base e h H →
  (∀ a l, H !! a = Some l → a mod 4 = 0 ∧ base + 12 <= a ∧ a + Z.of_nat (length l) <= base + e ∧
     contents h (a - base) l) ∧
  (∀ a1 l1 a2 l2, H !! a1 = Some l1 → H !! a2 = Some l2 → a1 ≠ a2 →
     a1 + Z.of_nat (length l1) <= a2 ∨ a2 + Z.of_nat (length l2) <= a1).
Proof.
  intros (U & [bs Hst] & Hown). pose proof (st_wf _ _ _ _ Hst) as Hwf. pose proof (wf_base _ _ Hwf) as (_ & Hb4 & _).
  rewrite (own_base _ _ _ _ _ Hown) in Hb4. destruct (wf_tail _ _ Hwf) as [_ Ht _].
  rewrite (own_end _ _ _ _ _ Hown) in Ht. pose proof (wf_sized _ _ Hwf) as Hs. split.
  - intros a l Ha. destruct (owns_at _ _ _ _ _ _ _ Hown Ha) as (p & n & -> & Hp & Hl & Hc).
    rewrite (st_used _ _ _ _ Hst) in Hp. apply used_map_range in Hp as (? & ? & ? & ?); [|done].
    replace (base + p - base) with p by lia. split_and!; [dlia|lia|lia|done].
  - intros a1 l1 a2 l2 H1 H2 Hne.
    destruct (owns_at _ _ _ _ _ _ _ Hown H1) as (p1 & n1 & -> & Hp1 & Hl1 & _).
    destruct (owns_at _ _ _ _ _ _ _ Hown H2) as (p2 & n2 & -> & Hp2 & Hl2 & _).
    destruct (state_disjoint _ _ _ _ _ _ _ _ Hst Hp1 Hp2); lia.
Qed.

(** With nothing held the heap is the free block it began as. *)
Lemma holding_nothing low base e h : holding low base e h ∅ →
  lfree h = 0 ∧ used_mem h = 0 ∧ heads h !! 0 = Some (MkMem HEAP_MAGIC 0 e 0).
Proof.
  intros (U & [bs Hst] & Hown). destruct Hst as [Hwf Ha HU _ Hu _ Hlf Hemp _].
  assert (U = ∅) as E0.
  { apply map_empty. intros p. destruct (U !! p) eqn:Ep; [|done].
    destruct (own_held _ _ _ _ _ Hown p) as [? H']; [eauto|]. by rewrite lookup_empty in H'. }
  pose proof (own_end _ _ _ _ _ Hown) as He. pose proof (wf_tail _ _ Hwf) as [Hr Ht _].
  pose proof (wf_size _ _ Hwf). pose proof (wf_room _ _ Hwf).
  assert (bs = [(false, total bs - 12)]) as Ebs.
  { apply (used_map_empty bs 0); [apply Hwf|done|congruence|]. intros ->. cbn in Ht. lia. }
  rewrite Ebs in Hr, Hlf, Hu. destruct Hr as [Hd _]. cbn in *. split_and!; [|done|].
  - destruct Hlf as [?|[[_ ?]|[]]]; [|done]. by destruct (Hemp E0).
  - rewrite Hd. do 2 f_equal. lia.
Qed.

(** C25.  From an initialised heap every program that allocates, clears, resizes, frees and
    writes, and only touches what it holds, runs to its end without a fault.  Then each of
    its blocks is aligned, lies in the region and holds what the program wrote to it (zeros
    after [rt_calloc], the old bytes after [rt_realloc]), no two blocks overlap, and when
    nothing is held the heap is the one free block it began as. *)
Theorem heap_refines b e h0 os : rt_system_heap_init b e = Some h0 → 0 <= b <= 4294967292 →
  e < 4294967296 → 12 <= mem_size_aligned h0 → forallb op_ok os = true →
  ∃ H h, steps ∅ os h0 = Ret (H, h) ∧
    (∀ a l, H !! a = Some l → a mod 4 = 0 ∧ b <= a ∧ a + Z.of_nat (length l) <= e ∧
       contents h (a - heap_ptr h0) l) ∧
    (∀ a1 l1 a2 l2, H !! a1 = Some l1 → H !! a2 = Some l2 → a1 ≠ a2 →
       a1 + Z.of_nat (length l1) <= a2 ∨ a2 + Z.of_nat (length l2) <= a1) ∧
    (H = ∅ → lfree h = 0 ∧ used_mem h = 0 ∧ heads h !! 0 = heads h0 !! 0).
Proof.
  intros Hi Hb He Hroom Hok. destruct (init_holds b e h0 Hi Hb He Hroom) as (Hhd & Hlo & Hhi).
  assert (holding false (heap_ptr h0) (heap_end h0) h0 ∅) as Hhd'.
  { destruct Hhd as (U & Hok' & Hown). exists U. split; [by eapply heap_ok_weaken|done]. }
  destruct (proj1 (wp_run _ _ _) (wp_steps false _ _ os h0 ∅ Hhd' Hok ltac:(done))) as (H & h & Hrun & Hend).
  exists H, h. split; [done|]. destruct (holding_blocks _ _ _ _ _ Hend) as [Hbl Hdis].
  split_and!; [|done|].
  - intros a l Ha. destruct (Hbl a l Ha) as (? & ? & ? & ?). split_and!; [done|lia|lia|done].
  - intros ->. destruct (holding_nothing _ _ _ _ Hend) as (? & ? & ->).
    destruct (holding_nothing _ _ _ _ Hhd) as (_ & _ & ->). done.
Qed.

Lemma heap_refines_witness :
  ∃ h0 H h, rt_system_heap_init 536873001 536875008 = Some h0 ∧
    steps ∅ [OpMalloc 10; OpCalloc 3 7; OpWrite 536873016 2 65; OpRealloc 536873016 40; OpFree 536873040] h0
      = Ret (H, h).
Proof.
  destruct (rt_system_heap_init 536873001 536875008) as [h0|] eqn:E; [|discriminate E].
  destruct (heap_refines _ _ h0
    [OpMalloc 10; OpCalloc 3 7; OpWrite 536873016 2 65; OpRealloc 536873016 40; OpFree 536873040] E)
    as (H & h & Hr & _); [lia|lia| |reflexivity|].
  - injection E as <-. vm_compute. discriminate.
  - exists h0, H, h. split; [reflexivity|exact Hr].
Defined.

(** C26.  After any program that does not resize, [rt_malloc] returns, and fails only when no
    free block is large enough, but for the last block when it fits exactly.  After a
    resizing this does not hold: the bytes that a smaller block gives back may be out of the
    sight of [rt_malloc], whose [lfree] is not lowered.  A heap of 176 free bytes does not
    give out 176, but it grants any size whose rounding, or product, wraps around. *)
Theorem rt_malloc_complete :
  (∀ b e h0 os n, rt_system_heap_init b e = Some h0 → 0 <= b <= 4294967292 → e < 4294967296 →
     12 <= mem_size_aligned h0 → forallb op_ok os = true → existsb op_resizes os = false →
     0 < n <= 4294967292 →
     ∃ H h r h', steps ∅ os h0 = Ret (H, h) ∧ rt_malloc n h = Ret (r, h') ∧
       (r = None → ∃ bs, run (heads h) 0 0 bs ∧ total bs = heap_end h ∧ no_room bs n)) ∧
  (∃ h0 H h h1 h2 h3 h4, rt_system_heap_init 1000 1200 = Some h0 ∧
    steps ∅ [OpMalloc 100; OpMalloc 40; OpRealloc 1012 16] h0 = Ret (H, h) ∧
    run (heads h) 0 0 [(true, 16); (false, 72); (true, 40); (false, 12)] ∧
    rt_malloc 40 h = Ret (None, h1) ∧
    run (heads h0) 0 0 [(false, 176)] ∧ rt_malloc 176 h0 = Ret (None, h2) ∧
    rt_malloc 4294967295 h0 = Ret (Some 1012, h3) ∧ rt_calloc 2 2147483652 h0 = Ret (Some 1012, h4)).
Proof.
  split.
  - intros b e h0 os n Hi Hb He Hroom Hok Hnr Hn. destruct (init_holds b e h0 Hi Hb He Hroom) as (Hhd & _).
    destruct (proj1 (wp_run _ _ _) (wp_steps true _ _ os h0 ∅ Hhd Hok (λ _, Hnr))) as (H & h & Hrun & U & [bs Hst] & _).
    destruct (proj1 (wp_run _ _ _) (wp_malloc true h U bs n Hst ltac:(lia))) as (r & h' & Hm & _ & Hr).
    exists H, h, r, h'. split; [done|]. split; [done|]. intros ->. destruct Hr as [_ Hr].
    pose proof (st_wf _ _ _ _ Hst) as [[? ? _] _ _ _ _]. exists bs. split_and!; [done|lia|]. apply Hr; [done|lia].
  - do 7 eexists. split; [reflexivity|]. split; [vm_compute; reflexivity|].
    split_and!; first [vm_compute; tauto|vm_compute; reflexivity].
Qed.

Lemma rt_malloc_complete_witness :
  ∃ h0 H h r h', rt_system_heap_init 1000 1200 = Some h0 ∧
    steps ∅ [OpMalloc 100; OpFree 1012] h0 = Ret (H, h) ∧ rt_malloc 176 h = Ret (r, h').
Proof.
  destruct (rt_system_heap_init 1000 1200) as [h0|] eqn:E; [|discriminate E].
  destruct (proj1 rt_malloc_complete _ _ h0 [OpMalloc 100; OpFree 1012] 176 E)
    as (H & h & r & h' & Hs & Hm & _); [lia|lia| |reflexivity|reflexivity|lia|].
  - injection E as <-. vm_compute. discriminate.
  - exists h0, H, h, r, h'. split; [reflexivity|]. split; [exact Hs|exact Hm].
Defined.
