(* ===== verification/Sal.v ===== *)
(** The socket abstraction layer: rt-thread/components/net/sal_socket/src/sal_socket.c and
    impl/af_inet_at.c.  The socket table, the operations that look a socket up in it and
    pass the call on to the protocol family of its interface, and the work that checks
    whether an interface reaches the internet.

    A protocol family is a record of functions over the state [D] below, each of which may
    be missing; the class [SalWorld] gives the list of interfaces, their families and the
    allocator.  A [struct sal_socket] is a block of memory with an identity of its own, the
    table holds pointers to blocks.  TLS is not configured. *)

From stdpp Require Import gmap.
From S2P Require Import Prelude CLib Event WaitQueue AtClient AtSocket AtParser Netdev AtDevice AtLayer AtNames.

Definition SOCKET_TABLE_STEP_LEN := 4%nat.
(** [DFS_FD_MAX]. *)
Definition SAL_SOCKETS_NUM := 16%nat.
Definition SAL_SOCKET_MAGIC := 23056.
Definition AF_MAX := 47.
Definition SOCK_MAX := 4.

Record sal_socket_ops (D : Type) : Type := MkOps {
  skt_socket : option (Z → Z → Z → io D Z);
  skt_closesocket : option (Z → io D Z);
  skt_bind : option (Z → sockaddr → io D Z);
  skt_listen : option (Z → Z → io D Z);
  skt_connect : option (Z → sockaddr → io D Z);
  skt_accept : option (Z → io D Z);
  skt_sendto : option (Z → list Z → Z → option sockaddr → io D Z);
  skt_recvfrom : option (Z → nat → Z → option sockaddr → io D (Z * list Z));
  skt_getsockopt : option (Z → Z → Z → bool → io D (Z * option timeval));
  skt_setsockopt : option (Z → Z → Z → option timeval → io D Z);
  skt_shutdown : option (Z → Z → io D Z);
  skt_getpeername : option (Z → io D (Z * option sockaddr));
  skt_getsockname : option (Z → io D (Z * option sockaddr));
  skt_ioctlsocket : option (Z → Z → Z → io D Z);
  skt_poll : option (Z → io D Z) }.
Arguments MkOps {D}.
Arguments skt_socket {D}. Arguments skt_closesocket {D}. Arguments skt_bind {D}.
Arguments skt_listen {D}. Arguments skt_connect {D}. Arguments skt_accept {D}.
Arguments skt_sendto {D}. Arguments skt_recvfrom {D}. Arguments skt_getsockopt {D}.
Arguments skt_setsockopt {D}. Arguments skt_shutdown {D}. Arguments skt_getpeername {D}.
Arguments skt_getsockname {D}. Arguments skt_ioctlsocket {D}. Arguments skt_poll {D}.

Record sal_netdb_ops (D : Type) : Type := MkNetdb {
  db_gethostbyname : option (option cstr → io D (option hostent));
  db_gethostbyname_r : option (cstr → io D Z);
  db_getaddrinfo : option (option cstr → option cstr → option addrinfo → bool → io D (Z * option addrinfo));
  db_freeaddrinfo : option (option addrinfo → io D unit) }.
Arguments MkNetdb {D}.
Arguments db_gethostbyname {D}. Arguments db_gethostbyname_r {D}.
Arguments db_getaddrinfo {D}. Arguments db_freeaddrinfo {D}.

(** [skt_ops] may be null. *)
Record sal_proto_family (D : Type) : Type := MkFamily {
  family : Z;
  sec_family : Z;
  skt_ops : option (sal_socket_ops D);
  netdb_ops : sal_netdb_ops D }.
Arguments MkFamily {D}.
Arguments family {D}. Arguments sec_family {D}. Arguments skt_ops {D}. Arguments netdb_ops {D}.

Record sal_socket_t : Type := MkSalSocket {
  skt_magic : Z;
  skt_number : Z;
  domain : Z;
  skt_type : Z;
  protocol : Z;
  skt_netdev : option nat;
  skt_data : Z }.
#[global] Instance sal_socket_eta : Eta sal_socket_t := λ s,
  MkSalSocket (skt_magic s) (skt_number s) (domain s) (skt_type s) (protocol s) (skt_netdev s) (skt_data s).
Definition cleared_sal_socket : sal_socket_t := MkSalSocket 0 0 0 0 0 None 0.

(** What the layer uses: the list of interfaces, [netdev->sal_user_data] and the allocator. *)
Class SalWorld (D : Type) := {
  net_of : D → netstate;
  set_net : netstate → D → D;
  sal_user_data : D → nat → option (sal_proto_family D);
  sal_calloc : io D bool;
  sal_release : io D unit }.

(** [sockets]: its length is [max_socket]; [works]: what the work queue holds. *)
Record sal (D : Type) : Type := MkSal {
  sockets : list (option nat);
  blocks : gmap nat sal_socket_t;
  next_block : nat;
  sal_core_lock : Z;
  init_ok : bool;
  works : list nat;
  below : D }.
Arguments MkSal {D}.
Arguments sockets {D}. Arguments blocks {D}. Arguments next_block {D}. Arguments sal_core_lock {D}.
Arguments init_ok {D}. Arguments works {D}. Arguments below {D}.
#[global] Instance sal_eta {D} : Eta (sal D) := λ s,
  MkSal (sockets s) (blocks s) (next_block s) (sal_core_lock s) (init_ok s) (works s) (below s).

Section sal.
Context {D : Type} `{SalWorld D}.

Definition on_below {A} : io D A → io (sal D) A := zoom below (λ d s, s <| below := d |>).
Definition on_net {A} (m : io netstate A) : io (sal D) A := on_below (zoom net_of set_net m).

Definition get_block (b : nat) : io (sal D) sal_socket_t := λ s,
  match blocks s !! b with Some k => Ret (k, s) | None => Fault Uninitialised end.
Definition upd_block (b : nat) (f : sal_socket_t → sal_socket_t) : io (sal D) unit :=
  k ← get_block b; modify (λ s, s <| blocks := <[b := f k]> (blocks s) |>).

(** After -1 the table has a length but no memory, a state nothing may use. *)
Definition sal_init : io (sal D) Z :=
  ok ← gets init_ok;
  if ok : bool then mret 0
  else
    let cn := if (SOCKET_TABLE_STEP_LEN <? SAL_SOCKETS_NUM)%nat then SOCKET_TABLE_STEP_LEN
              else SAL_SOCKETS_NUM in
    ok ← on_below sal_calloc;
    if negb ok then mret (-1)
    else modify (λ s, s <| sockets := replicate cn None |> <| sal_core_lock := 0 |> <| init_ok := true |>) ;;
         mret 0.

(** * The table *)

(** The pointer of a number within the table is followed without a test. *)
Definition sal_get_socket (socket : Z) : io (sal D) (option nat) :=
  st ← gets sockets;
  if (socket <? 0) || (Z.of_nat (length st) <=? socket) then mret None
  else
    match st !! Z.to_nat socket with
    | None => io_fault OutOfBounds
    | Some None => io_fault NullDeref
    | Some (Some b) =>
        k ← get_block b;
        mret (if skt_magic k =? SAL_SOCKET_MAGIC then Some b else None)
    end.

Definition sal_lock : io (sal D) unit := modify (λ s, s <| sal_core_lock := sal_core_lock s + 1 |>).
Definition sal_unlock : io (sal D) unit := modify (λ s, s <| sal_core_lock := sal_core_lock s - 1 |>).

(** The first entry from [idx] on without a socket, or with one that has no interface. *)
Fixpoint empty_entry (idx : nat) (st : list (option nat)) : io (sal D) nat :=
  match st with
  | [] => mret idx
  | None :: _ => mret idx
  | Some b :: st =>
      k ← get_block b;
      match skt_netdev k with None => mret idx | Some _ => empty_entry (S idx) st end
  end.

Definition grow_table : io (sal D) bool :=
  st ← gets sockets;
  let cnt := (length st + SOCKET_TABLE_STEP_LEN)%nat in
  let cnt := if (SAL_SOCKETS_NUM <? cnt)%nat then SAL_SOCKETS_NUM else cnt in
  ok ← on_below sal_calloc;
  if ok : bool then
    on_below sal_release ;;
    modify (λ s, s <| sockets := st ++ replicate (cnt - length st) None |>) ;; mret true
  else mret false.

Definition socket_alloc : io (sal D) nat :=
  st ← gets sockets;
  idx ← empty_entry 0 st;
  ok ← (if (idx =? length st)%nat && (length st <? SAL_SOCKETS_NUM)%nat then grow_table else mret true);
  st ← gets sockets;
  if negb ok then mret (length st)
  else
    match st !! idx with
    | Some None =>
        ok ← on_below sal_calloc;
        if ok : bool then
          modify (λ s, s <| sockets := <[idx := Some (next_block s)]> (sockets s) |>
                         <| blocks := <[next_block s := cleared_sal_socket]> (blocks s) |>
                         <| next_block := S (next_block s) |>) ;;
          mret idx
        else mret (length st)
    | _ => mret idx
    end.

Definition socket_new : io (sal D) Z :=
  sal_lock ;;
  idx ← socket_alloc;
  st ← gets sockets;
  r ← (if (idx =? length st)%nat then mret (-1)
       else
         match st !! idx with
         | Some (Some b) =>
             upd_block b (λ k, k <| skt_number := Z.of_nat idx |> <| skt_magic := SAL_SOCKET_MAGIC |>
                                 <| skt_netdev := None |> <| skt_data := 0 |>) ;;
             mret (Z.of_nat idx)
         | _ => io_fault NullDeref
         end);
  sal_unlock ;;
  mret r.

(** * Protocol families *)

Definition family_of (d : nat) : io (sal D) (option (sal_proto_family D)) :=
  gets (λ s, sal_user_data (below s) d).
Definition netdev_up (d : nat) : io (sal D) bool :=
  n ← on_net (get_netdev d); mret (netdev_is_up n).

(** The first interface from [d] on that is up and whose family has the number [f]. *)
Fixpoint by_family (sel : sal_proto_family D → Z) (f : Z) (d n : nat) : io (sal D) (option nat) :=
  match n with
  | O => mret None
  | S n =>
      pf ← family_of d;
      up ← netdev_up d;
      match pf with
      | Some pf =>
          if bool_decide (is_Some (skt_ops pf)) && (sel pf =? f) && up then mret (Some d)
          else by_family sel f (S d) n
      | None => by_family sel f (S d) n
      end
  end.
Definition netdev_get_by_family (f : Z) : io (sal D) (option nat) :=
  n ← on_net (gets (λ s, length (netdev_list s)));
  found ← by_family family f 0 n;
  match found with
  | Some d => mret (Some d)
  | None => by_family sec_family f 0 n
  end.

Definition netdev_family_get (d : nat) : io (sal D) Z :=
  pf ← family_of d;
  match pf with Some pf => mret (family pf) | None => io_fault NullDeref end.

(** [SAL_NETDEV_SOCKETOPS_VALID]: the functions of the family of the interface. *)
Definition ops_of (nd : option nat) : io (sal D) (sal_socket_ops D) :=
  match nd with
  | None => io_fault NullDeref
  | Some d =>
      pf ← family_of d;
      match pf with
      | None => io_fault NullDeref
      | Some pf => match skt_ops pf with None => io_fault NullDeref | Some o => mret o end
      end
  end.

(** The default interface, when it is up and of the family. *)
Definition default_of_family (f : Z) : io (sal D) (option nat) :=
  def ← on_net (gets netdev_default);
  match def with
  | None => mret None
  | Some d =>
      up ← netdev_up d;
      if negb up then mret None
      else
        pf ← family_of d;
        match pf with
        | Some pf =>
            if bool_decide (is_Some (skt_ops pf)) && ((family pf =? f) || (sec_family pf =? f))
            then mret (Some d) else mret None
        | None => mret None
        end
  end.

Definition socket_init (fam type proto : Z) (b : nat) : io (sal D) Z :=
  if (fam <? 0) || (AF_MAX <? fam) then mret (-1)
  else if (type <? 0) || (SOCK_MAX <? type) then mret (-2)
  else
    upd_block b (λ k, k <| domain := fam |> <| skt_type := type |> <| protocol := proto |>) ;;
    def ← default_of_family fam;
    match def with
    | Some d => upd_block b (λ k, k <| skt_netdev := Some d |>) ;; mret 0
    | None =>
        nd ← netdev_get_by_family fam;
        match nd with
        | None => mret (-3)
        | Some d => upd_block b (λ k, k <| skt_netdev := Some d |>) ;; mret 0
        end
    end.

(** * Operations *)

(** [SAL_SOCKET_OBJ_GET], [SAL_NETDEV_IS_UP] where [needs_up], and
    [SAL_NETDEV_SOCKETOPS_VALID], then the call of the function of the family. *)
Definition forward {F A} (none : A) (needs_up : bool) (socket : Z)
    (sel : sal_socket_ops D → option F) (call : F → Z → io D A) : io (sal D) A :=
  sock ← sal_get_socket socket;
  match sock with
  | None => mret none
  | Some b =>
      k ← get_block b;
      up ← (if needs_up then
              match skt_netdev k with None => io_fault NullDeref | Some d => netdev_up d end
            else mret true);
      if negb up then mret none
      else
        o ← ops_of (skt_netdev k);
        match sel o with
        | None => mret none
        | Some f => on_below (call f (skt_data k))
        end
  end.

Definition sal_getpeername (socket : Z) : io (sal D) (Z * option sockaddr) :=
  forward (-1, None) false socket skt_getpeername id.
Definition sal_getsockname (socket : Z) : io (sal D) (Z * option sockaddr) :=
  forward (-1, None) false socket skt_getsockname id.
Definition sal_getsockopt (socket level optname : Z) (args : bool) : io (sal D) (Z * option timeval) :=
  forward (-1, None) false socket skt_getsockopt (λ f s, f s level optname args).
Definition sal_setsockopt (socket level optname : Z) (optval : option timeval) : io (sal D) Z :=
  forward (-1) false socket skt_setsockopt (λ f s, f s level optname optval).
Definition sal_connect (socket : Z) (name : sockaddr) : io (sal D) Z :=
  forward (-1) true socket skt_connect (λ f s, f s name).
Definition sal_listen (socket backlog : Z) : io (sal D) Z :=
  forward (-1) false socket skt_listen (λ f s, f s backlog).
Definition sal_recvfrom (socket : Z) (len : nat) (flags : Z) (from : option sockaddr) : io (sal D) (Z * list Z) :=
  forward (-1, []) true socket skt_recvfrom (λ f s, f s len flags from).
Definition sal_sendto (socket : Z) (data : list Z) (flags : Z) (to : option sockaddr) : io (sal D) Z :=
  forward (-1) true socket skt_sendto (λ f s, f s data flags to).
Definition sal_ioctlsocket (socket cmd arg : Z) : io (sal D) Z :=
  forward (-1) false socket skt_ioctlsocket (λ f s, f s cmd arg).
Definition sal_poll (socket : Z) : io (sal D) Z := forward (-1) true socket skt_poll id.

(** A function of the family that is called without a test. *)
Definition call_unchecked {F A} (f : option F) (k : F → io D A) : io (sal D) A :=
  match f with None => io_fault NullDeref | Some f => on_below (k f) end.

(** [sal_socket] once it has its entry. *)
Definition sal_socket_open (socket dom type proto : Z) : io (sal D) Z :=
  sock ← sal_get_socket socket;
  match sock with
  | None => mret (-1)
  | Some b =>
      r ← socket_init dom type proto b;
      if r <? 0 then mret (-1)
      else
        k ← get_block b;
        o ← ops_of (skt_netdev k);
        match skt_socket o with
        | None => mret (-1)
        | Some f =>
            proto_socket ← on_below (f dom type proto);
            if 0 <=? proto_socket then
              upd_block b (λ k, k <| skt_data := proto_socket |>) ;;
              k ← get_block b;
              mret (skt_number k)
            else mret (-1)
        end
  end.
Definition sal_socket (dom type proto : Z) : io (sal D) Z :=
  socket ← socket_new;
  if socket <? 0 then mret (-1) else sal_socket_open socket dom type proto.

(** [rt_free(sock)], and the entry of the table. *)
Definition free_socket (socket : Z) (b : nat) : io (sal D) unit :=
  on_below sal_release ;;
  modify (λ s, s <| blocks := delete b (blocks s) |>
                 <| sockets := <[Z.to_nat socket := None]> (sockets s) |>).

(** [check]: the function whose presence is tested, [call] the one called. *)
Definition close_with {F G} (socket : Z) (check : sal_socket_ops D → option F)
    (sel : sal_socket_ops D → option G) (call : G → Z → io D Z) : io (sal D) Z :=
  sock ← sal_get_socket socket;
  match sock with
  | None => mret (-1)
  | Some b =>
      k ← get_block b;
      o ← ops_of (skt_netdev k);
      match check o with
      | None => mret (-1)
      | Some _ =>
          r ← call_unchecked (sel o) (λ f, call f (skt_data k));
          free_socket socket b ;;
          mret (if r =? 0 then 0 else -1)
      end
  end.
Definition sal_shutdown (socket how : Z) : io (sal D) Z :=
  close_with socket skt_shutdown skt_shutdown (λ f s, f s how).
Definition sal_closesocket (socket : Z) : io (sal D) Z :=
  close_with socket skt_socket skt_closesocket (λ f s, f s).

Definition sal_accept (socket : Z) : io (sal D) Z :=
  sock ← sal_get_socket socket;
  match sock with
  | None => mret (-1)
  | Some b =>
      k ← get_block b;
      o ← ops_of (skt_netdev k);
      match skt_accept o with
      | None => mret (-1)
      | Some f =>
          new_socket ← on_below (f (skt_data k));
          if new_socket =? -1 then mret (-1)
          else
            new_sal_socket ← socket_new;
            if new_sal_socket <? 0 then
              call_unchecked (skt_closesocket o) (λ f, f new_socket) ;; mret (-1)
            else
              new_sock ← sal_get_socket new_sal_socket;
              match new_sock with
              | None => io_fault NullDeref
              | Some nb =>
                  k ← get_block b;
                  retval ← socket_init (domain k) (skt_type k) (protocol k) nb;
                  if retval <? 0 then
                    call_unchecked (skt_closesocket o) (λ f, f new_socket) ;;
                    upd_block nb (λ _, cleared_sal_socket) ;; mret (-1)
                  else
                    upd_block nb (λ k, k <| skt_data := new_socket |>) ;; mret new_sal_socket
              end
      end
  end.

Fixpoint first_by_ipaddr (d : nat) (l : list netdev) (addr : Z) : option nat :=
  match l with
  | [] => None
  | n :: l => if ip_addr n =? addr then Some d else first_by_ipaddr (S d) l addr
  end.
Definition netdev_get_by_ipaddr (addr : Z) : io (sal D) (option nat) :=
  on_net (gets (λ s, first_by_ipaddr 0 (netdev_list s) addr)).

(** The socket moves to the interface [nd] when that is of another family: [None], an error. *)
Definition rebind (socket : Z) (b nd : nat) : io (sal D) bool :=
  k ← get_block b;
  local ← ops_of (skt_netdev k);
  match skt_bind local with
  | None => mret false
  | Some _ =>
      input ← ops_of (Some nd);
      match skt_bind input with
      | None => mret false
      | Some _ =>
          fi ← netdev_family_get nd;
          fl ← (match skt_netdev k with None => io_fault NullDeref | Some d => netdev_family_get d end);
          if fi =? fl then mret true
          else
            call_unchecked (skt_closesocket local) (λ f, f socket) ;;
            new_socket ← call_unchecked (skt_socket input) (λ f, f fi (skt_type k) (protocol k));
            if new_socket <? 0 then mret false
            else upd_block b (λ k, k <| skt_netdev := Some nd |> <| skt_data := new_socket |>) ;; mret true
      end
  end.
Definition sal_bind (socket : Z) (name : sockaddr) : io (sal D) Z :=
  sock ← sal_get_socket socket;
  match sock with
  | None => mret (-1)
  | Some b =>
      ok ← (if sin_addr name =? 0 then mret true
            else
              nd ← netdev_get_by_ipaddr (sin_addr name);
              match nd with None => mret false | Some nd => rebind socket b nd end);
      if negb ok then mret (-1)
      else
        k ← get_block b;
        o ← ops_of (skt_netdev k);
        match skt_bind o with
        | None => mret (-1)
        | Some f => on_below (f (skt_data k) name)
        end
  end.

(** * Names *)

(** [SAL_NETDEV_NETDBOPS_VALID]. *)
Definition netdb_valid {F} (sel : sal_netdb_ops D → option F) (nd : option nat) : io (sal D) (option F) :=
  match nd with
  | None => mret None
  | Some d =>
      up ← netdev_up d;
      pf ← family_of d;
      mret (if (up : bool) then match pf with Some pf => sel (netdb_ops pf) | None => None end else None)
  end.
(** The function of the default interface, or of the first one that is up. *)
Definition netdb {F} (sel : sal_netdb_ops D → option F) : io (sal D) (option F) :=
  def ← on_net (gets netdev_default);
  f ← netdb_valid sel def;
  match f with
  | Some f => mret (Some f)
  | None =>
      nd ← on_net (netdev_get_first_by_flags NETDEV_FLAG_UP);
      netdb_valid sel nd
  end.

Definition sal_gethostbyname (name : option cstr) : io (sal D) (option hostent) :=
  f ← netdb db_gethostbyname;
  match f with None => mret None | Some f => on_below (f name) end.
Definition sal_gethostbyname_r (name : cstr) : io (sal D) Z :=
  f ← netdb db_gethostbyname_r;
  match f with None => mret (-1) | Some f => on_below (f name) end.
Definition sal_getaddrinfo (nodename servname : option cstr) (hints : option addrinfo) (res : bool)
    : io (sal D) (Z * option addrinfo) :=
  f ← netdb db_getaddrinfo;
  match f with None => mret (-1, None) | Some f => on_below (f nodename servname hints res) end.
Definition sal_freeaddrinfo (ai : option addrinfo) : io (sal D) unit :=
  f ← netdb db_freeaddrinfo;
  match f with None => mret tt | Some f => on_below (f ai) end.

(** * Interfaces *)

Definition uses (d : nat) (s : sal D) : bool :=
  existsb (λ p, match p with
                | Some b => match blocks s !! b with
                            | Some k => bool_decide (skt_netdev k = Some d)
                            | None => false
                            end
                | None => false
                end) (sockets s).

(** [others]: what happens in the layer while the caller sleeps. *)
Fixpoint sal_netdev_cleanup (others : io (sal D) unit) (fuel : nat) (d : nat) : io (sal D) Z :=
  sal_lock ;;
  find_dev ← gets (uses d);
  sal_unlock ;;
  if find_dev : bool then
    match fuel with
    | O => io_fault Blocked
    | S fuel => others ;; sal_netdev_cleanup others fuel d
    end
  else mret 0.

Definition sal_check_netdev_internet_up (d : nat) : io (sal D) Z :=
  ok ← on_below sal_calloc;
  if ok : bool then modify (λ s, s <| works := works s ++ [d] |>) ;; mret 0 else mret (-1).

(** ** The internet check *)

Definition SAL_INTERNET_BUFF_LEN := 12%nat.
Definition SAL_INTERNET_TIMEOUT := 2 * RT_TICK_PER_SECOND.
Definition SAL_INTERNET_HOST : cstr := bytes "link.rt-thread.org".
Definition SAL_INTERNET_PORT := 8101.

(** The number of the month that [__DATE__] begins with. *)
Definition MONTHS : list cstr :=
  [bytes "Jan"; bytes "Feb"; bytes "Mar"; bytes "Apr"; bytes "May"; bytes "Jun";
   bytes "Jul"; bytes "Aug"; bytes "Sep"; bytes "Oct"; bytes "Nov"; bytes "Dec"].
Fixpoint month_from (n : Z) (ms : list cstr) (date : cstr) : Z :=
  match ms with
  | [] => 0
  | m :: ms => if bool_decide (take 3 date = m) then n else month_from (n + 1) ms date
  end.
Definition month_of (date : cstr) : Z := month_from 1 MONTHS date.

Definition internet_packet (month : Z) (n : netdev) : res (list Z) :=
  if hwaddr_len n <=? Z.of_nat (length (hwaddr n)) then
    let hw := take (Z.to_nat (hwaddr_len n)) (hwaddr n) in
    let data := [0] ++ ((λ b, u8 (b + month)) <$> hw) in
    let data := data ++ replicate (SAL_INTERNET_BUFF_LEN - length data) 0 in
    Ret (take 9 data ++ [4; 0; 2])
  else Fault OutOfBounds.

(** The result, the socket that was opened, and whether [skt_ops] was set by then. *)
Definition internet_exchange (date : cstr) (d : nat) (pf : sal_proto_family D) (o : sal_socket_ops D)
    : io (sal D) (Z * Z * bool) :=
  host ← call_unchecked (db_gethostbyname (netdb_ops pf)) (λ f, f (Some SAL_INTERNET_HOST));
  match host with
  | None => mret (-1, -1, false)
  | Some host =>
      sockfd ← call_unchecked (skt_socket o) (λ f, f AF_INET SOCK_DGRAM 0);
      if sockfd <? 0 then mret (-1, sockfd, true)
      else
        addr ← (match h_addr_list host with a :: _ => mret a | [] => io_fault NullDeref end);
        let server := MkAddr (htons SAL_INTERNET_PORT) addr in
        let tmo := Some (MkTimeval SAL_INTERNET_TIMEOUT 0) in
        call_unchecked (skt_setsockopt o) (λ f, f sockfd SOL_SOCKET SO_RCVTIMEO tmo) ;;
        call_unchecked (skt_setsockopt o) (λ f, f sockfd SOL_SOCKET SO_SNDTIMEO tmo) ;;
        if month_of date =? 0 then mret (-1, sockfd, true)
        else
          n ← on_net (get_netdev d);
          data ← lift (internet_packet (month_of date) n);
          call_unchecked (skt_sendto o) (λ f, f sockfd data 0 (Some server)) ;;
          r ← call_unchecked (skt_recvfrom o) (λ f, f sockfd 1%nat 0 (Some server));
          if r.1 <? 0 then mret (r.1, sockfd, true)
          else if default 0 (head r.2) =? 0 then mret (-1, sockfd, true)
          else mret (r.1, sockfd, true)
  end.

(** [rt_free(delay_work)]: the work has left the queue. *)
Definition free_work : io (sal D) unit :=
  on_below sal_release ;; modify (λ s, s <| works := tail (works s) |>).

(** The sockets are closed through [skt_ops], a variable that is not set on the first exits:
    without a family, without functions, or when the name is not found. *)
Definition check_netdev_internet_up_work (date : cstr) (work : bool) (d : nat) : io (sal D) unit :=
  pf ← family_of d;
  (if work then free_work else mret tt) ;;
  r ← (match pf with
       | None => mret (-1, -1, None)
       | Some pf =>
           match skt_ops pf with
           | None => mret (-1, -1, None)
           | Some o =>
               r ← internet_exchange date d pf o;
               mret (r.1, if (r.2 : bool) then Some o else None)
           end
       end);
  let '(result, sockfd, o) := r : Z * Z * option (sal_socket_ops D) in
  on_net (upd_netdev d (if 0 <? result then set_flag NETDEV_FLAG_INTERNET_UP
                        else clear_flag NETDEV_FLAG_INTERNET_UP)) ;;
  match o with
  | None => io_fault Uninitialised
  | Some o =>
      (if 0 <=? sockfd then call_unchecked (skt_closesocket o) (λ f, f sockfd) ;; mret tt else mret tt) ;;
      call_unchecked (skt_closesocket o) (λ f, f 0) ;; mret tt
  end.
End sal.

(** * The AT family *)

(** The interfaces within the state of a driver. *)
Class NetWorld (D : Type) := {
  drv_net : D → netstate;
  drv_set_net : netstate → D → D }.

Section at_family.
Context {D : Type} `{SocketOps D, NameOps D, NetWorld D}.
Variable patience : nat.
Variable local_ipaddr : D → Z.
Variable at_device_get_by_ipaddr : Z → D → bool.

(** The C function is given the file and looks its number up in the table again, as
    [sal_poll] has just done; [socket] is the number found there. *)
Definition at_poll (socket : Z) : io (layer D) Z :=
  sock ← at_get_socket socket;
  match sock with
  | None => mret 0
  | Some i =>
      s ← get_sock i;
      mret (Z.lor (if rcvevent s =? 0 then 0 else POLLIN)
           (Z.lor (if sendevent s =? 0 then 0 else POLLOUT) (if errevent s =? 0 then 0 else POLLERR)))
  end.

Definition at_socket_ops : sal_socket_ops (layer D) :=
  MkOps (Some at_socket) (Some at_closesocket) (Some (at_bind local_ipaddr at_device_get_by_ipaddr))
    None (Some at_connect) None (Some at_sendto) (Some (at_recvfrom patience)) (Some at_getsockopt)
    (Some at_setsockopt) (Some (λ s _, at_shutdown s)) None None None (Some at_poll).
Definition at_netdb_ops : sal_netdb_ops (layer D) :=
  MkNetdb (Some at_gethostbyname) None (Some at_getaddrinfo) (Some at_freeaddrinfo).
Definition at_inet_family : sal_proto_family (layer D) :=
  MkFamily AF_AT AF_INET (Some at_socket_ops) at_netdb_ops.

(** Every interface of the program is one of the modem's, registered with
    [sal_at_netdev_set_pf_info]. *)
#[local] Instance at_sal_world : SalWorld (layer D) := {
  net_of l := drv_net (drv l);
  set_net n l := l <| drv := drv_set_net n (drv l) |>;
  sal_user_data _ _ := Some at_inet_family;
  sal_calloc := on_drv sys_calloc;
  sal_release := on_drv sys_free }.
End at_family.

#[global] Instance device_net_world {W} : NetWorld (device W) := {
  drv_net := net;
  drv_set_net n d := d <| net := n |> }.
