(* ===== verification/SalSpec.v ===== *)
(** The table of the socket abstraction layer (Sal.v): who owns which number. *)

From stdpp Require Import gmap.
From S2P Require Import Prelude CLib Event AtClient AtSocket AtParser Netdev AtDevice AtLayer AtNames Sal.

(** What the layer relies on: an allocator and families whose sockets can be opened. *)
Definition same_net {D} `{SalWorld D} (d d' : D) : Prop :=
  net_of d' = net_of d ∧ ∀ i, sal_user_data d' i = sal_user_data d i.
Class SalLaws (D : Type) `{SalWorld D} := {
  sal_inv : D → Prop;
  sal_calloc_law d : sal_inv d → wp sal_calloc (λ _ d', same_net d d' ∧ sal_inv d') d;
  sal_release_law d : sal_inv d → wp sal_release (λ _ d', same_net d d' ∧ sal_inv d') d;
  set_net_same d : set_net (net_of d) d = d;
  default_law d i : sal_inv d → netdev_default (net_of d) = Some i → (i < length (netdev_list (net_of d)))%nat;
  socket_law d i pf o f dom type proto : sal_inv d →
    sal_user_data d i = Some pf → skt_ops pf = Some o → skt_socket o = Some f →
    dom = family pf ∨ dom = sec_family pf → wp (f dom type proto) (λ _ d', sal_inv d') d }.

Section table.
Context {D : Type} `{SalLaws D}.
Implicit Types s : sal D.

(** The socket of an entry, and whether an interface is bound to it. *)
Definition view s (i : nat) : option sal_socket_t :=
  match sockets s !! i with Some (Some b) => blocks s !! b | _ => None end.
Definition busy s (i : nat) : Prop := ∃ k d, view s i = Some k ∧ skt_netdev k = Some d.

Definition tagged (i : nat) (k : sal_socket_t) : Prop :=
  skt_magic k = SAL_SOCKET_MAGIC ∧ skt_number k = Z.of_nat i ∨ k = cleared_sal_socket.

(** Every entry points to a socket of its own, with its number, and no other block is kept. *)
Record table_ok s : Prop := {
  tb_size : (length (sockets s) <= SAL_SOCKETS_NUM)%nat;
  tb_entry : ∀ i b, sockets s !! i = Some (Some b) → ∃ k, blocks s !! b = Some k ∧ tagged i k;
  tb_inj : ∀ i j b, sockets s !! i = Some (Some b) → sockets s !! j = Some (Some b) → i = j;
  tb_owned : ∀ b, is_Some (blocks s !! b) → ∃ i, sockets s !! i = Some (Some b);
  tb_fresh : ∀ b, is_Some (blocks s !! b) → (b < next_block s)%nat;
  tb_inv : sal_inv (below s) }.

(** Only the socket of the entry [i] changes. *)
Definition others_kept s s' (i : nat) : Prop := ∀ j, j ≠ i → view s' j = view s j.

Lemma others_refl s i : others_kept s s i. Proof. by intros j. Qed.
Lemma others_trans s1 s2 s3 i : others_kept s1 s2 i → others_kept s2 s3 i → others_kept s1 s3 i.
Proof. intros H1 H2 j Hj. by rewrite H2, H1. Qed.
Lemma others_busy s s' i j : others_kept s s' i → j ≠ i → busy s' j ↔ busy s j.
Proof. intros Ho Hj. unfold busy. by rewrite Ho. Qed.

Definition first_free s (i : nat) : Prop := ¬ busy s i ∧ ∀ j, (j < i)%nat → busy s j.

Lemma first_free_unique s i j : first_free s i → first_free s j → i = j.
Proof.
  intros [Hi Hi'] [Hj Hj']. destruct (Nat.lt_trichotomy i j) as [?|[?|?]]; [|done|].
  - by destruct Hi; apply Hj'.
  - by destruct Hj; apply Hi'.
Qed.

Lemma first_free_kept s s' i : others_kept s s' i → ¬ busy s' i → first_free s i → first_free s' i.
Proof. intros Ho Hn [_ Hf]. split; [done|]. intros j Hj. apply (others_busy s s' i j Ho); [lia|auto]. Qed.

(** ** Reading and writing *)

Lemma wp_below {A} (m : io D A) R (Q : A → sal D → Prop) s :
  wp m R (below s) → (∀ a d, R a d → Q a (s <| below := d |>)) → wp (on_below m) Q s.
Proof.
  unfold wp, on_below, zoom. intros Hm HQ. destruct (m (below s)) as [[a d]|]; [by apply HQ|done].
Qed.

Lemma wp_get_block b k (Q : sal_socket_t → sal D → Prop) s :
  blocks s !! b = Some k → Q k s → wp (get_block b) Q s.
Proof. unfold wp, get_block. by intros ->. Qed.

Lemma table_below s d : table_ok s → sal_inv d → table_ok (s <| below := d |>).
Proof. by intros [? ? ? ? ? ?]. Qed.

Lemma view_entry s i k : view s i = Some k → ∃ b, sockets s !! i = Some (Some b) ∧ blocks s !! b = Some k.
Proof. unfold view. destruct (sockets s !! i) as [[b|]|]; [|done..]. eauto. Qed.

(** The block of an entry gets other contents. *)
Lemma table_put s i b k : table_ok s → sockets s !! i = Some (Some b) → tagged i k →
  let s' := s <| blocks := <[b := k]> (blocks s) |> in
  table_ok s' ∧ view s' i = Some k ∧ others_kept s s' i.
Proof.
  intros [H1 H2 H3 H4 H5 H6] Hi Hk s'. split_and!.
  - split; [done| |done| | |done].
    + intros j c Hj. change (sockets s !! j = Some (Some c)) in Hj.
      change (blocks s') with (<[b := k]> (blocks s)). destruct (decide (b = c)) as [<-|].
      * rewrite (H3 _ _ _ Hj Hi), lookup_insert_eq. eauto.
      * rewrite lookup_insert_ne by done. by apply H2.
    + intros c. change (blocks s') with (<[b := k]> (blocks s)). destruct (decide (b = c)) as [<-|]; [eauto|].
      rewrite lookup_insert_ne by done. apply H4.
    + intros c. change (blocks s') with (<[b := k]> (blocks s)). change (next_block s') with (next_block s).
      destruct (decide (b = c)) as [<-|]; [|rewrite lookup_insert_ne by done; apply H5].
      intros _. destruct (H2 _ _ Hi) as (k0 & Hk0 & _). apply H5. eauto.
  - unfold view. change (sockets s') with (sockets s). rewrite Hi. apply lookup_insert_eq.
  - intros j Hj. unfold view. change (sockets s') with (sockets s).
    destruct (sockets s !! j) as [[c|]|] eqn:Ec; [|done..]. change (blocks s') with (<[b := k]> (blocks s)).
    rewrite lookup_insert_ne; [done|]. intros ->. by apply Hj, (H3 _ _ c).
Qed.

Lemma wp_upd_block s i b k f (Q : unit → sal D → Prop) :
  table_ok s → sockets s !! i = Some (Some b) → blocks s !! b = Some k → tagged i (f k) →
  (let s' := s <| blocks := <[b := f k]> (blocks s) |> in
   table_ok s' → view s' i = Some (f k) → others_kept s s' i → blocks s' !! b = Some (f k) → Q tt s') →
  wp (upd_block b f) Q s.
Proof.
  intros Ht Hi Hb Hk HQ. unfold upd_block. apply wp_bind. eapply wp_get_block; [done|]. apply wp_modify.
  destruct (table_put s i b (f k) Ht Hi Hk) as (? & ? & ?). apply HQ; [done..|]. cbn. apply lookup_insert_eq.
Qed.

(** ** A free entry *)

Lemma wp_empty_entry s : ∀ st idx, table_ok s → (∀ n, st !! n = sockets s !! (idx + n)%nat) →
  (∀ j, (j < idx)%nat → busy s j) →
  wp (empty_entry idx st) (λ r s', s' = s ∧
    (first_free s r ∧ (r < idx + length st)%nat ∨ r = (idx + length st)%nat ∧ ∀ j, (j < r)%nat → busy s j)) s.
Proof.
  intros st. induction st as [|p st IH]; intros idx Ht Hst Hb; cbn [empty_entry length].
  - apply wp_ret. split; [done|]. right. rewrite Nat.add_0_r. by split; [|].
  - pose proof (Hst 0%nat) as Hz. cbn in Hz. rewrite Nat.add_0_r in Hz. destruct p as [b|].
    + destruct (tb_entry _ Ht idx b) as (k & Hk & _); [done|].
      apply wp_bind. eapply wp_get_block; [done|]. destruct (skt_netdev k) as [d|] eqn:En.
      * eapply wp_mono; [apply (IH (S idx)); [done| |]|].
        -- intros n. specialize (Hst (S n)). change ((Some b :: st) !! S n) with (st !! n) in Hst. rewrite Hst. f_equal. lia.
        -- intros j Hj. destruct (decide (j = idx)) as [->|]; [|apply Hb; lia].
           exists k, d. split; [|done]. unfold view. by rewrite <- Hz.
        -- intros r s' [-> [[? ?]|[-> ?]]]; (split; [done|]).
           ++ left. split; [done|lia].
           ++ right. split; [lia|done].
      * apply wp_ret. split; [done|]. left. split; [|lia]. split; [|done].
        intros (k' & d & Hv & Hd). unfold view in Hv. rewrite <- Hz in Hv. congruence.
    + apply wp_ret. split; [done|]. left. split; [|lia]. split; [|done].
      intros (k' & d & Hv & Hd). unfold view in Hv. by rewrite <- Hz in Hv.
Qed.

(** ** Taking an entry *)

Lemma wp_sal_calloc s (Q : bool → sal D → Prop) :
  table_ok s → (∀ ok d, same_net (below s) d → table_ok (s <| below := d |>) → Q ok (s <| below := d |>)) →
  wp (on_below sal_calloc) Q s.
Proof.
  intros Ht HQ. eapply wp_below; [apply sal_calloc_law, Ht|]. intros ok d [? ?].
  apply HQ; [done|by apply table_below].
Qed.
Lemma wp_sal_release s (Q : unit → sal D → Prop) :
  table_ok s → (∀ d, same_net (below s) d → table_ok (s <| below := d |>) → Q tt (s <| below := d |>)) →
  wp (on_below sal_release) Q s.
Proof.
  intros Ht HQ. eapply wp_below; [apply sal_release_law, Ht|]. intros [] d [? ?].
  apply HQ; [done|by apply table_below].
Qed.

(** The same sockets in a table that is at least as long. *)
Record widened s s' : Prop := {
  wd_ok : table_ok s';
  wd_view : ∀ j, view s' j = view s j;
  wd_net : same_net (below s) (below s');
  wd_lock : sal_core_lock s' = sal_core_lock s }.

Lemma widened_below s d : table_ok (s <| below := d |>) → same_net (below s) d → widened s (s <| below := d |>).
Proof. by split. Qed.

Lemma busy_view s s' : (∀ j, view s' j = view s j) → ∀ j, busy s' j ↔ busy s j.
Proof. intros Hv j. unfold busy. by rewrite Hv. Qed.

Lemma wp_grow_table s : table_ok s → (length (sockets s) < SAL_SOCKETS_NUM)%nat →
  wp grow_table (λ ok s', widened s s' ∧
    if ok : bool then (length (sockets s) < length (sockets s'))%nat ∧ sockets s' !! length (sockets s) = Some None
    else sockets s' = sockets s) s.
Proof.
  intros Ht Hl. unfold grow_table. apply wp_bind, wp_gets, wp_bind, wp_sal_calloc; [done|]. intros [] d Hd Htd.
  2: { apply wp_ret. split; [by apply widened_below|done]. }
  apply wp_bind, wp_sal_release; [done|]. intros d2 [Hd2 Hd2'] Htd2. apply wp_bind, wp_modify, wp_ret.
  set (st := sockets s) in *.
  set (n := (if (SAL_SOCKETS_NUM <? length st + SOCKET_TABLE_STEP_LEN)%nat then SAL_SOCKETS_NUM
             else (length st + SOCKET_TABLE_STEP_LEN)%nat)).
  assert (length st < n <= SAL_SOCKETS_NUM)%nat as Hn.
  { unfold n, SOCKET_TABLE_STEP_LEN, SAL_SOCKETS_NUM in *. destruct (Nat.ltb_spec 16 (length st + 4)); lia. }
  assert (∀ j, (st ++ replicate (n - length st) None) !! j = Some None ∨
               (st ++ replicate (n - length st) None) !! j = st !! j) as Hj.
  { intros j. destruct (decide (j < length st)%nat); [right; by rewrite lookup_app_l|].
    rewrite lookup_app_r by lia. destruct (decide (j - length st < n - length st)%nat).
    - left. by rewrite lookup_replicate_2.
    - right. rewrite !lookup_ge_None_2; [done|lia|rewrite length_replicate; lia]. }
  assert (∀ j b, (st ++ replicate (n - length st) None) !! j = Some (Some b) → st !! j = Some (Some b)) as Hjb.
  { intros j b Hb. destruct (Hj j) as [E|E]; rewrite E in Hb; [done|exact Hb]. }
  destruct Ht as [H1 H2 H3 H4 H5 _]. split; [split|split].
  - split; cbn; [rewrite length_app, length_replicate; fold st; lia|eauto..| |exact H5|apply Htd2].
    intros b Hb. destruct (H4 b Hb) as [i Hi]. exists i. rewrite lookup_app_l; [done|].
    by eapply lookup_lt_Some.
  - intros j. unfold view. cbn. fold st. destruct (Hj j) as [E|E]; [|by rewrite E]. rewrite E.
    destruct (st !! j) as [[b|]|] eqn:Eb; [|done..]. rewrite lookup_app_l in E by (by eapply lookup_lt_Some).
    congruence.
  - destruct Hd as [E1 E2]. split; cbn; [by rewrite Hd2|]. intros i. by rewrite Hd2', E2.
  - done.
  - cbn. rewrite length_app, length_replicate. fold st. lia.
  - cbn. fold st. rewrite lookup_app_r, Nat.sub_diag by lia. apply lookup_replicate_2. lia.
Qed.

(** A new block for an entry without one. *)
Lemma table_new s i : table_ok s → sockets s !! i = Some None →
  let s' := s <| sockets := <[i := Some (next_block s)]> (sockets s) |>
              <| blocks := <[next_block s := cleared_sal_socket]> (blocks s) |>
              <| next_block := S (next_block s) |> in
  table_ok s' ∧ sockets s' !! i = Some (Some (next_block s)) ∧ view s' i = Some cleared_sal_socket ∧
  others_kept s s' i.
Proof.
  intros [H1 H2 H3 H4 H5 H6] Hi s'. pose proof (lookup_lt_Some _ _ _ Hi) as Hlt.
  assert (∀ j b, sockets s !! j = Some (Some b) → b ≠ next_block s) as Hne.
  { intros j b Hb ->. destruct (H2 _ _ Hb) as (k & Hk & _). specialize (H5 (next_block s)).
    rewrite Hk in H5. specialize (H5 ltac:(eauto)). lia. }
  assert (sockets s' !! i = Some (Some (next_block s))) as Hi' by (cbn; by apply list_lookup_insert_eq).
  assert (∀ j, j ≠ i → sockets s' !! j = sockets s !! j) as Hj by (intros j ?; cbn; by apply list_lookup_insert_ne).
  split_and!; [|done| |].
  - split.
    + cbn. by rewrite length_insert.
    + intros j b Hb. destruct (decide (j = i)) as [->|Hji].
      * assert (b = next_block s) as -> by congruence. exists cleared_sal_socket. split; [apply lookup_insert_eq|by right].
      * rewrite Hj in Hb by done. change (blocks s') with (<[next_block s := cleared_sal_socket]> (blocks s)).
        rewrite lookup_insert_ne by (symmetry; eauto). eauto.
    + intros j l b Hb Hb'. destruct (decide (j = i)) as [->|Hji], (decide (l = i)) as [->|Hli]; [done|..].
      * rewrite Hj in Hb' by done. assert (b = next_block s) as -> by congruence. by destruct (Hne _ _ Hb').
      * rewrite Hj in Hb by done. assert (b = next_block s) as -> by congruence. by destruct (Hne _ _ Hb).
      * rewrite Hj in Hb, Hb' by done. eauto.
    + intros b. change (blocks s') with (<[next_block s := cleared_sal_socket]> (blocks s)).
      destruct (decide (next_block s = b)) as [<-|Hb]; [eauto|]. rewrite lookup_insert_ne by done.
      intros Hk. destruct (H4 b Hk) as [j Hj']. exists j. rewrite Hj; [done|]. intros ->. congruence.
    + intros b. change (blocks s') with (<[next_block s := cleared_sal_socket]> (blocks s)).
      change (next_block s') with (S (next_block s)).
      destruct (decide (next_block s = b)) as [<-|Hb]; [lia|]. rewrite lookup_insert_ne by done.
      intros Hk%H5. lia.
    + exact H6.
  - unfold view. rewrite Hi'. apply lookup_insert_eq.
  - intros j Hji. unfold view. rewrite Hj by done. destruct (sockets s !! j) as [[b|]|] eqn:Eb; [|done..].
    change (blocks s') with (<[next_block s := cleared_sal_socket]> (blocks s)).
    rewrite lookup_insert_ne; [done|]. symmetry. eauto.
Qed.
(** No entry, and the first free one has no block that could be used. *)
Definition refused s s' : Prop := (∀ j, view s' j = view s j) ∧ ∀ i, first_free s i → view s i = None.

Definition given s (idx : nat) s' : Prop :=
  first_free s idx ∧ others_kept s s' idx ∧
  ∃ b k, sockets s' !! idx = Some (Some b) ∧ blocks s' !! b = Some k ∧ skt_netdev k = None.

Definition alloc_post s (idx : nat) s' : Prop :=
  table_ok s' ∧ same_net (below s) (below s') ∧ sal_core_lock s' = sal_core_lock s ∧
  (idx = length (sockets s') ∧ refused s s' ∨ given s idx s').

Lemma not_busy_out s i : (length (sockets s) <= i)%nat → view s i = None ∧ ¬ busy s i.
Proof.
  intros Hi. assert (view s i = None) as Hv by (unfold view; by rewrite lookup_ge_None_2).
  split; [done|]. intros (k & d & Hk & _). congruence.
Qed.

Lemma refused_at s s' i : (∀ j, view s' j = view s j) → first_free s i → view s i = None → refused s s'.
Proof. intros Hv Hf Hn. split; [done|]. intros j Hj. by rewrite (first_free_unique _ _ _ Hj Hf). Qed.

(** The entry [idx], which is free in [s] and in its widening [s1]. *)
Lemma wp_take_entry s s1 idx : widened s s1 → first_free s idx → (idx < length (sockets s1))%nat →
  wp (match sockets s1 !! idx with
      | Some None =>
          ok ← on_below sal_calloc;
          if ok : bool then
            modify (λ s, s <| sockets := <[idx := Some (next_block s)]> (sockets s) |>
                           <| blocks := <[next_block s := cleared_sal_socket]> (blocks s) |>
                           <| next_block := S (next_block s) |>) ;;
            mret idx
          else mret (length (sockets s1))
      | _ => mret idx
      end) (alloc_post s) s1.
Proof.
  intros [Ht Hv [Hd1 Hd2] Hl] Hf Hlt. destruct (lookup_lt_is_Some_2 _ _ Hlt) as [p Hp]. rewrite Hp.
  assert (∀ d, same_net (below s1) d → same_net (below s) d) as Hnet.
  { intros d [E1 E2]. split; [by rewrite E1|]. intros i. by rewrite E2. }
  destruct p as [b|].
  - apply wp_ret. split; [done|]. split; [done|]. split; [done|]. right. split; [done|].
    split; [by intros j _|]. destruct (tb_entry _ Ht _ _ Hp) as (k & Hk & _). exists b, k.
    split_and!; [done..|]. destruct (skt_netdev k) as [d|] eqn:Ed; [|done]. destruct (proj1 Hf).
    exists k, d. split; [|done]. rewrite <- Hv. unfold view. by rewrite Hp.
  - apply wp_bind, wp_sal_calloc; [done|]. intros [] d Hd Htd.
    + apply wp_bind, wp_modify, wp_ret.
      destruct (table_new (s1 <| below := d |>) idx Htd Hp) as (Ht2 & Hs2 & Hv2 & Ho2).
      split; [exact Ht2|]. split; [by apply Hnet|]. split; [exact Hl|]. right. split; [done|]. split.
      * intros j Hj. rewrite <- Hv. exact (Ho2 j Hj).
      * eexists _, cleared_sal_socket. split; [exact Hs2|]. split; [|done]. cbn. apply lookup_insert_eq.
    + apply wp_ret. split; [done|]. split; [by apply Hnet|]. split; [exact Hl|]. left.
      split; [done|]. eapply refused_at; [exact Hv|exact Hf|]. rewrite <- Hv. unfold view. by rewrite Hp.
Qed.

Lemma wp_socket_alloc s : table_ok s → wp socket_alloc (alloc_post s) s.
Proof.
  intros Ht. unfold socket_alloc. apply wp_bind, wp_gets, wp_bind.
  eapply wp_mono; [apply (wp_empty_entry s (sockets s) 0 Ht); [done|lia]|]. cbn [Nat.add]. intros idx s0 [-> Hidx].
  assert (widened s s) as Hw by (by split).
  destruct Hidx as [[Hf Hlt]|[-> Hall]].
  - rewrite (proj2 (Nat.eqb_neq _ _)) by lia. cbn [andb]. apply wp_bind, wp_ret, wp_bind, wp_gets. cbn [negb].
    by apply wp_take_entry.
  - assert (first_free s (length (sockets s))) as Hf by (split; [by apply not_busy_out|done]).
    pose proof (proj1 (not_busy_out s (length (sockets s)) ltac:(done))) as Hnone.
    rewrite Nat.eqb_refl. cbn [andb]. apply wp_bind.
    destruct (Nat.ltb_spec (length (sockets s)) SAL_SOCKETS_NUM) as [Hlt|Hge].
    + eapply wp_mono; [by apply wp_grow_table|]. intros [] s1 [Hw1 Hs1]; apply wp_bind, wp_gets; cbn [negb].
      * apply wp_take_entry; [done|done|lia].
      * apply wp_ret. destruct Hw1 as [A1 A2 A3 A4]. split; [done|]. split; [done|]. split; [done|]. left.
        split; [done|]. by eapply refused_at.
    + apply wp_ret, wp_bind, wp_gets. cbn [negb]. rewrite lookup_ge_None_2 by done. apply wp_ret.
      split; [done|]. split; [done|]. split; [done|]. left. split; [done|]. by eapply refused_at.
Qed.

Definition new_socket (i : nat) (k : sal_socket_t) : Prop :=
  skt_magic k = SAL_SOCKET_MAGIC ∧ skt_number k = Z.of_nat i ∧ skt_netdev k = None.

(** A new number: that of the first free entry. *)
Lemma wp_socket_new s : table_ok s →
  wp socket_new (λ r s', table_ok s' ∧ same_net (below s) (below s') ∧ sal_core_lock s' = sal_core_lock s ∧
    (r = -1 ∧ refused s s' ∨
     ∃ i k, r = Z.of_nat i ∧ (i < SAL_SOCKETS_NUM)%nat ∧ first_free s i ∧ others_kept s s' i ∧
       view s' i = Some k ∧ new_socket i k)) s.
Proof.
  intros Ht. unfold socket_new, sal_lock, sal_unlock. apply wp_bind, wp_modify.
  set (s0 := s <| sal_core_lock := sal_core_lock s + 1 |>).
  assert (table_ok s0) as Ht0 by (by destruct Ht; split).
  apply wp_bind. eapply wp_mono; [by apply wp_socket_alloc|]. intros idx s1 (Ht1 & Hn1 & Hl1 & Hcase).
  apply wp_bind, wp_gets. destruct Hcase as [[-> [Hv Hr]]|(Hf & Ho & b & k & Hb & Hk & Hnd)].
  - rewrite Nat.eqb_refl. apply wp_bind, wp_ret, wp_bind, wp_modify, wp_ret.
    split; [by destruct Ht1; split|]. split; [exact Hn1|]. split; [cbn; rewrite Hl1; cbn; lia|]. left.
    split; [done|]. split; [exact Hv|exact Hr].
  - pose proof (lookup_lt_Some _ _ _ Hb) as Hlt. rewrite (proj2 (Nat.eqb_neq _ _)) by lia. rewrite Hb.
    apply wp_bind, wp_bind. eapply wp_upd_block; [exact Ht1|exact Hb|exact Hk|by left|].
    set (k' := k <| skt_number := _ |> <| skt_magic := _ |> <| skt_netdev := _ |> <| skt_data := _ |>).
    set (s2 := s1 <| blocks := _ |>). intros ? Ht2 Hv2 Ho2 _. apply wp_ret, wp_bind, wp_modify, wp_ret.
    split; [by destruct Ht2; split|]. split; [exact Hn1|]. split; [cbn; rewrite Hl1; cbn; lia|]. right.
    exists idx, k'. split; [done|]. split; [pose proof (tb_size _ Ht1); lia|]. split; [exact Hf|].
    split; [exact (others_trans s0 s1 s2 idx Ho Ho2)|]. split; [exact Hv2|done].
Qed.
(** ** Choosing an interface *)

(** The interface [i] has a family with functions, of the number [f]. *)
Definition serves s (f : Z) (i : nat) : Prop :=
  ∃ pf o, sal_user_data (below s) i = Some pf ∧ skt_ops pf = Some o ∧ (f = family pf ∨ f = sec_family pf).

Lemma wp_net {A} (m : io netstate A) a (Q : A → sal D → Prop) s :
  m (net_of (below s)) = Ret (a, net_of (below s)) → Q a s → wp (on_net m) Q s.
Proof.
  intros Hm HQ. eapply wp_below; [|].
  { unfold wp, zoom. rewrite Hm. instantiate (1 := λ x d, x = a ∧ d = below s). by rewrite set_net_same. }
  intros x d [-> ->]. by destruct s.
Qed.

Lemma wp_netdev_up d n (Q : bool → sal D → Prop) s :
  netdev_list (net_of (below s)) !! d = Some n → Q (netdev_is_up n) s → wp (netdev_up d) Q s.
Proof.
  intros Hn HQ. unfold netdev_up. apply wp_bind. eapply wp_net; [|by apply wp_ret].
  unfold get_netdev. by rewrite Hn.
Qed.

Lemma wp_by_family s sel f : ∀ n d, (∀ pf, sel pf = family pf ∨ sel pf = sec_family pf) →
  (d + n <= length (netdev_list (net_of (below s))))%nat →
  wp (by_family sel f d n) (λ r s', s' = s ∧ ∀ i, r = Some i → serves s f i) s.
Proof.
  intros n. induction n as [|n IH]; intros d Hsel Hn; cbn [by_family]; [by apply wp_ret|].
  apply wp_bind, wp_gets, wp_bind.
  destruct (lookup_lt_is_Some_2 (netdev_list (net_of (below s))) d) as [nd Hd]; [lia|].
  eapply wp_netdev_up; [exact Hd|].
  destruct (sal_user_data (below s) d) as [pf|] eqn:Ep; [|apply IH; [done|lia]].
  destruct (bool_decide (is_Some (skt_ops pf)) && (sel pf =? f) && netdev_is_up nd) eqn:E; [|apply IH; [done|lia]].
  apply wp_ret. split; [done|]. intros i [= <-].
  apply andb_true_iff in E as [[[o Ho]%bool_decide_eq_true ?%Z.eqb_eq]%andb_true_iff _].
  exists pf, o. split_and!; [done..|]. destruct (Hsel pf); [left|right]; congruence.
Qed.

Lemma wp_get_by_family s f :
  wp (netdev_get_by_family f) (λ r s', s' = s ∧ ∀ i, r = Some i → serves s f i) s.
Proof.
  unfold netdev_get_by_family. apply wp_bind. eapply wp_net; [done|]. apply wp_bind.
  eapply wp_mono; [apply wp_by_family; [auto|lia]|]. intros [d|] s' [-> Hr].
  - by apply wp_ret.
  - apply wp_by_family; [auto|lia].
Qed.

Lemma wp_default s f : table_ok s →
  wp (default_of_family f) (λ r s', s' = s ∧ ∀ i, r = Some i → serves s f i) s.
Proof.
  intros Ht. unfold default_of_family. apply wp_bind. eapply wp_net; [done|].
  destruct (netdev_default (net_of (below s))) as [d|] eqn:Ed; [|by apply wp_ret].
  destruct (lookup_lt_is_Some_2 (netdev_list (net_of (below s))) d) as [nd Hd].
  { eapply default_law; [apply Ht|done]. }
  apply wp_bind. eapply wp_netdev_up; [exact Hd|].
  destruct (netdev_is_up nd); cbn [negb]; [|by apply wp_ret]. apply wp_bind, wp_gets.
  destruct (sal_user_data (below s) d) as [pf|] eqn:Ep; [|by apply wp_ret].
  destruct (bool_decide (is_Some (skt_ops pf)) && ((family pf =? f) || (sec_family pf =? f))) eqn:E; [|by apply wp_ret].
  apply wp_ret. split; [done|]. intros i [= <-].
  apply andb_true_iff in E as [[o Ho]%bool_decide_eq_true [?%Z.eqb_eq|?%Z.eqb_eq]%orb_true_iff];
    exists pf, o; (split_and!; [done..|]); [by left|by right].
Qed.

(** ** Opening *)

(** A new socket at the entry [i] (its block is [b]); then it is bound to an interface. *)
Definition at_entry s (i b : nat) (k : sal_socket_t) : Prop :=
  table_ok s ∧ sockets s !! i = Some (Some b) ∧ blocks s !! b = Some k.

Definition numbered_socket (i : nat) (k : sal_socket_t) : Prop :=
  skt_magic k = SAL_SOCKET_MAGIC ∧ skt_number k = Z.of_nat i.

Lemma wp_set s i b k f (Q : unit → sal D → Prop) :
  at_entry s i b k → numbered_socket i (f k) →
  (∀ s', at_entry s' i b (f k) → others_kept s s' i → below s' = below s → sal_core_lock s' = sal_core_lock s → Q tt s') →
  wp (upd_block b f) Q s.
Proof.
  intros (Ht & Hi & Hb) Hk HQ. eapply wp_upd_block; [done..|by left|]. intros s' Ht' Hv Ho Hb'.
  by apply HQ.
Qed.

Lemma at_entry_view s i b k : at_entry s i b k → view s i = Some k.
Proof. intros (_ & Hi & Hb). unfold view. by rewrite Hi. Qed.

Lemma wp_socket_init s i b k fam type proto : at_entry s i b k → numbered_socket i k →
  wp (socket_init fam type proto b) (λ r s', ∃ k', at_entry s' i b k' ∧ numbered_socket i k' ∧
    others_kept s s' i ∧ below s' = below s ∧ sal_core_lock s' = sal_core_lock s ∧
    (r < 0 ∨
     r = 0 ∧ domain k' = fam ∧ skt_type k' = type ∧ protocol k' = proto ∧
     ∃ d, skt_netdev k' = Some d ∧ serves s' fam d)) s.
Proof.
  intros He (Hm & Hnum). unfold socket_init.
  destruct (_ || _); [apply wp_ret; exists k; split_and!; (done || by left)|].
  destruct (_ || _); [apply wp_ret; exists k; split_and!; (done || by left)|].
  apply wp_bind. eapply wp_set; [exact He|done|]. intros s1 He1 Ho1 Hb1 Hl1.
  set (k1 := k <| domain := fam |> <| skt_type := type |> <| protocol := proto |>) in *.
  assert (∀ d, serves s1 fam d → wp (upd_block b (λ k, k <| skt_netdev := Some d |>) ;; mret 0)
    (λ r s', ∃ k', at_entry s' i b k' ∧ numbered_socket i k' ∧
      others_kept s s' i ∧ below s' = below s ∧ sal_core_lock s' = sal_core_lock s ∧
      (r < 0 ∨ r = 0 ∧ domain k' = fam ∧ skt_type k' = type ∧ protocol k' = proto ∧
       ∃ d, skt_netdev k' = Some d ∧ serves s' fam d)) s1) as Hbind.
  { intros d (pf & o & Hsv). apply wp_bind. eapply wp_set; [exact He1|done|]. intros s2 He2 Ho2 Hb2 Hl2.
    apply wp_ret. eexists. split; [exact He2|]. split; [done|]. split; [by eapply others_trans|].
    split; [congruence|]. split; [congruence|]. right. split_and!; [done..|]. exists d. split; [done|].
    exists pf, o. by rewrite Hb2. }
  apply wp_bind. eapply wp_mono; [by apply wp_default, He1|]. intros [d|] ? [-> Hd]; [by apply Hbind, Hd|].
  apply wp_bind. eapply wp_mono; [apply wp_get_by_family|]. intros [d'|] ? [-> Hd']; [by apply Hbind, Hd'|].
  apply wp_ret. exists k1. split_and!; [exact He1|done..|]. by left.
Qed.

Lemma wp_ops_of s f d (Q : sal_socket_ops D → sal D → Prop) :
  serves s f d → (∀ pf o, sal_user_data (below s) d = Some pf → skt_ops pf = Some o →
    f = family pf ∨ f = sec_family pf → Q o s) → wp (ops_of (Some d)) Q s.
Proof.
  intros (pf & o & Hp & Ho & Hf) HQ. unfold ops_of. apply wp_bind, wp_gets. rewrite Hp, Ho. by apply wp_ret, (HQ pf).
Qed.

(** [sal_get_socket] on an entry with a socket, and on one without. *)
Lemma wp_get_entry s i b k (Q : option nat → sal D → Prop) :
  at_entry s i b k → Q (if skt_magic k =? SAL_SOCKET_MAGIC then Some b else None) s →
  wp (sal_get_socket (Z.of_nat i)) Q s.
Proof.
  intros (Ht & Hi & Hb) HQ. unfold sal_get_socket. apply wp_bind, wp_gets.
  pose proof (lookup_lt_Some _ _ _ Hi). decide_if (Z.of_nat i <? 0) false.
  rewrite (proj2 (Z.leb_gt _ _)) by lia. cbn [orb]. rewrite Nat2Z.id, Hi.
  apply wp_bind. eapply wp_get_block; [exact Hb|]. by apply wp_ret.
Qed.

(** The socket of the entry [i] after an attempt to open it. *)
Definition open_post s (i : nat) (fam type proto : Z) (r : Z) s' : Prop :=
  table_ok s' ∧ others_kept s s' i ∧ sal_core_lock s' = sal_core_lock s ∧
  ∃ k, view s' i = Some k ∧ numbered_socket i k ∧
    (r = -1 ∨
     r = Z.of_nat i ∧ 0 <= skt_data k ∧ domain k = fam ∧ skt_type k = type ∧ protocol k = proto ∧
       is_Some (skt_netdev k)).

Lemma wp_open s i k fam type proto : table_ok s → view s i = Some k → numbered_socket i k →
  wp (sal_socket_open (Z.of_nat i) fam type proto) (open_post s i fam type proto) s.
Proof.
  intros Ht Hv Hk. destruct (view_entry _ _ _ Hv) as (b & Hi & Hb).
  assert (at_entry s i b k) as He by (by split_and!). unfold sal_socket_open. apply wp_bind.
  eapply wp_get_entry; [exact He|]. rewrite (proj2 (Z.eqb_eq _ _)) by apply Hk.
  apply wp_bind. eapply wp_mono; [by eapply wp_socket_init|].
  intros r s1 (k1 & He1 & Hn1 & Ho1 & Hb1 & Hl1 & Hcase).
  assert (open_post s i fam type proto (-1) s1) as Hfail.
  { split_and!; [apply He1|done..|]. exists k1. split; [by eapply at_entry_view|]. split; [done|by left]. }
  destruct Hcase as [Hr|(-> & Hf & Hty & Hpr & d & Hd & Hsv)].
  { decide_if (r <? 0) true. by apply wp_ret. }
  cbn [Z.ltb Z.compare]. apply wp_bind. eapply wp_get_block; [apply He1|]. rewrite Hd. apply wp_bind.
  eapply wp_ops_of; [exact Hsv|]. intros pf o Hpf Ho Hfam. destruct (skt_socket o) as [f|] eqn:Ef; [|by apply wp_ret].
  apply wp_bind. eapply wp_below; [eapply socket_law; [apply He1|done..]|]. intros p dd Hinv.
  assert (at_entry (s1 <| below := dd |>) i b k1) as He2.
  { destruct He1 as (? & ? & ?). split_and!; [by apply table_below|done..]. }
  destruct (Z.leb_spec 0 p) as [Hp|Hp].
  - apply wp_bind. eapply wp_set; [exact He2|exact Hn1|]. intros s3 He3 Ho3 _ Hl3.
    apply wp_bind. eapply wp_get_block; [apply He3|]. apply wp_ret.
    split_and!; [apply He3| |by rewrite Hl3|].
    { eapply others_trans; [exact Ho1|]. exact Ho3. }
    eexists. split; [eapply at_entry_view, He3|]. split; [done|]. right.
    split; [apply Hn1|]. split; [done|]. split_and!; [done..|]. by exists d.
  - apply wp_ret. split_and!; [apply He2|exact Ho1|done|]. exists k1.
    split; [by eapply at_entry_view|]. split; [done|by left].
Qed.
Lemma wp_sal_socket s fam type proto : table_ok s →
  wp (sal_socket fam type proto) (λ r s', table_ok s' ∧ sal_core_lock s' = sal_core_lock s ∧
    (r = -1 ∧ refused s s' ∨
     ∃ i, (i < SAL_SOCKETS_NUM)%nat ∧ first_free s i ∧ others_kept s s' i ∧ open_post s i fam type proto r s')) s.
Proof.
  intros Ht. unfold sal_socket. apply wp_bind. eapply wp_mono; [by apply wp_socket_new|].
  intros r s1 (Ht1 & _ & Hl1 & Hcase). destruct Hcase as [[-> Hr]|(i & k & -> & Hi & Hf & Ho & Hv & Hk)].
  { cbn [Z.ltb Z.compare]. apply wp_ret. split; [done|]. split; [done|]. by left. }
  decide_if (Z.of_nat i <? 0) false. destruct Hk as (Hm & Hn & _).
  eapply wp_mono; [by eapply wp_open|].
  intros r s2 (Ht2 & Ho2 & Hl2 & Hk2). assert (others_kept s s2 i) as Ho' by (by eapply others_trans).
  split; [done|]. split; [congruence|]. right. exists i. split_and!; [done..|]. split_and!; [done..|congruence|done].
Qed.

(** ** Closing *)

Lemma table_delete s i b : table_ok s → sockets s !! i = Some (Some b) →
  let s' := s <| blocks := delete b (blocks s) |> <| sockets := <[i := None]> (sockets s) |> in
  table_ok s' ∧ sockets s' !! i = Some None ∧ others_kept s s' i.
Proof.
  intros [H1 H2 H3 H4 H5 H6] Hi s'. pose proof (lookup_lt_Some _ _ _ Hi) as Hlt.
  assert (sockets s' !! i = Some None) as Hi' by (cbn; by apply list_lookup_insert_eq).
  assert (∀ j, j ≠ i → sockets s' !! j = sockets s !! j) as Hj by (intros j ?; cbn; by apply list_lookup_insert_ne).
  assert (∀ j c, sockets s' !! j = Some (Some c) → sockets s !! j = Some (Some c) ∧ c ≠ b) as Hold.
  { intros j c Hc. destruct (decide (j = i)) as [->|Hji]; [congruence|]. rewrite Hj in Hc by done.
    split; [done|]. intros ->. by apply Hji, (H3 _ _ b). }
  split_and!; [split|done|].
  - cbn. by rewrite length_insert.
  - intros j c [Hc Hcb]%Hold. change (blocks s') with (delete b (blocks s)).
    rewrite lookup_delete_ne by done. eauto.
  - intros j l c [? _]%Hold [? _]%Hold. eauto.
  - intros c. change (blocks s') with (delete b (blocks s)). destruct (decide (b = c)) as [<-|Hbc].
    { rewrite lookup_delete_eq. by intros [? ?]. }
    rewrite lookup_delete_ne by done. intros Hk. destruct (H4 c Hk) as [j Hcj]. exists j.
    rewrite Hj; [done|]. intros ->. congruence.
  - intros c [k Hk]. change (blocks s') with (delete b (blocks s)) in Hk. apply lookup_delete_Some in Hk as [_ Hk]. apply H5. eauto.
  - exact H6.
  - intros j Hji. unfold view. rewrite Hj by done. destruct (sockets s !! j) as [[c|]|] eqn:Ec; [|done..].
    change (blocks s') with (delete b (blocks s)). rewrite lookup_delete_ne; [done|]. intros ->.
    by apply Hji, (H3 _ _ c).
Qed.

(** The number [i] is closed: its memory is free, and nobody may use the number. *)
Definition closed_post s (i b : nat) s' : Prop :=
  table_ok s' ∧ others_kept s s' i ∧ sal_core_lock s' = sal_core_lock s ∧ view s' i = None ∧
  blocks s' = delete b (blocks s) ∧ sal_get_socket (Z.of_nat i) s' = Fault NullDeref.

Lemma wp_closesocket_sal s i b k d pf o g f (R : D → Prop) :
  at_entry s i b k → numbered_socket i k → skt_netdev k = Some d →
  sal_user_data (below s) d = Some pf → skt_ops pf = Some o → skt_socket o = Some g → skt_closesocket o = Some f →
  wp (f (skt_data k)) (λ _ w, sal_inv w ∧ R w) (below s) →
  (∀ w, sal_inv w → R w → wp sal_release (λ _, R) w) →
  wp (sal_closesocket (Z.of_nat i)) (λ r s', (r = 0 ∨ r = -1) ∧ closed_post s i b s' ∧ R (below s')) s.
Proof.
  intros He [Hm Hn] Hd Hpf Ho Hg Hf Hcall Hrel. unfold sal_closesocket, close_with. apply wp_bind.
  eapply wp_get_entry; [exact He|]. rewrite (proj2 (Z.eqb_eq _ _)) by done. apply wp_bind.
  eapply wp_get_block; [apply He|]. rewrite Hd. unfold ops_of. apply wp_bind, wp_bind, wp_gets.
  rewrite Hpf, Ho. apply wp_ret. rewrite Hg. apply wp_bind. unfold call_unchecked. rewrite Hf.
  eapply wp_below; [exact Hcall|]. intros r w [Hw HR]. destruct He as (Ht & Hi & Hb).
  apply wp_bind. unfold free_socket. apply wp_bind. eapply wp_below.
  { apply wp_conj; [by apply sal_release_law|by apply Hrel]. }
  intros [] w2 [[_ Hw2] HR2]. apply wp_modify, wp_ret. split; [case_if; auto|]. split; [|exact HR2].
  rewrite Nat2Z.id. destruct (table_delete _ i b (table_below _ _ (table_below _ _ Ht Hw) Hw2) Hi) as (Ht3 & Hi3 & Ho3).
  split; [exact Ht3|]. split; [exact Ho3|]. split; [done|]. split; [|split; [done|]].
  - unfold view. rewrite Hi3. done.
  - unfold sal_get_socket, mbind, io_bind, gets. pose proof (lookup_lt_Some _ _ _ Hi3).
    decide_if (Z.of_nat i <? 0) false. rewrite (proj2 (Z.leb_gt _ _)) by lia. cbn [orb].
    rewrite Nat2Z.id, Hi3. done.
Qed.

Lemma entry_of s i k : table_ok s → view s i = Some k → skt_magic k = SAL_SOCKET_MAGIC →
  ∃ b, at_entry s i b k ∧ numbered_socket i k.
Proof.
  intros Ht Hv Hm. destruct (view_entry _ _ _ Hv) as (b & Hi & Hb). exists b. split; [by split_and!|].
  destruct (tb_entry _ Ht _ _ Hi) as (k' & Hk' & Ht'). assert (k' = k) as -> by congruence.
  destruct Ht' as [?| ->]; done.
Qed.
End table.

(** * The properties of the table *)

(** C27.  The table owns its sockets.  [sal_socket] always returns.  It either leaves the
    sockets as they are, for want of an entry or of memory, or takes the first free entry
    and touches no other; what it returns is the number of that entry, with a socket of the
    family behind it, or -1.  Closing a number returns, frees its socket and no other, and
    the number may not be used before it is given out again: any operation on it goes
    through a null pointer. *)
Theorem sal_descriptors {D} `{SalLaws D} (s : sal D) : table_ok s →
  (∀ fam type proto, wp (sal_socket fam type proto) (λ r s', table_ok s' ∧
     (r = -1 ∧ (∀ j, view s' j = view s j) ∨
      ∃ i k, (i < SAL_SOCKETS_NUM)%nat ∧ first_free s i ∧ others_kept s s' i ∧ view s' i = Some k ∧
        (r = -1 ∨ r = Z.of_nat i ∧ 0 <= skt_data k ∧ busy s' i ∧
                  domain k = fam ∧ skt_type k = type ∧ protocol k = proto))) s) ∧
  (∀ i k d pf o g f, view s i = Some k → skt_magic k = SAL_SOCKET_MAGIC → skt_netdev k = Some d →
     sal_user_data (below s) d = Some pf → skt_ops pf = Some o →
     skt_socket o = Some g → skt_closesocket o = Some f →
     wp (f (skt_data k)) (λ _ w, sal_inv w) (below s) →
     wp (sal_closesocket (Z.of_nat i)) (λ r s', (r = 0 ∨ r = -1) ∧ table_ok s' ∧ others_kept s s' i ∧
       view s' i = None ∧ size (blocks s') = pred (size (blocks s)) ∧
       sal_get_socket (Z.of_nat i) s' = Fault NullDeref) s).
Proof.
  intros Ht. split.
  - intros fam type proto. eapply wp_mono; [by apply wp_sal_socket|].
    intros r s' (Ht' & _ & [[-> [Hv _]]|(i & Hi & Hf & Ho & _ & _ & _ & k & Hk & Hn & Hr)]); (split; [done|]).
    + by left.
    + right. exists i, k. split_and!; [done..|]. destruct Hr as [->|(-> & Hd & E1 & E2 & E3 & [d Hnd])]; [by left|right].
      split_and!; try done. by exists k, d.
  - intros i k d pf o g f Hv Hm Hd Hpf Ho Hg Hf Hcall. destruct (entry_of s i k Ht Hv Hm) as (b & He & Hn).
    eapply wp_mono; [eapply (wp_closesocket_sal s i b k d pf o g f (λ _, True)); [done..| |]|].
    { eapply wp_mono; [exact Hcall|done]. }
    { intros w Hw _. eapply wp_mono; [by apply sal_release_law|done]. }
    intros r s' (Hr & (H1 & H2 & _ & H4 & H5 & H6) & _). split_and!; try done. rewrite H5.
    destruct He as (_ & _ & Hb). rewrite map_size_delete, Hb. done.
Qed.

(** C28.  The entry is chosen under the lock of the layer but bound to its interface after
    the lock was given back.  Two threads that open sockets at the same time, the second one
    between the two steps of the first, get the same number, or one of them fails: no run
    gives them two sockets. *)
Theorem sal_socket_race {D} `{SalLaws D} (s : sal D) fam1 type1 proto1 fam2 type2 proto2 : table_ok s →
  wp (a ← socket_new;
      b ← socket_new;
      if (a <? 0) || (b <? 0) then mret None
      else
        ra ← sal_socket_open a fam1 type1 proto1;
        rb ← sal_socket_open b fam2 type2 proto2;
        mret (Some (a, b, ra, rb)))
    (λ r s', match r with
             | None => ∀ i, first_free s i → view s i = None
             | Some (a, b, ra, rb) => a = b ∧ (ra = -1 ∨ ra = a) ∧ (rb = -1 ∨ rb = a) ∧ table_ok s'
             end) s.
Proof.
  intros Ht. apply wp_bind. eapply wp_mono; [by apply wp_socket_new|].
  intros a s1 (Ht1 & _ & _ & Hcase). apply wp_bind. eapply wp_mono; [by apply wp_socket_new|].
  intros b s2 (Ht2 & _ & _ & Hcase2). destruct Hcase as [[-> Hr]|(i & k & -> & Hi & Hf & Ho & Hv & Hm & Hn & Hd)].
  { apply wp_ret, Hr. }
  assert (first_free s1 i) as Hf1.
  { eapply first_free_kept; [exact Ho| |exact Hf]. intros (k' & d & Hk' & Hd'). congruence. }
  destruct Hcase2 as [[_ [_ Hr2]]|(j & k2 & -> & _ & Hf2 & _ & Hv2 & Hm2 & Hn2 & _)].
  { specialize (Hr2 _ Hf1). congruence. }
  assert (j = i) as -> by (by eapply first_free_unique).
  decide_if (Z.of_nat i <? 0) false. cbn [orb]. apply wp_bind.
  eapply wp_mono; [by eapply wp_open|]. intros ra s3 (Ht3 & _ & _ & k3 & Hv3 & Hn3 & Hra).
  apply wp_bind. eapply wp_mono; [by eapply wp_open|]. intros rb s4 (Ht4 & _ & _ & k4 & _ & _ & Hrb).
  apply wp_ret. split; [done|]. split; [|split; [|done]].
  - destruct Hra as [?|(? & _)]; auto.
  - destruct Hrb as [?|(? & _)]; auto.
Qed.
