(* ===== verification/SalAt.v ===== *)
(** The socket abstraction layer over the sockets of the modem (Sal.v, AtLayer.v): what the
    table promises, what becomes of its numbers when the layer below renumbers its sockets,
    and the check of the internet connection. *)

From stdpp Require Import gmap.
From S2P Require Import Prelude CLib Event AtClient AtSocket AtParser Netdev AtDevice AtDeviceSpec AtLayer AtLayerSpec AtStream AtNames Sal SalSpec.

(** * The list of interfaces is not the driver's *)

Class NetLaws (D : Type) `{SocketOps D, NetWorld D} := {
  net_put d : drv_set_net (drv_net d) d = d;
  net_calloc d a d' : sys_calloc d = Ret (a, d') → drv_net d' = drv_net d;
  net_free d a d' : sys_free d = Ret (a, d') → drv_net d' = drv_net d;
  net_delay n d a d' : sys_delay n d = Ret (a, d') → drv_net d' = drv_net d;
  net_close i d a d' : ops_closesocket i d = Ret (a, d') → drv_net d' = drv_net d }.

Section kept.
Context {D : Type} `{NetLaws D}.
Implicit Types l : layer D.

Definition net_kept {A} (m : io (layer D) A) : Prop :=
  ∀ l a l', m l = Ret (a, l') → drv_net (drv l') = drv_net (drv l).

Lemma kept_bind {A B} (m : io (layer D) A) (k : A → io (layer D) B) :
  net_kept m → (∀ a, net_kept (k a)) → net_kept (mbind k m).
Proof.
  intros Hm Hk l b l' Hr. unfold mbind, io_bind in Hr. destruct (m l) as [[a l1]|] eqn:E; [|done].
  rewrite (Hk _ _ _ _ Hr). by eapply Hm.
Qed.
Lemma kept_ret {A} (a : A) : net_kept (mret a). Proof. intros l b l' Hr. by injection Hr as _ <-. Qed.
Lemma kept_fault {A} f : net_kept (io_fault f : io (layer D) A). Proof. intros l b l' Hr. done. Qed.
Lemma kept_gets {A} (f : layer D → A) : net_kept (gets f). Proof. intros l b l' Hr. by injection Hr as _ <-. Qed.
Lemma kept_modify (f : layer D → layer D) : (∀ l, drv (f l) = drv l) → net_kept (modify f).
Proof. intros Hf l b l' Hr. injection Hr as _ <-. by rewrite Hf. Qed.
Lemma kept_drv {A} (m : io D A) : (∀ d a d', m d = Ret (a, d') → drv_net d' = drv_net d) → net_kept (on_drv m).
Proof.
  intros Hm l a l' Hr. unfold on_drv in Hr. destruct (m (drv l)) as [[x d]|] eqn:E; [|done].
  injection Hr as _ <-. by eapply Hm.
Qed.
Lemma kept_get_sock i : net_kept (get_sock i).
Proof. intros l a l'. unfold get_sock. destruct (socks l !! i); [|done]. by intros [= _ <-]. Qed.
Lemma kept_upd i f : net_kept (upd_sock i f). Proof. by apply kept_modify. Qed.
Lemma kept_linked : net_kept linked.
Proof. intros l a l'. unfold linked. destruct (nodes _ _ _); [|done]. by intros [= _ <-]. Qed.
Lemma kept_set_link p n : net_kept (set_link p n). Proof. destruct p; [apply kept_upd|by apply kept_modify]. Qed.
Lemma kept_calloc : net_kept (on_drv sys_calloc). Proof. apply kept_drv, net_calloc. Qed.
Lemma kept_free : net_kept (on_drv sys_free). Proof. apply kept_drv, net_free. Qed.
End kept.

Create HintDb kept.
#[export] Hint Resolve kept_ret kept_fault kept_gets kept_get_sock kept_upd kept_linked kept_set_link
  kept_calloc kept_free : kept.
(** The structure of a program, down to its primitive steps. *)
Ltac kept :=
  repeat first [ match goal with |- ∀ _, _ => intro end | solve [eauto with kept] | apply kept_bind
               | case_match | (apply kept_modify; done) ].

Section operations.
Context {D : Type} `{NetLaws D}.

Lemma kept_alloc : net_kept alloc_socket_by_device.
Proof.
  unfold alloc_socket_by_device, make_lock, rt_slist_init, rt_slist_append, rt_slist_len. kept.
Qed.
#[local] Hint Resolve kept_alloc : kept.
Lemma kept_at_socket dom type proto : net_kept (at_socket dom type proto).
Proof. unfold at_socket, alloc_socket, AtSocket.rt_assert. kept. Qed.

Lemma kept_find socket n ids : net_kept (find_socket socket n ids).
Proof. revert n. induction ids as [|i ids IH]; intros n; cbn [find_socket]; kept. Qed.
Lemma kept_pkts ps : net_kept (delete_pkts ps).
Proof. induction ps as [|p ps IH]; cbn [delete_pkts]; unfold free_pkt, stale_read; kept. Qed.
Lemma kept_unlink i : net_kept (unlink i).
Proof. unfold unlink, rt_slist_remove. kept. Qed.
#[local] Hint Resolve kept_find kept_pkts kept_unlink : kept.

Lemma kept_delay n : net_kept (on_drv (sys_delay n)).
Proof. apply kept_drv. intros d a d'. apply net_delay. Qed.
Lemma kept_ops_close i : net_kept (on_drv (ops_closesocket i)).
Proof. apply kept_drv. intros d a d'. apply net_close. Qed.
#[local] Hint Resolve kept_delay kept_ops_close : kept.
Lemma kept_closesocket socket : net_kept (at_closesocket socket).
Proof. unfold at_closesocket, at_shutdown, at_get_socket, AtLayer.free_socket, at_recvpkt_all_delete. kept. Qed.
End operations.

(** * The family of the modem keeps the promises of the table *)

Lemma wp_kept {D} `{NetLaws D} {A} (m : io (layer D) A) (Q : A → layer D → Prop) (l : layer D) :
  net_kept m → wp m Q l → wp m (λ a l', Q a l' ∧ drv_net (drv l') = drv_net (drv l)) l.
Proof.
  intros Hm HQ. unfold wp in *. destruct (m l) as [[a l']|] eqn:E; [|done]. split; [done|]. by eapply Hm.
Qed.

Section family.
Context {D : Type} `{DriverLaws D}.

Lemma wp_at_socket_any (l : layer D) ids dom type proto : in_use l ids → dom = AF_AT ∨ dom = AF_INET →
  wp (at_socket dom type proto) (λ _ l', ∃ ids', in_use l' ids') l.
Proof.
  intros Hu Hdom. unfold at_socket. apply wp_bind.
  assert (((dom =? AF_AT) || (dom =? AF_INET)) = true) as Ea by (destruct Hdom as [-> | ->]; done).
  rewrite Ea. apply wp_ret.
  assert (∀ st, wp (sock ← alloc_socket;
    match sock with
    | None => mret (-1)
    | Some i =>
        upd_sock i (λ s, s <| sock_type := st |> <| sock_state := AT_SOCKET_OPEN |>) ;;
        s ← get_sock i; mret (descriptor s)
    end) (λ _ l', ∃ ids', in_use l' ids') l) as Hopen.
  { intros st. apply wp_bind. unfold alloc_socket. eapply wp_mono with (P := taken ids l).
    { apply wp_bind, wp_gets. destruct (ops_device (drv l)); [by apply wp_take|apply wp_ret; by left]. }
    intros [i|] l1.
    - intros (Hi & s & Ha & Hd & Hp & Hn & Hk). apply wp_bind. eapply added_upd; [exact Ha|done| |].
      { destruct Ha as (Hu1 & Hs1 & _). destruct (in_use_live _ _ i Hu1) as (s' & Hs' & Hl').
        - apply elem_of_app. right. by left.
        - assert (s' = s) as -> by congruence. exact Hl'. }
      intros l2 (Hu2 & Hs2 & _) _. apply wp_bind. eapply wp_get_sock; [exact Hs2|]. apply wp_ret. eauto.
    - intros Ht. apply wp_ret. destruct Ht as [[? _]|(i & s & _ & [? _] & _)]; eauto. }
  destruct (type =? SOCK_STREAM); [apply Hopen|]. destruct (type =? SOCK_DGRAM); [apply Hopen|].
  apply wp_ret. eauto.
Qed.
End family.

Section laws.
Context {D : Type} `{DriverLaws D, NameOps D, NetWorld D, !NetLaws D}.
Variable patience : nat.
Variable local_ipaddr : D → Z.
Variable at_device_get_by_ipaddr : Z → D → bool.

Abbreviation at_sockets := (at_socket_ops patience local_ipaddr at_device_get_by_ipaddr).
Abbreviation at_family := (at_inet_family patience local_ipaddr at_device_get_by_ipaddr).
#[local] Instance at_world : SalWorld (layer D) := at_sal_world patience local_ipaddr at_device_get_by_ipaddr.

Definition default_in_range (n : netstate) : Prop :=
  ∀ i, netdev_default n = Some i → (i < length (netdev_list n))%nat.
Definition at_inv (l : layer D) : Prop := (∃ ids, in_use l ids) ∧ default_in_range (drv_net (drv l)).

#[local] Program Instance at_sal_laws : SalLaws (layer D) := { sal_inv := at_inv }.
Next Obligation.
  intros l [[ids Hu] Hdef]. eapply wp_mono.
  - apply (wp_kept _ (λ _ l', in_use l' ids)); [apply kept_calloc|]. eapply wp_drv; [apply calloc_law|].
    intros a d _. by apply (in_use_drv l ids d).
  - intros a l' [Hu' Hn]. split; [by split|]. split; [by exists ids|]. by rewrite Hn.
Qed.
Next Obligation.
  intros l [[ids Hu] Hdef]. eapply wp_mono.
  - apply (wp_kept _ (λ _ l', in_use l' ids)); [apply kept_free|]. eapply wp_drv; [apply free_law|].
    intros a d _. by apply (in_use_drv l ids d).
  - intros a l' [Hu' Hn]. split; [by split|]. split; [by exists ids|]. by rewrite Hn.
Qed.
Next Obligation. intros l. cbn. rewrite net_put. by destruct l. Qed.
Next Obligation. intros l i [_ Hdef]. apply Hdef. Qed.
Next Obligation.
  intros l i pf o f dom type proto [[ids Hu] Hdef] [= <-] [= <-] [= <-] Hdom.
  eapply wp_mono; [apply wp_kept; [apply kept_at_socket|by eapply wp_at_socket_any]|].
  intros r l' [Hids Hn]. split; [done|]. by rewrite Hn.
Qed.

(** ** Closing a number *)

Lemma net_of_in_use (l l' : layer D) ids : in_use l' ids → drv_net (drv l') = drv_net (drv l) → at_inv l → at_inv l'.
Proof. intros Hu Hn [_ Hdef]. split; [by exists ids|]. by rewrite Hn. Qed.

(** [at_closesocket] on the number of the socket [i]. *)
Lemma wp_close_number (l : layer D) ids m i s : numbered l ids → ids !! m = Some i → socks l !! i = Some s → at_inv l →
  wp (at_closesocket (Z.of_nat m)) (λ _ l', at_inv l' ∧ removed l l' (delete m ids) i s) l.
Proof.
  intros Hnum Hm Hs Hinv.
  eapply wp_mono; [apply wp_kept; [apply kept_closesocket|by apply (wp_closesocket l ids m i s)]|].
  intros r l' [[Hrem _] Hn]. split; [|done]. eapply net_of_in_use; [apply Hrem|done|done].
Qed.

Lemma get_number (l : layer D) ids n : in_use l ids → (n < 8)%nat →
  at_get_socket (Z.of_nat n) l = Ret (ids !! n, l).
Proof.
  intros Hu Hn. rewrite (get_socket l ids) by (done || unfold INT32_MIN, INT32_MAX; lia).
  unfold at_position. decide_if (0 <=? Z.of_nat n) true. by rewrite Nat2Z.id.
Qed.

Lemma lookup_delete_above {A} (l : list A) m n : (m <= n)%nat → delete m l !! n = l !! S n.
Proof. intros Hmn. apply list_lookup_delete_ge. lia. Qed.

(** The table keeps the number that [at_socket] gave to a socket, but that layer
    renumbers its sockets: when a socket is closed, each one opened after it through the
    modem answers to the number of the next, and the last one to none. *)
Theorem sal_renumbered (s : sal (layer D)) ids i j ki kj d m n :
  table_ok s → numbered (below s) ids → i ≠ j →
  view s i = Some ki → skt_magic ki = SAL_SOCKET_MAGIC → skt_netdev ki = Some d → skt_data ki = Z.of_nat m →
  view s j = Some kj → skt_data kj = Z.of_nat n → (m < n < length ids)%nat →
  at_get_socket (skt_data kj) (below s) = Ret (ids !! n, below s) ∧
  wp (sal_closesocket (Z.of_nat i)) (λ r s', table_ok s' ∧ view s' i = None ∧ view s' j = Some kj ∧
    at_get_socket (skt_data kj) (below s') = Ret (ids !! S n, below s')) s.
Proof.
  intros Ht Hnum Hij Hvi Hmag Hnd Hm Hvj Hn Hlt. pose proof Hnum as [Hu _].
  assert (length ids <= 8)%nat as Hlen.
  { destruct Hu as (Hl & H8 & _). pose proof (linked_length _ _ Hl). lia. }
  split; [rewrite Hn; apply get_number; [done|lia]|].
  destruct (lookup_lt_is_Some_2 ids m) as [a Ha]; [lia|].
  destruct (in_use_live _ _ a Hu) as (sa & Hsa & _); [by eapply list_elem_of_lookup_2|].
  destruct (entry_of s i ki Ht Hvi Hmag) as (b & He & Hnk).
  eapply wp_mono.
  { eapply (wp_closesocket_sal s i b ki d _ _ _ _ (λ l, in_use l (delete m ids)) He Hnk Hnd);
      [reflexivity|reflexivity|reflexivity|reflexivity| |].
    - rewrite Hm. eapply wp_mono; [eapply (wp_close_number (below s) ids m a sa); [done..|apply Ht]|].
      intros r l' [? [? _]]. by split.
    - intros l Hinv Hl. eapply wp_drv; [apply free_law|]. intros r dd _. by apply (in_use_drv l). }
  intros r s' (_ & (Ht' & Ho & _ & Hvi' & _ & _) & Hu'). split; [done|]. split; [done|].
  split; [by rewrite Ho|]. rewrite Hn, (get_number _ _ _ Hu') by lia.
  rewrite lookup_delete_above by lia. done.
Qed.

(** ** The internet check *)

Lemma wp_check_closes (s : sal (layer D)) date d i rest j :
  wp free_work (λ _ s1,
    wp (internet_exchange date d at_family at_sockets)
      (λ r s2, r.1.2 = Z.of_nat (length (i :: rest)) ∧ r.2 = true ∧ numbered (below s2) (i :: rest ++ [j])) s1) s →
  wp (check_netdev_internet_up_work date true d) (λ _ s',
    in_use (below s') rest ∧ socks (below s') !! i = Some cleared_socket) s.
Proof.
  intros Hw. unfold check_netdev_internet_up_work. apply wp_bind, wp_gets, wp_bind.
  eapply wp_mono; [exact Hw|]. intros ? s1 Hex. apply wp_bind. cbn [sal_user_data at_world at_sal_world skt_ops at_inet_family].
  apply wp_bind. eapply wp_mono; [exact Hex|]. intros [[result sockfd] ok] s2 (Hfd & Hok & Hnum).
  cbn [fst snd] in Hfd, Hok. subst sockfd ok. apply wp_ret. cbn [fst snd].
  apply wp_bind. unfold on_net. eapply (wp_below _ (λ _ (l : layer D), ∃ dr, l = (below s2) <| drv := dr |>)); [cbn; eauto|].
  intros _ ? [dr ->]. set (l0 := (below s2) <| drv := dr |>).
  assert (numbered l0 (i :: rest ++ [j])) as Hnum0 by (destruct Hnum as [Hu Hk]; split; [by apply (in_use_drv _ _ dr)|exact Hk]).
  apply wp_bind. decide_if (0 <=? Z.of_nat (length (i :: rest))) true. unfold call_unchecked.
  cbn [skt_closesocket at_socket_ops]. apply wp_bind.
  assert ((i :: rest ++ [j]) !! length (i :: rest) = Some j) as Hj.
  { change (i :: rest ++ [j]) with ((i :: rest) ++ [j]). rewrite lookup_app_r, Nat.sub_diag by done. done. }
  destruct (in_use_live l0 _ j (proj1 Hnum0)) as (sj & Hsj & _); [by eapply list_elem_of_lookup_2|].
  eapply wp_below; [by apply (wp_closesocket l0 _ _ j sj Hnum0 Hj Hsj)|].
  intros _ l1 [_ Hlast]. apply wp_ret, wp_bind.
  assert (delete (length (i :: rest)) (i :: rest ++ [j]) = i :: rest) as Ed.
  { change (i :: rest ++ [j]) with ((i :: rest) ++ [j]). rewrite delete_middle. by rewrite app_nil_r. }
  rewrite Ed in Hlast. specialize (Hlast ltac:(cbn; rewrite length_app; cbn; lia)).
  destruct (in_use_live l1 _ i (proj1 Hlast)) as (si & Hsi & _); [by left|].
  eapply wp_below; [by apply (wp_closesocket l1 (i :: rest) 0 i si Hlast)|].
  intros _ l3 [(Hu3 & Hc & _) _]. apply wp_ret. by split.
Qed.

(** C29.  The check of the internet connection ends by closing the socket it opened, and then
    the socket 0, which is the first one the application has.  When the name of the server is
    not found, it closes through a variable that was never set. *)
Theorem internet_check_outcome (s : sal (layer D)) date d :
  (wp free_work (λ _ s1, ∃ l, at_gethostbyname (Some SAL_INTERNET_HOST) (below s1) = Ret (None, l)) s →
     check_netdev_internet_up_work date true d s = Fault Uninitialised) ∧
  (∀ i rest j,
     wp free_work (λ _ s1,
       wp (internet_exchange date d at_family at_sockets)
         (λ r s2, r.1.2 = Z.of_nat (length (i :: rest)) ∧ r.2 = true ∧ numbered (below s2) (i :: rest ++ [j])) s1) s →
     wp (check_netdev_internet_up_work date true d) (λ _ s',
       in_use (below s') rest ∧ socks (below s') !! i = Some cleared_socket) s).
Proof.
  split.
  - intros Hw. unfold check_netdev_internet_up_work.
    cbv beta iota delta [mbind io_bind family_of gets sal_user_data at_world at_sal_world].
    unfold wp in Hw. destruct (free_work s) as [[[] s1]|]; [|done]. destruct Hw as [l Hl].
    unfold internet_exchange, call_unchecked, on_below, zoom. cbn [skt_ops netdb_ops db_gethostbyname at_inet_family at_netdb_ops].
    unfold mbind, io_bind. rewrite Hl. reflexivity.
  - intros i rest j Hw. eapply wp_mono; [by eapply wp_check_closes|done].
Qed.
End laws.

(** * The modem *)

Lemma client_net {W A} (m : io (world W) A) (d : device W) a d' :
  on_client m d = Ret (a, d') → net d' = net d.
Proof. unfold on_client, zoom. destruct (m (client d)) as [[? ?]|]; [|done]. by intros [= _ <-]. Qed.

#[export] Program Instance device_net_laws {W} `{Modem W, Board W, Arrivals W} : NetLaws (device W) := {}.
Next Obligation. intros W ? ? ? d. by destruct d. Qed.
Next Obligation. intros W ? ? ? d a d'. apply client_net. Qed.
Next Obligation. intros W ? ? ? d a d'. apply client_net. Qed.
Next Obligation. intros W ? ? ? n d a d'. apply client_net. Qed.
Next Obligation. intros W ? ? ? i d a d'. apply client_net. Qed.

(** * Concrete runs *)

Lemma nodes_seg ss : ∀ fuel p ids, nodes fuel ss p = Some ids → seg ss p ids None.
Proof.
  intros fuel. induction fuel as [|fuel IH]; intros [i|] ids Hn; cbn in Hn; try done; try (by injection Hn as <-).
  destruct (ss !! i) as [s|] eqn:Es; [|done]. cbn in Hn.
  destruct (nodes fuel ss (next s)) as [l|] eqn:El; [|done]. injection Hn as <-. cbn. split; [done|]. eauto.
Qed.

(** A test of [numbered], for sockets without packets. *)
Definition entry_ok (ids : list nat) (i : nat) (s : at_socket_t) : bool :=
  if decide (i ∈ ids) then
    (AtLayer.magic s =? AT_SOCKET_MAGIC) && (user_data s =? Z.of_nat i) &&
    bool_decide (recvpkt_list s = []) && bool_decide (ids !! Z.to_nat (descriptor s) = Some i) && (0 <=? descriptor s)
  else AtLayer.magic s =? 0.
Definition numbered_test {D} (l : layer D) (ids : list nat) : bool :=
  bool_decide (nodes 8 (socks l) (socket_list l) = Some ids) && bool_decide (NoDup ids) &&
  (length (socks l) <=? 8)%nat && forallb id (imap (entry_ok ids) (socks l)).

Lemma numbered_test_ok {D} `{SocketOps D} (l : layer D) ids : numbered_test l ids = true → numbered l ids.
Proof.
  unfold numbered_test. rewrite !andb_true_iff, !bool_decide_eq_true. intros [[[Hn Hnd] Hlen%Nat.leb_le] Hall].
  assert (∀ i s, socks l !! i = Some s → entry_ok ids i s = true) as He.
  { intros i s Hs. rewrite forallb_forall in Hall. apply (Hall (entry_ok ids i s)).
    apply list_elem_of_In, list_elem_of_lookup. exists i. by rewrite list_lookup_imap, Hs. }
  split.
  - split_and!; [split; [by eapply nodes_seg|done]|done|]. intros i s Hs. specialize (He i s Hs). unfold entry_ok in He.
    destruct (decide (i ∈ ids)); [|by apply Z.eqb_eq].
    rewrite !andb_true_iff, !bool_decide_eq_true in He. destruct He as [[[[Hm Hu] Hp] _] _].
    split_and!; [by apply Z.eqb_eq|by apply Z.eqb_eq|rewrite Hp; constructor].
  - intros k i s Hk Hs. specialize (He i s Hs). unfold entry_ok in He.
    rewrite decide_True in He by (by eapply list_elem_of_lookup_2).
    rewrite !andb_true_iff, !bool_decide_eq_true in He. destruct He as [[_ Hd] Hpos%Z.leb_le].
    pose proof (NoDup_lookup _ _ _ _ Hnd Hk Hd). lia.
Qed.

(** The layer on the board of AtStream.v; the device is looked up by its address there. *)
#[local] Instance station_sal : SalWorld (layer (device station)) :=
  at_sal_world 4 (λ _, 0) (λ _ _, true).
#[local] Instance station_laws : SalLaws (layer (device station)) := at_sal_laws 4 (λ _, 0) (λ _ _, true).

Definition fresh_sal (l : layer (device station)) : sal (layer (device station)) :=
  MkSal (replicate 4 None) ∅ 0 0 true [] l.
Definition open_socket (i : nat) (data : Z) : sal_socket_t :=
  MkSalSocket SAL_SOCKET_MAGIC (Z.of_nat i) AF_INET SOCK_STREAM 0 (Some 0%nat) data.
Definition two_sockets : layer (device station) :=
  MkLayer ((tcp_socket AT_SOCKET_CONNECT) <| next := Some 1%nat |> ::
           (tcp_socket AT_SOCKET_OPEN) <| descriptor := 1 |> <| user_data := 1 |> :: replicate 6 cleared_socket)
    (Some 0%nat) true 0 online.
Definition two_open : sal (layer (device station)) :=
  MkSal [Some 0%nat; Some 1%nat; None; None] (<[0%nat := open_socket 0 0]> (<[1%nat := open_socket 1 1]> ∅))
    2 0 true [] two_sockets.

Lemma default_online (l : layer (device station)) : net (drv l) = net online → default_in_range (drv_net (drv l)).
Proof. intros E i. cbn. rewrite E. cbn. intros [= <-]. lia. Qed.

Lemma fresh_ok l : at_inv l → table_ok (fresh_sal l).
Proof.
  intros Hl. split; cbn; try done.
  - unfold SAL_SOCKETS_NUM. lia.
  - intros i b Hi. by apply (lookup_replicate 4) in Hi as [? _].
  - intros i j b Hi. by apply (lookup_replicate 4) in Hi as [? _].
  - intros b [k Hk]. by rewrite lookup_empty in Hk.
  - intros b [k Hk]. by rewrite lookup_empty in Hk.
Qed.

Lemma two_numbered : numbered two_sockets [0; 1]%nat.
Proof. apply numbered_test_ok. by vm_compute. Qed.

Lemma two_at (l : layer (device station)) : numbered l [0; 1]%nat → net (drv l) = net online → at_inv l.
Proof. intros [Hu _] Hn. split; [by exists [0; 1]%nat|by apply default_online]. Qed.

Lemma two_ok : table_ok two_open.
Proof.
  assert (∀ i b, sockets two_open !! i = Some (Some b) → (i < 2)%nat ∧ b = i) as Hent.
  { intros [|[|[|[|i]]]] b Hi; cbn in Hi; try done; injection Hi as <-; split; (done || lia). }
  assert (∀ b, is_Some (blocks two_open !! b) → (b < 2)%nat) as Hdom.
  { intros b [k Hk]. cbn in Hk. apply lookup_insert_Some in Hk as [[<- _]|[_ Hk]]; [lia|].
    apply lookup_insert_Some in Hk as [[<- _]|[_ Hk]]; [lia|]. by rewrite lookup_empty in Hk. }
  split; [cbn; unfold SAL_SOCKETS_NUM; lia|..].
  - intros i b [Hi ->]%Hent. destruct i as [|[|]]; [| |lia]; eexists; (split; [reflexivity|by left]).
  - intros i j b [_ ->]%Hent [_ Hj]%Hent. done.
  - intros b Hb%Hdom. exists b. destruct b as [|[|]]; [done|done|lia].
  - intros b Hb%Hdom. done.
  - by apply (two_at two_sockets), eq_refl; apply two_numbered.
Qed.

Lemma sal_renumbered_witness :
  table_ok two_open ∧ at_get_socket 1 (below two_open) = Ret (Some 1%nat, below two_open) ∧
  wp (sal_closesocket 0) (λ _ s', at_get_socket 1 (below s') = Ret (None, below s')) two_open.
Proof.
  split; [exact two_ok|].
  destruct (sal_renumbered 4 (λ _, 0) (λ _ _, true) two_open [0; 1]%nat 0 1 (open_socket 0 0) (open_socket 1 1) 0 0 1)
    as [H1 H2]; [exact two_ok|exact two_numbered|done|reflexivity|reflexivity|reflexivity|reflexivity|reflexivity
                |reflexivity|cbn; lia|].
  split; [exact H1|]. refine (wp_mono _ _ _ _ H2 _). intros r s' (_ & _ & _ & Hg). exact Hg.
Defined.

Lemma sal_descriptors_witness :
  table_ok two_open ∧ wp (sal_socket AF_INET SOCK_STREAM 0) (λ _ s', table_ok s') two_open ∧
  wp (sal_closesocket 1) (λ _ s', sal_get_socket 1 s' = Fault NullDeref) two_open.
Proof.
  split; [exact two_ok|]. destruct (sal_descriptors two_open two_ok) as [Hopen Hclose]. split.
  - refine (wp_mono _ _ _ _ (Hopen AF_INET SOCK_STREAM 0) _). intros r s' [Ht _]. exact Ht.
  - refine (wp_mono _ _ _ _ (Hclose 1%nat (open_socket 1 1) 0%nat _ _ _ _
      eq_refl eq_refl eq_refl eq_refl eq_refl eq_refl eq_refl _) _).
    + eapply wp_mono; [eapply (wp_close_number two_sockets [0; 1]%nat 1 1); [exact two_numbered|reflexivity|reflexivity|]|].
      * by apply (two_at two_sockets two_numbered).
      * intros r l' [Hl _]. exact Hl.
    + intros r s' (_ & _ & _ & _ & _ & Hg). exact Hg.
Defined.

Lemma sal_socket_race_witness :
  table_ok two_open ∧
  wp (a ← socket_new;
      b ← socket_new;
      if (a <? 0) || (b <? 0) then mret None
      else
        ra ← sal_socket_open a AF_INET SOCK_STREAM 0;
        rb ← sal_socket_open b AF_INET SOCK_DGRAM 0;
        mret (Some (a, b, ra, rb)))
    (λ r _, match r with None => True | Some (a, b, _, _) => a = b end) two_open.
Proof.
  split; [exact two_ok|].
  refine (wp_mono _ _ _ _ (sal_socket_race two_open AF_INET SOCK_STREAM 0 AF_INET SOCK_DGRAM 0 two_ok) _).
  intros [[[[a b] ra] rb]|] s' H; [exact (proj1 H)|exact I].
Defined.

(** The client is connected on the socket 0; then the connection is checked. *)
Definition client_open : sal (layer (device station)) :=
  MkSal [Some 0%nat; None; None; None] (<[0%nat := open_socket 0 0]> ∅) 1 0 true [0%nat] one_socket.

Lemma wp_test {W A B} (m : io W A) (k : A → io W B) (t : B → W → bool) (w : W) :
  match mbind k m w with Ret (r, w') => t r w' | Fault _ => false end = true →
  wp m (λ a w1, wp (k a) (λ r w', t r w' = true) w1) w.
Proof.
  unfold wp, mbind, io_bind. destruct (m w) as [[a w1]|]; [|done]. by destruct (k a w1) as [[r w']|].
Qed.

Definition exchanged (r : Z * Z * bool) (s : sal (layer (device station))) : bool :=
  (r.1.2 =? 1) && r.2 && numbered_test (below s) [0; 1]%nat.

Lemma exchange_numbered : wp free_work (λ _ s1,
  wp (internet_exchange (bytes "Jun 12 2021") 0 (at_inet_family 4 (λ _, 0) (λ _ _, true))
        (at_socket_ops 4 (λ _, 0) (λ _ _, true)))
     (λ r s2, r.1.2 = 1 ∧ r.2 = true ∧ numbered (below s2) [0; 1]%nat) s1) client_open.
Proof.
  eapply wp_mono.
  { apply (wp_test free_work (λ _, internet_exchange (bytes "Jun 12 2021") 0
      (at_inet_family 4 (λ _, 0) (λ _ _, true)) (at_socket_ops 4 (λ _, 0) (λ _ _, true))) exchanged). 
    vm_compute. reflexivity. }
  intros ? s1 H1. eapply wp_mono; [exact H1|]. intros r s2 H2. unfold exchanged in H2.
  apply andb_true_iff in H2 as [[Hn%Z.eqb_eq Hok]%andb_true_iff Ht].
  split; [exact Hn|]. split; [exact Hok|]. by apply numbered_test_ok.
Qed.

Lemma internet_check_outcome_witness :
  wp (check_netdev_internet_up_work (bytes "Jun 12 2021") true 0) (λ _ s',
    in_use (below s') [] ∧ socks (below s') !! 0%nat = Some cleared_socket) client_open.
Proof.
  exact (proj2 (internet_check_outcome 4 (λ _, 0) (λ _ _, true) client_open (bytes "Jun 12 2021") 0)
    0%nat [] 1%nat exchange_numbered).
Defined.

(** Evaluated: the modem is away while an application tries sixteen times to open a socket.
    Each attempt fails and keeps an entry; when the modem is back, its layer opens sockets,
    the table none. *)
Fixpoint attempts (n : nat) : io (sal (layer (device station))) (list Z) :=
  match n with
  | O => mret []
  | S n => r ← sal_socket AF_INET SOCK_STREAM 0; rs ← attempts n; mret (r :: rs)
  end.
Definition modem_present (b : bool) (l : layer (device station)) : layer (device station) :=
  l <| drv := (drv l) <| client := (client (drv l)) <| device_found := b |> |> |>.
Example table_exhausted :
  match (rs ← attempts 16; modify (λ s, s <| below := modem_present true (below s) |>) ;;
         a ← sal_socket AF_INET SOCK_STREAM 0; b ← on_below (at_socket AF_INET SOCK_STREAM 0);
         mret (rs, a, b)) (fresh_sal (modem_present false no_sockets)) with
  | Ret ((rs, a, b), s) => rs = replicate 16 (-1) ∧ a = -1 ∧ b = 0 ∧ length (sockets s) = 16%nat
  | Fault _ => False
  end.
Proof. vm_compute. done. Qed.

(** A number of an empty entry is not an error but a null pointer. *)
Example closed_twice :
  match (a ← sal_socket AF_INET SOCK_STREAM 0; b ← sal_closesocket a; c ← sal_closesocket a; mret (a, b, c))
          (fresh_sal no_sockets) with
  | Ret _ => False
  | Fault f => f = NullDeref
  end.
Proof. vm_compute. done. Qed.
