(* ===== verification/SalClient.v ===== *)
(** The cloud client (ClientServer.v) while an interface is checked for the internet
    (Sal.v): both work on the sockets of the modem, the client by their numbers there, and
    the check ends with closing number 0, which is the client's. *)

From stdpp Require Import gmap.
From S2P Require Import Prelude CLib Event AtClient AtSocket AtParser Netdev AtDevice AtDeviceSpec AtLayer AtLayerSpec AtStream AtNames ClientServer Sal SalSpec SalAt.

Section client.
Context {D : Type} `{DriverLaws D, NameOps D, NetWorld D, !NetLaws D}.
Variable patience : nat.
Variable local_ipaddr : D → Z.
Variable at_device_get_by_ipaddr : Z → D → bool.
Implicit Types (a : app D) (l : layer D).

#[local] Instance client_world : SalWorld (layer D) := at_sal_world patience local_ipaddr at_device_get_by_ipaddr.
Abbreviation families := (at_inet_family patience local_ipaddr at_device_get_by_ipaddr).
Abbreviation functions := (at_socket_ops patience local_ipaddr at_device_get_by_ipaddr).

(** The client on the sockets [l]. *)
Definition client_on (l : layer D) (a : app D) : app D := a <| ClientServer.sockets := l |>.

(** A client whose number stands for no socket. *)
Lemma client_idle l a cmd : at_get_socket (g_socket_id a) l = Ret (None, l) →
  a9g [cmd; bytes "post"] (client_on l a) = Ret (tt, client_on l a) ∧
  socket_receive patience (g_socket_id a) 384 (client_on l a) = Ret ((-1, []), client_on l a).
Proof.
  intros Hg. split.
  - change (a9g [cmd; bytes "post"]) with (g ← gets g_socket_id; socket_send g hello ;; mret tt : io (app D) unit).
    unfold socket_send, on_layer, zoom, gets, mbind, io_bind. cbn [client_on g_socket_id].
    change (at_send (g_socket_id a) hello 0) with (at_sendto (g_socket_id a) hello 0 None).
    unfold at_sendto. change hello with (104 :: tail hello). unfold mbind, io_bind. cbn -[at_get_socket]. unfold mbind, io_bind. by rewrite Hg.
  - unfold socket_receive, on_layer, zoom, at_recv, at_recvfrom, mbind, io_bind. cbn -[at_recvpkt_get]. by rewrite Hg.
Qed.

(** C32.  The check of the internet connection disconnects the cloud client.  When the client
    has the first socket, its number 0 stands for no socket after the check, or for the
    socket an application opened next: without one its posts send nothing and report
    nothing and its receive calls fail, until the next connect command; with one they go to
    that socket. *)
Theorem client_disconnected (s : sal (layer D)) date d i rest j a : g_socket_id a = 0 →
  wp free_work (λ _ s1,
    wp (internet_exchange date d families functions)
      (λ r s2, r.1.2 = Z.of_nat (length (i :: rest)) ∧ r.2 = true ∧ numbered (below s2) (i :: rest ++ [j])) s1) s →
  wp (check_netdev_internet_up_work date true d) (λ _ s',
    at_get_socket (g_socket_id a) (below s') = Ret (head rest, below s') ∧
    (rest = [] → ∀ cmd,
       a9g [cmd; bytes "post"] (client_on (below s') a) = Ret (tt, client_on (below s') a) ∧
       socket_receive patience (g_socket_id a) 384 (client_on (below s') a) = Ret ((-1, []), client_on (below s') a))) s.
Proof.
  intros Hg Hw. eapply wp_mono; [by eapply wp_check_closes|]. intros _ s' [Hu _].
  assert (at_get_socket (g_socket_id a) (below s') = Ret (head rest, below s')) as Hget.
  { rewrite Hg. change 0 with (Z.of_nat 0). rewrite (get_number _ _ _ Hu) by lia. by destruct rest. }
  split; [exact Hget|]. intros -> cmd. by apply client_idle.
Qed.
End client.

#[local] Existing Instance station_sal.

(** The client has just connected, on the socket 0. *)
Definition connected_client : app (device station) := MkApp one_socket 0 [].
Lemma client_disconnected_witness :
  wp (check_netdev_internet_up_work (bytes "Jun 12 2021") true 0) (λ _ s',
    a9g [bytes "a9g"; bytes "post"] (client_on (below s') connected_client) = Ret (tt, client_on (below s') connected_client))
    client_open.
Proof.
  eapply wp_mono; [exact (client_disconnected 4 (λ _, 0) (λ _ _, true) client_open (bytes "Jun 12 2021") 0 0%nat [] 1%nat
    connected_client eq_refl exchange_numbered)|].
  intros _ s' [_ H]. exact (proj1 (H eq_refl (bytes "a9g"))).
Defined.
