(* ===== verification/NetdevList.v ===== *)
(** The interfaces of netdev.c as the linked structures they are: registration, lookup and
    unregistration over the links of [netdev_list] (rtservice.h), which Netdev.v takes as a
    list.  The first half of the file shows that the links implement that list
    ([netdev_list_refines]), the second what [netdev_unregister] leaves of it.

    An interface is a pointer, a number; [net_cells] is the memory of the structures.  The
    link of a structure is its member [list]. *)

From stdpp Require Import gmap.
From S2P Require Import Prelude CLib Event AtClient Netdev AtDevice AtLayer Sal AtStream SalSpec SalAt.

Record net_cell : Type := MkNetCell { dev_of : netdev; next_of : option nat }.
#[global] Instance net_cell_eta : Eta net_cell := λ c, MkNetCell (dev_of c) (next_of c).

Record netlist : Type := MkNetlist {
  net_cells : gmap nat net_cell;
  head_of : option nat;
  default_of : option nat }.
#[global] Instance netlist_eta : Eta netlist := λ s, MkNetlist (net_cells s) (head_of s) (default_of s).

Definition get_cell (p : nat) : io netlist net_cell := λ s,
  match net_cells s !! p with Some c => Ret (c, s) | None => Fault Uninitialised end.
Definition upd_cell (p : nat) (f : net_cell → net_cell) : io netlist unit :=
  c ← get_cell p; modify (λ s, s <| net_cells := <[p := f c]> (net_cells s) |>).
Definition set_next (p : nat) (q : option nat) : io netlist unit := upd_cell p (λ c, c <| next_of := q |>).

(** The loops over the list visit each structure once. *)
Definition net_fuel (s : netlist) : nat := size (net_cells s).

(** The first structure from [p] on that passes the test. *)
Fixpoint find_cell (fuel : nat) (test : nat → netdev → bool) (p : option nat) : io netlist (option nat) :=
  match p with
  | None => mret None
  | Some i =>
      match fuel with
      | O => io_fault Blocked
      | S fuel =>
          c ← get_cell i;
          if test i (dev_of c) then mret (Some i) else find_cell fuel test (next_of c)
      end
  end.
Definition first_cell (test : nat → netdev → bool) : io netlist (option nat) :=
  fuel ← gets net_fuel; h ← gets head_of; find_cell fuel test h.

Definition netdev_get_first_by_flags (f : Z) : io netlist (option nat) := first_cell (λ _ n, flag_set n f).
Definition netdev_get_by_ipaddr (addr : Z) : io netlist (option nat) := first_cell (λ _ n, ip_addr n =? addr).
Definition netdev_get_by_name (nm : cstr) : io netlist (option nat) := first_cell (λ _ n, is_prefix (name n) nm).

(** [while (node->next) node = node->next]. *)
Fixpoint last_cell (fuel : nat) (i : nat) : io netlist nat :=
  c ← get_cell i;
  match next_of c with
  | None => mret i
  | Some j => match fuel with O => io_fault Blocked | S fuel => last_cell fuel j end
  end.
Definition rt_slist_append (l n : nat) : io netlist unit :=
  fuel ← gets net_fuel;
  t ← last_cell fuel l;
  set_next t (Some n) ;;
  set_next n None.

(** The search starts behind [l], so [l] itself is not found. *)
Fixpoint remove_from (fuel : nat) (i n : nat) : io netlist unit :=
  c ← get_cell i;
  match next_of c with
  | None => mret tt
  | Some j =>
      if (j =? n)%nat then cn ← get_cell j; set_next i (next_of cn)
      else match fuel with O => io_fault Blocked | S fuel => remove_from fuel j n end
  end.
Definition rt_slist_remove (l n : nat) : io netlist unit :=
  fuel ← gets net_fuel; remove_from fuel l n.

Definition netdev_register (p : nat) (nm : cstr) : io netlist Z :=
  if (RT_NAME_MAX <? length nm)%nat then io_fault OutOfBounds
  else
    upd_cell p (λ c, c <| dev_of := registered_netdev (dev_of c) nm |>) ;;
    set_next p None ;;
    h ← gets head_of;
    (match h with
     | None => modify (λ s, s <| head_of := Some p |> <| default_of := Some p |>)
     | Some h => rt_slist_append h p
     end) ;;
    mret RT_EOK.

Definition zero_netdev : netdev :=
  MkNetdev [] 0 0 0 (replicate NETDEV_DNS_SERVERS_NUM 0) 0 (replicate NETDEV_HWADDR_MAX_LEN 0) 0 0
    false false false.

(** [sal_netdev_cleanup] works on a state [W] of its own. *)
Section unregister.
Context {W : Type}.
Variable cleanup : nat → io W Z.

Definition on_list {A} : io netlist A → io (netlist * W) A := zoom fst (λ l w, (l, w.2)).
Definition on_sal {A} : io W A → io (netlist * W) A := zoom snd (λ x w, (w.1, x)).

(** The structure leaves the links, and the default interface its place. *)
Definition unlink_netdev (h p : nat) : io netlist unit :=
  ch ← get_cell h;
  (if (h =? p)%nat && bool_decide (next_of ch = None) then modify (λ s, s <| head_of := None |>)
   else rt_slist_remove h p) ;;
  def ← gets default_of;
  if bool_decide (def = Some p) then modify (λ s, s <| default_of := head_of s |>) else mret tt.

Definition netdev_unregister (p : nat) : io (netlist * W) Z :=
  h ← on_list (gets head_of);
  match h with
  | None => mret (- RT_ERROR)
  | Some h =>
      found ← on_list (first_cell (λ i _, (i =? p)%nat));
      match found with
      | None => mret (- RT_ERROR)
      | Some _ =>
          on_list (unlink_netdev h p) ;;
          on_sal (cleanup p) ;;
          on_list (upd_cell p (λ _, MkNetCell zero_netdev None)) ;;
          mret (- RT_ERROR)
      end
  end.
End unregister.

(** * The links *)

Abbreviation memory := (gmap nat net_cell).
Implicit Types (m : memory) (s : netlist) (ids : list nat).

(** The links from [p] to [q] through the structures [ids]. *)
Fixpoint chain m (p : option nat) ids (q : option nat) : Prop :=
  match ids with
  | [] => p = q
  | i :: ids => p = Some i ∧ ∃ c, m !! i = Some c ∧ chain m (next_of c) ids q
  end.

Lemma chain_app m p l1 l2 q : chain m p (l1 ++ l2) q ↔ ∃ r, chain m p l1 r ∧ chain m r l2 q.
Proof.
  revert p. induction l1 as [|i l1 IH]; intros p; cbn [chain app].
  - split; [by eauto|]. by intros (r & -> & ?).
  - split.
    + intros (-> & c & Hc & (r & H1 & H2)%IH). eauto 7.
    + intros (r & (-> & c & Hc & H1) & H2). split; [done|]. exists c. split; [done|]. apply IH. eauto.
Qed.

(** A structure that is not on the chain, or keeps its link. *)
Lemma chain_insert m p ids q i c : i ∉ ids ∨ (next_of <$> m !! i = Some (next_of c)) →
  chain m p ids q → chain (<[i := c]> m) p ids q.
Proof.
  intros Hi. revert p. induction ids as [|j ids IH]; intros p; cbn [chain]; [done|].
  intros (-> & d & Hd & Hl). split; [done|].
  assert (i ∉ ids ∨ next_of <$> m !! i = Some (next_of c)) as Hi'.
  { destruct Hi as [Hi|Hi]; [left|by right]. by apply not_elem_of_cons in Hi as []. }
  destruct (decide (i = j)) as [->|Hne].
  - exists c. rewrite lookup_insert_eq. split; [done|]. destruct Hi as [Hi|Hi]; [by apply not_elem_of_cons in Hi as []|].
    rewrite Hd in Hi. injection Hi as <-. by apply IH.
  - exists d. rewrite lookup_insert_ne by done. split; [done|]. by apply IH.
Qed.

Lemma chain_in m p ids q i : chain m p ids q → i ∈ ids → is_Some (m !! i).
Proof.
  revert p. induction ids as [|j ids IH]; intros p; [set_solver|].
  intros (-> & c & Hc & Hl) [->|Hi]%elem_of_cons; [by eexists|by eapply IH].
Qed.

Lemma chain_length m p ids q : chain m p ids q → NoDup ids → (length ids <= size m)%nat.
Proof.
  intros Hc Hn. rewrite <- size_dom, <- (size_list_to_set (C := gset nat)) by done.
  apply subseteq_size. intros i Hi%elem_of_list_to_set. apply elem_of_dom. by eapply chain_in.
Qed.

(** The end of a chain moved. *)
Lemma chain_relink m p ids t c q q' : NoDup (ids ++ [t]) → chain m p (ids ++ [t]) q → m !! t = Some c →
  chain (<[t := c <| next_of := q' |>]> m) p (ids ++ [t]) q'.
Proof.
  intros (_ & Ht & _)%NoDup_app (r & H1 & H2)%chain_app Hc. apply chain_app. exists r. split.
  - apply chain_insert; [|done]. left. intros ?. by eapply Ht, list_elem_of_singleton.
  - cbn in H2 |- *. destruct H2 as (-> & _). split; [done|]. eexists. by rewrite lookup_insert_eq.
Qed.

(** * The loops *)

Lemma wp_get_cell p (Q : net_cell → netlist → Prop) s c : net_cells s !! p = Some c → Q c s → wp (get_cell p) Q s.
Proof. intros Hc HQ. unfold wp, get_cell. by rewrite Hc. Qed.
Lemma wp_upd_cell p f (Q : unit → netlist → Prop) s c : net_cells s !! p = Some c →
  Q tt (s <| net_cells := <[p := f c]> (net_cells s) |>) → wp (upd_cell p f) Q s.
Proof. intros Hc HQ. apply wp_bind. eapply wp_get_cell; [done|]. by apply wp_modify. Qed.

Lemma wp_net_find s test : ∀ fuel p ids, chain (net_cells s) p ids None → (length ids <= fuel)%nat →
  wp (find_cell fuel test p) (λ r s', s' = s ∧ ∃ k, r = k ≫= (ids !!.) ∧
    match k with
    | None => Forall (λ i, ∃ c, net_cells s !! i = Some c ∧ test i (dev_of c) = false) ids
    | Some k => Forall (λ i, ∃ c, net_cells s !! i = Some c ∧ test i (dev_of c) = false) (take k ids) ∧
                ∃ i c, ids !! k = Some i ∧ net_cells s !! i = Some c ∧ test i (dev_of c) = true
    end) s.
Proof.
  intros fuel. induction fuel as [|fuel IH]; intros p [|i ids]; cbn [chain].
  1,3: intros -> _; apply wp_ret; split; [done|]; by exists None.
  { cbn. lia. }
  intros (-> & c & Hc & Hl) Hf. cbn [find_cell]. apply wp_bind. eapply wp_get_cell; [exact Hc|].
  destruct (test i (dev_of c)) eqn:Ht.
  - apply wp_ret. split; [done|]. exists (Some 0%nat). split; [done|]. split; [constructor|]. by exists i, c.
  - eapply wp_mono; [apply IH; [exact Hl|cbn in Hf; lia]|]. intros r s' (-> & k & -> & Hk). split; [done|].
    exists (S <$> k). destruct k as [k|]; (split; [done|]); cbn.
    + destruct Hk as [Hk Hi]. split; [|done]. constructor; [eauto|done].
    + constructor; [eauto|done].
Qed.

Lemma wp_last s : ∀ fuel i ids t, chain (net_cells s) (Some i) (ids ++ [t]) None → (length ids <= fuel)%nat →
  wp (last_cell fuel i) (λ r s', r = t ∧ s' = s) s.
Proof.
  intros fuel. induction fuel as [|fuel IH]; intros i [|j ids] t; cbn [chain app].
  2: cbn; lia.
  1,2: intros (E & c & Hc & Hn) _; injection E as <-; apply wp_bind; eapply wp_get_cell; [exact Hc|]; rewrite Hn;
    by apply wp_ret.
  intros (E & c & Hc & Hl) Hf. injection E as <-. cbn [last_cell]. apply wp_bind. eapply wp_get_cell; [exact Hc|].
  destruct (next_of c) as [j|]; [|by destruct ids; destruct Hl]. apply IH with ids; [done|cbn in Hf; lia].
Qed.

Lemma wp_net_remove s n : ∀ fuel i ids, chain (net_cells s) (Some i) (i :: ids) None → NoDup (i :: ids) →
  n ∉ ids → (length ids <= fuel)%nat → wp (remove_from fuel i n) (λ _ s', s' = s) s.
Proof.
  intros fuel. induction fuel as [|fuel IH]; intros i [|j ids] (_ & c & Hc & Hl) Hd Hn Hf; cbn [remove_from].
  2: cbn in Hf; lia.
  1,2: apply wp_bind; eapply wp_get_cell; [exact Hc|]; rewrite Hl; by apply wp_ret.
  apply wp_bind. eapply wp_get_cell; [exact Hc|]. pose proof Hl as (E & _). rewrite E.
  destruct (Nat.eqb_spec j n) as [->|_]; [set_solver|].
  apply IH with ids; [by rewrite <- E|by apply NoDup_cons in Hd as []|set_solver|cbn in Hf; lia].
Qed.

Lemma wp_remove_found s n cn : ∀ fuel i l1 l2, chain (net_cells s) (Some i) (i :: l1 ++ n :: l2) None →
  NoDup (i :: l1 ++ n :: l2) → net_cells s !! n = Some cn → (length l1 <= fuel)%nat →
  wp (remove_from fuel i n) (λ _ s', ∃ l t ct, i :: l1 = l ++ [t] ∧ net_cells s !! t = Some ct ∧
    s' = s <| net_cells := <[t := ct <| next_of := next_of cn |>]> (net_cells s) |>) s.
Proof.
  intros fuel. induction fuel as [|fuel IH]; intros i [|j l1] l2 (_ & c & Hc & Hl) Hd Hn Hf; cbn [remove_from].
  2: cbn in Hf; lia.
  1,2: apply wp_bind; eapply wp_get_cell; [exact Hc|]; destruct Hl as (E & _); rewrite E, Nat.eqb_refl;
    apply wp_bind; eapply wp_get_cell; [exact Hn|]; eapply wp_upd_cell; [exact Hc|]; by exists [], i, c.
  apply wp_bind. eapply wp_get_cell; [exact Hc|]. pose proof Hl as (E & _). rewrite E.
  apply NoDup_cons in Hd as [_ Hd]. destruct (Nat.eqb_spec j n) as [->|_].
  { apply NoDup_cons in Hd as [Hd _]. set_solver. }
  eapply wp_mono; [apply (IH j l1 l2); [by rewrite <- E|done|done|cbn in Hf; lia]|].
  intros _ s' (l & t & ct & El & Ht & ->). exists (i :: l), t, ct. by rewrite El.
Qed.

(** * Refinement of the list of Netdev.v *)

(** [l] are the interfaces [ids] of the memory. *)
Definition devs (v : gmap nat netdev) ids (l : list netdev) : Prop := Forall2 (λ i d, v !! i = Some d) ids l.

Lemma devs_insert v ids l p d : p ∉ ids → devs v ids l → devs (<[p := d]> v) ids l.
Proof.
  intros Hp Hv. induction Hv as [|i e ids l Hi Hv IH]; [constructor|]. apply not_elem_of_cons in Hp as [Hi' Hp].
  constructor; [by rewrite lookup_insert_ne|by apply IH].
Qed.

(** [ids] are the structures of the list, [n] the list that Netdev.v has for them. *)
Definition shows s ids (n : netstate) : Prop :=
  chain (net_cells s) (head_of s) ids None ∧ NoDup ids ∧
  devs (dev_of <$> net_cells s) ids (netdev_list n) ∧
  option_Forall2 (λ p k, ids !! k = Some p) (default_of s) (netdev_default n).

Lemma shows_fuel s ids n : shows s ids n → (length ids <= net_fuel s)%nat.
Proof. intros (Hc & Hd & _). by eapply chain_length. Qed.

Lemma wp_first s ids test : chain (net_cells s) (head_of s) ids None → NoDup ids →
  wp (first_cell test) (λ r s', s' = s ∧ ∃ k, r = k ≫= (ids !!.) ∧
    match k with
    | None => Forall (λ i, ∃ c, net_cells s !! i = Some c ∧ test i (dev_of c) = false) ids
    | Some k => Forall (λ i, ∃ c, net_cells s !! i = Some c ∧ test i (dev_of c) = false) (take k ids) ∧
                ∃ i c, ids !! k = Some i ∧ net_cells s !! i = Some c ∧ test i (dev_of c) = true
    end) s.
Proof.
  intros Hc Hd. apply wp_bind, wp_gets, wp_bind, wp_gets, wp_net_find; [done|by eapply chain_length].
Qed.

(** A search that stops at the first interface passing the test, at the position [k]. *)
Lemma first_refines (test : netdev → bool) (search : nat → list netdev → option nat) s ids n :
  (∀ k d l, search k (d :: l) = if test d then Some k else search (S k) l) → (∀ k, search k [] = None) →
  shows s ids n → first_cell (λ _ d, test d) s = Ret (search 0%nat (netdev_list n) ≫= (ids !!.), s).
Proof.
  intros Hcons Hnil (Hc & Hd & Hall & _).
  assert (∀ l ids' b, devs (dev_of <$> net_cells s) ids' l →
    ∀ k, (match k with
          | None => Forall (λ i, ∃ c, net_cells s !! i = Some c ∧ test (dev_of c) = false) ids'
          | Some k => Forall (λ i, ∃ c, net_cells s !! i = Some c ∧ test (dev_of c) = false) (take k ids') ∧
                      ∃ i c, ids' !! k = Some i ∧ net_cells s !! i = Some c ∧ test (dev_of c) = true
          end) → search b l = Nat.add b <$> k) as Hs.
  { intros l ids' b Hl. revert b. induction Hl as [|i d ids' l Hi Hl IH]; intros b k Hk; [|rewrite lookup_fmap in Hi].
    - destruct k as [k|]; [|by rewrite Hnil]. destruct Hk as (_ & ? & ? & ? & _). done.
    - rewrite Hcons. destruct k as [[|k]|]; cbn in Hk |- *.
      + destruct Hk as (_ & i' & c & E & Hc' & Ht). injection E as <-. rewrite Hc' in Hi. injection Hi as <-.
        rewrite Ht. f_equal. lia.
      + destruct Hk as [Hk Hex]. apply Forall_cons in Hk as [(c & Hc' & Ht) Hk]. rewrite Hc' in Hi. injection Hi as <-.
        rewrite Ht, (IH (S b) (Some k)); [cbn; f_equal; lia|done].
      + apply Forall_cons in Hk as [(c & Hc' & Ht) Hk]. rewrite Hc' in Hi. injection Hi as <-.
        by rewrite Ht, (IH (S b) None). }
  pose proof (wp_first s ids (λ _ d, test d) Hc Hd) as Hw. unfold wp in Hw.
  destruct (first_cell _ s) as [[r s']|]; [|done]. destruct Hw as (-> & k & -> & Hk).
  rewrite (Hs _ _ 0%nat Hall k Hk). by destruct k.
Qed.

Lemma wp_net_append s ids h p cp : chain (net_cells s) (Some h) ids None → NoDup ids → p ∉ ids →
  net_cells s !! p = Some cp →
  wp (rt_slist_append h p) (λ _ s', ∃ m, s' = s <| net_cells := m |> ∧ chain m (Some h) (ids ++ [p]) None ∧
    dev_of <$> m = dev_of <$> net_cells s) s.
Proof.
  intros Hc Hd Hp Hcp. destruct ids as [|t ids _] using rev_ind; [done|].
  destruct (chain_in _ _ _ _ t Hc) as [ct Hct]; [set_solver|].
  assert (t ≠ p) as Hne by set_solver.
  apply wp_bind, wp_gets, wp_bind. eapply wp_mono.
  { eapply wp_last; [exact Hc|]. pose proof (chain_length _ _ _ _ Hc Hd) as Hl. rewrite length_app in Hl. unfold net_fuel. lia. }
  intros r s' [-> ->]. apply wp_bind. eapply wp_upd_cell; [exact Hct|].
  eapply wp_upd_cell; [cbn; by rewrite lookup_insert_ne|].
  eexists. split; [reflexivity|]. split.
  - apply chain_app. exists (Some p). split.
    + apply chain_insert; [by left|]. by eapply chain_relink.
    + cbn. split; [done|]. eexists. by rewrite lookup_insert_eq.
  - cbn. rewrite !fmap_insert. cbn. rewrite insert_id; [|rewrite lookup_insert_ne by done; by rewrite lookup_fmap, Hcp].
    apply insert_id. by rewrite lookup_fmap, Hct.
Qed.

(** C30.  The links of netdev.c implement the list of interfaces.  The three searches find
    the structure at the position Netdev.v gives, or none, and registering a structure that
    is not on the list always returns, appends it and leaves every other interface and the
    default as registering does in Netdev.v. *)
Theorem netdev_list_refines s ids n : shows s ids n →
  (∀ f, netdev_get_first_by_flags f s = Ret (first_by_flags 0 (netdev_list n) f ≫= (ids !!.), s)) ∧
  (∀ a, netdev_get_by_ipaddr a s = Ret (first_by_ipaddr 0 (netdev_list n) a ≫= (ids !!.), s)) ∧
  (∀ nm, netdev_get_by_name nm s = Ret (first_by_name 0 (netdev_list n) nm ≫= (ids !!.), s)) ∧
  (∀ p c nm, p ∉ ids → net_cells s !! p = Some c → (length nm <= RT_NAME_MAX)%nat →
     wp (netdev_register p nm) (λ r s', r = RT_EOK ∧ ∃ n',
       Netdev.netdev_register (dev_of c) nm n = Ret (length ids, n') ∧ shows s' (ids ++ [p]) n' ∧
       delete p (dev_of <$> net_cells s') = delete p (dev_of <$> net_cells s)) s).
Proof.
  intros Hs. split; [|split; [|split]].
  - intros f. by apply (first_refines (λ d, flag_set d f) (λ k l, first_by_flags k l f)).
  - intros a. by apply (first_refines (λ d, ip_addr d =? a) (λ k l, first_by_ipaddr k l a)).
  - intros nm. by apply (first_refines (λ d, is_prefix (name d) nm) (λ k l, first_by_name k l nm)).
  - intros p c nm Hp Hcell Hnm. destruct Hs as (Hc & Hd & Hall & Hdef).
    unfold netdev_register, Netdev.netdev_register. rewrite (proj2 (Nat.ltb_ge _ _)) by done.
    apply wp_bind. eapply wp_upd_cell; [done|]. apply wp_bind. eapply wp_upd_cell; [cbn; apply lookup_insert_eq|].
    cbn. rewrite insert_insert_eq. set (reg := registered_netdev (dev_of c) nm). set (new := MkNetCell reg None).
    apply wp_bind, wp_gets, wp_bind. cbn.
    assert (chain (<[p := new]> (net_cells s)) (head_of s) ids None) as Hc1 by (apply chain_insert; [by left|done]).
    assert (devs (<[p := reg]> (dev_of <$> net_cells s)) (ids ++ [p]) (netdev_list n ++ [reg])) as Hall1.
    { apply Forall2_app; [by apply devs_insert|]. constructor; [apply lookup_insert_eq|constructor]. }
    pose proof (Forall2_length _ _ _ Hall) as Elen. destruct (head_of s) as [h|] eqn:Eh.
    + eapply wp_mono; [by refine (wp_net_append _ ids h p new _ Hd Hp (lookup_insert_eq _ _ _))|].
      intros _ s' (m & -> & Hm & Em). apply wp_ret. split; [done|]. eexists. split; [by rewrite Elen|].
      cbn in Em |- *. rewrite Em, fmap_insert. split.
      * assert (netdev_list n ≠ []) as Hne by (intros En; rewrite En in Elen; by destruct ids).
        split_and!; [cbn; rewrite Eh; done| | |].
        -- apply NoDup_app. split_and!; [done|set_solver|apply NoDup_singleton].
        -- cbn. by rewrite Em, fmap_insert.
        -- cbn. destruct (netdev_list n); [done|]. cbn. inversion Hdef as [q k Hk|]; constructor. by apply lookup_app_l_Some.
      * by rewrite !delete_insert_eq.
    + assert (ids = []) as -> by (destruct ids; [done|]; by destruct Hc as [? _]).
      apply wp_modify, wp_ret. split; [done|]. eexists. split; [by rewrite Elen|].
      destruct (netdev_list n) as [|] eqn:En; [|done]. cbn. rewrite fmap_insert. split; [|by rewrite !delete_insert_eq].
      split_and!; cbn.
      * split; [done|]. eexists. by rewrite lookup_insert_eq.
      * apply NoDup_singleton.
      * by rewrite fmap_insert.
      * by constructor.
Qed.

(** * Unregistering *)

(** What is left on the list when the structure between [l1] and [l2] is unregistered. *)
Definition remaining (p : nat) (l1 l2 : list nat) : list nat :=
  match l1, l2 with
  | [], [] => []
  | [], _ => [p]
  | _, _ => l1 ++ l2
  end.

Lemma wp_then_default (m : io netlist unit) (P : netlist → Prop) s p :
  wp m (λ _ s', default_of s' = default_of s ∧ P s') s →
  (∀ s' d, P s' → P (s' <| default_of := d |>)) →
  wp (m ;; def ← gets default_of;
      if bool_decide (def = Some p) then modify (λ s, s <| default_of := head_of s |>) else mret tt)
    (λ _ s', P s' ∧ default_of s' = if bool_decide (default_of s = Some p) then head_of s' else default_of s) s.
Proof.
  intros Hm Hset. apply wp_bind. eapply wp_mono; [exact Hm|]. intros _ s' [E HP]. apply wp_bind, wp_gets.
  rewrite <- E. destruct (bool_decide (default_of s' = Some p)).
  - apply wp_modify. cbn. split; [by apply Hset|done].
  - by apply wp_ret.
Qed.

(** The links while the structure still has its own. *)
Lemma wp_net_unlink s h p l1 l2 : head_of s = Some h → chain (net_cells s) (Some h) (l1 ++ p :: l2) None →
  NoDup (l1 ++ p :: l2) →
  wp (unlink_netdev h p) (λ _ s', dev_of <$> net_cells s' = dev_of <$> net_cells s ∧
    chain (net_cells s') (head_of s') (match l1 with [] => match l2 with [] => [] | _ => p :: l2 end | _ => l1 ++ l2 end) None ∧
    default_of s' = if bool_decide (default_of s = Some p) then head_of s' else default_of s) s.
Proof.
  intros Hh Hc Hd.
  assert (∃ ch, net_cells s !! h = Some ch) as [ch Hch].
  { destruct l1; destruct Hc as (E & c & Hc & _); injection E as ->; eauto. }
  unfold unlink_netdev. apply wp_bind. eapply wp_get_cell; [exact Hch|].
  eapply wp_mono; [eapply (wp_then_default _ (λ s', dev_of <$> net_cells s' = dev_of <$> net_cells s ∧
    chain (net_cells s') (head_of s') (match l1 with [] => match l2 with [] => [] | _ => p :: l2 end | _ => l1 ++ l2 end) None))|].
  2: done.
  2: intros _ s' [[H1 H2] H3]; done.
  destruct l1 as [|i l1].
  - destruct Hc as (E & c & Hc & Hl). injection E as ->. assert (c = ch) as -> by congruence.
    rewrite Nat.eqb_refl. cbn [andb]. destruct l2 as [|j l2].
    + rewrite bool_decide_true by done. by apply wp_modify.
    + rewrite bool_decide_false by (destruct Hl as [-> _]; done). cbn [app] in Hd.
      apply wp_bind, wp_gets. eapply wp_mono.
      { eapply (wp_net_remove s p (net_fuel s) p (j :: l2)); [split; eauto|done|by apply NoDup_cons in Hd as []|].
        pose proof (chain_length (net_cells s) (Some p) (p :: j :: l2) None ltac:(split; eauto) Hd) as Hlen.
        unfold net_fuel. cbn in Hlen |- *. lia. }
      intros _ s' ->. split; [done|]. split; [done|]. rewrite Hh. split; eauto.
  - cbn [app] in Hc, Hd. assert (i = h) as -> by (by destruct Hc as ([= ->] & _)).
    assert (h ≠ p) as Hne by (apply NoDup_cons in Hd as [Hn _]; set_solver).
    rewrite (proj2 (Nat.eqb_neq _ _) Hne). cbn [andb].
    destruct (chain_in _ _ _ _ p Hc) as [cn Hcn]; [set_solver|].
    apply wp_bind, wp_gets. eapply wp_mono.
    { eapply (wp_remove_found s p cn); [exact Hc|done|done|].
      pose proof (chain_length _ _ _ _ Hc Hd) as Hlen. unfold net_fuel. cbn in Hlen. rewrite length_app in Hlen. lia. }
    intros _ s' (l & t & ct & El & Hct & ->). cbn -[chain]. split; [done|]. split.
    + rewrite fmap_insert. apply insert_id. by rewrite lookup_fmap, Hct.
    + assert (∀ l', h :: l1 ++ l' = (l ++ [t]) ++ l') as El' by (intros l'; by rewrite <- El).
      rewrite Hh. rewrite El' in Hc, Hd |- *.
      apply chain_app in Hc as (r & H1 & H2). destruct H2 as (-> & c' & Hc' & H2). assert (c' = cn) as -> by congruence.
      apply NoDup_app in Hd as (Hd1 & Hd2 & _). apply chain_app. exists (next_of cn). split.
      * by eapply chain_relink.
      * apply chain_insert; [|done]. left. intros Ht. apply (Hd2 t); [set_solver|]. by right.
Qed.

Lemma unique_split (p : nat) l1 l2 l3 l4 :
  NoDup (l1 ++ p :: l2) → l1 ++ p :: l2 = l3 ++ p :: l4 → l3 = l1 ∧ l4 = l2.
Proof.
  revert l3. induction l1 as [|i l1 IH]; intros [|j l3]; cbn [app]; intros [Hn Hd]%NoDup_cons E.
  - by injection E as ->.
  - injection E as -> ->. set_solver.
  - injection E as -> <-. set_solver.
  - injection E as -> E. by destruct (IH l3 Hd E) as [-> ->].
Qed.

Lemma wp_on_list {W A} (m : io netlist A) (Q : A → netlist * W → Prop) s w :
  wp m (λ a s', Q a (s', w)) s → wp (on_list m) Q (s, w).
Proof. unfold wp, on_list, zoom. cbn. by destruct (m s) as [[a s']|]. Qed.
Lemma wp_on_sal {W A} (m : io W A) (Q : A → netlist * W → Prop) s w :
  wp m (λ a w', Q a (s, w')) w → wp (on_sal m) Q (s, w).
Proof. unfold wp, on_sal, zoom. cbn. by destruct (m w) as [[a w']|]. Qed.

(** [netdev_unregister] returns -1 whatever it does.  A structure that is not on the
    list leaves everything as it is.  One behind the head leaves the list, its memory is
    zero and the head takes its place as the default; so does the only one.  The head of a
    longer list is not removed: it stays the head with its memory and its link zero, and
    every other interface is lost, though its structure is as before. *)
Theorem netdev_unregister_outcome {W} (cleanup : nat → io W Z) (R : W → Prop) s ids p w :
  chain (net_cells s) (head_of s) ids None → NoDup ids → wp (cleanup p) (λ _, R) w →
  wp (netdev_unregister cleanup p) (λ r sw, r = - RT_ERROR ∧
    (p ∉ ids → sw = (s, w)) ∧
    (∀ l1 l2, ids = l1 ++ p :: l2 →
       R sw.2 ∧ chain (net_cells sw.1) (head_of sw.1) (remaining p l1 l2) None ∧
       net_cells sw.1 !! p = Some (MkNetCell zero_netdev None) ∧
       delete p (dev_of <$> net_cells sw.1) = delete p (dev_of <$> net_cells s) ∧
       default_of sw.1 = if bool_decide (default_of s = Some p) then head_of sw.1 else default_of s)) (s, w).
Proof.
  intros Hc Hd Hclean. apply wp_bind, wp_on_list, wp_gets. destruct (head_of s) as [h|] eqn:Eh.
  2: { apply wp_ret. assert (ids = []) as -> by (destruct ids; [done|]; by destruct Hc as [? _]).
       split; [done|]. split; [done|]. by intros [|? ?] ? ?. }
  apply wp_bind, wp_on_list. eapply wp_mono; [apply (wp_first s ids); [by rewrite Eh|done]|].
  intros r s' (-> & k & -> & Hk). destruct k as [k|].
  2: { apply wp_ret. split; [done|]. split; [done|]. intros l1 l2 ->. exfalso.
       rewrite Forall_forall in Hk. destruct (Hk p) as (c & _ & E); [set_solver|]. by rewrite Nat.eqb_refl in E. }
  destruct Hk as (_ & i & c & Hi & _ & ->%Nat.eqb_eq). cbn. rewrite Hi.
  destruct (list_elem_of_split ids p) as (l1 & l2 & ->); [by eapply list_elem_of_lookup_2|].
  apply wp_bind, wp_on_list. eapply wp_mono; [by apply (wp_net_unlink s h p l1 l2)|].
  intros _ s1 (Hdev & Hc1 & Hdef). apply wp_bind, wp_on_sal. eapply wp_mono; [exact Hclean|]. intros r' w' HR.
  destruct (chain_in _ _ _ _ p Hc) as [c0 Hc0]; [set_solver|].
  assert (is_Some (net_cells s1 !! p)) as [cp Hcp].
  { rewrite <- (fmap_is_Some dev_of), <- lookup_fmap, Hdev, lookup_fmap, Hc0. by eexists. }
  apply wp_bind, wp_on_list. eapply wp_upd_cell; [exact Hcp|]. apply wp_ret. split; [done|]. split; [set_solver|].
  intros l3 l4 E. assert (l3 = l1 ∧ l4 = l2) as [-> ->].
  { by eapply unique_split. }
  cbn -[chain]. split_and!; [done| | | |done].
  - destruct l1 as [|j l1]; [destruct l2; [done|]|].
    + destruct Hc1 as (-> & _). split; [done|]. eexists. by rewrite lookup_insert_eq.
    + apply chain_insert; [|done]. left. apply NoDup_app in Hd as (_ & Hd1 & [Hd2 _]%NoDup_cons).
      intros [Hp|Hp]%elem_of_app; [|done]. apply (Hd1 p Hp). by left.
  - by rewrite lookup_insert_eq.
  - rewrite fmap_insert, Hdev. by rewrite delete_insert_eq.
Qed.

(** ** Concrete lists *)

Definition named (nm : cstr) (fl : Z) : netdev := zero_netdev <| name := nm |> <| flags := fl |>.
(** The modem and a second interface, of which the modem is the default; the structure 2 is
    allocated. *)
Definition two_netdevs : netlist :=
  MkNetlist (<[0%nat := MkNetCell (named (bytes "a9g") NETDEV_FLAG_UP) (Some 1%nat)]>
             (<[1%nat := MkNetCell (named (bytes "e0") 0) None]>
             (<[2%nat := MkNetCell zero_netdev None]> ∅))) (Some 0%nat) (Some 0%nat).

Lemma two_netdevs_chain : chain (net_cells two_netdevs) (head_of two_netdevs) [0; 1]%nat None.
Proof. split; [done|]. eexists. split; [reflexivity|]. split; [done|]. eexists. by split. Qed.
Lemma two_netdevs_nodup : NoDup [0; 1]%nat.
Proof. by apply (bool_decide_unpack _). Qed.

Lemma netdev_list_refines_witness :
  netdev_get_by_name (bytes "e0") two_netdevs = Ret (Some 1%nat, two_netdevs) ∧
  wp (netdev_register 2 (bytes "w0")) (λ _ s', chain (net_cells s') (head_of s') [0; 1; 2]%nat None) two_netdevs.
Proof.
  destruct (netdev_list_refines two_netdevs [0; 1]%nat
    (MkNetstate [named (bytes "a9g") NETDEV_FLAG_UP; named (bytes "e0") 0] (Some 0%nat) [])) as (_ & _ & Hname & Hreg).
  - split; [exact two_netdevs_chain|]. split; [exact two_netdevs_nodup|]. split; [repeat constructor|by constructor].
  - split; [apply Hname|]. eapply wp_mono; [apply (Hreg 2%nat (MkNetCell zero_netdev None)); [|reflexivity|unfold RT_NAME_MAX; cbn; lia]|].
    + by apply (bool_decide_unpack _).
    + intros r s' (_ & n' & _ & (Hc & _) & _). exact Hc.
Defined.

(** No socket of the table uses the modem; the second interface is lost with it. *)
Lemma netdev_unregister_outcome_witness :
  wp (netdev_unregister (sal_netdev_cleanup (mret tt) 0) 0) (λ r sw,
    chain (net_cells sw.1) (head_of sw.1) [0]%nat None ∧ default_of sw.1 = Some 0%nat)
    (two_netdevs, fresh_sal no_sockets).
Proof.
  eapply wp_mono.
  { apply (netdev_unregister_outcome (sal_netdev_cleanup (mret tt) 0) (λ _, True) two_netdevs [0; 1]%nat 0 (fresh_sal no_sockets)
      two_netdevs_chain two_netdevs_nodup). vm_compute. exact I. }
  intros r sw (_ & _ & H). destruct (H [] [1%nat] eq_refl) as (_ & Hc & _ & _ & Hdef). cbn in Hdef.
  split; [exact Hc|]. rewrite Hdef. by destruct Hc as [-> _].
Defined.
