(* ===== verification/NetdevApi.v ===== *)
(** The requests an application makes of an interface (netdev.c): each is checked and passed
    to the driver, whose operations may be missing, and the commands of the shell that make
    them.  The last part is what they come to for the interface of the modem
    (at_device_a9g.c). *)

From stdpp Require Import gmap.
From S2P Require Import Prelude CLib Event AtClient AtParser Netdev AtDevice AtLayer Sal AtStream.

(** What the driver is told by its callers. *)
Definition netdev_low_level_set_netmask (d : nat) (addr : Z) : io netstate unit :=
  n ← get_netdev d;
  if netmask n =? addr then mret tt
  else
    upd_netdev d (λ n, n <| netmask := addr |>) ;;
    (if netdev_is_up n && netdev_is_link_up n && negb (ip_addr n =? 0)
     then Netdev.sal_check_netdev_internet_up d else mret tt) ;;
    callback addr_callback d NETDEV_CB_ADDR_NETMASK.
Definition netdev_low_level_set_gw (d : nat) (addr : Z) : io netstate unit :=
  n ← get_netdev d;
  if gw n =? addr then mret tt
  else
    upd_netdev d (λ n, n <| gw := addr |>) ;;
    (if netdev_is_up n && netdev_is_link_up n && negb (ip_addr n =? 0)
     then Netdev.sal_check_netdev_internet_up d else mret tt) ;;
    callback addr_callback d NETDEV_CB_ADDR_GATEWAY.

Definition netdev_set_status_callback (d : nat) : io netstate unit :=
  upd_netdev d (λ n, n <| status_callback := true |>).
Definition netdev_set_addr_callback (d : nat) : io netstate unit :=
  upd_netdev d (λ n, n <| addr_callback := true |>).

Record netdev_ops (W : Type) : Type := MkNetdevOps {
  set_up : option (nat → io W Z);
  set_down : option (nat → io W Z);
  set_addr_info : option (nat → option Z → option Z → option Z → io W Z);
  set_dns_server : option (nat → nat → Z → io W Z);
  set_dhcp : option (nat → bool → io W Z) }.
Arguments MkNetdevOps {W}.
Arguments set_up {W}. Arguments set_down {W}. Arguments set_addr_info {W}.
Arguments set_dns_server {W}. Arguments set_dhcp {W}.

(** [atoi] of the C library, [strtol] to the base of ten. *)
Definition atoi (s : cstr) : Z := (strtol s).1.

Section requests.
Context {W : Type} `{NetWorld W}.
(** [netdev->ops]. *)
Variable ops : nat → option (netdev_ops W).

Definition on_interfaces {A} : io netstate A → io W A := zoom drv_net drv_set_net.

Definition netdev_set_up (d : nat) : io W Z :=
  match ops d ≫= set_up with
  | None => mret (- RT_ERROR)
  | Some f =>
      n ← on_interfaces (get_netdev d);
      if netdev_is_up n then mret RT_EOK else f d
  end.
Definition netdev_set_down (d : nat) : io W Z :=
  match ops d ≫= set_down with
  | None => mret (- RT_ERROR)
  | Some f =>
      n ← on_interfaces (get_netdev d);
      if negb (netdev_is_up n) then mret RT_EOK else f d
  end.
Definition netdev_dhcp_enabled (d : nat) (is_enabled : bool) : io W Z :=
  match ops d ≫= set_dhcp with
  | None => mret (- RT_ERROR)
  | Some f =>
      n ← on_interfaces (get_netdev d);
      if Bool.eqb (netdev_is_dhcp_enabled n) is_enabled then mret RT_EOK else f d is_enabled
  end.

Definition netdev_set_ipaddr (d : nat) (a : Z) : io W Z :=
  match ops d ≫= set_addr_info with
  | None => mret (- RT_ERROR)
  | Some f =>
      n ← on_interfaces (get_netdev d);
      if netdev_is_dhcp_enabled n then mret (- RT_ERROR) else f d (Some a) None None
  end.
Definition netdev_set_netmask (d : nat) (a : Z) : io W Z :=
  match ops d ≫= set_addr_info with
  | None => mret (- RT_ERROR)
  | Some f =>
      n ← on_interfaces (get_netdev d);
      if netdev_is_dhcp_enabled n then mret (- RT_ERROR) else f d None (Some a) None
  end.
Definition netdev_set_gw (d : nat) (a : Z) : io W Z :=
  match ops d ≫= set_addr_info with
  | None => mret (- RT_ERROR)
  | Some f =>
      n ← on_interfaces (get_netdev d);
      if netdev_is_dhcp_enabled n then mret (- RT_ERROR) else f d None None (Some a)
  end.

(** [dns_server]: the variable the pointer leads to, a fault while it is not set. *)
Definition netdev_set_dns_server (d dns_num : nat) (dns_server : res Z) : io W Z :=
  if (NETDEV_DNS_SERVERS_NUM <=? dns_num)%nat then mret (- RT_ERROR)
  else
    match ops d ≫= set_dns_server with
    | None => mret (- RT_ERROR)
    | Some f => a ← lift dns_server; f d dns_num a
    end.

(** * The commands of the shell *)

(** One argument of [ifconfig]: a null pointer or no address is passed over. *)
Definition set_if_addr (text : option cstr) (set : Z → io W Z) : io W unit :=
  match text ≫= netdev_ip4addr_aton with
  | Some a => set a ;; mret tt
  | None => mret tt
  end.
Definition netdev_set_if (nm : cstr) (ip gateway mask : option cstr) : io W unit :=
  nd ← on_interfaces (netdev_get_by_name nm);
  match nd with
  | None => mret tt
  | Some d =>
      set_if_addr ip (netdev_set_ipaddr d) ;;
      set_if_addr gateway (netdev_set_gw d) ;;
      set_if_addr mask (netdev_set_netmask d)
  end.
(** Without arguments it prints the interfaces. *)
Definition netdev_ifconfig (argv : list cstr) : io W Z :=
  match argv with
  | [_; nm; ip; gateway; mask] => netdev_set_if nm (Some ip) (Some gateway) (Some mask) ;; mret 0
  | _ => mret 0
  end.

(** The result of [inet_aton] is not looked at. *)
Definition netdev_set_dns (nm : cstr) (dns_num : nat) (dns_server : cstr) : io W unit :=
  nd ← on_interfaces (netdev_get_by_name nm);
  match nd with
  | None => mret tt
  | Some d =>
      let dns_addr := match netdev_ip4addr_aton dns_server with Some a => Ret a | None => Fault Uninitialised end in
      netdev_set_dns_server d dns_num dns_addr ;; mret tt
  end.
Definition netdev_dns (argv : list cstr) : io W Z :=
  match argv with
  | [_] => mret 0
  | [_; nm; server] => netdev_set_dns nm 0 server ;; mret 0
  | [_; nm; num; server] =>
      netdev_set_dns nm (Z.to_nat (u8 (atoi num))) server ;; mret 0
  | _ => mret (-1)
  end.
End requests.

(** * The interface of the modem *)

Section modem.
Context {W : Type} `{Modem W, Board W}.
Variable patience : nat.

Definition a9g_netdev_ops : netdev_ops (device W) :=
  MkNetdevOps (Some a9g_netdev_set_up) (Some (a9g_netdev_set_down patience)) None (Some a9g_netdev_set_dns_server) None.
Definition modem_ops (d : nat) : option (netdev_ops (device W)) := Some a9g_netdev_ops.
End modem.

Section modem_requests.
Context {W : Type} `{Modem W, Board W}.
Variable patience : nat.
Implicit Types d : device W.

(** The requests agree with the calls of the kernel in AtDevice.v. *)
Lemma netdev_set_up_device nd d : netdev_set_up (modem_ops patience) nd d = AtDevice.netdev_set_up nd d.
Proof. done. Qed.
Lemma netdev_set_down_device nd d : netdev_set_down (modem_ops patience) nd d = AtDevice.netdev_set_down patience nd d.
Proof. done. Qed.

Lemma set_if_refused text d (set : Z → io (device W) Z) :
  (∀ a, set a d = Ret (- RT_ERROR, d)) → set_if_addr text set d = Ret (tt, d).
Proof.
  intros Hset. unfold set_if_addr. destruct (text ≫= netdev_ip4addr_aton) as [a|]; [|done].
  unfold mbind, io_bind. by rewrite Hset.
Qed.

Lemma by_name_found nm d :
  on_interfaces (netdev_get_by_name nm) d = Ret (first_by_name 0 (netdev_list (net d)) nm, d).
Proof. by destruct d. Qed.

(** What the driver of the modem has no operation for is refused, and nothing changes:
    its address, mask, gateway and address assignment.  [ifconfig] with an address therefore
    changes nothing, and still reports success.  A name server reaches the driver only with
    a number below two, taken modulo 256 from what was typed; a text that is no address
    reaches it as a variable that was never set. *)
Theorem modem_requests nd d :
  (∀ a, netdev_set_ipaddr (modem_ops patience) nd a d = Ret (- RT_ERROR, d) ∧
        netdev_set_netmask (modem_ops patience) nd a d = Ret (- RT_ERROR, d) ∧
        netdev_set_gw (modem_ops patience) nd a d = Ret (- RT_ERROR, d)) ∧
  (∀ on, netdev_dhcp_enabled (modem_ops patience) nd on d = Ret (- RT_ERROR, d)) ∧
  (∀ argv, netdev_ifconfig (modem_ops patience) argv d = Ret (0, d)) ∧
  (∀ cmd nm num text, first_by_name 0 (netdev_list (net d)) nm = Some nd →
     netdev_dns (modem_ops patience) [cmd; nm; num; text] d =
       if 2 <=? u8 (atoi num) then Ret (0, d)
       else match netdev_ip4addr_aton text with
            | None => Fault Uninitialised
            | Some a => (a9g_netdev_set_dns_server nd (Z.to_nat (u8 (atoi num))) a ;; mret 0) d
            end).
Proof.
  split; [done|]. split; [done|]. split.
  - intros argv. unfold netdev_ifconfig. do 5 (destruct argv as [|? argv]; [done|]). destruct argv; [|done].
    unfold netdev_set_if. unfold mbind, io_bind. rewrite by_name_found. destruct (first_by_name _ _ _) as [i|]; [|done].
    by rewrite !set_if_refused.
  - intros cmd nm num text Hnm. unfold netdev_dns, netdev_set_dns. unfold mbind, io_bind. rewrite by_name_found, Hnm.
    unfold netdev_set_dns_server. assert (0 <= u8 (atoi num)) as Hpos by (apply Z.mod_pos_bound; lia).
    destruct (2 <=? u8 (atoi num)) eqn:E; bool_prop.
    + by rewrite (proj2 (Nat.leb_le _ _)) by (unfold NETDEV_DNS_SERVERS_NUM; lia).
    + rewrite (proj2 (Nat.leb_gt _ _)) by (unfold NETDEV_DNS_SERVERS_NUM; lia).
      destruct (netdev_ip4addr_aton text) as [a|]; [|done]. cbn.
      unfold mbind, io_bind, lift. cbn. by destruct (a9g_netdev_set_dns_server _ _ _ _) as [[? ?]|].
Qed.
End modem_requests.

Lemma modem_requests_witness :
  first_by_name 0 (netdev_list (net online)) (bytes "a9g0") = Some 0%nat ∧
  netdev_dns (modem_ops 4) [bytes "dns"; bytes "a9g0"; bytes "256"; bytes "google"] online = Fault Uninitialised.
Proof.
  assert (first_by_name 0 (netdev_list (net online)) (bytes "a9g0") = Some 0%nat) as Hn by (vm_compute; reflexivity).
  split; [exact Hn|].
  rewrite (proj2 (proj2 (proj2 (modem_requests 4 0 online))) (bytes "dns") _ (bytes "256") (bytes "google") Hn).
  vm_compute. reflexivity.
Defined.
