(* ===== verification/WorkQueue.v ===== *)
(** The work queue of the kernel (rt-thread/components/drivers/src/workqueue.c), on which the
    socket layer checks the internet connection (Sal.v): a thread that takes works from a
    list, the calls that put them there, at once or when a timer expires, and those that
    take them back.

    A work is a block of memory, a number; [work_table] is the memory.  The flags of a work
    are the members [pending] and [submitting], its type is [delayed], [attached] is
    whether its member [workqueue] is the queue.  The thread of the queue runs in steps
    between which interrupts and other threads run; soft timers are not configured, so a
    timer expires in the interrupt of the tick, which no thread interrupts.  A thread that
    submits a work may be interrupted between the end of the critical section, where the
    work is on the list, and its call of [rt_thread_resume]; [resuming] counts the threads
    that are there. *)

From stdpp Require Import gmap.
From S2P Require Import Prelude Event Sem.

(** [work_timer]: the ticks of the timer, when it is active. *)
Record rt_work : Type := MkWork {
  pending : bool;
  submitting : bool;
  delayed : bool;
  attached : bool;
  work_timer : option Z }.
#[global] Instance rt_work_eta : Eta rt_work := λ k,
  MkWork (pending k) (submitting k) (delayed k) (attached k) (work_timer k).

(** [rt_work_init]. *)
Definition rt_work_init : rt_work := MkWork false false false false None.

(** Where [_workqueue_thread_entry] is: at the test of the list, at the suspension, at the
    removal of a work, at the call of its function, within it, behind it, and at the
    acknowledgement. *)
Inductive entry_point : Type :=
  | Checking
  | Suspending
  | Taking
  | Calling (w : nat)
  | Running (w : nat)
  | Returned (w : nat)
  | Acking.

(** [asleep]: the thread is suspended; [calls]: the works whose functions were called;
    [resuming]: the threads that have put a work on the list and are still to resume the
    thread of the queue. *)
Record rt_workqueue : Type := MkWorkqueue {
  work_list : list nat;
  work_current : option nat;
  wq_sem : rt_semaphore;
  work_table : gmap nat rt_work;
  work_thread : entry_point;
  asleep : bool;
  calls : list nat;
  resuming : nat }.
#[global] Instance rt_workqueue_eta : Eta rt_workqueue := λ q,
  MkWorkqueue (work_list q) (work_current q) (wq_sem q) (work_table q) (work_thread q) (asleep q) (calls q) (resuming q).

Definition get_work (w : nat) : io rt_workqueue rt_work := λ q,
  match work_table q !! w with Some k => Ret (k, q) | None => Fault Uninitialised end.
Definition upd_work (w : nat) (f : rt_work → rt_work) : io rt_workqueue unit :=
  k ← get_work w; modify (λ q, q <| work_table := <[w := f k]> (work_table q) |>).

(** [rt_list_remove]: nothing when the work is on no list. *)
Definition list_remove (w : nat) : io rt_workqueue unit :=
  modify (λ q, q <| work_list := filter (λ x, x ≠ w) (work_list q) |>).
(** [rt_list_insert_after(queue->work_list.prev, ..)]. *)
Definition list_append (w : nat) : io rt_workqueue unit :=
  modify (λ q, q <| work_list := work_list q ++ [w] |>).

(** [rt_thread_resume]: an error that nobody looks at unless the thread is suspended. *)
Definition rt_thread_resume : io rt_workqueue unit := modify (λ q, q <| asleep := false |>).

(** The call of [rt_thread_resume] behind a critical section: an interrupt makes it at
    once, a thread is interrupted before it and makes it later. *)
Definition resume_thread (now : bool) : io rt_workqueue unit :=
  if now then rt_thread_resume else modify (λ q, q <| resuming := S (resuming q) |>).
Definition resume_at_last : io rt_workqueue unit :=
  modify (λ q, q <| resuming := pred (resuming q) |>) ;; rt_thread_resume.

(** * Submission *)

(** [_workqueue_submit_work] up to the end of its critical section: the result, and whether
    the thread is to be resumed. *)
Definition submit_locked (w : nat) : io rt_workqueue (Z * bool) :=
  k ← get_work w;
  if pending k then mret (- RT_EBUSY, false)
  else
    cur ← gets work_current;
    if bool_decide (cur = Some w) then mret (- RT_EBUSY, false)
    else
      list_remove w ;;
      list_append w ;;
      upd_work w (λ k, k <| pending := true |>) ;;
      mret (RT_EOK, bool_decide (cur = None)).
Definition _workqueue_submit_work (now : bool) (w : nat) : io rt_workqueue Z :=
  r ← submit_locked w;
  (if (r.2 : bool) then resume_thread now else mret tt) ;;
  mret r.1.

Definition _workqueue_cancel_work (w : nat) : io rt_workqueue Z :=
  cur ← gets work_current;
  if bool_decide (cur = Some w) then mret (- RT_EBUSY)
  else
    list_remove w ;;
    upd_work w (λ k, k <| pending := false |>) ;;
    mret RT_EOK.

(** [-EINVAL] is the number of the C library. *)
Definition _workqueue_cancel_delayed_work (w : nat) : io rt_workqueue Z :=
  k ← get_work w;
  if negb (attached k) then mret (-22)
  else
    ret ← (if pending k then _workqueue_cancel_work w
           else if submitting k then
             upd_work w (λ k, k <| work_timer := None |> <| submitting := false |>) ;; mret RT_EOK
           else mret RT_EOK);
    if negb (ret =? 0) then mret ret
    else upd_work w (λ k, k <| attached := false |> <| pending := false |>) ;; mret ret.

(** There is one queue. *)
Definition _workqueue_submit_delayed_work (now : bool) (w : nat) (ticks : Z) : io rt_workqueue Z :=
  k ← get_work w;
  ret ← (if attached k then _workqueue_cancel_delayed_work w else mret RT_EOK);
  if ret <? 0 then mret ret
  else
    upd_work w (λ k, k <| attached := true |>) ;;
    if ticks =? 0 then _workqueue_submit_work now w
    else
      upd_work w (λ k, k <| submitting := true |> <| work_timer := Some ticks |>) ;;
      mret RT_EOK.

Definition rt_workqueue_submit_work (now : bool) (w : nat) (time : Z) : io rt_workqueue Z :=
  (if 0 <? time then upd_work w (λ k, k <| delayed := true |>) else mret tt) ;;
  k ← get_work w;
  if delayed k then _workqueue_submit_delayed_work now w time else _workqueue_submit_work now w.
Definition rt_work_submit (now : bool) (w : nat) (time : Z) : io rt_workqueue Z := rt_workqueue_submit_work now w time.

(** In the interrupt of the tick.  The member [workqueue] of the work is read, not tested. *)
Definition _delayed_work_timeout_handler (w : nat) : io rt_workqueue Z :=
  upd_work w (λ k, k <| work_timer := None |> <| submitting := false |> <| delayed := false |>) ;;
  k ← get_work w;
  if attached k then _workqueue_submit_work true w else io_fault NullDeref.

Definition rt_workqueue_dowork (now : bool) (w : nat) : io rt_workqueue Z := _workqueue_submit_work now w.
Definition rt_workqueue_critical_work (now : bool) (w : nat) : io rt_workqueue Z :=
  cur ← gets work_current;
  if bool_decide (cur = Some w) then mret (- RT_EBUSY)
  else
    list_remove w ;; list_append w ;;
    (if bool_decide (cur = None) then resume_thread now else mret tt) ;;
    mret RT_EOK.

Definition rt_workqueue_cancel_work (w : nat) : io rt_workqueue Z :=
  k ← get_work w;
  if delayed k then _workqueue_cancel_delayed_work w else _workqueue_cancel_work w.
Definition rt_work_cancel (w : nat) : io rt_workqueue Z := rt_workqueue_cancel_work w.
(** The flags of the works stay as they are. *)
Definition rt_workqueue_cancel_all_work : io rt_workqueue Z :=
  modify (λ q, q <| work_list := [] |>) ;; mret RT_EOK.

(** The thread [self] cancels; [None]: it waits while the work runs, and clears the flag
    when it goes on. *)
Definition rt_workqueue_cancel_work_sync (self prio : Z) (w : nat) : io rt_workqueue (option Z) :=
  cur ← gets work_current;
  if bool_decide (cur = Some w) then
    sem ← gets wq_sem;
    match rt_sem_take sem self prio (-1) with
    | Taken sem =>
        modify (λ q, q <| wq_sem := sem |>) ;;
        upd_work w (λ k, k <| pending := false |>) ;; mret (Some RT_EOK)
    | NotTaken _ => upd_work w (λ k, k <| pending := false |>) ;; mret (Some RT_EOK)
    | TakeSuspended sem => modify (λ q, q <| wq_sem := sem |>) ;; mret None
    end
  else
    list_remove w ;; upd_work w (λ k, k <| pending := false |>) ;; mret (Some RT_EOK).

(** * The thread *)

(** Every turn releases a waiting thread, or the semaphore for the next turn to take. *)
Fixpoint work_completion (fuel : nat) (s : rt_semaphore) : res (Z * rt_semaphore) :=
  match fuel with
  | O => Fault Blocked
  | S fuel =>
      match rt_sem_take s 0 0 0 with
      | NotTaken _ => work_completion fuel (rt_sem_release s).1
      | Taken s => Ret (RT_EOK, s)
      | TakeSuspended _ => Ret (- RT_ERROR, s)
      end
  end.
Definition _workqueue_work_completion : io rt_workqueue Z :=
  sem ← gets wq_sem;
  r ← lift (work_completion (length (sem_suspended sem) + 2) sem);
  modify (λ q, q <| wq_sem := r.2 |>) ;;
  mret r.1.

Definition at_point (p : entry_point) : io rt_workqueue unit := modify (λ q, q <| work_thread := p |>).

(** The thread from one point to the next, when it is not suspended.  The first element of
    an empty list is the list itself, no work. *)
Definition _workqueue_thread_entry : io rt_workqueue unit :=
  sleeps ← gets asleep;
  if sleeps : bool then mret tt
  else
    p ← gets work_thread;
    match p with
    | Checking =>
        l ← gets work_list;
        at_point (match l with [] => Suspending | _ => Taking end)
    | Suspending => modify (λ q, q <| asleep := true |>) ;; at_point Taking
    | Taking =>
        l ← gets work_list;
        match l with
        | [] => io_fault OutOfBounds
        | w :: _ =>
            list_remove w ;;
            modify (λ q, q <| work_current := Some w |>) ;;
            upd_work w (λ k, k <| pending := false |> <| attached := false |>) ;;
            at_point (Calling w)
        end
    | Calling w =>
        get_work w ;;
        modify (λ q, q <| calls := calls q ++ [w] |>) ;;
        at_point (Running w)
    | Running w => at_point (Returned w)
    | Returned _ => modify (λ q, q <| work_current := None |>) ;; at_point Acking
    | Acking => _workqueue_work_completion ;; at_point Checking
    end.

(** [rt_workqueue_create]: the thread starts. *)
Definition rt_workqueue_create : rt_workqueue := MkWorkqueue [] None (MkSem 0 [] 0) ∅ Checking false [] 0.

(** * Interleavings *)

(** A step of the thread, a submission by a thread up to the end of its critical section
    and its resumption of the queue's thread behind it, the expiry of a timer, and the
    allocation and initialisation of a work and its end. *)
Inductive work_action : Type :=
  | ThreadStep
  | SubmitWork (w : nat) (time : Z)
  | ResumeThread
  | Expire (w : nat)
  | InitWork (w : nat)
  | FreeWork (w : nat).

(** The result, and the work that was put on the list. *)
Definition work_act (a : work_action) : io rt_workqueue (list nat) :=
  match a with
  | ThreadStep => _workqueue_thread_entry ;; mret []
  | SubmitWork w time =>
      l ← gets work_list; rt_work_submit false w time ;; l' ← gets work_list; mret (drop (length l) l')
  | ResumeThread => resume_at_last ;; mret []
  | Expire w =>
      l ← gets work_list; _delayed_work_timeout_handler w ;; l' ← gets work_list; mret (drop (length l) l')
  | InitWork w => modify (λ q, q <| work_table := <[w := rt_work_init]> (work_table q) |>) ;; mret []
  | FreeWork w => modify (λ q, q <| work_table := delete w (work_table q) |>) ;; mret []
  end.
