(* ===== verification/WorkQueueSpec.v ===== *)
(** What the work queue (WorkQueue.v) promises: under every interleaving of its thread with
    submissions, the resumptions behind them and expiring timers each work that reaches the
    list is called once, in the order of arrival, and the only fault is that of a thread
    that is resumed when its list is empty ([work_queue_order]); and the two ways in which
    a submission is lost all the same ([work_queue_lost]). *)

From stdpp Require Import gmap.
From S2P Require Import Prelude Event Sem WorkQueue.

(** What the callers owe: a work that is submitted is initialised and not on the list, a
    block that is initialised is not in use, and only the function of a work frees it, when
    it is not submitted again.  [prompt]: the thread of the queue does not run between a
    submission and its resumption.  That is so when only timers submit works, as in this
    program, or threads of a higher priority. *)
Definition allowed (prompt : bool) (a : work_action) (q : rt_workqueue) : Prop :=
  match a with
  | ThreadStep => prompt = true → resuming q = 0%nat
  | SubmitWork w time => 0 <= time ∧ ∃ k, work_table q !! w = Some k ∧ pending k = false
  | ResumeThread => resuming q ≠ 0%nat
  | Expire w => ∃ k, work_table q !! w = Some k ∧ work_timer k ≠ None
  | InitWork w => work_table q !! w = None
  | FreeWork w => work_thread q = Running w ∧ ∃ k, work_table q !! w = Some k ∧ pending k = false ∧ work_timer k = None
  end.

(** The states that are reached, with the works that were put on the list so far. *)
Inductive reached (prompt : bool) : rt_workqueue → list nat → Prop :=
  | reached_create : reached prompt rt_workqueue_create []
  | reached_step q acc a l q' :
      reached prompt q acc → allowed prompt a q → work_act a q = Ret (l, q') → reached prompt q' (acc ++ l).

(** The thread, resumed behind its suspension, has nothing to take. *)
Definition woken_for_nothing (q : rt_workqueue) : Prop :=
  work_thread q = Taking ∧ asleep q = false ∧ work_list q = [].

(** * The invariant *)

Definition upcoming (p : entry_point) : list nat := match p with Calling w => [w] | _ => [] end.
Definition current_of (p : entry_point) : option nat :=
  match p with Calling w | Running w | Returned w => Some w | _ => None end.

Definition ok_work (l : list nat) (w : nat) (k : rt_work) : Prop :=
  (pending k = true ↔ w ∈ l) ∧
  (work_timer k ≠ None → attached k = true ∧ submitting k = true ∧ delayed k = true ∧ w ∉ l) ∧
  (work_timer k = None → submitting k = false).

Section inv.
Context (prompt : bool).

Record queue_inv (q : rt_workqueue) (acc : list nat) : Prop := {
  qi_order : calls q ++ upcoming (work_thread q) ++ work_list q = acc;
  qi_current : work_current q = current_of (work_thread q);
  qi_asleep : asleep q = true → work_thread q = Taking;
  qi_taking : prompt = true → ¬ woken_for_nothing q;
  qi_resuming : prompt = true → resuming q ≠ 0%nat → work_list q ≠ [];
  qi_nodup : NoDup (work_list q);
  qi_table : ∀ w, w ∈ work_list q → is_Some (work_table q !! w);
  qi_works : ∀ w k, work_table q !! w = Some k → ok_work (work_list q) w k;
  qi_calling : ∀ w, work_thread q = Calling w → is_Some (work_table q !! w);
  qi_sem : wq_sem q = MkSem 0 [] 0 }.

Lemma wp_get_work w (Q : rt_work → rt_workqueue → Prop) q k :
  work_table q !! w = Some k → Q k q → wp (get_work w) Q q.
Proof. intros Hk HQ. unfold wp, get_work. by rewrite Hk. Qed.
Lemma wp_upd_work w f (Q : unit → rt_workqueue → Prop) q k : work_table q !! w = Some k →
  Q tt (q <| work_table := <[w := f k]> (work_table q) |>) → wp (upd_work w f) Q q.
Proof. intros Hk HQ. apply wp_bind. eapply wp_get_work; [done|]. by apply wp_modify. Qed.

(** A work changes, the list does not. *)
Lemma inv_upd q acc w k k' : queue_inv q acc → work_table q !! w = Some k → ok_work (work_list q) w k' →
  queue_inv (q <| work_table := <[w := k']> (work_table q) |>) acc.
Proof.
  intros [? ? ? ? ? ? Htable Hworks Hcalling ?] Hk Hok. split; cbn; try done.
  - intros x Hx. destruct (decide (w = x)) as [->|Hne]; [by rewrite lookup_insert_eq|].
    rewrite lookup_insert_ne by done. by apply Htable.
  - intros x kx. destruct (decide (w = x)) as [->|Hne]; [by rewrite lookup_insert_eq; intros [= <-]|].
    rewrite lookup_insert_ne by done. by apply Hworks.
  - intros x Hx. destruct (decide (w = x)) as [->|Hne]; [by rewrite lookup_insert_eq|].
    rewrite lookup_insert_ne by done. by apply Hcalling.
Qed.

(** * Submissions *)

(** [l]: what went to the list. *)
Definition submitted (now : bool) (q : rt_workqueue) (acc : list nat) (q' : rt_workqueue) (l : list nat) : Prop :=
  queue_inv q' (acc ++ l) ∧ work_list q' = work_list q ++ l ∧ (now = true → l ≠ [] → asleep q' = false) ∧
  calls q' = calls q ∧ work_thread q' = work_thread q.

Lemma remove_absent (w : nat) (l : list nat) : w ∉ l → filter (λ x, x ≠ w) l = l.
Proof.
  induction l as [|x l IH]; [done|]. intros [Hx Hl]%not_elem_of_cons.
  rewrite filter_cons_True by done. by rewrite IH.
Qed.

(** [w] is put on the list; the thread is woken, unless it is at work or will be resumed. *)
Lemma inv_append now q acc w k b n : queue_inv q acc → work_table q !! w = Some k → w ∉ work_list q → work_timer k = None →
  (b = true → asleep q = true) → (now = true → b = true → work_current q ≠ None) →
  submitted now q acc (q <| work_list := work_list q ++ [w] |>
    <| work_table := <[w := k <| pending := true |>]> (work_table q) |> <| asleep := b |> <| resuming := n |>) [w].
Proof.
  intros Hq Hk Hw Ht Hb Hn. destruct (qi_works _ _ Hq w k Hk) as (_ & _ & Hs).
  assert (work_list q ++ [w] ≠ []) as Hne by by destruct (work_list q).
  split_and!; try done.
  2: { intros -> _. destruct b; [|done]. specialize (Hb eq_refl). apply (qi_asleep _ _ Hq) in Hb.
    destruct (Hn eq_refl eq_refl). by rewrite (qi_current _ _ Hq), Hb. }
  destruct Hq as [Ho ? Hasl ? ? ? Htable Hworks Hcalling ?]. split; cbn; try done.
  - rewrite <- Ho. by rewrite !app_assoc.
  - intros ->. by apply Hasl, Hb.
  - by intros _ (_ & _ & ?).
  - apply NoDup_app. split_and!; [done| |apply NoDup_singleton]. intros x Hx Ex%list_elem_of_singleton. congruence.
  - intros x [Hx| ->%list_elem_of_singleton]%elem_of_app; [|by rewrite lookup_insert_eq].
    rewrite lookup_insert_ne by (intros ->; done). by apply Htable.
  - intros x kx. destruct (decide (w = x)) as [->|Hnx].
    + rewrite lookup_insert_eq. intros [= <-]. unfold ok_work. cbn. rewrite Ht. split_and!; [|done|by intros _; apply Hs].
      split; [|done]. intros _. apply elem_of_app. right. by left.
    + rewrite lookup_insert_ne by done. intros Hx. destruct (Hworks x kx Hx) as (H1 & H2 & H3).
      assert (x ∈ work_list q ++ [w] ↔ x ∈ work_list q) as E by set_solver.
      split; [by rewrite E|]. split; [|done]. by rewrite E.
  - intros x Hx. destruct (decide (w = x)) as [->|Hnx]; [by rewrite lookup_insert_eq|].
    rewrite lookup_insert_ne by done. by apply Hcalling.
Qed.

Lemma submitted_nothing now q acc : queue_inv q acc → submitted now q acc q [].
Proof. intros Hq. split_and!; try done; by rewrite app_nil_r. Qed.

Lemma wp_submit_work now q acc w k : queue_inv q acc → work_table q !! w = Some k →
  pending k = false → work_timer k = None →
  wp (_workqueue_submit_work now w) (λ r q', submitted now q acc q' (if r =? RT_EOK then [w] else []) ∧
    (r = RT_EOK ∧ work_current q ≠ Some w ∨ r = - RT_EBUSY ∧ q' = q ∧ work_current q = Some w)) q.
Proof.
  intros Hq Hk Hp Ht. unfold _workqueue_submit_work, submit_locked. apply wp_bind, wp_bind.
  eapply wp_get_work; [done|]. rewrite Hp. apply wp_bind, wp_gets. case_bool_decide as Ec.
  { apply wp_ret, wp_bind, wp_ret, wp_ret. split; [by apply submitted_nothing|by right]. }
  destruct (qi_works _ _ Hq w k Hk) as (Hpl & _ & _).
  assert (w ∉ work_list q) as Hw by (intros Hw%Hpl; congruence).
  apply wp_bind, wp_modify, wp_bind, wp_modify, wp_bind. eapply wp_upd_work; [exact Hk|]. apply wp_ret, wp_bind. cbn.
  rewrite (remove_absent w) by done. case_bool_decide as En.
  - destruct now; apply wp_modify, wp_ret; (split; [|by left]).
    + by apply (inv_append true q acc w k false (resuming q)).
    + by apply (inv_append false q acc w k (asleep q) (S (resuming q))).
  - apply wp_ret, wp_ret. split; [|by left]. by apply (inv_append now q acc w k (asleep q) (resuming q)).
Qed.

(** What [rt_work_submit] does with the members of a work that is not on the list. *)
Lemma wp_detached q acc w k : queue_inv q acc → work_table q !! w = Some k → pending k = false →
  wp (if attached k then _workqueue_cancel_delayed_work w else mret RT_EOK) (λ r q', r = RT_EOK ∧ ∃ k',
    queue_inv q' acc ∧ q' = q <| work_table := <[w := k']> (work_table q) |> ∧
    pending k' = false ∧ work_timer k' = (if attached k then None else work_timer k) ∧
    submitting k' = (if attached k then false else submitting k) ∧ delayed k' = delayed k) q.
Proof.
  intros Hq Hk Hp. destruct (qi_works _ _ Hq w k Hk) as (Hpl & Hon & Hoff). destruct (attached k) eqn:Ea.
  2: { apply wp_ret. split; [done|]. exists k. rewrite insert_id by done. by destruct q. }
  unfold _workqueue_cancel_delayed_work. apply wp_bind. eapply wp_get_work; [done|]. rewrite Ea. cbn [negb].
  rewrite Hp. apply wp_bind.
  assert (∀ k', work_timer k' = None → submitting k' = false → pending k' = false → ok_work (work_list q) w k') as Hok.
  { intros k' H1 H2 H3. unfold ok_work. rewrite H1, H2, H3. split; [|done]. by rewrite <- Hpl, Hp. }
  destruct (submitting k) eqn:Es.
  - apply wp_bind. eapply wp_upd_work; [exact Hk|]. apply wp_ret. apply wp_bind.
    eapply wp_upd_work; [cbn; apply lookup_insert_eq|]. apply wp_ret. split; [done|].
    exists (k <| work_timer := None |> <| submitting := false |> <| attached := false |> <| pending := false |>).
    cbn. rewrite insert_insert_eq. split; [|done]. apply (inv_upd q acc w k _ Hq Hk). by apply Hok.
  - assert (work_timer k = None) as Et.
    { destruct (work_timer k); [|done]. by destruct (Hon ltac:(done)) as (_ & ? & _). }
    apply wp_ret. apply wp_bind. eapply wp_upd_work; [exact Hk|]. apply wp_ret. split; [done|].
    exists (k <| attached := false |> <| pending := false |>).
    cbn. rewrite Et, Es. split; [|done]. apply (inv_upd q acc w k _ Hq Hk). by apply Hok.
Qed.

Lemma drop_added {A} (l l' : list A) : drop (length l) (l ++ l') = l'.
Proof. by rewrite drop_app_length. Qed.

(** A submission that is recorded as [work_act] does. *)
Lemma submitted_chain now q acc q1 q2 l : calls q1 = calls q → work_thread q1 = work_thread q → work_list q1 = work_list q →
  submitted now q1 acc q2 l → submitted now q acc q2 l.
Proof. intros E1 E2 E3 (H1 & H2 & H3 & H4 & H5). split_and!; try done; congruence. Qed.

(** The rest of [_workqueue_submit_delayed_work], when no timer runs. *)
Lemma wp_attach now q acc w k time : queue_inv q acc → work_table q !! w = Some k →
  pending k = false → work_timer k = None → delayed k = true →
  wp (upd_work w (λ k, k <| attached := true |>) ;;
      if time =? 0 then _workqueue_submit_work now w
      else upd_work w (λ k, k <| submitting := true |> <| work_timer := Some time |>) ;; mret RT_EOK)
    (λ _ q', ∃ l, submitted now q acc q' l) q.
Proof.
  intros Hq Hk Hp Ht Hd. destruct (qi_works _ _ Hq w k Hk) as (Hpl & _ & Hoff). specialize (Hoff Ht).
  assert (w ∉ work_list q) as Hw by (intros Hw%Hpl; congruence).
  apply wp_bind. eapply wp_upd_work; [exact Hk|].
  set (k1 := k <| attached := true |>). set (q1 := q <| work_table := _ |>).
  assert (queue_inv q1 acc) as Hq1 by (apply (inv_upd q acc w k k1 Hq Hk); unfold ok_work; cbn; by rewrite Ht, Hp in *).
  assert (work_table q1 !! w = Some k1) as Hk1 by (cbn; apply lookup_insert_eq).
  destruct (time =? 0).
  - eapply wp_mono; [by eapply (wp_submit_work now q1 acc w k1)|]. intros r q' [Hs _]. eexists. by eapply submitted_chain, Hs.
  - apply wp_bind. eapply wp_upd_work; [exact Hk1|]. apply wp_ret. exists []. eapply (submitted_chain now q acc q1); [done..|].
    split_and!; try done; [|by rewrite app_nil_r]. rewrite app_nil_r.
    apply (inv_upd q1 acc w k1 _ Hq1 Hk1). unfold ok_work. cbn. rewrite Hp. split; [|done]. by split.
Qed.

(** ... and what follows the test of the type. *)
Lemma wp_submit_typed now q acc w k time : queue_inv q acc → work_table q !! w = Some k → pending k = false →
  wp (k ← get_work w; if delayed k then _workqueue_submit_delayed_work now w time else _workqueue_submit_work now w)
    (λ _ q', ∃ l, submitted now q acc q' l) q.
Proof.
  intros Hq Hk Hp. destruct (qi_works _ _ Hq w k Hk) as (Hpl & Hon & Hoff).
  apply wp_bind. eapply wp_get_work; [exact Hk|]. destruct (delayed k) eqn:Ed.
  - unfold _workqueue_submit_delayed_work. apply wp_bind. eapply wp_get_work; [exact Hk|]. apply wp_bind.
    eapply wp_mono; [by eapply wp_detached|]. intros r q1 (-> & k1 & Hq1 & -> & Hp1 & Ht1 & Hs1 & Hd1). cbn.
    assert (work_timer k1 = None) as Ht.
    { rewrite Ht1. destruct (attached k); [done|]. destruct (work_timer k); [|done]. by destruct (Hon ltac:(done)) as (? & _). }
    eapply wp_mono; [eapply (wp_attach now _ acc w k1 time Hq1); [cbn; apply lookup_insert_eq|done..|congruence]|].
    intros _ q' [l Hs]. exists l. by eapply submitted_chain, Hs.
  - eapply wp_mono; [eapply wp_submit_work; [done..|]|intros r q' [Hs _]; by eexists].
    destruct (work_timer k); [|done]. by destruct (Hon ltac:(done)) as (_ & _ & ? & _).
Qed.

Lemma wp_rt_work_submit now q acc w time : queue_inv q acc → allowed prompt (SubmitWork w time) q →
  wp (rt_work_submit now w time) (λ _ q', ∃ l, submitted now q acc q' l) q.
Proof.
  intros Hq (Htime & k & Hk & Hp). unfold rt_work_submit, rt_workqueue_submit_work.
  apply wp_bind. destruct (0 <? time).
  - eapply wp_upd_work; [exact Hk|]. set (k1 := k <| delayed := true |>).
    eapply wp_mono; [apply (wp_submit_typed now _ acc w k1); [|cbn; apply lookup_insert_eq|done]|].
    + apply (inv_upd q acc w k k1 Hq Hk). destruct (qi_works _ _ Hq w k Hk) as (Hpl & Hon & Hoff).
      split; [done|]. split; [|done]. cbn. intros Ht. destruct (Hon Ht) as (? & ? & _ & ?). done.
    + intros _ q' [l Hs]. exists l. by eapply submitted_chain, Hs.
  - apply wp_ret. by eapply wp_submit_typed.
Qed.

Lemma wp_expire q acc w k : queue_inv q acc → work_table q !! w = Some k → work_timer k ≠ None →
  wp (_delayed_work_timeout_handler w) (λ r q', submitted true q acc q' (if r =? RT_EOK then [w] else []) ∧
    (r = RT_EOK ∧ work_current q ≠ Some w ∨ r = - RT_EBUSY ∧ work_current q = Some w ∧
       ∃ k', work_table q' !! w = Some k' ∧ pending k' = false ∧ work_timer k' = None)) q.
Proof.
  intros Hq Hk Ht. destruct (qi_works _ _ Hq w k Hk) as (Hpl & Hon & Hoff). destruct (Hon Ht) as (Ha & Hs & Hd & Hw).
  assert (pending k = false) as Hp by (destruct (pending k); [by destruct Hw; apply Hpl|done]).
  unfold _delayed_work_timeout_handler. apply wp_bind. eapply wp_upd_work; [exact Hk|].
  set (k1 := k <| work_timer := None |> <| submitting := false |> <| delayed := false |>).
  set (q1 := q <| work_table := _ |>). assert (work_table q1 !! w = Some k1) as Hk1 by (cbn; apply lookup_insert_eq).
  assert (queue_inv q1 acc) as Hq1 by (apply (inv_upd q acc w k k1 Hq Hk); by split).
  apply wp_bind. eapply wp_get_work; [exact Hk1|]. change (attached k1) with (attached k). rewrite Ha.
  eapply wp_mono; [by eapply (wp_submit_work true q1 acc w k1)|]. intros r q' [Hsub Hr].
  split; [by eapply submitted_chain, Hsub|]. destruct Hr as [Hr|(Hr & -> & Hc)]; [left; exact Hr|right]. split_and!; [done..|].
  by exists k1.
Qed.

(** * The thread *)

(** The parts of the invariant that a step leaves, or makes vacuous. *)
Ltac inv_parts := split; cbn; try done; try (intros _ (? & ? & ?); cbn in *; congruence); try (intros; congruence).

Lemma wp_thread q acc : queue_inv q acc → allowed prompt ThreadStep q → ¬ woken_for_nothing q →
  wp _workqueue_thread_entry (λ _ q', queue_inv q' acc) q.
Proof.
  intros Hq Hprompt Hnot. unfold _workqueue_thread_entry. apply wp_bind, wp_gets. destruct (asleep q) eqn:Ea; [by apply wp_ret|].
  apply wp_bind, wp_gets. pose proof Hq as [Ho Hc Has Htk Hres Hnd Htab Hwk Hcall Hsem]. cbn in Hprompt.
  destruct (work_thread q) as [| | |w|w|w|] eqn:Et; cbn [upcoming current_of] in Ho, Hc.
  - apply wp_bind, wp_gets, wp_modify. destruct (work_list q) eqn:El; inv_parts; by rewrite El.
  - apply wp_bind, wp_modify, wp_modify. split; cbn; try done. by intros _ (_ & ? & _).
  - apply wp_bind, wp_gets. destruct (work_list q) as [|w l] eqn:El; [by destruct Hnot; split_and!|].
    apply NoDup_cons in Hnd as [Hw Hnd].
    destruct (Htab w) as [k Hk]; [by left|]. apply wp_bind, wp_modify, wp_bind, wp_modify, wp_bind.
    eapply wp_upd_work; [exact Hk|]. apply wp_modify. cbn. rewrite El, filter_cons_False, remove_absent by (done || tauto).
    assert (∀ x kx, work_table q !! x = Some kx → ok_work l x (if decide (w = x) then kx <| pending := false |> <| attached := false |> else kx)) as Hok.
    { intros x kx Hx. destruct (Hwk x kx Hx) as (H1 & H2 & H3). unfold ok_work. destruct (decide (w = x)) as [<-|Hne]; cbn.
      - split; [by split|]. split; [|done]. intros Ht. destruct (H2 Ht) as (_ & _ & _ & []). by left.
      - rewrite elem_of_cons in H1, H2. split; [rewrite H1; naive_solver|]. split; [|done]. intros Ht. naive_solver. }
    inv_parts.
    + intros Hp. by rewrite (Hprompt Hp).
    + intros x Hx. rewrite lookup_insert_ne by (intros ->; done). apply Htab. by right.
    + intros x kx. destruct (decide (w = x)) as [<-|Hne].
      * rewrite lookup_insert_eq. intros [= <-]. specialize (Hok w k Hk). by rewrite decide_True in Hok.
      * rewrite lookup_insert_ne by done. intros Hx. specialize (Hok x kx Hx). by rewrite decide_False in Hok.
    + intros x [= <-]. by rewrite lookup_insert_eq.
  - destruct (Hcall w eq_refl) as [k Hk]. apply wp_bind. eapply wp_get_work; [exact Hk|]. apply wp_bind, wp_modify, wp_modify.
    inv_parts. by rewrite <- Ho, <- app_assoc.
  - apply wp_modify. inv_parts.
  - apply wp_bind, wp_modify, wp_modify. inv_parts.
  - apply wp_bind. unfold _workqueue_work_completion. apply wp_bind, wp_gets. rewrite Hsem. apply wp_bind.
    eapply wp_lift; [reflexivity|]. apply wp_bind, wp_modify, wp_ret, wp_modify. inv_parts.
Qed.

(** * All interleavings *)

(** The list itself is taken for a work. *)
Lemma woken_faults q : woken_for_nothing q → _workqueue_thread_entry q = Fault OutOfBounds.
Proof.
  intros (Et & Ea & El). unfold _workqueue_thread_entry, mbind, io_bind, gets. rewrite Ea, Et. cbn.
  by rewrite El.
Qed.

Lemma wp_resume_at_last q acc : queue_inv q acc → resuming q ≠ 0%nat →
  wp resume_at_last (λ _ q', queue_inv q' acc) q.
Proof.
  intros Hq Hn. apply wp_bind, wp_modify, wp_modify. destruct Hq as [? ? ? ? Hres ? ? ? ? ?]. inv_parts.
  - intros Hp (_ & _ & El). cbn in El. by apply (Hres Hp).
  - intros Hp _. by apply Hres.
Qed.

Lemma wp_act q acc a : queue_inv q acc → allowed prompt a q → ¬ (a = ThreadStep ∧ woken_for_nothing q) →
  wp (work_act a) (λ l q', queue_inv q' (acc ++ l)) q.
Proof.
  intros Hq Ha Hnot. assert (∀ now q0 q' l, submitted now q0 acc q' l → work_list q0 = work_list q →
    queue_inv q' (acc ++ drop (length (work_list q)) (work_list q'))) as Hsub.
  { intros now q0 q' l (Hi & El & _) E. by rewrite El, E, drop_added. }
  destruct a as [|w time| |w|w|w]; cbn [work_act].
  - apply wp_bind. eapply wp_mono; [apply wp_thread; [exact Hq|exact Ha|tauto]|].
    intros r q' Hq'. apply wp_ret. by rewrite app_nil_r.
  - apply wp_bind, wp_gets, wp_bind. eapply wp_mono; [by apply wp_rt_work_submit|].
    intros r q' [l Hs]. by apply wp_bind, wp_gets, wp_ret, (Hsub false q q' l).
  - apply wp_bind. eapply wp_mono; [by apply wp_resume_at_last|]. intros r q' Hq'. apply wp_ret. by rewrite app_nil_r.
  - destruct Ha as (k & Hk & Ht). apply wp_bind, wp_gets, wp_bind. eapply wp_mono; [by eapply wp_expire|].
    intros r q' [Hs _]. apply wp_bind, wp_gets, wp_ret. by eapply Hsub.
  - apply wp_bind, wp_modify, wp_ret. rewrite app_nil_r. cbn in Ha.
    assert (∀ x, is_Some (work_table q !! x) → is_Some (<[w := rt_work_init]> (work_table q) !! x)) as Hin.
    { intros x Hx. destruct (decide (w = x)) as [<-|Hne]; [by rewrite lookup_insert_eq|by rewrite lookup_insert_ne]. }
    destruct Hq as [? ? ? ? ? ? Htab Hwk Hcall ?]. inv_parts.
    + intros x Hx. by apply Hin, Htab.
    + intros x kx. destruct (decide (w = x)) as [<-|Hne]; [|rewrite lookup_insert_ne by done; by apply Hwk].
      rewrite lookup_insert_eq. intros [= <-]. unfold ok_work. cbn. split; [split; [done|]|done].
      intros Hw. destruct (Htab w Hw) as [? ?]. congruence.
    + intros x Hx. by apply Hin, Hcall.
  - destruct Ha as (Hrun & k & Hk & Hp & Ht). apply wp_bind, wp_modify, wp_ret. rewrite app_nil_r.
    destruct (qi_works _ _ Hq w k Hk) as (Hpl & _).
    destruct Hq as [? ? ? ? ? ? Htab Hwk Hcall ?]. inv_parts.
    + intros x Hx. rewrite lookup_delete_ne; [by apply Htab|]. intros ->. apply Hpl in Hx. congruence.
    + intros x kx [_ Hx]%lookup_delete_Some. by apply Hwk.
Qed.

Lemma reached_inv q acc : reached prompt q acc → queue_inv q acc.
Proof.
  induction 1 as [|q acc a l q' _ IH Ha Hact].
  - split; cbn; try done; [by intros _ [? _]|constructor|set_solver].
  - assert (¬ (a = ThreadStep ∧ woken_for_nothing q)) as Hnot.
    { intros [-> Hn]. cbn in Hact. unfold mbind, io_bind in Hact. by rewrite woken_faults in Hact. }
    pose proof (wp_act q acc a IH Ha Hnot) as Hw. unfold wp in Hw. by rewrite Hact in Hw.
Qed.

End inv.

(** When no resumption is outstanding and the thread has something to do, it does not
    matter how the threads were scheduled before. *)
Lemma inv_prompt prompt q acc : queue_inv prompt q acc → resuming q = 0%nat → ¬ woken_for_nothing q →
  queue_inv true q acc.
Proof. by intros [] Hr Hnot; split. Qed.

(** The thread [n] times in a row. *)
Fixpoint thread_alone (n : nat) : io rt_workqueue unit :=
  match n with O => mret tt | S n => _workqueue_thread_entry ;; thread_alone n end.

(** How far the thread is from falling asleep. *)
Definition distance (q : rt_workqueue) : nat :=
  6 * length (work_list q) +
  match work_thread q with
  | Checking => 2 | Suspending => 1 | Taking => 1 | Calling _ => 6 | Running _ => 5 | Returned _ => 4 | Acking => 3
  end.

(** No submission has come in since the thread found the list empty. *)
Definition undisturbed (q : rt_workqueue) : Prop := work_thread q = Suspending → work_list q = [].

Lemma wp_thread_closer q acc : queue_inv true q acc → resuming q = 0%nat → asleep q = false → undisturbed q →
  wp _workqueue_thread_entry (λ _ q', queue_inv true q' acc ∧ resuming q' = 0%nat ∧
    (asleep q' = true ∧ work_list q' = [] ∨ asleep q' = false ∧ undisturbed q' ∧ (distance q' < distance q)%nat)) q.
Proof.
  intros Hq Hres Ha Hu. pose proof (wp_thread true q acc Hq (λ _, Hres) (qi_taking _ _ _ Hq eq_refl)) as Hinv.
  assert (wp _workqueue_thread_entry (λ _ q', resuming q' = 0%nat ∧ (asleep q' = true ∧ work_list q' = [] ∨
    asleep q' = false ∧ undisturbed q' ∧ (distance q' < distance q)%nat)) q) as Hstep.
  { unfold _workqueue_thread_entry, undisturbed, distance in *. apply wp_bind, wp_gets. rewrite Ha. apply wp_bind, wp_gets.
    pose proof (qi_taking _ _ _ Hq eq_refl) as Htk. pose proof (qi_sem _ _ _ Hq) as Hsem. pose proof (qi_nodup _ _ _ Hq) as Hnd.
    destruct (work_thread q) as [| | |w|w|w|] eqn:Et.
    - apply wp_bind, wp_gets, wp_modify. split; [exact Hres|]. right. cbn. destruct (work_list q); cbn; (split; [done|split; [done|lia]]).
    - apply wp_bind, wp_modify, wp_modify. split; [exact Hres|]. left. cbn. auto.
    - apply wp_bind, wp_gets. destruct (work_list q) as [|w l] eqn:El; [by destruct Htk|].
      apply NoDup_cons in Hnd as [Hw Hnd]. destruct (qi_table _ _ _ Hq w) as [k Hk]; [rewrite El; by left|].
      apply wp_bind, wp_modify, wp_bind, wp_modify, wp_bind. eapply wp_upd_work; [exact Hk|]. apply wp_modify. split; [exact Hres|]. right.
      cbn. rewrite El, filter_cons_False, remove_absent by (done || tauto). split; [done|]. split; [done|]. lia.
    - destruct (qi_calling _ _ _ Hq w Et) as [k Hk]. apply wp_bind. eapply wp_get_work; [exact Hk|].
      apply wp_bind, wp_modify, wp_modify. split; [exact Hres|]. right. cbn. split; [done|]. split; [done|lia].
    - apply wp_modify. split; [exact Hres|]. right. cbn. split; [done|]. split; [done|lia].
    - apply wp_bind, wp_modify, wp_modify. split; [exact Hres|]. right. cbn. split; [done|]. split; [done|lia].
    - apply wp_bind. unfold _workqueue_work_completion. apply wp_bind, wp_gets. rewrite Hsem. apply wp_bind.
      eapply wp_lift; [reflexivity|]. apply wp_bind, wp_modify, wp_ret, wp_modify. split; [exact Hres|]. right. cbn.
      split; [done|]. split; [done|lia]. }
  eapply wp_mono; [apply (wp_conj _ _ _ _ Hinv Hstep)|]. by intros _ q' (? & ? & ?).
Qed.

Lemma wp_drains q acc : queue_inv true q acc → resuming q = 0%nat → asleep q = false → undisturbed q →
  ∃ n, wp (thread_alone n) (λ _ q', calls q' = acc ∧ asleep q' = true) q.
Proof.
  remember (distance q) as m eqn:Em. revert q Em. induction m as [m IH] using lt_wf_ind. intros q -> Hq Hr Ha Hu.
  pose proof (wp_thread_closer q acc Hq Hr Ha Hu) as Hw. unfold wp in Hw.
  destruct (_workqueue_thread_entry q) as [[[] q']|] eqn:Es; [|done].
  assert (∀ n, thread_alone (S n) q = thread_alone n q') as Ealone.
  { intros n. cbn. unfold mbind, io_bind. by rewrite Es. }
  destruct Hw as (Hq' & Hr' & [[Ha' El]|(Ha' & Hu' & Hlt)]).
  - exists 1%nat. unfold wp. rewrite Ealone. cbn. split; [|done].
    rewrite <- (qi_order _ _ _ Hq'), El, (qi_asleep _ _ _ Hq' Ha'). cbn. by rewrite app_nil_r.
  - destruct (IH _ Hlt q' eq_refl Hq' Hr' Ha' Hu') as [n Hn]. exists (S n). unfold wp in *. by rewrite Ealone.
Qed.

(** * The properties of the queue *)

(** C31.  The queue calls each work once, in the order of arrival.  In every state reached by
    the steps of its thread, submissions and the resumptions behind them, expiring timers
    and the allocation and release of works, in any interleaving, the works called, the one
    about to be called and those on the list are together what was put on the list, in that
    order.  No further call that keeps the rules of [allowed] (a work is initialised, is not
    submitted while it is on the list, and is freed by its own function) faults, but for a
    step of a thread that was resumed when its list was empty, which does fault; that does
    not happen when the thread does not run between a submission and its resumption
    ([prompt]).  When no resumption is outstanding, the thread that is awake, left alone,
    calls all the works and goes to sleep, unless it was resumed for nothing or a submission
    came in between its test of the list and its suspension. *)
Theorem work_queue_order prompt q acc : reached prompt q acc →
  calls q ++ upcoming (work_thread q) ++ work_list q = acc ∧
  (∀ a, allowed prompt a q → ¬ (a = ThreadStep ∧ woken_for_nothing q) → wp (work_act a) (λ _ _, True) q) ∧
  (woken_for_nothing q → prompt = false ∧ work_act ThreadStep q = Fault OutOfBounds) ∧
  (resuming q = 0%nat → asleep q = false → ¬ woken_for_nothing q → undisturbed q →
     ∃ n, wp (thread_alone n) (λ _ q', calls q' = acc ∧ asleep q' = true) q).
Proof.
  intros Hr. apply reached_inv in Hr as Hq. split; [by eapply qi_order|]. split_and!.
  - intros a Ha Hnot. eapply wp_mono; [by eapply wp_act|done].
  - intros Hn. split; [destruct prompt; [by destruct (qi_taking _ _ _ Hq)|done]|].
    cbn. unfold mbind, io_bind. by rewrite woken_faults.
  - intros H1 H2 H3 H4. apply wp_drains; [by eapply inv_prompt|done..].
Qed.

(** Two submissions are lost.  A timer that expires between the test of the list and
    the suspension of the thread puts its work on the list, but the thread is not suspended
    yet and cannot be resumed: it goes to sleep over the work, and stays asleep.  A timer
    that expires while the function of a work runs, for a new work in the block the
    function has freed, is refused as busy: the work is neither on the list nor will its
    timer expire again. *)
Theorem work_queue_lost prompt q acc w k : reached prompt q acc → work_table q !! w = Some k → work_timer k ≠ None →
  (work_thread q = Suspending → asleep q = false →
     wp (_ ← work_act (Expire w); work_act ThreadStep) (λ _ q', asleep q' = true ∧ work_list q' = work_list q ++ [w] ∧
       calls q' = calls q ∧ ∀ n, thread_alone n q' = Ret (tt, q')) q) ∧
  (work_thread q = Running w →
     wp (_delayed_work_timeout_handler w) (λ r q', r = - RT_EBUSY ∧ work_list q' = work_list q ∧
       ∃ k', work_table q' !! w = Some k' ∧ pending k' = false ∧ work_timer k' = None) q).
Proof.
  intros Hr Hk Ht. apply reached_inv in Hr as Hq. split.
  - intros Hth Ha. apply wp_bind, wp_bind, wp_gets, wp_bind. eapply wp_mono; [by eapply wp_expire|].
    intros r q' [(Hq' & El & Haw & Ec & Eth) Hr']. apply wp_bind, wp_gets, wp_ret.
    destruct Hr' as [[-> _]|(_ & Hc & _)]; [|rewrite (qi_current _ _ _ Hq), Hth in Hc; done].
    rewrite Hth in Eth. specialize (Haw eq_refl ltac:(done)). apply wp_bind. unfold _workqueue_thread_entry.
    apply wp_bind, wp_gets. rewrite Haw. apply wp_bind, wp_gets. rewrite Eth. apply wp_bind, wp_modify, wp_modify, wp_ret.
    cbn. split_and!; [done|done|done|]. intros n. by induction n as [|n IH].
  - intros Hth. eapply wp_mono; [by eapply wp_expire|]. intros r q' [(Hq' & El & _ & Ec & Eth) Hr'].
    destruct Hr' as [[-> Hc]|(-> & _ & Hk')]; [by rewrite (qi_current _ _ _ Hq), Hth in Hc|].
    split; [done|]. split; [|done]. rewrite El. cbn. by rewrite app_nil_r.
Qed.

(** ** Concrete runs *)

Fixpoint run_actions (l : list work_action) : io rt_workqueue (list nat) :=
  match l with [] => mret [] | a :: l => x ← work_act a; y ← run_actions l; mret (x ++ y) end.
(** The first turn of the thread, with a work whose timer was started before. *)
Definition one_timer : rt_workqueue :=
  match run_actions [InitWork 1; SubmitWork 1 1000; ThreadStep] rt_workqueue_create with
  | Ret (_, q) => q
  | Fault _ => rt_workqueue_create
  end.

Lemma reached_act prompt q acc a : reached prompt q acc → allowed prompt a q →
  match work_act a q with Ret (l, q') => reached prompt q' (acc ++ l) | Fault _ => True end.
Proof. intros Hr Ha. destruct (work_act a q) as [[l q']|] eqn:E; [|done]. by eapply reached_step. Qed.

Lemma one_timer_reached prompt : reached prompt one_timer [].
Proof.
  pose proof (reached_act prompt _ _ (InitWork 1) (reached_create prompt) eq_refl) as H1. vm_compute in H1.
  assert (allowed prompt (SubmitWork 1 1000) (match work_act (InitWork 1) rt_workqueue_create with Ret (_, q) => q | _ => one_timer end))
    as Ha by (split; [lia|]; eexists; split; vm_compute; reflexivity).
  vm_compute in Ha. pose proof (reached_act _ _ _ (SubmitWork 1 1000) H1 Ha) as H2. vm_compute in H2.
  pose proof (reached_act _ _ _ ThreadStep H2 (λ _, eq_refl)) as H3. vm_compute in H3. exact H3.
Qed.

(** The work is on the list, the thread is about to sleep. *)
Definition one_waiting : rt_workqueue :=
  match run_actions [ThreadStep; Expire 1] one_timer with Ret (_, q) => q | Fault _ => one_timer end.
Lemma one_waiting_reached prompt : reached prompt one_waiting [1%nat].
Proof.
  pose proof (reached_act prompt _ _ ThreadStep (one_timer_reached prompt) (λ _, eq_refl)) as H1. vm_compute in H1.
  assert (allowed prompt (Expire 1) (match work_act ThreadStep one_timer with Ret (_, q) => q | _ => one_timer end))
    as Ha by (eexists; split; [vm_compute; reflexivity|done]).
  vm_compute in Ha. pose proof (reached_act _ _ _ (Expire 1) H1 Ha) as H2. vm_compute in H2. exact H2.
Qed.

Lemma work_queue_order_witness : ∃ n,
  wp (thread_alone n) (λ _ q', calls q' = [1%nat] ∧ asleep q' = true) one_waiting.
Proof.
  refine (proj2 (proj2 (proj2 (work_queue_order true one_waiting [1%nat] (one_waiting_reached true)))) _ _ _ _).
  - vm_compute. reflexivity.
  - vm_compute. reflexivity.
  - intros [_ [_ H]]. vm_compute in H. discriminate H.
  - intros H. vm_compute in H. discriminate H.
Defined.

Lemma work_queue_lost_witness :
  wp (_ ← work_act (Expire 1); work_act ThreadStep) (λ _ q', asleep q' = true ∧ work_list q' = [1%nat] ∧ calls q' = [])
    one_timer.
Proof.
  eapply wp_mono.
  { apply (proj1 (work_queue_lost true one_timer [] 1 (MkWork false true true true (Some 1000))
      (one_timer_reached true) ltac:(vm_compute; reflexivity) ltac:(discriminate))); vm_compute; reflexivity. }
  intros _ q' (H1 & H2 & H3 & _). split; [exact H1|]. split; [exact H2|exact H3].
Defined.

(** A work that is cancelled before the thread, already resumed, has taken it: the thread
    takes the list itself for a work. *)
Example cancelled_before_taken :
  (work_act (InitWork 1) ;; thread_alone 2 ;; rt_work_submit true 1 0 ;; rt_work_cancel 1 ;; thread_alone 1)
    rt_workqueue_create = Fault OutOfBounds.
Proof. vm_compute. reflexivity. Qed.

(** A thread that is interrupted between putting its work on the list and resuming the
    queue's thread resumes it when its work is long done. *)
Example resumed_too_late :
  (work_act (InitWork 1) ;; work_act (InitWork 2) ;; thread_alone 2 ;;
   work_act (SubmitWork 1 0) ;; work_act (SubmitWork 2 0) ;; work_act ResumeThread ;; thread_alone 13 ;;
   work_act ResumeThread ;; work_act ThreadStep)
    rt_workqueue_create = Fault OutOfBounds.
Proof. vm_compute. reflexivity. Qed.

(** After [rt_workqueue_cancel_all_work] a work that was on the list is refused for good. *)
Example cancelled_for_good :
  match (work_act (InitWork 1) ;; rt_work_submit true 1 0 ;; rt_workqueue_cancel_all_work ;; rt_work_submit true 1 0)
          rt_workqueue_create with
  | Ret (r, q) => r = - RT_EBUSY ∧ work_list q = []
  | Fault _ => False
  end.
Proof. vm_compute. done. Qed.
