(* ===== verification/SerialDma.v ===== *)
(** The serial port in DMA mode: the receive buffer the DMA fills (components/drivers/
    serial/serial.c) and the two interrupts that announce what it has written
    (libraries/HAL_Drivers/drv_usart.c).

    [dma_index] is where the DMA writes next, [bufsz] less its counter.  The interrupt of
    the completed transfer has the highest priority of the board and is taken as the DMA
    passes the end of the buffer. *)

From S2P Require Import Prelude Event Serial.

Record dma_port : Type := MkDma {
  fifo : rt_serial_rx_fifo;
  dma_bufsz : Z;
  last_index : Z;
  dma_index : Z }.
#[global] Instance dma_port_eta : Eta dma_port :=
  λ d, MkDma (fifo d) (dma_bufsz d) (last_index d) (dma_index d).

(** * serial.c *)

Definition _serial_fifo_calc_recved_len (bufsz : Z) (f : rt_serial_rx_fifo) : Z :=
  if put_index f =? get_index f then if is_full f then bufsz else 0
  else if get_index f <? put_index f then put_index f - get_index f
  else bufsz - (get_index f - put_index f).

Definition rt_dma_recv_update_get_index (bufsz : Z) (f : rt_serial_rx_fifo) (len : Z) :
    res rt_serial_rx_fifo :=
  if len <=? _serial_fifo_calc_recved_len bufsz f then
    let full := if is_full f && negb (len =? 0) then false else is_full f in
    let get := u16 (get_index f + len) in
    Ret (MkFifo (buffer f) (put_index f) (if bufsz <=? get then get mod bufsz else get) full)
  else Fault AssertFailed.

Definition rt_dma_recv_update_put_index (bufsz : Z) (f : rt_serial_rx_fifo) (len : Z) :
    rt_serial_rx_fifo :=
  let put := u16 (put_index f + len) in
  let '(put, full) :=
    if get_index f <=? put_index f then
      if bufsz <=? put then (put mod bufsz, if get_index f <=? put mod bufsz then true else is_full f)
      else (put, is_full f)
    else if get_index f <=? put then ((if bufsz <=? put then put mod bufsz else put), true)
    else (put, is_full f) in
  MkFifo (buffer f) put (if full : bool then put else get_index f) full.

(** [rt_memcpy(data, buffer + from, n)] *)
Definition copy_from (b : list Z) (from n : Z) : res (list Z) :=
  if (0 <=? from) && (0 <=? n) && (from + n <=? Z.of_nat (length b))
  then Ret (take (Z.to_nat n) (drop (Z.to_nat from) b)) else Fault OutOfBounds.

(** The characters read; for [bufsz] other than 0. *)
Definition _serial_dma_rx (bufsz : Z) (f : rt_serial_rx_fifo) (length : Z) :
    res (list Z * rt_serial_rx_fifo) :=
  let fifo_recved_len := _serial_fifo_calc_recved_len bufsz f in
  let recv_len := if length <? fifo_recved_len then length else fifo_recved_len in
  data ← (if get_index f + recv_len <? bufsz then copy_from (buffer f) (get_index f) recv_len
          else
            a ← copy_from (buffer f) (get_index f) (bufsz - get_index f);
            b ← copy_from (buffer f) 0 (recv_len + get_index f - bufsz);
            Ret (a ++ b));
  f ← rt_dma_recv_update_get_index bufsz f recv_len;
  Ret (data, f).

(** RT_SERIAL_EVENT_RX_DMADONE: [rx_indicate] is called with the length, which may be 0. *)
Definition isr_dmadone (d : dma_port) (len : Z) : Z * dma_port :=
  let f := rt_dma_recv_update_put_index (dma_bufsz d) (fifo d) len in
  (_serial_fifo_calc_recved_len (dma_bufsz d) f, d <| fifo := f |>).

(** * drv_usart.c *)

(** [HAL_UART_RxCpltCallback]; the length announced, if the handler is called. *)
Definition rx_complete (d : dma_port) : option Z * dma_port :=
  let recv_len := dma_bufsz d - last_index d in
  let d := d <| last_index := 0 |> in
  if recv_len =? 0 then (None, d)
  else let '(n, d) := isr_dmadone d recv_len in (Some n, d).

(** [uart_isr], the line is idle. *)
Definition rx_idle (d : dma_port) : option Z * dma_port :=
  let recv_total_index := dma_index d in
  let recv_len := u32 (recv_total_index - last_index d) in
  let d := d <| last_index := recv_total_index |> in
  if recv_len =? 0 then (None, d)
  else let '(n, d) := isr_dmadone d recv_len in (Some n, d).

(** The DMA writes a character, around the end of the buffer. *)
Definition dma_write (d : dma_port) (ch : Z) : res (option Z * dma_port) :=
  b ← set_byte (buffer (fifo d)) (dma_index d) ch;
  let f := fifo d in
  let d := d <| fifo := MkFifo b (put_index f) (get_index f) (is_full f) |> in
  Ret (if dma_index d + 1 =? dma_bufsz d then rx_complete (d <| dma_index := 0 |>)
       else (None, d <| dma_index := dma_index d + 1 |>)).

(** The buffer as [rt_serial_open] and [stm32_dma_config] leave it. *)
Definition dma_open (bufsz : Z) : dma_port :=
  MkDma (MkFifo (replicate (Z.to_nat bufsz) 0) 0 0 false) bufsz 0 0.
