(* ===== verification/SerialDmaSpec.v ===== *)
(** The receive buffer in DMA mode (SerialDma.v) as two queues: the characters that have
    been announced and those the DMA has only written. *)

From S2P Require Import Prelude Event Serial SerialSpec SerialDma.

Definition announced (d : dma_port) : list Z :=
  ring (dma_bufsz d) (buffer (fifo d)) (get_index (fifo d))
    (Z.to_nat (_serial_fifo_calc_recved_len (dma_bufsz d) (fifo d))).
Definition pending (d : dma_port) : list Z :=
  ring (dma_bufsz d) (buffer (fifo d)) (last_index d) (Z.to_nat (dma_index d - last_index d)).

Record dma_ok (d : dma_port) : Prop := {
  dk_size : 2 <= dma_bufsz d < 32768;
  dk_length : Z.of_nat (length (buffer (fifo d))) = dma_bufsz d;
  dk_bytes : Forall is_byte (buffer (fifo d));
  dk_put : put_index (fifo d) = last_index d;
  dk_get : 0 <= get_index (fifo d) < dma_bufsz d;
  dk_last : 0 <= last_index d <= dma_index d;
  dk_index : dma_index d < dma_bufsz d;
  dk_full : is_full (fifo d) = true → put_index (fifo d) = get_index (fifo d) }.

(** What the buffer holds in all. *)
Definition unread (d : dma_port) : nat := (length (announced d) + length (pending d))%nat.

Lemma ring_app size b g n m :
  2 <= size → ring size b g (n + m) = ring size b g n ++ ring size b ((g + Z.of_nat n) mod size) m.
Proof.
  intros Hs. unfold ring. rewrite seq_app, fmap_app. f_equal. cbn.
  replace n with (n + 0)%nat at 1 by lia.
  rewrite <- fmap_add_seq, <- list_fmap_compose. apply list_fmap_ext. intros ? i _. cbn.
  rewrite Z.add_mod_idemp_l by lia. do 3 f_equal. lia.
Qed.

(** A write outside the range. *)
Lemma ring_write size b g n k c :
  (∀ i : nat, (i < n)%nat → (g + Z.of_nat i) mod size ≠ k) → 2 <= size → 0 <= k →
  ring size (<[Z.to_nat k := c]> b) g n = ring size b g n.
Proof.
  intros Hne Hs Hk. unfold ring. apply list_fmap_ext. intros i ? [-> Hi]%lookup_seq. cbn.
  rewrite !nth_lookup, list_lookup_insert_ne; [done|].
  intros E. apply (Hne i Hi). apply Z2Nat.inj in E; [done|done|apply Z.mod_pos_bound; lia].
Qed.

Definition recved (d : dma_port) : Z := _serial_fifo_calc_recved_len (dma_bufsz d) (fifo d).

Lemma recved_spec d : dma_ok d →
  0 <= recved d <= dma_bufsz d ∧ last_index d = (get_index (fifo d) + recved d) mod dma_bufsz d.
Proof.
  intros []. unfold recved, _serial_fifo_calc_recved_len.
  rewrite <- dk_put0. assert (put_index (fifo d) < dma_bufsz d) by lia.
  repeat case_if; split; try lia; wraps.
Qed.

Lemma announced_length d : dma_ok d → Z.of_nat (length (announced d)) = recved d.
Proof. intros H. unfold announced. rewrite ring_length, Z2Nat.id; [done|]. apply (recved_spec d H). Qed.

Lemma pending_length d : dma_ok d → Z.of_nat (length (pending d)) = dma_index d - last_index d.
Proof. intros []. unfold pending. rewrite ring_length, Z2Nat.id; [done|lia]. Qed.

Lemma unread_Z d : dma_ok d → Z.of_nat (unread d) = recved d + (dma_index d - last_index d).
Proof. intros H. unfold unread. rewrite Nat2Z.inj_add, announced_length, pending_length by done. done. Qed.

(** ** The interrupts *)

(** The new indices when [len] characters behind the announced ones are announced. *)
Lemma update_put size f len :
  2 <= size < 32768 → 0 <= put_index f < size → 0 <= get_index f < size → 0 < len <= size →
  (is_full f = true → put_index f = get_index f) →
  let f' := rt_dma_recv_update_put_index size f len in
  buffer f' = buffer f ∧ put_index f' = (put_index f + len) mod size ∧
  0 <= get_index f' < size ∧ (is_full f' = true → put_index f' = get_index f') ∧
  (_serial_fifo_calc_recved_len size f + len <= size →
   get_index f' = get_index f ∧
   _serial_fifo_calc_recved_len size f' = _serial_fifo_calc_recved_len size f + len).
Proof.
  intros Hs Hp Hg Hl Hf. destruct f as [b p g full]. cbn in *.
  unfold rt_dma_recv_update_put_index, _serial_fifo_calc_recved_len. cbn.
  rewrite u16_small by lia.
  assert ((p + len) mod size = p + len ∧ p + len < size ∨
          (p + len) mod size = p + len - size ∧ size <= p + len < 2 * size) as Hm.
  { destruct (wrap_cases size (p + len)) as [[]|[[]|[]]]; lia. }
  destruct full; [specialize (Hf eq_refl); subst g|clear Hf];
    repeat (case_if; cbn [put_index get_index is_full buffer]);
    repeat match goal with
    | H : (if ?b then _ else _) = _ |- _ => destruct b eqn:?; bool_prop; try discriminate
    end;
    split_and!; try done; try lia; intros; split_and!; try done; try lia.
Qed.

(** An announcement of [len] characters from a port whose hardware has moved on. *)
Lemma announce d len l' i' :
  dma_ok d → 0 < len <= dma_bufsz d → (last_index d + len) mod dma_bufsz d = l' →
  0 <= l' <= i' → i' < dma_bufsz d →
  let '(n, d2) := isr_dmadone (d <| last_index := l' |> <| dma_index := i' |>) len in
  dma_ok d2 ∧ n = recved d2 ∧ dma_bufsz d2 = dma_bufsz d ∧
  pending d2 = ring (dma_bufsz d) (buffer (fifo d)) l' (Z.to_nat (i' - l')) ∧
  (recved d + len <= dma_bufsz d →
   announced d2 = announced d ++ ring (dma_bufsz d) (buffer (fifo d)) (last_index d) (Z.to_nat len)).
Proof.
  intros Hd Hlen Hl' Hi Hi'. pose proof (recved_spec d Hd) as [HR HRl]. pose proof Hd as [].
  destruct (update_put (dma_bufsz d) (fifo d) len) as (Hb & Hp & Hg & Hf & Hfit); try lia; [done|].
  unfold isr_dmadone. cbn [dma_bufsz fifo last_index dma_index].
  set (f' := rt_dma_recv_update_put_index _ _ _) in *. split_and!.
  - split; cbn; rewrite ?Hb; try done; try lia. by rewrite Hp, dk_put0.
  - done.
  - done.
  - unfold pending. cbn. by rewrite Hb.
  - intros Hfits. destruct (Hfit Hfits) as [Hg' HR'].
    unfold announced. cbn -[ring _serial_fifo_calc_recved_len f']. rewrite HR', Hb, Hg'. fold (recved d).
    rewrite Z2Nat.inj_add, ring_app by lia. by rewrite Z2Nat.id, <- HRl by lia.
Qed.

(** The line goes idle. *)
Lemma rx_idle_spec d : dma_ok d →
  let '(ann, d') := rx_idle d in
  dma_ok d' ∧ dma_bufsz d' = dma_bufsz d ∧ pending d' = [] ∧
  (ann = None ↔ pending d = []) ∧ (ann = None → d' = d) ∧
  ((unread d <= Z.to_nat (dma_bufsz d))%nat →
   announced d' = announced d ++ pending d ∧ (ann = None ∨ ann = Some (recved d'))).
Proof.
  intros Hd. pose proof (pending_length d Hd) as Hp. pose proof (unread_Z d Hd) as Hu.
  pose proof Hd as []. unfold rx_idle. rewrite u32_small by lia.
  assert (pending d = [] ↔ dma_index d - last_index d = 0) as Hnil
    by (rewrite <- length_zero_iff_nil; lia).
  case_if.
  - assert (d <| last_index := dma_index d |> = d) as ->.
    { destruct d. cbn in *. by replace last_index with dma_index by lia. }
    assert (pending d = []) as Hnil' by by apply Hnil.
    split_and!; try done. intros _. split; [by rewrite Hnil', app_nil_r|by left].
  - pose proof (announce d (dma_index d - last_index d) (dma_index d) (dma_index d) Hd) as Ha.
    replace (d <| last_index := dma_index d |> <| dma_index := dma_index d |>)
      with (d <| last_index := dma_index d |>) in Ha by done.
    destruct (isr_dmadone _ _) as [n d']. destruct Ha as (Hd' & -> & Hs & Hpend & Hann);
      [lia| |lia|lia|].
    { rewrite Z.mod_small by lia. lia. }
    split_and!; try done.
    + rewrite Hpend, Z.sub_diag. done.
    + split; [done|]. by intros ?%Hnil.
    + intros Hfit. split; [|by right]. apply Hann. lia.
Qed.

(** The DMA writes a character. *)
Lemma dma_write_spec d ch : dma_ok d →
  ∃ ann d', dma_write d ch = Ret (ann, d') ∧ dma_ok d' ∧ dma_bufsz d' = dma_bufsz d ∧
  ((unread d < Z.to_nat (dma_bufsz d))%nat →
   match ann with
   | None => announced d' = announced d ∧ pending d' = pending d ++ [u8 ch]
   | Some n => announced d' = announced d ++ pending d ++ [u8 ch] ∧ pending d' = [] ∧ n = recved d'
   end).
Proof.
  intros Hd. pose proof (unread_Z d Hd) as Hu. pose proof (recved_spec d Hd) as [HR HRl].
  pose proof Hd as []. unfold dma_write, set_byte.
  replace ((0 <=? dma_index d) && (dma_index d <? Z.of_nat (length (buffer (fifo d))))) with true
    by (symmetry; apply andb_true_iff; rewrite Z.leb_le, Z.ltb_lt; lia).
  rewrite res_bind_ret. set (b' := <[_ := _]> _).
  set (d0 := d <| fifo := MkFifo b' _ _ _ |>).
  assert (Z.of_nat (length b') = dma_bufsz d) as Hl by (unfold b'; by rewrite length_insert).
  assert (Forall is_byte b') as Hby by (apply Forall_insert; [done|apply u8_byte]).
  assert (dma_ok d0) as Hd0 by (by split).
  assert (recved d0 = recved d) as HR0 by done.
  assert ((unread d < Z.to_nat (dma_bufsz d))%nat → announced d0 = announced d ∧
    ring (dma_bufsz d) b' (last_index d) (Z.to_nat (dma_index d - last_index d + 1)) = pending d ++ [u8 ch])
    as Hkeep.
  { intros Hfit. split.
    - apply (ring_write (dma_bufsz d)); [|lia..]. intros i Hi.
      change (i < Z.to_nat (recved d))%nat in Hi. change (get_index (fifo d0)) with (get_index (fifo d)).
      revert HRl. wraps.
    - replace (Z.to_nat (dma_index d - last_index d + 1)) with (S (Z.to_nat (dma_index d - last_index d))) by lia.
      unfold pending, b'.
      replace (dma_index d) with ((last_index d + Z.of_nat (Z.to_nat (dma_index d - last_index d))) mod dma_bufsz d) at 1
        by (rewrite Z2Nat.id by lia; rewrite Z.mod_small; lia).
      apply ring_snoc; lia. }
  change (dma_index d0) with (dma_index d). change (dma_bufsz d0) with (dma_bufsz d).
  case_if.
  - unfold rx_complete. change (dma_bufsz (d0 <| dma_index := 0 |>)) with (dma_bufsz d).
    change (last_index (d0 <| dma_index := 0 |>)) with (last_index d).
    decide_if (dma_bufsz d - last_index d =? 0) false.
    pose proof (announce d0 (dma_bufsz d - last_index d) 0 0 Hd0) as Ha.
    change (dma_bufsz d0) with (dma_bufsz d) in Ha. change (last_index d0) with (last_index d) in Ha.
    replace (d0 <| last_index := 0 |> <| dma_index := 0 |>)
      with (d0 <| dma_index := 0 |> <| last_index := 0 |>) in Ha by done.
    destruct (isr_dmadone _ _) as [n d'].
    destruct Ha as (Hd' & -> & Hs & Hpend & Hann); [lia| |lia|lia|].
    { replace (last_index d + (dma_bufsz d - last_index d)) with (dma_bufsz d) by lia. apply Z.mod_same. lia. }
    eexists _, d'. split_and!; [done|done|done|]. intros Hfit. destruct (Hkeep Hfit) as [Ha0 Hp0].
    split_and!; [|exact Hpend|done]. rewrite Hann by (rewrite HR0; lia). rewrite Ha0. f_equal.
    cbn [fifo buffer d0]. rewrite <- Hp0. do 2 f_equal. lia.
  - eexists None, _. split_and!; [done| |done|].
    + split; cbn; try done; lia.
    + intros Hfit. destruct (Hkeep Hfit) as [Ha0 Hp0]. split; [exact Ha0|]. rewrite <- Hp0.
      unfold pending. cbn. do 2 f_equal. lia.
Qed.

(** ** Reading *)

Lemma ring_below size b g n :
  0 <= g → Z.of_nat (length b) = size → g + Z.of_nat n <= size →
  ring size b g n = take n (drop (Z.to_nat g) b).
Proof.
  intros Hg Hb Hn. apply list_eq. intros i. unfold ring. rewrite list_lookup_fmap.
  destruct (decide (i < n)%nat) as [Hi|Hi].
  - rewrite lookup_seq_lt by done. cbn. rewrite lookup_take_lt, lookup_drop by done.
    rewrite Z.mod_small by lia. replace (Z.to_nat (g + Z.of_nat i)) with (Z.to_nat g + i)%nat by lia.
    destruct (nth_lookup_or_length b (Z.to_nat g + i) 0) as [->|]; [done|lia].
  - rewrite lookup_seq_ge by lia. cbn. rewrite lookup_take_ge by lia. done.
Qed.

Lemma copy_from_ring size b from n :
  Z.of_nat (length b) = size → 0 <= from → 0 <= n → from + n <= size →
  copy_from b from n = Ret (ring size b from (Z.to_nat n)).
Proof.
  intros Hb Hf Hn Hs. unfold copy_from.
  replace ((0 <=? from) && (0 <=? n) && (from + n <=? Z.of_nat (length b))) with true
    by (symmetry; rewrite !andb_true_iff, !Z.leb_le; lia).
  by rewrite ring_below by lia.
Qed.

Lemma update_get size f r :
  2 <= size → 0 <= put_index f < size → 0 <= get_index f < size →
  (is_full f = true → put_index f = get_index f) →
  0 <= r <= _serial_fifo_calc_recved_len size f →
  _serial_fifo_calc_recved_len size
    (MkFifo (buffer f) (put_index f) ((get_index f + r) mod size)
       (if is_full f && negb (r =? 0) then false else is_full f)) =
  _serial_fifo_calc_recved_len size f - r.
Proof.
  intros Hs Hp Hg Hf. destruct f as [b p g full]. cbn in *. unfold _serial_fifo_calc_recved_len.
  cbn [put_index get_index is_full]. intros Hr.
  assert ((g + r) mod size = g + r ∧ g + r < size ∨
          (g + r) mod size = g + r - size ∧ size <= g + r <= g + size) as Hm.
  { assert (0 <= r <= size) by (revert Hr; repeat case_if; lia).
    destruct (wrap_cases size (g + r)) as [[]|[[]|[]]]; lia. }
  destruct full; [specialize (Hf eq_refl); subst g|clear Hf];
    destruct (r =? 0) eqn:Er; bool_prop; cbn [negb andb];
    revert Hr; repeat case_if; lia.
Qed.

(** [rt_device_read] in DMA mode takes up to [length] announced characters. *)
Lemma dma_rx_spec d length : dma_ok d → 0 < length →
  ∃ f, _serial_dma_rx (dma_bufsz d) (fifo d) length = Ret (take (Z.to_nat length) (announced d), f) ∧
    let d' := d <| fifo := f |> in
    dma_ok d' ∧ announced d' = drop (Z.to_nat length) (announced d) ∧ pending d' = pending d.
Proof.
  intros Hd Hlen. pose proof (recved_spec d Hd) as [HR HRl]. pose proof (announced_length d Hd) as HA.
  pose proof Hd as []. unfold _serial_dma_rx. fold (recved d).
  set (r := if length <? recved d then length else recved d).
  assert (0 <= r <= recved d ∧ take (Z.to_nat length) (announced d) = take (Z.to_nat r) (announced d) ∧
          drop (Z.to_nat length) (announced d) = drop (Z.to_nat r) (announced d)) as (Hr & -> & ->).
  { unfold r. case_if; [split_and!; done || lia|]. split; [lia|].
    rewrite !(take_ge (announced d)), !(drop_ge (announced d)) by lia. done. }
  clearbody r.
  assert (announced d = ring (dma_bufsz d) (buffer (fifo d)) (get_index (fifo d)) (Z.to_nat r) ++
            ring (dma_bufsz d) (buffer (fifo d)) ((get_index (fifo d) + r) mod dma_bufsz d)
              (Z.to_nat (recved d - r))) as HA2.
  { unfold announced. fold (recved d). replace (recved d) with (r + (recved d - r)) at 1 by lia.
    rewrite Z2Nat.inj_add, ring_app by lia. by rewrite (Z2Nat.id r) by lia. }
  assert (mbind (λ data, f ← rt_dma_recv_update_get_index (dma_bufsz d) (fifo d) r; Ret (data, f))
            (if get_index (fifo d) + r <? dma_bufsz d then copy_from (buffer (fifo d)) (get_index (fifo d)) r
             else a ← copy_from (buffer (fifo d)) (get_index (fifo d)) (dma_bufsz d - get_index (fifo d));
                  b ← copy_from (buffer (fifo d)) 0 (r + get_index (fifo d) - dma_bufsz d); Ret (a ++ b)) =
          (f ← rt_dma_recv_update_get_index (dma_bufsz d) (fifo d) r;
           Ret (ring (dma_bufsz d) (buffer (fifo d)) (get_index (fifo d)) (Z.to_nat r), f))) as ->.
  { case_if.
    - by rewrite (copy_from_ring (dma_bufsz d)) by lia.
    - rewrite !(copy_from_ring (dma_bufsz d)) by lia. rewrite !res_bind_ret.
      replace (Z.to_nat r) with (Z.to_nat (dma_bufsz d - get_index (fifo d)) +
        Z.to_nat (r + get_index (fifo d) - dma_bufsz d))%nat by lia.
      rewrite ring_app by lia. rewrite Z2Nat.id by lia.
      by replace ((get_index (fifo d) + (dma_bufsz d - get_index (fifo d))) mod dma_bufsz d) with 0
        by (replace (get_index (fifo d) + (dma_bufsz d - get_index (fifo d))) with (dma_bufsz d) by lia;
            symmetry; apply Z.mod_same; lia). }
  unfold rt_dma_recv_update_get_index. fold (recved d). decide_if (r <=? recved d) true.
  rewrite res_bind_ret, u16_small by lia.
  set (g := if dma_bufsz d <=? get_index (fifo d) + r
            then (get_index (fifo d) + r) mod dma_bufsz d else get_index (fifo d) + r).
  assert (g = (get_index (fifo d) + r) mod dma_bufsz d) as Hg.
  { unfold g. case_if; [done|]. by rewrite Z.mod_small by lia. }
  assert (0 <= g < dma_bufsz d) as Hgb by (rewrite Hg; apply Z.mod_pos_bound; lia).
  set (full := if is_full (fifo d) && negb (r =? 0) then false else is_full (fifo d)).
  assert (full = true → put_index (fifo d) = g) as Hfull.
  { unfold full. intros Hf. destruct (is_full (fifo d)) eqn:Ef; [|done]. cbn in Hf.
    destruct (Z.eqb_spec r 0) as [->|]; [|done]. rewrite Hg, Z.add_0_r, Z.mod_small by lia. by apply dk_full0. }
  rewrite HA2, take_app_length', drop_app_length' by (by rewrite ring_length).
  eexists. split; [done|]. split_and!; [|  |done].
  { split; cbn; done. }
  unfold announced. cbn -[ring _serial_fifo_calc_recved_len g full]. rewrite Hg. do 2 f_equal.
  apply update_get; lia || done.
Qed.
