(* ===== verification/SerialFile.v ===== *)
(** The serial port as a file (the file operations of serial.c), which is how the shell
    reads the console, and what serial.c has besides: reading by polling and from the DMA
    buffer, the controls, and the registration.

    The thread that reads the file and the interrupt of the port interleave.  [at_] says
    where the thread stands in [serial_fops_read] and [rt_wqueue_wait]; one step is one
    section it runs with interrupts disabled, an interrupt the handler with the callback
    [serial_fops_rx_ind]. *)

From S2P Require Import Prelude Event Serial SerialDma WaitQueue.

Definition RT_DEVICE_FLAG_RDONLY := 1.
Definition RT_DEVICE_FLAG_WRONLY := 2.
Definition RT_DEVICE_FLAG_RDWR := 3.
Definition RT_DEVICE_FLAG_SUSPENDED := 32.
Definition RT_DEVICE_CTRL_SET_INT := 16.
Definition RT_DEVICE_CTRL_CLR_INT := 17.
Definition O_RDONLY := 0.
Definition O_WRONLY := 1.
Definition O_RDWR := 2.
Definition O_SEARCH := 2097152.
Definition O_ACCMODE := Z.lor 3 O_SEARCH.

(** * Reading in the other modes *)

(** [_serial_poll_rx]: [chars] is what [ops->getc] returns before -1; what is read, and
    what stays in the hardware. *)
Fixpoint _serial_poll_rx (chars : list Z) (length : nat) : list Z * list Z :=
  match length, chars with
  | O, _ | _, [] => ([], chars)
  | S length, ch :: chars =>
      if ch =? 10 then ([u8 ch], chars)
      else let '(data, rest) := _serial_poll_rx chars length in (u8 ch :: data, rest)
  end.

(** [rt_serial_read] of a port that is not in interrupt mode.  Without a buffer the DMA
    would have to be started, and [ops->dma_transmit] of the driver is null. *)
Definition other_read (chars : list Z) (s : rt_serial_device) (size : nat) :
    res (list Z * rt_serial_device) :=
  if flag (open_flag s) RT_DEVICE_FLAG_DMA_RX then
    match serial_rx s with
    | RxFifo f =>
        if bufsz (config s) =? 0 then Fault AssertFailed
        else
          '(data, f) ← _serial_dma_rx (bufsz (config s)) f (Z.of_nat size);
          Ret (data, s <| serial_rx := RxFifo f |>)
    | _ => Fault AssertFailed
    end
  else Ret ((_serial_poll_rx chars size).1, s).

(** * Controls and registration *)

(** The arguments of [rt_serial_control]; the terminal commands are not configured. *)
Inductive control_cmd : Type :=
  | CtrlSuspend
  | CtrlResume
  | CtrlConfig (args : option serial_configure)
  | FionRead
  | CtrlOther (cmd : Z).

(** [stm32_control], but for the configuration of the DMA, which no caller passes on. *)
Definition stm32_control (s : rt_serial_device) (cmd : Z) : Z * rt_serial_device :=
  (RT_EOK, if cmd =? RT_DEVICE_CTRL_CLR_INT then s <| rx_irq := false |>
           else if cmd =? RT_DEVICE_CTRL_SET_INT then s <| rx_irq := true |> else s).

(** The result and, for FIONREAD, what is stored. *)
Definition serial_control (s : rt_serial_device) (cmd : control_cmd) :
    res (Z * option Z * rt_serial_device) :=
  match cmd with
  | CtrlSuspend => Ret (RT_EOK, None, s <| dev_flag := Z.lor (dev_flag s) RT_DEVICE_FLAG_SUSPENDED |>)
  | CtrlResume => Ret (RT_EOK, None, s <| dev_flag := Z.ldiff (dev_flag s) RT_DEVICE_FLAG_SUSPENDED |>)
  | CtrlConfig None => Ret (RT_EOK, None, s)
  | CtrlConfig (Some c) => let '(r, s) := rt_serial_control s c in Ret (r, None, s)
  | FionRead =>
      match serial_rx s with
      | RxFifo f => Ret (RT_EOK, Some (_serial_fifo_calc_recved_len (bufsz (config s)) f), s)
      | RxNull => Fault AssertFailed
      | RxDma => Fault OutOfBounds
      end
  | CtrlOther cmd => let '(r, s) := stm32_control s cmd in Ret (r, None, s)
  end.

(** [rt_hw_serial_register] of the driver's [rt_hw_usart_init], which always gets a new
    name: the flags with or without a DMA channel. *)
Definition rt_hw_serial_register (config : serial_configure) (dma : bool) : rt_serial_device :=
  MkSerial (Z.lor (Z.lor RT_DEVICE_FLAG_RDWR RT_DEVICE_FLAG_INT_RX)
              (if dma then RT_DEVICE_FLAG_DMA_RX else 0)) 0 0 false config RxNull TxNull false.

(** * The file *)

(** Where the thread is: in [rt_device_read] with what it has read, at [rt_wqueue_wait],
    suspended, scheduled again, and at [rt_wqueue_remove]. *)
Inductive file_position : Type := AtRead (data : list Z) | AtWait | Asleep | Woken | AtRemove.

Inductive read_result : Type := ReadData (data : list Z) | ReadAgain.

Record console : Type := MkConsole {
  serial : rt_serial_device;
  wait_queue : rt_wqueue;
  at_ : file_position;
  reads : list read_result }.
#[global] Instance console_eta : Eta console :=
  λ c, MkConsole (serial c) (wait_queue c) (at_ c) (reads c).

Definition set_serial (s : rt_serial_device) : io console unit := modify (λ c, c <| serial := s |>).
Definition set_queue (q : rt_wqueue) : io console unit := modify (λ c, c <| wait_queue := q |>).
Definition go (p : file_position) : io console unit := modify (λ c, c <| at_ := p |>).

(** [flags] is [fd->flags]; the callback is set before the device is open. *)
Definition serial_fops_open (configure rt_malloc : nat → bool) (flags : Z) : io console Z :=
  let mode := Z.land flags O_ACCMODE in
  let oflag :=
    if mode =? O_RDONLY then Z.lor RT_DEVICE_FLAG_INT_RX RT_DEVICE_FLAG_RDONLY
    else if mode =? O_WRONLY then RT_DEVICE_FLAG_WRONLY
    else if mode =? O_RDWR then Z.lor RT_DEVICE_FLAG_INT_RX RT_DEVICE_FLAG_RDWR
    else 0 in
  (if negb (mode =? O_WRONLY) then
     s ← gets serial; set_serial (rt_device_set_rx_indicate s).2
   else mret tt) ;;
  s ← gets serial;
  '(ret, s) ← lift (rt_device_open configure rt_malloc 0 s oflag);
  set_serial s ;;
  mret ret.

Definition serial_fops_close : io console Z :=
  s ← gets serial;
  set_serial (s <| rx_indicate := false |>) ;;
  s ← gets serial;
  '(_, s) ← lift (rt_device_close s);
  set_serial s ;;
  mret 0.

Definition serial_fops_ioctl (cmd : control_cmd) : io console (Z * option Z) :=
  s ← gets serial;
  '(r, out, s) ← lift (serial_control s cmd);
  set_serial s ;;
  mret (r, out).

(** The size returned and the characters that go out. *)
Definition serial_fops_write (data : list Z) : io console (Z * list Z) :=
  s ← gets serial; lift (rt_device_write s data).

(** The mask of [serial_fops_poll], after [rt_poll_add] (Poll.v). *)
Definition serial_poll_mask (s : rt_serial_device) (flags : Z) : res Z :=
  let mode := Z.land flags O_ACCMODE in
  if (mode =? O_RDONLY) || (mode =? O_RDWR) then
    match serial_rx s with
    | RxFifo f =>
        Ret (if negb (get_index f =? put_index f) || is_full f then POLLIN else 0)
    | RxNull => Fault NullDeref
    | RxDma => Fault OutOfBounds
    end
  else Ret 0.

Section file.
(** The thread that reads, its node, the sizes it asks for by the number of the read, and
    whether the file is open with O_NONBLOCK. *)
Variables (self node : Z) (count : nat → nat) (nonblock : bool).
Variable pending : list Z.

(** [rt_thread_resume] of a thread that is not suspended does nothing. *)
Definition resume_reader (n : rt_wqueue_node) : io console unit :=
  modify (λ c, match at_ c with
               | Asleep => if polling_thread n =? self then c <| at_ := Woken |> else c
               | _ => c
               end).

Definition serial_fops_rx_ind : io console unit :=
  q ← gets wait_queue;
  let '(q, woken) := rt_wqueue_wakeup q POLLIN in
  set_queue q ;;
  match woken with Some n => resume_reader n | None => mret tt end.

Definition console_isr (chars : list Z) : io console unit :=
  s ← gets serial;
  if rx_irq s then
    '(indicated, s) ← lift (rt_hw_serial_isr s chars);
    set_serial s ;;
    match indicated with Some _ => serial_fops_rx_ind | None => mret tt end
  else mret tt.

Definition returns (r : read_result) : io console unit :=
  modify (λ c, c <| reads := reads c ++ [r] |>) ;; go (AtRead []).

(** What [serial_fops_read] does with the result of [rt_device_read]. *)
Definition after_read (data : list Z) : io console unit :=
  match data with
  | _ :: _ => returns (ReadData data)
  | [] => if nonblock then returns ReadAgain else go AtWait
  end.

(** The loop of [_serial_int_rx] takes a character at a time. *)
Definition in_int_rx (s : rt_serial_device) (k : nat) : bool :=
  negb (ref_count s =? 0) && (0 <? k)%nat && flag (open_flag s) RT_DEVICE_FLAG_INT_RX.

(** [serial_fops_read], called again and again. *)
Definition read_step : io console unit :=
  p ← gets at_;
  match p with
  | AtRead data =>
      s ← gets serial;
      k ← gets (λ c, count (length (reads c)));
      if in_int_rx s k then
        match serial_rx s with
        | RxFifo f =>
            if (k <=? length data)%nat then after_read data
            else
              r ← lift (fifo_get (bufsz (config s)) f);
              match r with
              | None => after_read data
              | Some (ch, f) => set_serial (s <| serial_rx := RxFifo f |>) ;; go (AtRead (data ++ [ch]))
              end
        | _ => io_fault AssertFailed
        end
      else
        '(data, s) ← lift (rt_device_read (other_read pending) s k);
        set_serial s ;;
        after_read data
  | AtWait =>
      q ← gets wait_queue;
      match rt_wqueue_wait q node self false RT_WAITING_FOREVER with
      | WaitReturns => go (AtRead [])
      | WaitFlagged q => set_queue q ;; go AtRemove
      | WaitSuspends q => set_queue q ;; go Asleep
      end
  | Asleep => mret tt
  | Woken => q ← gets wait_queue; set_queue (wait_clears q) ;; go AtRemove
  | AtRemove => q ← gets wait_queue; set_queue (rt_wqueue_remove q node) ;; go (AtRead [])
  end.

Inductive console_action : Type := ConsoleIsr (chars : list Z) | ConsoleStep.

Definition console_act (a : console_action) : io console unit :=
  match a with ConsoleIsr chars => console_isr chars | ConsoleStep => read_step end.

Fixpoint console_run (acts : list console_action) : io console unit :=
  match acts with [] => mret tt | a :: acts => console_act a ;; console_run acts end.
End file.
