(* ===== verification/SerialFileSpec.v ===== *)
(** The console (SerialFile.v): what the thread that reads the file gets of what the
    interrupt receives, under every interleaving of the two. *)

From S2P Require Import Prelude Event Serial SerialSpec WaitQueue SerialFile.

Definition data_of (r : read_result) : list Z :=
  match r with ReadData data => data | ReadAgain => [] end.
(** What the read under way has already taken. *)
Definition held (c : console) : list Z := match at_ c with AtRead data => data | _ => [] end.
Definition delivered (c : console) : list Z := concat (data_of <$> reads c) ++ held c.

Fixpoint came (acts : list console_action) : list Z :=
  match acts with
  | [] => []
  | ConsoleIsr chars :: acts => (u8 <$> chars) ++ came acts
  | ConsoleStep :: acts => came acts
  end.
Fixpoint read_steps (acts : list console_action) : nat :=
  match acts with
  | [] => 0
  | ConsoleIsr _ :: acts => read_steps acts
  | ConsoleStep :: acts => S (read_steps acts)
  end.

Section console.
Variables (self node : Z) (count : nat → nat) (nonblock : bool) (pending : list Z).
Variable size : Z.
Hypothesis count_pos : ∀ i, (0 < count i)%nat.

Abbreviation step := (read_step self node count nonblock pending).
Abbreviation run := (console_run self node count nonblock pending).

(** The characters received that the thread has not taken. *)
Definition unread (c : console) : list Z :=
  match serial_rx (serial c) with RxFifo f => content size f | _ => [] end.

(** The list of the wait queue. *)
Definition waiters_at (p : file_position) : list rt_wqueue_node :=
  match p with Asleep => [MkNode node self 0 WakeDefault] | _ => [] end.

(** The thread sleeps only on an empty buffer, and when it is about to on one that is not
    empty, the queue has been woken. *)
Definition settled (c : console) : Prop :=
  match at_ c with
  | AtRead data => (length data <= count (length (reads c)))%nat
  | AtWait => unread c = [] ∨ wq_flag (wait_queue c) = RT_WQ_FLAG_WAKEUP
  | Asleep => unread c = []
  | Woken | AtRemove => True
  end.

Definition result_ok (i : nat) (r : read_result) : Prop :=
  match r with
  | ReadData data => (0 < length data <= count i)%nat
  | ReadAgain => nonblock = true
  end.

Record console_ok (c : console) : Prop := {
  co_dev : ∃ f, receiving size (serial c) f ∧ rx_indicate (serial c) = true;
  co_list : waiting_list (wait_queue c) = waiters_at (at_ c);
  co_at : settled c;
  co_reads : ∀ i r, reads c !! i = Some r → result_ok i r }.

Lemma unread_receiving c f : receiving size (serial c) f → unread c = content size f.
Proof. intros []. unfold unread. by rewrite rc_rx. Qed.

(** ** The interrupt *)

Definition woken_position (p : file_position) : file_position :=
  match p with Asleep => Woken | p => p end.

Lemma rx_ind_ok (c : console) : waiting_list (wait_queue c) = waiters_at (at_ c) →
  serial_fops_rx_ind self c =
    Ret (tt, c <| wait_queue := MkWqueue RT_WQ_FLAG_WAKEUP [] |> <| at_ := woken_position (at_ c) |>).
Proof.
  destruct c as [s [fl l] p r]. unfold serial_fops_rx_ind, mbind, io_bind, gets. cbn. intros ->.
  destruct p; try done. cbn. unfold resume_reader, modify. cbn. by rewrite Z.eqb_refl.
Qed.

Lemma console_isr_ok (c : console) chars : console_ok c →
  wp (console_isr self chars) (λ _ c', console_ok c' ∧ reads c' = reads c ∧
    unread c' = keep (Z.to_nat (size - 1)) (unread c ++ (u8 <$> chars)) ∧
    at_ c' = match unread c' with [] => at_ c | _ => woken_position (at_ c) end) c.
Proof.
  intros [(f & Hs & Hind) Hl Hst Hr]. pose proof (unread_receiving _ _ Hs) as Hq.
  destruct (isr_receiving size _ f chars Hs) as (f' & Hs' & Hc & Hisr).
  unfold console_isr. apply wp_bind, wp_gets. rewrite (rc_irq _ _ _ Hs), Hisr, Hind. cbn [andb].
  apply wp_bind. eapply wp_lift; [reflexivity|]. apply wp_bind, wp_modify.
  set (c1 := c <| serial := _ |>). assert (unread c1 = content size f') as Hq1 by done.
  rewrite Hq, <- Hc. rewrite <- Hq1. destruct (unread c1) as [|x u] eqn:Eu; cbn [length].
  - apply wp_ret. rewrite Eu. split_and!; [|done..]. split; [by exists f'|done| |done].
    assert (unread c = []) as E0.
    { rewrite Hq. apply length_zero_iff_nil. pose proof (f_equal length Hc) as Hlen.
      rewrite <- Hq1, keep_length, length_app in Hlen. cbn [length] in Hlen.
      destruct (rc_fifo _ _ _ Hs). lia. }
    revert Hst. unfold settled. rewrite Eu, E0. done.
  - change (Z.of_nat (S (length u)) =? 0) with false. cbn [negb]. unfold wp. rewrite (rx_ind_ok c1 Hl).
    split_and!; [|done|exact Eu|].
    + split; [by exists f'| | |done].
      * cbn. by destruct (at_ c).
      * revert Hst. unfold settled. cbn. destruct (at_ c); cbn; auto.
    + match goal with |- context [unread ?c2] => change (unread c2) with (unread c1) end. by rewrite Eu.
Qed.

(** ** The thread *)

(** Steps before the next character is taken. *)
Definition delay (c : console) : nat :=
  match at_ c with
  | AtRead data => if (count (length (reads c)) <=? length data)%nat then 1 else 0
  | AtWait => 3
  | Woken => 2
  | AtRemove => 1
  | Asleep => 0
  end.

Lemma delivered_returns c data r : at_ c = AtRead data → data_of r = data →
  delivered (c <| reads := reads c ++ [r] |> <| at_ := AtRead [] |>) = delivered c.
Proof.
  intros E <-. change (concat (data_of <$> (reads c ++ [r])) ++ [] = delivered c).
  unfold delivered, held. rewrite E, fmap_app, concat_app. cbn. by rewrite !app_nil_r.
Qed.

Lemma after_read_ok (c : console) data :
  console_ok c → at_ c = AtRead data → (data = [] → unread c = []) →
  wp (after_read nonblock data) (λ _ c', console_ok c' ∧ delivered c' = delivered c ∧
    unread c' = unread c ∧ (data ≠ [] → delay c' = 0%nat)) c.
Proof.
  intros [Hd Hl Hst Hr] Hat Hne. unfold settled in Hst. rewrite Hat in Hst, Hl.
  assert (∀ r, data_of r = data → result_ok (length (reads c)) r →
    wp (returns r) (λ _ c', console_ok c' ∧ delivered c' = delivered c ∧ unread c' = unread c ∧
      (data ≠ [] → delay c' = 0%nat)) c) as Hret.
  { intros r Hdata Hok. unfold returns, go. apply wp_bind, wp_modify, wp_modify.
    split; [|split; [by apply (delivered_returns c data)|split; [done|]]].
    - split; [exact Hd|done|unfold settled; cbn; lia|]. cbn. intros i r' Hi.
      apply lookup_app_Some in Hi as [Hi|[Hi Hi2]]; [by apply Hr|].
      apply list_lookup_singleton_Some in Hi2 as [Hi2 <-]. by replace i with (length (reads c)) by lia.
    - intros _. unfold delay. cbn. specialize (count_pos (length (reads c ++ [r]))).
      destruct (count _) as [|k] eqn:E; [lia|done]. }
  unfold after_read. destruct data as [|x data].
  - destruct nonblock eqn:En; [by apply Hret|]. unfold go. apply wp_modify. specialize (Hne eq_refl).
    split; [|split; [|by split]].
    + split; [exact Hd|done|by left|done].
    + unfold delivered, held. by rewrite Hat.
  - apply Hret; [done|]. cbn in *. lia.
Qed.

(** What one step does to the characters. *)
Definition moves (c c' : console) : Prop :=
  match unread c with
  | [] => delivered c' = delivered c ∧ unread c' = []
  | x :: u =>
      delivered c' = delivered c ++ [x] ∧ unread c' = u ∧ (delay c' <= 1)%nat ∨
      delivered c' = delivered c ∧ unread c' = x :: u ∧ (delay c' < delay c)%nat
  end.

Lemma read_data_ok (c : console) data : console_ok c → at_ c = AtRead data →
  wp step (λ _ c', console_ok c' ∧ moves c c') c.
Proof.
  intros Hc Hat. pose proof Hc as [(f & Hs & Hind) Hl Hst Hr].
  pose proof (unread_receiving _ _ Hs) as Hq. unfold settled in Hst. rewrite Hat in Hst, Hl.
  unfold read_step. apply wp_bind, wp_gets. rewrite Hat. apply wp_bind, wp_gets, wp_bind, wp_gets.
  set (k := count (length (reads c))) in *. assert (0 < k)%nat as Hk by apply count_pos.
  assert (in_int_rx (serial c) k = true) as ->.
  { destruct Hs as [Hm Href _ _ _ _]. unfold in_int_rx. rewrite Hm.
    decide_if (ref_count (serial c) =? 0) false. by rewrite (proj2 (Nat.ltb_lt 0 k) Hk). }
  rewrite (rc_rx _ _ _ Hs), (rc_size _ _ _ Hs). destruct (k <=? length data)%nat eqn:Ek.
  - apply Nat.leb_le in Ek. eapply wp_mono.
    { apply (after_read_ok c data Hc Hat). intros ->. cbn in Ek. lia. }
    intros [] c' (Hc' & Hd & Hu & Hde). cbn beta. split; [done|]. unfold moves. rewrite Hu, Hd.
    assert (data ≠ []) as Hne by (intros ->; cbn in Ek; lia).
    destruct (unread c) as [|x u]; [by split|]. right. split_and!; [done|done|].
    rewrite (Hde Hne). unfold delay. rewrite Hat. fold k. rewrite (proj2 (Nat.leb_le _ _) Ek). lia.
  - apply Nat.leb_gt in Ek. pose proof (fifo_get_content size f (rc_fifo _ _ _ Hs)) as Hget.
    apply wp_bind. unfold moves. rewrite Hq. destruct (content size f) as [|x u] eqn:Ec.
    + rewrite Hget. eapply wp_lift; [reflexivity|]. eapply wp_mono.
      { apply (after_read_ok c data Hc Hat). by intros _. }
      intros [] c' (Hc' & Hd & Hu & _). cbn beta. by rewrite Hu.
    + destruct Hget as (f' & -> & Hf' & Hc'). eapply wp_lift; [reflexivity|].
      apply wp_bind, wp_modify, wp_modify. set (c2 := _ <| at_ := _ |>).
      assert (unread c2 = u) as Hu2 by done. split.
      * split; [exists f'; by split; [apply (receiving_fifo size _ f)|]|done| |done].
        unfold settled. cbn. rewrite length_app. cbn. fold k. lia.
      * left. split_and!; [|done|unfold delay; cbn; by case_if; lia].
        unfold delivered at 2, held. rewrite Hat.
        change (delivered c2) with (concat (data_of <$> reads c) ++ data ++ [x]). by rewrite app_assoc.
Qed.

Lemma read_step_ok (c : console) : console_ok c → wp step (λ _ c', console_ok c' ∧ moves c c') c.
Proof.
  intros Hc. destruct (at_ c) as [data| | | |] eqn:Hat; [by eapply read_data_ok|..];
    pose proof Hc as [(f & Hs & Hind) Hl Hst Hr]; unfold settled in Hst; rewrite Hat in Hst, Hl;
    unfold read_step; apply wp_bind, wp_gets; rewrite Hat.
  all: assert (∀ c', unread c' = unread c → delivered c' = delivered c → (delay c' < delay c)%nat → moves c c')
    as Hmv by (intros c' Hu Hd Hlt; unfold moves; destruct (unread c); auto).
  - apply wp_bind, wp_gets. unfold rt_wqueue_wait. cbn [orb].
    change (rt_tick_from_millisecond RT_WAITING_FOREVER =? 0) with false. cbn iota.
    destruct (wq_flag (wait_queue c) =? RT_WQ_FLAG_WAKEUP) eqn:E; bool_prop.
    + apply wp_bind, wp_modify, wp_modify. split.
      * by split; [exists f| | |].
      * apply Hmv; [done|unfold delivered, held; by rewrite Hat|unfold delay; rewrite Hat; cbn; lia].
    + destruct Hst as [Hu|]; [|done]. apply wp_bind, wp_modify, wp_modify. split.
      * split; [by exists f| |exact Hu|done]. cbn. by rewrite Hl.
      * unfold moves. rewrite Hu. split; [unfold delivered, held; by rewrite Hat|exact Hu].
  - apply wp_ret. split; [done|]. unfold moves. by rewrite Hst.
  - apply wp_bind, wp_gets, wp_bind, wp_modify, wp_modify. split.
    + by split; [exists f| | |].
    + apply Hmv; [done|unfold delivered, held; by rewrite Hat|unfold delay; rewrite Hat; cbn; lia].
  - apply wp_bind, wp_gets, wp_bind, wp_modify, wp_modify. split.
    + split; [by exists f|cbn; by rewrite Hl| |done]. unfold settled. cbn. lia.
    + apply Hmv; [done|unfold delivered, held; by rewrite Hat|]. unfold delay. rewrite Hat. cbn.
      specialize (count_pos (length (reads c))). destruct (count _); cbn; lia.
Qed.

(** ** Runs *)

(** At no interrupt the buffer has more than [size - 1] characters to hold. *)
Fixpoint holds (c : console) (acts : list console_action) : Prop :=
  match acts with
  | [] => True
  | a :: acts =>
      match a with
      | ConsoleIsr chars => (length (unread c) + length chars <= Z.to_nat (size - 1))%nat
      | ConsoleStep => True
      end ∧
      match console_act self node count nonblock pending a c with
      | Ret (_, c') => holds c' acts
      | Fault _ => False
      end
  end.

(** An interrupt that the buffer holds. *)
Lemma isr_moves (c : console) chars : console_ok c →
  wp (console_isr self chars) (λ _ c', console_ok c' ∧ delivered c' = delivered c ∧
    (unread c' `sublist_of` unread c ++ (u8 <$> chars)) ∧
    ((length (unread c) + length chars <= Z.to_nat (size - 1))%nat →
      unread c' = unread c ++ (u8 <$> chars) ∧ (unread c ≠ [] → delay c' = delay c))) c.
Proof.
  intros Hc. eapply wp_mono; [by apply console_isr_ok|]. intros [] c' (Hc' & Hr & Hu & Hat). cbn beta.
  assert (at_ c ≠ Asleep → at_ c' = at_ c) as Hsame
    by (intros Hn; rewrite Hat; destruct (unread c'); [done|]; by destruct (at_ c)).
  split_and!; [done| |rewrite Hu; apply sublist_drop|].
  - unfold delivered, held. rewrite Hr, Hat. by destruct (unread c'), (at_ c).
  - intros Hlen. rewrite keep_all in Hu by (by rewrite length_app, length_fmap). split; [done|].
    intros Hne. unfold delay. rewrite Hr, Hsame; [done|]. intros E.
    destruct Hc as [_ _ Hst _]. unfold settled in Hst. by rewrite E in Hst.
Qed.

Lemma moves_keep c c' : moves c c' →
  delivered c' ++ unread c' = delivered c ++ unread c ∧ delivered c `prefix_of` delivered c'.
Proof.
  unfold moves. destruct (unread c) as [|x u]; [by intros [-> ->]|].
  intros [(-> & -> & _)|(-> & -> & _)]; [|by split]. split; [by rewrite <- app_assoc|by eexists].
Qed.

Lemma console_run_ok acts : ∀ c : console, console_ok c →
  wp (run acts) (λ _ c', console_ok c' ∧ delivered c `prefix_of` delivered c' ∧
    delivered c' ++ unread c' `sublist_of` delivered c ++ unread c ++ came acts ∧
    (holds c acts → delivered c' ++ unread c' = delivered c ++ unread c ++ came acts)) c.
Proof.
  induction acts as [|a acts IH]; intros c Hc; cbn [console_run came holds].
  { apply wp_ret. by rewrite !app_nil_r. }
  apply wp_bind. destruct a as [chars|]; cbn [console_act].
  - pose proof (isr_moves c chars Hc) as Hi. unfold wp in Hi |- * at 1.
    destruct (console_isr self chars c) as [[[] c1]|]; [|done]. destruct Hi as (H1 & Hd & Hsub & Hfit).
    eapply wp_mono; [by apply IH|]. intros [] c2 (H2 & Hpre & Hs2 & Hf2). cbn beta. rewrite Hd in *.
    split_and!; [done..| |].
    + etransitivity; [exact Hs2|]. apply sublist_app; [done|]. rewrite app_assoc. by apply sublist_app.
    + intros [Hlen Hrest]. destruct (Hfit Hlen) as [E _]. by rewrite (Hf2 Hrest), E, <- app_assoc.
  - pose proof (read_step_ok c Hc) as Hi. unfold wp in Hi |- * at 1.
    destruct (step c) as [[[] c1]|]; [|done]. destruct Hi as (H1 & [E Hp]%moves_keep).
    eapply wp_mono; [by apply IH|]. intros [] c2 (H2 & Hpre & Hs2 & Hf2). cbn beta.
    rewrite !app_assoc in *. rewrite <- E. split_and!; [done|by etransitivity|done|].
    intros [_ Hrest]. by apply Hf2.
Qed.

Lemma console_run_takes acts : ∀ (c : console) pre post,
  console_ok c → unread c = pre ++ post → holds c acts →
  (pre = [] ∨ (2 * length pre + delay c <= read_steps acts)%nat) →
  wp (run acts) (λ _ c', delivered c ++ pre `prefix_of` delivered c') c.
Proof.
  induction acts as [|a acts IH]; intros c [|x pre] post Hc Hu Hfits Hn.
  1, 3: eapply wp_mono; [by apply console_run_ok|]; intros [] c' (_ & ? & _); by rewrite app_nil_r.
  { destruct Hn as [|Hn]; [done|]. cbn in Hn. lia. }
  destruct Hn as [|Hn]; [done|]. cbn [holds] in Hfits. destruct Hfits as [Hlen Hfits].
  cbn [console_run]. apply wp_bind. destruct a as [chars|]; cbn [console_act read_steps] in *.
  - pose proof (isr_moves c chars Hc) as Hi. unfold wp in Hi |- * at 1.
    destruct (console_isr self chars c) as [[[] c1]|]; [|done]. destruct Hi as (H1 & Hd & _ & Hfit).
    destruct (Hfit Hlen) as [Hu1 Hde]. rewrite <- Hd.
    apply (IH c1 _ (post ++ (u8 <$> chars))); [done|by rewrite Hu1, Hu, <- app_assoc|done|].
    right. by rewrite Hde by (by rewrite Hu).
  - pose proof (read_step_ok c Hc) as Hi. unfold wp in Hi |- * at 1.
    destruct (step c) as [[[] c1]|]; [|done]. destruct Hi as (H1 & Hmv). unfold moves in Hmv.
    rewrite Hu in Hmv. cbn [app] in Hmv. destruct Hmv as [(Hd & Hu1 & Hde)|(Hd & Hu1 & Hde)].
    + replace (delivered c ++ x :: pre) with (delivered c1 ++ pre) by (rewrite Hd, <- app_assoc; done).
      apply (IH c1 _ post); [done..|]. right. cbn in *. lia.
    + rewrite <- Hd. apply (IH c1 _ post); [done..|]. right. cbn in *. lia.
Qed.
End console.

(** ** Opening *)

Section theorems.
Variables (self node : Z) (count : nat → nat) (nonblock : bool) (pending : list Z).
Variables (configure rt_malloc : nat → bool) (size : Z).

(** A port nobody reads, and a thread that has not begun to. *)
Record closed_file (c : console) : Prop := {
  cf_port : openable size (serial c);
  cf_queue : wait_queue c = rt_wqueue_init;
  cf_at : at_ c = AtRead [];
  cf_reads : reads c = [] }.

Lemma fops_open_ok (c0 c : console) flags : closed_file c0 →
  Z.land flags O_ACCMODE = O_RDONLY ∨ Z.land flags O_ACCMODE = O_RDWR →
  serial_fops_open configure rt_malloc flags c0 = Ret (RT_EOK, c) →
  console_ok self node count nonblock size c ∧ delivered c = [] ∧ unread size c = [].
Proof.
  intros [Hp Hq Ha Hr] Hf. set (oflag := if Z.land flags O_ACCMODE =? O_RDONLY then 257 else 259).
  assert (serial_fops_open configure rt_malloc flags c0 =
    match rt_device_open configure rt_malloc 0 ((serial c0) <| rx_indicate := true |>) oflag with
    | Ret (r, s) => Ret (r, c0 <| serial := s |>)
    | Fault f => Fault f
    end) as ->.
  { unfold serial_fops_open, oflag. destruct Hf as [-> | ->]; cbn -[rt_device_open]; unfold mbind, io_bind, gets, lift;
      cbn -[rt_device_open]; by destruct (rt_device_open _ _ _ _ _) as [[]|]. }
  destruct (rt_device_open _ _ _ _ _) as [[r s]|] eqn:E; [|done]. intros [= -> <-].
  assert (openable size ((serial c0) <| rx_indicate := true |>)) as Hp' by by destruct Hp.
  assert (oflag = 257 ∨ oflag = 259) as Hof by (unfold oflag; case_if; auto).
  destruct (open_receiving _ _ _ _ _ _ _ Hp' Hof E) as [Hs Hi].
  destruct (blank_fifo_ok size (ob_range _ _ Hp)) as [_ Hc].
  split; [split|split].
  - by exists (blank_fifo size).
  - cbn. by rewrite Hq, Ha.
  - unfold settled. cbn. rewrite Ha. cbn. lia.
  - cbn. rewrite Hr. intros i r' Hi'. by rewrite lookup_nil in Hi'.
  - unfold delivered, held. cbn. by rewrite Hr, Ha.
  - unfold unread. cbn. by rewrite (rc_rx _ _ _ Hs).
Qed.

(** C33.  The console, from its opening on and for every interleaving of the interrupt of
    the port and the steps of the thread that reads it.  No step faults, and the thread
    sleeps only when there is nothing to read; a read returns at least one and at most as
    many characters as it asked for, and EAGAIN only from a file that does not block; what
    the thread has taken and what is in the buffer are, in order, some of the characters
    that came, and all of them as long as the buffer holds them.  The flag of the wait
    queue makes up for a wake-up that comes between the read and the wait: what is in the
    buffer at any moment has been taken after two steps for each character and three more,
    whatever interrupts come in between. *)
Theorem console_reader_live (c0 c : console) flags acts1 acts2 :
  (∀ i, (0 < count i)%nat) → closed_file c0 →
  Z.land flags O_ACCMODE = O_RDONLY ∨ Z.land flags O_ACCMODE = O_RDWR →
  serial_fops_open configure rt_malloc flags c0 = Ret (RT_EOK, c) →
  let run := console_run self node count nonblock pending in
  let holds := holds self node count nonblock pending size in
  wp (run acts1) (λ _ c1,
    (at_ c1 = Asleep → unread size c1 = []) ∧
    (∀ i r, reads c1 !! i = Some r → result_ok count nonblock i r) ∧
    delivered c1 ++ unread size c1 `sublist_of` came acts1 ∧
    (holds c acts1 → delivered c1 ++ unread size c1 = came acts1) ∧
    (holds c1 acts2 → (2 * length (unread size c1) + 3 <= read_steps acts2)%nat →
     wp (run acts2) (λ _ c2, delivered c1 ++ unread size c1 `prefix_of` delivered c2) c1)) c.
Proof.
  intros Hcount Hc0 Hf Hopen. cbv zeta. destruct (fops_open_ok c0 c flags Hc0 Hf Hopen) as (Hc & Hd & Hu).
  eapply wp_mono; [by apply (console_run_ok self node count nonblock pending size)|].
  intros [] c1 (H1 & _ & Hsub & Hall). cbn beta. rewrite Hd, Hu in *. split_and!; [|apply H1|done..|].
  - intros Hs. pose proof (co_at _ _ _ _ _ _ H1) as Hst. unfold settled in Hst. by rewrite Hs in Hst.
  - intros Hfit Hn. apply (console_run_takes self node count nonblock pending size Hcount acts2 c1 _ []);
      [done|by rewrite app_nil_r|done|].
    right. unfold delay. destruct (at_ c1); try case_if; lia.
Qed.
End theorems.

(** The console of the board: the port of the kernel messages, registered and opened for
    them before the file is. *)
Definition console_config : serial_configure := MkConfigure 115200 64.
Definition board_console : console :=
  match rt_device_open (λ _, true) (λ _, true) 0 (rt_hw_serial_register console_config true)
          (Z.lor RT_DEVICE_FLAG_RDWR RT_DEVICE_FLAG_STREAM) with
  | Ret (_, s) => MkConsole s rt_wqueue_init (AtRead []) []
  | Fault _ => MkConsole (rt_hw_serial_register console_config true) rt_wqueue_init (AtRead []) []
  end.

Definition shell_acts : list console_action :=
  [ConsoleStep; ConsoleIsr [108; 115]] ++ replicate 7 ConsoleStep ++ [ConsoleIsr [10]].

Lemma console_reader_live_witness :
  ∃ c, serial_fops_open (λ _, true) (λ _, true) O_RDWR board_console = Ret (RT_EOK, c) ∧
    wp (console_run 7 1 (λ _, 2%nat) false [] shell_acts)
      (λ _ c1, (delivered c1 ++ unread 64 c1 = [108; 115; 10] ∧ reads c1 = [ReadData [108; 115]]) ∧
        wp (console_run 7 1 (λ _, 2%nat) false [] (replicate 5 ConsoleStep))
          (λ _ c2, delivered c1 ++ unread 64 c1 `prefix_of` delivered c2) c1) c.
Proof.
  eexists. split; [by vm_compute|].
  eapply wp_mono; [eapply wp_conj;
    [apply (console_reader_live 7 1 (λ _, 2%nat) false [] (λ _, true) (λ _, true) 64 board_console _ O_RDWR
              shell_acts (replicate 5 ConsoleStep))|]|].
  - intros. lia.
  - split; [split; try done; cbn; lia|done..].
  - by right.
  - by vm_compute.
  - instantiate (1 := λ _ c1, (delivered c1 ++ unread 64 c1 = [108; 115; 10] ∧ reads c1 = [ReadData [108; 115]]) ∧
      holds 7 1 (λ _, 2%nat) false [] 64 c1 (replicate 5 ConsoleStep) ∧ (length (unread 64 c1) <= 1)%nat).
    vm_compute. split_and!; auto.
  - cbn beta. intros _ c1 ((_ & _ & _ & _ & Hlive) & Hd & Hh & Hn). split; [exact Hd|].
    apply Hlive; [exact Hh|]. cbn. lia.
Defined.
