(* ===== verification/AtInit.v ===== *)
(** Setting up an AT client (at_client.c): [at_client_init] with [at_client_para_init], and
    [at_client_get], which the modem driver calls next.

    The objects of the kernel are entries of a map, so that it can be said what is
    allocated, freed and left behind; a pointer is the number of its object, [None] the
    null pointer.  The serial ports are those of Serial.v. *)

From S2P Require Import Prelude CLib Event Serial.

Definition RT_EFULL := 3.
Definition RT_NAME_MAX : nat := 8.
Definition AT_CLIENT_NUM_MAX : nat := 1.
Definition AT_CLIENT_LOCK_NAME : cstr := bytes "at_c".
Definition AT_CLIENT_SEM_NAME : cstr := bytes "at_cs".
Definition AT_CLIENT_RESP_NAME : cstr := bytes "at_cr".
Definition AT_CLIENT_THREAD_NAME : cstr := bytes "at_clnt".

Inductive at_status_t : Type := AT_STATUS_UNINITIALIZED | AT_STATUS_INITIALIZED.

Record at_client : Type := MkClient {
  device : option nat; status : at_status_t; end_sign : Z;
  recv_line_buf : option nat; recv_line_len : Z; recv_bufsz : Z;
  rx_notice : option nat; lock : option nat;
  resp : option nat; resp_notice : option nat; resp_status : Z;
  urc_table : option nat; urc_table_size : Z; parser : option nat }.
#[global] Instance at_client_eta : Eta at_client := λ c,
  MkClient (device c) (status c) (end_sign c) (recv_line_buf c) (recv_line_len c) (recv_bufsz c)
    (rx_notice c) (lock c) (resp c) (resp_notice c) (resp_status c) (urc_table c)
    (urc_table_size c) (parser c).

(** All bytes zero, as [rt_memset] and the static initialisation leave it. *)
Definition zero_client : at_client :=
  MkClient None AT_STATUS_UNINITIALIZED 0 None 0 0 None None None None 0 None 0 None.

(** [Semaphore]: with its value. *)
Inductive object : Type :=
  | Buffer (size : Z)
  | Mutex (name : cstr)
  | Semaphore (name : cstr) (value : Z)
  | Thread (name : cstr).

Record char_device : Type := MkDevice { dev_name : cstr; dev_char : bool; port : rt_serial_device }.
#[global] Instance char_device_eta : Eta char_device := λ d,
  MkDevice (dev_name d) (dev_char d) (port d).

(** [tries] counts the allocations asked for. *)
Record kernel : Type := MkKernel {
  at_client_table : list at_client; at_client_num : Z;
  objects : gmap nat object; next : nat; tries : nat;
  devices : list char_device; running : list nat }.
#[global] Instance kernel_eta : Eta kernel := λ k,
  MkKernel (at_client_table k) (at_client_num k) (objects k) (next k) (tries k) (devices k)
    (running k).

(** [rt_snprintf(name, RT_NAME_MAX, "%s%d", prefix, num)] *)
Definition object_name (prefix : cstr) (num : Z) : cstr :=
  take (RT_NAME_MAX - 1) (prefix ++ print_d num).

(** [rt_strncmp(a, b, n) == 0] and [rt_strcmp(a, b) == 0] *)
Definition strncmp_eq (n : nat) (a b : cstr) : bool := bool_decide (take n a = take n b).
Definition strcmp_eq (a b : cstr) : bool := bool_decide (a = b).

Section init.
(** Whether the [n]-th allocation finds memory; the hardware and the allocations of an
    opening. *)
Variable memory : nat → bool.
Variable configure : nat → bool.
Variable rt_malloc : nat → bool.

Definition rt_create (o : object) : io kernel (option nat) := λ k,
  if memory (tries k) then
    Ret (Some (next k), k <| tries := S (tries k) |> <| next := S (next k) |>
                          <| objects := <[next k := o]> (objects k) |>)
  else Ret (None, k <| tries := S (tries k) |>).

(** [rt_free], [rt_mutex_delete], [rt_sem_delete]: of an object of the kind. *)
Definition rt_delete (kind : object → bool) (p : nat) : io kernel unit := λ k,
  match objects k !! p with
  | Some o => if kind o then Ret (tt, k <| objects := delete p (objects k) |>) else Fault AssertFailed
  | None => Fault AssertFailed
  end.
Definition is_buffer (o : object) : bool := match o with Buffer _ => true | _ => false end.
Definition is_mutex (o : object) : bool := match o with Mutex _ => true | _ => false end.
Definition is_semaphore (o : object) : bool := match o with Semaphore _ _ => true | _ => false end.

Definition delete_if (kind : object → bool) (p : option nat) : io kernel unit :=
  match p with Some p => rt_delete kind p | None => mret tt end.

Definition upd_client (idx : nat) (f : at_client → at_client) : io kernel unit :=
  modify (λ k, k <| at_client_table := alter f idx (at_client_table k) |>).
Definition get_client (idx : nat) : io kernel at_client := λ k,
  match at_client_table k !! idx with Some c => Ret (c, k) | None => Fault OutOfBounds end.

Definition get_device (d : nat) : io kernel char_device := λ k,
  match devices k !! d with Some v => Ret (v, k) | None => Fault OutOfBounds end.
Definition set_port (d : nat) (s : rt_serial_device) : io kernel unit :=
  modify (λ k, k <| devices := alter (λ v, v <| port := s |>) d (devices k) |>).

Definition close_device (d : nat) : io kernel unit :=
  v ← get_device d;
  '(_, s) ← lift (rt_device_close (port v));
  set_port d s.

(** The creations of [at_client_para_init] up to its label [__exit]: the result. *)
Definition para_create (idx : nat) : io kernel Z :=
  num ← gets at_client_num;
  upd_client idx (λ c, c <| status := AT_STATUS_UNINITIALIZED |> <| recv_line_len := 0 |>) ;;
  c ← get_client idx;
  p ← rt_create (Buffer (recv_bufsz c));
  upd_client idx (λ c, c <| recv_line_buf := p |>) ;;
  if bool_decide (p = None) then mret (- RT_ENOMEM) else
  p ← rt_create (Mutex (object_name AT_CLIENT_LOCK_NAME num));
  upd_client idx (λ c, c <| lock := p |>) ;;
  if bool_decide (p = None) then mret (- RT_ENOMEM) else
  p ← rt_create (Semaphore (object_name AT_CLIENT_SEM_NAME num) 0);
  upd_client idx (λ c, c <| rx_notice := p |>) ;;
  if bool_decide (p = None) then mret (- RT_ENOMEM) else
  p ← rt_create (Semaphore (object_name AT_CLIENT_RESP_NAME num) 0);
  upd_client idx (λ c, c <| resp_notice := p |>) ;;
  if bool_decide (p = None) then mret (- RT_ENOMEM) else
  upd_client idx (λ c, c <| urc_table := None |> <| urc_table_size := 0 |>) ;;
  p ← rt_create (Thread (object_name AT_CLIENT_THREAD_NAME num));
  upd_client idx (λ c, c <| parser := p |>) ;;
  if bool_decide (p = None) then mret (- RT_ENOMEM) else mret RT_EOK.

(** The failure branch at [__exit]. *)
Definition para_exit (idx : nat) : io kernel unit :=
  c ← get_client idx;
  delete_if is_mutex (lock c) ;;
  delete_if is_semaphore (rx_notice c) ;;
  delete_if is_semaphore (resp_notice c) ;;
  (match device c with Some d => close_device d | None => mret tt end) ;;
  delete_if is_buffer (recv_line_buf c) ;;
  upd_client idx (λ _, zero_client).

Definition at_client_para_init (idx : nat) : io kernel Z :=
  result ← para_create idx;
  if negb (result =? RT_EOK) then para_exit idx ;; mret result
  else
    modify (λ k, k <| at_client_num := at_client_num k + 1 |>) ;;
    mret result.

Fixpoint find_device (l : list char_device) (name : cstr) (i : nat) : option nat :=
  match l with
  | [] => None
  | d :: l => if strncmp_eq RT_NAME_MAX (dev_name d) name then Some i else find_device l name (S i)
  end.
Definition rt_device_find (name : cstr) : io kernel (option nat) :=
  gets (λ k, find_device (devices k) name 0).

Definition open_device (d call : nat) (mode : Z) : io kernel Z :=
  v ← get_device d;
  '(r, s) ← lift (rt_device_open configure rt_malloc call (port v) (Z.lor RT_DEVICE_OFLAG_RDWR mode));
  set_port d s ;;
  mret r.

(** The index of the first client without a device. *)
Fixpoint free_slot (l : list at_client) : nat :=
  match l with
  | [] => 0
  | c :: l => match device c with Some _ => S (free_slot l) | None => 0 end
  end.

(** The thread of the parser is started. *)
Definition rt_thread_startup (p : option nat) : io kernel unit :=
  match p with
  | Some p => modify (λ k, k <| running := running k ++ [p] |>)
  | None => io_fault NullDeref
  end.

Definition at_client_init (name : cstr) (bufsz : Z) : io kernel Z :=
  (if 0 <? bufsz then mret tt else io_fault AssertFailed) ;;
  table ← gets at_client_table;
  let idx := free_slot table in
  if (length table <=? idx)%nat then mret (- RT_EFULL)
  else
    upd_client idx (λ c, c <| recv_bufsz := bufsz |>) ;;
    result ← at_client_para_init idx;
    if negb (result =? RT_EOK) then mret result
    else
      d ← rt_device_find name;
      upd_client idx (λ c, c <| device := d |>) ;;
      match d with
      | None => mret (- RT_ERROR)
      | Some d =>
          v ← get_device d;
          (if dev_char v then mret tt else io_fault AssertFailed) ;;
          r ← open_device d 0 RT_DEVICE_FLAG_DMA_RX;
          r ← (if r =? - RT_EIO then open_device d 1 RT_DEVICE_FLAG_INT_RX else mret r);
          (if r =? RT_EOK then mret tt else io_fault AssertFailed) ;;
          v ← get_device d;
          set_port d (rt_device_set_rx_indicate (port v)).2 ;;
          upd_client idx (λ c, c <| status := AT_STATUS_INITIALIZED |>) ;;
          c ← get_client idx;
          rt_thread_startup (parser c) ;;
          mret RT_EOK
      end.

(** The number of the client; a slot without a device is dereferenced. *)
Fixpoint client_named (l : list at_client) (devs : list char_device) (name : cstr) (i : nat) :
    res (option nat) :=
  match l with
  | [] => Ret None
  | c :: l =>
      match device c with
      | None => Fault NullDeref
      | Some d =>
          match devs !! d with
          | None => Fault OutOfBounds
          | Some v =>
              if strcmp_eq (dev_name v) name then Ret (Some i) else client_named l devs name (S i)
          end
      end
  end.
Definition at_client_get (name : cstr) : io kernel (option nat) := λ k,
  match client_named (at_client_table k) (devices k) name 0 with
  | Ret c => Ret (c, k)
  | Fault f => Fault f
  end.
Definition at_client_get_first : io kernel (option nat) :=
  gets (λ k, match at_client_table k with
             | c :: _ => match device c with Some _ => Some 0%nat | None => None end
             | [] => None
             end).

(** What [a9g_init] does first; the result of the first call is ignored. *)
Definition a9g_client (name : cstr) (bufsz : Z) : io kernel (option nat) :=
  at_client_init name bufsz ;; at_client_get name.
End init.

(** The kernel before any client is set up. *)
Definition booted (devs : list char_device) : kernel :=
  MkKernel (replicate AT_CLIENT_NUM_MAX zero_client) 0 ∅ 0 0 devs [].
