(* ===== verification/AtInitSpec.v ===== *)
(** What [at_client_init] allocates, frees, opens and leaves behind, on every branch, and
    what it means for the calls that follow it. *)

From S2P Require Import Prelude CLib Event Serial SerialSpec SerialDma AtInit.

Section spec.
Context (memory configure rt_malloc : nat → bool).

(** The five objects of a client, as they are created. *)
Definition client_objects (bufsz num : Z) : list object :=
  [Buffer bufsz; Mutex (object_name AT_CLIENT_LOCK_NAME num);
   Semaphore (object_name AT_CLIENT_SEM_NAME num) 0; Semaphore (object_name AT_CLIENT_RESP_NAME num) 0;
   Thread (object_name AT_CLIENT_THREAD_NAME num)].

Fixpoint add_objects (os : list object) (n : nat) (m : gmap nat object) : gmap nat object :=
  match os with [] => m | o :: os => add_objects os (S n) (<[n := o]> m) end.

(** A pointer of a slot without a device: null, or left by an earlier attempt. *)
Definition points (kind : object → bool) (m : gmap nat object) (p : option nat) : Prop :=
  ∀ i, p = Some i → ∃ o, m !! i = Some o ∧ kind o = true.

Definition unused (m : gmap nat object) (n : nat) : Prop := ∀ i, (n <= i)%nat → m !! i = None.

Record slot_ok (c : at_client) (m : gmap nat object) : Prop := {
  no_device : device c = None;
  lock_ok : points is_mutex m (lock c);
  rx_notice_ok : points is_semaphore m (rx_notice c);
  resp_notice_ok : points is_semaphore m (resp_notice c);
  notices_differ : ∀ i, rx_notice c = Some i → resp_notice c = Some i → False }.

Definition kernel_of (c : at_client) num m n t devs run : kernel := MkKernel [c] num m n t devs run.

(** Whether the next [i] allocations find memory. *)
Fixpoint enough (i t : nat) : bool :=
  match i with O => true | S i => memory t && enough i (S t) end.

(** The slot after all five creations. *)
Definition filled (c : at_client) (n : nat) : at_client :=
  c <| status := AT_STATUS_UNINITIALIZED |> <| recv_line_len := 0 |> <| recv_line_buf := Some n |>
    <| lock := Some (n + 1)%nat |> <| rx_notice := Some (n + 2)%nat |>
    <| resp_notice := Some (n + 3)%nat |> <| urc_table := None |> <| urc_table_size := 0 |>
    <| parser := Some (n + 4)%nat |>.

(** One creation after the other: the result and the kernel when they stop. *)
Lemma para_create_eq c num m n t devs run :
  let c0 := c <| status := AT_STATUS_UNINITIALIZED |> <| recv_line_len := 0 |> in
  let os := client_objects (recv_bufsz c) num in
  let stop c' j := Ret (- RT_ENOMEM,
    kernel_of c' num (add_objects (take j os) n m) (n + j) (t + S j) devs run) in
  let c1 := c0 <| recv_line_buf := Some n |> in
  let c2 := c1 <| lock := Some (S n) |> in
  let c3 := c2 <| rx_notice := Some (S (S n)) |> in
  let c4 := c3 <| resp_notice := Some (S (S (S n))) |> <| urc_table := None |> <| urc_table_size := 0 |> in
  para_create memory 0 (kernel_of c num m n t devs run) =
    if negb (memory t) then stop (c0 <| recv_line_buf := None |>) 0%nat
    else if negb (memory (S t)) then stop (c1 <| lock := None |>) 1%nat
    else if negb (memory (S (S t))) then stop (c2 <| rx_notice := None |>) 2%nat
    else if negb (memory (S (S (S t)))) then stop (c3 <| resp_notice := None |>) 3%nat
    else if negb (memory (S (S (S (S t))))) then stop (c4 <| parser := None |>) 4%nat
    else Ret (RT_EOK, kernel_of (filled c n) num (add_objects os n m) (n + 5) (t + 5) devs run).
Proof.
  cbv zeta. unfold kernel_of, filled. rewrite (Nat.add_comm n), (Nat.add_comm t).
  repeat case_if; cbn [Nat.add]; rewrite ?Nat.add_0_r, ?(Nat.add_comm n), ?(Nat.add_comm t); cbn [Nat.add].
  all: destruct c; unfold para_create, rt_create, upd_client, get_client, gets, modify, mbind, io_bind,
    mret, io_ret, client_objects; cbn.
  all: repeat match goal with E : memory _ = _ |- _ => rewrite E; clear E; cbn end.
  all: reflexivity.
Qed.
(** ** The failure branch *)

Definition without (p : option nat) (m : gmap nat object) : gmap nat object :=
  match p with Some i => delete i m | None => m end.
Definition released (c : at_client) (m : gmap nat object) : gmap nat object :=
  without (recv_line_buf c) (without (resp_notice c) (without (rx_notice c) (without (lock c) m))).

Lemma delete_if_ok kind p c num m n t devs run : points kind m p →
  delete_if kind p (kernel_of c num m n t devs run) = Ret (tt, kernel_of c num (without p m) n t devs run).
Proof.
  intros Hp. destruct p as [i|]; [|done]. destruct (Hp i eq_refl) as (o & Ho & Hk).
  unfold delete_if, rt_delete, kernel_of. cbn. by rewrite Ho, Hk.
Qed.

Lemma points_without kind p q m : points kind m p → (∀ i, p = Some i → q = Some i → False) →
  points kind (without q m) p.
Proof.
  intros Hp Hd i Hi. destruct (Hp i Hi) as (o & Ho & Hk). exists o. split; [|done].
  destruct q as [j|]; [|done]. cbn. rewrite lookup_delete_ne; [done|].
  intros ->. by apply (Hd i).
Qed.

Lemma kinds_differ kind kind' m p q : points kind m p → points kind' m q →
  (∀ o, kind o = true → kind' o = false) → ∀ i, p = Some i → q = Some i → False.
Proof.
  intros Hp Hq Hk i Hi Hi'. destruct (Hp i Hi) as (o & Ho & Hko), (Hq i Hi') as (o' & Ho' & Hko').
  specialize (Hk o Hko). congruence.
Qed.

Lemma para_exit_eq c num m n t devs run :
  slot_ok c m → points is_buffer m (recv_line_buf c) →
  para_exit 0 (kernel_of c num m n t devs run) = Ret (tt, kernel_of zero_client num (released c m) n t devs run).
Proof.
  intros [Hdev Hl Hrx Hrp Hne] Hb. unfold para_exit, mbind, io_bind. cbn [get_client kernel_of at_client_table lookup list_lookup].
  change (get_client 0 (kernel_of c num m n t devs run)) with (Ret (c, kernel_of c num m n t devs run)).
  cbn beta iota. rewrite delete_if_ok by done.
  rewrite delete_if_ok by (apply points_without; [done|]; eapply kinds_differ; [done..|by intros []]).
  rewrite delete_if_ok.
  2: { apply points_without; [apply points_without; [done|]; eapply kinds_differ; [done..|by intros []]|].
       intros i Hi Hi'. by eapply Hne. }
  rewrite Hdev. cbn [mret io_ret]. rewrite delete_if_ok; [done|].
  repeat apply points_without; [done|..]; (eapply kinds_differ; [done..|by intros []]).
Qed.

(** ** The creations, undone when one of them fails *)

Definition clean (c : at_client) : Prop := lock c = None ∧ rx_notice c = None ∧ resp_notice c = None.

Lemma points_old kind o n m p : unused m n → points kind m p → points kind (<[n := o]> m) p.
Proof.
  intros Hu Hp i Hi. destruct (Hp i Hi) as (o' & Ho & Hk). exists o'. split; [|done].
  rewrite lookup_insert_ne; [done|]. intros ->. by rewrite Hu in Ho.
Qed.

Lemma points_new (kind : object → bool) o n m : kind o = true → points kind (<[n := o]> m) (Some n).
Proof. intros Hk i [= <-]. exists o. by rewrite lookup_insert_eq. Qed.

Lemma points_none kind m : points kind m None.
Proof. by intros i. Qed.

Lemma unused_insert o n m : unused m n → unused (<[n := o]> m) (S n).
Proof. intros Hu i Hi. rewrite lookup_insert_ne by lia. apply Hu. lia. Qed.

Hint Resolve points_old points_new points_none unused_insert : core.

Lemma points_used kind m n p i : unused m n → points kind m p → p = Some i → (i < n)%nat.
Proof.
  intros Hu Hp Hi. destruct (Hp i Hi) as (o & Ho & _). destruct (decide (i < n)%nat); [done|].
  rewrite Hu in Ho by lia. done.
Qed.

Lemma released_lookup c m i x : released c m !! i = Some x ↔
  m !! i = Some x ∧ lock c ≠ Some i ∧ rx_notice c ≠ Some i ∧ resp_notice c ≠ Some i ∧ recv_line_buf c ≠ Some i.
Proof.
  assert (∀ p m', without p m' !! i = Some x ↔ m' !! i = Some x ∧ p ≠ Some i) as H.
  { intros [j|] m'; cbn; [rewrite lookup_delete_Some|]; (split; [intros HH|intros [HH ?]]); try done; [by destruct HH; split; [|congruence]|by split; [congruence|]]. }
  unfold released. rewrite !H. tauto.
Qed.

Lemma add_objects_out os : ∀ n m i, (i < n ∨ n + length os <= i)%nat → add_objects os n m !! i = m !! i.
Proof.
  induction os as [|o os IH]; intros n m i Hi; [done|]. cbn in *. rewrite IH by lia.
  apply lookup_insert_ne. lia.
Qed.

Lemma add_objects_lookup os : ∀ n m i o, os !! i = Some o → add_objects os n m !! (n + i)%nat = Some o.
Proof.
  induction os as [|o os IH]; intros n m [|i] o' Hi; cbn in *; [done..| |].
  - injection Hi as <-. rewrite Nat.add_0_r, add_objects_out by lia. apply lookup_insert_eq.
  - replace (n + S i)%nat with (S n + i)%nat by lia. by apply IH.
Qed.

(** The objects that are left when the creation number [j] failed. *)
Lemma released_sub c' m n os :
  unused m n → (∀ i, (n <= i < n + length os)%nat →
    lock c' = Some i ∨ rx_notice c' = Some i ∨ resp_notice c' = Some i ∨ recv_line_buf c' = Some i) →
  released c' (add_objects os n m) ⊆ m ∧
  ((∀ i, (i < n)%nat → lock c' ≠ Some i ∧ rx_notice c' ≠ Some i ∧ resp_notice c' ≠ Some i ∧ recv_line_buf c' ≠ Some i) →
   released c' (add_objects os n m) = m).
Proof.
  intros Hu Hnew.
  pose proof add_objects_out as Hout.
  assert (∀ i x, released c' (add_objects os n m) !! i = Some x → m !! i = Some x ∧ (i < n)%nat) as Hsub.
  { intros i x H. apply released_lookup in H. destruct H as (H & Hl & Hr & Hp & Hb).
    destruct (decide (n <= i < n + length os)%nat) as [Hi|Hi].
    { exfalso. destruct (Hnew i Hi) as [?|[?|[?|?]]]; congruence. }
    rewrite Hout in H by lia. split; [done|]. destruct (decide (i < n)%nat); [done|].
    rewrite Hu in H by lia. done. }
  split; [by apply map_subseteq_spec; intros i x Hx; apply Hsub in Hx as []|].
  intros Hold. apply map_eq. intros i. apply option_eq. intros x. split; [by intros Hx; apply Hsub in Hx as []|].
  intros Hx. assert (i < n)%nat as Hi.
  { destruct (decide (i < n)%nat); [done|]. rewrite Hu in Hx by lia. done. }
  apply released_lookup. rewrite Hout by lia. by split; [|apply Hold].
Qed.

(** A slot that holds no pointer to an object older than [n]. *)
Definition refers_old (c : at_client) (m : gmap nat object) (n : nat) : Prop :=
  slot_ok c m ∧ unused m n.

Lemma exit_ok (c' : at_client) num m n t devs run os :
  unused m n → slot_ok c' (add_objects os n m) → points is_buffer (add_objects os n m) (recv_line_buf c') →
  (∀ i, (n <= i < n + length os)%nat →
    lock c' = Some i ∨ rx_notice c' = Some i ∨ resp_notice c' = Some i ∨ recv_line_buf c' = Some i) →
  ∃ m', para_exit 0 (kernel_of c' num (add_objects os n m) (n + length os) t devs run) =
      Ret (tt, kernel_of zero_client num m' (n + length os) t devs run) ∧ m' ⊆ m ∧
    ((∀ i, (i < n)%nat → lock c' ≠ Some i ∧ rx_notice c' ≠ Some i ∧ resp_notice c' ≠ Some i ∧
       recv_line_buf c' ≠ Some i) → m' = m).
Proof.
  intros Hu Hs Hb Hnew. exists (released c' (add_objects os n m)). split; [by apply para_exit_eq|].
  by apply released_sub.
Qed.

Definition nothing_left (result : res (Z * kernel)) num (m : gmap nat object) n devs run (was_clean : Prop) : Prop :=
  ∃ m' n' t', result = Ret (- RT_ENOMEM, kernel_of zero_client num m' n' t' devs run) ∧
    m' ⊆ m ∧ (n <= n')%nat ∧ (was_clean → m' = m).

Lemma para_init_eq c num m n t devs run :
  slot_ok c m → unused m n →
  if enough 5 t then
    at_client_para_init memory 0 (kernel_of c num m n t devs run) =
      Ret (RT_EOK, kernel_of (filled c n) (num + 1)
             (add_objects (client_objects (recv_bufsz c) num) n m) (n + 5) (t + 5) devs run)
  else nothing_left (at_client_para_init memory 0 (kernel_of c num m n t devs run)) num m n devs run (clean c).
Proof.
  intros [Hdev Hl Hrx Hrp Hne] Hu. unfold at_client_para_init, mbind, io_bind. rewrite para_create_eq.
  assert (∀ (c' : at_client) os t', slot_ok c' (add_objects os n m) →
    points is_buffer (add_objects os n m) (recv_line_buf c') →
    (∀ i, (n <= i < n + length os)%nat →
      lock c' = Some i ∨ rx_notice c' = Some i ∨ resp_notice c' = Some i ∨ recv_line_buf c' = Some i) →
    (clean c → ∀ i, (i < n)%nat → lock c' ≠ Some i ∧ rx_notice c' ≠ Some i ∧ resp_notice c' ≠ Some i ∧
       recv_line_buf c' ≠ Some i) →
    nothing_left (match para_exit 0 (kernel_of c' num (add_objects os n m) (n + length os) t' devs run) with
                  | Ret (_, w) => (mret (- RT_ENOMEM) : io kernel Z) w | Fault f => Fault f end)
      num m n devs run (clean c)) as Hfail.
  { intros c' os t' Hs Hb Hnew Hclean. destruct (exit_ok c' num m n t' devs run os Hu Hs Hb Hnew) as (m' & -> & Hsub & Heq).
    exists m', (n + length os)%nat, t'. split; [done|]. split; [done|]. split; [lia|]. auto. }
  assert (∀ i, rx_notice c = Some i → (i < n)%nat) as Hrx' by (intros i Hi; exact (points_used _ _ _ _ _ Hu Hrx Hi)).
  assert (∀ i, resp_notice c = Some i → (i < n)%nat) as Hrp' by (intros i Hi; exact (points_used _ _ _ _ _ Hu Hrp Hi)).
  cbn [enough].
  repeat match goal with |- context [if negb (memory ?x) then _ else _] =>
    destruct (memory x); cbn [negb andb]; [|apply Hfail; cbn; [split; cbn|..]; unfold clean; auto 10] end.
  all: try done.
  all: try (intros i ? ?; simplify_eq; try (specialize (Hrp' _ eq_refl)); lia).
  all: try (intros (Hc1 & Hc2 & Hc3) i Hi; rewrite ?Hc1, ?Hc2, ?Hc3; split_and!; intros ?; simplify_eq; lia).
  all: intros i Hi;
    assert (i = n ∨ i = S n ∨ i = S (S n) ∨ i = S (S (S n))) as Hd by lia;
    destruct Hd as [-> | [-> | [-> | ->]]]; first [lia | auto 10].
Qed.

(** ** Opening the port *)

(** A port nobody has opened, with or without DMA. *)
Record unopened (dma : bool) (s : rt_serial_device) : Prop := {
  un_flag : dev_flag s = Z.lor (Z.lor RT_DEVICE_OFLAG_RDWR RT_DEVICE_FLAG_INT_RX)
                           (if dma then RT_DEVICE_FLAG_DMA_RX else 0);
  un_open : open_flag s = 0;
  un_count : ref_count s = 0;
  un_irq : rx_irq s = false }.

Definition empty_fifo (size : Z) : rt_serial_rx_fifo :=
  MkFifo (replicate (Z.to_nat size) 0) 0 0 false.

(** The port of a client: open once, in the mode [mode], with an empty buffer, and with
    the callback of the client. *)
Record client_port (dma : bool) (s s' : rt_serial_device) : Prop := {
  cp_mode : flag (open_flag s') RT_DEVICE_FLAG_DMA_RX = dma;
  cp_int : flag (open_flag s') RT_DEVICE_FLAG_INT_RX = negb dma;
  cp_irq : rx_irq s' = negb dma;
  cp_count : ref_count s' = 1;
  cp_buffer : bufsz (config s) ≠ 0 → serial_rx s' = RxFifo (empty_fifo (bufsz (config s)));
  cp_config : config s' = config s;
  cp_indicate : rx_indicate s' = true;
  cp_write : ∀ data, rt_device_write s' data = Ret (Z.of_nat (length data), data) }.

(** In DMA mode that is the buffer the DMA starts with (SerialDma.v). *)
Lemma client_port_dma s s' : bufsz (config s) ≠ 0 → client_port true s s' →
  serial_rx s' = RxFifo (fifo (dma_open (bufsz (config s)))).
Proof. intros Hn []. auto. Qed.

Lemma poll_tx_plain data : _serial_poll_tx false data = data.
Proof.
  induction data as [|c data IH]; [done|]. unfold _serial_poll_tx in *. cbn. rewrite andb_false_r. cbn.
  by f_equal.
Qed.

Definition open_client (s : rt_serial_device) : res (Z * rt_serial_device) :=
  '(r, s) ← rt_device_open configure rt_malloc 0 s (Z.lor RT_DEVICE_OFLAG_RDWR RT_DEVICE_FLAG_DMA_RX);
  if r =? - RT_EIO
  then rt_device_open configure rt_malloc 1 s (Z.lor RT_DEVICE_OFLAG_RDWR RT_DEVICE_FLAG_INT_RX)
  else Ret (r, s).

Lemma open_client_ok dma s : unopened dma s → configure 0%nat = true → rt_malloc 0%nat = true →
  ∃ s', open_client s = Ret (RT_EOK, s') ∧ client_port dma s (rt_device_set_rx_indicate s').2.
Proof.
  destruct s as [fl op rc ind cf rx tx irq]. intros [Hf Ho Hc Hi] Hcf Hm. cbn in *. subst.
  destruct dma; eexists; (split; [
    unfold open_client, rt_device_open, rt_serial_init; rewrite Hcf;
    unfold rt_serial_open, open_rx; cbn -[replicate Z.to_nat Z.eqb]; rewrite Hm;
    cbn -[replicate Z.to_nat]; reflexivity|]); split; cbn -[replicate Z.to_nat]; try done.
  - intros H. by decide_if (bufsz cf =? 0) false.
  - intros data. unfold rt_device_write, rt_serial_write. cbn. destruct data; [done|]. by rewrite poll_tx_plain.
  - intros data. unfold rt_device_write, rt_serial_write. cbn. destruct data; [done|]. by rewrite poll_tx_plain.
Qed.

(** The first statement of a sequence, when it is known what it does. *)
Lemma bind_eq {W A B} (m : io W A) (k : A → io W B) w a w' :
  m w = Ret (a, w') → mbind k m w = k a w'.
Proof. intros E. unfold mbind, io_bind. by rewrite E. Qed.

Definition with_port (s : rt_serial_device) (d : nat) (devs : list char_device) : list char_device :=
  alter (λ v, v <| port := s |>) d devs.

Lemma with_port_twice s1 s2 d devs : with_port s2 d (with_port s1 d devs) = with_port s2 d devs.
Proof. unfold with_port. rewrite list_alter_alter_eq. by apply list_alter_ext. Qed.

Lemma with_port_lookup s d devs v : devs !! d = Some v → with_port s d devs !! d = Some (v <| port := s |>).
Proof. intros H. unfold with_port. by rewrite list_lookup_alter_eq, H. Qed.

Lemma open_device_eq c num m n t devs run d v call mode :
  devs !! d = Some v →
  open_device configure rt_malloc d call mode (kernel_of c num m n t devs run) =
    match rt_device_open configure rt_malloc call (port v) (Z.lor RT_DEVICE_OFLAG_RDWR mode) with
    | Ret (r, s) => Ret (r, kernel_of c num m n t (with_port s d devs) run)
    | Fault f => Fault f
    end.
Proof.
  intros Hd. unfold open_device, mbind, io_bind, get_device, lift. cbn [devices kernel_of].
  rewrite Hd. by destruct (rt_device_open _ _ _ _ _) as [[r s]|].
Qed.

(** ** [at_client_init] *)

(** The slot of a client that is set up, except for its device. *)
Definition prepared (c : at_client) (bufsz : Z) (n : nat) : at_client :=
  filled (c <| recv_bufsz := bufsz |>) n.

Definition init := at_client_init memory configure rt_malloc.

Lemma init_prepare c num m n t devs run name size :
  slot_ok c m → unused m n → 0 < size →
  if enough 5 t then
    init name size (kernel_of c num m n t devs run) =
    (d ← rt_device_find name;
      upd_client 0 (λ c, c <| device := d |>) ;;
      match d with
      | None => mret (- RT_ERROR)
      | Some d =>
          v ← get_device d;
          (if dev_char v then mret tt else io_fault AssertFailed) ;;
          r ← open_device configure rt_malloc d 0 RT_DEVICE_FLAG_DMA_RX;
          r ← (if r =? - RT_EIO then open_device configure rt_malloc d 1 RT_DEVICE_FLAG_INT_RX else mret r);
          (if r =? RT_EOK then mret tt else io_fault AssertFailed) ;;
          v ← get_device d;
          set_port d (rt_device_set_rx_indicate (port v)).2 ;;
          upd_client 0 (λ c, c <| status := AT_STATUS_INITIALIZED |>) ;;
          c ← get_client 0;
          rt_thread_startup (parser c) ;;
          mret RT_EOK
      end)
      (kernel_of (prepared c size n) (num + 1) (add_objects (client_objects size num) n m)
        (n + 5) (t + 5) devs run)
  else nothing_left (init name size (kernel_of c num m n t devs run)) num m n devs run (clean c).
Proof.
  intros Hs Hu Hz. unfold init, at_client_init.
  assert (slot_ok (c <| recv_bufsz := size |>) m) as Hs' by (destruct c, Hs; by split).
  pose proof (para_init_eq (c <| recv_bufsz := size |>) num m n t devs run Hs' Hu) as Hp.
  replace (0 <? size) with true by (symmetry; by apply Z.ltb_lt).
  set (k := kernel_of c num m n t devs run).
  set (k1 := kernel_of (c <| recv_bufsz := size |>) num m n t devs run) in *.
  rewrite (bind_eq _ _ k tt k eq_refl), (bind_eq _ _ k [c] k eq_refl).
  cbn [free_slot]. rewrite (no_device _ _ Hs). cbn [length Nat.leb].
  rewrite (bind_eq _ _ k tt k1 eq_refl).
  destruct (enough 5 t).
  - by rewrite (bind_eq _ _ _ _ _ Hp).
  - destruct Hp as (m' & n' & t' & Hp & Hsub & Hn & Hc). rewrite (bind_eq _ _ _ _ _ Hp).
    exists m', n', t'. split_and!; [done..|]. intros Hcl. apply Hc. by destruct c.
Qed.

Lemma find_device_ok name : ∀ devs i d, find_device devs name i = Some d →
  ∃ v, (i <= d)%nat ∧ devs !! (d - i)%nat = Some v ∧ take RT_NAME_MAX (dev_name v) = take RT_NAME_MAX name.
Proof.
  induction devs as [|v devs IH]; intros i d H; [done|]. cbn [find_device] in H.
  unfold strncmp_eq in H. case_bool_decide as Hn.
  - injection H as <-. exists v. split; [lia|]. by rewrite Nat.sub_diag.
  - apply IH in H as (v' & Hi & Hv & Ht). exists v'. split; [lia|]. split; [|done].
    by replace (d - i)%nat with (S (d - S i)) by lia.
Qed.

Lemma init_opens c num m n t devs run name size dma d v :
  slot_ok c m → unused m n → 0 < size → enough 5 t = true →
  find_device devs name 0 = Some d → devs !! d = Some v → dev_char v = true →
  unopened dma (port v) → configure 0%nat = true → rt_malloc 0%nat = true →
  ∃ s, client_port dma (port v) s ∧
    init name size (kernel_of c num m n t devs run) =
      Ret (RT_EOK, kernel_of ((prepared c size n) <| device := Some d |> <| status := AT_STATUS_INITIALIZED |>)
             (num + 1) (add_objects (client_objects size num) n m) (n + 5) (t + 5) (with_port s d devs)
             (run ++ [n + 4])%nat).
Proof.
  intros Hs Hu Hz He Hf Hd Hch Hun Hcf Hm.
  pose proof (init_prepare c num m n t devs run name size Hs Hu Hz) as Hi. rewrite He in Hi.
  destruct (open_client_ok dma (port v) Hun Hcf Hm) as (s' & Ho & Hp).
  exists (rt_device_set_rx_indicate s').2. split; [done|]. rewrite Hi. clear Hi.
  set (m' := add_objects _ _ _). set (c' := prepared c size n).
  set (k := λ c devs run, kernel_of c (num + 1) m' (n + 5) (t + 5) devs run).
  rewrite (bind_eq _ _ _ (Some d) (k c' devs run)) by (unfold rt_device_find, gets; cbn; by rewrite Hf).
  cbn beta.
  set (c1 := c' <| device := Some d |>).
  rewrite (bind_eq _ _ _ tt (k c1 devs run)) by reflexivity.
  cbn beta iota. rewrite (bind_eq _ _ _ v (k c1 devs run)) by (unfold get_device; cbn; by rewrite Hd).
  cbn beta. rewrite Hch. rewrite (bind_eq _ _ _ tt (k c1 devs run)) by reflexivity.
  unfold open_client, mbind, res_bind in Ho.
  destruct (rt_device_open configure rt_malloc 0 (port v) _) as [[r s1]|] eqn:Eo; [|done].
  cbn beta iota in Ho.
  rewrite (bind_eq _ _ _ r (k c1 (with_port s1 d devs) run))
    by (unfold k; rewrite (open_device_eq _ _ _ _ _ _ _ d v) by done; by rewrite Eo).
  cbn beta.
  assert ((if r =? - RT_EIO then open_device configure rt_malloc d 1 RT_DEVICE_FLAG_INT_RX else mret r)
    (k c1 (with_port s1 d devs) run) = Ret (RT_EOK, k c1 (with_port s' d devs) run)) as Hr.
  { destruct (r =? - RT_EIO).
    - unfold k. rewrite (open_device_eq _ _ _ _ _ _ _ d (v <| port := s1 |>)) by (by apply with_port_lookup).
      cbn [port]. change (port (v <| port := s1 |>)) with s1. rewrite Ho. by rewrite with_port_twice.
    - by injection Ho as -> ->. }
  rewrite (bind_eq _ _ _ _ _ Hr). cbn [Z.eqb RT_EOK].
  rewrite (bind_eq _ _ _ tt (k c1 (with_port s' d devs) run)) by reflexivity.
  rewrite (bind_eq _ _ _ (v <| port := s' |>) (k c1 (with_port s' d devs) run))
    by (unfold get_device; cbn [devices k kernel_of]; by rewrite (with_port_lookup _ _ _ v)).
  change (port (v <| port := s' |>)) with s'.
  rewrite (bind_eq _ _ _ tt (k c1 (with_port (rt_device_set_rx_indicate s').2 d devs) run))
    by (unfold k; rewrite <- (with_port_twice s' (rt_device_set_rx_indicate s').2 d devs); reflexivity).
  reflexivity.
Qed.

Lemma set_no_device c : device c = None → c <| device := None |> = c.
Proof. destruct c. cbn. by intros ->. Qed.

Lemma init_no_device c num m n t devs run name len :
  slot_ok c m → unused m n → 0 < len → enough 5 t = true → find_device devs name 0 = None →
  init name len (kernel_of c num m n t devs run) =
    Ret (- RT_ERROR, kernel_of (prepared c len n) (num + 1)
           (add_objects (client_objects len num) n m) (n + 5) (t + 5) devs run).
Proof.
  intros Hs Hu Hz He Hf. pose proof (init_prepare c num m n t devs run name len Hs Hu Hz) as Hi.
  rewrite He in Hi. rewrite Hi. unfold rt_device_find, mbind, io_bind, gets. cbn [devices kernel_of].
  rewrite Hf. cbn beta iota. unfold upd_client, modify.
  pose proof (set_no_device (prepared c len n)) as Hn. rewrite <- Hn at 2 by apply Hs. reflexivity.
Qed.

Lemma add_objects_size os : ∀ n m, unused m n → size (add_objects os n m) = (length os + size m)%nat.
Proof.
  induction os as [|o os IH]; intros n m Hu; cbn; [done|].
  rewrite IH by by apply unused_insert. rewrite map_size_insert_None by (apply Hu; lia). lia.
Qed.

Lemma unused_add os : ∀ n m, unused m n → unused (add_objects os n m) (n + length os).
Proof.
  induction os as [|o os IH]; intros n m Hu; cbn; [by rewrite Nat.add_0_r|].
  replace (n + S (length os))%nat with (S n + length os)%nat by lia. by apply IH, unused_insert.
Qed.

Lemma prepared_ok c m n len num : slot_ok c m → unused m n →
  slot_ok (prepared c len n) (add_objects (client_objects len num) n m).
Proof.
  intros [Hdev _ _ _ _] Hu. destruct c. cbn in Hdev. subst.
  pose proof (add_objects_lookup (client_objects len num) n m) as Hl.
  split; cbn -[add_objects client_objects]; [done|..].
  - intros i [= <-]. eexists. split; [by apply (Hl 1%nat)|done].
  - intros i [= <-]. eexists. split; [by apply (Hl 2%nat)|done].
  - intros i [= <-]. eexists. split; [by apply (Hl 3%nat)|done].
  - intros i [= <-] ?. simplify_eq. lia.
Qed.

(** [j] attempts to set the client up. *)
Fixpoint attempts (j : nat) (name : cstr) (len : Z) : io kernel unit :=
  match j with
  | O => mret tt
  | S j => init name len ;; attempts j name len
  end.

Lemma enough_add i j t : enough (i + j) t = enough i t && enough j (t + i).
Proof.
  revert t. induction i as [|i IH]; intros t; cbn; [by rewrite Nat.add_0_r|].
  rewrite IH, andb_assoc. by replace (t + S i)%nat with (S t + i)%nat by lia.
Qed.

Lemma attempts_leak j : ∀ c num m n t devs run name len,
  slot_ok c m → unused m n → 0 < len → enough (5 * j) t = true → find_device devs name 0 = None →
  wp (attempts j name len) (λ _ k, at_client_get name k = Fault NullDeref ∧
    size (objects k) = (5 * j + size m)%nat) (kernel_of c num m n t devs run).
Proof.
  induction j as [|j IH]; intros c num m n t devs run name len Hs Hu Hz He Hf; cbn [attempts].
  { split; [|done]. unfold at_client_get. cbn. by rewrite (no_device _ _ Hs). }
  replace (5 * S j)%nat with (5 + 5 * j)%nat in He by lia. rewrite enough_add in He.
  apply andb_true_iff in He as [He1 He2].
  apply wp_bind. unfold wp at 1. rewrite init_no_device by done.
  eapply wp_mono; [apply IH; [by apply prepared_ok|by apply (unused_add (client_objects len num))|done..]|].
  cbn beta. intros _ k [Hg Hsz]. split; [done|]. rewrite Hsz, add_objects_size by done. cbn. lia.
Qed.

(** C16.  [at_client_init] on every branch, in the one slot of the table.  A slot in use:
    the table is full and nothing happens.  When one of the five allocations fails, the
    slot is zeroed and no new object stays allocated (none at all has changed if the slot
    was clean).  Without the port, -RT_ERROR, with the five new objects allocated and the
    slot still free.  With a port nobody has opened, success: it is open in DMA mode when
    it supports that, in interrupt mode otherwise, with an empty buffer, the callback set
    and bytes written to it going out unchanged; the parser thread is started and the
    semaphore of the received characters is 0. *)
Theorem at_client_init_outcome c num m n t devs run name len :
  unused m n → 0 < len →
  let k := kernel_of c num m n t devs run in
  let made := add_objects (client_objects len num) n m in
  let at_client_init := at_client_init memory configure rt_malloc in
  (device c ≠ None → at_client_init name len k = Ret (- RT_EFULL, k)) ∧
  (slot_ok c m →
   if negb (enough 5 t) then nothing_left (at_client_init name len k) num m n devs run (clean c)
   else match find_device devs name 0 with
   | None =>
       at_client_init name len k =
         Ret (- RT_ERROR, kernel_of (prepared c len n) (num + 1) made (n + 5) (t + 5) devs run) ∧
       slot_ok (prepared c len n) made ∧ size made = (5 + size m)%nat
   | Some d =>
       ∃ v, devs !! d = Some v ∧
       ∀ dma, dev_char v = true → unopened dma (port v) → configure 0%nat = true → rt_malloc 0%nat = true →
       ∃ s, client_port dma (port v) s ∧
         at_client_init name len k =
           Ret (RT_EOK, kernel_of ((prepared c len n) <| device := Some d |> <| status := AT_STATUS_INITIALIZED |>)
                  (num + 1) made (n + 5) (t + 5) (with_port s d devs) (run ++ [n + 4])%nat) ∧
         rx_notice (prepared c len n) = Some (n + 2)%nat ∧
         made !! (n + 2)%nat = Some (Semaphore (object_name AT_CLIENT_SEM_NAME num) 0)
   end).
Proof.
  intros Hu Hz k made init0. split.
  - intros Hd. unfold init0, at_client_init, k.
    replace (0 <? len) with true by (symmetry; by apply Z.ltb_lt).
    unfold mbind, io_bind, gets, mret, io_ret. cbn [at_client_table kernel_of free_slot].
    by destruct (device c).
  - intros Hs. pose proof (init_prepare c num m n t devs run name len Hs Hu Hz) as Hi.
    destruct (enough 5 t) eqn:He; cbn [negb]; [clear Hi|done].
    destruct (find_device devs name 0) as [d|] eqn:Hf.
    + destruct (find_device_ok name devs 0 d Hf) as (v & _ & Hv & _). rewrite Nat.sub_0_r in Hv.
      exists v. split; [done|]. intros dma Hch Hun Hc Hm.
      destruct (init_opens c num m n t devs run name len dma d v) as (s & Hp & Hr); try done.
      exists s. split; [done|]. split; [done|]. split; [done|]. by apply (add_objects_lookup _ n m 2).
    + split; [by apply init_no_device|]. split; [by apply prepared_ok|]. by apply add_objects_size.
Qed.

(** [a9g_init] ignores the result of [at_client_init] and calls [at_client_get], which
    reads the name of a device no slot check protects: on a board that has just started it
    gets the client exactly when the five allocations succeed and the port exists (and is
    a character device that can be opened); otherwise it dereferences the null pointer, and
    the error return of [a9g_init] is never reached.  Every attempt on a missing port
    leaves five more objects allocated. *)
Theorem a9g_client_outcome devs name len :
  0 < len → (length name < RT_NAME_MAX)%nat →
  (∀ d v, find_device devs name 0 = Some d → devs !! d = Some v →
    dev_char v = true ∧ (∃ dma, unopened dma (port v)) ∧ configure 0%nat = true ∧ rt_malloc 0%nat = true) →
  (if enough 5 0 && bool_decide (find_device devs name 0 ≠ None) then
     ∃ k, a9g_client memory configure rt_malloc name len (booted devs) = Ret (Some 0%nat, k)
   else a9g_client memory configure rt_malloc name len (booted devs) = Fault NullDeref) ∧
  (∀ j, find_device devs name 0 = None → enough (5 * j) 0 = true →
     wp (attempts j name len) (λ _ k, at_client_get name k = Fault NullDeref ∧
       size (objects k) = (5 * j)%nat) (booted devs)).
Proof.
  intros Hz Hn Hport.
  assert (slot_ok zero_client ∅) as Hs by (split; cbn; try done; by intros i).
  assert (unused ∅ 0) as Hu by (intros i _; apply lookup_empty).
  split.
  - unfold a9g_client, booted. change (replicate AT_CLIENT_NUM_MAX zero_client) with [zero_client].
    pose proof (init_prepare zero_client 0 ∅ 0 0 devs [] name len Hs Hu Hz) as Hi.
    destruct (enough 5 0) eqn:He; cbn [andb].
    + destruct (find_device devs name 0) as [d|] eqn:Hf.
      * rewrite bool_decide_true by done.
        destruct (find_device_ok name devs 0 d Hf) as (v & _ & Hv & Ht). rewrite Nat.sub_0_r in Hv.
        destruct (Hport d v eq_refl Hv) as (Hch & (dma & Hun) & Hc & Hm).
        destruct (init_opens zero_client 0 ∅ 0 0 devs [] name len dma d v) as (s & Hp & Hr); try done.
        eexists. unfold kernel_of in Hr. rewrite (bind_eq _ _ _ _ _ Hr).
        unfold at_client_get. cbn -[add_objects client_objects find_device with_port].
        rewrite (with_port_lookup _ _ _ v) by done.
        change (dev_name (v <| port := s |>)) with (dev_name v).
        assert (dev_name v = name) as ->.
        { rewrite (take_ge name) in Ht by lia. rewrite take_ge in Ht; [done|].
          apply (f_equal length) in Ht. rewrite length_take in Ht. lia. }
        unfold strcmp_eq. by rewrite bool_decide_true.
      * rewrite bool_decide_false by (by intros []).
        pose proof (init_no_device zero_client 0 ∅ 0 0 devs [] name len Hs Hu Hz He Hf) as Hr.
        unfold kernel_of in Hr. by rewrite (bind_eq _ _ _ _ _ Hr).
    + destruct Hi as (m' & n' & t' & Hr & _). unfold kernel_of in Hr.
      by rewrite (bind_eq _ _ _ _ _ Hr).
  - intros j Hf He. eapply wp_mono; [by apply (attempts_leak j zero_client 0 ∅ 0 0 devs [] name len)|].
    cbn beta. intros _ k [Hg Hsz]. split; [done|]. rewrite Hsz, map_size_empty. lia.
Qed.
End spec.

(** Two ports, as drv_usart.c registers them; the second one has no DMA. *)
Definition fresh_port (dma : bool) : rt_serial_device :=
  MkSerial (if dma then 771 else 259) 0 0 false (MkConfigure 115200 64) RxNull TxNull false.
Definition board_ports : list char_device :=
  [MkDevice (bytes "uart2") true (fresh_port true); MkDevice (bytes "uart3") true (fresh_port false)].

Lemma fresh_port_unopened dma : unopened dma (fresh_port dma).
Proof. by destruct dma. Qed.

Definition plenty (_ : nat) : bool := true.

Lemma at_client_init_outcome_witness : ∃ k,
  at_client_init plenty plenty plenty (bytes "uart3") 512 (kernel_of zero_client 0 ∅ 0 0 board_ports []) =
    Ret (RT_EOK, k) ∧
  device <$> at_client_table k = [Some 1%nat] ∧ running k = [4%nat] ∧ size (objects k) = 5%nat ∧
  ∃ v, devices k !! 1%nat = Some v ∧ client_port false (fresh_port false) (port v).
Proof.
  assert (unused ∅ 0) as Hu by (intros i _; apply lookup_empty).
  assert (slot_ok zero_client ∅) as Hs by (split; cbn; try done; by intros i).
  destruct (at_client_init_outcome plenty plenty plenty zero_client 0 ∅ 0 0 board_ports []
    (bytes "uart3") 512 Hu eq_refl) as [_ H].
  destruct (H Hs) as (v & Hv & Hopen). injection Hv as <-.
  destruct (Hopen false eq_refl (fresh_port_unopened false) eq_refl eq_refl) as (s & Hp & Hr & _).
  eexists. split; [exact Hr|]. split; [reflexivity|]. split; [reflexivity|]. split; [reflexivity|].
  eexists. split; [reflexivity|]. exact Hp.
Defined.

(** No port is called "uart6": the client cannot be had, and three attempts leave fifteen
    objects. *)
Lemma a9g_client_outcome_witness :
  (∃ k, a9g_client plenty plenty plenty (bytes "uart3") 512 (booted board_ports) = Ret (Some 0%nat, k)) ∧
  a9g_client plenty plenty plenty (bytes "uart6") 512 (booted board_ports) = Fault NullDeref ∧
  wp (attempts plenty plenty plenty 3 (bytes "uart6") 512) (λ _ k, size (objects k) = 15%nat)
    (booted board_ports).
Proof.
  split; [|split].
  - refine (proj1 (a9g_client_outcome plenty plenty plenty board_ports (bytes "uart3") 512 eq_refl _ _));
      [by apply Nat.ltb_lt|]. intros d v [= <-] [= <-]. split_and!; [done|exists false; apply fresh_port_unopened|done..].
  - refine (proj1 (a9g_client_outcome plenty plenty plenty board_ports (bytes "uart6") 512 eq_refl _ _));
      [by apply Nat.ltb_lt|done].
  - eapply wp_mono; [refine (proj2 (a9g_client_outcome plenty plenty plenty board_ports (bytes "uart6") 512
      eq_refl _ _) 3%nat eq_refl eq_refl); [by apply Nat.ltb_lt|done]|]. by intros ? k [_ ?].
Defined.
