(* ===== verification/AtPort.v ===== *)
(** The serial side of the AT client (at_client.c): [at_client_getchar], which the parser
    thread reads the modem with, and the callback of the port, [at_client_rx_ind].

    The port is in DMA mode (SerialDma.v).  [pos] says where the loop of
    [at_client_getchar] stands; a step is one of its calls.  The hardware writes
    characters and raises the interrupts that announce them at any time in between. *)

From S2P Require Import Prelude Event Serial SerialDma Sem.

Inductive at_position : Type := AtReading | AtResetting | AtTaking | AtSleeping.

(** [got]: the characters [at_client_getchar] has returned; [expired]: how often it
    returned an error instead. *)
Record rx_line : Type := MkLine {
  dma : dma_port;
  rx_notice : rt_semaphore;
  pos : at_position;
  got : list Z;
  expired : nat }.
#[global] Instance rx_line_eta : Eta rx_line := λ l,
  MkLine (dma l) (rx_notice l) (pos l) (got l) (expired l).

Section line.
(** The parser thread, its priority, and the timeout it passes, in milliseconds. *)
Variables (parser parser_prio timeout : Z).

(** The time [rt_sem_take] gets, an rt_int32_t. *)
Definition wait_time : Z := i32 (rt_tick_from_millisecond timeout).

(** The one client of the table has the device; a thread that waits for the notice reads
    again. *)
Definition at_client_rx_ind (size : Z) : io rx_line unit := modify (λ l,
  if 0 <? size then
    let '(sem, woken) := rt_sem_release (rx_notice l) in
    let l := l <| rx_notice := sem |> in
    match woken with
    | Some t => if tid t =? parser then l <| pos := AtReading |> else l
    | None => l
    end
  else l).

Definition announced_to (ann : option Z * dma_port) : io rx_line unit :=
  modify (λ l, l <| dma := ann.2 |>) ;;
  match ann.1 with Some n => at_client_rx_ind n | None => mret tt end.

Definition at_client_getchar_step : io rx_line unit :=
  p ← gets pos;
  match p with
  | AtReading =>
      d ← gets dma;
      '(data, f) ← lift (_serial_dma_rx (dma_bufsz d) (fifo d) 1);
      modify (λ l, l <| dma := d <| fifo := f |> |>) ;;
      match data with
      | [] => modify (λ l, l <| pos := AtResetting |>)
      | _ => modify (λ l, l <| got := got l ++ data |>)
      end
  | AtResetting =>
      modify (λ l, l <| rx_notice := (rt_sem_reset (rx_notice l) 0).1 |> <| pos := AtTaking |>)
  | AtTaking =>
      sem ← gets rx_notice;
      match rt_sem_take sem parser parser_prio wait_time with
      | Taken sem => modify (λ l, l <| rx_notice := sem |> <| pos := AtReading |>)
      | NotTaken _ => modify (λ l, l <| expired := S (expired l) |> <| pos := AtReading |>)
      | TakeSuspended sem => modify (λ l, l <| rx_notice := sem |> <| pos := AtSleeping |>)
      end
  | AtSleeping => mret tt
  end.

(** The timer of the thread; a negative time sets none. *)
Definition expire : io rx_line unit :=
  p ← gets pos;
  match p with
  | AtSleeping =>
      if 0 <? wait_time then
        modify (λ l, l <| rx_notice := sem_timeout (rx_notice l) parser |>
                       <| expired := S (expired l) |> <| pos := AtReading |>)
      else mret tt
  | _ => mret tt
  end.

Inductive at_action : Type := Byte (ch : Z) | Idle | AtStep | Expire.

Definition act (a : at_action) : io rx_line unit :=
  match a with
  | Byte ch => d ← gets dma; ann ← lift (dma_write d ch); announced_to ann
  | Idle => d ← gets dma; announced_to (rx_idle d)
  | AtStep => at_client_getchar_step
  | Expire => expire
  end.

Definition runs (acts : list at_action) : io rx_line unit := seq_ (act <$> acts).
End line.

(** The port as [at_client_init] leaves it, with the default buffer of 64 characters. *)
Definition line0 : rx_line := MkLine (dma_open 64) (MkSem 0 [] RT_IPC_FLAG_FIFO) AtReading [] 0.
