(* ===== verification/AtPortSpec.v ===== *)
(** [at_client_getchar] against its port (AtPort.v): what the parser thread reads of what
    the modem sent, and when a notice of the port is lost. *)

From S2P Require Import Prelude Event Serial SerialSpec SerialDma SerialDmaSpec Sem AtPort.

Fixpoint sent (acts : list at_action) : list Z :=
  match acts with
  | [] => []
  | Byte ch :: acts => u8 ch :: sent acts
  | _ :: acts => sent acts
  end.

(** All that has arrived: read, announced, written. *)
Definition stream (l : rx_line) : list Z := got l ++ announced (dma l) ++ pending (dma l).

Section spec.
Variables (parser parser_prio timeout : Z).
Abbreviation act := (act parser parser_prio timeout).
Abbreviation runs := (runs parser parser_prio timeout).

(** The thread is interrupted between its failed read and the reset. *)
Definition between (l : rx_line) (a : at_action) : bool :=
  match pos l, a with AtResetting, (Byte _ | Idle) => true | _, _ => false end.

(** [P] holds of every action of the run in the state it starts in. *)
Fixpoint throughout (P : rx_line → at_action → Prop) (acts : list at_action) (l : rx_line) : Prop :=
  match acts with
  | [] => True
  | a :: acts =>
      P l a ∧ match act a l with Ret (_, l') => throughout P acts l' | Fault _ => False end
  end.

(** No character is written to a full buffer. *)
Definition room (l : rx_line) (a : at_action) : Prop :=
  match a with Byte _ => (unread (dma l) < 64)%nat | _ => True end.
Definition calm (l : rx_line) (a : at_action) : Prop := between l a = false.

Definition me : rt_thread := MkThread parser parser_prio 0 0.

Record sound (l : rx_line) : Prop := {
  sd_dma : dma_ok (dma l);
  sd_size : dma_bufsz (dma l) = 64;
  sd_flag : sem_flag (rx_notice l) = RT_IPC_FLAG_FIFO;
  sd_value : 0 <= sem_value (rx_notice l) < 65536;
  sd_wait : match pos l with
            | AtSleeping => sem_suspended (rx_notice l) = [me] ∧ sem_value (rx_notice l) = 0
            | _ => sem_suspended (rx_notice l) = []
            end }.

(** A notice reaches the thread: it wakes, or finds the semaphore when it takes it. *)
Definition notified (l l' : rx_line) : Prop :=
  match pos l with
  | AtSleeping => pos l' = AtReading
  | p => pos l' = p ∧ sem_value (rx_notice l') = u16 (sem_value (rx_notice l) + 1)
  end.

Lemma rx_ind_sound l n : sound l →
  wp (at_client_rx_ind parser n) (λ _ l', sound l' ∧ dma l' = dma l ∧ got l' = got l ∧
    if 0 <? n then notified l l' else l' = l) l.
Proof.
  intros Hl. pose proof Hl as []. unfold at_client_rx_ind. apply wp_modify.
  case_if; [|done]. unfold rt_sem_release, notified.
  assert (0 <= u16 (sem_value (rx_notice l) + 1) < 65536) as Hu
    by (unfold u16; apply Z.mod_pos_bound; lia).
  destruct (pos l) eqn:Ep;
    try (rewrite sd_wait0; split_and!; try done; split; cbn; rewrite ?Ep; done).
  destruct sd_wait0 as [Hs Hv]. rewrite Hs. cbn [me tid]. rewrite Z.eqb_refl.
  by split_and!.
Qed.

(** The effect of the hardware on the thread. *)
Lemma announce_sound l ann d' : sound l → dma_ok d' → dma_bufsz d' = 64 →
  wp (announced_to parser (ann, d')) (λ _ l', sound l' ∧ dma l' = d' ∧ got l' = got l ∧
    match ann with
    | Some n => if 0 <? n then notified l l' else pos l' = pos l ∧ rx_notice l' = rx_notice l
    | None => pos l' = pos l ∧ rx_notice l' = rx_notice l
    end) l.
Proof.
  intros Hl Hd Hs. unfold announced_to. apply wp_bind, wp_modify. cbn [fst snd].
  assert (sound (l <| dma := d' |>)) as Hl1 by (destruct Hl; by split).
  destruct ann as [n|]; [|by apply wp_ret].
  eapply wp_mono; [by apply rx_ind_sound|]. intros [] l' (H' & Hdm & Hg & Hn). cbn beta.
  split_and!; [done|by rewrite Hdm|by rewrite Hg|]. revert Hn. case_if; [done|]. by intros ->.
Qed.

(** ** One action *)

Lemma byte_sound l ch : sound l →
  wp (act (Byte ch)) (λ _ l', sound l' ∧ got l' = got l ∧
    ((unread (dma l) < 64)%nat →
     announced (dma l') = announced (dma l) ∧ pending (dma l') = pending (dma l) ++ [u8 ch] ∧
       pos l' = pos l ∧ rx_notice l' = rx_notice l ∨
     announced (dma l') = announced (dma l) ++ pending (dma l) ++ [u8 ch] ∧ pending (dma l') = [] ∧
       notified l l')) l.
Proof.
  intros Hl. pose proof Hl as []. cbn [AtPort.act]. apply wp_bind, wp_gets, wp_bind.
  destruct (dma_write_spec (dma l) ch sd_dma0) as (ann & d' & Hw & Hd' & Hs & Hfit).
  eapply wp_lift; [exact Hw|].
  eapply wp_mono; [apply announce_sound; [done|done|by rewrite Hs]|].
  intros [] l' (H' & Hdm & Hg & Hn). cbn beta. split_and!; [done..|]. intros Hroom. rewrite Hdm.
  rewrite sd_size0 in Hfit. specialize (Hfit Hroom). destruct ann as [n|].
  - right. destruct Hfit as (Ha & Hp & ->). split_and!; [done..|]. revert Hn. case_if; [done|].
    exfalso. rewrite <- (announced_length d' Hd'), Ha, !length_app in E. cbn in E. lia.
  - left. by destruct Hfit, Hn.
Qed.

Lemma idle_sound l : sound l →
  wp (act Idle) (λ _ l', sound l' ∧ got l' = got l ∧
    ((unread (dma l) <= 64)%nat →
     pending (dma l) = [] ∧ dma l' = dma l ∧ pos l' = pos l ∧ rx_notice l' = rx_notice l ∨
     announced (dma l') = announced (dma l) ++ pending (dma l) ∧ pending (dma l') = [] ∧
       pending (dma l) ≠ [] ∧ notified l l')) l.
Proof.
  intros Hl. pose proof Hl as []. cbn [AtPort.act]. apply wp_bind, wp_gets.
  pose proof (rx_idle_spec (dma l) sd_dma0) as Hi. destruct (rx_idle (dma l)) as [ann d'].
  destruct Hi as (Hd' & Hs & Hp & Hnone & Hsame & Hfit).
  eapply wp_mono; [apply announce_sound; [done|done|by rewrite Hs]|].
  intros [] l' (H' & Hdm & Hg & Hn). cbn beta. split_and!; [done..|]. intros Hroom. rewrite Hdm.
  rewrite sd_size0 in Hfit. specialize (Hfit Hroom) as [Ha Hann]. destruct ann as [n|].
  - right. assert (pending (dma l) ≠ []) as Hne by (intros E; by apply Hnone in E).
    split_and!; try done. destruct Hann as [|[= ->]]; [done|]. revert Hn. case_if; [done|].
    exfalso. rewrite <- (announced_length d' Hd'), Ha, length_app in E.
    destruct (pending (dma l)); [done|]. cbn in E. lia.
  - left. split_and!; [by apply Hnone|by apply Hsame|by destruct Hn..].
Qed.

Lemma step_sound l : sound l →
  wp (act AtStep) (λ _ l', sound l' ∧
    match pos l, announced (dma l) with
    | AtReading, c :: r => got l' = got l ++ [c] ∧ announced (dma l') = r ∧
        pending (dma l') = pending (dma l) ∧ pos l' = AtReading
    | p, a => got l' = got l ∧ announced (dma l') = a ∧ pending (dma l') = pending (dma l) ∧
        match p with
        | AtReading => pos l' = AtResetting
        | AtResetting => pos l' = AtTaking ∧ sem_value (rx_notice l') = 0
        | AtTaking => pos l' = if (sem_value (rx_notice l) =? 0) && negb (wait_time timeout =? 0)
                               then AtSleeping else AtReading
        | AtSleeping => l' = l
        end
    end) l.
Proof.
  intros Hl. pose proof Hl as []. cbn [AtPort.act]. unfold at_client_getchar_step.
  apply wp_bind, wp_gets. destruct (pos l) eqn:Ep.
  - apply wp_bind, wp_gets, wp_bind.
    destruct (dma_rx_spec (dma l) 1 sd_dma0) as (f & Hrx & Hd' & Ha & Hp); [lia|].
    eapply wp_lift; [exact Hrx|]. apply wp_bind, wp_modify.
    change (Z.to_nat 1) with 1%nat in *. destruct (announced (dma l)) as [|c r] eqn:Ea; cbn [take].
    + apply wp_modify. by split_and!.
    + rewrite take_0. apply wp_modify. split_and!; try done. split; cbn; rewrite ?Ep; done.
  - apply wp_modify. by split_and!.
  - apply wp_bind, wp_gets. unfold rt_sem_take. case_if.
    + decide_if (sem_value (rx_notice l) =? 0) false. cbn [andb]. apply wp_modify.
      split_and!; try done. split; cbn; try done; lia.
    + decide_if (sem_value (rx_notice l) =? 0) true. cbn [andb]. case_if; cbn [negb]; apply wp_modify.
      * by split_and!.
      * split_and!; try done. split; cbn; try done. rewrite sd_wait0, sd_flag0. cbn. split; [done|lia].
  - by apply wp_ret.
Qed.

Lemma expire_sound l : sound l →
  wp (act Expire) (λ _ l', sound l' ∧ dma l' = dma l ∧ got l' = got l ∧
    (pos l' = pos l ∧ rx_notice l' = rx_notice l ∨ pos l = AtSleeping ∧ pos l' = AtReading)) l.
Proof.
  intros Hl. pose proof Hl as []. cbn [AtPort.act]. unfold expire. apply wp_bind, wp_gets.
  destruct (pos l) eqn:Ep; try (apply wp_ret; split_and!; [done..|by left]).
  case_if; [|apply wp_ret; split_and!; [done..|by left]]. apply wp_modify. split_and!; try done; [|by right].
  destruct sd_wait0 as [Hs Hv]. split; cbn; try done. rewrite Hs. cbn. by rewrite Z.eqb_refl.
Qed.

(** ** Runs *)

Record steady (l : rx_line) : Prop := {
  sy_sound : sound l;
  sy_room : (unread (dma l) <= 64)%nat }.

Lemma act_stream a l : steady l → room l a →
  wp (act a) (λ _ l', steady l' ∧ stream l' = stream l ++ sent [a]) l.
Proof.
  intros [Hl Hu] Hr. unfold stream, unread in *. destruct a as [ch| | |]; cbn [sent].
  - eapply wp_mono; [by apply byte_sound|]. intros [] l' (H' & Hg & Hd). cbn beta.
    specialize (Hd Hr). cbn in Hr. unfold unread in Hr.
    destruct Hd as [(Ha & Hp & _)|(Ha & Hp & _)]; (split; [split; [done|]|]).
    + unfold unread. rewrite Ha, Hp, length_app. cbn. lia.
    + by rewrite Hg, Ha, Hp, <- !app_assoc.
    + unfold unread. rewrite Ha, Hp, !length_app. cbn. lia.
    + by rewrite Hg, Ha, Hp, app_nil_r, <- !app_assoc.
  - eapply wp_mono; [by apply idle_sound|]. intros [] l' (H' & Hg & Hd). cbn beta. rewrite app_nil_r.
    destruct (Hd Hu) as [(_ & Hdm & _)|(Ha & Hp & _)]; (split; [split; [done|]|]).
    + unfold unread. by rewrite Hdm.
    + by rewrite Hg, Hdm.
    + unfold unread. rewrite Ha, Hp, length_app. cbn. lia.
    + by rewrite Hg, Ha, Hp, app_nil_r.
  - eapply wp_mono; [by apply step_sound|]. intros [] l' (H' & Hd). cbn beta. rewrite app_nil_r.
    destruct (pos l), (announced (dma l)) as [|c r] eqn:Ea; destruct Hd as (Hg & Ha & Hp & _);
      (split; [split; [done|unfold unread; rewrite Ha, Hp; cbn in *; lia]|]);
      rewrite Hg, Ha, Hp; try done.
    by rewrite <- app_assoc.
  - eapply wp_mono; [by apply expire_sound|]. intros [] l' (H' & Hd & Hg & _). cbn beta.
    rewrite Hg, Hd, app_nil_r. split; [|done]. split; [done|]. unfold unread. by rewrite Hd.
Qed.

(** When nothing comes between a failed read and the reset, a thread that is going to wait
    finds a notice for what has been announced. *)
Definition awake (l : rx_line) : Prop :=
  match pos l with
  | AtReading => True
  | AtResetting | AtSleeping => announced (dma l) = []
  | AtTaking => (announced (dma l) = [] ∨ 0 < sem_value (rx_notice l)) ∧
                sem_value (rx_notice l) <= Z.of_nat (length (announced (dma l)))
  end.

Lemma notified_awake l l' :
  sound l → awake l → pos l ≠ AtResetting → notified l l' →
  (length (announced (dma l)) < length (announced (dma l')) <= 64)%nat → awake l'.
Proof.
  intros Hl Ha Hp Hn Hlen. pose proof Hl as []. unfold notified, awake in *. destruct (pos l) eqn:Ep.
  - destruct Hn as [-> _]. done.
  - done.
  - destruct Hn as [-> ->], Ha as [_ Hv]. rewrite u16_small by lia. split; [right|]; lia.
  - by rewrite Hn.
Qed.

Lemma act_awake a l : steady l → room l a → calm l a → awake l → wp (act a) (λ _ l', awake l') l.
Proof.
  intros [Hl Hu] Hr Hc Ha. destruct a as [ch| | |].
  - assert (pos l ≠ AtResetting) as Hp by (intros E; unfold calm, between in Hc; by rewrite E in Hc).
    eapply wp_mono; [by apply byte_sound|]. intros [] l' (H' & Hg & Hd). cbn beta.
    destruct (Hd Hr) as [(Han & _ & Hps & Hrx)|(Han & _ & Hn)].
    + unfold awake in *. by rewrite Han, Hps, Hrx.
    + apply (notified_awake l); [done..|]. rewrite Han, !length_app. cbn in *. unfold unread in *. lia.
  - assert (pos l ≠ AtResetting) as Hp by (intros E; unfold calm, between in Hc; by rewrite E in Hc).
    eapply wp_mono; [by apply idle_sound|]. intros [] l' (H' & Hg & Hd). cbn beta.
    destruct (Hd Hu) as [(_ & Hdm & Hps & Hrx)|(Han & _ & Hne & Hn)].
    + unfold awake in *. by rewrite Hdm, Hps, Hrx.
    + apply (notified_awake l); [done..|]. rewrite Han, length_app. unfold unread in *.
      destruct (pending (dma l)); [done|]. cbn in *. lia.
  - eapply wp_mono; [by apply step_sound|]. intros [] l' (H' & Hd). cbn beta.
    unfold awake in *. destruct (pos l) eqn:Ep.
    + destruct (announced (dma l)) as [|c r]; destruct Hd as (_ & Han & _ & Hps); by rewrite Hps.
    + destruct Hd as (_ & Han & _ & Hps & Hv). rewrite Hps, Hv, Han, Ha. cbn. split; [by left|lia].
    + destruct Hd as (_ & Han & _ & Hps). rewrite Hps. case_if; [|done].
      rewrite Han. destruct Ha as [[?|?] _]; [done|lia].
    + destruct Hd as (_ & _ & _ & ->). by rewrite Ep.
  - eapply wp_mono; [by apply expire_sound|]. intros [] l' (H' & Hd & _ & Hps). cbn beta.
    unfold awake in *. rewrite Hd. by destruct Hps as [[-> ->]|[_ ->]].
Qed.

Lemma run_stream acts : ∀ l, steady l → throughout room acts l →
  wp (runs acts) (λ _ l', steady l' ∧ stream l' = stream l ++ sent acts) l.
Proof.
  unfold AtPort.runs. induction acts as [|a acts IH]; intros l Hl Hr; cbn [fmap list_fmap seq_].
  - apply wp_ret. by rewrite app_nil_r.
  - destruct Hr as [Hr Hrest]. pose proof (act_stream a l Hl Hr) as Ha. apply wp_bind.
    unfold wp in Ha |- * at 1. destruct (act a l) as [[[] l1]|]; [|done]. destruct Ha as [H1 E].
    eapply wp_mono; [by apply IH|]. intros [] l' [H' E']. cbn beta. split; [done|].
    rewrite E', E, <- app_assoc. by destruct a.
Qed.

Lemma run_awake acts : ∀ l, steady l → awake l → throughout room acts l → throughout calm acts l →
  wp (runs acts) (λ _, awake) l.
Proof.
  unfold AtPort.runs. induction acts as [|a acts IH]; intros l Hl Haw Hr Hc; cbn [fmap list_fmap seq_]; [done|].
  destruct Hr as [Hr Hrest], Hc as [Hc Hcrest].
  pose proof (act_stream a l Hl Hr) as Ha. pose proof (act_awake a l Hl Hr Hc Haw) as Hb. apply wp_bind.
  unfold wp in Ha, Hb |- * at 1. destruct (act a l) as [[[] l1]|]; [|done]. destruct Ha as [H1 _].
  by apply IH.
Qed.

Lemma act_sound a l : sound l → wp (act a) (λ _, sound) l.
Proof.
  intros Hl. destruct a.
  - eapply wp_mono; [by apply byte_sound|]. by intros [] ? [? _].
  - eapply wp_mono; [by apply idle_sound|]. by intros [] ? [? _].
  - eapply wp_mono; [by apply step_sound|]. by intros [] ? [? _].
  - eapply wp_mono; [by apply expire_sound|]. by intros [] ? [? _].
Qed.

Lemma run_sound acts : ∀ l, sound l → wp (runs acts) (λ _, sound) l.
Proof.
  unfold AtPort.runs. induction acts as [|a acts IH]; intros l Hl; cbn [fmap list_fmap seq_]; [done|].
  apply wp_bind. eapply wp_mono; [by apply act_sound|]. intros [] l1 H1. by apply IH.
Qed.

Lemma line0_steady : steady line0 ∧ awake line0 ∧ stream line0 = [].
Proof.
  assert (dma_ok (dma_open 64)) as Hd.
  { split; cbn -[replicate Z.to_nat]; try done; try lia.
    apply Forall_replicate. by unfold is_byte. }
  split_and!; [|done|done]. split; [by split|]. vm_compute. lia.
Qed.

(** ** The race *)

(** A character that is announced between the failed read and the reset. *)
Lemma announced_between l ch :
  steady l → pos l = AtResetting → announced (dma l) = [] → pending (dma l) = [] →
  wait_time timeout < 0 →
  wp (runs [Byte ch; Idle; AtStep; AtStep]) (λ _ l', steady l' ∧ pos l' = AtSleeping ∧
    got l' = got l ∧ announced (dma l') = [u8 ch] ∧ pending (dma l') = []) l.
Proof.
  intros Hl Hp Ha Hpend Hw. pose proof Hl as [Hs Hu]. unfold AtPort.runs. cbn [fmap list_fmap seq_].
  apply wp_bind. eapply wp_mono.
  { apply wp_conj; [by apply byte_sound|apply act_stream; [done|]]. cbn. unfold unread. rewrite Ha, Hpend. cbn. lia. }
  intros [] l1 [(H1 & Hg1 & Hd) [Hst1 _]]. cbn beta.
  rewrite Ha, Hpend in Hd. unfold unread in Hd at 1. rewrite Ha, Hpend in Hd.
  specialize (Hd ltac:(cbn; lia)).
  assert (announced (dma l1) ++ pending (dma l1) = [u8 ch] ∧ pos l1 = AtResetting) as [Hq1 Hp1].
  { unfold notified in Hd. rewrite Hp in Hd. destruct Hd as [(-> & -> & -> & _)|(-> & -> & -> & _)]; done. }
  apply wp_bind. eapply wp_mono; [apply wp_conj; [by apply idle_sound|by apply act_stream]|].
  intros [] l2 [(H2 & Hg2 & Hd2) [Hst2 _]]. cbn beta. specialize (Hd2 (sy_room _ Hst1)).
  assert (announced (dma l2) = [u8 ch] ∧ pending (dma l2) = [] ∧ pos l2 = AtResetting) as (Ha2 & Hpe2 & Hp2).
  { unfold notified in Hd2. rewrite Hp1 in Hd2.
    destruct Hd2 as [(Hpe & -> & -> & _)|(-> & -> & _ & -> & _)]; [|done].
    by rewrite Hpe, app_nil_r in Hq1. }
  apply wp_bind. eapply wp_mono; [apply wp_conj; [by apply step_sound|by apply act_stream]|].
  intros [] l3 [(H3 & Hd3) [Hst3 _]]. cbn beta. rewrite Hp2, Ha2 in Hd3.
  destruct Hd3 as (Hg3 & Ha3 & Hpe3 & Hp3 & Hv3).
  apply wp_bind. eapply wp_mono; [apply wp_conj; [by apply step_sound|by apply act_stream]|].
  intros [] l4 [(H4 & Hd4) [Hst4 _]]. cbn beta. rewrite Hp3, Ha3 in Hd4.
  destruct Hd4 as (Hg4 & Ha4 & Hpe4 & Hp4). apply wp_ret.
  rewrite Hv3 in Hp4. replace (wait_time timeout =? 0) with false in Hp4 by (symmetry; apply Z.eqb_neq; lia).
  split_and!; [done|exact Hp4|congruence|done|congruence].
Qed.

Lemma asleep l n : pos l = AtSleeping → runs (replicate n AtStep) l = Ret (tt, l).
Proof.
  intros Hp. unfold AtPort.runs. induction n as [|n IH]; cbn [replicate fmap list_fmap seq_]; [done|].
  unfold mbind, io_bind, AtPort.act, at_client_getchar_step, mbind, io_bind, gets. by rewrite Hp.
Qed.

(** The next announcement brings everything. *)
Lemma woken_again l c ch :
  steady l → pos l = AtSleeping → announced (dma l) = [c] → pending (dma l) = [] →
  wp (runs [Byte ch; Idle; AtStep; AtStep]) (λ _ l', got l' = got l ++ [c; u8 ch]) l.
Proof.
  intros Hl Hp Ha Hpend. pose proof Hl as [Hs Hu]. unfold AtPort.runs. cbn [fmap list_fmap seq_].
  apply wp_bind. eapply wp_mono.
  { apply wp_conj; [by apply byte_sound|apply act_stream; [done|]]. cbn. unfold unread. rewrite Ha, Hpend. cbn. lia. }
  intros [] l1 [(H1 & Hg1 & Hd) [Hst1 _]]. cbn beta.
  unfold unread in Hd at 1. rewrite Ha, Hpend in Hd. specialize (Hd ltac:(cbn; lia)).
  apply wp_bind. eapply wp_mono; [apply wp_conj; [by apply idle_sound|by apply act_stream]|].
  intros [] l2 [(H2 & Hg2 & Hd2) [Hst2 _]]. cbn beta. specialize (Hd2 (sy_room _ Hst1)).
  assert (announced (dma l2) = [c; u8 ch] ∧ pos l2 = AtReading) as (Ha2 & Hp2).
  { unfold notified in Hd, Hd2. rewrite Hp in Hd.
    destruct Hd as [(Ha1 & Hp1 & Hps1 & _)|(Ha1 & Hp1 & Hps1)]; rewrite Ha1, Hp1, Hps1 in Hd2.
    - by destruct Hd2 as [[? _]|(-> & _ & _ & ->)].
    - by destruct Hd2 as [(_ & -> & -> & _)|(_ & _ & ? & _)]; [rewrite Ha1|]. }
  apply wp_bind. eapply wp_mono; [by apply step_sound|].
  intros [] l3 (H3 & Hd3). cbn beta. rewrite Hp2, Ha2 in Hd3. destruct Hd3 as (Hg3 & Ha3 & _ & Hp3).
  apply wp_bind. eapply wp_mono; [by apply step_sound|].
  intros [] l4 (H4 & Hd4). cbn beta. rewrite Hp3, Ha3 in Hd4. destruct Hd4 as (Hg4 & _).
  apply wp_ret. rewrite Hg4, Hg3, Hg2, Hg1, <- app_assoc. done.
Qed.
End spec.

Section theorems.
Variables (parser parser_prio timeout : Z).
Abbreviation runs := (runs parser parser_prio timeout).

(** C17. Reading from the modem's port, for every interleaving of [at_client_getchar] with
    the DMA and its interrupts.  No step faults.  As long as no character is written to a
    buffer that holds 64 unread ones, what the thread has read, what is announced and what
    is only written are together what was sent, in order; and if moreover nothing is
    announced between a read that finds nothing and the [rt_sem_control] that follows it,
    the thread never sleeps on announced characters. *)
Theorem at_getchar_stream acts :
  wp (runs acts) (λ _ _, True) line0 ∧
  (throughout parser parser_prio timeout room acts line0 →
   wp (runs acts) (λ _ l, got l ++ announced (dma l) ++ pending (dma l) = sent acts ∧
     (throughout parser parser_prio timeout calm acts line0 →
      pos l = AtSleeping → announced (dma l) = [])) line0).
Proof.
  destruct (line0_steady parser parser_prio) as (Hs & Ha & Hst). split.
  { eapply wp_mono; [apply run_sound, Hs|done]. }
  intros Hr. pose proof (run_stream parser parser_prio timeout acts line0 Hs Hr) as H1.
  pose proof (run_awake parser parser_prio timeout acts line0 Hs Ha Hr) as H2.
  unfold wp in *. destruct (runs acts line0) as [[[] l]|]; [|done].
  destruct H1 as [_ E]. rewrite Hst in E. split; [exact E|]. intros Hc Hp.
  specialize (H2 Hc). unfold awake in H2. by rewrite Hp in H2.
Qed.

(** The lost notice.  [rt_sem_control] throws away a notice that arrives after the
    failed read: whenever the parser thread stands there with nothing unread and a
    character comes in, the thread goes to sleep with the character announced, and stays
    asleep however long it waits (it waits forever); only the next character from the modem
    wakes it, and then it reads both. *)
Theorem at_getchar_lost_notice acts l ch :
  wait_time timeout < 0 →
  throughout parser parser_prio timeout room acts line0 → runs acts line0 = Ret (tt, l) →
  pos l = AtResetting → announced (dma l) = [] → pending (dma l) = [] →
  wp (runs [Byte ch; Idle; AtStep; AtStep]) (λ _ l',
    pos l' = AtSleeping ∧ announced (dma l') = [u8 ch] ∧
    (∀ n, runs (replicate n AtStep) l' = Ret (tt, l')) ∧
    ∀ ch', wp (runs [Byte ch'; Idle; AtStep; AtStep]) (λ _ l'', got l'' = got l ++ [u8 ch; u8 ch']) l') l.
Proof.
  intros Hw Hr Hrun Hp Ha Hpe.
  destruct (line0_steady parser parser_prio) as (Hs & _ & _).
  pose proof (run_stream parser parser_prio timeout acts line0 Hs Hr) as H1.
  unfold wp in H1. rewrite Hrun in H1. destruct H1 as [Hl _].
  eapply wp_mono; [by apply (announced_between parser parser_prio timeout l ch)|].
  intros [] l' (Hl' & Hp' & Hg & Ha' & Hpe'). split_and!; [done|done|intros n; by apply asleep|].
  intros ch'. rewrite <- Hg. by apply (woken_again parser parser_prio timeout).
Qed.
End theorems.

Lemma at_getchar_stream_witness :
  throughout 3 9 (-1) room [Byte 65; Idle; AtStep; AtStep; AtStep; AtStep; Byte 66; Idle; AtStep] line0 ∧
  wp (runs 3 9 (-1) [Byte 65; Idle; AtStep; AtStep; AtStep; AtStep; Byte 66; Idle; AtStep])
    (λ _ l, got l ++ announced (dma l) ++ pending (dma l) = [65; 66]) line0.
Proof.
  assert (throughout 3 9 (-1) room [Byte 65; Idle; AtStep; AtStep; AtStep; AtStep; Byte 66; Idle; AtStep] line0)
    as Hr by (vm_compute; repeat split; lia).
  split; [exact Hr|].
  destruct (at_getchar_stream 3 9 (-1) [Byte 65; Idle; AtStep; AtStep; AtStep; AtStep; Byte 66; Idle; AtStep])
    as [_ H].
  eapply wp_mono; [exact (H Hr)|]. intros [] l [E _]. exact E.
Defined.

Lemma at_getchar_lost_notice_witness :
  ∃ l, runs 3 9 (-1) [AtStep] line0 = Ret (tt, l) ∧
  wp (runs 3 9 (-1) [Byte 65; Idle; AtStep; AtStep])
    (λ _ l', pos l' = AtSleeping ∧ announced (dma l') = [65]) l.
Proof.
  eexists. split; [vm_compute; reflexivity|].
  eapply wp_mono; [apply (at_getchar_lost_notice 3 9 (-1) [AtStep] _ 65)|];
    [ vm_compute; reflexivity
    | vm_compute; repeat split
    | vm_compute; reflexivity
    | vm_compute; reflexivity
    | vm_compute; reflexivity
    | vm_compute; reflexivity
    | intros [] l' (H1 & H2 & _); split; [exact H1|exact H2] ].
Defined.

