(* ===== verification/GpsPort.v ===== *)
(** The serial side of the GPS task (gps.c): opening the port, the receive callback and
    [uart_getchar].

    The reading thread and the interrupt of the port interleave.  [reader] says where the
    loop of [uart_getchar] stands; one step is one of its calls, [rt_device_read] or
    [rt_event_recv], and an interrupt is the handler with the callback [uart_intput].  What
    the thread does with a character (Gps.v) touches neither the port nor the event. *)

From S2P Require Import Prelude CLib Event Serial.

Definition RT_EINVAL := 10.
Definition UART_RX_EVENT := 1.
Definition GPS_UART_NAME : cstr := bytes "uart2".
Definition BAUD_RATE_9600 := 9600.

Inductive position : Type := Reading | Receiving | Sleeping.

(** [event] is [None] before [rt_event_init]; [taken] the characters [uart_getchar] has
    returned; [log] what [rt_kprintf] printed. *)
Record port : Type := MkPort {
  uart_device : rt_serial_device;
  event : option rt_event;
  reader : position;
  taken : list Z;
  started : bool;
  log : list cstr }.
#[global] Instance port_eta : Eta port := λ p,
  MkPort (uart_device p) (event p) (reader p) (taken p) (started p) (log p).

Section port.
(** Of the board and the kernel: whether the port is found, the calls of [ops->configure],
    the allocator and thread creation succeed; the thread's number and priority; reading
    in the other modes. *)
Variables (rt_device_find : bool) (rt_thread_create : bool).
Variables (configure rt_malloc : nat → bool).
Variables (gps_thread gps_prio : Z).
Variable other_read : rt_serial_device → nat → res (list Z * rt_serial_device).
(** The interrupts, with their characters, that occur at a point of [gps_init]. *)
Variable irq : nat → list (list Z).

(** * The interrupt *)

(** The assertion on the type of the object fails before [rt_event_init].  A thread that
    is resumed reads again. *)
Definition uart_intput : io port unit := λ p,
  match event p with
  | None => Fault AssertFailed
  | Some ev =>
      let '(_, ev, woken) := rt_event_send ev UART_RX_EVENT in
      let p := p <| event := Some ev |> in
      Ret (tt, if existsb (λ t, tid t =? gps_thread) woken then p <| reader := Reading |> else p)
  end.

Definition set_uart (s : rt_serial_device) : io port unit :=
  modify (λ p, p <| uart_device := s |>).

Definition isr (chars : list Z) : io port unit :=
  s ← gets uart_device;
  if rx_irq s then
    '(indicated, s) ← lift (rt_hw_serial_isr s chars);
    set_uart s ;;
    match indicated with Some _ => uart_intput | None => mret tt end
  else mret tt.

(** * The thread *)

Definition uart_getchar_step : io port unit :=
  pos ← gets reader;
  match pos with
  | Reading =>
      s ← gets uart_device;
      '(data, s) ← lift (rt_device_read other_read s 1);
      set_uart s ;;
      match data with
      | [ch] => modify (λ p, p <| taken := taken p ++ [ch] |>)
      | _ => modify (λ p, p <| reader := Receiving |>)
      end
  | Receiving =>
      oev ← gets event;
      match oev with
      | None => io_fault AssertFailed
      | Some ev =>
          r ← lift (rt_event_recv ev gps_thread gps_prio UART_RX_EVENT
                      (Z.lor RT_EVENT_FLAG_AND RT_EVENT_FLAG_CLEAR) RT_WAITING_FOREVER);
          match r with
          | RecvFailed _ => modify (λ p, p <| reader := Reading |>)
          | Recved _ ev => modify (λ p, p <| event := Some ev |> <| reader := Reading |>)
          | Suspended ev => modify (λ p, p <| event := Some ev |> <| reader := Sleeping |>)
          end
      end
  | Sleeping => mret tt
  end.

Inductive action : Type := Isr (chars : list Z) | Step.

Fixpoint run (acts : list action) : io port unit :=
  match acts with
  | [] => mret tt
  | Isr chars :: acts => isr chars ;; run acts
  | Step :: acts => uart_getchar_step ;; run acts
  end.

(** * Opening *)

Fixpoint isrs (l : list (list Z)) : io port unit :=
  match l with [] => mret tt | chars :: l => isr chars ;; isrs l end.
Definition interrupts (point : nat) : io port unit := isrs (irq point).

Definition rt_kprintf (s : cstr) : io port unit := modify (λ p, p <| log := log p ++ [s] |>).

Definition rt_event_init : io port unit :=
  modify (λ p, p <| event := Some (MkEvent 0 [] RT_IPC_FLAG_FIFO) |>).

(** The receiver interrupts from within [rt_device_open] on. *)
Definition uart_open (device : bool) : io port Z :=
  if device then
    s ← gets uart_device;
    let '(res, s) := rt_device_set_rx_indicate s in
    set_uart s ;;
    if negb (res =? RT_EOK) then
      rt_kprintf (bytes "set " ++ GPS_UART_NAME ++ bytes " rx indicate error." ++ print_d res ++ [LF]) ;;
      mret (- RT_ERROR)
    else
      '(res, s) ← lift (rt_device_open configure rt_malloc 0 s
                          (Z.lor RT_DEVICE_OFLAG_RDWR RT_DEVICE_FLAG_INT_RX));
      set_uart s ;;
      interrupts 0 ;;
      if negb (res =? RT_EOK) then
        rt_kprintf (bytes "open " ++ GPS_UART_NAME ++ bytes " device error." ++ print_d res ++ [LF]) ;;
        mret (- RT_ERROR)
      else
        rt_event_init ;;
        interrupts 1 ;;
        mret RT_EOK
  else io_fault NullDeref.

Definition gps_use_config : serial_configure := MkConfigure BAUD_RATE_9600 1024.

(** [rt_device_control (uart_device, RT_DEVICE_CTRL_CONFIG, &gps_use_config)] *)
Definition uart_config : io port Z :=
  s ← gets uart_device;
  let '(res, s) := rt_serial_control s gps_use_config in
  set_uart s ;;
  mret res.

Definition gps_init : io port Z :=
  if negb rt_device_find then
    rt_kprintf (bytes " find device " ++ GPS_UART_NAME ++ bytes " failed!" ++ [LF]) ;;
    mret RT_EINVAL
  else
    res ← uart_config;
    if negb (res =? RT_EOK) then rt_kprintf (bytes "uart config failed." ++ [LF]) ;; mret RT_ERROR
    else
      res ← uart_open rt_device_find;
      if negb (res =? RT_EOK) then rt_kprintf (bytes "uart open error." ++ [LF]) ;; mret RT_ERROR
      else
        res ← uart_config;
        interrupts 2 ;;
        if negb (res =? RT_EOK) then rt_kprintf (bytes "uart config failed." ++ [LF]) ;; mret RT_ERROR
        else if negb rt_thread_create then mret RT_ERROR
        else modify (λ p, p <| started := true |> <| reader := Reading |>) ;; mret RT_EOK.

End port.
