(* ===== verification/GpsPortSpec.v ===== *)
(** The receive path of the GPS port (GpsPort.v): what reaches [uart_getchar] of what the
    interrupt received, under every interleaving of the two, and how the port is opened. *)

From S2P Require Import Prelude CLib Event Serial SerialSpec GpsPort.

(** The characters received and not yet read. *)
Definition queue (p : port) : list Z :=
  match serial_rx (uart_device p) with RxFifo f => content 1024 f | _ => [] end.

Fixpoint arrived (acts : list action) : list Z :=
  match acts with
  | [] => []
  | Isr chars :: acts => (u8 <$> chars) ++ arrived acts
  | Step :: acts => arrived acts
  end.

Fixpoint steps (acts : list action) : nat :=
  match acts with
  | [] => 0
  | Isr _ :: acts => steps acts
  | Step :: acts => S (steps acts)
  end.

(** The device is open in interrupt mode with the callback set. *)
Record opened (s : rt_serial_device) (f : rt_serial_rx_fifo) : Prop := {
  op_mode : flag (open_flag s) RT_DEVICE_FLAG_INT_RX = true;
  op_ref : ref_count s ≠ 0;
  op_ind : rx_indicate s = true;
  op_irq : rx_irq s = true;
  op_size : bufsz (config s) = 1024;
  op_rx : serial_rx s = RxFifo f;
  op_fifo : fifo_ok 1024 f }.

Section spec.
Variables (gps_thread gps_prio : Z).
Variable other_read : rt_serial_device → nat → res (list Z * rt_serial_device).

Definition waiting : rt_thread := MkThread gps_thread gps_prio UART_RX_EVENT 5.

(** Where the thread stands against the event: it sleeps only on an empty queue, and when
    it is about to wait on a queue that is not empty the event is set. *)
Definition waits (pos : position) (q : list Z) (ev : rt_event) : Prop :=
  match pos with
  | Reading => ev = MkEvent 0 [] 0 ∨ ev = MkEvent 1 [] 0
  | Receiving => ev = MkEvent 0 [] 0 ∧ q = [] ∨ ev = MkEvent 1 [] 0
  | Sleeping => ev = MkEvent 0 [waiting] 0 ∧ q = []
  end.

Record ready (p : port) : Prop := {
  rd_dev : ∃ f, opened (uart_device p) f;
  rd_ev : ∃ ev, event p = Some ev ∧ waits (reader p) (queue p) ev }.

(** The event after the callback: a sleeping thread takes the flag with it. *)
Definition signalled (pos : position) : rt_event :=
  MkEvent (match pos with Sleeping => 0 | _ => 1 end) [] 0.

Lemma uart_intput_ready (p : port) ev pos q :
  event p = Some ev → reader p = pos → waits pos q ev →
  uart_intput gps_thread p =
    Ret (tt, p <| event := Some (signalled pos) |>
               <| reader := match pos with Sleeping => Reading | _ => pos end |>).
Proof.
  intros He Hr Hw. unfold uart_intput. rewrite He. destruct p as [s e r t st l]. cbn in He, Hr. subst.
  destruct pos; cbn in Hw.
  - by destruct Hw as [-> | ->].
  - by destruct Hw as [[-> ->] | ->].
  - destruct Hw as [-> ->].
    change (rt_event_send _ _) with (RT_EOK, MkEvent 0 [] 0, [waiting]).
    cbn [existsb waiting tid]. by rewrite Z.eqb_refl.
Qed.

Lemma queue_opened (p : port) f : opened (uart_device p) f → queue p = content 1024 f.
Proof. intros []. unfold queue. by rewrite op_rx0. Qed.

Lemma opened_fifo s f f' : opened s f → fifo_ok 1024 f' → opened (s <| serial_rx := RxFifo f' |>) f'.
Proof. intros [] ?. by split. Qed.

(** ** One interrupt, one step *)

Lemma isr_ready (p : port) chars :
  ready p →
  wp (isr gps_thread chars) (λ _ p', ready p' ∧ taken p' = taken p ∧
    queue p' = keep 1023 (queue p ++ (u8 <$> chars)) ∧
    (queue p ≠ [] ∨ reader p ≠ Sleeping → reader p' = reader p)) p.
Proof.
  intros [[f Hop] (ev & He & Hw)]. pose proof (queue_opened _ _ Hop) as Hq.
  pose proof Hop as [_ _ Hind Hirq Hsz Hrx Hf].
  destruct (fifo_puts_content 1024 f chars Hf) as (f' & Hputs & Hf' & Hc).
  unfold isr. apply wp_bind, wp_gets. rewrite Hirq. apply wp_bind.
  unfold rt_hw_serial_isr. rewrite Hrx, Hsz, Hputs, res_bind_ret, Hind.
  rewrite rx_length_content by done. apply wp_lift with (1 := eq_refl). cbn [andb].
  apply wp_bind, wp_modify.
  pose proof (opened_fifo _ _ _ Hop Hf') as Hop'.
  set (p1 := p <| uart_device := _ |>).
  assert (queue p1 = content 1024 f') as Hq1 by done.
  change (Z.to_nat (1024 - 1)) with 1023%nat in Hc. rewrite Hq, <- Hc.
  destruct (Z.of_nat (length (content 1024 f')) =? 0) eqn:E; bool_prop; cbn [negb].
  - apply wp_ret. assert (content 1024 f' = []) as Hnil by (apply length_zero_iff_nil; lia).
    assert (queue p = []) as Hq0.
    { rewrite Hq. apply length_zero_iff_nil. pose proof (f_equal length Hc) as Hl.
      rewrite Hnil, keep_length, length_app in Hl. cbn [length] in Hl. lia. }
    split_and!; [|done..]. split; [by exists f'|]. exists ev. split; [done|].
    replace (queue p1) with (queue p) by (rewrite Hq0, Hq1; done). done.
  - unfold wp. rewrite (uart_intput_ready p1 ev (reader p) (queue p)) by done. split_and!; [|done..|].
    + split; [by exists f'|]. eexists. split; [done|]. cbn. destruct (reader p); cbn; auto.
    + intros Hne. cbn. destruct (reader p) eqn:Er; [done..|].
      destruct Hw as [_ Hw]. destruct Hne; congruence.
Qed.

Lemma step_ready (p : port) :
  ready p →
  wp (uart_getchar_step gps_thread gps_prio other_read) (λ _ p', ready p' ∧
    match reader p, queue p with
    | Reading, c :: q => taken p' = taken p ++ [c] ∧ queue p' = q ∧ reader p' = Reading
    | _, q => taken p' = taken p ∧ queue p' = q ∧ (q ≠ [] → reader p' = Reading)
    end) p.
Proof.
  intros [[f Hop] (ev & He & Hw)]. pose proof (queue_opened _ _ Hop) as Hq.
  pose proof Hop as [Hmode Href _ _ Hsz Hrx Hf].
  unfold uart_getchar_step. apply wp_bind, wp_gets. destruct (reader p) eqn:Er; cbn in Hw.
  - apply wp_bind, wp_gets. apply wp_bind.
    unfold rt_device_read, rt_serial_read. decide_if (ref_count (uart_device p) =? 0) false.
    rewrite Hmode, Hrx, Hsz. cbn [_serial_int_rx].
    pose proof (fifo_get_content 1024 f Hf) as Hget. rewrite Hq. destruct (content 1024 f) as [|c q] eqn:Ec.
    + rewrite Hget, !res_bind_ret. apply wp_lift with (1 := eq_refl).
      apply wp_bind, wp_modify, wp_modify. split; [|].
      { split; [exists f; by apply (opened_fifo _ f)|]. exists ev. split; [done|]. cbn.
        destruct Hw as [-> | ->]; [left|right]; done. }
      done.
    + destruct Hget as (f' & -> & Hf' & Hc' ). rewrite !res_bind_ret. apply wp_lift with (1 := eq_refl).
      apply wp_bind, wp_modify, wp_modify. split; [|done].
      split; [exists f'; by apply (opened_fifo _ f)|]. exists ev. split; [done|]. cbn. by rewrite Er.
  - apply wp_bind, wp_gets. rewrite He. apply wp_bind. destruct Hw as [[-> Hq0] | ->].
    + eapply wp_lift; [reflexivity|]. apply wp_modify. split; [|by rewrite Hq0].
      split; [by exists f|]. eexists. split; [done|]. by cbn.
    + eapply wp_lift; [reflexivity|]. apply wp_modify. split; [|done].
      split; [by exists f|]. eexists. split; [done|]. cbn. by left.
  - destruct Hw as [-> Hq0]. apply wp_ret. rewrite Hq0. split; [|done].
    split; [by exists f|]. eexists. split; [done|]. by rewrite Er.
Qed.

(** ** Runs *)

(** At no interrupt of the run the buffer has more than 1023 characters to hold. *)
Fixpoint fits (p : port) (acts : list action) : Prop :=
  match acts with
  | [] => True
  | Isr chars :: acts =>
      (length (queue p) + length chars <= 1023)%nat ∧
      match isr gps_thread chars p with Ret (_, p') => fits p' acts | Fault _ => False end
  | Step :: acts =>
      match uart_getchar_step gps_thread gps_prio other_read p with
      | Ret (_, p') => fits p' acts
      | Fault _ => False
      end
  end.

Lemma run_safe acts : ∀ p : port,
  ready p →
  wp (run gps_thread gps_prio other_read acts) (λ _ p', ready p' ∧ taken p `prefix_of` taken p' ∧
    taken p' ++ queue p' `sublist_of` taken p ++ queue p ++ arrived acts ∧
    (fits p acts → taken p' ++ queue p' = taken p ++ queue p ++ arrived acts)) p.
Proof.
  induction acts as [|[chars|] acts IH]; intros p Hp; cbn [GpsPort.run arrived fits].
  - apply wp_ret. by rewrite !app_nil_r.
  - pose proof (isr_ready p chars Hp) as Hi. apply wp_bind. unfold wp in Hi |- * at 1.
    destruct (isr gps_thread chars p) as [[[] p1]|]; [|done]. destruct Hi as (H1 & Ht & Hq & _).
    eapply wp_mono; [by apply IH|]. intros [] p2 (H2 & Hpre & Hsub & Hfit). cbn beta.
    rewrite Ht, Hq in *. split_and!; [done..| |].
    + etransitivity; [exact Hsub|]. apply sublist_app; [done|]. rewrite app_assoc.
      apply sublist_app; [|done]. apply sublist_drop.
    + intros [Hlen Hrest]. rewrite (Hfit Hrest), keep_all, <- app_assoc; [done|].
      by rewrite length_app, length_fmap.
  - pose proof (step_ready p Hp) as Hi. apply wp_bind. unfold wp in Hi |- * at 1.
    destruct (uart_getchar_step gps_thread gps_prio other_read p) as [[[] p1]|]; [|done].
    destruct Hi as (H1 & Hstep).
    eapply wp_mono; [by apply IH|]. intros [] p2 (H2 & Hpre & Hsub & Hfit). cbn beta.
    assert (taken p1 ++ queue p1 = taken p ++ queue p ∧ taken p `prefix_of` taken p1) as (E & Hpre1).
    { destruct (reader p), (queue p) as [|c q]; destruct Hstep as (-> & -> & _);
        split_and!; try done; [by rewrite <- app_assoc|by eexists]. }
    rewrite !app_assoc in *. rewrite <- E. split_and!; [done|by etransitivity|done|done].
Qed.

(** The thread needs a step for each character, and one more where it is about to wait. *)
Definition late (pos : position) : nat := match pos with Receiving => 1 | _ => 0 end.

Lemma run_takes acts : ∀ (p : port) pre post,
  ready p → queue p = pre ++ post → fits p acts →
  (pre = [] ∨ (length pre + late (reader p) <= steps acts)%nat) →
  wp (run gps_thread gps_prio other_read acts) (λ _ p', taken p ++ pre `prefix_of` taken p') p.
Proof.
  induction acts as [|a acts IH]; intros p [|c pre] post Hp Hq Hfits Hn.
  1, 3: eapply wp_mono; [by apply run_safe|]; intros [] p' (_ & ? & _); by rewrite app_nil_r.
  { destruct Hn as [|Hn]; [done|]. cbn in Hn. lia. }
  destruct Hn as [|Hn]; [done|]. destruct a as [chars|]; cbn [GpsPort.run fits] in *; apply wp_bind.
  - pose proof (isr_ready p chars Hp) as Hi. unfold wp in Hi |- * at 1.
    destruct (isr gps_thread chars p) as [[[] p1]|]; [|done]. destruct Hi as (H1 & Ht & Hq1 & Hr).
    destruct Hfits as [Hlen Hfits]. rewrite keep_all in Hq1 by (by rewrite length_app, length_fmap).
    rewrite Hq in Hr, Hq1. rewrite <- Ht. apply (IH p1 _ (post ++ (u8 <$> chars))); [done| |done|].
    + by rewrite Hq1, <- app_assoc.
    + right. rewrite Hr; [done|by left].
  - pose proof (step_ready p Hp) as Hi. unfold wp in Hi |- * at 1.
    destruct (uart_getchar_step gps_thread gps_prio other_read p) as [[[] p1]|]; [|done].
    destruct Hi as (H1 & Hstep). rewrite Hq in Hstep. cbn [app steps] in Hstep, Hn.
    destruct (reader p) eqn:Er; destruct Hstep as (Ht & Hq1 & Hr).
    + replace (taken p ++ c :: pre) with (taken p1 ++ pre) by (rewrite Ht, <- app_assoc; done).
      apply (IH p1 _ post); [done..|]. right. rewrite Hr. cbn in *. lia.
    + rewrite <- Ht. apply (IH p1 _ post); [done..|]. right. rewrite Hr by done. cbn in *. lia.
    + destruct Hp as [_ (ev & _ & Hw)]. rewrite Er, Hq in Hw. by destruct Hw.
Qed.

(** ** Opening *)

Variables (rt_device_find rt_thread_create : bool).
Variables (configure rt_malloc : nat → bool).
Variable irq : nat → list (list Z).

(** The port as the driver registers it, before [gps_init]. *)
Record fresh (p : port) : Prop := {
  fr_flag : dev_flag (uart_device p) = 771;
  fr_open : open_flag (uart_device p) = 0;
  fr_ref : ref_count (uart_device p) = 0;
  fr_irq : rx_irq (uart_device p) = false;
  fr_event : event p = None;
  fr_reader : reader p = Reading;
  fr_started : started p = false }.

Lemma isrs_ready l : ∀ p : port,
  ready p → reader p = Reading →
  wp (isrs gps_thread l) (λ _ p', ready p' ∧ taken p' = taken p ∧ reader p' = Reading ∧
    queue p' = keep 1023 (queue p ++ (u8 <$> concat l))) p.
Proof.
  induction l as [|chars l IH]; intros p Hp Hr; cbn [isrs concat].
  - apply wp_ret. rewrite app_nil_r, keep_all; [done|]. destruct Hp as [[f Hop] _].
    rewrite (queue_opened _ _ Hop). destruct Hop. pose proof (content_lt _ _ op_fifo0). lia.
  - apply wp_bind. eapply wp_mono; [by apply isr_ready|]. intros [] p1 (H1 & Ht & Hq & Hrd). cbn beta.
    rewrite Hr in Hrd. eapply wp_mono; [apply IH; [done|apply Hrd; by right]|].
    intros [] p2 (H2 & Ht2 & Hr2 & Hq2). cbn beta. split_and!; [done|congruence|done|].
    by rewrite Hq2, Hq, keep_keep_app, fmap_app, <- app_assoc.
Qed.

(** Before the event exists an interrupt with a character does not return. *)
Lemma isrs_before l (p : port) f :
  opened (uart_device p) f → content 1024 f = [] → event p = None →
  isrs gps_thread l p =
    if decide (Forall (λ chars, chars = []) l) then Ret (tt, p) else Fault AssertFailed.
Proof.
  intros Hop Hc He. induction l as [|chars l IH]; cbn [isrs]; [done|].
  pose proof Hop as [_ _ Hind Hirq Hsz Hrx Hf].
  unfold mbind, io_bind. unfold isr, mbind, io_bind, gets. rewrite Hirq.
  unfold rt_hw_serial_isr. rewrite Hrx, Hsz.
  destruct (fifo_puts_content 1024 f chars Hf) as (f' & Hputs & Hf' & Hc').
  rewrite Hc in Hc'. cbn [app] in Hc'.
  assert (length (content 1024 f') = (length chars `min` 1023)%nat) as Hlen
    by (rewrite Hc', keep_length, length_fmap; done).
  rewrite Hputs, res_bind_ret, rx_length_content by done. rewrite Hind, Hlen. cbn [andb lift].
  destruct chars as [|c chars].
  - cbn in Hputs. injection Hputs as <-. cbn [length Nat.min negb lift].
    assert (p <| uart_device := (uart_device p) <| serial_rx := RxFifo f |> |> = p) as Hsame.
    { destruct p as [[] ? ? ? ? ?]. cbn in *. by rewrite Hrx. }
    unfold set_uart, modify, mret, io_ret. change (negb (Z.of_nat 0 =? 0)) with false.
    cbn iota. rewrite Hsame, IH.
    destruct (decide (Forall _ l)), (decide (Forall _ ([] :: l))) as [|Hn]; [done| | |done].
    + exfalso. apply Hn. by constructor.
    + exfalso. by inversion_clear f0.
  - rewrite decide_False by (intros Hall; by inversion Hall).
    decide_if (Z.of_nat (length (c :: chars) `min` 1023) =? 0) false. cbn [negb lift].
    unfold set_uart, modify, uart_intput. cbn. by rewrite He.
Qed.

Lemma flag_lor_r a b m : flag b m = true → flag (Z.lor a b) m = true.
Proof.
  unfold flag. rewrite !negb_true_iff, !Z.eqb_neq. intros H E. apply H.
  rewrite Z.land_lor_distr_l in E. by apply Z.lor_eq_0_iff in E as [_ ?].
Qed.

Definition empty_buffer := MkFifo (replicate (Z.to_nat 1024) 0) 0 0 false.

Lemma empty_fifo : fifo_ok 1024 empty_buffer ∧ content 1024 empty_buffer = [].
Proof.
  split; [|done]. split; cbn [buffer put_index get_index is_full empty_buffer]; [lia| |lia|lia|done|].
  - rewrite length_replicate. lia.
  - apply Forall_replicate. by unfold is_byte.
Qed.

(** [rt_device_open] of a port nobody has opened. *)
Lemma open_fresh fl rc cf rx tx fifo :
  fl = 771 → rc = 0 → bufsz cf = 1024 →
  fifo = MkFifo (replicate (Z.to_nat (bufsz cf)) 0) 0 0 false → fifo_ok 1024 fifo →
  match rt_device_open configure rt_malloc 0 (MkSerial fl 0 rc true cf rx tx false)
          (Z.lor RT_DEVICE_OFLAG_RDWR RT_DEVICE_FLAG_INT_RX) with
  | Ret (res, s2) =>
      if configure 0%nat then rt_malloc 0%nat = true ∧ res = RT_EOK ∧ opened s2 fifo ∧ config s2 = cf
      else res = - RT_ERROR ∧ rx_irq s2 = false
  | Fault f => configure 0%nat = true ∧ rt_malloc 0%nat = false ∧ f = AssertFailed
  end.
Proof.
  intros -> -> Hsz -> Hf.
  unfold rt_device_open, rt_serial_init. destruct (configure 0%nat); [|done].
  unfold rt_serial_open, open_rx. cbn -[replicate Z.to_nat].
  destruct (rt_malloc 0%nat); cbn -[replicate Z.to_nat]; [|done].
  by split_and!.
Qed.

Lemma config_fresh s :
  ref_count s = 0 → rt_serial_control s gps_use_config = (RT_EOK, s <| config := gps_use_config |>).
Proof. intros H. unfold rt_serial_control. by rewrite H, andb_false_r. Qed.

Definition opening := gps_init rt_device_find rt_thread_create configure rt_malloc gps_thread irq.

(** The second configuration: the size of the buffer stays, so it is accepted. *)
Lemma config_again (p : port) :
  ready p → config (uart_device p) = gps_use_config → uart_config p = Ret (RT_EOK, p).
Proof.
  intros _ Hc. unfold uart_config, rt_serial_control, mbind, io_bind, gets.
  rewrite Hc, Z.eqb_refl. cbn -[gps_use_config]. unfold modify, mret, io_ret. cbn -[gps_use_config].
  do 2 f_equal. destruct p as [[] ? ? ? ? ?]. cbn in *. by rewrite Hc.
Qed.

Lemma isrs_config l : ∀ (p : port) p',
  isrs gps_thread l p = Ret (tt, p') →
  config (uart_device p') = config (uart_device p) ∧ started p' = started p.
Proof.
  induction l as [|chars l IH]; intros p p'; cbn [isrs]; [by intros [= <-]|].
  unfold mbind, io_bind at 1. destruct (isr gps_thread chars p) as [[[] p1]|] eqn:E; [|done].
  intros H. apply IH in H as [-> ->]. revert E. unfold isr, mbind, io_bind, gets.
  destruct (rx_irq (uart_device p)); [|by intros [= <-]].
  unfold lift, rt_hw_serial_isr. destruct (serial_rx (uart_device p)) as [|f|]; [done| |done].
  destruct (fifo_puts _ f chars) as [f'|]; [|done]. cbn [mbind res_bind]. unfold set_uart, modify.
  destruct (if _ && _ then _ else _); [|by intros [= <-]].
  unfold uart_intput. cbn -[rt_event_send]. destruct (event p) as [ev|]; [|done].
  destruct (rt_event_send ev UART_RX_EVENT) as [[? ev'] woken]. intros [= <-].
  by destruct (existsb _ _).
Qed.

(** A closed port does not interrupt. *)
Lemma isrs_closed l (p : port) :
  rx_irq (uart_device p) = false → isrs gps_thread l p = Ret (tt, p).
Proof.
  intros Hirq. induction l as [|chars l IH]; cbn [isrs]; [done|].
  unfold mbind, io_bind, isr, mbind, io_bind, gets. rewrite Hirq. apply IH.
Qed.

Definition silent : bool := bool_decide (Forall (λ chars, chars = []) (irq 0%nat)).

Lemma uart_open_outcome (p : port) ind rx tx :
  uart_device p = MkSerial 771 0 0 ind gps_use_config rx tx false →
  event p = None → reader p = Reading →
  let open := uart_open configure rt_malloc gps_thread irq true in
  if negb (configure 0%nat) then
    wp open (λ res p', res = - RT_ERROR ∧ rx_irq (uart_device p') = false ∧
      event p' = None ∧ started p' = started p) p
  else if rt_malloc 0%nat && silent then
    wp open (λ res p', res = RT_EOK ∧ started p' = started p ∧
      config (uart_device p') = gps_use_config ∧ ready p' ∧ reader p' = Reading ∧
      taken p' = taken p ∧ queue p' = keep 1023 (u8 <$> concat (irq 1%nat))) p
  else open p = Fault AssertFailed.
Proof.
  intros Hs He Hr open.
  pose proof (open_fresh 771 0 gps_use_config rx tx empty_buffer eq_refl eq_refl eq_refl eq_refl
    (proj1 empty_fifo)) as Hopen.
  unfold open, uart_open, rt_device_set_rx_indicate. unfold wp, mbind, io_bind, gets, set_uart, modify.
  rewrite Hs. cbn -[rt_device_open isrs gps_use_config silent empty_buffer]. unfold lift, interrupts.
  destruct (rt_device_open _ _ _ _ _) as [[res s2]|fl].
  2: { by destruct Hopen as (-> & -> & ->). }
  destruct (configure 0%nat); cbn [negb].
  - destruct Hopen as (-> & -> & Hop & Hc2). set (p2 := p <| uart_device := _ |> <| uart_device := s2 |>).
    rewrite (isrs_before (irq 0%nat) p2 empty_buffer Hop (proj2 empty_fifo) He).
    unfold silent. destruct (decide _) as [Hd|Hd]; [|by rewrite bool_decide_false].
    rewrite bool_decide_true by done. cbn [andb Z.eqb negb RT_EOK].
    set (p3 := p2 <| event := _ |>).
    assert (queue p3 = []) as Hq3 by (rewrite (queue_opened p3 empty_buffer Hop); apply empty_fifo).
    assert (ready p3) as Hrd3.
    { split; [by exists empty_buffer|]. eexists. split; [done|]. cbn. rewrite Hr. by left. }
    change (rt_event_init p2) with (Ret (tt, p3)). cbn iota beta.
    pose proof (isrs_ready (irq 1%nat) p3 Hrd3 Hr) as Hw. pose proof (isrs_config (irq 1%nat) p3) as Hcf.
    unfold wp in Hw. destruct (isrs gps_thread (irq 1%nat) p3) as [[[] p4]|]; [|done].
    destruct Hw as (Hrd4 & Ht4 & Hr4 & Hq4), (Hcf p4 eq_refl) as [Hc4 Hst4].
    rewrite Hq3 in Hq4. by split_and!; [|rewrite Hst4|rewrite Hc4|..].
  - destruct Hopen as [-> Hirq]. rewrite isrs_closed by done. done.
Qed.

Lemma init_outcome (p : port) :
  fresh p →
  if negb rt_device_find then
    opening p = Ret (RT_EINVAL, p <| log := log p ++ [bytes " find device uart2 failed!" ++ [LF]] |>)
  else if negb (configure 0%nat) then
    wp opening (λ res p', res = RT_ERROR ∧ rx_irq (uart_device p') = false ∧
      event p' = None ∧ started p' = false) p
  else if rt_malloc 0%nat && silent then
    wp opening (λ res p', res = (if rt_thread_create then RT_EOK else RT_ERROR) ∧
      started p' = rt_thread_create ∧ config (uart_device p') = gps_use_config ∧
      ready p' ∧ reader p' = Reading ∧ taken p' = taken p ∧
      queue p' = keep 1023 (u8 <$> concat (irq 1%nat ++ irq 2%nat))) p
  else opening p = Fault AssertFailed.
Proof.
  intros [Hfl Hof Href Hirq Hev Hrd Hst]. unfold opening, gps_init.
  destruct rt_device_find; [|done]. cbn [negb].
  destruct p as [[fl ofl rc ind cf rx tx irq'] e r t st lg]. cbn in Hfl, Hof, Href, Hirq, Hev, Hrd, Hst. subst.
  set (p1 := MkPort (MkSerial 771 0 0 ind gps_use_config rx tx false) None Reading t false lg).
  pose proof (uart_open_outcome p1 ind rx tx eq_refl eq_refl eq_refl) as Hopen. cbv zeta in Hopen.
  assert (∀ A (k : Z → io port A), mbind k uart_config
    (MkPort (MkSerial 771 0 0 ind cf rx tx false) None Reading t false lg) = k RT_EOK p1) as Hcfg.
  { intros. unfold uart_config, mbind, io_bind, gets. cbn [uart_device]. by rewrite config_fresh. }
  assert (∀ A (k : Z → io port A) Q, wp (mbind k uart_config) Q
    (MkPort (MkSerial 771 0 0 ind cf rx tx false) None Reading t false lg) = wp (k RT_EOK) Q p1) as Hwp
    by (intros; unfold wp; by rewrite Hcfg).
  rewrite !Hwp, Hcfg. cbn [negb Z.eqb RT_EOK].
  destruct (configure 0%nat); cbn [negb] in *; [destruct (rt_malloc 0%nat && silent)|].
  - apply wp_bind. eapply wp_mono; [exact Hopen|]. intros res p2 (-> & Hst & Hc & Hrd2 & Hr2 & Ht2 & Hq2).
    cbn [negb Z.eqb RT_EOK]. apply wp_bind. unfold wp at 1. rewrite (config_again p2 Hrd2 Hc).
    apply wp_bind. unfold interrupts.
    pose proof (isrs_ready (irq 2%nat) p2 Hrd2 Hr2) as Hw. pose proof (isrs_config (irq 2%nat) p2) as Hcf.
    unfold wp at 1. unfold wp in Hw. destruct (isrs gps_thread (irq 2%nat) p2) as [[[] p3]|]; [|done].
    destruct Hw as (Hrd3 & Ht3 & Hr3 & Hq3), (Hcf p3 eq_refl) as [Hc3 Hst3].
    rewrite Hq2, keep_keep_app, <- fmap_app, <- concat_app in Hq3.
    cbn [negb Z.eqb RT_EOK]. destruct rt_thread_create; cbn [negb].
    + apply wp_bind, wp_modify, wp_ret.
      split_and!; [done|done|exact (eq_trans Hc3 Hc)| |done|exact (eq_trans Ht3 Ht2)|exact Hq3].
      destruct Hrd3 as [Hd (ev & He & Hw)]. split; [done|]. exists ev. split; [done|].
      cbn. by rewrite Hr3 in Hw.
    + apply wp_ret. rewrite Hst3, Hst.
      by split_and!; [| |exact (eq_trans Hc3 Hc)| | |exact (eq_trans Ht3 Ht2)|].
  - unfold mbind, io_bind. by rewrite Hopen.
  - apply wp_bind. eapply wp_mono; [exact Hopen|]. intros res p2 (-> & Hirq & He & Hst).
    by apply wp_bind, wp_modify, wp_ret.
Qed.

Lemma init_ready (p0 p : port) :
  fresh p0 → opening p0 = Ret (RT_EOK, p) → ready p ∧ taken p = taken p0.
Proof.
  intros Hfresh Hinit. pose proof (init_outcome p0 Hfresh) as Ho. unfold wp in Ho. rewrite Hinit in Ho.
  destruct rt_device_find; [|done]. destruct (configure 0%nat); [|by destruct Ho].
  by destruct (rt_malloc 0%nat && _); [destruct Ho as (_ & _ & _ & ? & _ & ? & _)|].
Qed.

End spec.

Section theorems.
Variables (gps_thread gps_prio : Z).
Variable other_read : rt_serial_device → nat → res (list Z * rt_serial_device).
Variables (rt_device_find rt_thread_create : bool).
Variables (configure rt_malloc : nat → bool).
Variable irq : nat → list (list Z).

(** C8. The receive path of the GPS port, from [gps_init] on and for every interleaving of
    interrupts and of the calls of [uart_getchar].  No step faults; the reading thread
    sleeps only when there is nothing to read; the characters it has taken and those still
    in the buffer are, in order, some of those that arrived, and all of them as long as
    the buffer of 1024 never has more than 1023 to hold.  And no wake-up is lost: what has
    arrived at any moment has been taken once the thread has made one step more than
    there were characters, whatever interrupts come in between. *)
Theorem gps_receiver_live (p0 p : port) acts1 acts2 :
  fresh p0 →
  gps_init rt_device_find rt_thread_create configure rt_malloc gps_thread irq p0 = Ret (RT_EOK, p) →
  wp (run gps_thread gps_prio other_read acts1) (λ _ p1,
    (reader p1 = Sleeping → queue p1 = []) ∧
    taken p1 ++ queue p1 `sublist_of` taken p ++ queue p ++ arrived acts1 ∧
    (fits gps_thread gps_prio other_read p acts1 → taken p1 ++ queue p1 = taken p ++ queue p ++ arrived acts1) ∧
    (fits gps_thread gps_prio other_read p1 acts2 → (length (queue p1) < steps acts2)%nat →
     wp (run gps_thread gps_prio other_read acts2) (λ _ p2,
       taken p1 ++ queue p1 `prefix_of` taken p2) p1)) p.
Proof.
  intros Hfresh Hinit.
  destruct (init_ready gps_thread gps_prio rt_device_find rt_thread_create configure rt_malloc irq
    p0 p Hfresh Hinit) as [Hp _].
  eapply wp_mono; [by apply run_safe|]. intros [] p1 (H1 & _ & Hsub & Hall). cbn beta.
  split_and!; [|done..|].
  - intros Hs. destruct H1 as [_ (ev & _ & Hw)]. rewrite Hs in Hw. by destruct Hw.
  - intros Hfit Hn. apply (run_takes _ _ _ acts2 p1 (queue p1) []); [done|by rewrite app_nil_r|done|].
    right. destruct (reader p1); cbn [late]; lia.
Qed.

(** C10. Opening the GPS port.  [gps_init] returns an error and starts no thread when the
    port is missing or the hardware cannot be configured, without the interrupt of the
    receiver enabled.  Otherwise [rt_device_open] enables that interrupt before
    [uart_open] creates the event its callback sends: [gps_init] succeeds, with the port
    open, the event created and every later character in the buffer, exactly when
    no character arrives in between; one that does stops the board in an assertion. *)
Theorem gps_init_outcome (p : port) :
  fresh p →
  let gps_init := gps_init rt_device_find rt_thread_create configure rt_malloc gps_thread irq in
  if negb rt_device_find then
    gps_init p = Ret (RT_EINVAL, p <| log := log p ++ [bytes " find device uart2 failed!" ++ [LF]] |>)
  else if negb (configure 0%nat) then
    wp gps_init (λ res p', res = RT_ERROR ∧ rx_irq (uart_device p') = false ∧
      event p' = None ∧ started p' = false) p
  else if rt_malloc 0%nat && bool_decide (Forall (λ chars, chars = []) (irq 0%nat)) then
    wp gps_init (λ res p', res = (if rt_thread_create then RT_EOK else RT_ERROR) ∧
      started p' = rt_thread_create ∧ config (uart_device p') = gps_use_config ∧
      (∃ f, opened (uart_device p') f) ∧ event p' ≠ None ∧
      queue p' = keep 1023 (u8 <$> concat (irq 1%nat ++ irq 2%nat))) p
  else gps_init p = Fault AssertFailed.
Proof.
  intros Hfresh. pose proof (init_outcome gps_thread gps_prio rt_device_find rt_thread_create
    configure rt_malloc irq p Hfresh) as Ho. cbv zeta. unfold opening, silent in Ho.
  destruct (negb rt_device_find); [done|]. destruct (negb (configure 0%nat)); [done|].
  destruct (_ && _); [|done]. eapply wp_mono; [exact Ho|].
  intros res p' (? & ? & ? & [Hd (ev & He & _)] & ? & ? & ?). split_and!; try done. by rewrite He.
Qed.

End theorems.

(** ** A port *)

Definition port0 : port :=
  MkPort (MkSerial 771 0 0 false (MkConfigure 115200 64) RxNull TxNull false)
    None Reading [] false [].
Definition quiet (k : nat) : list (list Z) := match k with 1%nat => [[36]; [71; 80]] | _ => [] end.
Definition noisy (k : nat) : list (list Z) := match k with 0%nat => [[36]] | _ => [] end.
Definition no_read (s : rt_serial_device) (n : nat) : res (list Z * rt_serial_device) := Ret ([], s).

Lemma fresh_port0 : fresh port0.
Proof. by split. Qed.

Lemma gps_receiver_live_witness :
  ∃ p, gps_init true true (λ _, true) (λ _, true) 7 quiet port0 = Ret (RT_EOK, p) ∧
    queue p = [36; 71; 80] ∧
    wp (run 7 8 no_read [Step; Step; Step; Step; Step; Isr [83]]) (λ _ p1,
      taken p1 ++ queue p1 = [36; 71; 80; 83]) p.
Proof.
  eexists. split; [vm_compute; reflexivity|]. split; [vm_compute; reflexivity|].
  eapply wp_mono.
  - apply (gps_receiver_live 7 8 no_read true true (λ _, true) (λ _, true) quiet port0 _ _ []
      fresh_port0). vm_compute. reflexivity.
  - intros [] p1 (_ & _ & Hall & _). rewrite Hall; [vm_compute; reflexivity|].
    vm_compute. repeat split; lia.
Defined.

Lemma gps_init_outcome_witness :
  fresh port0 ∧ gps_init true true (λ _, true) (λ _, true) 7 noisy port0 = Fault AssertFailed.
Proof.
  split; [exact fresh_port0|].
  exact (gps_init_outcome 7 8 true true (λ _, true) (λ _, true) noisy port0 fresh_port0).
Defined.

(** The thread finds nothing, waits, sleeps, and the interrupt resumes it. *)
Example sleeps_and_wakes :
  match gps_init true true (λ _, true) (λ _, true) 7 (λ _, []) port0 with
  | Ret (_, p) =>
      match run 7 8 no_read [Step; Step] p with
      | Ret (_, p1) => reader p1 = Sleeping ∧
          match run 7 8 no_read [Isr [65; 66]; Step; Step; Step; Step; Step] p1 with
          | Ret (_, p2) => taken p2 = [65; 66] ∧ reader p2 = Sleeping
          | Fault _ => False
          end
      | Fault _ => False
      end
  | Fault _ => False
  end.
Proof. vm_compute. repeat split. Qed.
