(* ===== verification/GpsLines.v ===== *)
(** From the serial port to [gps_data]: the analysis of a line depends on the line and not
    on what earlier lines left in the buffer, and the thread of gps.c analyses the lines
    the port delivers, one after the other. *)

From S2P Require Import Prelude CLib Float32 Gps GpsSpec.
From S2P Require Import Event Serial SerialSpec GpsPort GpsPortSpec.

Lemma str2num_len_local n : ∀ s post1 post2 minus neg point ilen flen,
  (length s <= n)%nat → dots_ok s = true →
  str2num_len (s ++ NUL :: post1) minus neg point ilen flen =
  str2num_len (s ++ NUL :: post2) minus neg point ilen flen.
Proof.
  induction n as [|n IH]; intros [|c s] post1 post2 minus neg point ilen flen Hn Hd;
    cbn [length] in Hn; try lia; [done..|].
  assert (dots_ok s = true) as Hd' by (cbn in Hd; by bool_prop).
  cbn [app str2num_len].
  case_if; [by apply IH; [lia|]|]. case_if; [done|]. case_if.
  { destruct s as [|d s]; [cbn in Hd; by subst|]. cbn [app length] in *.
    apply IH; [lia|]. cbn in Hd'. by bool_prop. }
  case_if; [done|]. case_if; apply IH; done || lia.
Qed.

Lemma comma_loop_local w post1 post2 : ∀ cx n,
  comma_loop (w ++ NUL :: post1) cx n = comma_loop (w ++ NUL :: post2) cx n.
Proof.
  induction w as [|c w IH]; intros cx n; cbn [app comma_loop]; [done|].
  case_if; [done|]. case_if; [done|]. apply IH.
Qed.

Lemma is_prefix_local pat w post :
  Forall (λ c, c ≠ NUL) pat → is_prefix pat (w ++ NUL :: post) = is_prefix pat w.
Proof.
  intros Hp. revert w. induction Hp as [|c pat Hc _ IH]; intros [|d w]; cbn [app is_prefix]; [done..| |by rewrite IH].
  by replace (c =? NUL) with false by (symmetry; by apply Z.eqb_neq).
Qed.

Lemma strstr_from_local pat w post1 post2 :
  Forall (λ c, c ≠ NUL) pat → ∀ i,
  strstr_from (w ++ NUL :: post1) pat i = strstr_from (w ++ NUL :: post2) pat i.
Proof.
  intros Hp. induction w as [|c w IH]; intros i; cbn [app strstr_from].
  - pose proof (is_prefix_local pat [] post1 Hp) as E1. pose proof (is_prefix_local pat [] post2 Hp) as E2.
    cbn [app] in E1, E2. by rewrite E1, E2.
  - pose proof (is_prefix_local pat (c :: w) post1 Hp) as E1.
    pose proof (is_prefix_local pat (c :: w) post2 Hp) as E2. cbn [app] in E1, E2. rewrite E1, E2. case_if; [done|]. case_if; [done|]. apply IH.
Qed.

Section local.
Context (b1 b2 s : list Z) (H1 : holds_line b1 s) (H2 : holds_line b2 s).

Lemma rd_local i : (i <= length s)%nat → rd b1 i = rd b2 i.
Proof.
  intros Hi. destruct H1 as [_ (c1 & p1 & ->)], H2 as [_ (c2 & p2 & ->)]. unfold rd.
  destruct (decide (i < length s)%nat) as [|].
  - by rewrite !lookup_app_l.
  - by replace i with (length s) by lia; rewrite !list_lookup_middle.
Qed.

Lemma digit_sum_local off len n : ∀ i acc,
  0 <= i → (off + Z.to_nat i + n <= length s + 1)%nat →
  digit_sum b1 off len n i acc = digit_sum b2 off len n i acc.
Proof.
  induction n as [|n IH]; intros i acc Hi Hn; cbn [digit_sum]; [done|].
  rewrite rd_local by lia. destruct (rd b2 _); [|done]. apply IH; lia.
Qed.

Lemma Str2num_local p : (p <= length s)%nat → NMEA_Str2num b1 p = NMEA_Str2num b2 p.
Proof.
  intros Hp. destruct (drop_line b1 s H1 p Hp) as [post1 E1], (drop_line b2 s H2 p Hp) as [post2 E2].
  pose proof (dots_ok_drop s p (proj1 H1)) as Hd.
  destruct (str2num_len_safe (length s) (drop p s) post2 false false false 0 0)
    as (neg & il & fl & Hr & Hi & Hf & Hm); [rewrite length_drop; lia|done..|].
  rewrite length_drop in Hm. unfold is_byte in Hi, Hf. cbn [Z.b2z] in Hm.
  unfold NMEA_Str2num. rewrite E1, E2.
  rewrite (str2num_len_local (length s) _ post1 post2) by (rewrite ?length_drop; done || lia).
  rewrite Hr, !res_bind_ret. cbn beta iota.
  rewrite (digit_sum_local (if neg then S p else p)) by (destruct neg; cbn [Z.b2z] in *; lia).
  destruct (digit_sum b2 _ _ _ _ _) as [v|]; [|done]. rewrite !res_bind_ret.
  set (k := if 5 <? fl then 5 else fl).
  assert (0 <= k <= fl) as Hk by (subst k; case_if; lia).
  rewrite (digit_sum_local _ k); [done|lia|]. destruct neg; cbn [Z.b2z] in *; lia.
Qed.

Lemma Comma_Pos_local p cx : (p <= length s)%nat →
  NMEA_Comma_Pos b1 (Some p) cx = NMEA_Comma_Pos b2 (Some p) cx.
Proof.
  intros Hp. destruct (drop_line b1 s H1 p Hp) as [post1 E1], (drop_line b2 s H2 p Hp) as [post2 E2].
  unfold NMEA_Comma_Pos. rewrite E1, E2. apply comma_loop_local.
Qed.

Lemma field_num_local p cx : (p <= length s)%nat → field_num b1 (Some p) cx = field_num b2 (Some p) cx.
Proof.
  intros Hp. unfold field_num. rewrite Comma_Pos_local by done.
  destruct (Comma_Pos_safe b2 s H2 p cx Hp) as (posx & -> & H). rewrite !res_bind_ret.
  case_if; [done|]. destruct H as [H|H]; [done|]. by rewrite Str2num_local.
Qed.

Lemma field_char_local p cx : (p <= length s)%nat → field_char b1 (Some p) cx = field_char b2 (Some p) cx.
Proof.
  intros Hp. unfold field_char. rewrite Comma_Pos_local by done.
  destruct (Comma_Pos_safe b2 s H2 p cx Hp) as (posx & -> & H). rewrite !res_bind_ret.
  case_if; [done|]. destruct H as [H|H]; [done|]. by rewrite rd_local.
Qed.

Lemma strstr_local p pat : (p <= length s)%nat → Forall (λ c, c ≠ NUL) pat →
  strstr_at b1 p pat = strstr_at b2 p pat.
Proof.
  intros Hp Hpat. destruct (drop_line b1 s H1 p Hp) as [post1 E1], (drop_line b2 s H2 p Hp) as [post2 E2].
  unfold strstr_at. rewrite E1, E2. by apply strstr_from_local.
Qed.
End local.

(** A match starts with the pattern. *)
Lemma strstr_from_prefix buf pat i q :
  strstr_from buf pat i = Ret (Some q) → (i <= q)%nat ∧ is_prefix pat (drop (q - i) buf) = true.
Proof.
  revert i. induction buf as [|c buf IH]; intros i; cbn [strstr_from]; [done|].
  case_if; [intros [= <-]; split; [done|by rewrite Nat.sub_diag]|]. case_if; [done|].
  intros [Hi Hp]%IH. split; [lia|]. by replace (q - i)%nat with (S (q - S i)) by lia.
Qed.

Section analysis.
Context (b1 b2 s : list Z) (H1 : holds_line b1 s) (H2 : holds_line b2 s).

Lemma lift_ret {W A B} (a : A) (k : A → io W B) w : mbind k (lift (Ret a)) w = k a w.
Proof. done. Qed.

(** Equal programs up to the point where they differ. *)
Lemma bind_local {W A B} (m : io W A) (k1 k2 : A → io W B) w :
  (∀ a w', k1 a w' = k2 a w') → mbind k1 m w = mbind k2 m w.
Proof. intros H. unfold mbind, io_bind. destruct (m w) as [[a w']|]; [apply H|done]. Qed.

Lemma assign_num_local p cx f : (p <= length s)%nat →
  assign_num b1 (Some p) cx f = assign_num b2 (Some p) cx f.
Proof. intros. unfold assign_num. by rewrite (field_num_local b1 b2 s). Qed.

Lemma assign_char_local p cx f : (p <= length s)%nat →
  assign_char b1 (Some p) cx f = assign_char b2 (Some p) cx f.
Proof. intros. unfold assign_char. by rewrite (field_char_local b1 b2 s). Qed.

Lemma gsv_sats_local p n : (p <= length s)%nat → ∀ j slx w,
  gsv_sats n b1 (Some p) j slx w = gsv_sats n b2 (Some p) j slx w.
Proof.
  intros Hp. induction n as [|n IH]; intros j slx w; cbn [gsv_sats]; [done|].
  unfold gsv_member. rewrite !(field_num_local b1 b2 s) by done.
  do 4 (apply bind_local; intros [] w'; cbn [negb]; [|done]; clear w; rename w' into w).
  apply IH.
Qed.

(** What the handlers need of the start of their sentence. *)
Definition found_local (pat : string) (h : list Z → io gps unit) : Prop :=
  ∀ q w, strstr_at b1 0 (bytes pat) = Ret (Some q) → strstr_at b2 0 (bytes pat) = Ret (Some q) →
    (q + length (bytes pat) <= length s)%nat → h b1 w = h b2 w.

Lemma dispatch_local pat h w :
  Forall (λ c, c ≠ NUL) (bytes pat) → found_local pat h → dispatch b1 pat h w = dispatch b2 pat h w.
Proof.
  intros Hpat Hh. destruct (strstr_safe b2 s H2 0 (bytes pat)) as (r & Hr & Hq); [lia|done|].
  assert (strstr_at b1 0 (bytes pat) = Ret r) as Hr1
    by (rewrite (strstr_local b1 b2 s H1 H2 0); [done|lia|done]).
  unfold dispatch. rewrite Hr, Hr1, !lift_ret. destruct r as [q|]; [|done]. apply (Hh q); auto.
Qed.

Lemma gsv_messages_local n : ∀ p slx w, (p <= length s)%nat →
  gsv_messages n b1 p slx w = gsv_messages n b2 p slx w.
Proof.
  induction n as [|n IH]; intros p slx w Hp; cbn [gsv_messages]; [done|].
  assert (Forall (λ c, c ≠ NUL) (bytes "$GPGSV")) as Hpat by by repeat constructor.
  destruct (strstr_safe b2 s H2 p (bytes "$GPGSV")) as (r & Hr & Hq); [done..|].
  rewrite (strstr_local b1 b2 s H1 H2 p _ Hp Hpat), Hr, !lift_ret.
  destruct r as [q|].
  - specialize (Hq q eq_refl). cbn [length bytes] in Hq.
    unfold mbind, io_bind. rewrite gsv_sats_local by lia.
    destruct (gsv_sats 4 b2 (Some q) 0 slx w) as [[slx' w']|]; [|done]. apply IH. lia.
  - done.
Qed.

Lemma gpgsv_local l : s = l ++ [LF] → found_local "$GPGSV" NMEA_GPGSV_Analysis.
Proof.
  intros Hs q w E1 E2 Hq. unfold NMEA_GPGSV_Analysis. rewrite E1, E2, !lift_ret.
  cbn [length bytes] in Hq. assert (q + 7 <= length s)%nat as Hq7.
  { destruct (decide (q + 6 = length s)%nat) as [Hl|]; [|lia]. exfalso.
    destruct (drop_line b2 s H2 q) as [post Hd]; [lia|].
    destruct (strstr_from_prefix _ _ _ _ E2) as [_ Hpre]. rewrite Nat.sub_0_r, drop_0, Hd in Hpre.
    rewrite is_prefix_local in Hpre by by repeat constructor.
    apply is_prefix_spec in Hpre as [t Ht].
    assert (t = []) as ->.
    { apply (f_equal length) in Ht. rewrite length_drop, length_app in Ht. cbn [length bytes] in Ht.
      apply length_zero_iff_nil. lia. }
    pose proof (take_drop q s) as E. rewrite Ht, Hs in E.
    change (bytes "$GPGSV" ++ []) with (bytes "$GPGS" ++ [86]) in E. rewrite app_assoc in E.
    by apply app_inj_tail in E as [_ ?]. }
  rewrite (rd_local b1 b2 s) by done. apply bind_local. intros c w'.
  rewrite assign_num_local by lia. apply bind_local. intros _ w2. apply gsv_messages_local. lia.
Qed.

Lemma gngga_local : found_local "$GNGGA" NMEA_GNGGA_Analysis.
Proof.
  intros q w E1 E2 Hq. cbn [length bytes] in Hq. unfold NMEA_GNGGA_Analysis.
  rewrite E1, E2, !lift_ret. by rewrite !assign_num_local by lia.
Qed.

Lemma gsa_possl_local p n i : (p <= length s)%nat → ∀ w,
  gsa_possl n b1 (Some p) i w = gsa_possl n b2 (Some p) i w.
Proof.
  intros Hp. revert i. induction n as [|n IH]; intros i w; cbn [gsa_possl]; [done|].
  rewrite (field_num_local b1 b2 s) by done. apply bind_local. intros [[v dx]|] w'; [|done].
  apply bind_local. intros _ w2. apply IH.
Qed.

Lemma gpgsa_local : found_local "$GPGSA" NMEA_GPGSA_Analysis.
Proof.
  intros q w E1 E2 Hq. cbn [length bytes] in Hq. unfold NMEA_GPGSA_Analysis.
  rewrite E1, E2, !lift_ret. rewrite !assign_num_local by lia.
  apply bind_local. intros _ w1. unfold mbind, io_bind. by rewrite gsa_possl_local by lia.
Qed.

Lemma gnrmc_local : found_local "GNRMC" NMEA_GNRMC_Analysis.
Proof.
  intros q w E1 E2 Hq. cbn [length bytes] in Hq. unfold NMEA_GNRMC_Analysis.
  apply bind_local. intros _ w1. rewrite E1, E2, !lift_ret.
  unfold rmc_time, rmc_latitude, rmc_longitude, rmc_date.
  rewrite !(field_num_local b1 b2 s) by (done || lia).
  by rewrite !assign_char_local by lia.
Qed.

Lemma gnvtg_local : found_local "$GNVTG" NMEA_GNVTG_Analysis.
Proof.
  intros q w E1 E2 Hq. cbn [length bytes] in Hq. unfold NMEA_GNVTG_Analysis.
  rewrite E1, E2, !lift_ret. by rewrite !(field_num_local b1 b2 s) by (done || lia).
Qed.
End analysis.

(** The analysis of a line does not depend on what follows it in the buffer. *)
Lemma GPS_Analysis_local b1 b2 l w :
  holds_line b1 (l ++ [LF]) → holds_line b2 (l ++ [LF]) → GPS_Analysis b1 w = GPS_Analysis b2 w.
Proof.
  intros H1 H2. unfold GPS_Analysis.
  assert (∀ pat h w, Forall (λ c, c ≠ NUL) (bytes pat) → found_local b1 b2 (l ++ [LF]) pat h →
    dispatch b1 pat h w = dispatch b2 pat h w) as Hd by (intros; by apply (dispatch_local b1 b2 (l ++ [LF]))).
  unfold mbind, io_bind.
  rewrite (Hd "$GPGSV"); [|by repeat constructor|by apply (gpgsv_local _ _ _ H1 H2 l)].
  destruct (dispatch b2 "$GPGSV" _ w) as [[[] w1]|]; [|done].
  rewrite (Hd "$GNGGA"); [|by repeat constructor|by apply gngga_local].
  destruct (dispatch b2 "$GNGGA" _ w1) as [[[] w2]|]; [|done].
  rewrite (Hd "$GPGSA"); [|by repeat constructor|by apply gpgsa_local].
  destruct (dispatch b2 "$GPGSA" _ w2) as [[[] w3]|]; [|done].
  rewrite (Hd "GNRMC"); [|by repeat constructor|by apply gnrmc_local].
  destruct (dispatch b2 "GNRMC" _ w3) as [[[] w4]|]; [|done].
  by apply Hd; [by repeat constructor|apply gnvtg_local].
Qed.

(** * The thread *)

(** A line the receiver may send: its 254 characters and the newline fit below the
    terminator at 255. *)
Definition good_line (l : cstr) : Prop :=
  (LF ∉ l) ∧ (length l <= 254)%nat ∧ dots_ok (l ++ [LF]) = true.

(** The analysis of the lines one after the other, each alone in a fresh buffer. *)
Definition line_buffer (l : cstr) : list Z := l ++ [LF; NUL; NUL].
Fixpoint analyse (lines : list cstr) : io gps unit :=
  match lines with
  | [] => mret tt
  | l :: lines => GPS_Analysis (line_buffer l) ;; analyse lines
  end.
Definition transmitted (lines : list cstr) : list Z := concat ((λ l, l ++ [LF]) <$> lines).

Lemma data_read_good l rest buff :
  length buff = 512%nat → good_line l →
  ∃ buff', data_read (l ++ LF :: rest) buff GPS_DEVICE_RECV_BUFF_LEN = Ret (buff', rest) ∧
    length buff' = 512%nat ∧ holds_line buff' (l ++ [LF]).
Proof.
  intros Hb (Hl & Hlen & Hd).
  destruct (data_read_line l rest buff Hb Hl) as (buff' & Hr & Hb' & Ht & _).
  exists buff'. split_and!; [done|done|]. split; [done|].
  rewrite Nat.mod_small, Nat.div_small, Nat.mul_0_r, drop_0 in Ht by lia.
  rewrite <- (take_drop (length l + 1 + 1) buff'), Ht.
  destruct (drop (length l + 1 + 1) buff') as [|c post] eqn:E.
  - apply (f_equal length) in E. rewrite length_drop in E. cbn in E. lia.
  - exists c, post. by rewrite <- app_assoc.
Qed.

Lemma holds_line_buffer l : good_line l → holds_line (line_buffer l) (l ++ [LF]).
Proof. intros (_ & _ & Hd). split; [done|]. exists NUL, []. unfold line_buffer. by rewrite <- app_assoc. Qed.

Lemma gps_thread_analyses lines : ∀ rest buff w,
  length buff = 512%nat → Forall good_line lines →
  match analyse lines w with
  | Ret (_, w') => ∃ buff', gps_thread_entry (length lines) buff (transmitted lines ++ rest) w =
                     Ret ((buff', rest), w') ∧ length buff' = 512%nat
  | Fault f => gps_thread_entry (length lines) buff (transmitted lines ++ rest) w = Fault f
  end.
Proof.
  unfold transmitted. induction lines as [|l lines IH]; intros rest buff w Hb Hg;
    cbn [analyse length gps_thread_entry fmap list_fmap concat].
  { by exists buff. }
  inversion_clear Hg as [|?? Hl Hls].
  destruct (data_read_good l (concat ((λ l, l ++ [LF]) <$> lines) ++ rest) buff Hb Hl) as (b1 & Hr & Hb1 & Hh).
  rewrite <- !app_assoc. cbn [app]. rewrite Hr, lift_ret. cbn beta iota. unfold mbind, io_bind.
  rewrite (GPS_Analysis_local b1 (line_buffer l) l w Hh (holds_line_buffer l Hl)).
  destruct (GPS_Analysis (line_buffer l) w) as [[[] w1]|f]; [|done]. by apply IH.
Qed.


Definition gga : cstr := bytes "$GNGGA,1,2,3,4,5,1,08,0,545,M*47" ++ [CR].
Definition gga_acts : list action := Isr (take 10 gga) :: Step :: Isr (drop 10 gga ++ [LF]) :: repeat Step 37.

