(* ===== verification/BoardTasks.v ===== *)
(** The board itself: led.c, key.c and main.c.  Pins are numbered as GET_PIN does (16 per
    port); [pin_level] is the level of each, inputs included.  The callback of the key runs
    in the interrupt of its pin: while a thread sleeps, the levels the key takes are a list
    of edges. *)

From S2P Require Import Prelude CLib Font Lcd.

Definition PIN_LOW := 0.
Definition PIN_HIGH := 1.
Definition PIN_MODE_OUTPUT := 0.
Definition PIN_MODE_INPUT_PULLUP := 2.
Definition GET_PIN (port pin : Z) : Z := 16 * port + pin.
Definition KEY1_PIN := GET_PIN 6 2.
Definition KEY2_PIN := GET_PIN 6 3.
Definition KEY3_PIN := GET_PIN 6 4.
Definition LED0_PIN := GET_PIN 1 12.
Definition LED1_PIN := GET_PIN 1 13.

Record board : Type := MkBoard {
  pin_mode : gmap Z Z;
  pin_level : gmap Z Z;
  key_irq : bool;
  edges : list (list Z);
  ticks : Z;
  msh : list cstr;
  screen : lcd }.
#[global] Instance board_eta : Eta board := λ b,
  MkBoard (pin_mode b) (pin_level b) (key_irq b) (edges b) (ticks b) (msh b) (screen b).

Definition level (b : board) (pin : Z) : Z := default PIN_HIGH (pin_level b !! pin).
Definition rt_pin_write (pin v : Z) : io board unit :=
  modify (λ b, b <| pin_level := <[pin := v]> (pin_level b) |>).
Definition rt_pin_read (pin : Z) : io board Z := gets (λ b, level b pin).
Definition rt_pin_mode (pin mode : Z) : io board unit :=
  modify (λ b, b <| pin_mode := <[pin := mode]> (pin_mode b) |>).
Definition rt_kprintf (s : cstr) : io board unit := modify (λ b, b <| msh := msh b ++ [s] |>).

(** * key.c *)

Definition key1_callback : io board unit :=
  v ← rt_pin_read KEY1_PIN;
  if v =? 1 then
    rt_kprintf (bytes "up" ++ [LF] ++ bytes "msh >") ;; rt_pin_write LED1_PIN PIN_LOW
  else
    v ← rt_pin_read KEY1_PIN;
    if v =? 0 then
      rt_kprintf (bytes "press" ++ [LF] ++ bytes "msh >") ;; rt_pin_write LED1_PIN PIN_HIGH
    else mret tt.

Definition rt_hw_key_init : io board Z :=
  rt_pin_mode KEY1_PIN PIN_MODE_INPUT_PULLUP ;;
  rt_pin_mode KEY2_PIN PIN_MODE_INPUT_PULLUP ;;
  rt_pin_mode KEY3_PIN PIN_MODE_INPUT_PULLUP ;;
  mret 0.

(** [rt_pin_attach_irq] and [rt_pin_irq_enable] of KEY1. *)
Definition key_sample : io board unit :=
  rt_hw_key_init ;;
  modify (λ b, b <| key_irq := true |>).

(** * Sleeping: the edges of the key that arrive, each with its interrupt. *)

Fixpoint key_edges (levels : list Z) : io board unit :=
  match levels with
  | [] => mret tt
  | v :: levels =>
      rt_pin_write KEY1_PIN v ;;
      irq ← gets key_irq;
      (if irq : bool then key1_callback else mret tt) ;;
      key_edges levels
  end.

Definition rt_thread_delay (time : Z) : io board unit :=
  now ← gets edges;
  modify (λ b, b <| edges := tail (edges b) |> <| ticks := ticks b + time |>) ;;
  key_edges (default [] (head now)).

(** A tick is a millisecond. *)
Definition rt_thread_mdelay (ms : Z) : io board unit := rt_thread_delay ms.

(** * led.c *)

Definition rt_hw_led_init : io board Z :=
  rt_pin_mode LED0_PIN PIN_MODE_OUTPUT ;; rt_pin_mode LED1_PIN PIN_MODE_OUTPUT ;; mret 0.
Definition led_on (pin : Z) : io board unit := rt_pin_write pin PIN_LOW.
Definition led_off (pin : Z) : io board unit := rt_pin_write pin PIN_HIGH.
Definition led_blink (pin time : Z) : io board unit :=
  led_on pin ;; rt_thread_delay time ;; led_off pin ;; rt_thread_delay time.

(** * main.c *)

Definition on_screen {A} (m : io lcd A) : io board A := λ b,
  match m (screen b) with
  | Ret (a, l) => Ret (a, b <| screen := l |>)
  | Fault f => Fault f
  end.

Definition blink_body : io board unit :=
  rt_pin_write LED0_PIN PIN_HIGH ;;
  rt_pin_write LED1_PIN PIN_LOW ;;
  rt_thread_mdelay 500 ;;
  rt_pin_write LED0_PIN PIN_LOW ;;
  rt_pin_write LED1_PIN PIN_HIGH ;;
  rt_thread_mdelay 500.

(** [fuel] turns of [while (count++)]: the value of [count], or [None] when the loop has
    ended. *)
Fixpoint main_loop (fuel : nat) (count : Z) : io board (option Z) :=
  match fuel with
  | O => mret (Some count)
  | S fuel =>
      next ← lift (chk32 (count + 1));
      if count =? 0 then mret None
      else blink_body ;; main_loop fuel next
  end.

Definition main (fuel : nat) : io board (option Z) :=
  on_screen (LCD_ShowString 80 20 100 16 16 (bytes "Car Locator")) ;;
  on_screen (LCD_ShowString 20 80 100 16 16 (bytes "longitude:")) ;;
  on_screen (LCD_ShowString 20 120 100 16 16 (bytes "latitude:")) ;;
  on_screen (LCD_ShowString 20 160 100 16 16 (bytes "Speed:")) ;;
  main_loop fuel 1.

(** * Properties *)

(** Edges of the key change LED1 and the key's own pin, nothing else. *)
Lemma key_edges_frame levels (b : board) :
  wp (key_edges levels) (λ _ b', (∀ pin, pin ≠ KEY1_PIN → pin ≠ LED1_PIN → level b' pin = level b pin) ∧
    ticks b' = ticks b ∧ edges b' = edges b) b.
Proof.
  revert b. induction levels as [|v levels IH]; intros b; cbn [key_edges]; [done|].
  apply wp_bind, wp_modify, wp_bind, wp_gets, wp_bind.
  assert (∀ b1 b2 : board, pin_level b2 = <[KEY1_PIN := v]> (pin_level b) ∨
            (∃ w, pin_level b2 = <[LED1_PIN := w]> (<[KEY1_PIN := v]> (pin_level b))) →
            ∀ pin, pin ≠ KEY1_PIN → pin ≠ LED1_PIN → level b2 pin = level b pin) as Hl.
  { intros _ b2 [E|[w E]] pin H1 H2; unfold level; rewrite E;
      repeat (rewrite lookup_insert_ne by congruence); done. }
  set (b1 := b <| pin_level := _ |>).
  assert (∀ b2 : board, (pin_level b2 = pin_level b1 ∨ ∃ w, pin_level b2 = <[LED1_PIN := w]> (pin_level b1)) →
    ticks b2 = ticks b → edges b2 = edges b →
    wp (key_edges levels) (λ _ b', (∀ pin, pin ≠ KEY1_PIN → pin ≠ LED1_PIN → level b' pin = level b pin) ∧
      ticks b' = ticks b ∧ edges b' = edges b) b2) as Hnext.
  { intros b2 H2 Ht He. eapply wp_mono; [apply IH|]. intros [] b3 (H3 & Ht3 & He3). cbn beta.
    split_and!; [|congruence..]. intros pin Hk Hp. rewrite H3 by done. by apply Hl. }
  destruct (key_irq b1); [|apply wp_ret, Hnext; auto].
  unfold key1_callback. apply wp_bind, wp_gets. case_if.
  { apply wp_bind, wp_modify, wp_modify, Hnext; eauto. }
  apply wp_bind, wp_gets. case_if.
  { apply wp_bind, wp_modify, wp_modify, Hnext; eauto. }
  apply wp_ret, Hnext; auto.
Qed.

Lemma delay_frame time (b : board) :
  wp (rt_thread_delay time) (λ _ b', level b' LED0_PIN = level b LED0_PIN ∧
    ticks b' = ticks b + time) b.
Proof.
  unfold rt_thread_delay. apply wp_bind, wp_gets, wp_bind, wp_modify.
  eapply wp_mono; [apply key_edges_frame|]. intros [] b' (Hl & Ht & _). cbn beta.
  by rewrite (Hl LED0_PIN), Ht.
Qed.

Lemma level_write (b : board) pin v : level (b <| pin_level := <[pin := v]> (pin_level b) |>) pin = v.
Proof. unfold level. cbn. by rewrite lookup_insert_eq. Qed.

(** One turn takes a second and leaves LED0 on (its pin low), whatever the key does. *)
Lemma blink_body_second (b : board) :
  wp blink_body (λ _ b', level b' LED0_PIN = PIN_LOW ∧ ticks b' = ticks b + 1000) b.
Proof.
  unfold blink_body, rt_thread_mdelay. do 2 apply wp_bind, wp_modify. apply wp_bind.
  eapply wp_mono; [apply delay_frame|]. intros [] b1 [_ Ht1]. cbn beta.
  do 2 apply wp_bind, wp_modify. eapply wp_mono; [apply delay_frame|].
  intros [] b2 [Hl2 Ht2]. cbn beta. rewrite Hl2, Ht2. split.
  - unfold level. cbn. by rewrite lookup_insert_ne, lookup_insert_eq.
  - cbn in *. rewrite Ht1. cbn. lia.
Qed.

(** The loop of [main] never ends by its condition.  It runs as long as [count] is an int:
    for 2147483646 seconds, whatever the key does; the next [count++] overflows. *)
Theorem main_loop_overflow n count (b : board) :
  0 < count → count <= INT32_MAX →
  if count + Z.of_nat n <=? INT32_MAX then
    wp (main_loop n count) (λ r b', r = Some (count + Z.of_nat n) ∧
      ticks b' = ticks b + 1000 * Z.of_nat n) b
  else main_loop n count b = Fault SignedOverflow.
Proof.
  revert count b. induction n as [|n IH]; intros count b Hc Hmax.
  { decide_if (count + Z.of_nat 0 <=? INT32_MAX) true. apply wp_ret.
    split; [f_equal|]; cbn; lia. }
  cbn [main_loop]. destruct (decide (count = INT32_MAX)) as [->|Hne].
  { decide_if (INT32_MAX + Z.of_nat (S n) <=? INT32_MAX) false. done. }
  assert (chk32 (count + 1) = Ret (count + 1)) as Hchk
    by (apply chk32_ok; unfold INT32_MIN; lia).
  pose proof (blink_body_second b) as Hb. unfold wp in Hb.
  destruct (blink_body b) as [[[] b1]|] eqn:Eb; [|done]. destruct Hb as [_ Ht].
  assert (mbind (λ next, if count =? 0 then mret None else blink_body ;; main_loop n next)
            (lift (chk32 (count + 1))) b = main_loop n (count + 1) b1) as E.
  { rewrite Hchk. unfold mbind, io_bind, lift. decide_if (count =? 0) false. by rewrite Eb. }
  specialize (IH (count + 1) b1 ltac:(lia) ltac:(lia)).
  replace (count + Z.of_nat (S n)) with (count + 1 + Z.of_nat n) by lia.
  case_if; [|by rewrite E].
  unfold wp. rewrite E. unfold wp in IH.
  destruct (main_loop n (count + 1) b1) as [[r b2]|]; [|done]. destruct IH as [-> ->].
  split; [done|]. rewrite Ht. lia.
Qed.
